(* ===== verification/_CoqProject ===== *)
-Q . S2P
Prelude.v
Llrb.v
Buddy.v
Paging.v
Siphash.v
PlatformMem.v
Machine.v
PageTrees.v
Sched.v
Index.v
Channel.v
Umem.v
Process.v
Capability.v
Irq.v
Iommu.v
Syscall.v
Graph.v
Wp.v
Invariant.v
BaseSpec.v
SchedSpec.v
ChannelSpec.v
UmemSpec.v
BlockSpec.v
MoveSpec.v
ThreadSpec.v
ProcessSpec.v
LifeSpec.v
CallSpec.v
RingSpec.v
RunSpec.v
FutexSpec.v
LoopSpec.v
GrantSpec.v
IrqSpec.v
VtdSpec.v
IommuSpec.v
KernelSpec.v
DispatchSpec.v
Boot.v
Reach.v
Contracts.v
KernelContracts.v
