(* ===== verification/Prelude.v ===== *)
(** * govinDOS: a verification development

    govinDOS is a small SMP microkernel with user-space drivers.  Its kernel
    (src/kernel) has a page allocator, four-level page trees, processes and threads
    over per-processor run queues, a futex table, ownership of physical blocks with
    sharing between processes, "kernel channels" (rings in user memory through which
    a process drives a kernel scheme), capabilities for device memory, interrupts and
    DMA, and a syscall dispatcher.  This library models the kernel from the
    dispatcher down to the allocator and proves what its parts promise.

    ** Data structures, each with an abstract specification
    - [Llrb]: vendor/llrb/llrb_impl.h, the left-leaning red-black tree behind every
      index.  Pointers are options over a recursive tree, a NULL dereference is
      [None]; insertion, extraction, lookup and iteration refine a sorted list, and
      the height, so the recursion depth of the kernel stack, is logarithmic.
    - [Buddy]: vendor/buddy_allocator and the sizing of src/allocator.c.  The heap
      array refines a map from pages to free / allocated / unusable.
    - [Paging]: archsrc/x86_64/paging.c.  The radix tree with huge leaves, splitting
      and merging refines a flat map from addresses to flag words.
    - [Siphash]: vendor/siphash, equal to SipHash-2-4 for every message length.
    - [PlatformMem]: src/platform_mem.c, the policy for mapping device memory.

    ** The kernel proper
    - [Machine]: the structs as records ([thread], [process], [ublock],
      [share_edge], [ring], [cpu], [grant], [irq_route]) and the whole kernel state
      [kstate]; a state monad [M] whose outcomes are a return, a park (the thread
      gave up its processor) and a halt (a failed assertion, a fault, exhausted
      memory, a lock taken against the hierarchy of [lockid], an endless spin).
      Page trees are used through the class [PageTree].
    - [Sched]: run queues, timers, the claim protocol of the futex table
      (scheduler.c, timer.c, futex.c, thread.c).
    - [Index], [Umem]: umem.c and uaccess.c.
    - [Channel]: channel.c, schemes/shares.c and schemes/tree.c.
    - [Process]: process.c and parking (thread.c).
    - [Capability]: capability.c.  [Irq]: schemes/irq.c.
    - [Iommu]: iommu.c and archsrc/x86_64/vtd.c: domains, devices, mappings, the
      second-level tables the remapping unit walks, and fault reports.
    - [Syscall]: futex system calls, the dispatcher syscall.c, the scheduler loop
      and archsrc/x86_64/interrupts.c.
    - [PageTrees]: two instances of [PageTree], the radix tree of [Paging] and the
      flat map it refines.

    ** The proof of the kernel
    - [Graph]: the ownership graph [gview], one column per field that matters to who
      owns, sees and runs what.
    - [Wp]: weakest preconditions over the graph and the [rest] of the state, one
      rule per primitive; an assertion failure, a dangling reference, a broken lock
      order or a spin falsifies it, so every specification is also a safety proof.
    - [Invariant]: [graph_inv] (the doubly kept indexes agree, blocks do not overlap,
      page trees show user rights only on blocks the process owns or was given),
      [pool_inv] (blocks are allocated pages, free pages are pristine) and
      [sched_inv] (thread states, run queues, futex buckets and deadlines agree).
    - [BaseSpec], [SchedSpec], [ChannelSpec], [UmemSpec], [BlockSpec], [MoveSpec],
      [ThreadSpec], [ProcessSpec], [LifeSpec]: the specification of each operation:
      the invariant is kept and the graph changes exactly as stated.  Schemes are
      used through the class [SchemesSafe].
    - [CallSpec], [RingSpec], [RunSpec], [FutexSpec], [LoopSpec]: the system calls, the
      draining of rings, parking and exit, the futex calls, a round of the scheduler.
    - [GrantSpec], [IrqSpec], [VtdSpec], [IommuSpec]: the tree of grants, interrupt
      routes, the second-level tables and the domains, each with its invariant.
    - [KernelSpec]: the kernel's own table of schemes is an instance of [SchemesSafe].
    - [DispatchSpec]: every entry of the kernel: system calls and interrupts.
    - [Boot]: the state the boot sequence hands over satisfies the invariant; a
      concrete machine with two processors on which the examples are evaluated.
    - [Reach]: the transitions of the running kernel (a call, an interrupt, a round of
      the loop, the resumption of a thread, another processor's turn, a write of user
      memory).  Every reachable state satisfies the invariant and every entry from it
      is safe.
    - [Contracts]: the operations as their callers see them: permissions of every
      process at every address before and after.
    - [KernelContracts]: what the whole kernel promises: DMA reaches only mapped
      blocks, grants only narrow, tokens are authentic, killing and dying, order of
      wake-ups and dispatch, moving blocks, device mappings, new processes.

    ** Conventions
    Every C integer is a [Z] and its wrap-around is written out ([u8] .. [u64],
    [add_overflow64]).  Loops that are not structural take fuel; running out is a
    halt of its own ([HSpin]) that the specifications exclude, so the chosen fuel
    (the size of the table a loop walks, 64 rounds for a doubling) is proved enough.
    Metadata allocation may fail at any call ([k_oom]).  One operation runs at a
    time: the model has the lock order and the ownership of every lock, not the
    interleaving inside a critical section.

    A fault of the kernel on user memory ([HFault]), exhausted memory ([HOom]) and the
    death of the first process are halts the specifications accept ([tolerated]); the
    first is real, see [Stories.alias_faults] in [KernelContracts].

    ** Not modelled
    Boot (init.c), ACPI parsing and the discovery of the remapping unit
    (vtd_init_required), APIC and serial drivers and the assembly stubs (register
    level hardware access); the PE loaders; the slab allocator, list and vector
    templates; TLB shootdown between processors; the user-space libraries, C
    library, drivers and tests under src/packages.  They are listed in the manifest
    with the reason. *)

From stdpp Require Export base gmap list strings numbers sorting.
From Stdlib Require Export ZArith Lia.

#[global] Open Scope Z_scope.

(** ** Machine words

    Every [uintN_t] of the C sources is a [Z]; the wrap-around is explicit. *)

Definition u8 (x : Z) : Z := x mod 2 ^ 8.
Definition u16 (x : Z) : Z := x mod 2 ^ 16.
Definition u32 (x : Z) : Z := x mod 2 ^ 32.
Definition u64 (x : Z) : Z := x mod 2 ^ 64.

Definition UINT64_MAX : Z := 2 ^ 64 - 1.

(** [__builtin_add_overflow(a, b, &r)] on [uint64_t]: [None] when it overflows. *)
Definition add_overflow64 (a b : Z) : option Z :=
  if 2 ^ 64 <=? a + b then None else Some (a + b).

(** Two's complement reading of a [uint32_t] / [uint64_t]. *)
Definition i32 (x : Z) : Z := let y := u32 x in if y <? 2 ^ 31 then y else y - 2 ^ 32.
Definition i64 (x : Z) : Z := let y := u64 x in if y <? 2 ^ 63 then y else y - 2 ^ 64.

(** C truth value of an integer. *)
Definition nz (x : Z) : bool := negb (x =? 0).

(** [paging.h]. *)
Definition PAGE_SIZE : Z := 4096.

(** ** Lists *)

Lemma find_app {A} (f : A -> bool) (l1 l2 : list A) :
  List.find f (l1 ++ l2) =
    match List.find f l1 with Some x => Some x | None => List.find f l2 end.
Proof. induction l1 as [|a l1 IH]; simpl; [done|]. by destruct (f a). Qed.

Lemma filter_all {A} (P : A -> Prop) `{forall x, Decision (P x)} (l : list A) :
  Forall P l -> base.filter P l = l.
Proof. induction 1; [done|]. rewrite filter_cons_True by done. by f_equal. Qed.

Lemma filter_none {A} (P : A -> Prop) `{forall x, Decision (P x)} (l : list A) :
  Forall (fun x => ~ P x) l -> base.filter P l = [].
Proof. induction 1; [done|]. by rewrite filter_cons_False. Qed.

Lemma Forall_impl2 {A} (P Q R : A -> Prop) (l : list A) :
  Forall P l -> Forall Q l -> (forall x, P x -> Q x -> R x) -> Forall R l.
Proof. rewrite !Forall_forall. naive_solver. Qed.

(** ** Arithmetic *)

Lemma u8_small x : 0 <= x < 256 -> u8 x = x.
Proof. intros. by apply Z.mod_small. Qed.

Lemma u16_small x : 0 <= x < 2 ^ 16 -> u16 x = x.
Proof. intros. by apply Z.mod_small. Qed.

Lemma u32_small x : 0 <= x < 2 ^ 32 -> u32 x = x.
Proof. intros. by apply Z.mod_small. Qed.

Lemma u64_small x : 0 <= x < 2 ^ 64 -> u64 x = x.
Proof. intros. by apply Z.mod_small. Qed.

Lemma pow2_pos n : 0 <= n -> 0 < 2 ^ n.
Proof. intros. by apply Z.pow_pos_nonneg. Qed.

Lemma pow2_le a b : 0 <= a <= b -> 2 ^ a <= 2 ^ b.
Proof. intros. apply Z.pow_le_mono_r; lia. Qed.

Lemma pow2_S n : 0 <= n -> 2 ^ (n + 1) = 2 * 2 ^ n.
Proof. intros. by rewrite Z.pow_add_r, Z.mul_comm. Qed.

(** ** Sums *)

Fixpoint zsum {A} (f : A -> Z) (l : list A) : Z :=
  match l with [] => 0 | x :: l => f x + zsum f l end.

Lemma zsum_insert {A} (f : A -> Z) (l : list A) i x y :
  l !! i = Some x -> zsum f (<[i := y]> l) = zsum f l - f x + f y.
Proof.
  revert i. induction l as [|z l IH]; intros [|i] Hi; simplify_eq/=; [lia|]. rewrite IH by done. lia.
Qed.

Lemma zsum_app {A} (f : A -> Z) (l1 l2 : list A) : zsum f (l1 ++ l2) = zsum f l1 + zsum f l2.
Proof. induction l1 as [|x l1 IH]; simpl; [done|]. rewrite IH. lia. Qed.

Lemma zsum_zero {A} (f : A -> Z) (l : list A) : Forall (fun x => f x = 0) l -> zsum f l = 0.
Proof. induction 1; simpl; lia. Qed.

Lemma zsum_nonneg {A} (f : A -> Z) (l : list A) : Forall (fun x => 0 <= f x) l -> 0 <= zsum f l.
Proof. induction 1; simpl; lia. Qed.

Lemma zsum_lookup_le {A} (f : A -> Z) (l : list A) i x :
  Forall (fun x => 0 <= f x) l -> l !! i = Some x -> f x <= zsum f l.
Proof.
  intros Hall. revert i. induction Hall as [|y l Hy Hall IH]; intros [|i] Hi; simplify_eq/=.
  - pose proof (zsum_nonneg f l Hall). lia.
  - specialize (IH i Hi). lia.
Qed.

(** [lia] with division and modulus by constants. *)
Ltac div_lia := Z.to_euclidean_division_equations; lia.
