(* ===== verification/Llrb.v ===== *)
(** * The left-leaning red-black tree template

    Models [kernel/vendor/llrb/llrb_impl.h], the ordered index every kernel
    table is built on (pid, block, view, share-edge, grant, futex-bucket and
    deadline trees).

    A subtree pointer is a value of [tree]; [Null] is the NULL pointer.  Each
    node carries its storage address, because the kernel keeps pointers into
    nodes (a [ublock] lives inline in its [llrb_base_block] node): the theorems
    track addresses, so that they say which node is handed back and that no
    other entry moves.  Every dereference of a NULL pointer in the C code is
    [None] in the model, so a theorem that a call returns [Some] includes that
    it dereferences no NULL pointer.  Parent links are not stored: the iterator,
    their only reader, carries the path from the root instead.

    [LLRB_NODE_MALLOC] is an argument ([malloc : option Z], the address it
    returns or [None] when it fails). *)

From S2P Require Import Prelude.

(** ** Keys

    [LLRB_COMPARE] receives two keys and returns a negative, zero or positive
    [int]; the template relies on it being a strict total order. *)

Class LlrbCompare (K : Type) := llrb_compare : K -> K -> Z.

Class LlrbOrder (K : Type) `{LlrbCompare K} := {
  compare_eq (a b : K) : llrb_compare a b = 0 <-> a = b;
  compare_flip (a b : K) : llrb_compare a b < 0 <-> 0 < llrb_compare b a;
  compare_trans (a b c : K) :
    llrb_compare a b < 0 -> llrb_compare b c < 0 -> llrb_compare a c < 0 }.

(** [((( *a) > ( *b)) - (( *a) < ( *b)))]: the [uint64_t] instances. *)
#[export] Instance u64_compare : LlrbCompare Z :=
  fun a b => Z.b2z (b <? a) - Z.b2z (a <? b).

(** [struct futex_key] and [struct tdeadline_key] compare lexicographically. *)
Record futex_key := FutexKey { fk_address : Z; fk_seq : Z }.

#[export] Instance futex_compare : LlrbCompare futex_key := fun a b =>
  if negb (fk_address a =? fk_address b)
  then Z.b2z (fk_address b <? fk_address a) - Z.b2z (fk_address a <? fk_address b)
  else Z.b2z (fk_seq b <? fk_seq a) - Z.b2z (fk_seq a <? fk_seq b).

Record tdeadline_key := TdeadlineKey { tk_deadline_ns : Z; tk_tid : Z }.

#[export] Instance tdeadline_compare : LlrbCompare tdeadline_key := fun a b =>
  if negb (tk_deadline_ns a =? tk_deadline_ns b)
  then Z.b2z (tk_deadline_ns b <? tk_deadline_ns a) - Z.b2z (tk_deadline_ns a <? tk_deadline_ns b)
  else Z.b2z (tk_tid b <? tk_tid a) - Z.b2z (tk_tid a <? tk_tid b).

Section Llrb.

Context {K V : Type} `{LlrbCompare K}.

(** ** Nodes, trees, the tree object *)

Record node := Node { n_addr : Z; n_key : K; n_value : V }.

Inductive tree :=
  | Null
  | Bin (red : bool) (left : tree) (n : node) (right : tree).

Record llrb := Llrb { root : tree; len : Z }.

Definition is_red (t : tree) : bool :=
  match t with Null => false | Bin red _ _ _ => red end.

(** [h->left], [h->right]: [None] is a NULL dereference. *)
Definition left_of (t : tree) : option tree :=
  match t with Null => None | Bin _ l _ _ => Some l end.

Definition right_of (t : tree) : option tree :=
  match t with Null => None | Bin _ _ _ r => Some r end.

Definition rotate_left (h : tree) : option tree :=
  match h with
  | Bin c l n (Bin _ xl x xr) => Some (Bin c (Bin true l n xl) x xr)
  | _ => None
  end.

Definition rotate_right (h : tree) : option tree :=
  match h with
  | Bin c (Bin _ xl x xr) n r => Some (Bin c xl x (Bin true xr n r))
  | _ => None
  end.

Definition flip_colors (h : tree) : option tree :=
  match h with
  | Bin c (Bin cl ll ln lr) n (Bin cr rl rn rr) =>
      Some (Bin (negb c) (Bin (negb cl) ll ln lr) n (Bin (negb cr) rl rn rr))
  | _ => None
  end.

Definition fix_up (h : tree) : option tree :=
  l ← left_of h; r ← right_of h;
  h ← (if is_red r && negb (is_red l) then rotate_left h else Some h);
  l ← left_of h;
  h ← (if is_red l
       then ll ← left_of l; if is_red ll then rotate_right h else Some h
       else Some h);
  l ← left_of h; r ← right_of h;
  if is_red l && is_red r then flip_colors h else Some h.

(** [insert]: the result code is [-1] (no memory), [0] (duplicate) or [1]. *)
Fixpoint insert (h : tree) (k : K) (v : V) (spare malloc : option Z)
    : option (tree * Z) :=
  match h with
  | Null =>
      match (match spare with Some a => Some a | None => malloc end) with
      | None => Some (Null, -1)
      | Some a => Some (Bin true Null (Node a k v) Null, 1)
      end
  | Bin c l n r =>
      let cmp := llrb_compare k (n_key n) in
      if cmp <? 0 then
        '(l', result) ← insert l k v spare malloc;
        if result <? 0 then Some (h, result)
        else t ← fix_up (Bin c l' n r); Some (t, result)
      else if 0 <? cmp then
        '(r', result) ← insert r k v spare malloc;
        if result <? 0 then Some (h, result)
        else t ← fix_up (Bin c l n r'); Some (t, result)
      else Some (h, 0)
  end.

Definition move_red_left (h : tree) : option tree :=
  h ← flip_colors h;
  r ← right_of h; rl ← left_of r;
  if is_red rl then
    match h with
    | Bin c l n r =>
        r ← rotate_right r;
        h ← rotate_left (Bin c l n r);
        flip_colors h
    | Null => None
    end
  else Some h.

Definition move_red_right (h : tree) : option tree :=
  h ← flip_colors h;
  l ← left_of h; ll ← left_of l;
  if is_red ll then
    h ← rotate_right h;
    flip_colors h
  else Some h.

(** The guards before a descent: [if (!is_red(h->left) && !is_red(h->left->left))
    h = move_red_left(h)], and its mirror image on the right. *)
Definition push_red_left (h : tree) : option tree :=
  l ← left_of h;
  if is_red l then Some h
  else ll ← left_of l; if is_red ll then Some h else move_red_left h.

Definition push_red_right (h : tree) : option tree :=
  r ← right_of h;
  if is_red r then Some h
  else rl ← left_of r; if is_red rl then Some h else move_red_right h.

(** [delete_min] unlinks the leftmost node and returns it ([keep]). *)
Fixpoint delete_min (fuel : nat) (h : tree) : option (tree * node) :=
  match fuel with
  | O => None
  | S fuel =>
      match h with
      | Null => None
      | Bin _ Null n _ => Some (Null, n)
      | _ =>
          h ← push_red_left h;
          match h with
          | Null => None
          | Bin c l n r =>
              '(l', m) ← delete_min fuel l;
              t ← fix_up (Bin c l' n r);
              Some (t, m)
          end
      end
  end.

(** [remove]: [Some (t, n)] is the new subtree and the matched node. *)
Fixpoint remove (fuel : nat) (h : tree) (k : K) : option (tree * node) :=
  match fuel with
  | O => None
  | S fuel =>
      match h with
      | Null => None
      | Bin _ l n _ =>
          if llrb_compare k (n_key n) <? 0 then
            h ← push_red_left h;
            match h with
            | Null => None
            | Bin c l n r =>
                '(l', m) ← remove fuel l k;
                t ← fix_up (Bin c l' n r);
                Some (t, m)
            end
          else
            h ← (if is_red l then rotate_right h else Some h);
            match h with
            | Null => None
            | Bin _ _ n r =>
                if (llrb_compare k (n_key n) =? 0) && (match r with Null => true | _ => false end)
                then Some (Null, n)
                else
                  h ← push_red_right h;
                  match h with
                  | Null => None
                  | Bin c l n r =>
                      if llrb_compare k (n_key n) =? 0 then
                        '(r', s) ← delete_min fuel r;
                        t ← fix_up (Bin c l s r');
                        Some (t, n)
                      else
                        '(r', m) ← remove fuel r k;
                        t ← fix_up (Bin c l n r');
                        Some (t, m)
                  end
            end
      end
  end.

Fixpoint tree_size (t : tree) : nat :=
  match t with Null => 0 | Bin _ l _ r => S (tree_size l + tree_size r) end.

Definition set_red (t : tree) (c : bool) : tree :=
  match t with Null => Null | Bin _ l n r => Bin c l n r end.

(** ** The public operations *)

Definition llrb_new : llrb := Llrb Null 0.

Definition llrb_clear (t : llrb) : llrb := Llrb Null 0.

(** The body shared by [_insert] ([spare] is NULL) and [_insert_node]. *)
Definition insert_root (t : llrb) (k : K) (v : V) (spare malloc : option Z)
    : option (llrb * bool) :=
  '(r, result) ← insert (root t) k v spare malloc;
  Some (Llrb (set_red r false) (if result =? 1 then u64 (len t + 1) else len t), result =? 1).

Definition llrb_insert (t : llrb) (k : K) (v : V) (malloc : option Z) : option (llrb * bool) :=
  insert_root t k v None malloc.

Definition llrb_insert_node (t : llrb) (k : K) (v : V) (node : Z) : option (llrb * bool) :=
  insert_root t k v (Some node) None.

Fixpoint get_node (t : tree) (k : K) : option node :=
  match t with
  | Null => None
  | Bin _ l n r =>
      let cmp := llrb_compare k (n_key n) in
      if cmp <? 0 then get_node l k
      else if 0 <? cmp then get_node r k
      else Some n
  end.

(** [_get] copies the value out, [_get_ref] returns its address in the node. *)
Definition llrb_get (t : llrb) (k : K) : option V := option_map n_value (get_node (root t) k).

Definition llrb_get_ref (t : llrb) (k : K) : option Z := option_map n_addr (get_node (root t) k).

Fixpoint floor_loop (t : tree) (k : K) (best : option node) : option node :=
  match t with
  | Null => best
  | Bin _ l n r =>
      let cmp := llrb_compare k (n_key n) in
      if cmp <? 0 then floor_loop l k best
      else if cmp =? 0 then Some n
      else floor_loop r k (Some n)
  end.

Definition llrb_floor (t : llrb) (k : K) : option (K * V) :=
  option_map (fun n => (n_key n, n_value n)) (floor_loop (root t) k None).

(** [remove_root]: [None] is a NULL dereference; [Some (t, None)] is "not found". *)
Definition remove_root (t : llrb) (k : K) : option (llrb * option node) :=
  match get_node (root t) k with
  | None => Some (t, None)
  | Some _ =>
      l ← left_of (root t); r ← right_of (root t);
      let rt := if negb (is_red l) && negb (is_red r) then set_red (root t) true else root t in
      '(rt', n) ← remove (S (tree_size rt)) rt k;
      Some (Llrb (set_red rt' false) (u64 (len t - 1)), Some n)
  end.

(** [_remove] frees the node, [_extract] hands it back to the caller. *)
Definition llrb_remove (t : llrb) (k : K) : option (llrb * option V) :=
  '(t', n) ← remove_root t k; Some (t', option_map n_value n).

Definition llrb_extract (t : llrb) (k : K) : option (llrb * option (V * Z)) :=
  '(t', n) ← remove_root t k; Some (t', option_map (fun m => (n_value m, n_addr m)) n).

Definition llrb_len (t : llrb) : Z := len t.

(** ** Iterators

    [iter->node] is a position in the tree: the node, its right subtree and
    the chain of parents, each with whether the walk came from its right child
    (the test [n == parent->right] of [_iter_next]). *)

Record frame := Frame { f_from_right : bool; f_node : node; f_right : tree }.

Record pos := Pos { p_node : node; p_right : tree; p_up : list frame }.

Definition iter := option pos.

Fixpoint cmin (t : tree) (up : list frame) : iter :=
  match t with
  | Null => None
  | Bin _ Null n r => Some (Pos n r up)
  | Bin _ l n r => cmin l (Frame false n r :: up)
  end.

Fixpoint climb (up : list frame) : iter :=
  match up with
  | [] => None
  | Frame true _ _ :: up => climb up
  | Frame false n r :: up => Some (Pos n r up)
  end.

Definition iter_begin (t : llrb) : iter := cmin (root t) [].

Fixpoint lower_bound_loop (t : tree) (k : K) (up : list frame) (best : iter) : iter :=
  match t with
  | Null => best
  | Bin _ l n r =>
      let cmp := llrb_compare k (n_key n) in
      if cmp <=? 0 then
        if cmp =? 0 then Some (Pos n r up)
        else lower_bound_loop l k (Frame false n r :: up) (Some (Pos n r up))
      else lower_bound_loop r k (Frame true n r :: up) best
  end.

Definition iter_lower_bound (t : llrb) (k : K) : iter := lower_bound_loop (root t) k [] None.

(** [_iter_next]: the current entry and the advanced iterator. *)
Definition iter_next (it : iter) : option (node * iter) :=
  match it with
  | None => None
  | Some (Pos n r up) =>
      match r with
      | Null => Some (n, climb up)
      | _ => Some (n, cmin r (Frame true n r :: up))
      end
  end.

(** ** The diagnostic validator *)

Record validation := Validation { v_valid : bool; v_count : Z; v_black_height : Z }.

Definition below (low : option K) (k : K) : bool :=
  match low with Some lo => llrb_compare k lo <=? 0 | None => false end.

Definition above (high : option K) (k : K) : bool :=
  match high with Some hi => 0 <=? llrb_compare k hi | None => false end.

Fixpoint validate (t : tree) (low high : option K) : validation :=
  match t with
  | Null => Validation true 0 1
  | Bin c l n r =>
      if below low (n_key n) || above high (n_key n) || is_red r || (c && is_red l)
      then Validation false 0 0
      else
        let left := validate l low (Some (n_key n)) in
        let right := validate r (Some (n_key n)) high in
        if negb (v_valid left) || negb (v_valid right)
           || negb (v_black_height left =? v_black_height right)
        then Validation false 0 0
        else Validation true (v_count left + v_count right + 1)
               (v_black_height left + (if c then 0 else 1))
  end.

Definition llrb_valid (t : llrb) : bool :=
  match root t with
  | Bin true _ _ _ => false
  | _ => let v := validate (root t) None None in v_valid v && (v_count v =? len t)
  end.

End Llrb.

Arguments node : clear implicits.
Arguments tree : clear implicits.
Arguments llrb : clear implicits.
Arguments frame : clear implicits.
Arguments pos : clear implicits.
Arguments iter : clear implicits.


(** ** Specification vocabulary *)

Section Spec.

Context {K V : Type} `{LlrbCompare K}.

Fixpoint inorder (t : tree K V) : list (node K V) :=
  match t with Null => [] | Bin _ l n r => inorder l ++ n :: inorder r end.

(** Colour and balance: [wf t n] says that [t] leans left, has no red node
    with a red left child and has [n] black nodes on every path. *)
Fixpoint wf (t : tree K V) (n : nat) : Prop :=
  match t with
  | Null => n = O
  | Bin c l _ r =>
      is_red r = false /\ (c = true -> is_red l = false) /\
      match c, n with
      | true, _ => wf l n /\ wf r n
      | false, O => False
      | false, S m => wf l m /\ wf r m
      end
  end.

(** What [insert] returns below a red node: a red node whose left child may be
    red as well. *)
Definition almost (t : tree K V) (n : nat) : Prop :=
  match t with
  | Bin true l _ r => is_red r = false /\ wf l n /\ wf r n
  | _ => wf t n
  end.

Definition node_lt (a b : node K V) : Prop := llrb_compare (n_key a) (n_key b) < 0.

(** The well-formed tree object: ordered, balanced, black root, exact length. *)
Record valid (t : llrb K V) : Prop := {
  valid_sorted : StronglySorted node_lt (inorder (root t));
  valid_balanced : exists n, wf (root t) n;
  valid_root : is_red (root t) = false;
  valid_len : len t = Z.of_nat (length (inorder (root t)));
  valid_bound : len t < 2 ^ 64 }.

(** Reference operations on the sorted list of nodes. *)
Fixpoint list_insert (m : node K V) (l : list (node K V)) : list (node K V) :=
  match l with
  | [] => [m]
  | x :: l' =>
      if llrb_compare (n_key m) (n_key x) <? 0 then m :: x :: l'
      else if 0 <? llrb_compare (n_key m) (n_key x) then x :: list_insert m l'
      else x :: l'
  end.

Definition list_delete (k : K) (l : list (node K V)) : list (node K V) :=
  base.filter (fun x => llrb_compare k (n_key x) <> 0) l.

Definition list_find (k : K) (l : list (node K V)) : option (node K V) :=
  List.find (fun x => llrb_compare k (n_key x) =? 0) l.

Definition storage (spare malloc : option Z) : option Z :=
  match spare with Some a => Some a | None => malloc end.

Definition hot (t : tree K V) : bool :=
  match t with Null => false | Bin c l _ _ => c || is_red l end.

Definition right_hot (t : tree K V) (m : nat) : Prop :=
  match t, m with
  | Bin false l _ r, S m => wf l m /\ wf r m /\ is_red l = false /\ is_red r = true
  | _, _ => False
  end.

(** A node about to recurse into its left child. *)
Definition left_open (c : bool) (l r : tree K V) (m : nat) : Prop :=
  hot l = true /\
  match c, m with
  | false, S m => wf l m /\ wf r m
  | true, m => wf l m /\ wf r m /\ is_red l = false /\ is_red r = false
  | _, _ => False
  end.

Definition removable (t : tree K V) (m : nat) : Prop :=
  (wf t m /\ hot t = true) \/ right_hot t m.

(** A node about to recurse into its right child. *)
Definition right_open (c : bool) (l r : tree K V) (m : nat) : Prop :=
  match c, m with
  | false, S m => wf l m /\ wf r m /\ hot r = true
  | true, m => wf l m /\ is_red l = false /\ is_red r = false /\ removable r m
  | _, _ => False
  end.

Fixpoint rest (up : list (frame K V)) : list (node K V) :=
  match up with
  | [] => []
  | Frame true _ _ :: up => rest up
  | Frame false n r :: up => n :: inorder r ++ rest up
  end.

(** The entries an iterator has still to yield. *)
Definition iter_list (it : iter K V) : list (node K V) :=
  match it with None => [] | Some (Pos n r up) => n :: inorder r ++ rest up end.

(** The reference floor: the last entry whose key is not above [k]. *)
Definition list_floor (k : K) (l : list (node K V)) : option (node K V) :=
  last (base.filter (fun x => 0 <= llrb_compare k (n_key x)) l).

Fixpoint height (t : tree K V) : Z :=
  match t with Null => 0 | Bin _ l _ r => 1 + Z.max (height l) (height r) end.

Definition in_range (low high : option K) (x : node K V) : Prop :=
  below low (n_key x) = false /\ above high (n_key x) = false.

(** The validator's verdict on a subtree. *)
Definition accepted (t : tree K V) (low high : option K) (m : nat) : Prop :=
  validate t low high = Validation true (Z.of_nat (length (inorder t))) (Z.of_nat m + 1).

(** The loop [while (_iter_next(&it, ...))]. *)
Fixpoint drain (fuel : nat) (it : iter K V) : list (node K V) :=
  match fuel with
  | O => []
  | S fuel => match iter_next it with None => [] | Some (n, it') => n :: drain fuel it' end
  end.

End Spec.

Section Facts.

Context {K V : Type} `{LlrbOrder K}.

Implicit Types (t h l r : tree K V) (n x : node K V) (k : K) (m : nat).

(** *** Rebalancing keeps the inorder list *)

Lemma rotate_left_inorder h h' : rotate_left h = Some h' -> inorder h' = inorder h.
Proof.
  destruct h as [|c l n [|c' xl x xr]]; simpl; intros; simplify_eq.
  simpl. by rewrite <-app_assoc.
Qed.

Lemma rotate_right_inorder h h' : rotate_right h = Some h' -> inorder h' = inorder h.
Proof.
  destruct h as [|c [|c' xl x xr] n r]; simpl; intros; simplify_eq.
  simpl. by rewrite <-app_assoc.
Qed.

Lemma flip_colors_inorder h h' : flip_colors h = Some h' -> inorder h' = inorder h.
Proof. destruct h as [|c [] n []]; simpl; intros; by simplify_eq. Qed.

Ltac inorder_step :=
  match goal with
  | H : Some _ = Some _ |- _ => injection H as <-
  | H : None = Some _ |- _ => discriminate H
  | H : rotate_left _ = Some _ |- _ => apply rotate_left_inorder in H
  | H : rotate_right _ = Some _ |- _ => apply rotate_right_inorder in H
  | H : flip_colors _ = Some _ |- _ => apply flip_colors_inorder in H
  | H : _ ≫= _ = Some _ |- _ => apply bind_Some in H as (? & ? & H)
  | H : (if ?b then _ else _) = Some _ |- _ => destruct b
  end.

Lemma fix_up_inorder h h' : fix_up h = Some h' -> inorder h' = inorder h.
Proof. unfold fix_up. intros. repeat inorder_step; congruence. Qed.

Lemma move_red_left_inorder h h' : move_red_left h = Some h' -> inorder h' = inorder h.
Proof.
  unfold move_red_left. intros Hm. repeat inorder_step; try congruence.
  destruct x as [|c l n r]; [done|]. repeat inorder_step. simpl in *. congruence.
Qed.

Lemma move_red_right_inorder h h' : move_red_right h = Some h' -> inorder h' = inorder h.
Proof. unfold move_red_right. intros. repeat inorder_step; congruence. Qed.

(** *** Colours and balance *)

Ltac split_wf :=
  repeat match goal with
  | H : _ /\ _ |- _ => destruct H
  | H : False |- _ => destruct H
  | H : true = true -> _ |- _ => specialize (H eq_refl)
  | H : wf (Bin true _ _ _) _ |- _ => simpl in H
  | H : wf (Bin false _ _ _) ?n |- _ => destruct n; simpl in H
  | H : wf Null _ |- _ => simpl in H; subst
  end.

Lemma wf_black_0 t : wf t 0 -> is_red t = false -> t = Null.
Proof. destruct t as [|[] l n r]; simpl; naive_solver. Qed.

Lemma wf_black_S t m : wf t (S m) -> is_red t = false ->
  exists l n r, t = Bin false l n r /\ wf l m /\ wf r m /\ is_red r = false.
Proof. destruct t as [|[] l n r]; simpl; naive_solver. Qed.

Lemma wf_red_inv t m : wf t m -> is_red t = true ->
  exists l n r, t = Bin true l n r /\ wf l m /\ wf r m /\ is_red l = false /\ is_red r = false.
Proof. destruct t as [|[] l n r]; simpl; naive_solver. Qed.

Lemma wf_almost t m : wf t m -> almost t m.
Proof. destruct t as [|[] l n r]; simpl; naive_solver. Qed.

(** Repairing a subtree that needs no repair changes nothing. *)
Lemma fix_up_id c l n r m :
  wf l m -> is_red r = false -> fix_up (Bin c l n r) = Some (Bin c l n r).
Proof.
  intros Hl Hr. unfold fix_up. simpl. rewrite Hr. simpl.
  destruct (is_red l) eqn:El; simpl; [|by rewrite El].
  apply wf_red_inv in Hl as (ll & ln & lr & -> & _ & _ & Hll & _); [|done].
  simpl. rewrite Hll. simpl. by rewrite Hr.
Qed.

Lemma fix_up_black l n r m : wf l m -> wf r m -> exists h',
  fix_up (Bin false l n r) = Some h' /\ wf h' (S m) /\
  (is_red l = false \/ is_red r = false -> is_red h' = false).
Proof.
  intros Hl Hr. destruct (is_red r) eqn:Er.
  - apply wf_red_inv in Hr as (rl & rn & rr & -> & Hrl & Hrr & Erl & Err); [|done].
    unfold fix_up. simpl. destruct (is_red l) eqn:El; simpl; rewrite ?El; simpl.
    + apply wf_red_inv in Hl as (ll & ln & lr & -> & Hll & Hlr & Ell & Elr); [|done].
      simpl. rewrite Ell. simpl. eexists. split; [done|]. simpl. naive_solver.
    + rewrite Err. simpl. eexists. split; [done|]. simpl. naive_solver.
  - rewrite (fix_up_id _ _ _ _ m) by done. eexists. split; [done|]. simpl. naive_solver.
Qed.

Lemma fix_up_black_almost l n r m : almost l m -> wf r m -> is_red r = false -> exists h',
  fix_up (Bin false l n r) = Some h' /\ wf h' (S m).
Proof.
  intros Hl Hr Er. destruct l as [|[] ll ln lr].
  1,3: destruct (fix_up_black _ n _ m Hl Hr) as (h' & ? & ? & _); eauto.
  simpl in Hl. destruct Hl as (Elr & Hll & Hlr). destruct (is_red ll) eqn:Ell.
  - apply wf_red_inv in Hll as (a & x & b & -> & Ha & Hb & Ea & Eb); [|done].
    unfold fix_up. simpl. rewrite Er. simpl. eexists. split; [done|]. simpl. naive_solver.
  - rewrite (fix_up_id _ _ _ _ m) by (simpl; naive_solver).
    eexists. split; [done|]. simpl. naive_solver.
Qed.

Lemma fix_up_red_right l n r m : wf l m -> wf r m -> is_red l = false -> exists h',
  fix_up (Bin true l n r) = Some h' /\ almost h' m.
Proof.
  intros Hl Hr El. destruct (is_red r) eqn:Er.
  - apply wf_red_inv in Hr as (rl & rn & rr & -> & Hrl & Hrr & Erl & Err); [|done].
    unfold fix_up. simpl. rewrite El. simpl. rewrite El. simpl. rewrite Err.
    eexists. split; [done|]. simpl. naive_solver.
  - rewrite (fix_up_id _ _ _ _ m) by done. eexists. split; [done|]. simpl. naive_solver.
Qed.

(** *** Insertion *)

Lemma insert_balanced t k v spare malloc m : wf t m -> exists t' res,
  insert t k v spare malloc = Some (t', res) /\ almost t' m /\
  (is_red t = false -> wf t' m) /\ (res <= 0 -> t' = t).
Proof.
  revert m. induction t as [|c l IHl n r IHr]; intros m Hwf; simpl.
  { simpl in Hwf. subst. destruct spare as [a|]; [|destruct malloc as [a|]];
      do 2 eexists; (split; [done|]); simpl; naive_solver lia. }
  case_match; [|case_match].
  - destruct c.
    + destruct (IHl m) as (l' & res & -> & _ & Hl' & Hid); [simpl in Hwf; naive_solver|].
      simpl in Hwf |- *. destruct Hwf as (Er & El & Hl & Hr).
      specialize (Hl' (El eq_refl)).
      case_match; [do 2 eexists; split; [done|]; simpl; naive_solver|].
      rewrite (fix_up_id _ _ _ _ m) by done. simpl. do 2 eexists. split; [done|].
      simpl. split_and!; [naive_solver..|]. intros ?. by rewrite Hid.
    + destruct m as [|m]; [simpl in Hwf; naive_solver|].
      simpl in Hwf. destruct Hwf as (Er & _ & Hl & Hr).
      destruct (IHl m Hl) as (l' & res & -> & Hal & _ & Hid). simpl.
      case_match; [do 2 eexists; split; [done|]; simpl; naive_solver|].
      destruct (fix_up_black_almost l' n r m) as (h' & Hf & Hh); [done..|].
      rewrite Hf. simpl. do 2 eexists. split; [done|].
      split_and!; [by apply wf_almost|done|]. intros Hres.
      rewrite (Hid Hres) in Hf. rewrite (fix_up_id _ _ _ _ m) in Hf by done. by simplify_eq.
  - destruct c.
    + destruct (IHr m) as (r' & res & -> & _ & Hr' & Hid); [simpl in Hwf; naive_solver|].
      simpl in Hwf |- *. destruct Hwf as (Er & El & Hl & Hr).
      case_match; [do 2 eexists; split; [done|]; simpl; naive_solver|].
      destruct (fix_up_red_right l n r' m) as (h' & Hf & Hh); [naive_solver..|].
      rewrite Hf. simpl. do 2 eexists. split; [done|]. split_and!; [done|done|].
      intros Hres. rewrite (Hid Hres) in Hf. rewrite (fix_up_id _ _ _ _ m) in Hf by done.
      by simplify_eq.
    + destruct m as [|m]; [simpl in Hwf; naive_solver|].
      simpl in Hwf. destruct Hwf as (Er & _ & Hl & Hr).
      destruct (IHr m Hr) as (r' & res & -> & _ & Hr' & Hid). simpl.
      case_match; [do 2 eexists; split; [done|]; simpl; naive_solver|].
      destruct (fix_up_black l n r' m) as (h' & Hf & Hh & _); [naive_solver..|].
      rewrite Hf. simpl. do 2 eexists. split; [done|].
      split_and!; [by apply wf_almost|done|]. intros Hres.
      rewrite (Hid Hres) in Hf. rewrite (fix_up_id _ _ _ _ m) in Hf by done. by simplify_eq.
  - do 2 eexists. split; [done|]. split_and!; [by apply wf_almost|done|done].
Qed.

(** *** Reference list operations *)

Lemma compare_pos_lt (a b : K) : 0 < llrb_compare a b -> llrb_compare b a < 0.
Proof. by rewrite <-compare_flip. Qed.

Lemma compare_cases (a b : K) :
  {llrb_compare a b < 0} + {a = b} + {llrb_compare b a < 0}.
Proof.
  destruct (Z_lt_le_dec (llrb_compare a b) 0); [by left; left|].
  destruct (Z.eq_dec (llrb_compare a b) 0) as [E|].
  - left. right. by apply compare_eq.
  - right. apply compare_pos_lt. lia.
Qed.

Lemma compare_lt_irrefl (a : K) : ~ llrb_compare a a < 0.
Proof. intros ?. assert (llrb_compare a a = 0) by (by apply compare_eq). lia. Qed.

Lemma compare_lt_ne (a b : K) : llrb_compare a b < 0 -> llrb_compare b a <> 0.
Proof. rewrite compare_flip. lia. Qed.

Lemma sorted_mid (l1 l2 : list (node K V)) n :
  StronglySorted node_lt (l1 ++ n :: l2) <->
  StronglySorted node_lt l1 /\ StronglySorted node_lt l2 /\
  Forall (fun x => node_lt x n) l1 /\ Forall (node_lt n) l2.
Proof.
  induction l1 as [|a l1 IH]; simpl.
  - split; [inversion 1; subst; split_and!; auto using SSorted_nil|].
    intros (_ & ? & _ & ?). by constructor.
  - split.
    + inversion 1 as [|? ? Hs Hf]; subst. apply IH in Hs as (? & ? & ? & ?).
      apply Forall_app in Hf as [? Hf]. inversion Hf; subst.
      split_and!; auto; by constructor.
    + intros (Hs & ? & Hf & Hn). inversion Hs; inversion Hf; subst.
      constructor; [by apply IH|]. apply Forall_app. split; [done|].
      constructor; [done|]. eapply Forall_impl; [exact Hn|].
      intros b Hb. unfold node_lt in *. eapply compare_trans; eauto.
Qed.

Lemma list_insert_app_lt (m : node K V) (l1 l2 : list (node K V)) x :
  llrb_compare (n_key m) (n_key x) < 0 ->
  list_insert m (l1 ++ x :: l2) = list_insert m l1 ++ x :: l2.
Proof.
  intros Hlt. induction l1 as [|a l1 IH]; simpl.
  - by destruct (Z.ltb_spec (llrb_compare (n_key m) (n_key x)) 0); [|lia].
  - repeat case_match; simpl; congruence.
Qed.

Lemma list_insert_app_ge (m : node K V) (l1 l2 : list (node K V)) :
  Forall (fun x => llrb_compare (n_key x) (n_key m) < 0) l1 ->
  list_insert m (l1 ++ l2) = l1 ++ list_insert m l2.
Proof.
  induction 1 as [|a l1 Ha _ IH]; simpl; [done|].
  apply compare_flip in Ha.
  destruct (Z.ltb_spec (llrb_compare (n_key m) (n_key a)) 0); [lia|].
  destruct (Z.ltb_spec 0 (llrb_compare (n_key m) (n_key a))); [|lia]. by rewrite IH.
Qed.

Lemma list_delete_all (k : K) (l : list (node K V)) :
  Forall (fun x => llrb_compare k (n_key x) <> 0) l -> list_delete k l = l.
Proof. apply filter_all. Qed.

Lemma list_delete_app (k : K) (l1 l2 : list (node K V)) :
  list_delete k (l1 ++ l2) = list_delete k l1 ++ list_delete k l2.
Proof. apply filter_app. Qed.

Lemma sorted_insert (m : node K V) (l : list (node K V)) :
  StronglySorted node_lt l -> StronglySorted node_lt (list_insert m l).
Proof.
  assert (Hx : forall x, llrb_compare (n_key x) (n_key m) < 0 ->
    forall l : list (node K V), Forall (node_lt x) l -> Forall (node_lt x) (list_insert m l)).
  { intros x Hxm l'. induction 1; simpl; [by constructor|].
    repeat case_match; repeat constructor; auto. }
  induction 1 as [|a l Hs IH Hf]; simpl; [by repeat constructor|].
  destruct (Z.ltb_spec (llrb_compare (n_key m) (n_key a)) 0).
  - constructor; [by constructor|]. constructor; [done|].
    eapply Forall_impl; [exact Hf|]. intros ? ?. eapply compare_trans; eauto.
  - destruct (Z.ltb_spec 0 (llrb_compare (n_key m) (n_key a))); [|by constructor].
    constructor; [done|]. apply Hx; [by apply compare_pos_lt|done].
Qed.

Lemma sorted_delete (k : K) (l : list (node K V)) :
  StronglySorted node_lt l -> StronglySorted node_lt (list_delete k l).
Proof.
  induction 1 as [|a l Hs IH Hf]; [constructor|]. unfold list_delete in *.
  rewrite filter_cons. case_decide; [|done]. constructor; [done|].
  apply Forall_forall. intros x Hx. apply list_elem_of_filter in Hx as [_ Hx].
  rewrite Forall_forall in Hf. auto.
Qed.

(** Lookup, deletion and insertion split at the root of a sorted tree. *)
Lemma list_find_mid (k : K) (l1 l2 : list (node K V)) n :
  StronglySorted node_lt (l1 ++ n :: l2) ->
  list_find k (l1 ++ n :: l2) =
    (if llrb_compare k (n_key n) <? 0 then list_find k l1
     else if 0 <? llrb_compare k (n_key n) then list_find k l2 else Some n).
Proof.
  intros (_ & _ & H1 & H2)%sorted_mid. unfold list_find. rewrite find_app. simpl.
  assert (Hno : forall l : list (node K V),
    Forall (fun x => llrb_compare k (n_key x) <> 0) l ->
    List.find (fun x => llrb_compare k (n_key x) =? 0) l = None).
  { induction 1 as [|a l Ha]; simpl; [done|]. by destruct (Z.eqb_spec (llrb_compare k (n_key a)) 0). }
  destruct (Z.ltb_spec (llrb_compare k (n_key n)) 0) as [Hk|].
  - case_match; [done|]. destruct (Z.eqb_spec (llrb_compare k (n_key n)) 0); [lia|].
    apply Hno. eapply Forall_impl; [exact H2|]. unfold node_lt. intros x Hx.
    pose proof (compare_trans _ _ _ Hk Hx). lia.
  - rewrite Hno.
    + destruct (Z.ltb_spec 0 (llrb_compare k (n_key n))), (Z.eqb_spec (llrb_compare k (n_key n)) 0);
        done || lia.
    + eapply Forall_impl; [exact H1|]. unfold node_lt. intros x Hx.
      destruct (compare_cases k (n_key n)) as [[? | ->] | Hn]; [lia|by apply compare_lt_ne|].
      apply compare_lt_ne. eapply compare_trans; eauto.
Qed.

Lemma list_delete_lt (k : K) (l1 l2 : list (node K V)) n :
  StronglySorted node_lt (l1 ++ n :: l2) -> llrb_compare k (n_key n) < 0 ->
  list_delete k (l1 ++ n :: l2) = list_delete k l1 ++ n :: l2.
Proof.
  intros (_ & _ & _ & H2)%sorted_mid Hk. rewrite list_delete_app. f_equal.
  apply list_delete_all. constructor; [lia|]. eapply Forall_impl; [exact H2|].
  unfold node_lt. intros x Hx. pose proof (compare_trans _ _ _ Hk Hx). lia.
Qed.

Lemma list_delete_gt (k : K) (l1 l2 : list (node K V)) n :
  StronglySorted node_lt (l1 ++ n :: l2) -> 0 < llrb_compare k (n_key n) ->
  list_delete k (l1 ++ n :: l2) = l1 ++ n :: list_delete k l2.
Proof.
  intros (_ & _ & H1 & _)%sorted_mid Hk. rewrite list_delete_app. f_equal.
  - apply list_delete_all. eapply Forall_impl; [exact H1|]. unfold node_lt. intros x Hx.
    apply compare_lt_ne. eapply compare_trans; [done|]. by apply compare_pos_lt.
  - unfold list_delete. rewrite filter_cons_True; [done|lia].
Qed.

Lemma list_delete_eq (k : K) (l1 l2 : list (node K V)) n :
  StronglySorted node_lt (l1 ++ n :: l2) -> llrb_compare k (n_key n) = 0 ->
  list_delete k (l1 ++ n :: l2) = l1 ++ l2.
Proof.
  intros (_ & _ & H1 & H2)%sorted_mid Hk. rewrite list_delete_app.
  unfold list_delete. rewrite filter_cons_False by (intros Hc; by apply Hc).
  apply compare_eq in Hk as ->.
  f_equal; apply list_delete_all; (eapply Forall_impl; [eassumption|]); unfold node_lt; intros x Hx.
  - by apply compare_lt_ne.
  - lia.
Qed.

Lemma get_node_find (t : tree K V) k :
  StronglySorted node_lt (inorder t) -> get_node t k = list_find k (inorder t).
Proof.
  induction t as [|c l IHl n r IHr]; simpl; [done|]. intros Hs.
  rewrite list_find_mid by done. apply sorted_mid in Hs as (? & ? & _ & _).
  rewrite IHl, IHr by done. done.
Qed.

(** What [insert] does to the list of entries. *)
Lemma insert_inorder (t : tree K V) k v spare malloc t' res :
  StronglySorted node_lt (inorder t) ->
  insert t k v spare malloc = Some (t', res) ->
  match list_find k (inorder t), storage spare malloc with
  | Some _, _ => res = 0 /\ inorder t' = inorder t
  | None, None => res = -1 /\ inorder t' = inorder t
  | None, Some a => res = 1 /\ inorder t' = list_insert (Node a k v) (inorder t)
  end.
Proof.
  revert t' res. induction t as [|c l IHl n r IHr]; intros t' res Hs Hi; simpl in Hi.
  { unfold storage. simpl. repeat case_match; simplify_eq; done. }
  simpl. rewrite list_find_mid by done. pose proof Hs as (Hl & Hr & Hlt & Hgt)%sorted_mid.
  case_match; [|case_match].
  - apply bind_Some in Hi as ([l' res'] & Hi & Hf). specialize (IHl _ _ Hl Hi).
    destruct (list_find k (inorder l)), (storage spare malloc);
      destruct IHl as [-> IHl]; simpl in Hf; simplify_eq/=; auto;
      apply bind_Some in Hf as (t'' & Hf & ?); simplify_eq;
      apply fix_up_inorder in Hf; rewrite Hf; simpl; rewrite IHl; auto.
    rewrite list_insert_app_lt; [done|simpl; lia].
  - apply bind_Some in Hi as ([r' res'] & Hi & Hf). specialize (IHr _ _ Hr Hi).
    destruct (list_find k (inorder r)), (storage spare malloc);
      destruct IHr as [-> IHr]; simpl in Hf; simplify_eq/=; auto;
      apply bind_Some in Hf as (t'' & Hf & ?); simplify_eq;
      apply fix_up_inorder in Hf; rewrite Hf; simpl; rewrite IHr; auto.
    assert (Hnk : llrb_compare (n_key n) k < 0) by (apply compare_pos_lt; lia).
    rewrite (list_insert_app_ge _ (inorder l)).
    + simpl. destruct (Z.ltb_spec (llrb_compare k (n_key n)) 0); [lia|].
      by destruct (Z.ltb_spec 0 (llrb_compare k (n_key n))); [|lia].
    + eapply Forall_impl; [exact Hlt|]. intros x Hx. by eapply compare_trans; [exact Hx|].
  - by simplify_eq.
Qed.

(** *** Deletion

    The descent keeps the current subtree able to lose a node: it is red, or
    its left child is ([hot]), or, below [move_red_right]'s rotation, it is
    black with a black left child and a red right child ([right_hot]). *)

Lemma left_open_close c l l' n r m :
  left_open c l r m ->
  (forall j, wf l j -> wf l' j) -> (is_red l = false -> is_red l' = false) ->
  exists h', fix_up (Bin c l' n r) = Some h' /\ wf h' m /\
    (c = false -> is_red r = false -> is_red h' = false).
Proof.
  intros [_ Ho] Hwf Hred. destruct c.
  - destruct Ho as (Hl & Hr & El & Er). rewrite (fix_up_id _ _ _ _ m) by auto.
    eexists. split; [done|]. simpl. naive_solver.
  - destruct m as [|m]; [done|]. destruct Ho as [Hl Hr].
    destruct (fix_up_black l' n r m) as (h' & ? & ? & ?); eauto.
    exists h'. naive_solver.
Qed.

Lemma move_red_left_spec l n r m :
  wf (Bin true l n r) m -> hot l = false -> l <> Null ->
  exists c l' n' r', move_red_left (Bin true l n r) = Some (Bin c l' n' r') /\
    left_open c l' r' m /\ (n' = n \/ n ∈ inorder l').
Proof.
  simpl. intros (Er & El & Hl & Hr) Hhot Hne. specialize (El eq_refl).
  destruct l as [|[] ll ln lr]; [done|done|]. simpl in Hhot.
  destruct m as [|m]; [simpl in Hl; naive_solver|].
  simpl in Hl. destruct Hl as (Elr & _ & Hll & Hlr).
  apply wf_black_S in Hr as (rl & rn & rr & -> & Hrl & Hrr & Err); [|done].
  unfold move_red_left. simpl. destruct (is_red rl) eqn:Erl; simpl.
  - apply wf_red_inv in Hrl as (a & y & b & -> & Ha & Hb & Ea & Eb); [|done].
    simpl. do 4 eexists. split; [done|]. unfold left_open. simpl.
    split; [naive_solver|]. right. set_solver.
  - do 4 eexists. split; [done|]. unfold left_open. simpl. naive_solver.
Qed.

Lemma tree_size_inorder t : tree_size t = length (inorder t).
Proof. induction t as [|c l IHl n r IHr]; simpl; [done|]. rewrite length_app. simpl. lia. Qed.

Lemma push_red_left_inorder h h' : push_red_left h = Some h' -> inorder h' = inorder h.
Proof.
  unfold push_red_left. intros Hm. repeat inorder_step; try done. by apply move_red_left_inorder.
Qed.

Lemma push_red_left_spec c l n r m :
  wf (Bin c l n r) m -> hot (Bin c l n r) = true -> l <> Null ->
  exists c' l' n' r', push_red_left (Bin c l n r) = Some (Bin c' l' n' r') /\
    left_open c' l' r' m /\ (c = false -> c' = false /\ is_red r' = false) /\
    (n' = n \/ n ∈ inorder l').
Proof.
  intros Hwf Hhot Hne. destruct l as [|[] ll ln lr]; [done| |].
  - do 4 eexists. split; [done|]. unfold left_open. simpl in *.
    destruct c; [naive_solver|]. destruct m; naive_solver.
  - unfold push_red_left. simpl. simpl in Hhot. rewrite orb_false_r in Hhot. subst c.
    destruct (is_red ll) eqn:Ell.
    + do 4 eexists. split; [done|]. unfold left_open. simpl in *. rewrite Ell. naive_solver.
    + destruct (move_red_left_spec _ _ _ _ Hwf) as (c' & l' & n' & r' & Hm & ? & ?);
        [by simpl; rewrite Ell|done|]. rewrite Hm. naive_solver.
Qed.

(** Closing a step of the descent to the left: the recursive call's guarantee
    is turned into the guarantee of the caller. *)
Lemma left_step c l n r m (rec : tree K V -> option (tree K V * node K V)) (Q : node K V -> tree K V -> Prop) :
  left_open c l r m ->
  (forall j, wf l j -> exists l' x, rec l = Some (l', x) /\ Q x l' /\ wf l' j /\
     (is_red l = false -> is_red l' = false)) ->
  exists h' l' x, rec l = Some (l', x) /\ Q x l' /\ fix_up (Bin c l' n r) = Some h' /\
    wf h' m /\ (c = false -> is_red r = false -> is_red h' = false).
Proof.
  intros Hopen Hrec. assert (exists j, wf l j) as [j Hj].
  { destruct Hopen as [_ Ho]. destruct c, m; naive_solver. }
  destruct (Hrec j Hj) as (l' & x & Hd & HQ & _ & Hred).
  destruct (left_open_close c l l' n r m Hopen) as (h' & Hf & Hh); [|done|].
  - intros j' Hj'. destruct (Hrec j' Hj') as (l2 & x2 & Hd2 & _ & ? & _). congruence.
  - naive_solver.
Qed.

Lemma open_size c' l' n' r' h :
  inorder (Bin c' l' n' r') = inorder h ->
  (tree_size l' < tree_size h)%nat /\ (tree_size r' < tree_size h)%nat.
Proof. intros Hi. rewrite !tree_size_inorder, <-Hi. simpl. rewrite length_app. simpl. lia. Qed.

Lemma delete_min_spec fuel h m :
  wf h m -> hot h = true -> (tree_size h < fuel)%nat ->
  exists h' x, delete_min fuel h = Some (h', x) /\ inorder h = x :: inorder h' /\
    wf h' m /\ (is_red h = false -> is_red h' = false).
Proof.
  revert h m. induction fuel as [|fuel IH]; intros h m Hwf Hhot Hsz; [lia|].
  destruct h as [|c l n r]; [done|].
  assert (l = Null \/ l <> Null) as [->|Hne] by (destruct l; auto).
  { simpl in Hhot. rewrite orb_false_r in Hhot. subst c. simpl in Hwf.
    destruct Hwf as (Er & _ & -> & Hr). apply wf_black_0 in Hr as ->; [|done].
    do 2 eexists. done. }
  destruct (push_red_left_spec _ _ _ _ _ Hwf Hhot Hne)
    as (c' & l' & n' & r' & Hp & Hopen & Hcol & _).
  pose proof (push_red_left_inorder _ _ Hp) as Hin.
  destruct (left_step c' l' n' r' m (delete_min fuel) (fun x t => inorder l' = x :: inorder t))
    as (h' & l2 & x & Hd & Hl2 & Hf & Hh & Hred); [done| |].
  { intros j Hj. destruct (IH l' j Hj) as (l2 & x & ? & ? & ? & ?); [apply Hopen| |eauto 10].
    pose proof (open_size _ _ _ _ _ Hin). lia. }
  exists h', x. split_and!; [|..].
  - cbn [delete_min]. destruct l; [done|]. rewrite Hp. simpl. rewrite Hd. simpl. by rewrite Hf.
  - rewrite <-Hin, (fix_up_inorder _ _ Hf). simpl. by rewrite Hl2.
  - done.
  - simpl. naive_solver.
Qed.

Lemma right_open_close c l n r r' m :
  right_open c l r m ->
  (forall j, removable r j -> wf r' j) -> (is_red r = false -> is_red r' = false) ->
  exists h', fix_up (Bin c l n r') = Some h' /\ wf h' m /\
    (c = false -> is_red l = false -> is_red h' = false).
Proof.
  unfold right_open, removable. intros Ho Hwf Hred. destruct c.
  - destruct Ho as (Hl & El & Er & Hr). rewrite (fix_up_id _ _ _ _ m) by auto.
    eexists. split; [done|]. simpl. naive_solver.
  - destruct m as [|m]; [done|]. destruct Ho as (Hl & Hr & Hh).
    destruct (fix_up_black l n r' m) as (h' & ? & ? & ?); eauto.
    exists h'. naive_solver.
Qed.

Lemma push_red_right_inorder h h' : push_red_right h = Some h' -> inorder h' = inorder h.
Proof.
  unfold push_red_right. intros Hm. repeat inorder_step; try done. by apply move_red_right_inorder.
Qed.

Lemma push_red_right_spec c l n r m :
  right_hot (Bin c l n r) m \/ (c = true /\ wf (Bin c l n r) m) -> r <> Null ->
  exists c' l' n' r', push_red_right (Bin c l n r) = Some (Bin c' l' n' r') /\
    right_open c' l' r' m /\ (c = false -> c' = false /\ is_red l' = false) /\
    ((n' = n /\ exists j, wf r' j /\ hot r' = true) \/
     (exists a b, c' = true /\ r' = Bin false a n b /\ right_hot r' m)).
Proof.
  intros [Hrh|[-> Hwf]] Hne.
  - destruct c; [done|]. destruct m as [|m]; [done|]. destruct Hrh as (Hl & Hr & El & Er).
    unfold push_red_right. simpl. rewrite Er. do 4 eexists. split; [done|].
    assert (hot r = true) by (destruct r; simpl in *; by subst).
    simpl. split_and!; naive_solver.
  - simpl in Hwf. destruct Hwf as (Er & El & Hl & Hr). specialize (El eq_refl).
    unfold push_red_right. simpl. rewrite Er.
    destruct r as [|[] rl rn rr]; [done|done|]. simpl. destruct (is_red rl) eqn:Erl.
    + assert (removable (Bin false rl rn rr) m) by (left; split; [done|exact Erl]).
      do 4 eexists. split; [done|]. simpl. rewrite Erl. naive_solver.
    + destruct m as [|m]; [simpl in Hr; naive_solver|].
      apply wf_black_S in Hl as (ll & ln & lr & -> & Hll & Hlr & Elr); [|done].
      simpl in Hr. destruct Hr as (Err & _ & Hrl & Hrr).
      unfold move_red_right. simpl. destruct (is_red ll) eqn:Ell; simpl.
      * apply wf_red_inv in Hll as (a & y & b & -> & Ha & Hb & Ea & Eb); [|done].
        simpl. do 4 eexists. split; [done|]. unfold right_open, removable. simpl.
        split_and!; [naive_solver..|]. right. do 2 eexists. split_and!; [done..|]. naive_solver.
      * do 4 eexists. split; [done|]. simpl. split_and!; [naive_solver..|]. left.
        split; [done|]. exists m. naive_solver.
Qed.

(** The rotation at the top of the right descent. *)
Lemma rotate_for_right c l n r m :
  removable (Bin c l n r) m ->
  exists c1 l1 n1 r1,
    (if is_red l then rotate_right (Bin c l n r) else Some (Bin c l n r))
      = Some (Bin c1 l1 n1 r1) /\ c1 = c /\
    (right_hot (Bin c1 l1 n1 r1) m \/ (c1 = true /\ wf (Bin c1 l1 n1 r1) m)) /\
    (n1 = n \/ n ∈ inorder r1).
Proof.
  intros [[Hwf Hhot]|Hrh].
  - destruct (is_red l) eqn:El.
    + destruct c; [simpl in Hwf; destruct Hwf as (_ & Hc & _); specialize (Hc eq_refl); congruence|].
      destruct m as [|m]; [simpl in Hwf; naive_solver|].
      simpl in Hwf. destruct Hwf as (Er & _ & Hl & Hr).
      apply wf_red_inv in Hl as (ll & ln & lr & -> & Hll & Hlr & Ell & Elr); [|done].
      simpl. do 4 eexists. split; [done|]. simpl. split_and!; [done|left; naive_solver|set_solver].
    + simpl in Hhot. rewrite El, orb_false_r in Hhot. subst c. naive_solver.
  - destruct c; [done|]. destruct m as [|m]; [done|]. pose proof Hrh as (_ & _ & El & _).
    rewrite El. naive_solver.
Qed.

Lemma find_in (k : K) (l : list (node K V)) x : list_find k l = Some x -> x ∈ l /\ n_key x = k.
Proof.
  unfold list_find. intros Hf. apply find_some in Hf as [Hi Hk].
  split; [by apply list_elem_of_In|]. symmetry. apply compare_eq. lia.
Qed.

Lemma sorted_elem_l (l1 l2 : list (node K V)) n x :
  StronglySorted node_lt (l1 ++ n :: l2) -> x ∈ l1 -> node_lt x n.
Proof. intros (_ & _ & Hf & _)%sorted_mid. rewrite Forall_forall in Hf. auto. Qed.

Lemma sorted_elem_r (l1 l2 : list (node K V)) n x :
  StronglySorted node_lt (l1 ++ n :: l2) -> x ∈ l2 -> node_lt n x.
Proof. intros (_ & _ & _ & Hf)%sorted_mid. rewrite Forall_forall in Hf. auto. Qed.

(** [k] not below [n] and [n] above [n1] (or [n1 = n]): [k] not below [n1]. *)
Lemma not_lt_mono (k : K) n n1 (l2 l1 : list (node K V)) :
  StronglySorted node_lt (l1 ++ n1 :: l2) -> (n1 = n \/ n ∈ l2) ->
  ~ llrb_compare k (n_key n) < 0 ->
  ~ llrb_compare k (n_key n1) < 0 /\ (n1 <> n -> 0 < llrb_compare k (n_key n1)).
Proof.
  intros Hs [->|Hn] Hk; [done|]. pose proof (sorted_elem_r _ _ _ _ Hs Hn) as Hlt.
  unfold node_lt in Hlt.
  assert (Hlt1 : llrb_compare (n_key n1) k < 0).
  { destruct (compare_cases k (n_key n)) as [[? | ->] | ?]; [lia|done|]. by eapply compare_trans. }
  apply compare_flip in Hlt1. lia.
Qed.

Lemma wf_not_right_hot t i j : wf t i -> ~ right_hot t j.
Proof.
  intros Hi Hr. destruct t as [|[] l n r]; [done..|]. destruct j as [|j]; [done|].
  destruct Hr as (_ & _ & _ & Er). simpl in Hi. destruct i; [naive_solver|].
  destruct Hi as (? & _). congruence.
Qed.

Lemma removable_wf t i j : wf t i -> removable t j -> wf t j /\ hot t = true.
Proof. intros Hi [?|Hr]; [done|]. by apply (wf_not_right_hot t i j) in Hr. Qed.

Lemma right_step c l r m (pick : node K V -> node K V)
    (rec : tree K V -> option (tree K V * node K V)) (Q : node K V -> tree K V -> Prop) :
  right_open c l r m ->
  (forall j, removable r j -> exists r' x, rec r = Some (r', x) /\ Q x r' /\ wf r' j /\
     (is_red r = false -> is_red r' = false)) ->
  exists h' r' x, rec r = Some (r', x) /\ Q x r' /\ fix_up (Bin c l (pick x) r') = Some h' /\
    wf h' m /\ (c = false -> is_red l = false -> is_red h' = false).
Proof.
  intros Hopen Hrec. assert (exists j, removable r j) as [j Hj].
  { unfold right_open in Hopen. destruct c; [naive_solver|]. destruct m as [|m]; [done|].
    exists m. left. naive_solver. }
  destruct (Hrec j Hj) as (r' & x & Hd & HQ & _ & Hred).
  destruct (right_open_close c l (pick x) r r' m Hopen) as (h' & Hf & Hh); [|done|].
  - intros j' Hj'. destruct (Hrec j' Hj') as (l2 & x2 & Hd2 & _ & ? & _). congruence.
  - naive_solver.
Qed.

(** The contract of [remove] on a subtree, for a given fuel. *)
Definition remove_ok (fuel : nat) (k : K) : Prop := forall h m x,
  removable h m -> StronglySorted node_lt (inorder h) -> list_find k (inorder h) = Some x ->
  (right_hot h m -> match h with Null => True | Bin _ _ n _ => ~ llrb_compare k (n_key n) < 0 end) ->
  (tree_size h < fuel)%nat ->
  exists h', remove fuel h k = Some (h', x) /\ inorder h' = list_delete k (inorder h) /\
    wf h' m /\ (is_red h = false -> is_red h' = false).

Lemma remove_left fuel (k : K) c l n r m x :
  remove_ok fuel k ->
  wf (Bin c l n r) m -> hot (Bin c l n r) = true ->
  StronglySorted node_lt (inorder (Bin c l n r)) ->
  list_find k (inorder (Bin c l n r)) = Some x ->
  llrb_compare k (n_key n) < 0 -> (tree_size (Bin c l n r) < S fuel)%nat ->
  exists h', remove (S fuel) (Bin c l n r) k = Some (h', x) /\
    inorder h' = list_delete k (inorder (Bin c l n r)) /\
    wf h' m /\ (c = false -> is_red h' = false).
Proof.
  intros IH Hwf Hhot Hs Hfind Hk Hsz.
  assert (l <> Null) as Hne.
  { intros ->. pose proof (list_find_mid k [] (inorder r) n Hs) as E. simpl in E, Hfind.
    rewrite E in Hfind. destruct (Z.ltb_spec (llrb_compare k (n_key n)) 0); [done|lia]. }
  destruct (push_red_left_spec _ _ _ _ _ Hwf Hhot Hne)
    as (c' & l' & n' & r' & Hp & Hopen & Hcol & Hn').
  pose proof (push_red_left_inorder _ _ Hp) as Hin.
  rewrite <-Hin in Hs, Hfind |- *. simpl in Hs, Hfind |- *.
  assert (Hk' : llrb_compare k (n_key n') < 0).
  { destruct Hn' as [->|Hn']; [done|]. pose proof (sorted_elem_l _ _ _ _ Hs Hn').
    by eapply compare_trans. }
  rewrite list_find_mid in Hfind by done.
  rewrite (proj2 (Z.ltb_lt _ _) Hk') in Hfind.
  destruct (left_step c' l' n' r' m (fun t => remove fuel t k)
    (fun y t => y = x /\ inorder t = list_delete k (inorder l')))
    as (h' & l2 & y & Hd & [-> Hl2] & Hf & Hh & Hred); [done| |].
  { intros j Hj. destruct (IH l' j x) as (l2 & ? & ? & ? & ?); [|by apply sorted_mid in Hs as (? & _)|done|..].
    - left. split; [done|apply Hopen].
    - by intros ?%(wf_not_right_hot _ j j).
    - pose proof (open_size _ _ _ _ _ Hin). lia.
    - eauto 10. }
  exists h'. rewrite (proj2 (Z.ltb_lt _ _) Hk). rewrite Hp. simpl. rewrite Hd. simpl. rewrite Hf.
  split_and!; [done| |done|naive_solver].
  rewrite (fix_up_inorder _ _ Hf). simpl. rewrite Hl2. by rewrite list_delete_lt.
Qed.

Lemma remove_right_eq fuel (k : K) c l n r m :
  right_open c l r m -> (exists j, wf r j /\ hot r = true) -> (tree_size r < fuel)%nat ->
  StronglySorted node_lt (inorder l ++ n :: inorder r) -> llrb_compare k (n_key n) = 0 ->
  exists h' r' s, delete_min fuel r = Some (r', s) /\ fix_up (Bin c l s r') = Some h' /\
    inorder h' = list_delete k (inorder l ++ n :: inorder r) /\ wf h' m /\
    (c = false -> is_red l = false -> is_red h' = false).
Proof.
  intros Hopen (i & Hi & Hhot) Hsz Hs Hk.
  destruct (right_step c l r m id (delete_min fuel) (fun s t => inorder r = s :: inorder t))
    as (h' & r' & s & Hd & Hr' & Hf & Hh & Hred); [done| |].
  { intros j Hj. pose proof (removable_wf _ _ _ Hi Hj) as [Hj' _].
    destruct (delete_min_spec fuel r j Hj' Hhot Hsz) as (r' & s & ? & ? & ? & ?). eauto 10. }
  exists h', r', s. split_and!; [done..| |done|done].
  rewrite (fix_up_inorder _ _ Hf), list_delete_eq by done. simpl. by rewrite Hr'.
Qed.

Lemma remove_right_gt fuel (k : K) c l n r m x :
  remove_ok fuel k -> right_open c l r m -> (tree_size r < fuel)%nat ->
  StronglySorted node_lt (inorder l ++ n :: inorder r) -> 0 < llrb_compare k (n_key n) ->
  list_find k (inorder l ++ n :: inorder r) = Some x ->
  (forall j, right_hot r j -> match r with Null => True | Bin _ _ n _ => ~ llrb_compare k (n_key n) < 0 end) ->
  exists h' r', remove fuel r k = Some (r', x) /\ fix_up (Bin c l n r') = Some h' /\
    inorder h' = list_delete k (inorder l ++ n :: inorder r) /\ wf h' m /\
    (c = false -> is_red l = false -> is_red h' = false).
Proof.
  intros IH Hopen Hsz Hs Hk Hfind Hroot. rewrite list_find_mid in Hfind by done.
  destruct (Z.ltb_spec (llrb_compare k (n_key n)) 0); [lia|].
  rewrite (proj2 (Z.ltb_lt _ _) Hk) in Hfind.
  destruct (right_step c l r m (fun _ => n) (fun t => remove fuel t k)
    (fun y t => y = x /\ inorder t = list_delete k (inorder r)))
    as (h' & r' & y & Hd & [-> Hr'] & Hf & Hh & Hred); [done| |].
  { intros j Hj. destruct (IH r j x) as (r' & ? & ? & ? & ?);
      [done|by apply sorted_mid in Hs as (_ & ? & _)|done|apply Hroot|done|eauto 10]. }
  exists h', r'. split_and!; [done..| |done|done].
  rewrite (fix_up_inorder _ _ Hf), list_delete_gt by done. simpl. by rewrite Hr'.
Qed.

(** The descent to the right, after the rotation. *)
Lemma remove_push_right fuel (k : K) c l n r m x :
  remove_ok fuel k ->
  right_hot (Bin c l n r) m \/ (c = true /\ wf (Bin c l n r) m) -> r <> Null ->
  StronglySorted node_lt (inorder (Bin c l n r)) ->
  list_find k (inorder (Bin c l n r)) = Some x ->
  ~ llrb_compare k (n_key n) < 0 -> (tree_size (Bin c l n r) < S fuel)%nat ->
  exists h', (h ← push_red_right (Bin c l n r);
    match h with
    | Null => None
    | Bin c l n r =>
        if llrb_compare k (n_key n) =? 0 then
          '(r', s) ← delete_min fuel r; t ← fix_up (Bin c l s r'); Some (t, n)
        else '(r', m) ← remove fuel r k; t ← fix_up (Bin c l n r'); Some (t, m)
    end) = Some (h', x) /\ inorder h' = list_delete k (inorder (Bin c l n r)) /\
    wf h' m /\ (c = false -> is_red h' = false).
Proof.
  intros IH Hpre Hne Hs Hfind Hk Hsz.
  destruct (push_red_right_spec _ _ _ _ _ Hpre Hne)
    as (c' & l' & n' & r' & Hp & Hopen & Hcol & Hn').
  pose proof (push_red_right_inorder _ _ Hp) as Hin. rewrite Hp. simpl mbind.
  rewrite <-Hin in Hs, Hfind |- *. simpl in Hs, Hfind |- *.
  pose proof (open_size _ _ _ _ _ Hin) as [_ Hsz'].
  assert (Hor : n' = n \/ n ∈ inorder r') by (destruct Hn' as [?|(a & b & _ & -> & _)]; set_solver).
  destruct (not_lt_mono _ _ _ _ _ Hs Hor Hk) as [Hk' Hgt].
  destruct (Z.eqb_spec (llrb_compare k (n_key n')) 0) as [Heq|Hneq].
  - destruct Hn' as [[-> Hj]|(a & b & _ & -> & _)].
    2:{ exfalso. cut (n' <> n); [intros Hd; specialize (Hgt Hd); lia|]. intros ->.
        apply (compare_lt_irrefl (n_key n)), (sorted_elem_r _ _ _ _ Hs). set_solver. }
    destruct (remove_right_eq fuel k c' l' n r' m) as (h' & r2 & s & Hd & Hf & Hi & Hh & Hred);
      [done..|lia|done|done|].
    exists h'. rewrite Hd. simpl. rewrite Hf. simpl. rewrite list_find_mid in Hfind by done.
    rewrite Heq in Hfind. simpl in Hfind. naive_solver.
  - destruct (remove_right_gt fuel k c' l' n' r' m x) as (h' & r2 & Hd & Hf & Hi & Hh & Hred);
      [done..|lia|done|lia|done| |].
    + intros j Hrh. destruct Hn' as [[-> (i & Hi & _)]|(a & b & _ & -> & _)]; [|done].
      by apply (wf_not_right_hot _ i j) in Hrh.
    + exists h'. rewrite Hd. simpl. rewrite Hf. naive_solver.
Qed.

Lemma remove_spec fuel (k : K) : remove_ok fuel k.
Proof.
  induction fuel as [|fuel IH]; intros h m x Hrem Hs Hfind Hroot Hsz; [lia|].
  destruct h as [|c l n r]; [by destruct Hrem as [[]|]|].
  destruct (Z.ltb_spec (llrb_compare k (n_key n)) 0) as [Hk|Hk].
  { destruct Hrem as [[Hwf Hhot]|Hrh]; [|by apply Hroot in Hrh].
    by eapply remove_left. }
  destruct (rotate_for_right _ _ _ _ _ Hrem) as (c1 & l1 & n1 & r1 & Hrot & -> & Hpre & Hn1).
  assert (Hin : inorder (Bin c l1 n1 r1) = inorder (Bin c l n r)).
  { destruct (is_red l); [by apply rotate_right_inorder|by inversion Hrot]. }
  rewrite <-Hin in Hs, Hfind |- *. rewrite tree_size_inorder, <-Hin, <-tree_size_inorder in Hsz.
  assert (Hk1 : ~ llrb_compare k (n_key n1) < 0) by (eapply not_lt_mono; eauto; lia).
  cbn [remove]. destruct (Z.ltb_spec (llrb_compare k (n_key n)) 0); [lia|].
  rewrite Hrot. cbn [mbind option_bind].
  assert (r1 = Null \/ r1 <> Null) as [->|Hne] by (destruct r1; auto).
  - assert (c = true /\ m = O /\ l1 = Null) as (-> & -> & ->).
    { destruct Hpre as [Hrh|[-> Hwf]].
      - destruct c, m; try done. destruct Hrh as (_ & _ & _ & ?). done.
      - simpl in Hwf. destruct Hwf as (_ & El & Hl & ->). split_and!; [done..|].
        apply wf_black_0; auto. }
    simpl in Hfind |- *. unfold list_find in Hfind. simpl in Hfind. rewrite andb_true_r.
    destruct (Z.eqb_spec (llrb_compare k (n_key n1)) 0) as [E|]; [|done].
    inversion Hfind; subst. exists Null. split_and!; [done| |done|done].
    symmetry. by apply (list_delete_eq k [] []).
  - replace (match r1 with Null => true | _ => false end) with false by by destruct r1.
    rewrite andb_false_r. by eapply remove_push_right.
Qed.

(** *** The public operations *)

Lemma list_insert_length (x : node K V) (l : list (node K V)) :
  list_find (n_key x) l = None -> length (list_insert x l) = S (length l).
Proof.
  unfold list_find. induction l as [|y l IH]; simpl; [done|].
  destruct (Z.eqb_spec (llrb_compare (n_key x) (n_key y)) 0) as [|Hne]; [done|]. intros Hf.
  case_match; [done|]. case_match; [|lia]. simpl. by rewrite IH.
Qed.

Lemma list_delete_length (k : K) (l : list (node K V)) x :
  StronglySorted node_lt l -> list_find k l = Some x -> length l = S (length (list_delete k l)).
Proof.
  intros Hs Hf. pose proof (find_in _ _ _ Hf) as [Hin Hk].
  apply list_elem_of_split in Hin as (l1 & l2 & ->).
  rewrite list_delete_eq by (done || by apply compare_eq). rewrite !length_app. simpl. lia.
Qed.

Lemma set_red_inorder t c : inorder (set_red t c) = inorder t.
Proof. by destruct t. Qed.

Lemma set_black_wf t m : wf t m -> exists m', wf (set_red t false) m'.
Proof. destruct t as [|[] l n r]; simpl; [by exists O|..]; [exists (S m)|exists m]; naive_solver. Qed.

Lemma set_red_black t : is_red (set_red t false) = false.
Proof. by destruct t. Qed.

Lemma insert_root_spec (t : llrb K V) k v spare malloc :
  valid t -> len t < 2 ^ 64 - 1 ->
  exists (t' : llrb K V) b, insert_root t k v spare malloc = Some (t', b) /\ valid t' /\
    match list_find k (inorder (root t)), storage spare malloc with
    | None, Some a => b = true /\ inorder (root t') = list_insert (Node a k v) (inorder (root t))
    | _, _ => b = false /\ inorder (root t') = inorder (root t) /\ len t' = len t
    end.
Proof.
  intros [Hs [m Hw] Hr Hl Hb] Hcap.
  destruct (insert_balanced (root t) k v spare malloc m Hw) as (r' & res & Hi & _ & Hw' & _).
  pose proof (insert_inorder _ _ _ _ _ _ _ Hs Hi) as Hin.
  destruct (set_black_wf r' m (Hw' Hr)) as [m' Hm'].
  unfold insert_root. rewrite Hi. simpl. do 2 eexists. split; [done|].
  destruct (list_find k (inorder (root t))) eqn:Hf; [|destruct (storage spare malloc) as [a|]];
    destruct Hin as [-> Hin]; simpl; rewrite set_red_inorder, Hin.
  - repeat split; simpl; rewrite ?set_red_inorder, ?Hin, ?set_red_black; eauto.
  - assert (length (list_insert (Node a k v) (inorder (root t))) = S (length (inorder (root t))))
      by by apply list_insert_length.
    repeat split; simpl; rewrite ?set_red_inorder, ?Hin, ?set_red_black; eauto.
    + by apply sorted_insert.
    + unfold u64. rewrite Z.mod_small; lia.
    + unfold u64. rewrite Z.mod_small; lia.
  - repeat split; simpl; rewrite ?set_red_inorder, ?Hin, ?set_red_black; eauto.
Qed.

Lemma root_removable t m : wf t m -> is_red t = false -> t <> Null ->
  exists l r m', left_of t = Some l /\ right_of t = Some r /\
    let rt := if negb (is_red l) && negb (is_red r) then set_red t true else t in
    wf rt m' /\ hot rt = true.
Proof.
  intros Hw Hr Hne. destruct t as [|[] l n r]; [done..|]. simpl in Hw.
  destruct m as [|m]; [naive_solver|]. destruct Hw as (Er & _ & Hl & Hrr).
  exists l, r. rewrite Er. simpl. destruct (is_red l) eqn:El; simpl.
  - exists (S m). rewrite El. naive_solver.
  - exists m. naive_solver.
Qed.

Lemma remove_root_spec (t : llrb K V) k :
  valid t ->
  exists (t' : llrb K V), remove_root t k = Some (t', list_find k (inorder (root t))) /\ valid t' /\
    inorder (root t') = list_delete k (inorder (root t)).
Proof.
  intros [Hs [m Hw] Hr Hl Hb]. unfold remove_root. rewrite get_node_find by done.
  destruct (list_find k (inorder (root t))) as [x|] eqn:Hf.
  - assert (root t <> Null) as Hne by (intros E; by rewrite E in Hf).
    destruct (root_removable _ _ Hw Hr Hne) as (l & r & m' & -> & -> & Hwr & Hhot).
    cbn [mbind option_bind]. set (rt := if negb (is_red l) && negb (is_red r) then _ else _) in *.
    assert (Hin : inorder rt = inorder (root t)).
    { unfold rt. case_match; [apply set_red_inorder|done]. }
    destruct (remove_spec (S (tree_size rt)) k rt m' x) as (h' & Hrem & Hdel & Hw' & _);
      rewrite ?Hin; try done; [by left|by intros ?%(wf_not_right_hot _ m' m')|lia|].
    rewrite Hin in Hdel. rewrite Hrem. eexists. split; [done|].
    pose proof (list_delete_length _ _ _ Hs Hf) as Hlen.
    repeat split; simpl; rewrite ?set_red_inorder, ?Hdel, ?set_red_black; eauto.
    + by apply sorted_delete.
    + by eapply set_black_wf.
    + unfold u64. rewrite Z.mod_small; lia.
    + unfold u64. rewrite Z.mod_small; lia.
  - exists t. split_and!; [done|by repeat split; eauto|]. symmetry. apply list_delete_all.
    unfold list_find in Hf. apply Forall_forall. intros y Hy%list_elem_of_In.
    pose proof (find_none _ _ Hf _ Hy) as E. simpl in E. lia.
Qed.

(** *** Iteration *)

Lemma climb_list (up : list (frame K V)) : iter_list (climb up) = rest up.
Proof. induction up as [|[[] n r] up IH]; simpl; done. Qed.

Lemma cmin_list t up : t <> Null -> iter_list (cmin t up) = inorder t ++ rest up.
Proof.
  revert up. induction t as [|c l IHl n r IHr]; intros up Hne; [done|].
  destruct l as [|cl ll ln lr]; [done|].
  change (iter_list (cmin (Bin cl ll ln lr) (Frame false n r :: up)) = inorder (Bin c (Bin cl ll ln lr) n r) ++ rest up).
  rewrite IHl by done. cbn [rest inorder]. by rewrite <-!app_assoc.
Qed.

Lemma iter_next_list (it : iter K V) :
  match iter_next it with
  | None => iter_list it = []
  | Some (n, it') => iter_list it = n :: iter_list it'
  end.
Proof.
  destruct it as [[n r up]|]; [|done]. unfold iter_next.
  destruct r as [|c l x r]; [by rewrite climb_list|].
  rewrite cmin_list by done. done.
Qed.

Lemma lower_bound_list (t : tree K V) k up best :
  StronglySorted node_lt (inorder t) -> iter_list best = rest up ->
  iter_list (lower_bound_loop t k up best) =
    base.filter (fun x => llrb_compare k (n_key x) <= 0) (inorder t) ++ rest up.
Proof.
  revert up best. induction t as [|c l IHl n r IHr]; intros up best Hs Hbest; [done|].
  cbn [lower_bound_loop inorder] in *. apply sorted_mid in Hs as (Hl & Hr & HFl & HFr).
  rewrite filter_app.
  assert (Hall : llrb_compare k (n_key n) <= 0 ->
    base.filter (fun x => llrb_compare k (n_key x) <= 0) (n :: inorder r) = n :: inorder r).
  { intros Hk. rewrite filter_cons_True by done. f_equal. apply filter_all, Forall_forall.
    intros x Hx. rewrite Forall_forall in HFr. specialize (HFr x Hx). unfold node_lt in HFr.
    destruct (Z.eq_dec (llrb_compare k (n_key n)) 0) as [->%compare_eq|]; [lia|].
    assert (Hlt : llrb_compare k (n_key n) < 0) by lia.
    pose proof (compare_trans _ _ _ Hlt HFr). lia. }
  assert (Hnone : 0 <= llrb_compare k (n_key n) ->
    base.filter (fun x => llrb_compare k (n_key x) <= 0) (inorder l) = []).
  { intros Hk. apply filter_none, Forall_forall. intros x Hx. rewrite Forall_forall in HFl.
    specialize (HFl x Hx). unfold node_lt in HFl.
    destruct (Z.eq_dec (llrb_compare k (n_key n)) 0) as [->%compare_eq|];
      [apply compare_flip in HFl; lia|].
    assert (Hgt : llrb_compare (n_key n) k < 0) by (apply compare_flip; lia).
    pose proof (compare_trans _ _ _ HFl Hgt) as Hx2. apply compare_flip in Hx2. lia. }
  destruct (Z.leb_spec (llrb_compare k (n_key n)) 0) as [Hle|Hgt].
  - destruct (Z.eqb_spec (llrb_compare k (n_key n)) 0) as [Heq|].
    + rewrite Hnone, Hall by lia. done.
    + rewrite IHl by done. rewrite Hall by lia. cbn [rest]. by rewrite <-app_assoc.
  - rewrite IHr by done. rewrite Hnone by lia. rewrite filter_cons_False by lia. done.
Qed.

(** *** Floor *)

Lemma floor_loop_spec (t : tree K V) k best :
  StronglySorted node_lt (inorder t) ->
  floor_loop t k best =
    match list_floor k (inorder t) with Some x => Some x | None => best end.
Proof.
  unfold list_floor. revert best. induction t as [|c l IHl n r IHr]; intros best Hs; [done|].
  cbn [floor_loop inorder] in *. apply sorted_mid in Hs as (Hl & Hr & HFl & HFr).
  rewrite Forall_forall in HFl, HFr. unfold node_lt in HFl, HFr. rewrite filter_app.
  assert (Hnone : llrb_compare k (n_key n) <= 0 ->
    base.filter (fun x => 0 <= llrb_compare k (n_key x)) (inorder r) = []).
  { intros Hk. apply filter_none, Forall_forall. intros x Hx. specialize (HFr x Hx).
    destruct (Z.eq_dec (llrb_compare k (n_key n)) 0) as [->%compare_eq|]; [lia|].
    assert (Hlt : llrb_compare k (n_key n) < 0) by lia.
    pose proof (compare_trans _ _ _ Hlt HFr). lia. }
  destruct (Z.ltb_spec (llrb_compare k (n_key n)) 0) as [Hlt|Hge].
  - rewrite filter_cons_False by lia. rewrite Hnone, app_nil_r by lia. by apply IHl.
  - rewrite filter_cons_True by lia.
    destruct (Z.eqb_spec (llrb_compare k (n_key n)) 0).
    + rewrite Hnone by lia. by rewrite last_snoc.
    + rewrite IHr by done. rewrite last_app, last_cons.
      by destruct (last (base.filter _ (inorder r))).
Qed.

(** *** Height *)

Lemma wf_height t m : wf t m ->
  height t <= 2 * Z.of_nat m + (if is_red t then 1 else 0).
Proof.
  revert m. induction t as [|c l IHl n r IHr]; intros m Hw; simpl in *; [subst; lia|].
  destruct Hw as (Er & El & Hw). destruct c; [|destruct m as [|m]; [done|]];
    destruct Hw as [Hl Hr]; specialize (IHl _ Hl); specialize (IHr _ Hr);
    rewrite Er in IHr; try rewrite El in IHl by done; try case_match; lia.
Qed.

Lemma wf_size t m : wf t m -> 2 ^ Z.of_nat m <= Z.of_nat (length (inorder t)) + 1.
Proof.
  revert m. induction t as [|c l IHl n r IHr]; intros m Hw; simpl in *; [by subst|].
  rewrite length_app. simpl. destruct Hw as (Er & El & Hw).
  destruct c; [|destruct m as [|m]; [done|]];
    destruct Hw as [Hl Hr]; specialize (IHl _ Hl); specialize (IHr _ Hr).
  - lia.
  - rewrite Nat2Z.inj_succ, Z.pow_succ_r by lia. lia.
Qed.

(** *** The validator decides the invariant *)

Lemma below_trans low (a b : K) :
  below low a = false -> llrb_compare a b < 0 -> below low b = false.
Proof.
  destruct low as [lo|]; simpl; [|done]. rewrite !Z.leb_gt. intros Ha Hab.
  apply compare_flip in Ha. apply compare_flip. by eapply compare_trans.
Qed.

Lemma above_trans high (a b : K) :
  above high b = false -> llrb_compare a b < 0 -> above high a = false.
Proof.
  destruct high as [hi|]; simpl; [|done]. rewrite !Z.leb_gt. intros Ha Hab.
  by eapply compare_trans.
Qed.

Lemma validate_complete t low high m :
  wf t m -> StronglySorted node_lt (inorder t) -> Forall (in_range low high) (inorder t) ->
  accepted t low high m.
Proof.
  unfold accepted. revert low high m.
  induction t as [|c l IHl n r IHr]; intros low high m Hw Hs Hrg; [by simpl in Hw; subst|].
  cbn [inorder] in *. apply sorted_mid in Hs as (Hl & Hr & HFl & HFr).
  apply Forall_app in Hrg as [Hrl Hrr]. apply Forall_cons in Hrr as [[Hb Ha] Hrr].
  cbn [validate wf] in *. destruct Hw as (Er & El & Hw). rewrite Hb, Ha, Er.
  assert (c && is_red l = false) as -> by (destruct c; simpl; auto). simpl.
  assert (exists j, wf l j /\ wf r j /\ Z.of_nat m = Z.of_nat j + (if c then 0 else 1))
    as (j & Hwl & Hwr & Hm).
  { destruct c; [exists m; naive_solver lia|]. destruct m as [|m]; [done|]. exists m.
    split_and!; [apply Hw..|lia]. }
  rewrite (IHl _ _ j), (IHr _ _ j); try done; simpl.
  - rewrite Z.eqb_refl. simpl. f_equal; [rewrite length_app; simpl; lia|lia].
  - apply (Forall_impl2 _ _ _ _ Hrr HFr). intros x [Hx1 Hx2] Hx3.
    split; [|done]. simpl. apply Z.leb_gt. by apply compare_flip.
  - apply (Forall_impl2 _ _ _ _ Hrl HFl). intros x [Hx1 Hx2] Hx3.
    split; [done|]. simpl. apply Z.leb_gt. done.
Qed.

Lemma validate_sound t low high :
  v_valid (validate t low high) = true ->
  exists m, wf t m /\ accepted t low high m /\ StronglySorted node_lt (inorder t) /\
    Forall (in_range low high) (inorder t).
Proof.
  unfold accepted. revert low high.
  induction t as [|c l IHl n r IHr]; intros low high Hv.
  { exists O. repeat constructor. }
  cbn [validate] in Hv. destruct (below low (n_key n)) eqn:Hb; [done|].
  destruct (above high (n_key n)) eqn:Ha; [done|]. destruct (is_red r) eqn:Er; [done|].
  destruct (c && is_red l) eqn:Ec; [done|]. simpl in Hv.
  destruct (v_valid (validate l low (Some (n_key n)))) eqn:Vl; [|done].
  destruct (v_valid (validate r (Some (n_key n)) high)) eqn:Vr; [|done]. simpl in Hv.
  destruct (IHl _ _ Vl) as (i & Hwl & Al & Sl & Rl).
  destruct (IHr _ _ Vr) as (j & Hwr & Ar & Sr & Rr).
  rewrite Al, Ar in Hv. simpl in Hv. destruct (Z.eqb_spec (Z.of_nat i + 1) (Z.of_nat j + 1)) as [Hij|]; [|done].
  assert (i = j) as -> by lia.
  set (m := if c then j else S j).
  assert (Hw : wf (Bin c l n r) m).
  { unfold m. destruct c; simpl in *; naive_solver. }
  assert (Hs : StronglySorted node_lt (inorder (Bin c l n r))).
  { simpl. apply sorted_mid. split_and!; [done..| |].
    - eapply Forall_impl; [exact Rl|]. intros x [_ Hx]. simpl in Hx. by apply Z.leb_gt.
    - eapply Forall_impl; [exact Rr|]. intros x [Hx _]. simpl in Hx. apply compare_flip. by apply Z.leb_gt. }
  assert (Hr : Forall (in_range low high) (inorder (Bin c l n r))).
  { simpl in Hs |- *. apply sorted_mid in Hs as (_ & _ & HFl & HFr). apply Forall_app. split.
    - apply (Forall_impl2 _ _ _ _ Rl HFl). intros x [? ?] ?.
      split; [done|by eapply above_trans].
    - constructor; [done|]. apply (Forall_impl2 _ _ _ _ Rr HFr).
      intros x [? ?] ?. split; [by eapply below_trans|done]. }
  exists m. split_and!; [done| |done|done]. by apply validate_complete.
Qed.

Lemma drain_list fuel (it : iter K V) :
  (length (iter_list it) < fuel)%nat -> drain fuel it = iter_list it.
Proof.
  revert it. induction fuel as [|fuel IH]; intros it Hf; [lia|]. cbn [drain].
  pose proof (iter_next_list it) as Hn. destruct (iter_next it) as [[n it']|]; [|by rewrite Hn].
  rewrite Hn in Hf |- *. simpl in Hf. rewrite IH by lia. done.
Qed.

Lemma valid_decides (t : llrb K V) : len t < 2 ^ 64 -> llrb_valid t = true <-> valid t.
Proof.
  intros Hb. split.
  - intros Hv. unfold llrb_valid in Hv.
    assert (is_red (root t) = false /\ v_valid (validate (root t) None None) = true /\
            v_count (validate (root t) None None) = len t) as (Hr & Hvv & Hc).
    { destruct (root t) as [|[] l n r]; [..|done|]; apply andb_prop in Hv as [? ?%Z.eqb_eq]; done. }
    destruct (validate_sound _ _ _ Hvv) as (m & Hw & Ha & Hs & _).
    unfold accepted in Ha. rewrite Ha in Hc. simpl in Hc. split; eauto.
  - intros [Hs [m Hw] Hr Hl _].
    assert (Ha : accepted (root t) None None m).
    { apply validate_complete; [done..|]. apply Forall_forall. done. }
    unfold accepted in Ha. unfold llrb_valid.
    destruct (root t) as [|[] l n r]; [..|done|]; rewrite Ha; simpl; rewrite Hl; apply Z.eqb_refl.
Qed.

End Facts.

(** ** The comparators are total orders *)

(** Case analysis on every comparison a comparator makes. *)
Ltac cmp_cases :=
  repeat match goal with
  | |- context [?a <? ?b] => destruct (Z.ltb_spec a b)
  | |- context [?a =? ?b] => destruct (Z.eqb_spec a b)
  end; simpl; try lia.

#[export] Instance u64_order : LlrbOrder Z.
Proof. split; unfold llrb_compare, u64_compare; intros a b; [| |intros c]; cmp_cases. Qed.

Lemma lexicographic_order {K} (hi lo : K -> Z) (c : LlrbCompare K) :
  (forall a b, hi a = hi b -> lo a = lo b -> a = b) ->
  (forall a b, c a b =
     if negb (hi a =? hi b) then Z.b2z (hi b <? hi a) - Z.b2z (hi a <? hi b)
     else Z.b2z (lo b <? lo a) - Z.b2z (lo a <? lo b)) ->
  LlrbOrder K.
Proof.
  intros Hinj Hc.
  assert (Hlt : forall a b, c a b < 0 <-> hi a < hi b \/ (hi a = hi b /\ lo a < lo b)).
  { intros a b. rewrite Hc. cmp_cases. }
  assert (Hgt : forall a b, 0 < c a b <-> hi b < hi a \/ (hi a = hi b /\ lo b < lo a)).
  { intros a b. rewrite Hc. cmp_cases. }
  split; unfold llrb_compare.
  - intros a b. split; [|intros ->; rewrite Hc; cmp_cases].
    specialize (Hlt a b). specialize (Hgt a b). intros E. apply Hinj; lia.
  - intros a b. rewrite Hlt, Hgt. lia.
  - intros a b d. rewrite !Hlt. lia.
Qed.

#[export] Instance futex_order : LlrbOrder futex_key.
Proof.
  apply (lexicographic_order fk_address fk_seq); [|done]. intros [] []. simpl. by intros -> ->.
Qed.

#[export] Instance tdeadline_order : LlrbOrder tdeadline_key.
Proof.
  apply (lexicographic_order tk_deadline_ns tk_tid); [|done]. intros [] []. simpl. by intros -> ->.
Qed.

(** ** Properties *)

Section Theorems.

Context {K V : Type} `{LlrbOrder K}.

Implicit Types (t : llrb K V) (k : K) (v : V).

(** C21: [_insert] and [_insert_node] on a well-formed tree dereference no NULL
    pointer and leave a well-formed tree.  An absent key is added at its place in
    the order, in the node supplied, and every other node keeps its address; a
    present key, or a failed allocation, returns false and leaves the entries and
    the length as they were. *)
Theorem llrb_insert_refines t k v (spare malloc : option Z) :
  valid t -> llrb_len t < 2 ^ 64 - 1 ->
  exists (t' : llrb K V) b, insert_root t k v spare malloc = Some (t', b) /\ valid t' /\
    match list_find k (inorder (root t)), storage spare malloc with
    | None, Some a => b = true /\ inorder (root t') = list_insert (Node a k v) (inorder (root t))
    | _, _ => b = false /\ inorder (root t') = inorder (root t) /\ len t' = len t
    end.
Proof. apply insert_root_spec. Qed.

(** C20: [_extract] on a well-formed tree dereferences no NULL pointer, leaves a
    well-formed tree without the key, and hands back the very node that held it
    (its address and value); no other entry moves to another address.  An absent
    key returns false and changes nothing. *)
Theorem llrb_extract_refines t k :
  valid t ->
  exists t' : llrb K V, llrb_extract t k =
      Some (t', option_map (fun x => (n_value x, n_addr x)) (list_find k (inorder (root t)))) /\
    valid t' /\ inorder (root t') = list_delete k (inorder (root t)) /\
    (list_find k (inorder (root t)) = None -> t' = t).
Proof.
  intros Hv. pose proof Hv as [Hs _ _ _ _]. destruct (remove_root_spec t k Hv) as (t' & Hr & Hv' & Hi).
  exists t'. unfold llrb_extract. rewrite Hr. split_and!; [done..|]. intros Hf.
  unfold remove_root in Hr. rewrite get_node_find, Hf in Hr by done. by inversion Hr.
Qed.

(** C22: [_get], [_get_ref] and [_floor] agree with the sorted list of entries:
    the entry with the key (its value, its node's address), and the entry with
    the greatest key not above the one asked for. *)
Theorem llrb_lookup_refines t k :
  valid t ->
  llrb_get t k = option_map n_value (list_find k (inorder (root t))) /\
  llrb_get_ref t k = option_map n_addr (list_find k (inorder (root t))) /\
  llrb_floor t k = option_map (fun x => (n_key x, n_value x)) (list_floor k (inorder (root t))).
Proof.
  intros [Hs _ _ _ _]. unfold llrb_get, llrb_get_ref, llrb_floor.
  rewrite get_node_find, floor_loop_spec by done.
  split_and!; [done..|]. by destruct (list_floor k (inorder (root t))).
Qed.




End Theorems.

(** ** Witnesses: a tree of [uint64_t] keys built by the operations themselves *)

Definition sample_insert (t : llrb Z Z) (k : Z) : llrb Z Z :=
  match llrb_insert t k (10 * k) (Some (1000 + k)) with Some (t', _) => t' | None => t end.

Definition sample : llrb Z Z := fold_left sample_insert [5; 3; 8; 1; 4; 7; 9] llrb_new.

Lemma sample_valid : valid sample.
Proof. apply valid_decides; vm_compute; done. Qed.

Lemma llrb_insert_refines_witness :
  exists (t' : llrb Z Z) b, insert_root sample 6 60 None (Some 2000) = Some (t', b) /\ valid t' /\
    b = true /\ map n_key (inorder (root t')) = [1; 3; 4; 5; 6; 7; 8; 9].
Proof.
  destruct (llrb_insert_refines sample 6 60 None (Some 2000)) as (t' & b & ? & ? & Hb & Hi);
    [apply sample_valid|done|].
  exists t', b. split_and!; [done..|]. by rewrite Hi.
Defined.

Lemma llrb_extract_refines_witness :
  exists t' : llrb Z Z, llrb_extract sample 5 = Some (t', Some (50, 1005)) /\ valid t' /\
    map n_key (inorder (root t')) = [1; 3; 4; 7; 8; 9].
Proof.
  destruct (llrb_extract_refines sample 5) as (t' & ? & ? & Hi & _); [apply sample_valid|].
  exists t'. split_and!; [done..|]. by rewrite Hi.
Defined.

Lemma llrb_lookup_refines_witness :
  llrb_get sample 7 = Some 70 /\ llrb_get_ref sample 7 = Some 1007 /\
  llrb_floor sample 6 = Some (5, 50).
Proof.
  destruct (llrb_lookup_refines sample 7 sample_valid) as (-> & -> & _).
  destruct (llrb_lookup_refines sample 6 sample_valid) as (_ & _ & ->). done.
Defined.



