(* ===== verification/Buddy.v ===== *)
(** * The page allocator

    Models [kernel/vendor/buddy_allocator/buddy_allocator.c] and the malloc
    wrapper of [kernel/src/allocator.c].

    The heap bytes are a finite map from index to [uint8_t].  Reading an entry
    that was never written, or touching an index past [heap_size], is [None]:
    a theorem that an operation returns [Some] says that it stays inside the
    storage [buddy_get_bytes] asks for and reads only initialised entries.
    [assert] is compiled out in the source and is not modelled; the fuel of
    the two walks along a root path is the 64 levels a 64-bit index has. *)

From S2P Require Import Prelude.

Definition BUDDY_LEVEL_FILLED : Z := 255.
Definition BUDDY_LEVEL_ALLOCATED : Z := 254.
Definition BUDDY_LEVEL_UNUSABLE : Z := 253.

Definition BUDDY_STATE_UNREADY : Z := 0.
Definition BUDDY_STATE_READY : Z := 1.

Inductive buddy_status_t :=
  | BUDDY_STATUS_SUCCESS
  | BUDDY_STATUS_NOMEM
  | BUDDY_STATUS_INVAL
  | BUDDY_STATUS_NO_SUCH_ALLOCATION.

#[export] Instance buddy_status_eq : EqDecision buddy_status_t.
Proof. solve_decision. Defined.

Record buddy_allocator_s := Buddy {
  ba_offset : Z;
  ba_page_size_log2 : Z;
  ba_state : Z;
  ba_max_level : Z;
  ba_heap : gmap Z Z }.

(** ** Math functions *)

(** [__builtin_popcountll], bit by bit. *)
Fixpoint popcount (bits : nat) (v : Z) : Z :=
  match bits with O => 0 | S bits => v mod 2 + popcount bits (v / 2) end.

Definition clzll (v : Z) : Z := 63 - Z.log2 v.

Definition uint64_is_power_of_2 (x : Z) : bool := popcount 64 x =? 1.

Definition uint64_log2 (v : Z) : Z := u8 (8 * 8 - clzll v - 1).

Definition uint64_ceil_log2 (v : Z) : Z :=
  u8 (uint64_log2 v + Z.b2z (negb (uint64_is_power_of_2 v))).

Definition uint64_pow2 (i : Z) : Z := u64 (Z.shiftl 1 (u8 i)).

Definition uint8_min (a b : Z) : Z := if a <? b then a else b.

(** ** Heap functions *)

Definition heap_level (i : Z) : Z := uint64_log2 (u64 (i + 1)).

Definition heap_size (max_level : Z) : Z := u64 (uint64_pow2 (u8 max_level + 1) - 1).

Definition heap_parent (i : Z) : Z := u64 (i - 1) / 2.

Definition heap_left (i : Z) : Z := u64 (2 * i + 1).

Definition heap_right (i : Z) : Z := u64 (2 * i + 2).

Definition heap_sibling (i : Z) : Z := if i mod 2 =? 1 then u64 (i + 1) else u64 (i - 1).

Definition set_heap (ba : buddy_allocator_s) (h : gmap Z Z) : buddy_allocator_s :=
  Buddy (ba_offset ba) (ba_page_size_log2 ba) (ba_state ba) (ba_max_level ba) h.

(** [ba->heap[i]] read, and [ba->heap[i] = v]. *)
Definition load (ba : buddy_allocator_s) (i : Z) : option Z := ba_heap ba !! i.

Definition store (ba : buddy_allocator_s) (i v : Z) : option buddy_allocator_s :=
  if (0 <=? i) && (i <? heap_size (ba_max_level ba))
  then Some (set_heap ba (<[i := u8 v]> (ba_heap ba))) else None.

Definition parent_free_level (ba : buddy_allocator_s) (a_level b_level : Z) : Z :=
  let parent := uint8_min a_level b_level in
  if ba_max_level ba <? parent then BUDDY_LEVEL_FILLED else parent.

Fixpoint propagate (fuel : nat) (ba : buddy_allocator_s) (block_index : Z)
    : option buddy_allocator_s :=
  match fuel with
  | O => None
  | S fuel =>
      if block_index =? 0 then Some ba
      else
        let parent := heap_parent block_index in
        a ← load ba block_index;
        b ← load ba (heap_sibling block_index);
        ba ← store ba parent (parent_free_level ba a b);
        propagate fuel ba parent
  end.

Fixpoint coalesce_loop (fuel : nat) (ba : buddy_allocator_s) (block_index : Z)
    : option (buddy_allocator_s * Z) :=
  match fuel with
  | O => None
  | S fuel =>
      if block_index =? 0 then Some (ba, block_index)
      else
        sibling_level ← load ba (heap_sibling block_index);
        if sibling_level =? heap_level block_index then
          let parent := heap_parent block_index in
          ba ← store ba parent (heap_level parent);
          coalesce_loop fuel ba parent
        else Some (ba, block_index)
  end.

Definition coalesce (ba : buddy_allocator_s) (block_index : Z) : option (buddy_allocator_s * Z) :=
  v ← load ba block_index;
  if negb (v =? heap_level block_index) then Some (ba, block_index)
  else coalesce_loop 64 ba block_index.

Fixpoint acquire_loop (fuel : nat) (ba : buddy_allocator_s) (allocation_level index level : Z)
    : option (buddy_allocator_s * Z) :=
  match fuel with
  | O => None
  | S fuel =>
      v ← load ba index;
      if (v =? level) && (v =? allocation_level) then Some (ba, index)
      else
        ba ← (if v =? level then
                ba ← store ba index (level + 1);
                ba ← store ba (heap_left index) (level + 1);
                store ba (heap_right index) (level + 1)
              else Some ba);
        let left_index := heap_left index in
        let right_index := heap_right index in
        left_level ← load ba left_index;
        right_level ← load ba right_index;
        let index :=
          if left_level <? right_level then
            if right_level <=? allocation_level then right_index else left_index
          else
            if left_level <=? allocation_level then left_index else right_index in
        acquire_loop fuel ba allocation_level index (u8 (level + 1))
  end.

Definition acquire_empty_slot (ba : buddy_allocator_s) (allocation_level : Z)
    : option (buddy_allocator_s * Z) :=
  acquire_loop 64 ba allocation_level 0 0.

Definition get_first_page_index_from_block_index (ba : buddy_allocator_s) (block_index : Z) : Z :=
  u64 (Z.shiftl (u64 (block_index - heap_size (heap_level block_index - 1)))
                (ba_max_level ba - heap_level block_index)).

Definition get_last_page_index_from_block_index (ba : buddy_allocator_s) (block_index : Z) : Z :=
  u64 (u64 (Z.shiftl (u64 (block_index - heap_size (heap_level block_index - 1) + 1))
                     (ba_max_level ba - heap_level block_index)) - 1).

(** The [for] loop, by the number of levels left; a status other than success
    is [inl]. *)
Fixpoint find_block (levels : nat) (ba : buddy_allocator_s) (page_id bi level : Z)
    : option (buddy_status_t + Z) :=
  match levels with
  | O => Some (inr bi)
  | S levels =>
      v ← load ba bi;
      if v =? BUDDY_LEVEL_ALLOCATED then Some (inr bi)
      else if v =? level then Some (inl BUDDY_STATUS_NO_SUCH_ALLOCATION)
      else if v =? BUDDY_LEVEL_UNUSABLE then Some (inl BUDDY_STATUS_NO_SUCH_ALLOCATION)
      else
        let bi :=
          if get_first_page_index_from_block_index ba (heap_right bi) <=? page_id
          then heap_right bi else heap_left bi in
        find_block levels ba page_id bi (u8 (level + 1))
  end.

Definition get_block_index_from_page_index (ba : buddy_allocator_s) (page_id : Z)
    : option (buddy_status_t + Z) :=
  find_block (S (Z.to_nat (ba_max_level ba))) ba page_id 0 0.

(** ** Set-up *)

(** [sizeof(struct buddy_allocator_s)]: an 8-byte offset, three bytes and the
    padding before the flexible array's alignment. *)
Definition SIZEOF_BUDDY : Z := 16.

Definition buddy_get_bytes (n_pages : Z) : Z :=
  u64 (SIZEOF_BUDDY + heap_size (uint64_ceil_log2 n_pages)).

(** [for (i = from; count iterations; i++) heap[i] = v]. *)
Fixpoint fill (count : nat) (ba : buddy_allocator_s) (from v : Z) : option buddy_allocator_s :=
  match count with
  | O => Some ba
  | S count => ba ← store ba from v; fill count ba (u64 (from + 1)) v
  end.

Definition buddy_init (n_pages page_size offset : Z) : option buddy_allocator_s :=
  let max_level := uint64_ceil_log2 n_pages in
  let ba := Buddy offset (uint64_log2 page_size) BUDDY_STATE_UNREADY max_level ∅ in
  let bottom_level_offset := if 0 <? max_level then heap_size (max_level - 1) else 0 in
  ba ← fill (Z.to_nat n_pages) ba bottom_level_offset max_level;
  fill (Z.to_nat (heap_size max_level - (n_pages + bottom_level_offset))) ba
       (n_pages + bottom_level_offset) BUDDY_LEVEL_UNUSABLE.

Definition buddy_mark_unusable (ba : buddy_allocator_s) (min_page_id max_page_id : Z)
    : option buddy_allocator_s :=
  fill (Z.to_nat (max_page_id - min_page_id + 1)) ba
       (u64 (min_page_id + uint64_pow2 (ba_max_level ba - 1))) BUDDY_LEVEL_UNUSABLE.

(** [for (block_index = n - 1; block_index >= 0; block_index--)]. *)
Fixpoint ready_loop (n : nat) (ba : buddy_allocator_s) : option buddy_allocator_s :=
  match n with
  | O => Some ba
  | S n =>
      let bi := Z.of_nat n in
      let level := heap_level bi in
      lv ← load ba (heap_left bi);
      rv ← load ba (heap_right bi);
      ba ← store ba bi
        (if (lv =? BUDDY_LEVEL_UNUSABLE) && (rv =? BUDDY_LEVEL_UNUSABLE) then BUDDY_LEVEL_UNUSABLE
         else if (lv =? level + 1) && (rv =? level + 1) then heap_level bi
         else uint8_min lv rv);
      ready_loop n ba
  end.

Definition buddy_ready (ba : buddy_allocator_s) : option buddy_allocator_s :=
  ba ← (if 0 <? ba_max_level ba
        then ready_loop (Z.to_nat (heap_size (ba_max_level ba - 1))) ba
        else Some ba);
  Some (Buddy (ba_offset ba) (ba_page_size_log2 ba) BUDDY_STATE_READY (ba_max_level ba) (ba_heap ba)).

(** ** Allocation and release of pages *)

Definition buddy_page_alloc (ba : buddy_allocator_s) (n_pages : Z)
    : option (buddy_allocator_s * (buddy_status_t + Z)) :=
  let n_pages := if n_pages =? 0 then 1 else n_pages in
  if uint64_pow2 (ba_max_level ba) <? n_pages then Some (ba, inl BUDDY_STATUS_INVAL)
  else
    let allocation_level := u8 (ba_max_level ba - uint64_ceil_log2 n_pages) in
    v ← load ba 0;
    if allocation_level <? v then Some (ba, inl BUDDY_STATUS_NOMEM)
    else
      '(ba, block_index) ← acquire_empty_slot ba allocation_level;
      ba ← store ba block_index BUDDY_LEVEL_ALLOCATED;
      ba ← propagate 64 ba block_index;
      Some (ba, inr (get_first_page_index_from_block_index ba block_index)).

Definition buddy_page_free (ba : buddy_allocator_s) (page_id : Z)
    : option (buddy_allocator_s * buddy_status_t) :=
  r ← get_block_index_from_page_index ba page_id;
  match r with
  | inl get_status => Some (ba, get_status)
  | inr block_index =>
      ba ← store ba block_index (heap_level block_index);
      '(ba, coalesced_block_index) ← coalesce ba block_index;
      ba ← propagate 64 ba coalesced_block_index;
      Some (ba, BUDDY_STATUS_SUCCESS)
  end.

(** ** Allocation and release of bytes *)

Definition page_to_ptr (ba : buddy_allocator_s) (page_id : Z) : Z :=
  u64 (ba_offset ba + u64 (Z.shiftl page_id (ba_page_size_log2 ba))).

Definition ptr_to_page (ba : buddy_allocator_s) (ptr : Z) : Z :=
  Z.shiftr (u64 (ptr - ba_offset ba)) (ba_page_size_log2 ba).

Definition buddy_mem_alloc (ba : buddy_allocator_s) (n_bytes : Z)
    : option (buddy_allocator_s * (buddy_status_t + Z)) :=
  let page_size := uint64_pow2 (ba_page_size_log2 ba) in
  let n_bytes := if n_bytes <? page_size then page_size else n_bytes in
  let n_pages := uint64_pow2 (uint64_ceil_log2 n_bytes - ba_page_size_log2 ba) in
  '(ba, r) ← buddy_page_alloc ba n_pages;
  match r with
  | inl s => Some (ba, inl s)
  | inr page_id => Some (ba, inr (page_to_ptr ba page_id))
  end.

Definition buddy_mem_free (ba : buddy_allocator_s) (mem : Z)
    : option (buddy_allocator_s * buddy_status_t) :=
  buddy_page_free ba (ptr_to_page ba mem).

Definition buddy_mem_size (ba : buddy_allocator_s) (mem : Z) : option (buddy_status_t + Z) :=
  r ← get_block_index_from_page_index ba (ptr_to_page ba mem);
  match r with
  | inl s => Some (inl s)
  | inr block_index =>
      let shift := u8 (ba_max_level ba - heap_level block_index + ba_page_size_log2 ba) in
      Some (inr (uint64_pow2 shift))
  end.

(** ** The kernel heap, [kernel/src/allocator.c]

    [g_allocator] is installed by [allocator_init]; a failed [asserts] and
    [fatal] halt the kernel. *)

Definition EFI_CONVENTIONAL_MEMORY : Z := 7.

Record efi_memory_descriptor := EfiMemoryDescriptor {
  efi_type : Z; efi_physical_start : Z; efi_pages : Z }.

Inductive kheap A :=
  | Running (a : A)
  | Halted.

Arguments Running {A} a.
Arguments Halted {A}.

Definition first_page (d : efi_memory_descriptor) : Z := efi_physical_start d / PAGE_SIZE.

Definition is_conventional (d : efi_memory_descriptor) : bool :=
  efi_type d =? EFI_CONVENTIONAL_MEMORY.

Definition max_free_page (mmap : list efi_memory_descriptor) : Z :=
  fold_left (fun m d => if is_conventional d then Z.max m (first_page d) else m) mmap 0.

Definition find_home (mmap : list efi_memory_descriptor) (pages_for_allocator : Z) : option Z :=
  option_map first_page
    (List.find (fun d => is_conventional d && (pages_for_allocator <? efi_pages d)) mmap).

Fixpoint mark_regions (mmap : list efi_memory_descriptor) (ba : buddy_allocator_s)
    : option buddy_allocator_s :=
  match mmap with
  | [] => Some ba
  | d :: mmap =>
      ba ← (if negb (is_conventional d)
            then buddy_mark_unusable ba (first_page d) (u64 (first_page d + efi_pages d))
            else Some ba);
      mark_regions mmap ba
  end.

Definition allocator_init (mmap : list efi_memory_descriptor)
    : option (kheap buddy_allocator_s) :=
  let n_pages := u64 (max_free_page mmap + 1) in
  let pages_for_allocator := buddy_get_bytes n_pages / PAGE_SIZE in
  match find_home mmap pages_for_allocator with
  | None => Some Halted
  | Some allocator_start_page_id =>
      ba ← buddy_init n_pages PAGE_SIZE 0;
      ba ← buddy_mark_unusable ba allocator_start_page_id
             (u64 (allocator_start_page_id + pages_for_allocator));
      ba ← mark_regions mmap ba;
      ba ← buddy_ready ba;
      Some (Running ba)
  end.

(** [nullptr] is 0. *)
Definition malloc_unlocked (g_allocator : option buddy_allocator_s) (size : Z)
    : option (kheap (option buddy_allocator_s * Z)) :=
  match g_allocator with
  | None => Some Halted
  | Some ba =>
      if size =? 0 then Some (Running (g_allocator, 0))
      else
        '(ba, r) ← buddy_mem_alloc ba size;
        Some (Running (Some ba, match r with inl _ => 0 | inr p => p end))
  end.

Definition free_unlocked (g_allocator : option buddy_allocator_s) (ptr : Z)
    : option (kheap (option buddy_allocator_s)) :=
  match g_allocator with
  | None => Some Halted
  | Some ba =>
      if ptr =? 0 then Some (Running g_allocator)
      else
        '(ba, s) ← buddy_mem_free ba ptr;
        Some (if decide (s = BUDDY_STATUS_SUCCESS) then Running (Some ba) else Halted)
  end.

(** ** Specification vocabulary *)

Definition idx (lvl o : Z) : Z := 2 ^ lvl - 1 + o.

Definition at_level (M lvl o : Z) : Prop := 0 <= lvl <= M /\ 0 <= o < 2 ^ lvl.

Definition sibling (o : Z) : Z := if o mod 2 =? 0 then o + 1 else o - 1.

(** What the heap entries of a ready allocator encode. *)
Inductive blocks :=
  | Free
  | Alloc
  | Bad
  | Split (l r : blocks).

(** The entry of a block: the level of the largest free block in it. *)
Fixpoint value (M lvl : Z) (t : blocks) : Z :=
  match t with
  | Free => lvl
  | Alloc => BUDDY_LEVEL_ALLOCATED
  | Bad => BUDDY_LEVEL_UNUSABLE
  | Split l r =>
      let p := uint8_min (value M (lvl + 1) l) (value M (lvl + 1) r) in
      if M <? p then BUDDY_LEVEL_FILLED else p
  end.

Fixpoint rep (M : Z) (h : gmap Z Z) (lvl o : Z) (t : blocks) : Prop :=
  h !! idx lvl o = Some (value M lvl t) /\
  match t with
  | Split l r => lvl < M /\ rep M h (lvl + 1) (2 * o) l /\ rep M h (lvl + 1) (2 * o + 1) r
  | _ => True
  end.

(** No two free buddies are left unmerged. *)
Fixpoint coalesced (t : blocks) : Prop :=
  match t with
  | Split l r => ~ (l = Free /\ r = Free) /\ coalesced l /\ coalesced r
  | _ => True
  end.

(** The siblings along the path from a block to the root, nearest first; the
    flag says that the path comes from the right child. *)
Fixpoint plug (ctx : list (bool * blocks)) (t : blocks) : blocks :=
  match ctx with
  | [] => t
  | (true, s) :: ctx => plug ctx (Split s t)
  | (false, s) :: ctx => plug ctx (Split t s)
  end.

Fixpoint rep_ctx (M : Z) (h : gmap Z Z) (lvl o : Z) (ctx : list (bool * blocks)) : Prop :=
  match ctx with
  | [] => lvl = 0 /\ o = 0
  | (side, s) :: ctx =>
      0 < lvl /\ o mod 2 = Z.b2z side /\ rep M h lvl (sibling o) s /\
      rep_ctx M h (lvl - 1) (o / 2) ctx
  end.

(** The block [(lu, ou)] lies in the block [(lvl, o)]. *)
Definition inside (lvl o lu ou : Z) : Prop := lvl <= lu /\ ou / 2 ^ (lu - lvl) = o.

(** The state of each page. *)
Inductive page_state :=
  | PFree
  | PAlloc (first n : Z)
  | PBad.

Fixpoint pages (M lvl o : Z) (t : blocks) (p : Z) : page_state :=
  match t with
  | Free => PFree
  | Alloc => PAlloc (o * 2 ^ (M - lvl)) (2 ^ (M - lvl))
  | Bad => PBad
  | Split l r =>
      if p <? (2 * o + 1) * 2 ^ (M - (lvl + 1))
      then pages M (lvl + 1) (2 * o) l p else pages M (lvl + 1) (2 * o + 1) r p
  end.

Definition in_block (M lvl o p : Z) : Prop :=
  o * 2 ^ (M - lvl) <= p < (o + 1) * 2 ^ (M - lvl).

(** A ready allocator and the blocks its heap encodes. *)
Record holds (ba : buddy_allocator_s) (t : blocks) : Prop := {
  holds_levels : 0 <= ba_max_level ba <= 62;
  holds_rep : rep (ba_max_level ba) (ba_heap ba) 0 0 t;
  holds_coalesced : coalesced t }.

(** The state of a page of the allocator. *)
Definition page (ba : buddy_allocator_s) (t : blocks) (p : Z) : page_state :=
  pages (ba_max_level ba) 0 0 t p.

Fixpoint bounded (M lvl : Z) (t : blocks) : Prop :=
  match t with
  | Split l r => lvl < M /\ bounded M (lvl + 1) l /\ bounded M (lvl + 1) r
  | _ => True
  end.

(** The blocks of a fresh pool: page [p] is usable unless [bad p]. *)
Definition combine (l r : blocks) : blocks :=
  match l, r with Bad, Bad => Bad | Free, Free => Free | _, _ => Split l r end.

Fixpoint fresh (bad : Z -> bool) (d : nat) (o : Z) : blocks :=
  match d with
  | O => if bad o then Bad else Free
  | S d => combine (fresh bad d (2 * o)) (fresh bad d (2 * o + 1))
  end.

(** An aligned run of [2^k] free pages. *)
Definition free_run (ba : buddy_allocator_s) (t : blocks) (k : Z) : Prop :=
  exists o, 0 <= o < 2 ^ (ba_max_level ba - k) /\
    forall p, o * 2 ^ k <= p < o * 2 ^ k + 2 ^ k -> page ba t p = PFree.

(** What a page operation leaves alone: everything but the heap entries. *)
Definition same_pool (ba ba' : buddy_allocator_s) : Prop := ba' = set_heap ba (ba_heap ba').

(** From [(ba, t)] to [(ba', t')] the pages [[first, first + n)], all free, become
    one allocation, and every other page keeps its state. *)
Record allocated (ba : buddy_allocator_s) (t : blocks) (ba' : buddy_allocator_s) (t' : blocks)
    (first n : Z) : Prop := {
  alloc_holds : holds ba' t';
  alloc_pool : same_pool ba ba';
  alloc_aligned : first mod n = 0;
  alloc_range : 0 <= first /\ first + n <= 2 ^ ba_max_level ba;
  alloc_pages p : 0 <= p < 2 ^ ba_max_level ba ->
    if decide (first <= p < first + n)
    then page ba t p = PFree /\ page ba' t' p = PAlloc first n
    else page ba' t' p = page ba t p }.

(** The reverse: the allocation [[first, first + n)] becomes free pages. *)
Record released (ba : buddy_allocator_s) (t : blocks) (ba' : buddy_allocator_s) (t' : blocks)
    (first n : Z) : Prop := {
  free_holds : holds ba' t';
  free_pool : same_pool ba ba';
  free_pages p : 0 <= p < 2 ^ ba_max_level ba ->
    if decide (first <= p < first + n)
    then page ba t p = PAlloc first n /\ page ba' t' p = PFree
    else page ba' t' p = page ba t p }.

(** The set-up sequence of [allocator_init]: init, marks, ready. *)
Fixpoint mark_all (marks : list (Z * Z)) (ba : buddy_allocator_s) : option buddy_allocator_s :=
  match marks with
  | [] => Some ba
  | (a, b) :: marks => ba ← buddy_mark_unusable ba a b; mark_all marks ba
  end.

Definition setup (n_pages page_size offset : Z) (marks : list (Z * Z)) : option buddy_allocator_s :=
  ba ← buddy_init n_pages page_size offset; ba ← mark_all marks ba; buddy_ready ba.

(** The page whose entry [buddy_mark_unusable] writes for page [i] is
    [i - marked_shift M]. *)
Definition marked_shift (M : Z) : Z := 2 ^ (M - 1) - 1.

Definition marked (M : Z) (marks : list (Z * Z)) (p : Z) : bool :=
  existsb (fun m => (m.1 <=? p + marked_shift M) && (p + marked_shift M <=? m.2)) marks.

(** The pool's addresses do not wrap around. *)
Definition pool_fits (ba : buddy_allocator_s) : Prop :=
  0 <= ba_page_size_log2 ba /\ ba_max_level ba + ba_page_size_log2 ba < 64 /\ 0 <= ba_offset ba /\
  ba_offset ba + 2 ^ (ba_max_level ba + ba_page_size_log2 ba) <= 2 ^ 64.

(** ** Positions

    A block is a level and an offset in it; [idx] is its heap index. *)

Section Facts.

Context (M : Z) (HM : 0 <= M <= 62).

Lemma idx_bounds lvl o : at_level M lvl o ->
  0 <= idx lvl o < heap_size M /\ heap_size M = 2 ^ (M + 1) - 1 /\ heap_size M < 2 ^ 63.
Proof.
  intros [Hl Ho]. unfold idx, heap_size, uint64_pow2. rewrite Z.shiftl_1_l.
  pose proof (pow2_le (M + 1) 63 ltac:(lia)). pose proof (pow2_S M ltac:(lia)).
  pose proof (pow2_le lvl M ltac:(lia)). pose proof (pow2_pos lvl ltac:(lia)).
  rewrite (u8_small M), (u8_small (M + 1)), (u64_small (2 ^ (M + 1))), u64_small by lia. lia.
Qed.

Lemma heap_size_pred lvl : 0 <= lvl <= 63 -> heap_size (lvl - 1) = 2 ^ lvl - 1.
Proof.
  intros Hl. unfold heap_size, uint64_pow2. rewrite Z.shiftl_1_l.
  pose proof (pow2_pos lvl ltac:(lia)). pose proof (pow2_le lvl 63 ltac:(lia)).
  destruct (Z.eq_dec lvl 0) as [->|]; [done|]. rewrite (u8_small (lvl - 1)) by lia.
  replace (lvl - 1 + 1) with lvl by lia. rewrite u8_small, (u64_small (2 ^ lvl)), u64_small; lia.
Qed.

Lemma uint64_log2_spec v : 0 < v < 2 ^ 64 -> uint64_log2 v = Z.log2 v.
Proof.
  intros Hv. unfold uint64_log2, clzll. pose proof (Z.log2_nonneg v).
  assert (Z.log2 v < 64) by (apply Z.log2_lt_pow2; lia). rewrite u8_small; lia.
Qed.

Lemma heap_level_idx lvl o : at_level 63 lvl o -> heap_level (idx lvl o) = lvl.
Proof.
  intros [Hl Ho]. unfold heap_level, idx. pose proof (pow2_le lvl 63 ltac:(lia)).
  replace (2 ^ lvl - 1 + o + 1) with (2 ^ lvl + o) by lia.
  rewrite u64_small, uint64_log2_spec by lia. apply Z.log2_unique; [lia|].
  rewrite Z.pow_succ_r by lia. lia.
Qed.

Lemma heap_left_idx lvl o : at_level 62 lvl o -> heap_left (idx lvl o) = idx (lvl + 1) (2 * o).
Proof.
  intros [Hl Ho]. unfold heap_left, idx. rewrite pow2_S by lia.
  pose proof (pow2_le lvl 62 ltac:(lia)). rewrite u64_small; lia.
Qed.

Lemma heap_right_idx lvl o : at_level 62 lvl o -> heap_right (idx lvl o) = idx (lvl + 1) (2 * o + 1).
Proof.
  intros [Hl Ho]. unfold heap_right, idx. rewrite pow2_S by lia.
  pose proof (pow2_le lvl 62 ltac:(lia)). rewrite u64_small; lia.
Qed.

Lemma idx_child_parity lvl o : 0 < lvl -> idx lvl o mod 2 = 1 - o mod 2.
Proof.
  intros Hl. unfold idx. replace lvl with (lvl - 1 + 1) by lia. rewrite pow2_S by lia.
  assert (0 <= o mod 2 < 2) by (apply Z.mod_pos_bound; lia).
  pose proof (Z.div_mod o 2 ltac:(lia)).
  symmetry. apply (Z.mod_unique _ _ (2 ^ (lvl - 1) - 1 + o / 2 + o mod 2)); lia.
Qed.

Lemma heap_parent_idx lvl o : at_level 63 lvl o -> 0 < lvl ->
  heap_parent (idx lvl o) = idx (lvl - 1) (o / 2).
Proof.
  intros [Hl Ho] Hp. unfold heap_parent, idx. pose proof (pow2_le lvl 63 ltac:(lia)).
  pose proof (pow2_le 1 lvl ltac:(lia)). rewrite u64_small by lia.
  replace lvl with (lvl - 1 + 1) at 1 by lia. rewrite pow2_S by lia.
  pose proof (Z.div_mod o 2 ltac:(lia)). assert (0 <= o mod 2 < 2) by (apply Z.mod_pos_bound; lia).
  symmetry. apply (Z.div_unique _ _ _ (o mod 2)); lia.
Qed.

Lemma heap_sibling_idx lvl o : at_level 63 lvl o -> 0 < lvl ->
  heap_sibling (idx lvl o) = idx lvl (sibling o).
Proof.
  intros [Hl Ho] Hp. unfold heap_sibling, sibling. rewrite idx_child_parity by done.
  pose proof (pow2_le lvl 63 ltac:(lia)). pose proof (pow2_le 1 lvl ltac:(lia)).
  assert (0 <= o mod 2 < 2) by (apply Z.mod_pos_bound; lia). unfold idx.
  destruct (Z.eqb_spec (1 - o mod 2) 1), (Z.eqb_spec (o mod 2) 0); try lia;
    rewrite u64_small; lia.
Qed.

Lemma idx_zero lvl o : at_level 63 lvl o -> idx lvl o = 0 <-> lvl = 0.
Proof.
  intros [Hl Ho]. unfold idx. split; [|intros ->; simpl in *; lia].
  intros Hz. destruct (Z.eq_dec lvl 0); [done|]. pose proof (pow2_le 1 lvl ltac:(lia)). lia.
Qed.

Lemma idx_inj lvl o lvl' o' : at_level 63 lvl o -> at_level 63 lvl' o' ->
  idx lvl o = idx lvl' o' -> lvl = lvl' /\ o = o'.
Proof.
  intros H1 H2 E. assert (lvl = lvl') as ->.
  { rewrite <-(heap_level_idx lvl o), <-(heap_level_idx lvl' o') by done. by rewrite E. }
  unfold idx in E. split; [done|lia].
Qed.

Lemma at_level_le n n' lvl o : at_level n lvl o -> n <= n' -> at_level n' lvl o.
Proof. unfold at_level. lia. Qed.

Lemma at_level_63 lvl o : at_level M lvl o -> at_level 63 lvl o.
Proof. intros Ha. apply (at_level_le M); [done|lia]. Qed.

Lemma at_level_child lvl o b : at_level M lvl o -> lvl < M -> 0 <= b <= 1 ->
  at_level M (lvl + 1) (2 * o + b).
Proof. unfold at_level. intros. rewrite pow2_S by lia. lia. Qed.

Lemma at_level_parent lvl o : at_level M lvl o -> 0 < lvl -> at_level M (lvl - 1) (o / 2).
Proof.
  unfold at_level. intros [Hl Ho] Hp. replace lvl with (lvl - 1 + 1) in Ho by lia.
  rewrite pow2_S in Ho by lia. split; [lia|]. split; [apply Z.div_pos; lia|].
  apply Z.div_lt_upper_bound; lia.
Qed.

Lemma sibling_spec o : 0 <= o -> 0 <= sibling o /\ sibling o / 2 = o / 2 /\ sibling o <> o /\
  sibling (sibling o) = o /\
  ((o mod 2 = 0 /\ o = 2 * (o / 2) /\ sibling o = 2 * (o / 2) + 1) \/
   (o mod 2 = 1 /\ o = 2 * (o / 2) + 1 /\ sibling o = 2 * (o / 2))).
Proof.
  intros Ho. unfold sibling. pose proof (Z.div_mod o 2 ltac:(lia)) as E.
  assert (0 <= o mod 2 < 2) as B by (apply Z.mod_pos_bound; lia).
  assert (0 <= o / 2) by (apply Z.div_pos; lia).
  destruct (Z.eqb_spec (o mod 2) 0) as [E0|E0].
  - assert ((o + 1) mod 2 = 1) as -> by (symmetry; apply (Z.mod_unique _ _ (o / 2)); lia).
    assert ((o + 1) / 2 = o / 2) as -> by (symmetry; apply (Z.div_unique _ _ _ 1); lia). simpl. lia.
  - assert ((o - 1) mod 2 = 0) as -> by (symmetry; apply (Z.mod_unique _ _ (o / 2)); lia).
    assert ((o - 1) / 2 = o / 2) as -> by (symmetry; apply (Z.div_unique _ _ _ 0); lia). simpl. lia.
Qed.

Lemma at_level_sibling lvl o : at_level M lvl o -> 0 < lvl -> at_level M lvl (sibling o).
Proof.
  intros [Hl Ho] Hp. split; [done|]. destruct (sibling_spec o) as (? & ? & ? & _ & Hs); [lia|].
  replace lvl with (lvl - 1 + 1) in Ho |- * by lia. rewrite pow2_S in * by lia. lia.
Qed.

Lemma first_page_idx ba lvl o : ba_max_level ba = M -> at_level M lvl o ->
  get_first_page_index_from_block_index ba (idx lvl o) = o * 2 ^ (M - lvl).
Proof.
  intros E Ha. unfold get_first_page_index_from_block_index.
  rewrite heap_level_idx by by apply at_level_63. destruct Ha as [Hl Ho]. rewrite E, heap_size_pred by lia.
  replace (idx lvl o - (2 ^ lvl - 1)) with o by (unfold idx; lia).
  pose proof (pow2_le lvl 63 ltac:(lia)). rewrite (u64_small o), Z.shiftl_mul_pow2 by lia.
  apply u64_small. pose proof (pow2_pos (M - lvl) ltac:(lia)).
  assert (2 ^ lvl * 2 ^ (M - lvl) = 2 ^ M) by (rewrite <-Z.pow_add_r by lia; f_equal; lia).
  pose proof (pow2_le M 63 ltac:(lia)). nia.
Qed.

(** ** Reading and writing entries *)

Lemma store_ok ba lvl o v : ba_max_level ba = M -> at_level M lvl o -> 0 <= v < 256 ->
  store ba (idx lvl o) v = Some (set_heap ba (<[idx lvl o := v]> (ba_heap ba))).
Proof.
  intros E Ha Hv. unfold store. rewrite E, (u8_small v) by done.
  destruct (idx_bounds lvl o Ha) as [Hi _].
  destruct (Z.leb_spec 0 (idx lvl o)), (Z.ltb_spec (idx lvl o) (heap_size M)); try lia. done.
Qed.

Lemma inside_refl lvl o : inside lvl o lvl o.
Proof. split; [lia|]. by rewrite Z.sub_diag, Z.div_1_r. Qed.

Lemma inside_parent lvl o lu ou : inside lvl o lu ou -> inside (lvl - 1) (o / 2) lu ou.
Proof.
  intros [Hl <-]. split; [lia|]. replace (lu - (lvl - 1)) with (lu - lvl + 1) by lia.
  rewrite pow2_S, Z.mul_comm by lia. rewrite Z.div_div by (try apply pow2_pos; lia). done.
Qed.

Lemma inside_child lvl o b lu ou : 0 <= b <= 1 -> inside (lvl + 1) (2 * o + b) lu ou -> inside lvl o lu ou.
Proof.
  intros Hb Hi%inside_parent. replace (lvl + 1 - 1) with lvl in Hi by lia.
  replace ((2 * o + b) / 2) with o in Hi; [done|]. apply (Z.div_unique _ _ _ b); lia.
Qed.

Lemma inside_unique lvl o o' lu ou : inside lvl o lu ou -> inside lvl o' lu ou -> o = o'.
Proof. intros [_ <-] [_ <-]. done. Qed.

Lemma rep_frame h h' lvl o t : at_level M lvl o -> rep M h lvl o t ->
  (forall lu ou, at_level M lu ou -> inside lvl o lu ou -> h' !! idx lu ou = h !! idx lu ou) ->
  rep M h' lvl o t.
Proof.
  revert lvl o. induction t as [| | |l IHl r IHr]; intros lvl o Ha Hr Hf; cbn [rep] in *;
    (destruct Hr as [Hv Hc]; split; [rewrite Hf by (done || apply inside_refl); done|]); try done.
  destruct Hc as (Hlt & Hl & Hr). split_and!; [done| |].
  - apply IHl; [by rewrite <-(Z.add_0_r (2 * o)); apply at_level_child|done|].
    intros lu ou Hau Hi. apply Hf; [done|]. apply (inside_child lvl o 0); [lia|by rewrite Z.add_0_r].
  - apply IHr; [by apply at_level_child|done|]. intros lu ou Hau Hi. apply Hf; [done|].
    by apply (inside_child lvl o 1).
Qed.

Lemma rep_write h lvl o t lu ou v : at_level M lvl o -> at_level M lu ou ->
  ~ inside lvl o lu ou -> rep M h lvl o t -> rep M (<[idx lu ou := v]> h) lvl o t.
Proof.
  intros Ha Hau Hn Hr. eapply rep_frame; [done..|]. intros l' o' Ha' Hi.
  apply lookup_insert_ne. intros E. apply Hn.
  destruct (idx_inj lu ou l' o') as [-> ->]; [by apply at_level_63..|done|done].
Qed.

Lemma rep_ctx_write h lvl o ctx lu ou v : at_level M lvl o -> at_level M lu ou ->
  inside lvl o lu ou -> rep_ctx M h lvl o ctx -> rep_ctx M (<[idx lu ou := v]> h) lvl o ctx.
Proof.
  revert lvl o. induction ctx as [|[side s] ctx IH]; intros lvl o Ha Hau Hi Hc; [done|].
  cbn [rep_ctx] in *. destruct Hc as (Hl & Hm & Hs & Hc).
  destruct (sibling_spec o) as (_ & _ & Hne & _); [apply Ha|].
  split_and!; [done..| |apply IH; auto using at_level_parent, inside_parent].
  apply rep_write; auto using at_level_sibling. intros Hi'. apply Hne. by eapply inside_unique.
Qed.

(** A write at a proper ancestor, where the path has already passed. *)
Lemma rep_write_above h lvl o t lu ou v : at_level M lvl o -> at_level M lu ou -> lu < lvl ->
  rep M h lvl o t -> rep M (<[idx lu ou := v]> h) lvl o t.
Proof. intros Ha Hau Hl. apply rep_write; [done..|]. intros [? _]. lia. Qed.

(** ** Entry values *)

Lemma value_bounds lvl t : 0 <= lvl ->
  0 <= value M lvl t /\ (value M lvl t <= 255 \/ value M lvl t = lvl) /\
  (M < value M lvl t \/ lvl <= value M lvl t).
Proof.
  revert lvl. induction t as [| | |l IHl r IHr]; intros lvl Hl; simpl;
    unfold BUDDY_LEVEL_ALLOCATED, BUDDY_LEVEL_UNUSABLE, BUDDY_LEVEL_FILLED; try lia.
  specialize (IHl (lvl + 1) ltac:(lia)). specialize (IHr (lvl + 1) ltac:(lia)).
  unfold uint8_min. case_match; case_match; lia.
Qed.

Lemma value_range lvl t : 0 <= lvl <= M + 1 ->
  0 <= value M lvl t < 256 /\ lvl <= value M lvl t.
Proof. intros Hl. pose proof (value_bounds lvl t ltac:(lia)). lia. Qed.

Lemma value_split_gt lvl l r : 0 <= lvl < M ->
  lvl < value M lvl (Split l r) /\ (M < value M lvl (Split l r) -> value M lvl (Split l r) = 255).
Proof.
  intros Hl. pose proof (value_range (lvl + 1) l ltac:(lia)). pose proof (value_range (lvl + 1) r ltac:(lia)).
  simpl. unfold uint8_min, BUDDY_LEVEL_FILLED. repeat case_match; lia.
Qed.

Lemma value_split_parent ba lvl l r : ba_max_level ba = M ->
  parent_free_level ba (value M (lvl + 1) l) (value M (lvl + 1) r) = value M lvl (Split l r).
Proof. intros E. unfold parent_free_level. by rewrite E. Qed.

Lemma parent_free_level_comm ba a b : parent_free_level ba a b = parent_free_level ba b a.
Proof. unfold parent_free_level, uint8_min. repeat case_match; lia. Qed.

Lemma rep_value h lvl o t : rep M h lvl o t -> h !! idx lvl o = Some (value M lvl t).
Proof. destruct t; simpl; naive_solver. Qed.

Lemma load_rep ba lvl o t : rep M (ba_heap ba) lvl o t -> load ba (idx lvl o) = Some (value M lvl t).
Proof. apply rep_value. Qed.

(** ** Propagation rebuilds the path to the root *)

Lemma propagate_spec fuel ba lvl o t ctx :
  ba_max_level ba = M -> at_level M lvl o -> lvl < Z.of_nat fuel ->
  rep M (ba_heap ba) lvl o t -> rep_ctx M (ba_heap ba) lvl o ctx ->
  exists h', propagate fuel ba (idx lvl o) = Some (set_heap ba h') /\ rep M h' 0 0 (plug ctx t).
Proof.
  revert ba lvl o t ctx. induction fuel as [|fuel IH]; intros ba lvl o t ctx E Ha Hf Hr Hc; [destruct Ha; lia|].
  assert (Ha63 : at_level 63 lvl o) by by apply at_level_63.
  cbn [propagate]. destruct (Z.eqb_spec (idx lvl o) 0) as [Hz|Hz].
  { apply idx_zero in Hz as ->; [|done]. destruct ctx as [|[] ctx]; [|simpl in Hc; lia].
    destruct Hc as [_ ->]. exists (ba_heap ba). by destruct ba. }
  destruct ctx as [|[side s] ctx]; [by destruct Hc as [-> ->]|].
  destruct Hc as (Hl & Hm & Hs & Hc). unfold load.
  rewrite heap_sibling_idx, (rep_value _ _ _ _ Hr), (rep_value _ _ _ _ Hs), heap_parent_idx by done.
  cbn [mbind option_bind].
  pose proof (at_level_parent _ _ Ha Hl) as Hp.
  set (t' := if side then Split s t else Split t s).
  assert (Hv : parent_free_level ba (value M lvl t) (value M lvl s) = value M (lvl - 1) t').
  { replace lvl with (lvl - 1 + 1) at 1 2 by lia. unfold t'.
    destruct side; [rewrite parent_free_level_comm|]; by apply value_split_parent. }
  rewrite Hv, store_ok; [|done..|apply value_range; destruct Hp; lia]. cbn [mbind option_bind].
  destruct (IH (set_heap ba (<[idx (lvl - 1) (o / 2):=value M (lvl - 1) t']> (ba_heap ba)))
    (lvl - 1) (o / 2) t' ctx) as (h' & Hh & Hrep); [done|done|lia| |by apply rep_ctx_write; auto using inside_refl|].
  - simpl. assert (Hrest : forall b q, 0 <= b <= 1 -> rep M (ba_heap ba) lvl (2 * (o / 2) + b) q ->
      rep M (<[idx (lvl - 1) (o / 2):=value M (lvl - 1) t']> (ba_heap ba)) (lvl - 1 + 1) (2 * (o / 2) + b) q).
    { intros b q Hb Hq. replace (lvl - 1 + 1) with lvl by lia. apply rep_write_above; [|done|lia|done].
      replace lvl with (lvl - 1 + 1) by lia. apply at_level_child; [done|destruct Ha; lia|done]. }
    destruct (sibling_spec o) as (_ & _ & _ & _ & Hcase); [apply Ha|].
    assert (Hz0 : forall q, rep M (ba_heap ba) lvl (2 * (o / 2)) q -> rep M (ba_heap ba) lvl (2 * (o / 2) + 0) q)
      by (intros q; by rewrite Z.add_0_r).
    pose proof (fun q H => Hrest 0 q ltac:(lia) (Hz0 q H)) as Hrest0. setoid_rewrite Z.add_0_r in Hrest0.
    unfold t' in *. destruct side; simpl in Hm; destruct Hcase as [(? & E1 & E2)|(? & E1 & E2)]; try lia.
    + rewrite E1 in Hr. rewrite E2 in Hs. cbn [rep]. rewrite lookup_insert_eq.
      split_and!; [done|destruct Ha; lia|by apply Hrest0|by apply (Hrest 1)].
    + rewrite E1 in Hr. rewrite E2 in Hs. cbn [rep]. rewrite lookup_insert_eq.
      split_and!; [done|destruct Ha; lia|by apply Hrest0|by apply (Hrest 1)].
  - exists h'. simpl. rewrite Hh. split; [by destruct ba|]. unfold t' in Hrep. by destruct side.
Qed.

(** ** Page states along a path *)

Lemma block_size_parent lvl : 0 < lvl <= M -> 2 ^ (M - (lvl - 1)) = 2 * 2 ^ (M - lvl).
Proof. intros. replace (M - (lvl - 1)) with (M - lvl + 1) by lia. apply pow2_S. lia. Qed.

Lemma pages_split lvl o l r p : 0 <= lvl < M -> in_block M lvl o p ->
  exists b, 0 <= b <= 1 /\ in_block M (lvl + 1) (2 * o + b) p /\
    ~ in_block M (lvl + 1) (2 * o + (1 - b)) p /\
    pages M lvl o (Split l r) p = pages M (lvl + 1) (2 * o + b) (if b =? 0 then l else r) p.
Proof.
  intros Hl Hp. unfold in_block in *. simpl.
  pose proof (block_size_parent (lvl + 1) ltac:(lia)) as E.
  replace (M - (lvl + 1 - 1)) with (M - lvl) in E by lia. rewrite E in Hp.
  pose proof (pow2_pos (M - (lvl + 1)) ltac:(lia)) as Hpos.
  set (s := 2 ^ (M - (lvl + 1))) in *.
  destruct (Z.ltb_spec p ((2 * o + 1) * s)); [exists 0|exists 1]; simpl; rewrite ?Z.add_0_r;
    (split_and!; [lia..| |done]); nia.
Qed.

Lemma in_block_parent lvl o p : 0 < lvl <= M -> in_block M lvl o p -> in_block M (lvl - 1) (o / 2) p.
Proof.
  intros Hl. unfold in_block. rewrite block_size_parent by done.
  pose proof (pow2_pos (M - lvl) ltac:(lia)). pose proof (Z.div_mod o 2 ltac:(lia)) as E.
  assert (0 <= o mod 2 < 2) by (apply Z.mod_pos_bound; lia).
  set (s := 2 ^ (M - lvl)) in *. set (q := o / 2) in *. nia.
Qed.

Lemma pages_plug_in h lvl o ctx t p : at_level M lvl o -> rep_ctx M h lvl o ctx ->
  in_block M lvl o p -> pages M 0 0 (plug ctx t) p = pages M lvl o t p.
Proof.
  revert lvl o t. induction ctx as [|[side s] ctx IH]; intros lvl o t Ha Hc Hp.
  { by destruct Hc as [-> ->]. }
  destruct Hc as (Hl & Hm & _ & Hc). pose proof (at_level_parent _ _ Ha Hl) as Hpa.
  destruct Ha as [Hlm Ho].
  assert (Hip : in_block M (lvl - 1) (o / 2) p) by (apply in_block_parent; [lia|done]).
  assert (Hgo : forall l r, (if side then r else l) = t ->
    pages M (lvl - 1) (o / 2) (Split l r) p = pages M lvl o t p).
  { intros l r <-. destruct (pages_split (lvl - 1) (o / 2) l r p) as (b & Hb & Hin & Hout & ->); [lia|done|].
    replace (lvl - 1 + 1) with lvl in * by lia. destruct (sibling_spec o) as (_ & _ & _ & _ & Hcase); [lia|].
    destruct side; simpl in Hm; destruct Hcase as [(? & E1 & _)|(? & E1 & _)]; try lia.
    - assert (b = 1) as -> by (destruct (Z.eq_dec b 1); [done|]; exfalso; apply Hout;
        replace (1 - b) with 1 by lia; by rewrite <-E1). by rewrite <-E1.
    - assert (b = 0) as -> by (destruct (Z.eq_dec b 0); [done|]; exfalso; apply Hout;
        replace (1 - b) with 0 by lia; by rewrite Z.add_0_r, <-E1). by rewrite Z.add_0_r, <-E1. }
  destruct side; simpl; rewrite (IH (lvl - 1) (o / 2)) by done; by apply Hgo.
Qed.

Lemma pages_plug_out h lvl o ctx t t' p : at_level M lvl o -> rep_ctx M h lvl o ctx ->
  ~ in_block M lvl o p -> in_block M 0 0 p ->
  pages M 0 0 (plug ctx t) p = pages M 0 0 (plug ctx t') p.
Proof.
  revert lvl o t t'. induction ctx as [|[side s] ctx IH]; intros lvl o t t' Ha Hc Hp H0.
  { by destruct Hc as [-> ->]. }
  destruct Hc as (Hl & Hm & _ & Hc). pose proof (at_level_parent _ _ Ha Hl) as Hpa.
  destruct Ha as [Hlm Ho].
  assert (in_block M (lvl - 1) (o / 2) p \/ ~ in_block M (lvl - 1) (o / 2) p) as [Hip|Hnp]
    by (unfold in_block; lia).
  - assert (Hgo : forall l r l' r', (if side then l = l' else r = r') ->
      pages M (lvl - 1) (o / 2) (Split l r) p = pages M (lvl - 1) (o / 2) (Split l' r') p).
    { intros l r l' r' E. destruct (sibling_spec o) as (_ & _ & _ & _ & Hcase); [lia|].
      assert (forall q, q = o -> in_block M (lvl - 1 + 1) q p -> False) as Hno
        by (intros q ->; replace (lvl - 1 + 1) with lvl by lia; done).
      destruct (pages_split (lvl - 1) (o / 2) l r p) as (b & Hb & Hin & Hout & ->); [lia|done|].
      destruct (pages_split (lvl - 1) (o / 2) l' r' p) as (b' & Hb' & Hin' & Hout' & ->); [lia|done|].
      destruct side; simpl in Hm; destruct Hcase as [(? & E1 & _)|(? & E1 & _)]; try lia.
      - assert (b = 0) as -> by (destruct (Z.eq_dec b 0); [done|]; exfalso; apply (Hno (2 * (o / 2) + b)); [lia|done]).
        assert (b' = 0) as -> by (destruct (Z.eq_dec b' 0); [done|]; exfalso; apply (Hno (2 * (o / 2) + b')); [lia|done]).
        simpl. by subst.
      - assert (b = 1) as -> by (destruct (Z.eq_dec b 1); [done|]; exfalso; apply (Hno (2 * (o / 2) + b)); [lia|done]).
        assert (b' = 1) as -> by (destruct (Z.eq_dec b' 1); [done|]; exfalso; apply (Hno (2 * (o / 2) + b')); [lia|done]).
        simpl. by subst. }
    destruct side; simpl; rewrite !(pages_plug_in h (lvl - 1) (o / 2)) by done; by apply Hgo.
  - destruct side; simpl; by apply (IH (lvl - 1) (o / 2)).
Qed.

(** ** Coalescing along a path *)

Lemma coalesced_plug ctx t :
  Forall (fun f => coalesced f.2) ctx -> coalesced t ->
  (t <> Free \/ match ctx with [] => True | (_, s) :: _ => s <> Free end) -> coalesced (plug ctx t).
Proof.
  revert t. induction ctx as [|[[] s] ctx IH]; intros t Hc Ht Hd; [done|..]; simpl;
    apply Forall_cons in Hc as [Hs Hc]; simpl in Hs; (apply IH; [done| |by left]);
    simpl; split_and!; try done; naive_solver.
Qed.


(** ** Descending to a free block *)

(** The path position reached by a descent: a block at [(lvl, o)] under [ctx]. *)
Definition focus (ba : buddy_allocator_s) (lvl o : Z) (t : blocks) (ctx : list (bool * blocks)) : Prop :=
  ba_max_level ba = M /\ at_level M lvl o /\
  rep M (ba_heap ba) lvl o t /\ coalesced t /\
  rep_ctx M (ba_heap ba) lvl o ctx /\ Forall (fun f => coalesced f.2) ctx.

Lemma child_parity o b : 0 <= b <= 1 -> (2 * o + b) mod 2 = b /\ (2 * o + b) / 2 = o.
Proof.
  intros. split; symmetry; [apply (Z.mod_unique _ _ o)|apply (Z.div_unique _ _ _ b)]; lia.
Qed.

Lemma sibling_child o b : 0 <= b <= 1 -> sibling (2 * o + b) = 2 * o + (1 - b).
Proof. intros Hb. unfold sibling. rewrite (proj1 (child_parity o b Hb)). case_match; lia. Qed.

Lemma focus_child ba lvl o l r ctx (b : bool) :
  focus ba lvl o (Split l r) ctx ->
  focus ba (lvl + 1) (2 * o + Z.b2z b) (if b then r else l) ((b, if b then l else r) :: ctx).
Proof.
  intros (E & Ha & Hr & Hco & Hc & Hf). cbn [rep coalesced] in *.
  destruct Hr as (_ & Hlt & Hl & Hr). destruct Hco as (_ & Cl & Cr).
  assert (Hb : 0 <= Z.b2z b <= 1) by (destruct b; simpl; lia).
  unfold focus. cbn [rep_ctx]. rewrite (proj1 (child_parity o _ Hb)), (proj2 (child_parity o _ Hb)), sibling_child by done.
  replace (lvl + 1 - 1) with lvl by lia.
  split_and!; try done; [by apply at_level_child|by destruct b; rewrite ?Z.add_0_r|by destruct b|
    destruct Ha; lia|by destruct b; simpl; rewrite ?Z.add_0_r|].
  constructor; [by destruct b|done].
Qed.

(** Splitting a free block. *)
Lemma focus_split ba lvl o ctx : focus ba lvl o Free ctx -> lvl < M ->
  exists ba', (ba1 ← store ba (idx lvl o) (lvl + 1);
    ba2 ← store ba1 (heap_left (idx lvl o)) (lvl + 1);
    store ba2 (heap_right (idx lvl o)) (lvl + 1)) = Some ba' /\ ba' = set_heap ba (ba_heap ba') /\
    load ba' (idx (lvl + 1) (2 * o)) = Some (lvl + 1) /\
    load ba' (idx (lvl + 1) (2 * o + 1)) = Some (lvl + 1) /\
    focus ba' (lvl + 1) (2 * o) Free ((false, Free) :: ctx).
Proof.
  intros (E & Ha & Hr & Hco & Hc & Hf) Hlt. pose proof Ha as [Hl Ho].
  assert (Ha0 : at_level M (lvl + 1) (2 * o)) by (rewrite <-(Z.add_0_r (2 * o)); by apply at_level_child).
  assert (Ha1 : at_level M (lvl + 1) (2 * o + 1)) by by apply at_level_child.
  assert (Ha62 : at_level 62 lvl o) by (unfold at_level; lia).
  rewrite heap_left_idx, heap_right_idx by done.
  rewrite store_ok by (done || lia). cbn [mbind option_bind].
  rewrite store_ok by (done || lia). cbn [mbind option_bind].
  rewrite store_ok by (done || lia). eexists. split; [done|]. unfold load. simpl.
  assert (Hne : idx (lvl + 1) (2 * o) <> idx (lvl + 1) (2 * o + 1)) by (unfold idx; lia).
  split_and!; [by destruct ba|by rewrite lookup_insert_ne, lookup_insert_eq|by rewrite lookup_insert_eq|].
  destruct (child_parity o 0) as [Hm Hd]; [lia|]. rewrite Z.add_0_r in Hm, Hd.
  unfold focus. cbn [rep_ctx]. rewrite Hm, Hd.
  assert (sibling (2 * o) = 2 * o + 1) as -> by (unfold sibling; by rewrite Hm).
  replace (lvl + 1 - 1) with lvl by lia. simpl.
  split_and!; try done; [by rewrite lookup_insert_ne, lookup_insert_eq|lia|by rewrite lookup_insert_eq| |by constructor].
  repeat apply rep_ctx_write; auto using inside_refl.
  - apply (inside_child lvl o 1); [lia|apply inside_refl].
  - apply (inside_child lvl o 0); [lia|rewrite Z.add_0_r; apply inside_refl].
Qed.

Lemma pages_free_split ba lvl o ctx p : focus ba lvl o Free ctx -> lvl < M -> in_block M 0 0 p ->
  pages M 0 0 (plug ctx (Split Free Free)) p = pages M 0 0 (plug ctx Free) p.
Proof.
  intros (_ & Ha & _ & _ & Hc & _) Hlt H0.
  assert (in_block M lvl o p \/ ~ in_block M lvl o p) as [Hi|Hn] by (unfold in_block; lia).
  - rewrite !(pages_plug_in _ _ _ _ _ _ Ha Hc Hi). simpl. by case_match.
  - by apply (pages_plug_out _ _ _ _ _ _ _ Ha Hc).
Qed.

Lemma acquire_spec fuel ba A lvl o t ctx :
  focus ba lvl o t ctx -> value M lvl t <= A <= M -> A - lvl < Z.of_nat fuel ->
  exists ba' o' ctx', acquire_loop fuel ba A (idx lvl o) lvl = Some (ba', idx A o') /\
    ba' = set_heap ba (ba_heap ba') /\ focus ba' A o' Free ctx' /\
    (forall p, in_block M 0 0 p -> pages M 0 0 (plug ctx' Free) p = pages M 0 0 (plug ctx t) p).
Proof.
  revert ba lvl o t ctx. induction fuel as [|fuel IH]; intros ba lvl o t ctx Hfo Hv Hfuel.
  { pose proof Hfo as (_ & [Hl _] & _). pose proof (value_range lvl t ltac:(lia)). lia. }
  pose proof Hfo as (E & Ha & Hr & Hco & Hc & Hf). pose proof Ha as [Hl Ho].
  cbn [acquire_loop]. rewrite (load_rep _ _ _ _ Hr). cbn [mbind option_bind].
  assert (Ha62 : at_level 62 lvl o) by (unfold at_level; lia).
  destruct t as [| | |l r]; cbn [value] in Hv;
    try (unfold BUDDY_LEVEL_ALLOCATED, BUDDY_LEVEL_UNUSABLE in Hv; lia).
  - cbn [value]. rewrite Z.eqb_refl. destruct (Z.eqb_spec lvl A) as [->|Hne].
    { exists ba, o, ctx. split_and!; [done|by destruct ba|done|done]. }
    destruct (focus_split ba lvl o ctx Hfo ltac:(lia)) as (ba' & Hs & Eb & HL & HR & Hfo'). simpl.
    rewrite Hs. cbn [mbind option_bind]. rewrite heap_left_idx, heap_right_idx, HL, HR by done.
    cbn [mbind option_bind]. rewrite Z.ltb_irrefl, (proj2 (Z.leb_le _ _)), u8_small by lia.
    destruct (IH ba' (lvl + 1) (2 * o) Free ((false, Free) :: ctx)) as (ba2 & o' & ctx' & Hq & Eb2 & Hfo2 & Hp);
      [done|simpl; lia|lia|].
    exists ba2, o', ctx'. split_and!; [done| |done|].
    + rewrite Eb2, Eb. by destruct ba.
    + intros p Hp0. rewrite Hp by done. simpl. eapply pages_free_split; [done|lia|done].
  - pose proof Hr as (_ & Hlt & Hrl & Hrr). cbn [rep] in Hr.
    destruct (value_split_gt lvl l r ltac:(lia)) as [Hgt _].
    destruct (Z.eqb_spec (value M lvl (Split l r)) lvl); [lia|]. simpl andb. cbn [mbind option_bind].
    rewrite heap_left_idx, heap_right_idx, (load_rep _ _ _ _ Hrl), (load_rep _ _ _ _ Hrr) by done.
    cbn [mbind option_bind].
    set (b := if value M (lvl + 1) l <? value M (lvl + 1) r
              then value M (lvl + 1) r <=? A else negb (value M (lvl + 1) l <=? A)).
    assert (Hvb : value M (lvl + 1) (if b then r else l) <= A).
    { unfold b, uint8_min, BUDDY_LEVEL_FILLED in *. repeat case_match; lia. }
    destruct (IH ba (lvl + 1) (2 * o + Z.b2z b) (if b then r else l) ((b, if b then l else r) :: ctx))
      as (ba2 & o' & ctx' & Hq & Eb2 & Hfo2 & Hp); [by apply focus_child|lia|lia|].
    exists ba2, o', ctx'. rewrite u8_small by lia. split_and!; [|done|done|].
    + rewrite <-Hq. f_equal. unfold b. repeat case_match; simpl; rewrite ?Z.add_0_r; done.
    + intros p Hp0. rewrite Hp by done. by destruct b.
Qed.

(** ** Rounding up to a power of two *)

Lemma popcount_zero n v : 0 <= v < 2 ^ Z.of_nat n -> popcount n v = 0 <-> v = 0.
Proof.
  revert v. induction n as [|n IH]; intros v Hv; [simpl in *; lia|]. cbn [popcount].
  rewrite Nat2Z.inj_succ, Z.pow_succ_r in Hv by lia.
  pose proof (Z.div_mod v 2 ltac:(lia)) as E. assert (0 <= v mod 2 < 2) by (apply Z.mod_pos_bound; lia).
  assert (Hd : 0 <= v / 2 < 2 ^ Z.of_nat n) by lia. specialize (IH _ Hd).
  assert (0 <= popcount n (v / 2)).
  { clear. generalize (v / 2). induction n as [|n IH]; intros w; simpl; [lia|].
    specialize (IH (w / 2)). assert (0 <= w mod 2 < 2) by (apply Z.mod_pos_bound; lia). lia. }
  lia.
Qed.

Lemma popcount_one n v : 0 <= v < 2 ^ Z.of_nat n ->
  popcount n v = 1 <-> exists k, 0 <= k /\ v = 2 ^ k.
Proof.
  revert v. induction n as [|n IH]; intros v Hv.
  { simpl in *. split; [lia|]. intros (k & Hk & ->). pose proof (pow2_pos k Hk). lia. }
  cbn [popcount]. rewrite Nat2Z.inj_succ, Z.pow_succ_r in Hv by lia.
  pose proof (Z.div_mod v 2 ltac:(lia)) as E. assert (0 <= v mod 2 < 2) by (apply Z.mod_pos_bound; lia).
  assert (Hd : 0 <= v / 2 < 2 ^ Z.of_nat n) by lia. pose proof (popcount_zero n _ Hd) as H0.
  specialize (IH _ Hd). split.
  - intros Hp. destruct (Z.eq_dec (v mod 2) 0) as [E0|E0].
    + destruct IH as [IH _]. destruct IH as (k & Hk & Ek); [lia|]. exists (k + 1). rewrite pow2_S by lia. lia.
    + exists 0. simpl. assert (popcount n (v / 2) = 0) as Hz by lia. apply H0 in Hz. lia.
  - intros (k & Hk & Ek). destruct (Z.eq_dec k 0) as [->|].
    + simpl in Ek. subst v. destruct H0 as [_ H0]. rewrite H0; done.
    + replace k with (k - 1 + 1) in Ek by lia. rewrite pow2_S in Ek by lia.
      assert (v mod 2 = 0 /\ v / 2 = 2 ^ (k - 1)) as [-> Ed] by lia.
      destruct IH as [_ IH]. rewrite IH; [done|]. exists (k - 1). lia.
Qed.

Lemma uint64_ceil_log2_spec v : 0 < v < 2 ^ 64 -> uint64_ceil_log2 v = Z.log2_up v.
Proof.
  intros Hv. unfold uint64_ceil_log2, uint64_is_power_of_2. rewrite uint64_log2_spec by done.
  pose proof (popcount_one 64 v ltac:(lia)) as Hp. pose proof (Z.log2_nonneg v).
  assert (Z.log2 v < 64) by (apply Z.log2_lt_pow2; lia).
  destruct (Z.eqb_spec (popcount 64 v) 1) as [E|E]; simpl.
  - apply Hp in E as (k & Hk & ->). rewrite Z.log2_up_pow2, Z.log2_pow2, u8_small by (try rewrite Z.log2_pow2 in *; lia). lia.
  - rewrite u8_small by lia. pose proof (Z.le_log2_up_succ_log2 v). pose proof (Z.le_log2_log2_up v).
    destruct (Z.eq_dec (Z.log2_up v) (Z.log2 v)) as [Eq|]; [|lia]. exfalso. apply E, Hp.
    exists (Z.log2 v). split; [done|].
    pose proof (Z.log2_spec v ltac:(lia)). pose proof (Z.log2_log2_up_spec v ltac:(lia)). rewrite Eq in *. lia.
Qed.

(** ** Finding and freeing a block *)

Lemma find_block_spec levels ba page_id lvl o t ctx :
  focus ba lvl o t ctx -> in_block M lvl o page_id -> Z.of_nat levels = M - lvl + 1 ->
  match pages M lvl o t page_id with
  | PAlloc first n => exists lvl' o' ctx',
      find_block levels ba page_id (idx lvl o) lvl = Some (inr (idx lvl' o')) /\
      focus ba lvl' o' Alloc ctx' /\ plug ctx' Alloc = plug ctx t /\
      in_block M lvl' o' page_id /\ first = o' * 2 ^ (M - lvl') /\ n = 2 ^ (M - lvl')
  | _ => find_block levels ba page_id (idx lvl o) lvl = Some (inl BUDDY_STATUS_NO_SUCH_ALLOCATION)
  end.
Proof.
  revert lvl o t ctx. induction levels as [|levels IH]; intros lvl o t ctx Hfo Hp Hlv;
    pose proof Hfo as (E & Ha & Hr & Hco & Hc & Hf); pose proof Ha as [Hl Ho]; [lia|].
  cbn [find_block]. rewrite (load_rep _ _ _ _ Hr). cbn [mbind option_bind].
  destruct t as [| | |l r]; cbn [pages value].
  - unfold BUDDY_LEVEL_ALLOCATED. destruct (Z.eqb_spec lvl 254); [lia|]. by rewrite Z.eqb_refl.
  - rewrite Z.eqb_refl. exists lvl, o, ctx. done.
  - unfold BUDDY_LEVEL_UNUSABLE, BUDDY_LEVEL_ALLOCATED. simpl. case_match; done.
  - pose proof Hr as (_ & Hlt & Hrl & Hrr).
    destruct (value_split_gt lvl l r ltac:(lia)) as [Hgt Hbig]. cbn [value] in Hgt, Hbig.
    set (v := if M <? _ then _ else _) in *. unfold BUDDY_LEVEL_ALLOCATED, BUDDY_LEVEL_UNUSABLE.
    destruct (Z.eqb_spec v 254); [lia|]. destruct (Z.eqb_spec v lvl); [lia|].
    destruct (Z.eqb_spec v 253); [lia|]. assert (Ha62 : at_level 62 lvl o) by (unfold at_level; lia).
    rewrite heap_left_idx, heap_right_idx, u8_small by (done || lia).
    rewrite first_page_idx by (done || apply at_level_child; done || lia).
    destruct (pages_split lvl o l r page_id) as (b & Hb & Hin & Hout & _); [lia|done|].
    unfold in_block in Hin, Hout. pose proof (pow2_pos (M - (lvl + 1)) ltac:(lia)) as Hs.
    set (s := 2 ^ (M - (lvl + 1))) in *.
    destruct (Z.leb_spec ((2 * o + 1) * s) page_id), (Z.ltb_spec page_id ((2 * o + 1) * s)); try lia.
    + apply (IH (lvl + 1) (2 * o + 1) r ((true, l) :: ctx));
        [by apply (focus_child ba lvl o l r ctx true)| |lia].
      assert (b = 1) as -> by nia. done.
    + apply (IH (lvl + 1) (2 * o) l ((false, r) :: ctx)); [|assert (b = 0) as -> by nia; by rewrite Z.add_0_r in Hin|lia].
      rewrite <-(Z.add_0_r (2 * o)). by apply (focus_child ba lvl o l r ctx false).
Qed.

Lemma coalesce_loop_spec fuel ba lvl o ctx :
  focus ba lvl o Free ctx -> lvl < Z.of_nat fuel ->
  exists ba' lvl' o' ctx', coalesce_loop fuel ba (idx lvl o) = Some (ba', idx lvl' o') /\
    ba' = set_heap ba (ba_heap ba') /\ focus ba' lvl' o' Free ctx' /\ coalesced (plug ctx' Free) /\
    (forall p, in_block M 0 0 p -> pages M 0 0 (plug ctx' Free) p = pages M 0 0 (plug ctx Free) p).
Proof.
  revert ba lvl o ctx. induction fuel as [|fuel IH]; intros ba lvl o ctx Hfo Hfuel;
    pose proof Hfo as (E & Ha & Hr & Hco & Hc & Hf); pose proof Ha as [Hl Ho]; [lia|].
  cbn [coalesce_loop]. pose proof (at_level_63 _ _ Ha) as Ha63.
  destruct (Z.eqb_spec (idx lvl o) 0) as [Hz|Hz].
  { apply idx_zero in Hz as ->; [|done]. destruct ctx as [|[side s] ctx]; [|simpl in Hc; lia].
    exists ba, 0, o, []. split_and!; [done|by destruct ba|done..]. }
  destruct ctx as [|[side s] ctx]; [by destruct Hc as [-> ->]|].
  destruct Hc as (Hlp & Hm & Hs & Hc). apply Forall_cons in Hf as [Hcs Hf]. simpl in Hcs.
  rewrite heap_sibling_idx, (load_rep _ _ _ _ Hs), heap_level_idx by done. cbn [mbind option_bind].
  pose proof (at_level_parent _ _ Ha Hlp) as Hpa.
  destruct (Z.eqb_spec (value M lvl s) lvl) as [Ev|Ev].
  - assert (s = Free) as ->.
    { destruct s as [| | |l r]; [done|simpl in Ev..]; try (unfold BUDDY_LEVEL_ALLOCATED, BUDDY_LEVEL_UNUSABLE in Ev; lia).
      destruct Hs as (_ & Hlt & _). destruct (value_split_gt lvl l r ltac:(lia)). simpl in *. lia. }
    rewrite heap_parent_idx, heap_level_idx by (done || by apply at_level_63).
    rewrite store_ok by (done || lia). cbn [mbind option_bind].
    destruct (IH (set_heap ba (<[idx (lvl - 1) (o / 2):=lvl - 1]> (ba_heap ba))) (lvl - 1) (o / 2) ctx)
      as (ba' & lvl' & o' & ctx' & Hq & Eb & Hfo' & Hcp & Hpg); [|lia|].
    + unfold focus. simpl. split_and!; try done; [by rewrite lookup_insert_eq|by apply rep_ctx_write; auto using inside_refl].
    + exists ba', lvl', o', ctx'. split_and!; [done|by rewrite Eb; destruct ba|done|done|].
      intros p Hp0. rewrite Hpg by done. symmetry.
      assert (in_block M (lvl - 1) (o / 2) p \/ ~ in_block M (lvl - 1) (o / 2) p) as [Hi|Hn] by (unfold in_block; lia);
        destruct side; simpl.
      1,2: rewrite !(pages_plug_in _ _ _ _ _ _ Hpa Hc Hi); simpl; by case_match.
      1,2: by apply (pages_plug_out _ _ _ _ _ _ _ Hpa Hc).
  - exists ba, lvl, o, ((side, s) :: ctx). split_and!; [done|by destruct ba|done| |done].
    apply coalesced_plug; [by constructor|done|right; by intros ->].
Qed.

(** ** A level fits exactly when an aligned run of free pages exists *)

Lemma coalesced_free lvl o t : at_level M lvl o -> coalesced t -> bounded M lvl t ->
  (forall p, in_block M lvl o p -> pages M lvl o t p = PFree) -> t = Free.
Proof.
  revert lvl o. induction t as [| | |l IHl r IHr]; intros lvl o Ha Hco Hb Hp; [done|..].
  1,2: pose proof (pow2_pos (M - lvl) ltac:(destruct Ha; lia));
       specialize (Hp (o * 2 ^ (M - lvl))); discriminate Hp; unfold in_block; lia.
  exfalso. cbn [coalesced bounded] in *. destruct Hco as (Hn & Hcl & Hcr). destruct Hb as (Hlt & Hbl & Hbr).
  pose proof Ha as [Hl Ho].
  assert (Hs : forall b p, 0 <= b <= 1 -> in_block M (lvl + 1) (2 * o + b) p -> in_block M lvl o p).
  { intros b p Hb Hi. apply in_block_parent in Hi; [|lia]. rewrite (proj2 (child_parity o b Hb)) in Hi.
    by replace (lvl + 1 - 1) with lvl in Hi by lia. }
  assert (Hsame : forall b p, 0 <= b <= 1 -> in_block M (lvl + 1) (2 * o + b) p ->
    pages M (lvl + 1) (2 * o + b) (if b =? 0 then l else r) p = PFree).
  { intros b p Hb Hi. pose proof (Hs b p Hb Hi) as Hi'. specialize (Hp p Hi').
    destruct (pages_split lvl o l r p) as (b' & Hb' & Hin & Hout & E); [lia|done|].
    rewrite E in Hp. destruct (Z.eq_dec b b') as [->|]; [done|]. exfalso. apply Hout.
    by replace (1 - b') with b by lia. }
  apply Hn. split.
  - apply (IHl (lvl + 1) (2 * o + 0)); [apply at_level_child; done || lia|done|done|].
    intros p Hi. by apply (Hsame 0).
  - apply (IHr (lvl + 1) (2 * o + 1)); [by apply at_level_child|done|done|].
    intros p Hi. by apply (Hsame 1).
Qed.

Lemma rep_bounded h lvl o t : rep M h lvl o t -> bounded M lvl t.
Proof.
  revert lvl o. induction t as [| | |l IHl r IHr]; intros lvl o Hr; try done.
  destruct Hr as (_ & Hlt & Hl & Hr). simpl. eauto.
Qed.

Lemma value_le_run lvl o t A o' : at_level M lvl o -> coalesced t -> bounded M lvl t ->
  lvl <= A <= M -> (forall p, in_block M A o' p -> in_block M lvl o p) ->
  (forall p, in_block M A o' p -> pages M lvl o t p = PFree) -> value M lvl t <= A.
Proof.
  revert lvl o. induction t as [| | |l IHl r IHr]; intros lvl o Ha Hco Hb HA Hsub Hfree;
    pose proof (pow2_pos (M - A) ltac:(lia)) as Hpos;
    assert (Hx : in_block M A o' (o' * 2 ^ (M - A))) by (unfold in_block; lia).
  { simpl. lia. }
  1,2: by specialize (Hfree _ Hx).
  pose proof Ha as [Hl Ho]. destruct (Z.eq_dec lvl A) as [->|Hne].
  { assert (o' = o) as -> by (pose proof (Hsub _ Hx) as Hy; unfold in_block in Hx, Hy; nia).
    by apply (coalesced_free A o (Split l r)) in Hfree. }
  cbn [coalesced bounded] in *. destruct Hco as (Hn & Hcl & Hcr). destruct Hb as (Hlt & Hbl & Hbr).
  destruct (pages_split lvl o l r (o' * 2 ^ (M - A))) as (b & Hb & Hin & Hout & _); [lia|by apply Hsub|].
  assert (Hsub' : forall p, in_block M A o' p -> in_block M (lvl + 1) (2 * o + b) p).
  { intros p Hp. unfold in_block in *. replace (M - (lvl + 1)) with (M - A + (A - (lvl + 1))) in * by lia.
    rewrite Z.pow_add_r in * by lia. pose proof (pow2_pos (A - (lvl + 1)) ltac:(lia)).
    set (s := 2 ^ (M - A)) in *. set (q := 2 ^ (A - (lvl + 1))) in *. set (c := 2 * o + b) in *.
    assert (c * q <= o' < (c + 1) * q) by nia. nia. }
  assert (Hval : value M (lvl + 1) (if b =? 0 then l else r) <= A).
  { assert (Hf' : forall p, in_block M A o' p -> pages M (lvl + 1) (2 * o + b) (if b =? 0 then l else r) p = PFree).
    { intros p Hp. rewrite <-(Hfree p Hp). destruct (pages_split lvl o l r p) as (b' & Hb' & Hin' & Hout' & ->); [lia|by apply Hsub|].
      destruct (Z.eq_dec b b') as [->|]; [done|]. exfalso. apply Hout'.
      replace (1 - b') with b by lia. by apply Hsub'. }
    destruct (Z.eqb_spec b 0); [apply (IHl _ (2 * o + b))|apply (IHr _ (2 * o + b))]; try done; try lia; by apply at_level_child. }
  simpl. unfold uint8_min, BUDDY_LEVEL_FILLED. destruct (b =? 0); repeat case_match; lia.
Qed.

Lemma in_block_block lvl o p : at_level M lvl o -> in_block M lvl o p -> in_block M 0 0 p.
Proof.
  intros Ha Hp. unfold in_block in *. destruct Ha as [Hl Ho].
  assert (2 ^ lvl * 2 ^ (M - lvl) = 2 ^ (M - 0)) by (rewrite <-Z.pow_add_r by lia; f_equal; lia).
  pose proof (pow2_pos (M - lvl) ltac:(lia)). nia.
Qed.

(** ** The operations *)

Lemma holds_focus ba t : ba_max_level ba = M -> holds ba t -> focus ba 0 0 t [].
Proof.
  intros E [_ Hr Hc]. rewrite E in Hr. unfold focus, at_level. simpl. split_and!; try done; lia.
Qed.

(** Writing a block at the focus and propagating gives a ready allocator. *)
Lemma focus_finish ba lvl o t t' ctx : focus ba lvl o t ctx ->
  (forall h, h !! idx lvl o = Some (value M lvl t') -> rep M h lvl o t') ->
  coalesced (plug ctx t') ->
  exists ba1 ba', store ba (idx lvl o) (value M lvl t') = Some ba1 /\ propagate 64 ba1 (idx lvl o) = Some ba' /\
    ba' = set_heap ba (ba_heap ba') /\ holds ba' (plug ctx t').
Proof.
  intros (E & Ha & Hr & Hco & Hc & Hf) Ht Hcp. pose proof Ha as [Hl Ho].
  eexists _. rewrite store_ok; [|done..|apply value_range; lia].
  destruct (propagate_spec 64 (set_heap ba (<[idx lvl o:=value M lvl t']> (ba_heap ba))) lvl o t' ctx)
    as (h' & Hp & Hrep); [done|done|lia|apply Ht, lookup_insert_eq|by apply rep_ctx_write; auto using inside_refl|].
  eexists. split_and!; [done|exact Hp|by destruct ba|]. split; simpl; [lia|by rewrite E|done].
Qed.

Lemma same_pool_trans a b c : same_pool a b -> same_pool b c -> same_pool a c.
Proof. unfold same_pool. intros E1 E2. rewrite E2, E1. by destruct a. Qed.

Lemma page_alloc_success ba t k : ba_max_level ba = M -> holds ba t -> 0 <= k <= M ->
  value M 0 t <= M - k ->
  exists ba1 ba2 ba' bi t' o,
    acquire_empty_slot ba (M - k) = Some (ba1, bi) /\ store ba1 bi BUDDY_LEVEL_ALLOCATED = Some ba2 /\
    propagate 64 ba2 bi = Some ba' /\ same_pool ba ba' /\ holds ba' t' /\
    get_first_page_index_from_block_index ba' bi = o * 2 ^ k /\ 0 <= o < 2 ^ (M - k) /\
    forall p, 0 <= p < 2 ^ M ->
      if decide (o * 2 ^ k <= p < o * 2 ^ k + 2 ^ k)
      then page ba t p = PFree /\ page ba' t' p = PAlloc (o * 2 ^ k) (2 ^ k)
      else page ba' t' p = page ba t p.
Proof.
  intros E Hh Hk Hv. destruct (acquire_spec 64 ba (M - k) 0 0 t []) as (ba1 & o & ctx & Hq & Eb & Hfo & Hpg);
    [by apply holds_focus|lia|lia|].
  destruct (focus_finish ba1 (M - k) o Free Alloc ctx Hfo) as (ba2 & ba' & Hs & Hp & Eb' & Hh').
  { intros h Hx. by split. }
  { destruct Hfo as (_ & _ & _ & _ & _ & Hf). apply coalesced_plug; [done|done|by left]. }
  pose proof Hfo as (E1 & Ha & _ & _ & Hc & _).
  assert (E' : ba_max_level ba' = M) by by rewrite Eb'.
  exists ba1, ba2, ba', (idx (M - k) o), (plug ctx Alloc), o.
  split_and!; try done; [by eapply same_pool_trans| |apply Ha|apply Ha|].
  - rewrite first_page_idx by done. by replace (M - (M - k)) with k by lia.
  - intros p Hp0. unfold page. rewrite E, E'.
    assert (Hb0 : in_block M 0 0 p) by (unfold in_block; rewrite Z.sub_0_r; lia).
    case_decide as Hd.
    + assert (Hi : in_block M (M - k) o p) by (unfold in_block; replace (M - (M - k)) with k by lia; lia).
      specialize (Hpg p Hb0). cbn [plug] in Hpg. rewrite <-Hpg, !(pages_plug_in _ _ _ _ _ _ Ha Hc Hi). simpl.
      by replace (M - (M - k)) with k by lia.
    + assert (Hi : ~ in_block M (M - k) o p) by (unfold in_block; replace (M - (M - k)) with k by lia; lia).
      rewrite (pages_plug_out _ _ _ _ _ Free _ Ha Hc Hi Hb0). by apply Hpg.
Qed.

Lemma page_free_success ba t page_id first n : ba_max_level ba = M -> holds ba t ->
  0 <= page_id < 2 ^ M -> page ba t page_id = PAlloc first n ->
  exists ba' t', buddy_page_free ba page_id = Some (ba', BUDDY_STATUS_SUCCESS) /\
    same_pool ba ba' /\ holds ba' t' /\ first <= page_id < first + n /\
    forall p, 0 <= p < 2 ^ M ->
      if decide (first <= p < first + n)
      then page ba t p = PAlloc first n /\ page ba' t' p = PFree
      else page ba' t' p = page ba t p.
Proof.
  intros E Hh Hid Hpage. unfold page in Hpage. rewrite E in Hpage.
  pose proof (find_block_spec (S (Z.to_nat M)) ba page_id 0 0 t [] (holds_focus _ _ E Hh)) as Hfind.
  rewrite Hpage in Hfind. destruct Hfind as (lvl & o & ctx & Hf & Hfo & Hpl & Hin & -> & ->);
    [unfold in_block; rewrite Z.sub_0_r; lia|lia|]. cbn [plug] in Hpl.
  pose proof Hfo as (_ & Ha & Hr & _ & Hc & Hfc). pose proof Ha as [Hl Ho].
  unfold buddy_page_free, get_block_index_from_page_index. rewrite E. change (idx 0 0) with 0 in Hf. rewrite Hf.
  cbn [mbind option_bind]. rewrite heap_level_idx by by apply at_level_63.
  rewrite store_ok by (done || lia). cbn [mbind option_bind].
  set (ba1 := set_heap ba (<[idx lvl o:=lvl]> (ba_heap ba))).
  assert (Hfo1 : focus ba1 lvl o Free ctx).
  { unfold focus, ba1. simpl. split_and!; try done; [by rewrite lookup_insert_eq|].
    by apply rep_ctx_write; auto using inside_refl. }
  assert (Hl1 : load ba1 (idx lvl o) = Some lvl) by (apply lookup_insert_eq).
  unfold coalesce. rewrite Hl1. cbn [mbind option_bind].
  rewrite heap_level_idx, Z.eqb_refl by by apply at_level_63. cbn [negb].
  destruct (coalesce_loop_spec 64 ba1 lvl o ctx Hfo1 ltac:(lia))
    as (ba2 & lvl2 & o2 & ctx2 & Hq & Eb & Hfo2 & Hcp & Hpg). rewrite Hq. cbn [mbind option_bind].
  pose proof Hfo2 as (E2 & Ha2 & Hr2 & _ & Hc2 & _).
  destruct (propagate_spec 64 ba2 lvl2 o2 Free ctx2 E2 Ha2 ltac:(destruct Ha2; lia) Hr2 Hc2) as (h' & Hp & Hrep).
  rewrite Hp. cbn [mbind option_bind]. exists (set_heap ba2 h'), (plug ctx2 Free).
  assert (Hsz : in_block M lvl o page_id <-> o * 2 ^ (M - lvl) <= page_id < o * 2 ^ (M - lvl) + 2 ^ (M - lvl))
    by (unfold in_block; lia).
  split_and!; [done|unfold same_pool; rewrite Eb; by destruct ba|split; simpl; [lia|by rewrite E2|done]|apply Hsz in Hin; lia..|].
  intros p Hp0. unfold page. simpl. rewrite E, E2.
  assert (Hb0 : in_block M 0 0 p) by (unfold in_block; rewrite Z.sub_0_r; lia).
  rewrite (Hpg p Hb0), <-Hpl. destruct Hfo1 as (_ & _ & _ & _ & Hc1 & _). case_decide as Hd.
  - assert (Hi : in_block M lvl o p) by (unfold in_block; lia).
    by rewrite !(pages_plug_in _ _ _ _ _ _ Ha Hc Hi).
  - apply (pages_plug_out _ _ _ _ _ _ _ Ha Hc); [unfold in_block; lia|done].
Qed.

Lemma page_free_failure ba t page_id : ba_max_level ba = M -> holds ba t -> 0 <= page_id < 2 ^ M ->
  (forall first n, page ba t page_id <> PAlloc first n) ->
  buddy_page_free ba page_id = Some (ba, BUDDY_STATUS_NO_SUCH_ALLOCATION).
Proof.
  intros E Hh Hid Hpage. unfold page in Hpage. rewrite E in Hpage.
  pose proof (find_block_spec (S (Z.to_nat M)) ba page_id 0 0 t [] (holds_focus _ _ E Hh)) as Hfind.
  unfold buddy_page_free, get_block_index_from_page_index. rewrite E. change (idx 0 0) with 0 in Hfind.
  destruct (pages M 0 0 t page_id) as [|first n|]; [|by specialize (Hpage first n)|];
    rewrite Hfind; try done; unfold in_block; rewrite ?Z.sub_0_r; lia.
Qed.

(** ** Set-up *)

Lemma fill_spec count ba from v :
  ba_max_level ba = M -> 0 <= from -> from + Z.of_nat count <= heap_size M -> 0 <= v < 256 ->
  exists h', fill count ba from v = Some (set_heap ba h') /\
    forall i, h' !! i = if decide (from <= i < from + Z.of_nat count) then Some v else ba_heap ba !! i.
Proof.
  assert (Hs : heap_size M < 2 ^ 63) by (apply (idx_bounds 0 0); unfold at_level; lia).
  revert ba from. induction count as [|count IH]; intros ba from E Hf Hc Hv.
  { exists (ba_heap ba). split; [by destruct ba|]. intros i. case_decide; [lia|done]. }
  cbn [fill]. unfold store. rewrite E, (u8_small v) by done.
  destruct (Z.leb_spec 0 from), (Z.ltb_spec from (heap_size M)); try lia. cbn [andb mbind option_bind].
  rewrite u64_small by lia.
  destruct (IH (set_heap ba (<[from:=v]> (ba_heap ba))) (from + 1)) as (h' & Hq & Hh); [done|lia..|].
  exists h'. rewrite Hq. split; [by destruct ba|]. intros i. rewrite Hh. simpl.
  destruct (Z.eq_dec i from) as [->|].
  - rewrite lookup_insert_eq. repeat case_decide; lia || done.
  - rewrite lookup_insert_ne by done. repeat case_decide; lia || done.
Qed.

Lemma fresh_shape bad d o lvl : lvl + Z.of_nat d = M -> 0 <= lvl ->
  fresh bad d o = Bad \/ value M lvl (fresh bad d o) <= M.
Proof.
  revert o lvl. induction d as [|d IH]; intros o lvl Hd Hl; simpl.
  { destruct (bad o); [by left|right; simpl; lia]. }
  pose proof (IH (2 * o) (lvl + 1) ltac:(lia) ltac:(lia)) as H1.
  pose proof (IH (2 * o + 1) (lvl + 1) ltac:(lia) ltac:(lia)) as H2.
  assert (Hs : forall l r, l = fresh bad d (2 * o) -> r = fresh bad d (2 * o + 1) ->
    l <> Bad \/ r <> Bad -> value M lvl (Split l r) <= M).
  { intros l r -> -> Hn. simpl. unfold uint8_min, BUDDY_LEVEL_FILLED.
    destruct H1 as [E1|], H2 as [E2|]; try (by destruct Hn);
      rewrite ?E1, ?E2 in *; simpl in *; unfold BUDDY_LEVEL_UNUSABLE; repeat case_match; lia. }
  destruct (fresh bad d (2 * o)) as [| | |] eqn:El, (fresh bad d (2 * o + 1)) as [| | |] eqn:Er;
    simpl combine; try (by left); right; try (apply Hs; naive_solver); simpl; lia.
Qed.

Lemma fresh_coalesced bad d o : coalesced (fresh bad d o).
Proof.
  revert o. induction d as [|d IH]; intros o; simpl; [by destruct (bad o)|].
  pose proof (IH (2 * o)). pose proof (IH (2 * o + 1)).
  destruct (fresh bad d (2 * o)), (fresh bad d (2 * o + 1)); simpl in *; naive_solver.
Qed.

Lemma pages_combine lvl o l r p : pages M lvl o (combine l r) p = pages M lvl o (Split l r) p.
Proof. destruct l, r; try done; simpl; by case_match. Qed.

Lemma fresh_pages bad d lvl o p : lvl + Z.of_nat d = M -> 0 <= lvl -> in_block M lvl o p ->
  pages M lvl o (fresh bad d o) p = if bad p then PBad else PFree.
Proof.
  revert lvl o. induction d as [|d IH]; intros lvl o Hd Hl Hp.
  { unfold in_block in Hp. replace (M - lvl) with 0 in Hp by lia. simpl in *.
    assert (p = o) as -> by lia. by destruct (bad o). }
  cbn [fresh]. rewrite pages_combine.
  destruct (pages_split lvl o (fresh bad d (2 * o)) (fresh bad d (2 * o + 1)) p) as (b & Hb & Hin & _ & ->); [lia|done|].
  rewrite <-(IH (lvl + 1) (2 * o + b)) by (done || lia). f_equal.
  destruct (Z.eqb_spec b 0) as [->|]; [by rewrite Z.add_0_r|]. by replace b with 1 by lia.
Qed.

(** The value [buddy_ready] computes for a block from its children's. *)
Lemma ready_value bad d lvl o : lvl + Z.of_nat (S d) = M -> 0 <= lvl ->
  let l := fresh bad d (2 * o) in let r := fresh bad d (2 * o + 1) in
  let lv := value M (lvl + 1) l in let rv := value M (lvl + 1) r in
  (if (lv =? BUDDY_LEVEL_UNUSABLE) && (rv =? BUDDY_LEVEL_UNUSABLE) then BUDDY_LEVEL_UNUSABLE
   else if (lv =? lvl + 1) && (rv =? lvl + 1) then lvl
   else uint8_min lv rv) = value M lvl (combine l r).
Proof.
  intros Hd Hl l r lv rv.
  pose proof (fresh_shape bad d (2 * o) (lvl + 1) ltac:(lia) ltac:(lia)) as H1.
  pose proof (fresh_shape bad d (2 * o + 1) (lvl + 1) ltac:(lia) ltac:(lia)) as H2.
  assert (Hsp : forall d o, lvl + 1 + Z.of_nat d = M -> match fresh bad d o with
    | Free => True | Alloc => False | Bad => True | Split a b => lvl + 1 < value M (lvl + 1) (Split a b) end).
  { intros d' o' Hd'. destruct d' as [|d']; simpl; [by destruct (bad o')|].
    destruct (fresh bad d' (2 * o')) eqn:E1, (fresh bad d' (2 * o' + 1)) eqn:E2; cbn [combine]; try done;
      apply value_split_gt; lia. }
  pose proof (Hsp d (2 * o) ltac:(lia)) as S1. pose proof (Hsp d (2 * o + 1) ltac:(lia)) as S2.
  fold l in H1, S1. fold r in H2, S2. unfold lv, rv. clear Hsp.
  unfold BUDDY_LEVEL_UNUSABLE in *.
  assert (Hu : forall t, t = Bad \/ value M (lvl + 1) t <= M -> (value M (lvl + 1) t =? 253) = true -> t = Bad).
  { intros t [->|Ht] Hz; [done|]. lia. }
  assert (Hfr : forall t, match t with Free => True | Alloc => False | Bad => True
    | Split a b => lvl + 1 < value M (lvl + 1) (Split a b) end -> (value M (lvl + 1) t =? lvl + 1) = true -> t = Free).
  { intros t Ht Hz%Z.eqb_eq. destruct t; [done|done|cbn [value] in Hz; unfold BUDDY_LEVEL_UNUSABLE in Hz; lia|lia]. }
  destruct (andb (value M (lvl + 1) l =? 253) (value M (lvl + 1) r =? 253)) eqn:Eu.
  { apply andb_prop in Eu as [E1%Hu E2%Hu]; [|done..]. by rewrite E1, E2. }
  destruct (andb (value M (lvl + 1) l =? lvl + 1) (value M (lvl + 1) r =? lvl + 1)) eqn:Ef.
  { apply andb_prop in Ef as [E1%Hfr E2%Hfr]; [|done..]. by rewrite E1, E2. }
  assert (Hcomb : combine l r = Split l r).
  { destruct l, r; try done; simpl in Eu, Ef; unfold BUDDY_LEVEL_UNUSABLE in *; rewrite ?Z.eqb_refl in *; done. }
  rewrite Hcomb. simpl. unfold uint8_min, BUDDY_LEVEL_FILLED.
  destruct H1 as [->|H1]; destruct H2 as [->|H2]; simpl in *; unfold BUDDY_LEVEL_UNUSABLE in *;
    try done; repeat case_match; lia.
Qed.

Lemma idx_surj i : 0 <= i < 2 ^ M - 1 -> exists lvl o, at_level M lvl o /\ lvl < M /\ idx lvl o = i.
Proof.
  intros Hi. exists (Z.log2 (i + 1)), (i + 1 - 2 ^ Z.log2 (i + 1)).
  pose proof (Z.log2_spec (i + 1) ltac:(lia)) as [H1 H2]. rewrite Z.pow_succ_r in H2 by apply Z.log2_nonneg.
  pose proof (Z.log2_nonneg (i + 1)). assert (Z.log2 (i + 1) < M) by (apply Z.log2_lt_pow2; lia).
  unfold at_level, idx. lia.
Qed.

Lemma inside_idx lvl o lu ou : at_level M lvl o -> at_level M lu ou -> inside lvl o lu ou -> idx lvl o <= idx lu ou.
Proof.
  intros [Hl Ho] [Hlu Hou] [Hle E]. unfold idx. pose proof (pow2_le lvl lu ltac:(lia)).
  assert (ou / 2 ^ (lu - lvl) <= ou); [|lia].
  apply Z.div_le_upper_bound; [apply pow2_pos; lia|]. pose proof (pow2_pos (lu - lvl) ltac:(lia)). nia.
Qed.

(** The blocks from index [n] on are built. *)
Definition built (bad : Z -> bool) (h : gmap Z Z) (n : Z) : Prop :=
  forall lvl o, at_level M lvl o -> n <= idx lvl o -> rep M h lvl o (fresh bad (Z.to_nat (M - lvl)) o).

Lemma rep_combine h lvl o l r : h !! idx lvl o = Some (value M lvl (combine l r)) -> lvl < M ->
  rep M h (lvl + 1) (2 * o) l -> rep M h (lvl + 1) (2 * o + 1) r -> rep M h lvl o (combine l r).
Proof. intros Hv Hl Hrl Hrr. destruct l, r; simpl in *; split_and!; try done; naive_solver. Qed.

Lemma ready_loop_spec bad n ba : ba_max_level ba = M -> Z.of_nat n <= 2 ^ M - 1 ->
  built bad (ba_heap ba) (Z.of_nat n) ->
  exists h', ready_loop n ba = Some (set_heap ba h') /\ built bad h' 0.
Proof.
  revert ba. induction n as [|n IH]; intros ba E Hn Hb; [exists (ba_heap ba); by destruct ba|].
  destruct (idx_surj (Z.of_nat n)) as (lvl & o & Ha & Hlt & Ei); [lia|].
  cbn [ready_loop]. rewrite <-Ei, heap_level_idx by by apply at_level_63.
  pose proof Ha as [Hl Ho]. assert (Ha62 : at_level 62 lvl o) by (unfold at_level; lia).
  rewrite heap_left_idx, heap_right_idx by done.
  assert (Ha0 : at_level M (lvl + 1) (2 * o)) by (rewrite <-(Z.add_0_r (2 * o)); by apply at_level_child).
  assert (Ha1 : at_level M (lvl + 1) (2 * o + 1)) by by apply at_level_child.
  pose proof (pow2_S lvl ltac:(lia)) as Hpow. pose proof (pow2_pos lvl ltac:(lia)).
  pose proof (Hb (lvl + 1) (2 * o) Ha0 ltac:(unfold idx in Ei |- *; lia)) as Hr0.
  pose proof (Hb (lvl + 1) (2 * o + 1) Ha1 ltac:(unfold idx in Ei |- *; lia)) as Hr1.
  rewrite (load_rep _ _ _ _ Hr0), (load_rep _ _ _ _ Hr1). cbn [mbind option_bind].
  set (d := Z.to_nat (M - (lvl + 1))) in *.
  assert (Hd : Z.to_nat (M - lvl) = S d) by (unfold d; lia).
  rewrite (ready_value bad d lvl o) by lia.
  rewrite store_ok; [|done..|apply value_range; lia]. cbn [mbind option_bind].
  destruct (IH (set_heap ba (<[idx lvl o:=value M lvl (combine (fresh bad d (2 * o)) (fresh bad d (2 * o + 1)))]> (ba_heap ba))))
    as (h' & Hq & Hb'); [done|lia| |exists h'; rewrite Hq; split; [by destruct ba|done]].
  intros lv o' Ha' Hge. simpl. destruct (Z.eq_dec (idx lv o') (idx lvl o)) as [Eq|Hne].
  - destruct (idx_inj lv o' lvl o) as [-> ->]; [by apply at_level_63..|done|]. rewrite Hd. cbn [fresh].
    apply rep_combine; [apply lookup_insert_eq|done|apply rep_write_above; done || lia..].
  - apply rep_write; [done..| |apply Hb; [done|lia]]. intros Hi.
    pose proof (inside_idx _ _ _ _ Ha' Ha Hi). lia.
Qed.

Lemma buddy_ready_spec (bad : Z -> bool) ba : ba_max_level ba = M ->
  (forall o, 0 <= o < 2 ^ M -> ba_heap ba !! idx M o = Some (if bad o then BUDDY_LEVEL_UNUSABLE else M)) ->
  exists ba', buddy_ready ba = Some ba' /\ ba_max_level ba' = M /\ ba_offset ba' = ba_offset ba /\
    ba_page_size_log2 ba' = ba_page_size_log2 ba /\ ba_state ba' = BUDDY_STATE_READY /\
    holds ba' (fresh bad (Z.to_nat M) 0).
Proof.
  intros E Hbot.
  assert (Hb : built bad (ba_heap ba) (2 ^ M - 1)).
  { intros lvl o [Hl Ho] Hge. assert (lvl = M) as ->.
    { destruct (Z.eq_dec lvl M); [done|]. exfalso. pose proof (pow2_le (lvl + 1) M ltac:(lia)).
      rewrite pow2_S in * by lia. unfold idx in Hge. lia. }
    rewrite Z.sub_diag. simpl. specialize (Hbot o Ho). by destruct (bad o). }
  unfold buddy_ready. rewrite E.
  assert (Hloop : exists h', (if 0 <? M then ready_loop (Z.to_nat (heap_size (M - 1))) ba else Some ba)
    = Some (set_heap ba h') /\ built bad h' 0).
  { destruct (Z.ltb_spec 0 M).
    - rewrite heap_size_pred by lia. pose proof (pow2_pos M ltac:(lia)).
      apply ready_loop_spec; [done|lia|]. rewrite Z2Nat.id by lia. done.
    - exists (ba_heap ba). split; [by destruct ba|]. intros lvl o Ha Hi. apply Hb; [done|].
      replace M with 0 by lia. simpl. lia. }
  destruct Hloop as (h' & -> & Hb'). cbn [mbind option_bind]. eexists. split; [done|]. simpl.
  split_and!; [done..|]. split; simpl; rewrite ?E; [lia| |apply fresh_coalesced].
  replace (Z.to_nat M) with (Z.to_nat (M - 0)) by lia. apply Hb'; [unfold at_level; simpl; lia|unfold idx; simpl; lia].
Qed.

End Facts.

(** ** Pool operations, in terms of page states *)

Lemma log2_up_fits n M : 0 <= M -> 1 <= n <= 2 ^ M -> 0 <= Z.log2_up n <= M.
Proof.
  intros HM Hn. split; [apply Z.log2_up_nonneg|]. apply Z.log2_up_le_pow2; lia.
Qed.

Lemma free_run_value ba t k : holds ba t -> 0 <= k <= ba_max_level ba ->
  free_run ba t k <-> value (ba_max_level ba) 0 t <= ba_max_level ba - k.
Proof.
  intros Hh Hk. pose proof Hh as [HM Hr Hc]. set (M := ba_max_level ba) in *.
  assert (Hat0 : at_level M 0 0) by (unfold at_level; simpl; lia). split.
  - intros (o & Ho & Hfree). fold M in Ho.
    assert (Hat : at_level M (M - k) o) by (unfold at_level; lia).
    apply (value_le_run M HM 0 0 t (M - k) o); [done|done|by eapply rep_bounded|lia|..].
    + intros p Hp. by eapply in_block_block.
    + intros p Hp. apply Hfree. unfold in_block in Hp. replace (M - (M - k)) with k in Hp by lia. lia.
  - intros Hv. destruct (page_alloc_success M HM ba t k eq_refl Hh Hk Hv)
      as (ba1 & ba2 & ba' & bi & t' & o & _ & _ & _ & _ & _ & _ & Ho & Hp).
    exists o. split; [done|]. intros p Hi. fold M in Ho.
    assert (0 <= p < 2 ^ M).
    { assert (2 ^ (M - k) * 2 ^ k = 2 ^ M) by (rewrite <-Z.pow_add_r by lia; f_equal; lia).
      pose proof (pow2_pos k ltac:(lia)). nia. }
    specialize (Hp p H). rewrite decide_True in Hp by lia. apply Hp.
Qed.

Lemma page_alloc_cases ba t n : holds ba t -> 0 <= n < 2 ^ 64 ->
  let M := ba_max_level ba in let k := Z.log2_up (Z.max n 1) in
  (2 ^ M < Z.max n 1 -> buddy_page_alloc ba n = Some (ba, inl BUDDY_STATUS_INVAL)) /\
  (Z.max n 1 <= 2 ^ M -> ~ free_run ba t k -> buddy_page_alloc ba n = Some (ba, inl BUDDY_STATUS_NOMEM)) /\
  (Z.max n 1 <= 2 ^ M -> free_run ba t k -> exists ba' t' first,
     buddy_page_alloc ba n = Some (ba', inr first) /\ allocated ba t ba' t' first (2 ^ k)).
Proof.
  intros Hh Hn M k. pose proof Hh as [HM Hr Hc]. fold M in HM, Hr.
  unfold buddy_page_alloc.
  assert ((if n =? 0 then 1 else n) = Z.max n 1) as -> by (destruct (Z.eqb_spec n 0); lia).
  set (m := Z.max n 1) in *. fold M. pose proof (pow2_le M 62 ltac:(lia)). pose proof (pow2_pos M ltac:(lia)).
  assert (uint64_pow2 M = 2 ^ M) as ->.
  { unfold uint64_pow2. rewrite Z.shiftl_1_l, u8_small, u64_small; lia. }
  destruct (Z.ltb_spec (2 ^ M) m) as [Hbig|Hfit]; [split_and!; intros; done || lia|].
  pose proof (log2_up_fits m M ltac:(lia) ltac:(lia)) as Hk. fold k in Hk.
  rewrite uint64_ceil_log2_spec by lia. fold k. rewrite u8_small by lia.
  pose proof (load_rep M ba 0 0 t Hr) as Hload. change (idx 0 0) with 0 in Hload.
  rewrite Hload. cbn [mbind option_bind]. pose proof (free_run_value ba t k Hh Hk) as Hrun. fold M in Hrun.
  split_and!; [lia|..]; intros _ Hfr.
  - destruct (Z.ltb_spec (M - k) (value M 0 t)) as [|Hle]; [done|]. by apply Hrun in Hle.
  - apply Hrun in Hfr. destruct (Z.ltb_spec (M - k) (value M 0 t)); [lia|].
    destruct (page_alloc_success M HM ba t k eq_refl Hh Hk Hfr)
      as (ba1 & ba2 & ba' & bi & t' & o & Hq & Hs & Hp & Hpool & Hh' & Hfirst & Ho & Hpg).
    rewrite Hq. cbn [mbind option_bind]. rewrite Hs. cbn [mbind option_bind]. rewrite Hp. cbn [mbind option_bind].
    exists ba', t', (o * 2 ^ k). rewrite Hfirst. split; [done|].
    assert (2 ^ (M - k) * 2 ^ k = 2 ^ M) by (rewrite <-Z.pow_add_r by lia; f_equal; lia).
    pose proof (pow2_pos k ltac:(lia)). split; try done; [|fold M; nia].
    by apply Z.mod_mul; lia.
Qed.

Lemma page_free_cases ba t page_id : holds ba t -> 0 <= page_id < 2 ^ ba_max_level ba ->
  match page ba t page_id with
  | PAlloc first n => exists ba' t',
      buddy_page_free ba page_id = Some (ba', BUDDY_STATUS_SUCCESS) /\
      first <= page_id < first + n /\ released ba t ba' t' first n
  | _ => buddy_page_free ba page_id = Some (ba, BUDDY_STATUS_NO_SUCH_ALLOCATION)
  end.
Proof.
  intros Hh Hid. pose proof Hh as [HM _ _]. destruct (page ba t page_id) as [|first n|] eqn:E.
  1,3: by eapply page_free_failure; [..|intros ? ?; rewrite E].
  destruct (page_free_success _ HM ba t page_id first n eq_refl Hh Hid E) as (ba' & t' & Hq & Hpool & Hh' & Hin & Hpg).
  exists ba', t'. split_and!; [done|lia..|]. by split.
Qed.

Lemma mark_all_spec M marks ba : 0 < M <= 62 -> ba_max_level ba = M ->
  Forall (fun m => 0 <= m.1 <= m.2 + 1 /\ m.2 + 2 ^ (M - 1) < 2 ^ (M + 1) - 1) marks ->
  exists h', mark_all marks ba = Some (set_heap ba h') /\
    forall p, 0 <= p < 2 ^ M ->
      h' !! idx M p = if marked M marks p then Some BUDDY_LEVEL_UNUSABLE else ba_heap ba !! idx M p.
Proof.
  intros HM. revert ba. induction marks as [|[a b] marks IH]; intros ba E Hall.
  { exists (ba_heap ba). split; [by destruct ba|done]. }
  apply Forall_cons in Hall as [[Hab Hb] Hall]. simpl in Hab, Hb. cbn [mark_all].
  pose proof (pow2_le (M - 1) 61 ltac:(lia)). pose proof (pow2_pos (M - 1) ltac:(lia)).
  pose proof (pow2_le (M + 1) 63 ltac:(lia)).
  assert (HM' : 2 ^ M = 2 * 2 ^ (M - 1)) by (rewrite <-pow2_S by lia; f_equal; lia).
  destruct (idx_bounds M ltac:(lia) 0 0) as (_ & Hsz & _); [unfold at_level; simpl; lia|].
  unfold buddy_mark_unusable, uint64_pow2. rewrite E, Z.shiftl_1_l, u8_small, (u64_small (2 ^ (M - 1))), u64_small by lia.
  destruct (fill_spec M ltac:(lia) (Z.to_nat (b - a + 1)) ba (a + 2 ^ (M - 1)) BUDDY_LEVEL_UNUSABLE)
    as (h1 & Hf & Hh1); [done|lia|lia|done|].
  rewrite Hf. cbn [mbind option_bind].
  destruct (IH (set_heap ba h1)) as (h' & Hm & Hh'); [done|done|].
  exists h'. rewrite Hm. split; [by destruct ba|]. intros p Hp. rewrite (Hh' p Hp). simpl. rewrite Hh1.
  unfold marked at 2. cbn [existsb fst snd]. fold (marked M marks p).
  unfold marked_shift at 1 2, idx. rewrite Z2Nat.id by lia.
  destruct (marked M marks p); [by rewrite orb_true_r|]. rewrite orb_false_r.
  case_decide; destruct (Z.leb_spec a (p + (2 ^ (M - 1) - 1))), (Z.leb_spec (p + (2 ^ (M - 1) - 1)) b);
    simpl; done || lia.
Qed.

Lemma buddy_init_spec n_pages page_size offset : 1 <= n_pages <= 2 ^ 62 ->
  let M := Z.log2_up n_pages in
  exists ba, buddy_init n_pages page_size offset = Some ba /\ ba_max_level ba = M /\
    ba_offset ba = offset /\ ba_page_size_log2 ba = uint64_log2 page_size /\
    forall p, 0 <= p < 2 ^ M ->
      ba_heap ba !! idx M p = Some (if n_pages <=? p then BUDDY_LEVEL_UNUSABLE else M).
Proof.
  intros Hn M. pose proof (log2_up_fits n_pages 62 ltac:(lia) ltac:(lia)) as HM. fold M in HM.
  assert (HnM : n_pages <= 2 ^ M) by (apply Z.log2_up_le_pow2; lia || done).
  unfold buddy_init. rewrite uint64_ceil_log2_spec by lia. fold M.
  destruct (idx_bounds M HM 0 0) as (_ & Hsz & _); [unfold at_level; simpl; lia|].
  assert ((if 0 <? M then heap_size (M - 1) else 0) = 2 ^ M - 1) as ->.
  { destruct (Z.ltb_spec 0 M); [by apply heap_size_pred; lia|]. by replace M with 0 by lia. }
  pose proof (pow2_S M ltac:(lia)). pose proof (pow2_pos M ltac:(lia)).
  destruct (fill_spec M HM (Z.to_nat n_pages) (Buddy offset (uint64_log2 page_size) BUDDY_STATE_UNREADY M ∅) (2 ^ M - 1) M)
    as (h1 & -> & Hh1); [done|lia..|]. cbn [mbind option_bind].
  destruct (fill_spec M HM (Z.to_nat (heap_size M - (n_pages + (2 ^ M - 1))))
    (set_heap (Buddy offset (uint64_log2 page_size) BUDDY_STATE_UNREADY M ∅) h1) (n_pages + (2 ^ M - 1)) BUDDY_LEVEL_UNUSABLE)
    as (h2 & -> & Hh2); [done|lia|lia|done|].
  eexists. split; [done|]. simpl. split_and!; [done..|]. intros p Hp. rewrite Hh2. simpl. rewrite Hh1.
  unfold idx. destruct (Z.leb_spec n_pages p); repeat case_decide; done || lia.
Qed.

Lemma setup_spec n_pages page_size offset marks : 1 <= n_pages <= 2 ^ 62 ->
  let M := Z.log2_up n_pages in
  marks = [] \/ (0 < M /\ Forall (fun m => 0 <= m.1 <= m.2 + 1 /\ m.2 + 2 ^ (M - 1) < 2 ^ (M + 1) - 1) marks) ->
  exists ba t, setup n_pages page_size offset marks = Some ba /\ holds ba t /\
    ba_state ba = BUDDY_STATE_READY /\ ba_max_level ba = M /\ ba_offset ba = offset /\
    ba_page_size_log2 ba = uint64_log2 page_size /\
    forall p, 0 <= p < 2 ^ M -> page ba t p = if (n_pages <=? p) || marked M marks p then PBad else PFree.
Proof.
  intros Hn M Hmarks. destruct (buddy_init_spec n_pages page_size offset Hn) as (ba & Hi & E & Eo & Es & Hbot).
  fold M in E, Hbot. pose proof (log2_up_fits n_pages 62 ltac:(lia) ltac:(lia)) as HM. fold M in HM.
  set (bad p := (n_pages <=? p) || marked M marks p).
  assert (exists h', mark_all marks ba = Some (set_heap ba h') /\
    forall p, 0 <= p < 2 ^ M -> h' !! idx M p = Some (if bad p then BUDDY_LEVEL_UNUSABLE else M))
    as (h' & Hm & Hh').
  { destruct Hmarks as [->|[HM0 Hall]].
    - exists (ba_heap ba). split; [by destruct ba|]. intros p Hp. rewrite Hbot by done.
      unfold bad. by rewrite orb_false_r.
    - destruct (mark_all_spec M marks ba ltac:(lia) E Hall) as (h' & Hm & Hh'). exists h'. split; [done|].
      intros p Hp. rewrite Hh', Hbot by done. unfold bad. destruct (marked M marks p), (n_pages <=? p); done. }
  destruct (buddy_ready_spec M HM bad (set_heap ba h') E Hh') as (ba' & Hr & E' & Eo' & Es' & Hst & Hh).
  exists ba', (fresh bad (Z.to_nat M) 0). unfold setup. rewrite Hi. cbn [mbind option_bind].
  rewrite Hm. cbn [mbind option_bind]. rewrite Hr. split_and!; try done; [by rewrite Eo'|by rewrite Es'|].
  intros p Hp. unfold page. rewrite E'. apply fresh_pages; [lia|lia|].
  unfold in_block. rewrite Z.sub_0_r. lia.
Qed.

Lemma heap_level_block M lvl o : 0 <= M <= 62 -> at_level M lvl o -> heap_level (idx lvl o) = lvl.
Proof. intros HM Ha. by apply heap_level_idx, (at_level_63 M HM). Qed.

(** [buddy_mem_size] reports the size of the allocation that holds the page. *)
Lemma mem_size_spec ba t mem first n : holds ba t ->
  0 <= ptr_to_page ba mem < 2 ^ ba_max_level ba -> 0 <= ba_page_size_log2 ba ->
  ba_max_level ba + ba_page_size_log2 ba < 64 ->
  page ba t (ptr_to_page ba mem) = PAlloc first n ->
  buddy_mem_size ba mem = Some (inr (n * 2 ^ ba_page_size_log2 ba)).
Proof.
  intros Hh Hp Hs Hs64 Hpage. pose proof Hh as [HM _ _]. set (M := ba_max_level ba) in *.
  unfold page in Hpage. fold M in Hpage.
  pose proof (find_block_spec M HM (S (Z.to_nat M)) ba (ptr_to_page ba mem) 0 0 t [] (holds_focus M HM _ _ eq_refl Hh)) as Hf.
  rewrite Hpage in Hf. destruct Hf as (lvl & o & ctx & Hf & (_ & Ha & _) & _ & _ & _ & ->);
    [unfold in_block; rewrite Z.sub_0_r; lia|lia|].
  unfold buddy_mem_size, get_block_index_from_page_index. fold M. change (idx 0 0) with 0 in Hf. rewrite Hf.
  cbn [mbind option_bind]. rewrite (heap_level_block M) by done. destruct Ha as [Hl _].
  unfold uint64_pow2. rewrite !(u8_small (M - lvl + ba_page_size_log2 ba)), Z.shiftl_1_l by lia.
  rewrite u64_small, Z.pow_add_r by (lia || (pose proof (pow2_pos (M - lvl + ba_page_size_log2 ba) ltac:(lia));
    pose proof (pow2_le (M - lvl + ba_page_size_log2 ba) 63 ltac:(lia)); lia)). done.
Qed.

Lemma ptr_roundtrip ba p : pool_fits ba -> 0 <= ba_max_level ba -> 0 <= p < 2 ^ ba_max_level ba ->
  ptr_to_page ba (page_to_ptr ba p) = p /\
  page_to_ptr ba p = ba_offset ba + p * 2 ^ ba_page_size_log2 ba.
Proof.
  intros (Hs & H64 & Ho & Hw) HM Hp. rewrite Z.pow_add_r in Hw by lia.
  pose proof (pow2_pos (ba_page_size_log2 ba) Hs).
  assert (0 <= p * 2 ^ ba_page_size_log2 ba /\
          p * 2 ^ ba_page_size_log2 ba + 1 <= 2 ^ ba_max_level ba * 2 ^ ba_page_size_log2 ba) by nia.
  unfold ptr_to_page, page_to_ptr. rewrite Z.shiftl_mul_pow2 by lia.
  rewrite (u64_small (p * _)), (u64_small (ba_offset ba + _)) by lia.
  replace (ba_offset ba + p * 2 ^ ba_page_size_log2 ba - ba_offset ba) with (p * 2 ^ ba_page_size_log2 ba) by lia.
  rewrite u64_small, Z.shiftr_div_pow2, Z.div_mul by lia. done.
Qed.

Lemma mem_alloc_pages ba n_bytes : 0 <= ba_page_size_log2 ba < 64 -> 0 < n_bytes < 2 ^ 63 ->
  let b := Z.max n_bytes (2 ^ ba_page_size_log2 ba) in
  uint64_pow2 (uint64_ceil_log2 (if n_bytes <? uint64_pow2 (ba_page_size_log2 ba)
     then uint64_pow2 (ba_page_size_log2 ba) else n_bytes) - ba_page_size_log2 ba)
  = 2 ^ (Z.log2_up b - ba_page_size_log2 ba) /\
  ba_page_size_log2 ba <= Z.log2_up b <= 63 /\ n_bytes <= 2 ^ Z.log2_up b.
Proof.
  intros Hs Hn b. pose proof (pow2_le (ba_page_size_log2 ba) 63 ltac:(lia)).
  pose proof (pow2_pos (ba_page_size_log2 ba) ltac:(lia)).
  assert (uint64_pow2 (ba_page_size_log2 ba) = 2 ^ ba_page_size_log2 ba) as ->.
  { unfold uint64_pow2. rewrite Z.shiftl_1_l, u8_small, u64_small; lia. }
  assert ((if n_bytes <? 2 ^ ba_page_size_log2 ba then 2 ^ ba_page_size_log2 ba else n_bytes) = b) as ->.
  { unfold b. destruct (Z.ltb_spec n_bytes (2 ^ ba_page_size_log2 ba)); lia. }
  assert (Hb : 0 < b <= 2 ^ 63) by (unfold b; lia). rewrite uint64_ceil_log2_spec by lia.
  assert (ba_page_size_log2 ba <= Z.log2_up b).
  { rewrite <-(Z.log2_up_pow2 (ba_page_size_log2 ba)) at 1 by lia. apply Z.log2_up_le_mono. unfold b. lia. }
  assert (Z.log2_up b <= 63) by (apply Z.log2_up_le_pow2; lia).
  assert (b <= 2 ^ Z.log2_up b) by (apply Z.log2_up_le_pow2; lia).
  split_and!; [|lia..]. unfold uint64_pow2.
  pose proof (pow2_le (Z.log2_up b - ba_page_size_log2 ba) 63 ltac:(lia)).
  pose proof (pow2_pos (Z.log2_up b - ba_page_size_log2 ba) ltac:(lia)).
  rewrite Z.shiftl_1_l, u8_small, u64_small; lia.
Qed.

Lemma same_pool_fields ba ba' : same_pool ba ba' ->
  ba_max_level ba' = ba_max_level ba /\ ba_offset ba' = ba_offset ba /\
  ba_page_size_log2 ba' = ba_page_size_log2 ba.
Proof. unfold same_pool. intros ->. done. Qed.

Lemma alloc_free_restores ba t ba' t' first n page_id :
  allocated ba t ba' t' first n -> 0 < n -> first <= page_id < first + n ->
  exists ba'' t'', buddy_page_free ba' page_id = Some (ba'', BUDDY_STATUS_SUCCESS) /\
    holds ba'' t'' /\ same_pool ba ba'' /\
    forall p, 0 <= p < 2 ^ ba_max_level ba -> page ba'' t'' p = page ba t p.
Proof.
  intros [Hh Hpool Hal Hr Hpg] Hn Hid. destruct (same_pool_fields _ _ Hpool) as (EM & _ & _).
  pose proof (Hpg page_id ltac:(lia)) as Hp. rewrite decide_True in Hp by lia. destruct Hp as [_ Hp].
  pose proof (page_free_cases ba' t' page_id Hh) as Hf. rewrite Hp, EM in Hf.
  destruct Hf as (ba'' & t'' & Hq & _ & [Hh'' Hpool' Hpg']); [lia|].
  exists ba'', t''. split_and!; [done|done|by eapply same_pool_trans|].
  intros p Hp0. rewrite EM in Hpg'. specialize (Hpg p Hp0). specialize (Hpg' p Hp0).
  case_decide; [|congruence]. destruct Hpg, Hpg'. congruence.
Qed.

(** ** Properties *)

(** C26: [buddy_page_alloc] on a ready pool.  It stays inside the heap storage
    and reads only initialised entries.  A request larger than the pool is
    refused as invalid and one for which no aligned run of free pages of the
    rounded size exists is refused for lack of memory, both leaving the pool
    untouched; otherwise it returns the first page of an aligned block of the
    next power of two of pages, all of them free before, records exactly that
    block as one allocation and changes the state of no other page. *)
Theorem buddy_page_alloc_correct ba t n : holds ba t -> 0 <= n < 2 ^ 64 ->
  let M := ba_max_level ba in let k := Z.log2_up (Z.max n 1) in
  (2 ^ M < Z.max n 1 -> buddy_page_alloc ba n = Some (ba, inl BUDDY_STATUS_INVAL)) /\
  (Z.max n 1 <= 2 ^ M -> ~ free_run ba t k -> buddy_page_alloc ba n = Some (ba, inl BUDDY_STATUS_NOMEM)) /\
  (Z.max n 1 <= 2 ^ M -> free_run ba t k -> exists ba' t' first,
     buddy_page_alloc ba n = Some (ba', inr first) /\ allocated ba t ba' t' first (2 ^ k)).
Proof. apply page_alloc_cases. Qed.

(** C27: [buddy_page_free] on a ready pool.  For a page of an allocation it
    succeeds, turns exactly that allocation into free pages, merges buddies and
    keeps the pool ready; for a free or unusable page it reports that there is no
    such allocation and changes nothing. *)
Theorem buddy_page_free_correct ba t page_id : holds ba t -> 0 <= page_id < 2 ^ ba_max_level ba ->
  match page ba t page_id with
  | PAlloc first n => exists ba' t',
      buddy_page_free ba page_id = Some (ba', BUDDY_STATUS_SUCCESS) /\
      first <= page_id < first + n /\ released ba t ba' t' first n
  | _ => buddy_page_free ba page_id = Some (ba, BUDDY_STATUS_NO_SUCH_ALLOCATION)
  end.
Proof. apply page_free_cases. Qed.

(** C28: [buddy_mem_alloc] either fails and leaves the pool alone, or returns a
    pointer for which [buddy_mem_size] reports at least the bytes asked for and
    [buddy_mem_free] succeeds and restores the state of every page. *)
Theorem buddy_mem_roundtrip ba t n_bytes :
  holds ba t -> pool_fits ba -> 0 < n_bytes < 2 ^ 63 ->
  exists ba' r, buddy_mem_alloc ba n_bytes = Some (ba', r) /\
    match r with
    | inl _ => ba' = ba
    | inr ptr => exists t' size ba'' t'', holds ba' t' /\
        ba_offset ba <= ptr /\ ptr + size <= ba_offset ba + 2 ^ (ba_max_level ba + ba_page_size_log2 ba) /\
        buddy_mem_size ba' ptr = Some (inr size) /\ n_bytes <= size /\
        buddy_mem_free ba' ptr = Some (ba'', BUDDY_STATUS_SUCCESS) /\ holds ba'' t'' /\
        forall p, 0 <= p < 2 ^ ba_max_level ba -> page ba'' t'' p = page ba t p
    end.
Proof.
  intros Hh Hfit Hn. pose proof Hh as [HM _ _]. pose proof Hfit as (Hs & H64 & Ho & Hw).
  destruct (mem_alloc_pages ba n_bytes ltac:(lia) Hn) as (Hpages & Hlog & Hle).
  set (b := Z.max n_bytes (2 ^ ba_page_size_log2 ba)) in *.
  unfold buddy_mem_alloc. rewrite Hpages. set (k := Z.log2_up b - ba_page_size_log2 ba) in *.
  pose proof (pow2_pos k ltac:(lia)). pose proof (pow2_le k 63 ltac:(lia)).
  destruct (page_alloc_cases ba t (2 ^ k) Hh ltac:(lia)) as (H1 & H2 & H3).
  rewrite Z.max_l in H1, H2, H3 by lia. rewrite Z.log2_up_pow2 in H2, H3 by lia.
  destruct (Z.lt_ge_cases (2 ^ ba_max_level ba) (2 ^ k)) as [Hbig|Hfits].
  { rewrite H1 by done. by eexists _, _. }
  destruct (decide (value (ba_max_level ba) 0 t <= ba_max_level ba - k)) as [Hv|Hv];
    rewrite <-(free_run_value ba t k Hh) in Hv by (split; [lia|apply (Z.pow_le_mono_r_iff 2); lia]).
  2:{ rewrite H2 by done. by eexists _, _. }
  destruct (H3 Hfits Hv) as (ba' & t' & first & Hq & Hal). rewrite Hq. simpl.
  eexists _, _. split; [done|]. simpl. pose proof Hal as [Hh' Hpool Hmod Hrange Hpg].
  destruct (same_pool_fields _ _ Hpool) as (EM & Eo & Es).
  assert (Hfit' : pool_fits ba') by (unfold pool_fits; rewrite EM, Eo, Es; done).
  destruct (ptr_roundtrip ba' first Hfit') as [Hrt Hptr]; [lia|rewrite EM; lia|].
  pose proof (Hpg first ltac:(lia)) as Hp. rewrite decide_True in Hp by lia. destruct Hp as [_ Hp].
  destruct (alloc_free_restores ba t ba' t' first (2 ^ k) first Hal) as (ba'' & t'' & Hfree & Hh'' & _ & Hsame); [lia..|].
  pose proof (pow2_pos (ba_page_size_log2 ba) ltac:(lia)).
  assert (Hsize : buddy_mem_size ba' (page_to_ptr ba' first) = Some (inr (2 ^ k * 2 ^ ba_page_size_log2 ba'))).
  { apply (mem_size_spec ba' t' _ first); rewrite ?Hrt, ?EM, ?Es; done || lia. }
  exists t', (2 ^ k * 2 ^ ba_page_size_log2 ba), ba'', t''.
  unfold buddy_mem_free. rewrite Hrt. rewrite Hptr in Hsize |- *. rewrite Eo, Es in *.
  rewrite (Z.pow_add_r 2 (ba_max_level ba)) by lia.
  split_and!; try done; [nia|nia|]. rewrite <-Z.pow_add_r by lia.
  by replace (k + ba_page_size_log2 ba) with (Z.log2_up b) by lia.
Qed.

(** C29: the set-up sequence [buddy_init], any number of [buddy_mark_unusable],
    [buddy_ready] gives a ready pool in which every page is free except those past
    [n_pages] and those the marks hit: a mark of page [i] hits page
    [i - (2^(max_level-1) - 1)]. *)
Theorem buddy_setup_correct n_pages page_size offset marks : 1 <= n_pages <= 2 ^ 62 ->
  let M := Z.log2_up n_pages in
  marks = [] \/ (0 < M /\ Forall (fun m => 0 <= m.1 <= m.2 + 1 /\ m.2 + 2 ^ (M - 1) < 2 ^ (M + 1) - 1) marks) ->
  exists ba t, setup n_pages page_size offset marks = Some ba /\ holds ba t /\
    ba_state ba = BUDDY_STATE_READY /\ ba_max_level ba = M /\ ba_offset ba = offset /\
    ba_page_size_log2 ba = uint64_log2 page_size /\
    forall p, 0 <= p < 2 ^ M -> page ba t p = if (n_pages <=? p) || marked M marks p then PBad else PFree.
Proof. apply setup_spec. Qed.


(** ** Witnesses *)

Definition sample_pool : buddy_allocator_s :=
  match setup 6 4096 65536 [] with Some ba => ba | None => Buddy 0 0 0 0 ∅ end.

Definition sample_blocks : blocks := fresh (fun p => 6 <=? p) 3 0.

Lemma sample_holds : holds sample_pool sample_blocks.
Proof. split; [split; vm_compute; done|vm_compute; intuition done|vm_compute; intuition done]. Qed.

Lemma buddy_page_alloc_correct_witness : exists ba' t' first,
  buddy_page_alloc sample_pool 2 = Some (ba', inr first) /\ allocated sample_pool sample_blocks ba' t' first 2.
Proof.
  destruct (buddy_page_alloc_correct sample_pool sample_blocks 2 sample_holds ltac:(lia)) as (_ & _ & H).
  apply H; [vm_compute; done|]. apply free_run_value; [apply sample_holds|vm_compute; done|vm_compute; done].
Defined.

Lemma buddy_page_free_correct_witness :
  buddy_page_free sample_pool 3 = Some (sample_pool, BUDDY_STATUS_NO_SUCH_ALLOCATION).
Proof. apply (buddy_page_free_correct sample_pool sample_blocks 3 sample_holds). vm_compute. done. Defined.

Lemma buddy_mem_roundtrip_witness : exists ba' r, buddy_mem_alloc sample_pool 5000 = Some (ba', r).
Proof.
  destruct (buddy_mem_roundtrip sample_pool sample_blocks 5000) as (ba' & r & H & _);
    [apply sample_holds|vm_compute; intuition done|done|by exists ba', r].
Defined.

Lemma buddy_setup_correct_witness : exists ba t, setup 8 4096 0 [(4, 5)] = Some ba /\ holds ba t /\
  page ba t 1 = PBad /\ page ba t 3 = PFree.
Proof.
  destruct (buddy_setup_correct 8 4096 0 [(4, 5)]) as (ba & t & H1 & H2 & _ & _ & _ & _ & Hp); [done| |].
  { right. split; [done|]. repeat constructor; vm_compute; done. }
  exists ba, t. split; [exact H1|]. split; [exact H2|].
  split; (rewrite Hp; [reflexivity|split; vm_compute; congruence]).
Defined.
