(* ===== verification/Paging.v ===== *)
(** * Page trees

    Models [kernel/archsrc/x86_64/paging.c] and the flags of
    [kernel/src/paging.h]: the four-level identity page tree of an address
    space, its flag translation, mutation, splitting and merging of huge
    leaves, cloning, freeing and dirty tracking.

    A table is the list of its 512 entries.  An entry is either a word, absent
    or leaf exactly as the hardware reads it, or the table a pointer entry leads
    to: every pointer entry is installed as [child | intermediate_flags()], so
    it is present, has PS clear, and carries no other information.  The supply
    of page-table frames is counted ([e_frames]): [pt_alloc] takes one, and halts
    the kernel ([None]) when there is none; [pt_free] gives one back.  A failed
    [asserts] is [None] as well.  The mutation lock is taken and released inside
    each operation and is not represented, nor is the shootdown on other processors. *)

From S2P Require Import Prelude.

(** ** Hardware entry layout *)

Definition PTE_P : Z := Z.shiftl 1 0.
Definition PTE_RW : Z := Z.shiftl 1 1.
Definition PTE_US : Z := Z.shiftl 1 2.
Definition PTE_PWT : Z := Z.shiftl 1 3.
Definition PTE_PCD : Z := Z.shiftl 1 4.
Definition PTE_PS : Z := Z.shiftl 1 7.
Definition PTE_NX : Z := Z.shiftl 1 63.
Definition PTE_ADDR : Z := 0x000FFFFFFFFFF000.

Definition GIB : Z := Z.shiftl 1 30.
Definition MIB : Z := Z.shiftl 1 20.

Definition LEVEL_SHIFT (level : nat) : Z :=
  match level with 1%nat => 12 | 2%nat => 21 | 3%nat => 30 | 4%nat => 39 | _ => 0 end.

Definition LEVEL_SIZE (level : nat) : Z :=
  match level with
  | 1%nat => PAGE_SIZE | 2%nat => 2 * MIB | 3%nat => GIB | 4%nat => 512 * GIB | _ => 0
  end.

Definition level_idx (addr : Z) (level : nat) : nat :=
  Z.to_nat (Z.land (Z.shiftr addr (LEVEL_SHIFT level)) 0x1ff).

(** ** API flags *)

Definition PAGE_R : Z := Z.shiftl 1 0.
Definition PAGE_W : Z := Z.shiftl 1 1.
Definition PAGE_X : Z := Z.shiftl 1 2.
Definition PAGE_U : Z := Z.shiftl 1 3.
Definition PAGE_WB : Z := Z.shiftl 0 4.
Definition PAGE_UC : Z := Z.shiftl 1 4.
Definition PAGE_WC : Z := Z.shiftl 2 4.
Definition PAGE_WT : Z := Z.shiftl 3 4.
Definition PAGE_CACHE_MASK : Z := Z.shiftl 3 4.
Definition PAGE_KERNEL_PRISTINE : Z := Z.lor (Z.lor PAGE_R PAGE_W) PAGE_X.

(** [x & m] as a truth value. *)
Definition has (x m : Z) : bool := nz (Z.land x m).

(** [None] is the failed [asserts] on a missing [PAGE_R]. *)
Definition leaf_flags_to_pte (f : Z) : option Z :=
  if Z.land f (Z.lor (Z.lor (Z.lor PAGE_R PAGE_W) PAGE_X) PAGE_U) =? 0 then Some 0
  else if negb (has f PAGE_R) then None
  else
    let pte := PTE_P in
    let pte := if has f PAGE_W then Z.lor pte PTE_RW else pte in
    let pte := if has f PAGE_U then Z.lor pte PTE_US else pte in
    let pte := if negb (has f PAGE_X) then Z.lor pte PTE_NX else pte in
    let cache := Z.land f PAGE_CACHE_MASK in
    if cache =? PAGE_WB then Some pte
    else if cache =? PAGE_UC then Some (Z.lor pte PTE_PCD)
    else if cache =? PAGE_WT then Some (Z.lor pte PTE_PWT)
    else if cache =? PAGE_WC then Some (Z.lor pte PTE_PWT)
    else None.

Definition pte_to_flags (pte : Z) : Z :=
  if negb (has pte PTE_P) then 0
  else
    let f := PAGE_R in
    let f := if has pte PTE_RW then Z.lor f PAGE_W else f in
    let f := if has pte PTE_US then Z.lor f PAGE_U else f in
    let f := if negb (has pte PTE_NX) then Z.lor f PAGE_X else f in
    if has pte PTE_PCD then Z.lor f PAGE_UC
    else if has pte PTE_PWT then Z.lor f PAGE_WT
    else Z.lor f PAGE_WB.

(** ** Tables *)

Inductive entry :=
  | Word (w : Z)
  | Table (t : list entry).

(** [~m] on a 64-bit word. *)
Definition not64 (m : Z) : Z := Z.lxor m UINT64_MAX.

(** What the mutators thread through: the dirty range and the frame supply. *)
Record env := Env { e_min : Z; e_max : Z; e_frames : Z }.

Definition zero_table : list entry := replicate 512 (Word 0).

Definition pt_alloc (e : env) : option (list entry * env) :=
  if 0 <? e_frames e then Some (zero_table, Env (e_min e) (e_max e) (e_frames e - 1)) else None.

Definition pt_free (e : env) : env := Env (e_min e) (e_max e) (e_frames e + 1).

Definition DIRTY_EMPTY_MIN : Z := UINT64_MAX.
Definition DIRTY_EMPTY_MAX : Z := 0.

Definition mark_dirty (e : env) (start stop : Z) : env :=
  Env (if start <? e_min e then start else e_min e)
      (if e_max e <? stop then stop else e_max e) (e_frames e).

Definition has_dirty (e : env) : bool := e_min e <? e_max e.

Definition clear_dirty (e : env) : env := Env DIRTY_EMPTY_MIN DIRTY_EMPTY_MAX (e_frames e).

(** [free_table]: every frame of the tree goes back to the supply. *)
Fixpoint free_table (level : nat) (t : list entry) (e : env) : env :=
  pt_free
    (match level with
     | S ((S _) as level) =>
         fold_left (fun e x => match x with Word _ => e | Table c => free_table level c e end) t e
     | _ => e
     end).

(** [split_huge]: the child of a huge leaf at [level]. *)
Definition split_huge (huge : Z) (level : nat) (e : env) : option (list entry * env) :=
  if negb ((level =? 2)%nat || (level =? 3)%nat) then None
  else if negb (has huge PTE_P && has huge PTE_PS) then None
  else
    '(_, e) ← pt_alloc e;
    let base := Z.land huge PTE_ADDR in
    let flags := Z.land (Z.land huge (not64 PTE_ADDR)) (not64 PTE_PS) in
    let child_ps := if (level - 1 =? 2)%nat then PTE_PS else 0 in
    let step := LEVEL_SIZE (level - 1) in
    Some (map (fun i => Word (Z.lor (Z.lor (u64 (base + Z.of_nat i * step)) flags) child_ps)) (seq 0 512), e).

(** The walk of [install_leaf], from the table [t] at level [l] down to
    [level]; [None] at a present word that is neither a leaf nor a table. *)
Fixpoint install_from (l : nat) (t : list entry) (addr : Z) (level : nat) (leaf_pte : Z) (e : env)
    : option (list entry * env) :=
  let i := level_idx addr l in
  x ← t !! i;
  match l with
  | O => None
  | S l' =>
      if (l =? level)%nat then
        let e := match x with
                 | Table c => if (1 <? level)%nat then free_table (level - 1) c e else e
                 | Word _ => e
                 end in
        Some (<[i := Word leaf_pte]> t, e)
      else
        match x with
        | Word w =>
            if negb (has w PTE_P) then
              if leaf_pte =? 0 then Some (t, e)
              else
                '(child, e) ← pt_alloc e;
                '(child, e) ← install_from l' child addr level leaf_pte e;
                Some (<[i := Table child]> t, e)
            else if has w PTE_PS then
              '(child, e) ← split_huge w l e;
              let huge_base := Z.land addr (not64 (LEVEL_SIZE l - 1)) in
              let e := mark_dirty e huge_base (u64 (huge_base + LEVEL_SIZE l)) in
              '(child, e) ← install_from l' child addr level leaf_pte e;
              Some (<[i := Table child]> t, e)
            else None
        | Table child =>
            '(child, e) ← install_from l' child addr level leaf_pte e;
            Some (<[i := Table child]> t, e)
        end
  end.

Definition install_leaf (root : list entry) (addr : Z) (level : nat) (leaf_pte : Z) (e : env)
    : option (list entry * env) :=
  if negb ((1 <=? level)%nat && (level <=? 3)%nat) then None
  else if negb (Z.land addr (LEVEL_SIZE level - 1) =? 0) then None
  else install_from 4 root addr level leaf_pte e.

(** [walk]: the leaf word, or 0 when absent at any level. *)
Fixpoint walk (l : nat) (t : list entry) (addr : Z) : option Z :=
  x ← t !! level_idx addr l;
  match x with
  | Word w =>
      if negb (has w PTE_P) then Some 0
      else if (l =? 1)%nat || has w PTE_PS then Some w
      else None
  | Table c => match l with S ((S _) as l') => walk l' c addr | _ => None end
  end.

(** ** Merging *)

(** The scan of [try_merge_child] over the child's entries from index [i]. *)
Fixpoint merge_scan (child_level : nat) (first step : Z) (i : Z) (t : list entry)
    (all_absent all_leaf : bool) : bool * bool :=
  match t with
  | [] => (all_absent, all_leaf)
  | x :: t =>
      if negb (all_absent || all_leaf) then (all_absent, all_leaf)
      else
        match x with
        | Word c =>
            if negb (has c PTE_P) then merge_scan child_level first step (i + 1) t all_absent false
            else
              let bad := ((2 <=? child_level)%nat && negb (has c PTE_PS))
                         || negb (Z.land c (not64 PTE_ADDR) =? Z.land first (not64 PTE_ADDR))
                         || negb (Z.land c PTE_ADDR =? u64 (Z.land first PTE_ADDR + i * step)) in
              merge_scan child_level first step (i + 1) t false (if bad then false else all_leaf)
        | Table _ => merge_scan child_level first step (i + 1) t false false
        end
  end.

(** The word the C code reads at [child[0]]; a pointer entry only matters in
    that it is present and no leaf. *)
Definition first_word (t : list entry) : Z :=
  match t with Word w :: _ => w | _ => 0 end.

Definition try_merge_child (parent : list entry) (parent_level : nat) (addr : Z) (e : env)
    : list entry * env * bool :=
  let idx := level_idx addr parent_level in
  match parent !! idx with
  | Some (Table child) =>
      let child_level := (parent_level - 1)%nat in
      let step := LEVEL_SIZE child_level in
      let first := first_word child in
      let '(all_absent, all_leaf) := merge_scan child_level first step 0 child true true in
      let span := Z.land addr (not64 (LEVEL_SIZE parent_level - 1)) in
      if all_absent then
        (<[idx := Word 0]> parent, mark_dirty (pt_free e) span (u64 (span + LEVEL_SIZE parent_level)), true)
      else if all_leaf && (parent_level <=? 3)%nat then
        let base := Z.land first PTE_ADDR in
        if negb (Z.land base (LEVEL_SIZE parent_level - 1) =? 0) then (parent, e, false)
        else
          (<[idx := Word (Z.lor (Z.lor base (Z.land first (not64 PTE_ADDR))) PTE_PS)]> parent,
           mark_dirty (pt_free e) span (u64 (span + LEVEL_SIZE parent_level)), true)
      else (parent, e, false)
  | _ => (parent, e, false)
  end.

(** [try_merge_path]: the flag says that every merge so far succeeded, from the
    lowest table of the walk upwards. *)
Fixpoint merge_from (l : nat) (t : list entry) (addr : Z) (e : env) : list entry * env * bool :=
  match l with
  | S ((S _) as l') =>
      match t !! level_idx addr l with
      | Some (Table child) =>
          let '(child, e, more) := merge_from l' child addr e in
          let t := <[level_idx addr l := Table child]> t in
          if more then try_merge_child t l addr e else (t, e, false)
      | _ => (t, e, true)
      end
  | _ => (t, e, true)
  end.

Definition try_merge_path (root : list entry) (addr : Z) (e : env) : list entry * env :=
  let '(root, e, _) := merge_from 4 root addr e in (root, e).

(** ** Whole trees *)

Fixpoint clone_table (level : nat) (src : list entry) (e : env) : option (list entry * env) :=
  '(_, e) ← pt_alloc e;
  match level with
  | S ((S _) as level) =>
      fold_left (fun acc x =>
        '(dst, e) ← acc;
        match x with
        | Word w => Some (dst ++ [Word (if has w PTE_P then w else 0)], e)
        | Table c => '(c, e) ← clone_table level c e; Some (dst ++ [Table c], e)
        end) src (Some ([], e))
  | _ => Some (map (fun x => match x with Word w => Word (if has w PTE_P then w else 0) | _ => x end) src, e)
  end.

Fixpoint count_tables (level : nat) (t : list entry) : Z :=
  1 + match level with
      | S ((S _) as level) =>
          fold_left (fun n x => match x with Word _ => n | Table c => n + count_tables level c end) t 0
      | _ => 0
      end.

(** ** Address spaces *)

Record address_space := AddressSpace {
  as_root : list entry; as_min_dirty : Z; as_max_dirty : Z; as_pins : Z }.

Definition as_identity_mapping (frames : Z) : option (address_space * Z) :=
  let e := Env DIRTY_EMPTY_MIN DIRTY_EMPTY_MAX frames in
  '(root, e) ← pt_alloc e;
  '(_, e) ← pt_alloc e;
  leaf_base ← leaf_flags_to_pte (Z.lor (Z.lor PAGE_R PAGE_W) PAGE_X);
  let pdpt := map (fun i => Word (Z.lor (Z.lor (u64 (Z.of_nat i * GIB)) leaf_base) PTE_PS)) (seq 0 512) in
  Some (AddressSpace (<[0%nat := Table pdpt]> root) DIRTY_EMPTY_MIN DIRTY_EMPTY_MAX 0, e_frames e).

Definition as_clone (src : address_space) (frames : Z) : option (address_space * Z) :=
  '(root, e) ← clone_table 4 (as_root src) (Env DIRTY_EMPTY_MIN DIRTY_EMPTY_MAX frames);
  Some (AddressSpace root DIRTY_EMPTY_MIN DIRTY_EMPTY_MAX 0, e_frames e).

Definition as_pin (s : address_space) : address_space :=
  AddressSpace (as_root s) (as_min_dirty s) (as_max_dirty s) (u64 (as_pins s + 1)).

Definition as_unpin (s : address_space) : option address_space :=
  if as_pins s =? 0 then None
  else Some (AddressSpace (as_root s) (as_min_dirty s) (as_max_dirty s) (u64 (as_pins s - 1))).

Definition as_has_pins (s : address_space) : bool := negb (as_pins s =? 0).

(** The frames after the tree is gone; [None] when it is still pinned. *)
Definition as_free (s : address_space) (frames : Z) : option Z :=
  if as_has_pins s then None
  else Some (e_frames (free_table 4 (as_root s) (Env (as_min_dirty s) (as_max_dirty s) frames))).

(** The flags and the presence of an address. *)
Definition as_getinfo (s : address_space) (addr : Z) : option (Z * bool) :=
  pte ← walk 4 (as_root s) addr;
  let present := has pte PTE_P in
  Some (if present then pte_to_flags pte else 0, present).

Definition as_table_count (s : address_space) : Z := count_tables 4 (as_root s).

(** The installation loop of [as_flag]: leaves as large as alignment allows. *)
Fixpoint flag_loop (fuel : nat) (root : list entry) (a stop leaf_base : Z) (e : env)
    : option (list entry * env) :=
  if negb (a <? stop) then Some (root, e)
  else
    match fuel with
    | O => None
    | S fuel =>
        let present := has leaf_base PTE_P in
        let remaining := stop - a in
        if (a mod GIB =? 0) && (GIB <=? remaining) then
          '(root, e) ← install_leaf root a 3 (if present then Z.lor (Z.lor a leaf_base) PTE_PS else 0) e;
          flag_loop fuel root (u64 (a + GIB)) stop leaf_base e
        else if (a mod (2 * MIB) =? 0) && (2 * MIB <=? remaining) then
          '(root, e) ← install_leaf root a 2 (if present then Z.lor (Z.lor a leaf_base) PTE_PS else 0) e;
          flag_loop fuel root (u64 (a + 2 * MIB)) stop leaf_base e
        else
          '(root, e) ← install_leaf root a 1 (if present then Z.lor a leaf_base else 0) e;
          flag_loop fuel root (u64 (a + PAGE_SIZE)) stop leaf_base e
    end.

Definition as_flag (s : address_space) (addr stop flags frames : Z) : option (address_space * Z) :=
  if negb ((addr mod PAGE_SIZE =? 0) && (stop mod PAGE_SIZE =? 0)) then None
  else if stop <? addr then None
  else if addr =? stop then Some (s, frames)
  else
    leaf_base ← leaf_flags_to_pte flags;
    '(root, e) ← flag_loop (Z.to_nat ((stop - addr) / PAGE_SIZE)) (as_root s) addr stop leaf_base
                   (Env (as_min_dirty s) (as_max_dirty s) frames);
    let e := mark_dirty e addr stop in
    let '(root, e) := try_merge_path root addr e in
    let '(root, e) := try_merge_path root (stop - PAGE_SIZE) e in
    Some (AddressSpace root (e_min e) (e_max e) (as_pins s), e_frames e).

(** The snapshot phase of [as_flush_multi]: the union of the dirty ranges, each
    cleared as it is read. *)
Definition snapshot_dirty (acc : Z * Z) (s : address_space) : address_space * (Z * Z) :=
  if as_min_dirty s <? as_max_dirty s then
    (AddressSpace (as_root s) DIRTY_EMPTY_MIN DIRTY_EMPTY_MAX (as_pins s),
     (if as_min_dirty s <? acc.1 then as_min_dirty s else acc.1,
      if acc.2 <? as_max_dirty s then as_max_dirty s else acc.2))
  else (s, acc).

Fixpoint flush_snapshot (ases : list address_space) (acc : Z * Z) : list address_space * (Z * Z) :=
  match ases with
  | [] => ([], acc)
  | s :: ases =>
      let '(s, acc) := snapshot_dirty acc s in
      let '(ases, acc) := flush_snapshot ases acc in
      (s :: ases, acc)
  end.

(** ** Specification vocabulary *)

(** The permission and memory-type bits of a leaf word. *)
Definition perm (w : Z) : Z := Z.ldiff w (Z.lor PTE_ADDR PTE_PS).

(** A word in the slot of level [l] that covers the addresses from [b]: absent,
    or a leaf of that level mapping [b] to itself. *)
Definition good_word (l : nat) (b w : Z) : Prop :=
  0 <= w < 2 ^ 64 /\
  (has w PTE_P = true -> Z.land w PTE_ADDR = b /\ (l <= 3)%nat /\ has w PTE_PS = (1 <? l)%nat).

(** A well-formed table at level [l] whose span starts at [b]. *)
Fixpoint wf (l : nat) (b : Z) (t : list entry) : Prop :=
  match l with
  | O => False
  | S l' =>
      length t = 512%nat /\
      forall i x, t !! i = Some x ->
        match x with
        | Word w => good_word l (b + Z.of_nat i * LEVEL_SIZE l) w
        | Table c => match l' with O => False | S _ => wf l' (b + Z.of_nat i * LEVEL_SIZE l) c end
        end
  end.

(** What an address is mapped to: its permissions, or nothing. *)
Definition view (l : nat) (t : list entry) (a : Z) : option Z :=
  match walk l t a with Some w => if has w PTE_P then Some (perm w) else None | None => None end.

(** The addresses a table at level [l] and base [b] covers. *)
Definition span (l : nat) (b a : Z) : Prop := b <= a < b + 512 * LEVEL_SIZE l.

(** [b] can be the base of a table at level [l]. *)
Definition base_ok (l : nat) (b : Z) : Prop :=
  (1 <= l <= 4)%nat /\ 0 <= b /\ b + 512 * LEVEL_SIZE l <= 2 ^ 48 /\ b mod (512 * LEVEL_SIZE l) = 0.

Definition dirty (e : env) (a : Z) : Prop := e_min e <= a < e_max e.

(** Entry-wise count of the frames below a table. *)
Definition frames_of (l : nat) (x : entry) : Z :=
  match x with Word _ => 0 | Table c => count_tables l c end.

Definition walk_entry (l : nat) (x : entry) (a : Z) : option Z :=
  match x with
  | Word w =>
      if negb (has w PTE_P) then Some 0
      else if (l =? 1)%nat || has w PTE_PS then Some w
      else None
  | Table c => match l with S ((S _) as l') => walk l' c a | _ => None end
  end.

(** The view of a walk's result. *)
Definition seen (w : option Z) : option Z :=
  match w with Some w => if has w PTE_P then Some (perm w) else None | None => None end.

(** The leaf word [leaf_pte] of [level] at [addr] gives the addresses it covers
    the view [p]. *)
Definition leaf_ok (level : nat) (addr leaf_pte : Z) (p : option Z) : Prop :=
  (leaf_pte = 0 /\ p = None) \/
  (good_word level addr leaf_pte /\ has leaf_pte PTE_P = true /\ p = Some (perm leaf_pte)).

(** From [(t, e)] to [(t', e')] the addresses in [[lo, hi)] get the view [p]; every
    other address keeps its view, and its very leaf word unless it is dirty; no
    frame is lost. *)
Record installed (l : nat) (b : Z) (t : list entry) (e : env) (lo hi : Z) (p : option Z)
    (t' : list entry) (e' : env) : Prop := {
  in_wf : wf l b t';
  in_view a : span l b a -> view l t' a = if decide (lo <= a < hi) then p else view l t a;
  in_walk a : span l b a -> ~ (lo <= a < hi) -> ~ dirty e' a -> walk l t' a = walk l t a;
  in_frames : e_frames e' + count_tables l t' = e_frames e + count_tables l t;
  in_dirty a : dirty e a -> dirty e' a }.

(** The number of leaves the loop of [as_flag] installs. *)
Fixpoint leaf_count (fuel : nat) (a stop : Z) : Z :=
  match fuel with
  | O => 0
  | S fuel =>
      if negb (a <? stop) then 0
      else if (a mod GIB =? 0) && (GIB <=? stop - a) then 1 + leaf_count fuel (a + GIB) stop
      else if (a mod (2 * MIB) =? 0) && (2 * MIB <=? stop - a) then 1 + leaf_count fuel (a + 2 * MIB) stop
      else 1 + leaf_count fuel (a + PAGE_SIZE) stop
  end.

(** The view [as_flag] gives the range: nothing for empty flags. *)
Definition flag_view (leaf_base : Z) : option Z :=
  if has leaf_base PTE_P then Some leaf_base else None.

Definition wf_as (s : address_space) : Prop := wf 4 0 (as_root s).

(** What an address of the space is mapped to. *)
Definition as_view (s : address_space) (a : Z) : option Z := view 4 (as_root s) a.

(** Flags [as_flag] accepts: empty, or at least [PAGE_R]. *)
Definition flags_ok (f : Z) : Prop := exists lb, leaf_flags_to_pte f = Some lb.

(** Entry-wise copies: what [clone_table] makes of a tree. *)
Fixpoint same (l : nat) (t t' : list entry) : Prop :=
  Forall2 (fun x y =>
    match x, y with
    | Word w, Word w' => w' = if has w PTE_P then w else 0
    | Table c, Table c' => match l with S ((S _) as l') => same l' c c' | _ => c = c' end
    | _, _ => False
    end) t t'.

(** ** Bits *)

Lemma has_bit x n : 0 <= n -> has x (2 ^ n) = Z.testbit x n.
Proof.
  intros Hn. unfold has, nz.
  assert (Z.land x (2 ^ n) = if Z.testbit x n then 2 ^ n else 0) as ->.
  { apply Z.bits_inj'. intros i Hi. rewrite Z.land_spec, Z.pow2_bits_eqb by done.
    destruct (Z.eqb_spec n i) as [->|].
    - destruct (Z.testbit x i); [by rewrite Z.pow2_bits_true|by rewrite Z.bits_0].
    - rewrite andb_false_r. destruct (Z.testbit x n); [by rewrite Z.pow2_bits_false by lia|by rewrite Z.bits_0]. }
  pose proof (pow2_pos n Hn). destruct (Z.testbit x n); [|done]. destruct (Z.eqb_spec (2 ^ n) 0); [lia|done].
Qed.

Lemma has_P w : has w PTE_P = Z.testbit w 0. Proof. by apply (has_bit w 0). Qed.
Lemma has_RW w : has w PTE_RW = Z.testbit w 1. Proof. by apply (has_bit w 1). Qed.
Lemma has_US w : has w PTE_US = Z.testbit w 2. Proof. by apply (has_bit w 2). Qed.
Lemma has_PWT w : has w PTE_PWT = Z.testbit w 3. Proof. by apply (has_bit w 3). Qed.
Lemma has_PCD w : has w PTE_PCD = Z.testbit w 4. Proof. by apply (has_bit w 4). Qed.
Lemma has_PS w : has w PTE_PS = Z.testbit w 7. Proof. by apply (has_bit w 7). Qed.
Lemma has_NX w : has w PTE_NX = Z.testbit w 63. Proof. by apply (has_bit w 63). Qed.

Lemma PTE_ADDR_bits i : 0 <= i -> Z.testbit PTE_ADDR i = (12 <=? i) && (i <? 52).
Proof.
  intros Hi. change PTE_ADDR with (Z.shiftl (Z.ones 40) 12).
  rewrite Z.shiftl_spec by done. destruct (Z.leb_spec 12 i); simpl.
  - destruct (Z.ltb_spec i 52); [rewrite Z.ones_spec_low|rewrite Z.ones_spec_high]; lia || done.
  - apply Z.testbit_neg_r. lia.
Qed.

Lemma PTE_PS_bits i : 0 <= i -> Z.testbit PTE_PS i = (i =? 7).
Proof. intros Hi. change PTE_PS with (2 ^ 7). rewrite Z.pow2_bits_eqb by lia. apply Z.eqb_sym. Qed.

Lemma ones_bits k i : 0 <= k -> 0 <= i -> Z.testbit (2 ^ k - 1) i = (i <? k).
Proof.
  intros Hk Hi. replace (2 ^ k - 1) with (Z.ones k) by (rewrite Z.ones_equiv; lia).
  destruct (Z.ltb_spec i k); [apply Z.ones_spec_low|apply Z.ones_spec_high]; lia.
Qed.

Lemma not64_bits m i : 0 <= i -> Z.testbit (not64 m) i = xorb (Z.testbit m i) (i <? 64).
Proof.
  intros Hi. unfold not64, UINT64_MAX. rewrite Z.lxor_spec. f_equal. by apply ones_bits.
Qed.

Lemma bits_below w i : 0 <= w < 2 ^ 64 -> 64 <= i -> Z.testbit w i = false.
Proof.
  intros Hw Hi. destruct (Z.eq_dec w 0) as [->|]; [apply Z.bits_0|].
  apply Z.bits_above_log2; [lia|]. apply Z.lt_le_trans with 64; [|lia]. apply Z.log2_lt_pow2; lia.
Qed.

Lemma land_not64 w m : 0 <= w < 2 ^ 64 -> Z.land w (not64 m) = Z.ldiff w m.
Proof.
  intros Hw. apply Z.bits_inj'. intros i Hi. rewrite Z.land_spec, Z.ldiff_spec, not64_bits by done.
  destruct (Z.ltb_spec i 64); [by rewrite xorb_true_r|]. by rewrite (bits_below w i).
Qed.

Lemma ldiff_ones a k : 0 <= k -> Z.ldiff a (2 ^ k - 1) = a / 2 ^ k * 2 ^ k.
Proof.
  intros Hk. replace (2 ^ k - 1) with (Z.ones k) by (rewrite Z.ones_equiv; lia).
  rewrite Z.ldiff_ones_r, Z.shiftl_mul_pow2, Z.shiftr_div_pow2; done || lia.
Qed.

(** An aligned address has bits in the address field only. *)
Lemma addr_bits a i : 0 <= a < 2 ^ 52 -> a mod 4096 = 0 -> 0 <= i -> i < 12 \/ 52 <= i -> Z.testbit a i = false.
Proof.
  intros Ha Hm Hi [Hl|Hh].
  - replace a with (Z.shiftl (a / 2 ^ 12) 12) by (rewrite Z.shiftl_mul_pow2 by lia; change (2 ^ 12) with 4096; pose proof (Z.div_mod a 4096 ltac:(lia)); lia).
    rewrite Z.shiftl_spec by done. apply Z.testbit_neg_r. lia.
  - destruct (Z.eq_dec a 0) as [->|]; [apply Z.bits_0|]. apply Z.bits_above_log2; [lia|].
    apply Z.lt_le_trans with 52; [|lia]. apply Z.log2_lt_pow2; lia.
Qed.

Lemma land_addr_id a : 0 <= a < 2 ^ 52 -> a mod 4096 = 0 -> Z.land a PTE_ADDR = a.
Proof.
  intros Ha Hm. apply Z.bits_inj'. intros i Hi. rewrite Z.land_spec, PTE_ADDR_bits by done.
  destruct (Z.leb_spec 12 i), (Z.ltb_spec i 52); simpl; rewrite ?andb_true_r, ?andb_false_r; try done;
    symmetry; apply addr_bits; done || lia.
Qed.

(** Bit-wise equality, case by case on the bit's place in the entry layout. *)
Ltac entry_bits i Hi :=
  apply Z.bits_inj'; intros i Hi;
  repeat (rewrite ?Z.lor_spec, ?Z.land_spec, ?Z.ldiff_spec, ?Z.bits_0;
          rewrite ?PTE_ADDR_bits, ?PTE_PS_bits by done).

(** The fields of a composed leaf word. *)
Lemma leaf_word a f (ps : bool) : 0 <= a < 2 ^ 52 -> a mod 4096 = 0 ->
  0 <= f < 2 ^ 64 -> Z.ldiff f (Z.lor PTE_ADDR PTE_PS) = f ->
  let w := Z.lor (Z.lor a f) (if ps then PTE_PS else 0) in
  Z.land w PTE_ADDR = a /\ perm w = f /\ has w PTE_PS = ps /\ has w PTE_P = Z.testbit f 0 /\ 0 <= w < 2 ^ 64.
Proof.
  intros Ha Hm Hf Hc w.
  assert (Hfb : forall i, 0 <= i -> (12 <= i < 52 \/ i = 7) -> Z.testbit f i = false).
  { intros i Hi Hr. rewrite <-Hc, Z.ldiff_spec, Z.lor_spec, PTE_ADDR_bits, PTE_PS_bits by done.
    destruct (Z.leb_spec 12 i), (Z.ltb_spec i 52), (Z.eqb_spec i 7); simpl; try lia; apply andb_false_r. }
  assert (Hps : forall i, 0 <= i -> Z.testbit (if ps then PTE_PS else 0) i = ps && (i =? 7)).
  { intros i Hi. destruct ps; [by apply PTE_PS_bits|apply Z.bits_0]. }
  assert (Hab : forall i, 0 <= i -> i < 12 \/ 52 <= i -> Z.testbit a i = false) by (intros; by apply addr_bits).
  unfold w, perm. split_and!.
  - entry_bits i Hi. rewrite Hps by done.
    destruct (Z.leb_spec 12 i), (Z.ltb_spec i 52); simpl; rewrite ?andb_true_r, ?andb_false_r;
      try (symmetry; apply Hab; lia).
    rewrite (Hfb i) by lia. destruct (Z.eqb_spec i 7); [lia|]. by rewrite andb_false_r, !orb_false_r.
  - entry_bits i Hi. rewrite Hps by done.
    destruct (Z.leb_spec 12 i), (Z.ltb_spec i 52); simpl; rewrite ?andb_true_r, ?andb_false_r;
      try (symmetry; apply Hfb; lia); rewrite (Hab i) by lia; simpl;
      destruct (Z.eqb_spec i 7); simpl; rewrite ?andb_true_r, ?andb_false_r, ?orb_false_r; try done;
      symmetry; apply Hfb; lia.
  - rewrite has_PS, !Z.lor_spec, Hps, (Hab 7), (Hfb 7) by lia. simpl. by rewrite andb_true_r.
  - rewrite has_P, !Z.lor_spec, Hps, (Hab 0) by lia. simpl. by rewrite andb_false_r, orb_false_r.
  - apply Z.lor_nonneg; split; [apply Z.lor_nonneg; lia|by destruct ps].
  - assert (forall x y, 0 <= x < 2 ^ 64 -> 0 <= y < 2 ^ 64 -> Z.lor x y < 2 ^ 64) as Hlor.
    { intros x y Hx Hy. destruct (Z.eq_dec (Z.lor x y) 0) as [->|Hne]; [done|].
      assert (0 <= Z.lor x y) by (apply Z.lor_nonneg; lia).
      apply Z.log2_lt_pow2; [lia|]. rewrite Z.log2_lor by lia.
      destruct (Z.eq_dec x 0) as [->|], (Z.eq_dec y 0) as [->|]; try done;
        rewrite ?Z.max_lub_lt_iff; try split; try (apply Z.log2_lt_pow2; lia); done. }
    apply Hlor; [split; [apply Z.lor_nonneg; lia|apply Hlor; lia]|by destruct ps].
Qed.

Lemma perm_clean w : 0 <= w -> Z.ldiff (perm w) (Z.lor PTE_ADDR PTE_PS) = perm w.
Proof.
  intros Hw. unfold perm. apply Z.bits_inj'. intros i Hi. rewrite !Z.ldiff_spec.
  by destruct (Z.testbit w i), (Z.testbit (Z.lor PTE_ADDR PTE_PS) i).
Qed.

Lemma perm_range w : 0 <= w < 2 ^ 64 -> 0 <= perm w < 2 ^ 64.
Proof.
  intros Hw. unfold perm. assert (0 <= Z.ldiff w (Z.lor PTE_ADDR PTE_PS) <= w); [|lia].
  split; [apply Z.ldiff_nonneg; lia|]. apply Z.ldiff_le; [lia|].
  apply Z.bits_inj'. intros i Hi. rewrite Z.ldiff_spec, Z.ldiff_spec, Z.bits_0.
  destruct (Z.testbit w i); simpl; by rewrite ?andb_false_r.
Qed.

Lemma perm_P w : Z.testbit (perm w) 0 = has w PTE_P.
Proof. unfold perm. rewrite has_P, Z.ldiff_spec, Z.lor_spec. simpl. by rewrite andb_true_r. Qed.

(** ** Geometry *)

Ltac by_level l :=
  destruct l as [|[|[|[|[|l]]]]]; try (exfalso; lia);
  unfold LEVEL_SIZE, LEVEL_SHIFT, PAGE_SIZE, GIB, MIB in *; simpl Z.shiftl in *.

Lemma size_pow l : (1 <= l <= 4)%nat -> LEVEL_SIZE l = 2 ^ LEVEL_SHIFT l /\ 4096 <= LEVEL_SIZE l /\ 12 <= LEVEL_SHIFT l <= 39.
Proof. intros Hl. by_level l; split_and!; done. Qed.

Lemma size_S l : (1 <= l <= 3)%nat -> 512 * LEVEL_SIZE l = LEVEL_SIZE (S l).
Proof. intros Hl. by_level l; done. Qed.

Lemma size_div l : (1 <= l <= 4)%nat -> (4096 | LEVEL_SIZE l).
Proof.
  intros Hl. by_level l; [exists 1|exists 512|exists 262144|exists 134217728]; done.
Qed.

Lemma base_aligned l b i : base_ok l b -> (b + Z.of_nat i * LEVEL_SIZE l) mod 4096 = 0.
Proof.
  intros (Hl & Hb & _ & Hal). pose proof (size_div l Hl) as Hd. apply Z.mod_divide; [lia|].
  destruct (size_pow l Hl) as (_ & Hsz & _). apply Z.divide_add_r; [|by apply Z.divide_mul_r].
  apply Z.divide_trans with (LEVEL_SIZE l); [done|].
  apply Z.divide_trans with (512 * LEVEL_SIZE l); [apply Z.divide_factor_r|]. apply Z.mod_divide; lia.
Qed.

Lemma level_idx_mod a l : (1 <= l <= 4)%nat -> 0 <= a ->
  Z.of_nat (level_idx a l) = (a / LEVEL_SIZE l) mod 512.
Proof.
  intros Hl Ha. unfold level_idx. destruct (size_pow l Hl) as (-> & _ & Hs).
  rewrite Z.shiftr_div_pow2 by lia. change 0x1ff with (Z.ones 9). rewrite Z.land_ones by lia.
  change (2 ^ 9) with 512. rewrite Z2Nat.id; [done|]. apply Z.mod_pos_bound. lia.
Qed.

Lemma level_idx_span l b a : base_ok l b -> span l b a ->
  (level_idx a l < 512)%nat /\ b + Z.of_nat (level_idx a l) * LEVEL_SIZE l <= a
    < b + Z.of_nat (level_idx a l) * LEVEL_SIZE l + LEVEL_SIZE l.
Proof.
  intros (Hl & Hb & Hmax & Hal) Hs. unfold span in Hs. pose proof (level_idx_mod a l Hl ltac:(lia)) as Hi.
  destruct (size_pow l Hl) as (_ & Hsz & _). set (s := LEVEL_SIZE l) in *.
  apply Z.mod_divide in Hal as [q Hq]; [|lia].
  assert (Hd : a / s = q * 512 + (a - b) / s).
  { replace a with ((a - b) + (q * 512) * s) at 1 by lia. rewrite Z.div_add by lia. lia. }
  assert (Hr : 0 <= (a - b) / s < 512) by (split; [apply Z.div_pos; lia|apply Z.div_lt_upper_bound; lia]).
  rewrite Hd, Z.add_comm, Z.mod_add, Z.mod_small in Hi by lia. rewrite Hi. split; [lia|].
  pose proof (Z.div_mod (a - b) s ltac:(lia)). pose proof (Z.mod_pos_bound (a - b) s ltac:(lia)). lia.
Qed.

Lemma level_idx_eq l b a a' : base_ok l b -> span l b a -> span l b a' ->
  level_idx a l = level_idx a' l <->
  b + Z.of_nat (level_idx a' l) * LEVEL_SIZE l <= a < b + Z.of_nat (level_idx a' l) * LEVEL_SIZE l + LEVEL_SIZE l.
Proof.
  intros Hb Ha Ha'. destruct (level_idx_span l b a Hb Ha) as [_ H1]. split; [by intros <-|].
  intros H2. destruct (size_pow l ltac:(apply Hb)) as (_ & ? & _). nia.
Qed.

Lemma base_child l b i : base_ok (S l) b -> (1 <= l)%nat -> (i < 512)%nat ->
  base_ok l (b + Z.of_nat i * LEVEL_SIZE (S l)).
Proof.
  intros (Hl & Hb & Hmax & Hal) Hl1 Hi. unfold base_ok. rewrite size_S by lia.
  destruct (size_pow (S l) Hl) as (_ & Hs & _). split_and!; [lia..|nia|nia|].
  rewrite Z.mod_add by lia. apply Z.mod_divide; [lia|].
  apply Z.divide_trans with (512 * LEVEL_SIZE (S l)); [apply Z.divide_factor_r|].
  apply Z.mod_divide; lia.
Qed.

Lemma span_child l b i a : (1 <= l <= 3)%nat ->
  b + Z.of_nat i * LEVEL_SIZE (S l) <= a < b + Z.of_nat i * LEVEL_SIZE (S l) + LEVEL_SIZE (S l) <->
  span l (b + Z.of_nat i * LEVEL_SIZE (S l)) a.
Proof. intros Hl. unfold span. by rewrite size_S. Qed.

(** ** Walking through an entry *)

Lemma wf_lookup l b t a : base_ok l b -> wf l b t -> span l b a -> exists x, t !! level_idx a l = Some x.
Proof.
  intros Hb Hw Ha. destruct (level_idx_span l b a Hb Ha) as [Hi _].
  destruct l as [|l]; [done|]. destruct Hw as [Hlen _]. apply lookup_lt_is_Some. lia.
Qed.

Lemma walk_unfold l t a : walk l t a = x ← t !! level_idx a l; walk_entry l x a.
Proof. destruct l; done. Qed.

Lemma walk_insert_ne l t i x a : level_idx a l <> i -> walk l (<[i:=x]> t) a = walk l t a.
Proof. intros Hne. rewrite !walk_unfold. by rewrite list_lookup_insert_ne by done. Qed.

Lemma walk_insert_eq l t x a : (level_idx a l < length t)%nat ->
  walk l (<[level_idx a l:=x]> t) a = walk_entry l x a.
Proof. intros Hlt. rewrite walk_unfold, list_lookup_insert_eq by done. done. Qed.

Lemma wf_insert l b t i x : wf (S l) b t ->
  (match x with
   | Word w => good_word (S l) (b + Z.of_nat i * LEVEL_SIZE (S l)) w
   | Table c => match l with O => False | S _ => wf l (b + Z.of_nat i * LEVEL_SIZE (S l)) c end
   end) -> wf (S l) b (<[i:=x]> t).
Proof.
  intros [Hlen Hw] Hx. split; [by rewrite length_insert|]. intros j y Hy.
  destruct (decide (i = j)) as [<-|Hne].
  - destruct (decide (i < length t)%nat); [|by rewrite lookup_ge_None_2 in Hy by (rewrite length_insert; lia)].
    rewrite list_lookup_insert_eq in Hy by done. by injection Hy as <-.
  - rewrite list_lookup_insert_ne in Hy by done. by apply Hw.
Qed.

(** ** Frame accounting *)

Lemma count_unfold l t : count_tables (S (S l)) t = 1 + zsum (frames_of (S l)) t.
Proof.
  cbn [count_tables]. f_equal.
  assert (forall n, fold_left (fun n x => match x with Word _ => n | Table c => n + count_tables (S l) c end) t n
    = n + zsum (frames_of (S l)) t) as ->; [|lia].
  induction t as [|x t IH]; intros n; simpl; [lia|]. rewrite IH. destruct x; simpl; lia.
Qed.

Lemma count_insert l t i x y : t !! i = Some x ->
  count_tables (S l) (<[i:=y]> t) =
    count_tables (S l) t - (if (l =? 0)%nat then 0 else frames_of l x) + (if (l =? 0)%nat then 0 else frames_of l y).
Proof.
  intros Hx. destruct l as [|l]; [simpl; lia|]. rewrite !count_unfold, (zsum_insert _ _ _ _ _ Hx). simpl. lia.
Qed.

Lemma free_table_frames l t e :
  e_frames (free_table (S l) t e) = e_frames e + count_tables (S l) t /\
  e_min (free_table (S l) t e) = e_min e /\ e_max (free_table (S l) t e) = e_max e.
Proof.
  revert t e. induction l as [|l IH]; intros t e; [simpl; lia|].
  assert (Hf : forall t e, let e' := fold_left (fun e x => match x with Word _ => e | Table c => free_table (S l) c e end) t e in
    e_frames e' = e_frames e + zsum (frames_of (S l)) t /\ e_min e' = e_min e /\ e_max e' = e_max e).
  { clear t e. induction t as [|x t IHt]; intros e; [simpl; lia|]. cbn [fold_left zsum].
    destruct x as [w|c]; cbn [frames_of]; [by apply IHt|].
    destruct (IHt (free_table (S l) c e)) as (E1 & E2 & E3). destruct (IH c e) as (F1 & F2 & F3).
    rewrite E1, E2, E3, F1, F2, F3. lia. }
  specialize (Hf t e). cbv zeta in Hf. destruct Hf as (E1 & E2 & E3).
  rewrite count_unfold.
  change (free_table (S (S l)) t e) with (pt_free (fold_left
    (fun e x => match x with Word _ => e | Table c => free_table (S l) c e end) t e)).
  cbn [pt_free e_frames e_min e_max]. rewrite E1, E2, E3. lia.
Qed.

Lemma count_zero_table l : count_tables (S l) zero_table = 1.
Proof. destruct l as [|l]; [done|]. rewrite count_unfold. rewrite zsum_zero; [done|]. by apply Forall_replicate. Qed.

Lemma wf_zero l b : (1 <= l <= 4)%nat -> wf l b zero_table.
Proof.
  intros Hl. destruct l as [|l]; [lia|]. split; [apply length_replicate|]. intros i x Hx.
  apply lookup_replicate in Hx as [-> _]. split; [lia|done].
Qed.

Lemma walk_zero l a : (level_idx a l < 512)%nat -> walk l zero_table a = Some 0.
Proof. intros Hi. rewrite walk_unfold. unfold zero_table. by rewrite lookup_replicate_2. Qed.

(** ** Splitting a huge leaf *)

Lemma split_huge_spec l b w e : (1 <= l <= 2)%nat ->
  base_ok l b -> good_word (S l) b w -> has w PTE_P = true -> 0 < e_frames e ->
  exists child, split_huge w (S l) e = Some (child, Env (e_min e) (e_max e) (e_frames e - 1)) /\
    wf l b child /\ count_tables l child = 1 /\
    forall a, span l b a -> view l child a = Some (perm w).
Proof.
  intros Hl Hbase [Hw Hg] HP Hfr. pose proof Hbase as Hb. destruct (Hg HP) as (HA & _ & HPS).
  assert ((1 <? S l)%nat = true) as E1 by (apply Nat.ltb_lt; lia). rewrite E1 in HPS.
  unfold split_huge, pt_alloc. rewrite HP, HPS, (proj2 (Z.ltb_lt _ _) Hfr).
  assert (negb ((S l =? 2)%nat || (S l =? 3)%nat) = false) as -> by (destruct l as [|[|[|l]]]; done || lia).
  cbn [negb andb mbind option_bind].
  set (ps := (l =? 2)%nat). replace (S l - 1)%nat with l by lia.
  assert ((if (l =? 2)%nat then PTE_PS else 0) = (if ps then PTE_PS else 0)) as -> by done.
  assert (Hflags : Z.land (Z.land w (not64 PTE_ADDR)) (not64 PTE_PS) = perm w).
  { rewrite !land_not64; [unfold perm; by rewrite Z.ldiff_ldiff_l|done|].
    rewrite land_not64 by done. split; [apply Z.ldiff_nonneg; lia|].
    apply Z.le_lt_trans with w; [|lia]. apply Z.ldiff_le; [lia|].
    apply Z.bits_inj'. intros i Hi. rewrite !Z.ldiff_spec, Z.bits_0.
    destruct (Z.testbit w i); simpl; by rewrite ?andb_false_r. }
  rewrite HA, Hflags. destruct Hb as (Hl4 & Hb0 & Hbm & Hbal).
  destruct (size_pow l Hl4) as (_ & Hsz & _).
  assert (Hword : forall i, (i < 512)%nat ->
    let v := Z.lor (Z.lor (u64 (b + Z.of_nat i * LEVEL_SIZE l)) (perm w)) (if ps then PTE_PS else 0) in
    good_word l (b + Z.of_nat i * LEVEL_SIZE l) v /\ has v PTE_P = true /\ perm v = perm w /\ has v PTE_PS = ps).
  { intros i Hi v. assert (Ha : 0 <= b + Z.of_nat i * LEVEL_SIZE l < 2 ^ 48) by nia.
    destruct (leaf_word (b + Z.of_nat i * LEVEL_SIZE l) (perm w) ps) as (L1 & L2 & L3 & L4 & L5);
      [lia| |by apply perm_range|apply perm_clean; lia|].
    - by apply base_aligned.
    - unfold v. rewrite u64_small by lia. split_and!; [|by rewrite L4, perm_P|done|done].
      split; [done|]. intros _. split_and!; [done|lia|]. rewrite L3. unfold ps. destruct l as [|[|[|l]]]; done || lia. }
  eexists. split; [done|]. set (f := fun i => _). split_and!.
  - destruct l as [|l]; [lia|]. split; [by rewrite length_map, length_seq|]. intros i x Hx.
    apply list_lookup_fmap_Some in Hx as (j & -> & Hj). apply lookup_seq in Hj as [-> Hj].
    apply Hword. lia.
  - destruct l as [|[|l]]; [lia|done|]. rewrite count_unfold, zsum_zero; [done|].
    apply Forall_forall. intros x Hx. apply list_elem_of_fmap in Hx as (j & -> & _). done.
  - intros a Ha. destruct (level_idx_span l b a) as [Hi _]; [done..|]. unfold view.
    rewrite walk_unfold.
    assert (map f (seq 0 512) !! level_idx a l = Some (f (level_idx a l))) as ->.
    { apply list_lookup_fmap_Some. exists (level_idx a l). split; [done|]. apply lookup_seq. lia. }
    destruct (Hword (level_idx a l) Hi) as (_ & V1 & V2 & V3). unfold f. cbn [mbind option_bind walk_entry].
    rewrite V1. cbn [negb]. assert ((l =? 1)%nat || has _ PTE_PS = true) as -> by (rewrite V3; unfold ps; destruct l as [|[|[|l]]]; done || lia).
    by rewrite V1, V2.
Qed.

Lemma count_nonneg l t : 0 <= count_tables l t.
Proof.
  revert t. induction l as [|l IH]; intros t; [done|]. destruct l as [|l]; [done|].
  rewrite count_unfold. assert (0 <= zsum (frames_of (S l)) t); [|lia].
  apply zsum_nonneg, Forall_forall. intros [w|c] _; simpl; [done|apply IH].
Qed.

(** ** Installing a leaf *)

Lemma mark_dirty_mono e s t a : dirty e a -> dirty (mark_dirty e s t) a.
Proof. unfold dirty, mark_dirty. simpl. repeat case_match; lia. Qed.

Lemma mark_dirty_in e s t a : s <= a < t -> dirty (mark_dirty e s t) a.
Proof. unfold dirty, mark_dirty. simpl. repeat case_match; lia. Qed.

Lemma view_seen l t a : view l t a = seen (walk l t a).
Proof. done. Qed.

Lemma lift_installed l b t e x child e1 lo hi p child' e' addr :
  base_ok (S l) b -> (1 <= l)%nat -> wf (S l) b t -> span (S l) b addr ->
  t !! level_idx addr (S l) = Some x ->
  let s := b + Z.of_nat (level_idx addr (S l)) * LEVEL_SIZE (S l) in
  (forall a, span l s a -> view l child a = seen (walk_entry (S l) x a)) ->
  (forall a, span l s a -> ~ dirty e1 a -> walk l child a = walk_entry (S l) x a) ->
  e_frames e1 + count_tables l child = e_frames e + frames_of l x ->
  (forall a, dirty e a -> dirty e1 a) ->
  (forall a, lo <= a < hi -> span l s a) ->
  installed l s child e1 lo hi p child' e' ->
  installed (S l) b t e lo hi p (<[level_idx addr (S l) := Table child']> t) e'.
Proof.
  intros Hb Hl Hw Ha Hx s Hv Hwk Hfr Hd Hsub [I1 I2 I3 I4 I5].
  assert (Hl3 : (1 <= l <= 3)%nat) by (destruct Hb as [? _]; lia).
  assert (Hlen : length t = 512%nat) by apply Hw.
  destruct (level_idx_span _ _ _ Hb Ha) as [Hi Hr].
  assert (Hcase : forall a, span (S l) b a ->
    (level_idx a (S l) = level_idx addr (S l) /\ span l s a) \/
    (level_idx a (S l) <> level_idx addr (S l) /\ ~ span l s a)).
  { intros a Hsa. pose proof (level_idx_eq _ _ a addr Hb Hsa Ha) as Hiff.
    pose proof (span_child l b (level_idx addr (S l)) a Hl3) as Hsc.
    destruct (decide (level_idx a (S l) = level_idx addr (S l))); [left|right]; tauto. }
  assert (Hsame : forall a, level_idx a (S l) = level_idx addr (S l) ->
    walk (S l) (<[level_idx addr (S l):=Table child']> t) a = walk l child' a /\
    walk (S l) t a = walk_entry (S l) x a).
  { intros a E. rewrite <-E, walk_insert_eq by lia. split; [by destruct l; [lia|]|].
    by rewrite walk_unfold, E, Hx. }
  split.
  - apply wf_insert; [done|]. by destruct l; [lia|].
  - intros a Hsa. rewrite !view_seen. destruct (Hcase a Hsa) as [[E Hs]|[E Hs]].
    + destruct (Hsame a E) as [-> ->]. rewrite <-view_seen, (I2 a Hs). by rewrite Hv.
    + rewrite walk_insert_ne by done. case_decide as Hr'; [by apply Hsub in Hr'|done].
  - intros a Hsa Hn Hnd. destruct (Hcase a Hsa) as [[E Hs]|[E Hs]].
    + destruct (Hsame a E) as [-> ->]. rewrite (I3 a Hs Hn Hnd). apply Hwk; [done|]. intros ?. apply Hnd. auto.
    + by rewrite walk_insert_ne.
  - rewrite (count_insert _ _ _ _ _ Hx). destruct l as [|l]; [lia|].
    cbn [Nat.eqb]. change (frames_of (S l) (Table child')) with (count_tables (S l) child'). lia.
  - auto.
Qed.

Lemma slot_base level b addr : base_ok level b -> span level b addr -> addr mod LEVEL_SIZE level = 0 ->
  b + Z.of_nat (level_idx addr level) * LEVEL_SIZE level = addr.
Proof.
  intros Hb Ha Hal. destruct (level_idx_span _ _ _ Hb Ha) as [_ Hr]. destruct Hb as (Hl & Hb0 & _ & Hba).
  destruct (size_pow level Hl) as (_ & Hsz & _). set (s := LEVEL_SIZE level) in *.
  apply Z.mod_divide in Hal as [q Hq]; [|lia]. apply Z.mod_divide in Hba as [r Hr']; [|lia].
  set (i := Z.of_nat (level_idx addr level)) in *. rewrite Hr', Hq in Hr |- *.
  assert (r * 512 + i <= q < r * 512 + i + 1) by nia. nia.
Qed.

Lemma install_here level b t e addr leaf p :
  base_ok level b -> wf level b t -> (1 <= level <= 3)%nat -> span level b addr ->
  addr mod LEVEL_SIZE level = 0 -> leaf_ok level addr leaf p ->
  exists t' e', install_from level t addr level leaf e = Some (t', e') /\
    installed level b t e addr (addr + LEVEL_SIZE level) p t' e' /\ e_frames e <= e_frames e'.
Proof.
  intros Hb Hw Hl Ha Hal Hleaf. destruct (wf_lookup _ _ _ _ Hb Hw Ha) as [x Hx].
  pose proof (slot_base _ _ _ Hb Ha Hal) as Hslot. destruct level as [|l]; [lia|].
  cbn [install_from]. rewrite Hx. cbn [mbind option_bind]. rewrite Nat.eqb_refl.
  set (e' := match x with Word _ => e | Table c => _ end).
  assert (He' : e_frames e' = e_frames e + (if (l =? 0)%nat then 0 else frames_of l x) /\
                e_min e' = e_min e /\ e_max e' = e_max e /\ 0 <= (if (l =? 0)%nat then 0 else frames_of l x)).
  { unfold e'. destruct x as [w|c]; [simpl; destruct (l =? 0)%nat; lia|].
    destruct l as [|l]; [simpl; lia|]. replace (1 <? S (S l))%nat with true by done.
    replace (S (S l) - 1)%nat with (S l) by lia. destruct (free_table_frames l c e) as (E1 & E2 & E3).
    cbn [Nat.eqb frames_of]. rewrite E1, E2, E3. split_and!; try done.
    apply count_nonneg. }
  destruct He' as (F1 & F2 & F3 & F4).
  assert (Hlen : length t = 512%nat) by apply Hw.
  destruct (level_idx_span _ _ _ Hb Ha) as [Hi _].
  do 2 eexists. split; [done|]. split; [|lia]. split.
  - apply wf_insert; [done|]. rewrite Hslot. destruct Hleaf as [[-> _]|[Hg _]]; [split; [lia|done]|done].
  - intros a Hsa. rewrite !view_seen. pose proof (level_idx_eq _ _ a addr Hb Hsa Ha) as Hiff. rewrite Hslot in Hiff.
    case_decide as Hr.
    + apply Hiff in Hr. rewrite <-Hr, walk_insert_eq by lia. cbn [walk_entry].
      destruct Hleaf as [[-> ->]|(Hg & HP & ->)]; [done|]. rewrite HP. cbn [negb].
      destruct Hg as [_ Hg]. destruct (Hg HP) as (_ & _ & HPS). rewrite HPS.
      assert ((S l =? 1)%nat || (1 <? S l)%nat = true) as -> by (destruct l; done). simpl. by rewrite HP.
    + rewrite walk_insert_ne by tauto. done.
  - intros a Hsa Hn _. pose proof (level_idx_eq _ _ a addr Hb Hsa Ha) as Hiff. rewrite Hslot in Hiff.
    rewrite walk_insert_ne; [done|tauto].
  - rewrite (count_insert _ _ _ _ _ Hx). change (frames_of l (Word leaf)) with 0. destruct (l =? 0)%nat; lia.
  - intros a. unfold dirty. by rewrite F2, F3.
Qed.

Lemma aligned_down addr l : (1 <= l <= 4)%nat -> 0 <= addr < 2 ^ 48 ->
  Z.land addr (not64 (LEVEL_SIZE l - 1)) = addr / LEVEL_SIZE l * LEVEL_SIZE l.
Proof.
  intros Hl Ha. destruct (size_pow l Hl) as (-> & _ & Hs). rewrite land_not64 by lia. apply ldiff_ones. lia.
Qed.

Lemma slot_down l b addr : base_ok l b -> span l b addr ->
  Z.land addr (not64 (LEVEL_SIZE l - 1)) = b + Z.of_nat (level_idx addr l) * LEVEL_SIZE l /\
  0 <= b + Z.of_nat (level_idx addr l) * LEVEL_SIZE l /\
  b + Z.of_nat (level_idx addr l) * LEVEL_SIZE l + LEVEL_SIZE l <= 2 ^ 48.
Proof.
  intros Hb Ha. destruct (level_idx_span _ _ _ Hb Ha) as [Hi Hr]. destruct Hb as (Hl & Hb0 & Hbm & Hba).
  destruct (size_pow l Hl) as (_ & Hsz & _).
  assert (0 <= addr < 2 ^ 48) by (unfold span in Ha; lia).
  rewrite aligned_down by done. set (s := LEVEL_SIZE l) in *.
  apply Z.mod_divide in Hba as [q Hq]; [|lia]. set (i := Z.of_nat (level_idx addr l)) in *.
  assert (addr / s = q * 512 + i) as ->.
  { symmetry. apply (Z.div_unique _ _ _ (addr - (b + i * s))); lia. }
  split; [lia|]. split; [lia|]. assert (i * s + s <= 512 * s) by nia. lia.
Qed.

(** The leaf's span lies in the span of every table on its path. *)
Lemma leaf_in_slot l b level addr a : base_ok (S l) b -> span (S l) b addr -> (1 <= level <= l)%nat ->
  addr mod LEVEL_SIZE level = 0 -> addr <= a < addr + LEVEL_SIZE level ->
  span l (b + Z.of_nat (level_idx addr (S l)) * LEVEL_SIZE (S l)) a.
Proof.
  intros Hb Ha Hl Hal Hr. destruct (level_idx_span _ _ _ Hb Ha) as [Hi Hr'].
  assert (Hl4 : (S l <= 4)%nat) by apply Hb. apply span_child; [lia|].
  assert (Hdiv : (LEVEL_SIZE level | LEVEL_SIZE (S l))).
  { clear -Hl Hl4. by_level l; by_level level; try lia.
    all: first [exists 1; done|exists 512; done|exists 262144; done|exists 134217728; done]. }
  destruct Hb as (_ & Hb0 & _ & Hba). destruct (size_pow (S l) ltac:(lia)) as (_ & Hsz & _).
  destruct (size_pow level ltac:(lia)) as (_ & Hsz' & _).
  apply Z.mod_divide in Hba as [r Hr2]; [|lia]. apply Z.mod_divide in Hal as [q Hq]; [|lia].
  destruct Hdiv as [c Hc]. set (i := Z.of_nat (level_idx addr (S l))) in *.
  set (sl := LEVEL_SIZE level) in *. rewrite Hc in *. rewrite Hr2 in *. subst addr.
  assert (0 < c) by nia.
  assert (q < r * (512 * c) + i * c + c) by nia.
  assert (q + 1 <= r * (512 * c) + i * c + c) by lia. nia.
Qed.

Lemma absent_walk l w a : has w PTE_P = false -> walk_entry (S l) (Word w) a = Some 0.
Proof. intros E. simpl. by rewrite E. Qed.

Lemma install_spec l b t e addr level leaf p :
  base_ok l b -> wf l b t -> (1 <= level <= 3)%nat -> (level <= l)%nat -> span l b addr ->
  addr mod LEVEL_SIZE level = 0 -> leaf_ok level addr leaf p ->
  Z.of_nat (l - level) <= e_frames e ->
  exists t' e', install_from l t addr level leaf e = Some (t', e') /\
    installed l b t e addr (addr + LEVEL_SIZE level) p t' e' /\
    e_frames e - Z.of_nat (l - level) <= e_frames e'.
Proof.
  revert b t e. induction l as [|l IH]; intros b t e Hb Hw Hlv Hle Ha Hal Hleaf Hfr; [lia|].
  destruct (decide (S l = level)) as [<-|Hne].
  { destruct (install_here (S l) b t e addr leaf p) as (t' & e' & ? & ? & ?); [done..|]. exists t', e'. split_and!; [done..|lia]. }
  assert (Hl : (1 <= l <= 3)%nat) by (destruct Hb as [? _]; lia).
  destruct (wf_lookup _ _ _ _ Hb Hw Ha) as [x Hx].
  destruct (level_idx_span _ _ _ Hb Ha) as [Hi Hr].
  set (s := b + Z.of_nat (level_idx addr (S l)) * LEVEL_SIZE (S l)) in *.
  assert (Hbs : base_ok l s) by (apply base_child; done || lia).
  assert (Has : span l s addr) by (apply span_child; done || lia).
  assert (Hsub : forall a, addr <= a < addr + LEVEL_SIZE level -> span l s a).
  { intros a. apply leaf_in_slot; done || lia. }
  cbn [install_from]. rewrite Hx. cbn [mbind option_bind].
  destruct (Nat.eqb_spec (S l) level); [done|].
  pose proof Hw as [_ Hwx]. specialize (Hwx _ _ Hx).
  destruct x as [w|c].
  - destruct (has w PTE_P) eqn:HP; cbn [negb].
    + pose proof Hwx as [_ Hg]. destruct (Hg HP) as (HA & Hl3 & HPS).
      rewrite HPS. replace (1 <? S l)%nat with true by (symmetry; apply Nat.ltb_lt; lia).
      destruct (split_huge_spec l s w e) as (child & Hsp & Hwc & Hcnt & Hvc); [lia|done..|lia|].
      rewrite Hsp. cbn [mbind option_bind].
      destruct (slot_down _ _ _ Hb Ha) as (-> & Hs0 & Hs1). fold s. rewrite u64_small by (fold s in Hs0, Hs1; lia).
      set (e1 := mark_dirty _ _ _).
      destruct (IH s child e1) as (t' & e' & Hq & Hins & Hfr'); [done|done|done|lia|done|done|done|simpl; lia|].
      rewrite Hq. cbn [mbind option_bind]. do 2 eexists. split; [done|]. split; [|simpl in Hfr'; lia].
      eapply (lift_installed l b t e (Word w) child e1); [done|lia|done..| | | | |exact Hsub|exact Hins].
      * intros a Hsa. rewrite (Hvc a Hsa). simpl. rewrite HP, HPS. cbn [negb].
        replace (1 <? S l)%nat with true by (symmetry; apply Nat.ltb_lt; lia). rewrite orb_true_r. simpl. by rewrite HP.
      * intros a Hsa Hnd. exfalso. apply Hnd, mark_dirty_in. fold s. apply span_child in Hsa; lia.
      * simpl. lia.
      * intros a Hda. by apply mark_dirty_mono.
    + destruct (Z.eqb_spec leaf 0) as [->|Hnz].
      * do 2 eexists. split; [done|]. split; [|lia]. destruct Hleaf as [[_ ->]|(_ & HP0 & _)]; [|done].
        assert (Habs : forall a, span l s a -> walk (S l) t a = Some 0).
        { intros a Hsa. rewrite walk_unfold.
          assert (level_idx a (S l) = level_idx addr (S l)) as ->.
          { apply (level_idx_eq _ b); [done| |done|by apply span_child].
            apply span_child in Hsa; [|lia]. fold s in Hsa. unfold span in *.
            destruct Hb as (_ & _ & _ & _). destruct (size_pow (S l) ltac:(lia)) as (_ & ? & _). unfold s in *. nia. }
          rewrite Hx. simpl. by rewrite HP. }
        split; try done. intros a Hsa. case_decide as Hd; [|done]. unfold view. by rewrite (Habs a (Hsub a Hd)).
      * unfold pt_alloc. rewrite (proj2 (Z.ltb_lt _ _)) by lia. cbn [mbind option_bind].
        set (e1 := Env _ _ _).
        destruct (IH s zero_table e1) as (t' & e' & Hq & Hins & Hfr'); [done|by apply wf_zero; lia|done|lia|done|done|done|simpl; lia|].
        rewrite Hq. cbn [mbind option_bind]. do 2 eexists. split; [done|]. split; [|simpl in Hfr'; lia].
        eapply (lift_installed l b t e (Word w) zero_table e1); [done|lia|done..| | | | |exact Hsub|exact Hins].
        -- intros a Hsa. rewrite absent_walk by done. rewrite view_seen, walk_zero; [done|].
           by apply (level_idx_span _ _ _ Hbs).
        -- intros a Hsa _. rewrite absent_walk by done. apply walk_zero. by apply (level_idx_span _ _ _ Hbs).
        -- destruct l as [|l]; [lia|]. rewrite count_zero_table. simpl. lia.
        -- done.
  - assert (Hwc : wf l s c) by (destruct l; [lia|done]).
    destruct (IH s c e) as (t' & e' & Hq & Hins & Hfr'); [done|done|done|lia|done|done|done|lia|].
    rewrite Hq. cbn [mbind option_bind]. do 2 eexists. split; [done|]. split; [|lia].
    eapply (lift_installed l b t e (Table c) c e); [done|lia|done..| | |done|done|exact Hsub|exact Hins].
    + intros a _. by destruct l; [lia|].
    + intros a _ _. by destruct l; [lia|].
Qed.

(** ** The installation loop *)

(** Leaf bits computed from flags: absent, or present with neither address nor PS bits. *)
Definition leaf_base_ok (lb : Z) : Prop :=
  lb = 0 \/ (0 <= lb < 2 ^ 64 /\ Z.ldiff lb (Z.lor PTE_ADDR PTE_PS) = lb /\ has lb PTE_P = true).

Lemma leaf_flags_ok f lb : leaf_flags_to_pte f = Some lb -> leaf_base_ok lb.
Proof.
  unfold leaf_flags_to_pte, leaf_base_ok. intros H.
  repeat case_match; simplify_eq; try (by left); right; split_and!; vm_compute; congruence.
Qed.

Lemma leaf_base_leaf lb level a : leaf_base_ok lb -> (1 <= level <= 3)%nat -> 0 <= a < 2 ^ 48 ->
  a mod LEVEL_SIZE level = 0 ->
  leaf_ok level a (if has lb PTE_P then Z.lor (Z.lor a lb) (if (1 <? level)%nat then PTE_PS else 0) else 0) (flag_view lb).
Proof.
  intros Hlb Hl Ha Hal. unfold flag_view. destruct Hlb as [->|(Hr & Hc & HP)]; [by left|]. rewrite HP. right.
  destruct (leaf_word a lb (1 <? level)%nat) as (L1 & L2 & L3 & L4 & L5); [lia| |done..|].
  { apply Z.mod_divide; [lia|]. apply Z.divide_trans with (LEVEL_SIZE level); [apply size_div; lia|].
    apply Z.mod_divide; [|done]. destruct (size_pow level ltac:(lia)) as (_ & ? & _). lia. }
  rewrite <-has_P in L4. split_and!; [|by rewrite L4|by rewrite L2]. split; [done|]. intros _. split_and!; [done|lia|done].
Qed.

Lemma installed_trans l b t e lo mid hi p t1 e1 t2 e2 : lo <= mid <= hi ->
  installed l b t e lo mid p t1 e1 -> installed l b t1 e1 mid hi p t2 e2 ->
  installed l b t e lo hi p t2 e2.
Proof.
  intros Hm [A1 A2 A3 A4 A5] [B1 B2 B3 B4 B5]. split; [done|..].
  - intros a Ha. rewrite (B2 a Ha), (A2 a Ha). repeat case_decide; done || lia.
  - intros a Ha Hn Hd. rewrite B3 by (done || lia). apply A3; [done|lia|]. intros ?. apply Hd. auto.
  - lia.
  - auto.
Qed.

Lemma installed_refl l b t e a p : wf l b t -> installed l b t e a a p t e.
Proof. intros Hw. split; try done. intros x _. case_decide; [lia|done]. Qed.

Lemma root_base : base_ok 4 0.
Proof. split; [lia|]. vm_compute. intuition congruence. Qed.

Lemma install_leaf_root root e addr level leaf p :
  wf 4 0 root -> (1 <= level <= 3)%nat -> 0 <= addr -> addr + LEVEL_SIZE level <= 2 ^ 48 ->
  addr mod LEVEL_SIZE level = 0 -> leaf_ok level addr leaf p -> 3 <= e_frames e ->
  exists root' e', install_leaf root addr level leaf e = Some (root', e') /\
    installed 4 0 root e addr (addr + LEVEL_SIZE level) p root' e' /\ e_frames e - 3 <= e_frames e'.
Proof.
  intros Hw Hl Ha0 Ha1 Hal Hleaf Hfr. unfold install_leaf.
  assert ((1 <=? level)%nat && (level <=? 3)%nat = true) as -> by (destruct level as [|[|[|[|]]]]; done || lia).
  destruct (size_pow level ltac:(lia)) as (Hp & Hsz & Hsh). cbn [negb].
  assert (Z.land addr (LEVEL_SIZE level - 1) = 0) as ->.
  { rewrite Hp in *. replace (2 ^ LEVEL_SHIFT level - 1) with (Z.ones (LEVEL_SHIFT level)) by (rewrite Z.ones_equiv; lia).
    rewrite Z.land_ones by lia. done. }
  simpl negb.
  destruct (install_spec 4 0 root e addr level leaf p) as (t' & e' & Hq & Hi & Hf); try done; try lia.
  - apply root_base.
  - unfold span. change (512 * LEVEL_SIZE 4) with (2 ^ 48). lia.
  - exists t', e'. split_and!; [done..|lia].
Qed.

Lemma leaf_count_nonneg fuel a stop : 0 <= leaf_count fuel a stop.
Proof.
  revert a. induction fuel as [|fuel IH]; intros a; simpl; [done|]. repeat case_match; try lia;
    match goal with |- context [leaf_count fuel ?y stop] => specialize (IH y) end; lia.
Qed.

Lemma flag_loop_spec fuel root a stop lb e :
  wf 4 0 root -> leaf_base_ok lb -> 0 <= a <= stop -> stop <= 2 ^ 48 ->
  a mod PAGE_SIZE = 0 -> stop mod PAGE_SIZE = 0 -> (stop - a) / PAGE_SIZE <= Z.of_nat fuel ->
  3 * leaf_count fuel a stop <= e_frames e ->
  exists root' e', flag_loop fuel root a stop lb e = Some (root', e') /\
    installed 4 0 root e a stop (flag_view lb) root' e'.
Proof.
  revert root a e. induction fuel as [|fuel IH]; intros root a e Hw Hlb Ha Hs Hal Hsal Hfuel Hfr.
  { assert (a = stop) as -> by (unfold PAGE_SIZE in *; clear -Ha Hal Hsal Hfuel; div_lia). cbn [flag_loop]. rewrite Z.ltb_irrefl. simpl.
    exists root, e. split; [done|by apply installed_refl]. }
  cbn [flag_loop leaf_count] in *. destruct (Z.ltb_spec a stop) as [Hlt|]; cbn [negb] in *.
  2:{ assert (a = stop) as -> by lia. exists root, e. split; [done|by apply installed_refl]. }
  assert (Hstep : forall level, (1 <= level <= 3)%nat -> a mod LEVEL_SIZE level = 0 -> LEVEL_SIZE level <= stop - a ->
    3 * (1 + leaf_count fuel (a + LEVEL_SIZE level) stop) <= e_frames e ->
    exists root' e', ('(root, e) ← install_leaf root a level
        (if has lb PTE_P then Z.lor (Z.lor a lb) (if (1 <? level)%nat then PTE_PS else 0) else 0) e;
      flag_loop fuel root (u64 (a + LEVEL_SIZE level)) stop lb e) = Some (root', e') /\
      installed 4 0 root e a stop (flag_view lb) root' e').
  { intros level Hl Hla Hrem Hcnt.
    assert (0 <= leaf_count fuel (a + LEVEL_SIZE level) stop) by apply leaf_count_nonneg.
    destruct (size_pow level ltac:(lia)) as (_ & Hsz & _).
    destruct (install_leaf_root root e a level
      (if has lb PTE_P then Z.lor (Z.lor a lb) (if (1 <? level)%nat then PTE_PS else 0) else 0) (flag_view lb))
      as (r1 & e1 & Hq & Hi & Hf); [done..|lia|lia|done|by apply leaf_base_leaf; lia || done|lia|].
    rewrite Hq. cbn [mbind option_bind]. rewrite u64_small by lia.
    assert (Hd : (a + LEVEL_SIZE level) mod PAGE_SIZE = 0).
    { destruct (size_div level ltac:(lia)) as [c Hc]. rewrite Hc. unfold PAGE_SIZE in *. rewrite Z.mod_add by lia. done. }
    destruct (IH r1 (a + LEVEL_SIZE level) e1) as (r2 & e2 & Hq2 & Hi2); [apply Hi|done|lia|done|done|done| |lia|].
    - unfold PAGE_SIZE in *. clear -Hfuel Hsz Hrem. div_lia.
    - exists r2, e2. split; [done|]. eapply installed_trans; [|exact Hi|exact Hi2]. lia. }
  destruct ((a mod GIB =? 0) && (GIB <=? stop - a)) eqn:E3.
  { apply andb_prop in E3 as [E3%Z.eqb_eq E3'%Z.leb_le]. apply (Hstep 3%nat); done || lia. }
  destruct ((a mod (2 * MIB) =? 0) && (2 * MIB <=? stop - a)) eqn:E2.
  { apply andb_prop in E2 as [E2%Z.eqb_eq E2'%Z.leb_le]. apply (Hstep 2%nat); done || lia. }
  destruct (Hstep 1%nat) as (r & e' & Hq & Hi); [lia|done|unfold LEVEL_SIZE, PAGE_SIZE in *; clear -Hlt Hal Hsal Ha; div_lia|exact Hfr|].
  exists r, e'. split; [|done]. rewrite <-Hq. simpl. by rewrite Z.lor_0_r.
Qed.

(** ** Merging *)

Lemma merge_scan_sound cl first step i t aa al aa' al' :
  merge_scan cl first step i t aa al = (aa', al') ->
  (aa' = true -> aa = true /\ Forall (fun x => exists w, x = Word w /\ has w PTE_P = false) t) /\
  (al' = true -> al = true /\ forall j x, t !! j = Some x -> exists c, x = Word c /\ has c PTE_P = true /\
     Z.land c (not64 PTE_ADDR) = Z.land first (not64 PTE_ADDR)).
Proof.
  revert i aa al. induction t as [|x t IH]; intros i aa al Hm; cbn [merge_scan] in Hm.
  { simplify_eq. split; intros ->; split; done. }
  destruct (negb (aa || al)) eqn:Ex.
  { simplify_eq. destruct aa', al'; done. }
  destruct x as [c|c].
  - destruct (has c PTE_P) eqn:HP; cbn [negb] in Hm.
    + destruct (IH _ _ _ Hm) as [IA IL]. split.
      * intros E. by destruct (IA E).
      * intros E. destruct (IL E) as [E1 IL']. destruct (_ || _) eqn:Eb in E1; [done|].
        apply orb_false_elim in Eb as [Eb _]. apply orb_false_elim in Eb as [_ Eb].
        apply negb_false_iff, Z.eqb_eq in Eb. split; [done|].
        intros [|j] x Hx; simplify_eq/=; [eauto|by apply (IL' j)].
    + destruct (IH _ _ _ Hm) as [IA IL]. split.
      * intros E. destruct (IA E) as [-> IA']. split; [done|]. constructor; eauto.
      * intros E. by destruct (IL E).
  - destruct (IH _ _ _ Hm) as [IA IL]. split; intros E; [by destruct (IA E)|by destruct (IL E)].
Qed.

(** Replacing one entry by another with the same view, its slot marked dirty. *)
Lemma replace_entry l b t e x y e' addr :
  base_ok (S l) b -> wf (S l) b t -> span (S l) b addr -> t !! level_idx addr (S l) = Some x ->
  let s := b + Z.of_nat (level_idx addr (S l)) * LEVEL_SIZE (S l) in
  (match y with
   | Word w => good_word (S l) s w
   | Table c => match l with O => False | S _ => wf l s c end
   end) ->
  (forall a, s <= a < s + LEVEL_SIZE (S l) -> seen (walk_entry (S l) y a) = seen (walk_entry (S l) x a)) ->
  (forall a, s <= a < s + LEVEL_SIZE (S l) -> dirty e' a) -> (forall a, dirty e a -> dirty e' a) ->
  e_frames e' + (if (l =? 0)%nat then 0 else frames_of l y) = e_frames e + (if (l =? 0)%nat then 0 else frames_of l x) ->
  installed (S l) b t e addr addr None (<[level_idx addr (S l) := y]> t) e'.
Proof.
  intros Hb Hw Ha Hx s Hy Hv Hd Hm Hfr. assert (Hlen : length t = 512%nat) by apply Hw.
  destruct (level_idx_span _ _ _ Hb Ha) as [Hi Hr].
  assert (Hcase : forall a, span (S l) b a ->
    (level_idx a (S l) = level_idx addr (S l) /\ s <= a < s + LEVEL_SIZE (S l)) \/
    level_idx a (S l) <> level_idx addr (S l)).
  { intros a Hsa. pose proof (level_idx_eq _ _ a addr Hb Hsa Ha).
    destruct (decide (level_idx a (S l) = level_idx addr (S l))); [left|right]; tauto. }
  split.
  - by apply wf_insert.
  - intros a Hsa. case_decide; [lia|]. rewrite !view_seen. destruct (Hcase a Hsa) as [[E Hs]|E].
    + rewrite <-E, walk_insert_eq by lia. rewrite Hv by done. by rewrite walk_unfold, E, Hx.
    + by rewrite walk_insert_ne.
  - intros a Hsa _ Hnd. destruct (Hcase a Hsa) as [[E Hs]|E]; [by exfalso; apply Hnd, Hd|].
    by rewrite walk_insert_ne.
  - rewrite (count_insert _ _ _ _ _ Hx). lia.
  - done.
Qed.

Lemma merged_word w : 0 <= w < 2 ^ 64 ->
  Z.lor (Z.lor (Z.land w PTE_ADDR) (Z.land w (not64 PTE_ADDR))) PTE_PS =
  Z.lor (Z.lor (Z.land w PTE_ADDR) (perm w)) PTE_PS.
Proof.
  intros Hw. rewrite land_not64 by done. unfold perm. entry_bits i Hi.
  destruct (Z.testbit w i), (12 <=? i), (i <? 52), (i =? 7); done.
Qed.

Lemma leaf_table_count l t : (forall j x, t !! j = Some x -> exists c, x = Word c) -> count_tables (S l) t = 1.
Proof.
  intros Ht. destruct l as [|l]; [done|]. rewrite count_unfold, zsum_zero; [done|].
  apply Forall_lookup. intros j x Hx. destruct (Ht j x Hx) as [c ->]. done.
Qed.

Lemma same_flags_perm c w : 0 <= c < 2 ^ 64 -> 0 <= w < 2 ^ 64 ->
  Z.land c (not64 PTE_ADDR) = Z.land w (not64 PTE_ADDR) -> perm c = perm w.
Proof.
  intros Hc Hw. rewrite !land_not64 by done. unfold perm. rewrite <-!Z.ldiff_ldiff_l. by intros ->.
Qed.

Lemma installed_id l b t e a : wf l b t -> installed l b t e a a None t e.
Proof. apply installed_refl. Qed.

Lemma walk_leaf_table l s t (w : Z) a : base_ok l s -> wf l s t -> span l s a ->
  (forall j x, t !! j = Some x -> exists c, x = Word c /\ has c PTE_P = true /\
     Z.land c (not64 PTE_ADDR) = Z.land w (not64 PTE_ADDR)) ->
  0 <= w < 2 ^ 64 -> view l t a = Some (perm w).
Proof.
  intros Hb Hw Ha Hall Hww. destruct (wf_lookup _ _ _ _ Hb Hw Ha) as [x Hx].
  destruct (Hall _ _ Hx) as (c & -> & HP & Hf). destruct l as [|l]; [done|].
  destruct Hw as [_ Hw]. specialize (Hw _ _ Hx). cbv beta iota in Hw. destruct Hw as [Hc Hg].
  destruct (Hg HP) as (_ & _ & HPS). rewrite view_seen, walk_unfold, Hx. cbn [mbind option_bind walk_entry].
  rewrite HP, HPS. cbn [negb]. assert ((S l =? 1)%nat || (1 <? S l)%nat = true) as -> by by destruct l.
  simpl. rewrite HP. f_equal. by apply same_flags_perm.
Qed.

Lemma try_merge_child_spec l b t e addr : (1 <= l)%nat -> base_ok (S l) b -> wf (S l) b t -> span (S l) b addr ->
  let '(t', e', _) := try_merge_child t (S l) addr e in installed (S l) b t e addr addr None t' e'.
Proof.
  intros Hl Hb Hw Ha. unfold try_merge_child.
  destruct (t !! level_idx addr (S l)) as [[w|child]|] eqn:Hx; try by apply installed_id.
  replace (S l - 1)%nat with l by lia.
  destruct (merge_scan l (first_word child) (LEVEL_SIZE l) 0 child true true) as [aa al] eqn:Hs.
  destruct (merge_scan_sound _ _ _ _ _ _ _ _ _ Hs) as [HA HL].
  destruct (level_idx_span _ _ _ Hb Ha) as [Hi Hr].
  destruct (slot_down _ _ _ Hb Ha) as (Hsd & Hs0 & Hs1).
  pose proof Hw as [_ Hwx]. specialize (Hwx _ _ Hx). cbv beta iota in Hwx.
  set (s := b + Z.of_nat (level_idx addr (S l)) * LEVEL_SIZE (S l)) in *.
  assert (Hwc : wf l s child) by (destruct l; [lia|done]). clear Hwx.
  assert (Hl4 : (S l <= 4)%nat) by apply Hb.
  assert (Hbs : base_ok l s) by (apply base_child; done).
  rewrite Hsd, u64_small by lia.
  destruct aa.
  { destruct (HA eq_refl) as [_ Habs]. apply (replace_entry l b t e (Table child) (Word 0)); try done.
    - intros a Hsa. apply span_child in Hsa; [|lia]. simpl. destruct l as [|l]; [lia|].
      destruct (wf_lookup _ _ _ _ Hbs Hwc Hsa) as [y Hy]. rewrite walk_unfold, Hy.
      rewrite Forall_forall in Habs. destruct (Habs y) as (v & -> & Hv); [by eapply list_elem_of_lookup_2|].
      simpl. by rewrite Hv.
    - intros a Hsa. by apply mark_dirty_in.
    - intros a Hda. by apply mark_dirty_mono.
    - destruct l as [|l]; [lia|]. cbn [Nat.eqb frames_of mark_dirty pt_free e_frames].
      rewrite leaf_table_count; [lia|]. intros j y Hy. rewrite Forall_forall in Habs.
      destruct (Habs y) as (v & -> & _); [by eapply list_elem_of_lookup_2|eauto]. }
  destruct al; [|by apply installed_id]. destruct (Nat.leb_spec (S l) 3); [|by apply installed_id]. cbn [andb].
  destruct (HL eq_refl) as [_ Hall]. clear HA HL.
  assert (Hlen : length child = 512%nat) by (destruct l; [lia|apply Hwc]).
  destruct child as [|[w|c0] rest]; [done| |by destruct (Hall 0%nat _ eq_refl) as (? & ? & _)].
  cbn [first_word] in *. destruct (Hall 0%nat _ eq_refl) as (w' & E & HP & _). injection E as <-.
  assert (Hgw : good_word l s w).
  { destruct l as [|l]; [lia|]. destruct Hwc as [_ Hwc]. specialize (Hwc 0%nat _ eq_refl). cbv beta iota in Hwc.
    by rewrite Z.add_0_r in Hwc. }
  destruct Hgw as [Hww Hgw]. destruct (Hgw HP) as (HAd & _ & _).
  destruct (negb _); [by apply installed_id|]. rewrite merged_word, HAd by done.
  destruct (leaf_word s (perm w) true) as (L1 & L2 & L3 & L4 & L5);
    [lia|pose proof (base_aligned l s 0 Hbs) as E; by rewrite Z.add_0_r in E|by apply perm_range|apply perm_clean; lia|].
  rewrite perm_P, HP in L4.
  apply (replace_entry l b t e (Table (Word w :: rest))); try done.
  - split; [done|]. intros _. split_and!; [done|lia|]. rewrite L3. symmetry. apply Nat.ltb_lt. lia.
  - intros a Hsa. apply span_child in Hsa; [|lia].
    assert (Hva : view l (Word w :: rest) a = Some (perm w)) by (eapply walk_leaf_table; done).
    rewrite view_seen in Hva. destruct l as [|l]; [lia|]. change (walk_entry (S (S l)) (Table (Word w :: rest)) a) with (walk (S l) (Word w :: rest) a).
    rewrite Hva. cbn [walk_entry]. rewrite L3, L4. cbn [negb]. rewrite orb_true_r. simpl. by rewrite L4, L2.
  - intros a Hsa. by apply mark_dirty_in.
  - intros a Hda. by apply mark_dirty_mono.
  - destruct l as [|l]; [lia|]. cbn [Nat.eqb mark_dirty pt_free e_frames].
    change (frames_of (S l) (Table (Word w :: rest))) with (count_tables (S l) (Word w :: rest)).
    rewrite leaf_table_count; [simpl frames_of; lia|]. intros j y Hy. destruct (Hall j y Hy) as (c & -> & _). eauto.
Qed.

Lemma merge_from_spec l b t e addr : (1 <= l)%nat -> base_ok l b -> wf l b t -> span l b addr ->
  let '(t', e', _) := merge_from l t addr e in installed l b t e addr addr None t' e'.
Proof.
  revert b t e. induction l as [|[|l] IH]; intros b t e Hl Hb Hw Ha; [lia|by apply installed_id|].
  cbn [merge_from]. destruct (t !! level_idx addr (S (S l))) as [[w|child]|] eqn:Hx; try by apply installed_id.
  destruct (level_idx_span _ _ _ Hb Ha) as [Hi Hr].
  assert (Hl4 : (S (S l) <= 4)%nat) by apply Hb.
  set (s := b + Z.of_nat (level_idx addr (S (S l))) * LEVEL_SIZE (S (S l))) in *.
  assert (Hbs : base_ok (S l) s) by (apply base_child; done || lia).
  assert (Has : span (S l) s addr) by (apply span_child; done || lia).
  pose proof Hw as [_ Hwx]. specialize (Hwx _ _ Hx). cbv beta iota in Hwx.
  specialize (IH s child e ltac:(lia) Hbs Hwx Has).
  change (match l with 0%nat => _ | S _ => _ end) with (merge_from (S l) child addr e).
  destruct (merge_from (S l) child addr e) as [[child' e1] more].
  assert (Hi1 : installed (S (S l)) b t e addr addr None (<[level_idx addr (S (S l)):=Table child']> t) e1).
  { eapply (lift_installed (S l) b t e (Table child) child e); try done; [lia|]. intros a ?. lia. }
  destruct more; [|done]. 
  pose proof (try_merge_child_spec (S l) b (<[level_idx addr (S (S l)):=Table child']> t) e1 addr ltac:(lia) Hb ltac:(apply Hi1) Ha) as Hm.
  destruct (try_merge_child _ _ _ e1) as [[t2 e2] m2]. eapply installed_trans; [|exact Hi1|exact Hm]. lia.
Qed.

(** ** Address spaces *)

Lemma root_span a : span 4 0 a <-> 0 <= a < 2 ^ 48.
Proof. unfold span. change (512 * LEVEL_SIZE 4) with (2 ^ 48). lia. Qed.

Lemma try_merge_path_spec root e addr : wf 4 0 root -> 0 <= addr < 2 ^ 48 ->
  let '(root', e') := try_merge_path root addr e in installed 4 0 root e addr addr None root' e'.
Proof.
  intros Hw Ha. unfold try_merge_path.
  pose proof (merge_from_spec 4 0 root e addr ltac:(lia) root_base Hw ltac:(by apply root_span)) as H.
  by destruct (merge_from 4 root addr e) as [[root' e'] m].
Qed.

(** Composing with a step that changes no view. *)
Lemma installed_then l b t e lo hi p t1 e1 a t2 e2 :
  installed l b t e lo hi p t1 e1 -> installed l b t1 e1 a a None t2 e2 -> installed l b t e lo hi p t2 e2.
Proof.
  intros [A1 A2 A3 A4 A5] [B1 B2 B3 B4 B5]. split; [done|..].
  - intros x Hx. rewrite (B2 x Hx). rewrite decide_False by lia. by apply A2.
  - intros x Hx Hn Hd. rewrite B3 by (done || lia). apply A3; [done|done|]. intros ?. apply Hd. auto.
  - lia.
  - auto.
Qed.

Lemma as_flag_spec s addr stop flags lb frames :
  wf_as s -> leaf_flags_to_pte flags = Some lb -> 0 <= addr <= stop -> stop <= 2 ^ 48 ->
  addr mod PAGE_SIZE = 0 -> stop mod PAGE_SIZE = 0 ->
  3 * leaf_count (Z.to_nat ((stop - addr) / PAGE_SIZE)) addr stop <= frames ->
  exists s' frames' e', as_flag s addr stop flags frames = Some (s', frames') /\
    installed 4 0 (as_root s) (Env (as_min_dirty s) (as_max_dirty s) frames) addr stop (flag_view lb) (as_root s') e' /\
    e' = Env (as_min_dirty s') (as_max_dirty s') frames' /\ as_pins s' = as_pins s /\
    forall a, addr <= a < stop -> dirty e' a.
Proof.
  intros Hw Hlb Ha Hs Hal Hsal Hfr. unfold as_flag.
  rewrite (proj2 (Z.eqb_eq _ _) Hal), (proj2 (Z.eqb_eq _ _) Hsal). cbn [andb negb].
  destruct (Z.ltb_spec stop addr); [lia|]. destruct (Z.eqb_spec addr stop) as [->|Hne].
  { eexists _, _, _. split; [done|]. split; [by apply installed_refl|]. split; [done|]. split; [done|]. lia. }
  rewrite Hlb. cbn [mbind option_bind].
  destruct (flag_loop_spec (Z.to_nat ((stop - addr) / PAGE_SIZE)) (as_root s) addr stop lb
    (Env (as_min_dirty s) (as_max_dirty s) frames)) as (r1 & e1 & Hq & Hi);
    [done|by eapply leaf_flags_ok|lia|done..| |done|].
  { rewrite Z2Nat.id; [lia|]. apply Z.div_pos; unfold PAGE_SIZE; lia. }
  rewrite Hq. cbn [mbind option_bind]. set (e2 := mark_dirty e1 addr stop).
  assert (Hi2 : installed 4 0 (as_root s) (Env (as_min_dirty s) (as_max_dirty s) frames) addr stop (flag_view lb) r1 e2).
  { destruct Hi as [A1 A2 A3 A4 A5]. split; try done.
    - intros a Hsa Hn Hd. apply A3; [done|done|]. intros ?. by apply Hd, mark_dirty_mono.
    - intros a Hda. by apply mark_dirty_mono, A5. }
  pose proof (try_merge_path_spec r1 e2 addr ltac:(apply Hi) ltac:(lia)) as Hm1.
  destruct (try_merge_path r1 addr e2) as [r2 e3].
  pose proof (try_merge_path_spec r2 e3 (stop - PAGE_SIZE) ltac:(apply Hm1)) as Hm2.
  destruct (try_merge_path r2 (stop - PAGE_SIZE) e3) as [r3 e4].
  specialize (Hm2 ltac:(unfold PAGE_SIZE in *; clear -Ha Hs Hal Hsal Hne; div_lia)).
  exists (AddressSpace r3 (e_min e4) (e_max e4) (as_pins s)), (e_frames e4), e4. simpl.
  split; [done|]. split; [by eapply installed_then; [eapply installed_then|]|]. split; [by destruct e4|]. split; [done|].
  intros a Hr. apply Hm2, Hm1. by apply mark_dirty_in.
Qed.

Lemma pte_to_flags_perm w : pte_to_flags w = pte_to_flags (perm w).
Proof.
  unfold pte_to_flags. rewrite !has_P, !has_RW, !has_US, !has_NX, !has_PCD, !has_PWT. unfold perm.
  rewrite !Z.ldiff_spec, !Z.lor_spec. by rewrite !andb_true_r.
Qed.

Lemma wf_walk l b t a : base_ok l b -> wf l b t -> span l b a -> exists w, walk l t a = Some w /\ (has w PTE_P = false -> w = 0).
Proof.
  revert b t. induction l as [|l IH]; intros b t Hb Hw Ha; [done|].
  destruct (wf_lookup _ _ _ _ Hb Hw Ha) as [x Hx]. rewrite walk_unfold, Hx. cbn [mbind option_bind].
  pose proof Hw as [_ Hwx]. specialize (Hwx _ _ Hx). destruct (level_idx_span _ _ _ Hb Ha) as [Hi Hr]. destruct x as [w|c].
  - cbn [walk_entry]. destruct (has w PTE_P) eqn:HP; cbn [negb]; [|by exists 0].
    destruct Hwx as [_ Hg]. destruct (Hg HP) as (_ & _ & HPS). rewrite HPS.
    assert ((S l =? 1)%nat || (1 <? S l)%nat = true) as -> by by destruct l. exists w. split; [done|congruence].
  - destruct l as [|l]; [done|]. cbn [walk_entry]. assert (Hl4 : (S (S l) <= 4)%nat) by apply Hb.
    apply (IH (b + Z.of_nat (level_idx a (S (S l))) * LEVEL_SIZE (S (S l)))); [apply base_child; done || lia|done|].
    apply span_child; lia || done.
Qed.

Lemma getinfo_view s a : wf_as s -> 0 <= a < 2 ^ 48 ->
  as_getinfo s a = Some (match as_view s a with Some p => (pte_to_flags p, true) | None => (0, false) end).
Proof.
  intros Hw Ha. unfold as_getinfo, as_view, view.
  destruct (wf_walk 4 0 (as_root s) a root_base Hw ltac:(by apply root_span)) as (w & -> & Hz).
  cbn [mbind option_bind]. destruct (has w PTE_P) eqn:HP; [|done]. by rewrite <-pte_to_flags_perm.
Qed.

(** Every flag word without [PAGE_WC] comes back from the leaf bits it becomes. *)
Lemma flags_roundtrip f lb : 0 <= f < 64 -> leaf_flags_to_pte f = Some lb ->
  Z.land f PAGE_CACHE_MASK <> PAGE_WC ->
  match flag_view lb with Some p => pte_to_flags p = f | None => Z.land f 15 = 0 end.
Proof.
  intros Hf.
  assert (Hall : Forall (fun f => forall lb, leaf_flags_to_pte f = Some lb -> Z.land f PAGE_CACHE_MASK <> PAGE_WC ->
    match flag_view lb with Some p => pte_to_flags p = f | None => Z.land f 15 = 0 end) (map Z.of_nat (seq 0 64))).
  { repeat constructor; intros lb' H; vm_compute in H; try congruence; injection H as <-; intros Hc; vm_compute; vm_compute in Hc; congruence. }
  rewrite Forall_forall in Hall. apply Hall. apply list_elem_of_fmap. exists (Z.to_nat f).
  split; [lia|]. apply elem_of_seq. lia.
Qed.


(** ** Cloning *)

Lemma frames_sum_nonneg l t : 0 <= zsum (frames_of l) t.
Proof. apply zsum_nonneg, Forall_forall. intros [|c] _; [done|apply count_nonneg]. Qed.

Lemma same_unfold l t t' : same (S (S l)) t t' <->
  Forall2 (fun x y =>
    match x, y with
    | Word w, Word w' => w' = if has w PTE_P then w else 0
    | Table c, Table c' => same (S l) c c'
    | _, _ => False
    end) t t'.
Proof. done. Qed.

Lemma clone_unfold l src e : clone_table (S (S l)) src e =
  '(_, e) ← pt_alloc e;
  fold_left (fun acc x =>
    '(dst, e) ← acc;
    match x with
    | Word w => Some (dst ++ [Word (if has w PTE_P then w else 0)], e)
    | Table c => '(c, e) ← clone_table (S l) c e; Some (dst ++ [Table c], e)
    end) src (Some ([], e)).
Proof. done. Qed.

Lemma clone_fold l src : forall dst e,
  (forall c e, count_tables (S l) c <= e_frames e ->
    exists c', clone_table (S l) c e = Some (c', Env (e_min e) (e_max e) (e_frames e - count_tables (S l) c)) /\ same (S l) c c') ->
  zsum (frames_of (S l)) src <= e_frames e ->
  exists ys, fold_left (fun acc x =>
      '(dst, e) ← acc;
      match x with
      | Word w => Some (dst ++ [Word (if has w PTE_P then w else 0)], e)
      | Table c => '(c, e) ← clone_table (S l) c e; Some (dst ++ [Table c], e)
      end) src (Some (dst, e)) =
    Some (dst ++ ys, Env (e_min e) (e_max e) (e_frames e - zsum (frames_of (S l)) src)) /\
    Forall2 (fun x y =>
      match x, y with
      | Word w, Word w' => w' = if has w PTE_P then w else 0
      | Table c, Table c' => same (S l) c c'
      | _, _ => False
      end) src ys.
Proof.
  induction src as [|x src IH]; intros dst e Hc Hf.
  { exists []. simpl. rewrite app_nil_r, Z.sub_0_r. by destruct e. }
  cbn [fold_left zsum] in *.
  pose proof (frames_sum_nonneg (S l) src).
  destruct x as [w|c]; cbn [mbind option_bind frames_of] in *.
  - destruct (IH (dst ++ [Word (if has w PTE_P then w else 0)]) e Hc ltac:(lia)) as (ys & -> & Hys).
    eexists (_ :: ys). split; [by rewrite <-app_assoc|]. by constructor.
  - destruct (Hc c e ltac:(lia)) as (c' & -> & Hs). cbn [mbind option_bind].
    destruct (IH (dst ++ [Table c']) (Env (e_min e) (e_max e) (e_frames e - count_tables (S l) c)) Hc ltac:(cbn [e_frames]; lia))
      as (ys & -> & Hys).
    exists (Table c' :: ys). split; [|by constructor]. rewrite <-app_assoc. cbn [e_frames e_min e_max].
    do 3 f_equal. lia.
Qed.

Lemma clone_table_spec l t e : count_tables (S l) t <= e_frames e ->
  exists t', clone_table (S l) t e = Some (t', Env (e_min e) (e_max e) (e_frames e - count_tables (S l) t)) /\
    same (S l) t t'.
Proof.
  revert t e. induction l as [|l IH]; intros t e Hf.
  { change (count_tables 1 t) with 1 in *. cbn [clone_table]. unfold pt_alloc.
    rewrite (proj2 (Z.ltb_lt _ _)) by lia. cbn [mbind option_bind]. eexists. split; [done|].
    cbn [same]. apply Forall2_fmap_r, Forall_Forall2_diag, Forall_forall. intros [w|c] _; done. }
  rewrite count_unfold in *. rewrite clone_unfold. unfold pt_alloc.
  pose proof (frames_sum_nonneg (S l) t).
  rewrite (proj2 (Z.ltb_lt _ _)) by lia. cbn [mbind option_bind].
  destruct (clone_fold l t [] (Env (e_min e) (e_max e) (e_frames e - 1)) IH ltac:(cbn [e_frames]; lia)) as (ys & Hq & Hys).
  exists ys. split; [|by apply same_unfold]. rewrite Hq. cbn [app e_frames e_min e_max]. do 3 f_equal. lia.
Qed.

Lemma same_lookup l t t' i x : same (S l) t t' -> t !! i = Some x ->
  exists y, t' !! i = Some y /\
    match x, y with
    | Word w, Word w' => w' = if has w PTE_P then w else 0
    | Table c, Table c' => match l with S _ => same l c c' | _ => c = c' end
    | _, _ => False
    end.
Proof. intros Hs Hx. destruct l; apply (Forall2_lookup_l _ _ _ _ _ Hs Hx). Qed.

Lemma same_walk l t t' a : same (S l) t t' -> walk (S l) t' a = walk (S l) t a.
Proof.
  revert t t'. induction l as [|l IH]; intros t t' Hs; rewrite !walk_unfold.
  all: destruct (t !! level_idx a _) as [x|] eqn:Hx.
  2,4: rewrite lookup_ge_None in Hx; rewrite lookup_ge_None_2; [done|]; by rewrite <-(Forall2_length _ _ _ Hs).
  all: destruct (same_lookup _ _ _ _ _ Hs Hx) as (y & -> & Hy); destruct x as [w|c], y as [w'|c']; try done; cbn [mbind option_bind walk_entry].
  - subst w'. destruct (has w PTE_P) eqn:HP; [by rewrite HP|done].
  - subst w'. destruct (has w PTE_P) eqn:HP; [by rewrite HP|done].
  - by apply IH.
Qed.

Lemma same_wf l b t t' : wf (S l) b t -> same (S l) t t' -> wf (S l) b t'.
Proof.
  revert b t t'. induction l as [|l IH]; intros b t t' [Hlen Hw] Hs; (split; [by rewrite <-(Forall2_length _ _ _ Hs)|]);
    intros i y Hy; destruct (Forall2_lookup_r _ _ _ _ _ Hs Hy) as (x & Hx & Hxy); specialize (Hw i x Hx);
    destruct x as [w|c], y as [w'|c']; try done.
  - subst w'. destruct (has w PTE_P) eqn:HP; [done|]. split; [lia|done].
  - subst w'. destruct (has w PTE_P) eqn:HP; [done|]. split; [lia|done].
  - by eapply IH.
Qed.

Lemma same_count l t t' : same (S l) t t' -> count_tables (S l) t' = count_tables (S l) t.
Proof.
  revert t t'. induction l as [|l IH]; intros t t' Hs; [done|]. rewrite !count_unfold. f_equal.
  apply same_unfold in Hs. induction Hs as [|x y t t' Hxy _ IHt]; [done|]. cbn [zsum]. rewrite IHt. f_equal.
  destruct x as [w|c], y as [w'|c']; try done. by apply IH.
Qed.

(** ** The boot mapping *)

Lemma identity_spec frames : 2 <= frames ->
  exists s, as_identity_mapping frames = Some (s, frames - 2) /\ wf_as s /\ as_table_count s = 2 /\
    forall a, 0 <= a < 2 ^ 48 -> as_view s a = if a <? 2 ^ 39 then Some (Z.lor PTE_P PTE_RW) else None.
Proof.
  intros Hf. unfold as_identity_mapping, pt_alloc. cbn [e_frames e_min e_max].
  rewrite !(proj2 (Z.ltb_lt _ _)) by lia. cbn [mbind option_bind]. cbn [e_frames e_min e_max].
  rewrite (proj2 (Z.ltb_lt _ _)) by lia. cbn [mbind option_bind e_frames].
  change (leaf_flags_to_pte (Z.lor (Z.lor PAGE_R PAGE_W) PAGE_X)) with (Some 3). cbn [mbind option_bind].
  set (pdpt := map _ (seq 0 512)).
  assert (Hword : forall i, (i < 512)%nat -> let v := Z.lor (Z.lor (u64 (Z.of_nat i * GIB)) 3) PTE_PS in
    good_word 3 (Z.of_nat i * LEVEL_SIZE 3) v /\ has v PTE_P = true /\ perm v = 3 /\ has v PTE_PS = true).
  { intros i Hi v. unfold v. change (LEVEL_SIZE 3) with GIB. change GIB with 1073741824.
    rewrite u64_small by lia.
    destruct (leaf_word (Z.of_nat i * 1073741824) 3 true) as (L1 & L2 & L3 & L4 & L5); [lia|div_lia|lia|done|].
    change (Z.testbit 3 0) with true in L4. split; [|done]. split; [done|]. intros _. split_and!; done || lia. }
  assert (Hlook : forall i, (i < 512)%nat -> pdpt !! i = Some (Word (Z.lor (Z.lor (u64 (Z.of_nat i * GIB)) 3) PTE_PS))).
  { intros i Hi. apply list_lookup_fmap_Some. exists i. split; [done|]. by apply lookup_seq. }
  assert (Hwp : wf 3 0 pdpt).
  { split; [unfold pdpt; by rewrite length_map, length_seq|]. intros i x Hx.
    assert (Hi : (i < 512)%nat) by (apply lookup_lt_Some in Hx; unfold pdpt in Hx; by rewrite length_map, length_seq in Hx).
    rewrite (Hlook i Hi) in Hx. injection Hx as <-. by apply Hword. }
  eexists. split; [do 2 f_equal; lia|]. unfold wf_as, as_view, as_table_count. cbn [as_root].
  assert (Hw : wf 4 0 (<[0%nat := Table pdpt]> zero_table)) by (apply wf_insert; [by apply wf_zero; lia|done]).
  split_and!; [done| |].
  - rewrite (count_insert 3 zero_table 0 (Word 0)) by done. rewrite count_zero_table. cbn [Nat.eqb frames_of].
    rewrite leaf_table_count; [done|]. intros j x Hx. unfold pdpt in Hx.
    apply list_lookup_fmap_Some in Hx as (y & -> & _). eauto.
  - intros a Ha. rewrite view_seen. pose proof (proj2 (root_span a) Ha) as Hs.
    destruct (level_idx_span 4 0 a root_base Hs) as [Hi Hr]. rewrite Z.add_0_l in Hr. change (LEVEL_SIZE 4) with (2 ^ 39) in Hr.
    destruct (Z.ltb_spec a (2 ^ 39)).
    + assert (E : level_idx a 4 = 0%nat) by lia.
      rewrite walk_unfold, E. change (<[0%nat:=Table pdpt]> zero_table !! 0%nat) with (Some (Table pdpt)).
      cbn [mbind option_bind]. change (walk_entry 4 (Table pdpt) a) with (walk 3 pdpt a).
      assert (Hb3 : base_ok 3 0) by (split; [lia|]; vm_compute; intuition congruence).
      assert (Hs3 : span 3 0 a) by (unfold span; change (512 * LEVEL_SIZE 3) with (2 ^ 39); lia).
      destruct (level_idx_span 3 0 a Hb3 Hs3) as [Hi3 _]. destruct (Hword _ Hi3) as (_ & V1 & V2 & V3).
      rewrite walk_unfold, (Hlook _ Hi3). cbn [mbind option_bind walk_entry]. rewrite V1, V3. cbn [negb orb Nat.eqb seen]. rewrite V1, V2. reflexivity.
    + assert (level_idx a 4 <> 0%nat) by lia. rewrite walk_insert_ne by done. by rewrite walk_zero.
Qed.

Lemma flag_getinfo s addr stop f frames s' frames' a :
  wf_as s -> flags_ok f -> 0 <= f < 64 -> Z.land f PAGE_CACHE_MASK <> PAGE_WC ->
  0 <= addr <= stop -> stop <= 2 ^ 48 -> addr mod PAGE_SIZE = 0 -> stop mod PAGE_SIZE = 0 ->
  3 * leaf_count (Z.to_nat ((stop - addr) / PAGE_SIZE)) addr stop <= frames ->
  as_flag s addr stop f frames = Some (s', frames') -> 0 <= a < 2 ^ 48 ->
  as_getinfo s' a =
    if decide (addr <= a < stop)
    then Some (if Z.land f 15 =? 0 then (0, false) else (f, true))
    else as_getinfo s a.
Proof.
  intros Hw [lb Hlb] Hf Hc Ha Hs Hal Hsal Hfr Hq Hr.
  destruct (as_flag_spec s addr stop f lb frames) as (s2 & fr2 & e' & Hq2 & Hin & _); [done..|].
  rewrite Hq in Hq2. injection Hq2 as <- <-. destruct Hin as [I1 I2 _ _ _].
  rewrite !getinfo_view by done. specialize (I2 a (proj2 (root_span a) Hr)).
  unfold as_view. rewrite I2. case_decide; [|done].
  pose proof (flags_roundtrip f lb Hf Hlb Hc) as Hrt.
  assert (Hz : flag_view lb = None <-> Z.land f 15 = 0).
  { split; [intros E; by rewrite E in Hrt|]. intros E. unfold leaf_flags_to_pte in Hlb.
    change (Z.lor (Z.lor (Z.lor PAGE_R PAGE_W) PAGE_X) PAGE_U) with 15 in Hlb. rewrite E in Hlb. simpl in Hlb.
    by injection Hlb as <-. }
  destruct (flag_view lb) as [p|], (Z.eqb_spec (Z.land f 15) 0) as [E|E];
    [by apply Hz in E|by rewrite Hrt|done|exfalso; by apply E, Hz].
Qed.

Lemma clone_spec s frames :
  wf_as s -> as_table_count s <= frames ->
  exists s' frames', as_clone s frames = Some (s', frames') /\ wf_as s' /\
    (forall a, walk 4 (as_root s') a = walk 4 (as_root s) a) /\
    as_table_count s' = as_table_count s /\ frames' = frames - as_table_count s /\
    as_free s' frames' = Some frames.
Proof.
  intros Hw Hf. unfold as_clone, as_free, as_table_count in *.
  destruct (clone_table_spec 3 (as_root s) (Env DIRTY_EMPTY_MIN DIRTY_EMPTY_MAX frames)) as (t' & -> & Hs); [done|].
  cbn [mbind option_bind]. eexists _, _. split; [done|]. unfold wf_as. cbn [as_root e_frames].
  split_and!; [by eapply same_wf|intros a; by apply same_walk|by apply same_count|done|].
  cbn [as_has_pins as_pins]. unfold as_has_pins. cbn [as_pins Z.eqb negb].
  destruct (free_table_frames 3 t' (Env DIRTY_EMPTY_MIN DIRTY_EMPTY_MAX (frames - count_tables 4 (as_root s)))) as (E & _ & _).
  cbn [as_root as_min_dirty as_max_dirty]. rewrite E, (same_count 3 _ _ Hs). cbn [e_frames]. f_equal. lia.
Qed.

(** ** Properties *)

(** C32: [as_flag] on a well-formed tree, with an aligned range below 2^48, valid
    flags and enough page-table frames, returns, and the new tree is well formed
    (identity mapped, no aliased table).  Every address in the range has exactly
    the requested permissions, or none when the flags are empty; every other
    address keeps its permissions, whatever huge leaves were split or merged.
    Every page-table frame is accounted for: frames in the supply plus tables in
    the tree stay constant.  Any address whose leaf word differs from before is
    inside the recorded dirty range. *)
Theorem as_flag_correct s addr stop flags lb frames :
  wf_as s -> leaf_flags_to_pte flags = Some lb -> 0 <= addr <= stop -> stop <= 2 ^ 48 ->
  addr mod PAGE_SIZE = 0 -> stop mod PAGE_SIZE = 0 ->
  3 * leaf_count (Z.to_nat ((stop - addr) / PAGE_SIZE)) addr stop <= frames ->
  exists s' frames', as_flag s addr stop flags frames = Some (s', frames') /\ wf_as s' /\
    (forall a, 0 <= a < 2 ^ 48 ->
       as_view s' a = if decide (addr <= a < stop) then flag_view lb else as_view s a) /\
    frames' + as_table_count s' = frames + as_table_count s /\
    (forall a, 0 <= a < 2 ^ 48 -> walk 4 (as_root s') a <> walk 4 (as_root s) a ->
       as_min_dirty s' <= a < as_max_dirty s').
Proof.
  intros Hw Hlb Ha Hs Hal Hsal Hfr.
  destruct (as_flag_spec s addr stop flags lb frames) as (s' & frames' & e' & Hq & [I1 I2 I3 I4 I5] & -> & _ & Hd); [done..|].
  exists s', frames'. split_and!; [done|done| |exact I4|].
  - intros a Hr. apply I2. by apply root_span.
  - intros a Hr Hne. destruct (decide (addr <= a < stop)) as [Hin|Hout]; [exact (Hd a Hin)|].
    destruct (decide (as_min_dirty s' <= a < as_max_dirty s')) as [|Hnd]; [done|].
    exfalso. apply Hne, I3; [by apply root_span|done|exact Hnd].
Qed.

(** C33: setting flags and asking for them: after [as_flag], [as_getinfo] reports
    for every address of the range the flags that were set, present exactly when
    they are not empty, and outside the range what it reported before; this holds
    for every flag word whose memory type is not [PAGE_WC]. *)
Theorem as_flag_getinfo s addr stop f frames s' frames' a :
  wf_as s -> flags_ok f -> 0 <= f < 64 -> Z.land f PAGE_CACHE_MASK <> PAGE_WC ->
  0 <= addr <= stop -> stop <= 2 ^ 48 -> addr mod PAGE_SIZE = 0 -> stop mod PAGE_SIZE = 0 ->
  3 * leaf_count (Z.to_nat ((stop - addr) / PAGE_SIZE)) addr stop <= frames ->
  as_flag s addr stop f frames = Some (s', frames') -> 0 <= a < 2 ^ 48 ->
  as_getinfo s' a =
    if decide (addr <= a < stop)
    then Some (if Z.land f 15 =? 0 then (0, false) else (f, true))
    else as_getinfo s a.
Proof. apply flag_getinfo. Qed.

(** C34: [as_clone] with enough frames returns a well-formed tree of its own with
    the same leaf for every address, taking one frame per table; [as_free] on the
    clone gives exactly those frames back. *)
Theorem as_clone_correct s frames :
  wf_as s -> as_table_count s <= frames ->
  exists s' frames', as_clone s frames = Some (s', frames') /\ wf_as s' /\
    (forall a, walk 4 (as_root s') a = walk 4 (as_root s) a) /\
    as_table_count s' = as_table_count s /\ frames' = frames - as_table_count s /\
    as_free s' frames' = Some frames.
Proof. apply clone_spec. Qed.

(** C35: the boot address space is well formed and maps exactly the first 512 GiB,
    each address readable, writable, executable, kernel-only and write-back. *)
Theorem as_identity_mapping_correct frames : 2 <= frames ->
  exists s, as_identity_mapping frames = Some (s, frames - 2) /\ wf_as s /\ as_table_count s = 2 /\
    forall a, 0 <= a < 2 ^ 48 ->
      as_getinfo s a = Some (if a <? 2 ^ 39 then (PAGE_KERNEL_PRISTINE, true) else (0, false)).
Proof.
  intros Hf. destruct (identity_spec frames Hf) as (s & Hq & Hw & Hc & Hv). exists s.
  split_and!; [done..|]. intros a Ha. rewrite getinfo_view, (Hv a Ha) by done. by destruct (a <? 2 ^ 39).
Qed.


(** ** Witnesses *)

Definition boot : address_space :=
  match as_identity_mapping 100 with Some (s, _) => s | None => AddressSpace [] 0 0 0 end.

Lemma boot_wf : wf_as boot.
Proof.
  destruct (identity_spec 100) as (s & Hq & Hw & _); [lia|]. unfold boot. by rewrite Hq.
Qed.

Lemma as_flag_correct_witness : exists s' frames',
  as_flag boot 0x3fe000 0x601000 PAGE_R 98 = Some (s', frames') /\
  frames' + as_table_count s' = 98 + as_table_count boot.
Proof.
  destruct (as_flag_correct boot 0x3fe000 0x601000 PAGE_R (Z.lor PTE_P PTE_NX) 98) as (s' & f' & Hq & _ & _ & Hc & _);
    [apply boot_wf|done|lia|lia|done|done|vm_compute; congruence|].
  exists s', f'. split; [exact Hq|exact Hc].
Defined.

Definition boot_flagged : option (address_space * Z) := as_flag boot 0x1000 0x3000 (Z.lor PAGE_R PAGE_U) 98.

Lemma as_flag_getinfo_witness : exists s' f', boot_flagged = Some (s', f') /\
  as_getinfo s' 0x2fff = Some (Z.lor PAGE_R PAGE_U, true) /\ as_getinfo s' 0x3000 = as_getinfo boot 0x3000.
Proof.
  destruct boot_flagged as [[s' f']|] eqn:E; [|exfalso; vm_compute in E; congruence].
  exists s', f'. split; [reflexivity|].
  assert (flags_ok (Z.lor PAGE_R PAGE_U)) as Hok by (eexists; reflexivity).
  split.
  - rewrite (as_flag_getinfo boot 0x1000 0x3000 (Z.lor PAGE_R PAGE_U) 98 s' f' 0x2fff boot_wf Hok);
      [reflexivity|..]; first [exact E|lia|done|vm_compute; intuition congruence].
  - rewrite (as_flag_getinfo boot 0x1000 0x3000 (Z.lor PAGE_R PAGE_U) 98 s' f' 0x3000 boot_wf Hok);
      [reflexivity|..]; first [exact E|lia|done|vm_compute; intuition congruence].
Defined.

Lemma as_clone_correct_witness : exists s' frames', as_clone boot 98 = Some (s', frames') /\ frames' = 98 - 2 /\
  as_free s' frames' = Some 98.
Proof.
  destruct (as_clone_correct boot 98 boot_wf) as (s' & f' & Hq & _ & _ & _ & Hf & Hfree); [vm_compute; congruence|].
  exists s', f'. split; [exact Hq|]. split; [exact Hf|exact Hfree].
Defined.

Lemma as_identity_mapping_correct_witness : exists s, as_identity_mapping 100 = Some (s, 98) /\ wf_as s.
Proof.
  destruct (as_identity_mapping_correct 100) as (s & Hq & Hw & _); [lia|]. exists s. split; [exact Hq|exact Hw].
Defined.
