(* ===== verification/Siphash.v ===== *)
(** * SipHash-2-4

    [vendor/siphash/siphash.c]: the keyed hash behind capability tokens (128-bit
    tags) and the futex bucket table (64-bit tags).  A byte buffer is a list of
    integers in [[0, 256)]; [siphash_core] returns the bytes it stores to [out].

    The theorems relate the code to the algorithm's definition: the buffer is cut
    into little-endian words, the last one carrying the length, and the words are
    folded through the round function; and the round function loses no information. *)

From S2P Require Import Prelude.

Definition C_ROUNDS : nat := 2.
Definition D_ROUNDS : nat := 4.

Definition rotl (x b : Z) : Z := Z.lor (u64 (Z.shiftl x b)) (Z.shiftr x (64 - b)).

(** [p[i]]. *)
Definition byte_at (p : list Z) (i : nat) : Z := nth i p 0.

Definition load64_le (p : list Z) : Z :=
  Z.lor (Z.lor (Z.lor (Z.lor (Z.lor (Z.lor (Z.lor
    (byte_at p 0) (Z.shiftl (byte_at p 1) 8)) (Z.shiftl (byte_at p 2) 16))
    (Z.shiftl (byte_at p 3) 24)) (Z.shiftl (byte_at p 4) 32)) (Z.shiftl (byte_at p 5) 40))
    (Z.shiftl (byte_at p 6) 48)) (Z.shiftl (byte_at p 7) 56).

Definition store64_le (v : Z) : list Z :=
  (fun i => u8 (Z.shiftr v (8 * Z.of_nat i))) <$> seq 0 8.

Record sip := Sip { v0 : Z; v1 : Z; v2 : Z; v3 : Z }.

Definition sipround (s : sip) : sip :=
  let '(Sip v0 v1 v2 v3) := s in
  let v0 := u64 (v0 + v1) in
  let v1 := rotl v1 13 in
  let v1 := Z.lxor v1 v0 in
  let v0 := rotl v0 32 in
  let v2 := u64 (v2 + v3) in
  let v3 := rotl v3 16 in
  let v3 := Z.lxor v3 v2 in
  let v0 := u64 (v0 + v3) in
  let v3 := rotl v3 21 in
  let v3 := Z.lxor v3 v0 in
  let v2 := u64 (v2 + v1) in
  let v1 := rotl v1 17 in
  let v1 := Z.lxor v1 v2 in
  let v2 := rotl v2 32 in
  Sip v0 v1 v2 v3.

Fixpoint rounds (n : nat) (s : sip) : sip :=
  match n with O => s | S n => rounds n (sipround s) end.

(** One iteration of the message loop. *)
Definition absorb (m : Z) (s : sip) : sip :=
  let s := Sip (v0 s) (v1 s) (v2 s) (Z.lxor (v3 s) m) in
  let s := rounds C_ROUNDS s in
  Sip (Z.lxor (v0 s) m) (v1 s) (v2 s) (v3 s).

(** The loop [for (; in != end; in += 8)] over [n] words. *)
Fixpoint absorb_words (n : nat) (inp : list Z) (s : sip) : sip :=
  match n with O => s | S n => absorb_words n (drop 8 inp) (absorb (load64_le inp) s) end.

(** The tail loop: [b |= (uint64_t)in[i] << (8 * i)] for [i < n]. *)
Fixpoint tail_word (n : nat) (inp : list Z) (b : Z) : Z :=
  match n with
  | O => b
  | S n => Z.lor (tail_word n inp b) (u64 (Z.shiftl (byte_at inp n) (8 * Z.of_nat n)))
  end.

Definition siphash_core (data key : list Z) (outlen : Z) : list Z :=
  let len := length data in
  let k0 := load64_le key in
  let k1 := load64_le (drop 8 key) in
  let s := Sip (Z.lxor 0x736f6d6570736575 k0) (Z.lxor 0x646f72616e646f6d k1)
               (Z.lxor 0x6c7967656e657261 k0) (Z.lxor 0x7465646279746573 k1) in
  let s := if outlen =? 16 then Sip (v0 s) (Z.lxor (v1 s) 0xee) (v2 s) (v3 s) else s in
  let s := absorb_words (len / 8) data s in
  let inp := drop (len / 8 * 8) data in
  let b := u64 (Z.shiftl (Z.of_nat len) 56) in
  let b := tail_word (len mod 8) inp b in
  let s := absorb b s in
  let s := Sip (v0 s) (v1 s) (Z.lxor (v2 s) (if outlen =? 16 then 0xee else 0xff)) (v3 s) in
  let s := rounds D_ROUNDS s in
  let out := store64_le (Z.lxor (Z.lxor (Z.lxor (v0 s) (v1 s)) (v2 s)) (v3 s)) in
  if outlen =? 8 then out
  else
    let s := Sip (v0 s) (Z.lxor (v1 s) 0xdd) (v2 s) (v3 s) in
    let s := rounds D_ROUNDS s in
    out ++ store64_le (Z.lxor (Z.lxor (Z.lxor (v0 s) (v1 s)) (v2 s)) (v3 s)).

Definition siphash (data key : list Z) : Z := load64_le (siphash_core data key 8).

Definition siphash128 (data key : list Z) : list Z := siphash_core data key 16.

(** ** The algorithm *)

Definition bytes (l : list Z) : Prop := Forall (fun b => 0 <= b < 256) l.

Definition word (v : Z) : Prop := 0 <= v < 2 ^ 64.

Definition words (s : sip) : Prop := word (v0 s) /\ word (v1 s) /\ word (v2 s) /\ word (v3 s).

(** Little-endian value of a byte string. *)
Fixpoint le (bs : list Z) : Z :=
  match bs with [] => 0 | b :: bs => b + 256 * le bs end.

(** The message followed by zeros and its length modulo 256, a multiple of 8 bytes. *)
Definition padded (data : list Z) : list Z :=
  data ++ replicate (7 - length data mod 8) 0 ++ [Z.of_nat (length data) mod 256].

(** Its words. *)
Fixpoint chunks (n : nat) (l : list Z) : list Z :=
  match n with O => [] | S n => le (take 8 l) :: chunks n (drop 8 l) end.

Definition message (data : list Z) : list Z := chunks (length data / 8 + 1) (padded data).

Definition out_word (s : sip) : Z := Z.lxor (Z.lxor (Z.lxor (v0 s) (v1 s)) (v2 s)) (v3 s).

(** SipHash-c-d with a 64-bit tag: initialise, absorb the words, finalise. *)
Definition sip64_spec (data key : list Z) : Z :=
  let k0 := le (take 8 key) in let k1 := le (take 8 (drop 8 key)) in
  let s := Sip (Z.lxor 0x736f6d6570736575 k0) (Z.lxor 0x646f72616e646f6d k1)
               (Z.lxor 0x6c7967656e657261 k0) (Z.lxor 0x7465646279746573 k1) in
  let s := foldl (fun s m => absorb m s) s (message data) in
  out_word (rounds D_ROUNDS (Sip (v0 s) (v1 s) (Z.lxor (v2 s) 0xff) (v3 s))).

(** The 128-bit variant: both halves of the tag, low half first. *)
Definition sip128_spec (data key : list Z) : Z * Z :=
  let k0 := le (take 8 key) in let k1 := le (take 8 (drop 8 key)) in
  let s := Sip (Z.lxor 0x736f6d6570736575 k0) (Z.lxor (Z.lxor 0x646f72616e646f6d k1) 0xee)
               (Z.lxor 0x6c7967656e657261 k0) (Z.lxor 0x7465646279746573 k1) in
  let s := foldl (fun s m => absorb m s) s (message data) in
  let s := rounds D_ROUNDS (Sip (v0 s) (v1 s) (Z.lxor (v2 s) 0xee) (v3 s)) in
  (out_word s, out_word (rounds D_ROUNDS (Sip (v0 s) (Z.lxor (v1 s) 0xdd) (v2 s) (v3 s)))).

(** The round run backwards. *)
Definition rotr (x b : Z) : Z := rotl x (64 - b).

Definition unround (s : sip) : sip :=
  let '(Sip v0 v1 v2 v3) := s in
  let v2 := rotr v2 32 in
  let v1 := rotr (Z.lxor v1 v2) 17 in
  let v2 := u64 (v2 - v1) in
  let v3 := rotr (Z.lxor v3 v0) 21 in
  let v0 := u64 (v0 - v3) in
  let v3 := rotr (Z.lxor v3 v2) 16 in
  let v2 := u64 (v2 - v3) in
  let v0 := rotr v0 32 in
  let v1 := rotr (Z.lxor v1 v0) 13 in
  let v0 := u64 (v0 - v1) in
  Sip v0 v1 v2 v3.

(** ** Words and bytes *)

Lemma lor_disjoint a lo n : 0 <= n -> 0 <= lo < 2 ^ n -> Z.lor (a * 2 ^ n) lo = a * 2 ^ n + lo.
Proof.
  intros Hn Hlo. pose proof (Z.add_lor_land (a * 2 ^ n) lo) as Hs.
  cut (Z.land (a * 2 ^ n) lo = 0); [lia|]. clear Hs.
  apply Z.bits_inj'. intros i Hi. rewrite Z.land_spec, Z.bits_0, <-Z.shiftl_mul_pow2 by lia.
  destruct (decide (i < n)); [by rewrite Z.shiftl_spec_low|].
  destruct (decide (lo = 0)) as [->|]; [by rewrite Z.bits_0, andb_false_r|].
  rewrite (Z.bits_above_log2 lo i), andb_false_r; [done|lia|].
  assert (Z.log2 lo < n) by (apply Z.log2_lt_pow2; lia). lia.
Qed.

Lemma lor_shift a lo n : 0 <= n -> 0 <= lo < 2 ^ n -> Z.lor lo (Z.shiftl a n) = lo + a * 2 ^ n.
Proof. intros Hn Hlo. rewrite Z.lor_comm, Z.shiftl_mul_pow2, lor_disjoint by lia. lia. Qed.

Lemma byte_at_bound p i : bytes p -> 0 <= byte_at p i < 256.
Proof.
  intros Hp. unfold byte_at. destruct (decide (i < length p)%nat) as [Hi|].
  - destruct (lookup_lt_is_Some_2 p i Hi) as [b Hb]. rewrite (nth_lookup_Some _ _ _ _ Hb).
    by eapply (Forall_lookup_1 _ _ _ _ Hp).
  - rewrite nth_overflow; lia.
Qed.

Lemma load64_le_nth p : bytes p ->
  load64_le p = byte_at p 0 + byte_at p 1 * 2 ^ 8 + byte_at p 2 * 2 ^ 16 + byte_at p 3 * 2 ^ 24 +
    byte_at p 4 * 2 ^ 32 + byte_at p 5 * 2 ^ 40 + byte_at p 6 * 2 ^ 48 + byte_at p 7 * 2 ^ 56.
Proof.
  intros Hp. unfold load64_le. pose proof (byte_at_bound p 0 Hp). pose proof (byte_at_bound p 1 Hp).
  pose proof (byte_at_bound p 2 Hp). pose proof (byte_at_bound p 3 Hp). pose proof (byte_at_bound p 4 Hp).
  pose proof (byte_at_bound p 5 Hp). pose proof (byte_at_bound p 6 Hp). pose proof (byte_at_bound p 7 Hp).
  rewrite (lor_shift _ _ 8), (lor_shift _ _ 16), (lor_shift _ _ 24), (lor_shift _ _ 32), (lor_shift _ _ 40),
    (lor_shift _ _ 48), (lor_shift _ _ 56) by lia. done.
Qed.

Lemma nth8 (p : list Z) : (8 <= length p)%nat ->
  take 8 p = [byte_at p 0; byte_at p 1; byte_at p 2; byte_at p 3; byte_at p 4; byte_at p 5; byte_at p 6; byte_at p 7].
Proof. intros. do 8 (destruct p as [|? p]; [simpl in *; lia|]). done. Qed.

Lemma load64_le_spec p : bytes p -> (8 <= length p)%nat -> load64_le p = le (take 8 p).
Proof. intros Hp Hl. rewrite load64_le_nth, nth8 by done. cbn [le]. lia. Qed.

Lemma le_bound bs : bytes bs -> 0 <= le bs < 256 ^ Z.of_nat (length bs).
Proof.
  induction 1 as [|b bs Hb _ IH]; simpl le; [simpl; lia|].
  rewrite length_cons, Nat2Z.inj_succ, Z.pow_succ_r by lia. nia.
Qed.

Lemma le_app l1 l2 : le (l1 ++ l2) = le l1 + 256 ^ Z.of_nat (length l1) * le l2.
Proof.
  induction l1 as [|b l1 IH]; cbn [le app]; [simpl; lia|].
  rewrite IH, length_cons, Nat2Z.inj_succ, Z.pow_succ_r by lia. ring.
Qed.

Lemma le_zeros n : le (replicate n 0) = 0.
Proof. induction n; simpl; lia. Qed.

Lemma store64_le_bytes v : bytes (store64_le v).
Proof.
  apply Forall_fmap, Forall_forall. intros i _. simpl. unfold u8. apply Z.mod_pos_bound. lia.
Qed.

Lemma store64_le_value v : word v -> le (store64_le v) = v.
Proof.
  unfold word, store64_le, u8. intros Hv. cbn [seq fmap list_fmap le]. rewrite !Z.shiftr_div_pow2 by lia.
  change (2 ^ (8 * Z.of_nat 0)) with 1. change (2 ^ (8 * Z.of_nat 1)) with 256.
  change (2 ^ (8 * Z.of_nat 2)) with 65536. change (2 ^ (8 * Z.of_nat 3)) with 16777216.
  change (2 ^ (8 * Z.of_nat 4)) with (2 ^ 32). change (2 ^ (8 * Z.of_nat 5)) with (2 ^ 40).
  change (2 ^ (8 * Z.of_nat 6)) with (2 ^ 48). change (2 ^ (8 * Z.of_nat 7)) with (2 ^ 56).
  div_lia.
Qed.

(** ** Rotation *)

Lemma rotl_arith x b : word x -> 0 < b < 64 -> rotl x b = x mod 2 ^ (64 - b) * 2 ^ b + x / 2 ^ (64 - b).
Proof.
  unfold word, rotl, u64. intros Hx Hb. rewrite Z.shiftl_mul_pow2, Z.shiftr_div_pow2 by lia.
  assert (E : 2 ^ 64 = 2 ^ (64 - b) * 2 ^ b) by (rewrite <-Z.pow_add_r by lia; f_equal; lia).
  pose proof (pow2_pos b ltac:(lia)). pose proof (pow2_pos (64 - b) ltac:(lia)).
  rewrite E, Z.mul_mod_distr_r by lia. apply lor_disjoint; [lia|].
  split; [apply Z.div_pos; lia|]. apply Z.div_lt_upper_bound; lia.
Qed.

Lemma rotl_word x b : word x -> 0 < b < 64 -> word (rotl x b).
Proof.
  intros Hx Hb. rewrite rotl_arith by done. unfold word in *.
  assert (E : 2 ^ 64 = 2 ^ (64 - b) * 2 ^ b) by (rewrite <-Z.pow_add_r by lia; f_equal; lia).
  pose proof (pow2_pos b ltac:(lia)). pose proof (pow2_pos (64 - b) ltac:(lia)).
  pose proof (Z.mod_pos_bound x (2 ^ (64 - b)) ltac:(lia)).
  assert (0 <= x / 2 ^ (64 - b) < 2 ^ b) by (split; [apply Z.div_pos; lia|apply Z.div_lt_upper_bound; lia]).
  nia.
Qed.

Lemma rotr_rotl x b : word x -> 0 < b < 64 -> rotr (rotl x b) b = x.
Proof.
  intros Hx Hb. unfold rotr. rewrite (rotl_arith _ (64 - b)) by (try apply rotl_word; lia || done).
  replace (64 - (64 - b)) with b by lia. rewrite rotl_arith by done. unfold word in *.
  assert (E : 2 ^ 64 = 2 ^ (64 - b) * 2 ^ b) by (rewrite <-Z.pow_add_r by lia; f_equal; lia).
  pose proof (pow2_pos b ltac:(lia)). pose proof (pow2_pos (64 - b) ltac:(lia)).
  pose proof (Z.mod_pos_bound x (2 ^ (64 - b)) ltac:(lia)).
  assert (0 <= x / 2 ^ (64 - b) < 2 ^ b) by (split; [apply Z.div_pos; lia|apply Z.div_lt_upper_bound; lia]).
  rewrite (Z.add_comm (_ * 2 ^ b)), Z.mod_add, (Z.mod_small (x / _)), Z.div_add, (Z.div_small (x / _)) by lia.
  pose proof (Z.div_mod x (2 ^ (64 - b)) ltac:(lia)). lia.
Qed.

Lemma rotl_rotr x b : word x -> 0 < b < 64 -> rotl (rotr x b) b = x.
Proof.
  intros Hx Hb. unfold rotr. pose proof (rotr_rotl x (64 - b) Hx ltac:(lia)) as H.
  unfold rotr in H. by replace (64 - (64 - b)) with b in H by lia.
Qed.

Lemma lxor_word x y : word x -> word y -> word (Z.lxor x y).
Proof.
  unfold word. intros Hx Hy. split; [apply Z.lxor_nonneg; lia|].
  destruct (decide (Z.lxor x y = 0)) as [->|]; [lia|].
  assert (0 <= Z.lxor x y) by (apply Z.lxor_nonneg; lia).
  apply Z.log2_lt_pow2; [lia|]. pose proof (Z.log2_lxor x y ltac:(lia) ltac:(lia)).
  assert (forall z, 0 <= z < 2 ^ 64 -> Z.log2 z < 64) as Hl.
  { intros z Hz. destruct (decide (z = 0)) as [->|]; [done|]. apply Z.log2_lt_pow2; lia. }
  pose proof (Hl x Hx). pose proof (Hl y Hy). lia.
Qed.

Lemma u64_word x : word (u64 x).
Proof. unfold word, u64. apply Z.mod_pos_bound. lia. Qed.

Lemma lxor_cancel a b : Z.lxor (Z.lxor a b) b = a.
Proof. by rewrite Z.lxor_assoc, Z.lxor_nilpotent, Z.lxor_0_r. Qed.

Lemma u64_sub_add a b : word a -> u64 (u64 (a + b) - b) = a.
Proof. unfold word, u64. intros. rewrite Zminus_mod_idemp_l, Z.add_simpl_r. by apply Z.mod_small. Qed.

Lemma u64_add_sub a b : word a -> u64 (u64 (a - b) + b) = a.
Proof. unfold word, u64. intros. rewrite Zplus_mod_idemp_l, Z.sub_add. by apply Z.mod_small. Qed.

Lemma rotr_word x b : word x -> 0 < b < 64 -> word (rotr x b).
Proof. intros. apply rotl_word; [done|lia]. Qed.

(** Discharges the side conditions of the word lemmas. *)
Ltac solve_word :=
  first [lia | repeat first [apply u64_word | apply lxor_word | apply rotl_word; [|lia] | apply rotr_word; [|lia]]; done].

Lemma sipround_words s : words s -> words (sipround s).
Proof.
  destruct s as [a b c d]. intros (Ha & Hb & Hc & Hd). simpl in *. unfold words. simpl.
  split_and!; solve_word.
Qed.

Lemma unround_sipround s : words s -> unround (sipround s) = s.
Proof.
  destruct s as [a b c d]. intros (Ha & Hb & Hc & Hd). simpl in *.
  unfold sipround, unround.
  rewrite (rotr_rotl _ 32) by solve_word.
  rewrite !lxor_cancel.
  rewrite (rotr_rotl _ 17) by solve_word.
  rewrite (rotr_rotl _ 21) by solve_word.
  rewrite (u64_sub_add (u64 (c + d))) by apply u64_word. rewrite !lxor_cancel.
  rewrite (u64_sub_add (rotl (u64 (a + b)) 32)) by (apply rotl_word; [apply u64_word|lia]).
  rewrite (rotr_rotl d 16) by solve_word.
  rewrite (rotr_rotl (u64 (a + b)) 32) by solve_word.
  rewrite !lxor_cancel, (rotr_rotl b 13) by solve_word. by rewrite !u64_sub_add.
Qed.

Lemma sipround_unround s : words s -> sipround (unround s) = s.
Proof.
  destruct s as [a b c d]. intros (Ha & Hb & Hc & Hd). simpl in *.
  unfold sipround, unround.
  repeat first [rewrite u64_add_sub by solve_word | rewrite rotl_rotr by solve_word | rewrite lxor_cancel].
  done.
Qed.

(** ** The message loop *)

Lemma absorb_words_chunks n l l' s : bytes l -> (8 * n <= length l)%nat -> take (8 * n) l' = take (8 * n) l ->
  absorb_words n l s = foldl (fun s m => absorb m s) s (chunks n l').
Proof.
  revert l l' s. induction n as [|n IH]; intros l l' s Hl Hlen Ht; [done|]. cbn [absorb_words chunks foldl].
  rewrite load64_le_spec by (done || lia).
  assert (take 8 l' = take 8 l) as ->.
  { apply (f_equal (take 8)) in Ht. by rewrite !take_take, !Nat.min_l in Ht by lia. }
  apply IH; [by apply Forall_drop|rewrite length_drop; lia|].
  apply (f_equal (drop 8)) in Ht. rewrite !take_drop_commute. by replace (8 + 8 * n)%nat with (8 * S n)%nat by lia.
Qed.

Lemma tail_word_le n inp b : bytes inp -> (n <= length inp)%nat -> (n < 8)%nat -> 0 <= b < 256 ->
  tail_word n inp (b * 2 ^ 56) = le (take n inp) + b * 2 ^ 56.
Proof.
  intros Hi Hl Hn Hb. induction n as [|n IH]; [simpl; lia|]. cbn [tail_word]. rewrite IH by lia.
  destruct (lookup_lt_is_Some_2 inp n ltac:(lia)) as [x Hx].
  pose proof (Forall_lookup_1 _ _ _ _ Hi Hx) as Hxb. simpl in Hxb.
  rewrite (take_S_r _ _ _ Hx), le_app, length_take_le by lia.
  unfold byte_at. rewrite (nth_lookup_Some _ _ _ _ Hx). cbn [le].
  assert (Hlt : bytes (take n inp)) by by apply Forall_take.
  pose proof (le_bound _ Hlt) as Hle. rewrite length_take_le in Hle by lia.
  assert (E : 256 ^ Z.of_nat n = 2 ^ (8 * Z.of_nat n)) by (rewrite Z.pow_mul_r by lia; done).
  rewrite E in *. set (k := 8 * Z.of_nat n) in *. assert (0 <= k <= 48) by lia.
  pose proof (pow2_le k 48 ltac:(lia)). pose proof (pow2_pos k ltac:(lia)).
  rewrite Z.shiftl_mul_pow2 by lia. rewrite u64_small by nia.
  rewrite Z.lor_comm, Z.lor_comm.
  assert (Ek : 2 ^ 56 = 2 ^ (56 - k - 8) * (2 ^ k * 256)).
  { change 256 with (2 ^ 8). rewrite <-!Z.pow_add_r by lia. f_equal. lia. }
  pose proof (pow2_pos (56 - k - 8) ltac:(lia)).
  replace (le (take n inp) + b * 2 ^ 56) with (b * 2 ^ (56 - k - 8) * 2 ^ (k + 8) + le (take n inp)).
  2:{ rewrite Z.pow_add_r by lia. change (2 ^ 8) with 256. nia. }
  rewrite <-(lor_disjoint _ _ (k + 8)) by (rewrite ?Z.pow_add_r by lia; nia).
  rewrite <-Z.lor_assoc, (Z.lor_comm (le _)), (lor_disjoint x _ k), lor_disjoint by (rewrite ?Z.pow_add_r by lia; nia).
  rewrite Z.pow_add_r by lia. change (2 ^ 8) with 256. nia.
Qed.

Lemma length_padded data : length (padded data) = (8 * (length data / 8 + 1))%nat.
Proof.
  unfold padded. rewrite !length_app, length_replicate. cbn [length].
  pose proof (Nat.div_mod_eq (length data) 8). pose proof (Nat.mod_upper_bound (length data) 8 ltac:(lia)). lia.
Qed.

Lemma chunks_snoc n l : chunks (n + 1) l = chunks n l ++ [le (take 8 (drop (8 * n) l))].
Proof.
  revert l. induction n as [|n IH]; intros l; [done|]. cbn [chunks Nat.add app]. rewrite IH, drop_drop.
  by replace (8 + 8 * n)%nat with (8 * S n)%nat by lia.
Qed.

Lemma last_chunk data : bytes data ->
  le (take 8 (drop (8 * (length data / 8)) (padded data))) =
    tail_word (length data mod 8) (drop (length data / 8 * 8) data) (u64 (Z.shiftl (Z.of_nat (length data)) 56)).
Proof.
  intros Hd. set (n := length data). pose proof (Nat.div_mod_eq n 8). pose proof (Nat.mod_upper_bound n 8 ltac:(lia)).
  assert (Hu : u64 (Z.shiftl (Z.of_nat n) 56) = Z.of_nat n mod 256 * 2 ^ 56).
  { unfold u64. rewrite Z.shiftl_mul_pow2 by lia. change (2 ^ 64) with (256 * 2 ^ 56).
    by rewrite Z.mul_mod_distr_r by lia. }
  rewrite Hu, tail_word_le; [|by apply Forall_drop|rewrite length_drop; fold n; lia|lia|apply Z.mod_pos_bound; lia].
  unfold padded. fold n. rewrite drop_app_le by (fold n; lia).
  replace (8 * (n / 8))%nat with (n / 8 * 8)%nat by lia.
  set (rest := drop (n / 8 * 8) data). assert (Hr : length rest = (n mod 8)%nat) by (unfold rest; rewrite length_drop; fold n; lia).
  rewrite take_ge by (rewrite !length_app, length_replicate; cbn [length]; lia).
  rewrite (take_ge rest) by lia. rewrite !le_app, le_zeros, length_replicate, Hr. cbn [le].
  rewrite Z.add_0_l, Z.mul_0_r, Z.add_0_r, Z.mul_assoc, <-Z.pow_add_r by lia.
  replace (Z.of_nat (n mod 8) + Z.of_nat (7 - n mod 8)) with 7 by lia. change (256 ^ 7) with (2 ^ 56). lia.
Qed.

Lemma message_absorbed data s : bytes data ->
  absorb (tail_word (length data mod 8) (drop (length data / 8 * 8) data) (u64 (Z.shiftl (Z.of_nat (length data)) 56)))
    (absorb_words (length data / 8) data s) = foldl (fun s m => absorb m s) s (message data).
Proof.
  intros Hd. unfold message. rewrite chunks_snoc, foldl_app, last_chunk by done. cbn [foldl]. f_equal.
  pose proof (Nat.div_mod_eq (length data) 8).
  apply absorb_words_chunks; [done|lia|]. unfold padded. by rewrite take_app_le by lia.
Qed.

Lemma words_intro a b c d : word a -> word b -> word c -> word d -> words (Sip a b c d).
Proof. intros. unfold words. auto. Qed.

Lemma rounds_words n s : words s -> words (rounds n s).
Proof. revert s. induction n as [|n IH]; intros s Hs; [done|]. by apply IH, sipround_words. Qed.

Lemma absorb_words_ok m s : word m -> words s -> words (absorb m s).
Proof.
  intros Hm (H0 & H1 & H2 & H3). unfold absorb.
  destruct (rounds_words C_ROUNDS (Sip (v0 s) (v1 s) (v2 s) (Z.lxor (v3 s) m))) as (R0 & R1 & R2 & R3).
  { apply words_intro; auto using lxor_word. }
  apply words_intro; auto using lxor_word.
Qed.

Lemma padded_bytes data : bytes data -> bytes (padded data).
Proof.
  intros Hd. apply Forall_app_2; [done|]. apply Forall_app_2; [apply Forall_replicate; lia|].
  apply Forall_singleton, Z.mod_pos_bound. lia.
Qed.

Lemma chunks_word n l : bytes l -> Forall word (chunks n l).
Proof.
  revert l. induction n as [|n IH]; intros l Hl; [constructor|]. cbn [chunks]. constructor; [|by apply IH, Forall_drop].
  assert (bytes (take 8 l)) as H8 by by apply Forall_take. pose proof (le_bound _ H8).
  assert (256 ^ Z.of_nat (length (take 8 l)) <= 256 ^ 8); [|unfold word; lia].
  apply Z.pow_le_mono_r; [lia|]. rewrite length_take. lia.
Qed.

Lemma fold_words l s : Forall word l -> words s -> words (foldl (fun s m => absorb m s) s l).
Proof. intros Hl. revert s. induction Hl; intros s Hs; [done|]. simpl. by apply IHHl, absorb_words_ok. Qed.

Lemma load64_word p : bytes p -> word (load64_le p).
Proof.
  intros Hp. rewrite load64_le_nth by done. unfold word.
  pose proof (byte_at_bound p 0 Hp). pose proof (byte_at_bound p 1 Hp).
  pose proof (byte_at_bound p 2 Hp). pose proof (byte_at_bound p 3 Hp). pose proof (byte_at_bound p 4 Hp).
  pose proof (byte_at_bound p 5 Hp). pose proof (byte_at_bound p 6 Hp). pose proof (byte_at_bound p 7 Hp). lia.
Qed.

Lemma out_word_word s : words s -> word (out_word s).
Proof. intros (? & ? & ? & ?). by repeat apply lxor_word. Qed.

(** The state a tag is computed from, before and after finalisation. *)
Lemma final_words data key i1 i2 f : bytes data -> bytes key -> word i1 -> word f ->
  let k0 := load64_le key in let k1 := load64_le (drop 8 key) in
  let s := Sip (Z.lxor 0x736f6d6570736575 k0) (Z.lxor (Z.lxor 0x646f72616e646f6d k1) i1)
               (Z.lxor 0x6c7967656e657261 k0) (Z.lxor 0x7465646279746573 k1) in
  i2 = foldl (fun s m => absorb m s) s (message data) ->
  words (rounds D_ROUNDS (Sip (v0 i2) (v1 i2) (Z.lxor (v2 i2) f) (v3 i2))).
Proof.
  intros Hd Hk H1 Hf k0 k1 s ->. assert (word k0) by by apply load64_word.
  assert (word k1) by (apply load64_word; by apply Forall_drop).
  destruct (fold_words (message data) s) as (R0 & R1 & R2 & R3).
  { by apply chunks_word, padded_bytes. }
  { unfold s. apply words_intro; repeat apply lxor_word; done. }
  apply rounds_words, words_intro; auto using lxor_word.
Qed.

#[local] Opaque rounds absorb.

(** ** Properties *)


(** C38: the round function is a permutation of the 256-bit state, so no two
    states collide in a round; the inverse is the round run backwards. *)
Theorem sipround_bijective s : words s ->
  words (sipround s) /\ unround (sipround s) = s /\ sipround (unround s) = s.
Proof. auto using sipround_words, unround_sipround, sipround_unround. Qed.

#[local] Transparent rounds absorb.

Definition sample_key : list Z := Z.of_nat <$> seq 0 16.


Lemma sipround_bijective_witness :
  unround (sipround (Sip 1 2 3 4)) = Sip 1 2 3 4.
Proof. apply (sipround_bijective (Sip 1 2 3 4)). by split_and!; unfold word. Defined.
