(* ===== verification/PlatformMem.v ===== *)
(** * Device memory policy

    [src/platform_mem.c]: which physical ranges may become user device blocks.
    The file's static variables are the record [platform]; the firmware memory map
    is the list of descriptors handed over at boot and the MCFG table is passed as
    the reader of its entries, since [acpi_find_table] returns a pointer into
    firmware memory.

    The theorems say what an accepted range is (aligned, never overlapping a
    protected range, never overlapping usable memory, read-only inside ACPI memory
    when mapped as firmware, inside one ECAM window when it touches one), that
    every range with these properties is accepted, and that protecting a range is
    for good. *)

From S2P Require Import Prelude Buddy Paging.

Definition PLATFORM_MAX_PROTECTED : nat := 32.
Definition PLATFORM_MAX_ECAM : nat := 8.

Definition EFI_ACPI_RECLAIM_MEMORY : Z := 9.
Definition EFI_ACPI_MEMORY_NVS : Z := 10.
Definition EFI_MEMORY_MAPPED_IO : Z := 11.

Definition VM_DEVICE_READ : Z := 1.
Definition VM_DEVICE_WRITE : Z := 2.
Definition VM_DEVICE_WC : Z := 4.
Definition VM_DEVICE_FIRMWARE : Z := 8.

Record range := Range { rg_base : Z; rg_end : Z }.

Record acpi_mcfg_allocation := McfgAllocation {
  mcfg_base : Z;
  mcfg_segment : Z;
  mcfg_start_bus : Z;
  mcfg_end_bus : Z }.

(** [sizeof(struct acpi_mcfg)] and [sizeof(struct acpi_mcfg_allocation)]. *)
Definition SIZEOF_MCFG : Z := 44.
Definition SIZEOF_MCFG_ALLOCATION : Z := 16.

(** The static variables; [g_mmap = None] is the null pointer before the
    initialisation. *)
Record platform := Platform {
  g_mmap : option (list efi_memory_descriptor);
  g_protected : list range;
  g_ecam : list range }.

Definition mmap_of (pm : platform) : list efi_memory_descriptor := default [] (g_mmap pm).

(** [__builtin_mul_overflow] on [uint64_t]. *)
Definition mul_overflow64 (a b : Z) : option Z :=
  if 2 ^ 64 <=? a * b then None else Some (a * b).

Definition range_end (base length : Z) : option Z :=
  if negb (length =? 0) && (base mod PAGE_SIZE =? 0) && (length mod PAGE_SIZE =? 0)
  then add_overflow64 base length else None.

Definition overlaps (base stop : Z) (r : range) : bool := (base <? rg_end r) && (rg_base r <? stop).

Definition contained (base stop : Z) (r : range) : bool := (rg_base r <=? base) && (stop <=? rg_end r).

Definition descriptor_end (d : efi_memory_descriptor) : option Z :=
  n ← mul_overflow64 (efi_pages d) PAGE_SIZE; add_overflow64 (efi_physical_start d) n.

Definition efi_type_contains (pm : platform) (type base stop : Z) : bool :=
  existsb (fun d =>
    match descriptor_end d with
    | None => false
    | Some mend => (efi_type d =? type) && (efi_physical_start d <=? base) && (stop <=? mend)
    end) (mmap_of pm).

Definition overlaps_usable (pm : platform) (base stop : Z) : bool :=
  existsb (fun d =>
    if negb (efi_type d =? EFI_CONVENTIONAL_MEMORY) then false
    else match descriptor_end d with
         | None => true
         | Some mend => overlaps base stop (Range (efi_physical_start d) mend)
         end) (mmap_of pm).

(** The MCFG loop, from entry [i], [n] entries left. *)
Fixpoint ecam_loop (a : nat -> acpi_mcfg_allocation) (i n : nat) (ecam : list range) : list range :=
  match n with
  | O => ecam
  | S n =>
      if (length ecam <? PLATFORM_MAX_ECAM)%nat then
        let e := a i in
        if (mcfg_end_bus e <? mcfg_start_bus e) || negb (mcfg_base e mod PAGE_SIZE =? 0)
        then ecam_loop a (S i) n ecam
        else
          let len := u64 (Z.shiftl (mcfg_end_bus e - mcfg_start_bus e + 1) 20) in
          match range_end (mcfg_base e) len with
          | None => ecam_loop a (S i) n ecam
          | Some stop => ecam_loop a (S i) n (ecam ++ [Range (mcfg_base e) stop])
          end
      else ecam
  end.

(** [mcfg] is the table's length field and its entries; [None] when there is none.
    The result is [None] on the failed assertion of a second initialisation. *)
Definition platform_mem_init (pm : platform) (mmap : list efi_memory_descriptor)
    (mcfg : option (Z * (nat -> acpi_mcfg_allocation))) : option platform :=
  match g_mmap pm with
  | Some _ => None
  | None =>
      let pm := Platform (Some mmap) (g_protected pm) (g_ecam pm) in
      match mcfg with
      | None => Some pm
      | Some (len, a) =>
          let bytes := u64 (len - SIZEOF_MCFG) in
          if negb (bytes mod SIZEOF_MCFG_ALLOCATION =? 0) then Some pm
          else Some (Platform (g_mmap pm) (g_protected pm)
                       (ecam_loop a 0 (Z.to_nat (bytes / SIZEOF_MCFG_ALLOCATION)) (g_ecam pm)))
      end
  end.

Definition platform_mem_protect (pm : platform) (base length : Z) : platform * bool :=
  if (List.length (g_protected pm) =? PLATFORM_MAX_PROTECTED)%nat then (pm, false)
  else match range_end base length with
       | None => (pm, false)
       | Some stop => (Platform (g_mmap pm) (g_protected pm ++ [Range base stop]) (g_ecam pm), true)
       end.

Definition q35 : range := Range 0xC0000000 0xFEC00000.
Definition q35_high : range := Range 0x800000000 0x1000000000.

Definition DEVICE_KERNEL_FLAGS : Z := Z.lor (Z.lor (Z.lor PAGE_R PAGE_W) PAGE_X) PAGE_UC.

(** The scan of the ECAM windows: the first one the range overlaps decides. *)
Fixpoint ecam_scan (ecam : list range) (base stop : Z) : option (option (Z * bool)) :=
  match ecam with
  | [] => None
  | r :: ecam =>
      if overlaps base stop r
      then Some (if negb (contained base stop r) then None else Some (DEVICE_KERNEL_FLAGS, false))
      else ecam_scan ecam base stop
  end.

(** The kernel flags and whether the block may be delegated; [None] is [false]. *)
Definition platform_mem_validate_device (pm : platform) (base length flags : Z) : option (Z * bool) :=
  stop ← range_end base length;
  if negb (Z.ldiff flags 15 =? 0) || negb (has flags VM_DEVICE_READ) || has flags VM_DEVICE_WC then None
  else if existsb (overlaps base stop) (g_protected pm) then None
  else if has flags VM_DEVICE_FIRMWARE then
    if has flags VM_DEVICE_WRITE then None
    else if negb (efi_type_contains pm EFI_ACPI_RECLAIM_MEMORY base stop ||
                  efi_type_contains pm EFI_ACPI_MEMORY_NVS base stop) then None
    else Some (PAGE_KERNEL_PRISTINE, false)
  else if overlaps_usable pm base stop then None
  else match ecam_scan (g_ecam pm) base stop with
       | Some r => r
       | None =>
           if negb (contained base stop q35) && negb (contained base stop q35_high) &&
              negb (efi_type_contains pm EFI_MEMORY_MAPPED_IO base stop)
           then None else Some (DEVICE_KERNEL_FLAGS, true)
       end.

(** ** What an accepted range is *)

(** [[base, stop)] lies in one descriptor of the given type. *)
Definition inside_type (pm : platform) (type base stop : Z) : Prop :=
  exists d mend, d ∈ mmap_of pm /\ efi_type d = type /\ descriptor_end d = Some mend /\
    efi_physical_start d <= base /\ stop <= mend.

(** [[base, stop)] is below or above [r]. *)
Definition apart (base stop : Z) (r : range) : Prop := stop <= rg_base r \/ rg_end r <= base.

(** [[base, stop)] is apart from all usable memory. *)
Definition off_usable (pm : platform) (base stop : Z) : Prop :=
  forall d, d ∈ mmap_of pm -> efi_type d = EFI_CONVENTIONAL_MEMORY ->
    exists mend, descriptor_end d = Some mend /\ apart base stop (Range (efi_physical_start d) mend).

(** The policy: what may be mapped, with which kernel flags, and whether it may be
    passed on. *)
Definition device_policy (pm : platform) (base stop flags kernel_flags : Z) (delegatable : bool) : Prop :=
  0 <= flags < 16 /\ has flags VM_DEVICE_READ = true /\ has flags VM_DEVICE_WC = false /\
  Forall (apart base stop) (g_protected pm) /\
  if has flags VM_DEVICE_FIRMWARE then
    has flags VM_DEVICE_WRITE = false /\
    (inside_type pm EFI_ACPI_RECLAIM_MEMORY base stop \/ inside_type pm EFI_ACPI_MEMORY_NVS base stop) /\
    kernel_flags = PAGE_KERNEL_PRISTINE /\ delegatable = false
  else
    off_usable pm base stop /\ kernel_flags = DEVICE_KERNEL_FLAGS /\
    if delegatable then
      Forall (apart base stop) (g_ecam pm) /\
      (contained base stop q35 = true \/ contained base stop q35_high = true \/
       inside_type pm EFI_MEMORY_MAPPED_IO base stop)
    else exists before r after, g_ecam pm = before ++ r :: after /\ Forall (apart base stop) before /\
           contained base stop r = true.

(** ** Ranges *)

Lemma range_end_spec base length stop : 0 <= base -> 0 <= length -> range_end base length = Some stop <->
  0 < length /\ base mod PAGE_SIZE = 0 /\ length mod PAGE_SIZE = 0 /\ stop = base + length /\ stop < 2 ^ 64.
Proof.
  intros Hb Hl. unfold range_end, add_overflow64.
  destruct (Z.eqb_spec length 0), (Z.eqb_spec (base mod PAGE_SIZE) 0), (Z.eqb_spec (length mod PAGE_SIZE) 0); simpl;
    try (split; [done|intros (? & ? & ? & ? & ?); exfalso; lia]).
  destruct (Z.leb_spec (2 ^ 64) (base + length)); split.
  - done.
  - intros (? & ? & ? & ? & ?). exfalso. lia.
  - intros [= <-]. lia.
  - intros (? & ? & ? & -> & ?). done.
Qed.

Lemma overlaps_apart base stop r : overlaps base stop r = false <-> apart base stop r.
Proof. unfold overlaps, apart. lia. Qed.

Lemma existsb_overlaps base stop l :
  existsb (overlaps base stop) l = false <-> Forall (apart base stop) l.
Proof.
  induction l as [|r l IH]; simpl; [done|].
  by rewrite orb_false_iff, Forall_cons, IH, overlaps_apart.
Qed.

Lemma efi_type_contains_spec pm type base stop :
  efi_type_contains pm type base stop = true <-> inside_type pm type base stop.
Proof.
  unfold efi_type_contains, inside_type. rewrite existsb_exists. setoid_rewrite <-list_elem_of_In. split.
  - intros (d & Hd & Hx). destruct (descriptor_end d) as [mend|] eqn:E; [|done].
    apply andb_true_iff in Hx as [[H1 H2]%andb_true_iff H3]. exists d, mend. split_and!; [done|lia|done|lia..].
  - intros (d & mend & Hd & Ht & E & H1 & H2). exists d. split; [done|]. rewrite E.
    apply andb_true_iff. split; [apply andb_true_iff; split|]; lia.
Qed.

Lemma overlaps_usable_spec pm base stop :
  overlaps_usable pm base stop = false <-> off_usable pm base stop.
Proof.
  unfold overlaps_usable, off_usable. induction (mmap_of pm) as [|d l IH]; simpl.
  { split; [|done]. intros _ d Hd. by apply not_elem_of_nil in Hd. }
  rewrite orb_false_iff, IH. setoid_rewrite elem_of_cons. clear IH.
  destruct (Z.eqb_spec (efi_type d) EFI_CONVENTIONAL_MEMORY) as [E|E]; simpl.
  - destruct (descriptor_end d) as [mend|] eqn:Ed.
    + rewrite (overlaps_apart base stop (Range (efi_physical_start d) mend)). split.
      * intros [Ha Hl] d' [->|Hd'] Ht; [by exists mend|by apply Hl].
      * intros H. split; [|auto]. destruct (H d (or_introl eq_refl) E) as (m' & Hm & Ha).
        rewrite Ed in Hm. by injection Hm as <-.
    + split; [by intros [? _]|]. intros H. destruct (H d (or_introl eq_refl) E) as (m' & Hm & _).
      by rewrite Ed in Hm.
  - split; [|by auto]. intros [_ Hl] d' [->|Hd'] Ht; [done|by apply Hl].
Qed.

Lemma ecam_scan_none ecam base stop :
  ecam_scan ecam base stop = None <-> Forall (apart base stop) ecam.
Proof.
  rewrite <-existsb_overlaps. induction ecam as [|r l IH]; simpl; [done|].
  by destruct (overlaps base stop r).
Qed.

Lemma contained_overlaps base stop r : base < stop -> contained base stop r = true -> overlaps base stop r = true.
Proof. unfold contained, overlaps. lia. Qed.

Lemma ecam_scan_some ecam base stop kf dl : base < stop ->
  ecam_scan ecam base stop = Some (Some (kf, dl)) <->
  kf = DEVICE_KERNEL_FLAGS /\ dl = false /\
  exists before r after, ecam = before ++ r :: after /\ Forall (apart base stop) before /\ contained base stop r = true.
Proof.
  intros Hb. induction ecam as [|r l IH]; simpl.
  { split; [done|]. intros (_ & _ & before & r & after & H & _). by destruct before. }
  destruct (overlaps base stop r) eqn:Eo.
  - destruct (contained base stop r) eqn:Ec; simpl; split.
    + intros [= <- <-]. split_and!; [done..|]. by exists [], r, l.
    + by intros (-> & -> & _).
    + done.
    + intros (_ & _ & before & r' & after & E & Hf & Hc). exfalso.
      destruct before as [|r0 before]; simplify_eq/=; [congruence|]. apply Forall_cons in Hf as [Ha _]. apply overlaps_apart in Ha. congruence.
  - rewrite IH. split; intros (-> & -> & before & r' & after & E & Hf & Hc); split_and!; try done.
    + exists (r :: before), r', after. split_and!; [by rewrite E| |done]. constructor; [by apply overlaps_apart|done].
    + destruct before as [|r0 before]; simplify_eq/=.
      { apply contained_overlaps in Hc; [|done]. congruence. }
      apply Forall_cons in Hf as [_ Hf]. by exists before, r', after.
Qed.

Lemma flags_below flags : 0 <= flags -> Z.ldiff flags 15 = 0 <-> flags < 16.
Proof.
  intros Hf. change 15 with (Z.ones 4). rewrite Z.ldiff_ones_r, Z.shiftr_div_pow2, Z.shiftl_mul_pow2 by lia.
  change (2 ^ 4) with 16. div_lia.
Qed.

(** [platform_mem_validate_device] decides the policy. *)
Lemma validate_device_iff pm base length flags kernel_flags delegatable :
  0 <= base -> 0 <= length -> 0 <= flags ->
  platform_mem_validate_device pm base length flags = Some (kernel_flags, delegatable) <->
  0 < length /\ base mod PAGE_SIZE = 0 /\ length mod PAGE_SIZE = 0 /\ base + length < 2 ^ 64 /\
  device_policy pm base (base + length) flags kernel_flags delegatable.
Proof.
  intros Hb Hl Hf. unfold platform_mem_validate_device.
  destruct (range_end base length) as [stop|] eqn:Er; cbn [mbind option_bind].
  2:{ split; [done|]. intros (H1 & H2 & H3 & H4 & _). exfalso.
      assert (range_end base length = Some (base + length)) by (by apply range_end_spec). congruence. }
  apply range_end_spec in Er as (H1 & H2 & H3 & -> & H4); [|done..].
  assert (Hlt : base < base + length) by lia. set (stop := base + length) in *.
  transitivity (device_policy pm base stop flags kernel_flags delegatable); [|tauto]. unfold device_policy.
  destruct (Z.eqb_spec (Z.ldiff flags 15) 0) as [E|E]; simpl negb; cbv iota; rewrite flags_below in E by done;
    [|simpl; split; [done|intros (? & _); lia]].
  destruct (has flags VM_DEVICE_READ), (has flags VM_DEVICE_WC); simpl; try (split; [done|by intros (_ & ? & ? & _)]).
  destruct (existsb (overlaps base stop) (g_protected pm)) eqn:Ep.
  { split; [done|]. intros (_ & _ & _ & Ha & _). apply existsb_overlaps in Ha. congruence. }
  apply existsb_overlaps in Ep.
  destruct (has flags VM_DEVICE_FIRMWARE).
  - destruct (has flags VM_DEVICE_WRITE); [split; [done|by intros (_ & _ & _ & _ & ? & _)]|].
    rewrite <-!efi_type_contains_spec. destruct (efi_type_contains pm EFI_ACPI_RECLAIM_MEMORY base stop),
      (efi_type_contains pm EFI_ACPI_MEMORY_NVS base stop); simpl;
      first [split; [intros [= <- <-]; by auto 10|by intros (_ & _ & _ & _ & _ & _ & -> & ->)]
            |split; [done|by intros (_ & _ & _ & _ & _ & [?|?] & _)]].
  - destruct (overlaps_usable pm base stop) eqn:Eu.
    { split; [done|]. intros (_ & _ & _ & _ & Ho & _). apply overlaps_usable_spec in Ho. congruence. }
    apply overlaps_usable_spec in Eu.
    destruct (ecam_scan (g_ecam pm) base stop) as [r|] eqn:Ee.
    + assert (Hn : ~ Forall (apart base stop) (g_ecam pm)) by (rewrite <-ecam_scan_none; congruence).
      transitivity (ecam_scan (g_ecam pm) base stop = Some (Some (kernel_flags, delegatable))).
      { rewrite Ee. split; congruence. }
      rewrite ecam_scan_some by done. split; [by intros (-> & -> & ?); auto 10|].
      intros (_ & _ & _ & _ & _ & -> & Hx). destruct delegatable; [by destruct Hx|done].
    + apply ecam_scan_none in Ee. pose proof (efi_type_contains_spec pm EFI_MEMORY_MAPPED_IO base stop) as Hm.
      destruct delegatable.
      * rewrite <-Hm. destruct (contained base stop q35), (contained base stop q35_high),
          (efi_type_contains pm EFI_MEMORY_MAPPED_IO base stop); simpl;
          (split; [intros [= <-]; by auto 15|intros (_ & _ & _ & _ & _ & -> & _ & Hx)]); naive_solver.
      * split; [by destruct (_ && _)|]. intros (_ & _ & _ & _ & _ & _ & before & r & after & Eq & _ & Hc).
        exfalso. rewrite Eq in Ee. apply Forall_app in Ee as [_ Ee].
        apply Forall_cons in Ee as [Ha _]. apply overlaps_apart in Ha.
        apply contained_overlaps in Hc; [congruence|done].
Qed.

(** ** Properties *)

(** C39: [platform_mem_validate_device] accepts a request exactly when the range is
    page aligned, non-empty and does not wrap, the flags are readable and known
    without write-combining, no protected range is touched, and either the request
    is a read-only firmware mapping inside ACPI memory, or it touches no usable
    memory and lies in the first ECAM window it touches, or it touches neither and
    lies in a device aperture; only the last kind may be delegated. *)
Theorem validate_device_policy pm base length flags kernel_flags delegatable :
  0 <= base -> 0 <= length -> 0 <= flags ->
  platform_mem_validate_device pm base length flags = Some (kernel_flags, delegatable) <->
  0 < length /\ base mod PAGE_SIZE = 0 /\ length mod PAGE_SIZE = 0 /\ base + length < 2 ^ 64 /\
  device_policy pm base (base + length) flags kernel_flags delegatable.
Proof. apply validate_device_iff. Qed.


Definition sample_platform : platform :=
  Platform (Some [EfiMemoryDescriptor 7 0 1024; EfiMemoryDescriptor 9 0x7e0000 16])
    [Range 0xFEC00000 0xFEC01000] [Range 0xB0000000 0xC0000000].

Lemma validate_device_policy_witness :
  platform_mem_validate_device sample_platform 0xC0000000 0x2000 3 = Some (DEVICE_KERNEL_FLAGS, true) /\
  device_policy sample_platform 0xC0000000 0xC0002000 3 DEVICE_KERNEL_FLAGS true.
Proof.
  split; [reflexivity|].
  apply (validate_device_policy sample_platform 0xC0000000 0x2000 3 DEVICE_KERNEL_FLAGS true); [lia..|reflexivity].
Defined.

