(* ===== verification/Machine.v ===== *)
(** * The kernel's state and the monad its control plane runs in

    The structs of [thread.h], [umem.h], [channel.h] and [scheduler.h] as records
    ([process], [thread], [ublock], [share_edge], [ring], [cpu]), the kernel's
    global variables as one record [kstate], and the effect of kernel code as
    [M A := kstate -> outcome A].

    Heap objects live in finite maps.  A process is named by its pid and a thread
    by its tid (both are minted by counters that never go back); a block, a share
    edge and a ring are named by a reference drawn from [k_next_ref], the address
    of the object in C.  A reference that is in no map is a dangling pointer:
    following it is [HDangling].  The ordered indices ([llrb_*]) are finite maps
    here; Llrb.v shows that the tree template implements them.

    [outcome] separates a normal return, a park (the code switched to the
    scheduler and never returns to its caller) and a halt: a failed [asserts], a
    dangling pointer, a lock taken against the hierarchy of [umem.h], a kernel-mode
    access to an unmapped or non-canonical address, an allocation failure under an
    [asserts], or a spin on another processor.

    Page trees are behind the interface [PageTree]: the flat instance given here is
    the one used to evaluate, and PageTrees.v discharges the interface with the
    four-level trees of Paging.v.  [as_flush] only clears the dirty mark here: the
    shootdown protocol itself is not modelled.  Interrupt masking is not modelled.
    Loads and stores to user memory check presence in the address space loaded on
    the running processor; the write bit is not checked, because the kernel never
    sets [CR0.WP]. *)

From S2P Require Import Prelude Buddy Paging PlatformMem.

(** ** Page trees as the control plane sees them *)

Definition page_range (a b : Z) : Prop :=
  0 <= a <= b /\ b <= 2 ^ 48 /\ a mod PAGE_SIZE = 0 /\ b mod PAGE_SIZE = 0.

(** The flag words [as_flag] accepts and [as_getinfo] reports back unchanged. *)
Definition flags_valid (f : Z) : Prop :=
  0 <= f < 64 /\ (Z.land f 15 = 0 \/ has f PAGE_R = true) /\ Z.land f PAGE_CACHE_MASK <> PAGE_WC.

(** What [as_getinfo] reports for a page flagged [f]: 0 is "not present". *)
Definition shown (f : Z) : Z := if Z.land f 15 =? 0 then 0 else f.

(** [pt_info t a] is the flag word [as_getinfo] reports at [a], 0 when the page is
    not present; the walk ignores the upper 16 bits of an address and the offset in
    the page. *)
Class PageTree := {
  ptree : Type;
  pt_info : ptree -> Z -> Z;
  pt_flag : ptree -> Z -> Z -> Z -> option ptree;
  pt_clone : ptree -> ptree;
  pt_info_page t a : 0 <= a -> pt_info t a = pt_info t (a mod 2 ^ 48 / PAGE_SIZE * PAGE_SIZE);
  pt_flag_spec t a b f : page_range a b -> flags_valid f ->
    exists t', pt_flag t a b f = Some t' /\
      forall x, 0 <= x < 2 ^ 48 ->
        pt_info t' x = if decide (a <= x < b) then shown f else pt_info t x;
  pt_clone_spec t x : 0 <= x < 2 ^ 48 -> pt_info (pt_clone t) x = pt_info t x }.

Lemma pt_info_alias {PT : PageTree} t a : 0 <= a -> pt_info t a = pt_info t (a mod 2 ^ 48).
Proof.
  intros Ha. rewrite (pt_info_page t a), (pt_info_page t (a mod 2 ^ 48)) by (try apply Z.mod_pos_bound; lia).
  by rewrite Zmod_mod.
Qed.

(** The flat instance: a function from page numbers to flag words. *)
Definition flat_flag (t : Z -> Z) (a b f : Z) : option (Z -> Z) :=
  Some (fun n => if (a / PAGE_SIZE <=? n) && (n <? b / PAGE_SIZE) then shown f else t n).

Definition flat_info (t : Z -> Z) (a : Z) : Z := t (a mod 2 ^ 48 / PAGE_SIZE).

Lemma flat_info_page t a : 0 <= a -> flat_info t a = flat_info t (a mod 2 ^ 48 / PAGE_SIZE * PAGE_SIZE).
Proof. intros Ha. unfold flat_info, PAGE_SIZE. f_equal. div_lia. Qed.

Lemma flat_flag_spec t a b f : page_range a b -> flags_valid f ->
  exists t', flat_flag t a b f = Some t' /\
    forall x, 0 <= x < 2 ^ 48 ->
      flat_info t' x = if decide (a <= x < b) then shown f else flat_info t x.
Proof.
  intros (H1 & H2 & H3 & H4) Hf. eexists. split; [done|]. intros x Hx. unfold flat_info.
  rewrite !(Z.mod_small x) by lia. unfold PAGE_SIZE in *.
  destruct (decide (a <= x < b)), (Z.leb_spec (a / 4096) (x / 4096)), (Z.ltb_spec (x / 4096) (b / 4096)); simpl;
    first [done | exfalso; div_lia].
Qed.

Definition flat_pages : PageTree := {|
  ptree := Z -> Z;
  pt_info := flat_info;
  pt_flag := flat_flag;
  pt_clone t := t;
  pt_info_page := flat_info_page;
  pt_flag_spec := flat_flag_spec;
  pt_clone_spec _ _ _ := eq_refl |}.

Section Structs.
Context {PT : PageTree}.

(** ** Structs *)

(** [struct address_space]; [a_dirty] is "the dirty range is not empty". *)
Record aspace := Aspace {
  a_tree : ptree;
  a_pins : Z;
  a_dirty : bool }.

Definition upd_a_tree (f : ptree -> ptree) (r : aspace) : aspace :=
  Aspace (f (a_tree r)) (a_pins r) (a_dirty r).
Definition upd_a_pins (f : Z -> Z) (r : aspace) : aspace :=
  Aspace (a_tree r) (f (a_pins r)) (a_dirty r).
Definition upd_a_dirty (f : bool -> bool) (r : aspace) : aspace :=
  Aspace (a_tree r) (a_pins r) (f (a_dirty r)).

Inductive thread_status :=
  | THREAD_RUNNABLE
  | THREAD_RUNNING
  | THREAD_BLOCKED
  | THREAD_DEAD.

Inductive futex_state :=
  | FUTEX_IDLE
  | FUTEX_PARKED
  | FUTEX_MOVING
  | FUTEX_CLAIMED
  | FUTEX_REAPABLE.

Inductive ublock_backing :=
  | UBLOCK_RAM
  | UBLOCK_DEVICE.

(** [struct trap_frame], in the order of the source. *)
Record frame := TrapFrame {
  f_rax : Z; f_rbx : Z; f_rcx : Z; f_rbp : Z; f_rsi : Z; f_rdi : Z; f_r10 : Z; f_r11 : Z;
  f_r12 : Z; f_r13 : Z; f_r14 : Z; f_r15 : Z; f_r9 : Z; f_r8 : Z; f_rdx : Z; f_error : Z;
  f_rip : Z; f_cs : Z; f_rflags : Z; f_rsp : Z; f_ss : Z }.

Definition set_rax (v : Z) (f : frame) : frame :=
  TrapFrame v (f_rbx f) (f_rcx f) (f_rbp f) (f_rsi f) (f_rdi f) (f_r10 f) (f_r11 f) (f_r12 f) (f_r13 f)
    (f_r14 f) (f_r15 f) (f_r9 f) (f_r8 f) (f_rdx f) (f_error f) (f_rip f) (f_cs f) (f_rflags f) (f_rsp f) (f_ss f).

(** [struct thread] with the fields of its [struct arch_thread] that hold user state;
    the extended register area and the forged resume stack are not modelled. *)
Record thread := Thread {
  t_tid : Z;
  t_proc : Z;
  t_status : thread_status;
  t_on_cpu : bool;
  t_wait_key : Z * Z;
  t_deadline : Z;
  t_deadline_cpu : Z;
  t_wake_state : futex_state;
  t_completion_block : option Z;
  t_completion_event : Z;
  t_frame : frame;
  t_fs_base : Z;
  t_gs_base : Z }.

Definition upd_t_tid (f : Z -> Z) (r : thread) : thread :=
  Thread (f (t_tid r)) (t_proc r) (t_status r) (t_on_cpu r) (t_wait_key r) (t_deadline r) (t_deadline_cpu r)
    (t_wake_state r) (t_completion_block r) (t_completion_event r) (t_frame r) (t_fs_base r) (t_gs_base r).
Definition upd_t_proc (f : Z -> Z) (r : thread) : thread :=
  Thread (t_tid r) (f (t_proc r)) (t_status r) (t_on_cpu r) (t_wait_key r) (t_deadline r) (t_deadline_cpu r)
    (t_wake_state r) (t_completion_block r) (t_completion_event r) (t_frame r) (t_fs_base r) (t_gs_base r).
Definition upd_t_status (f : thread_status -> thread_status) (r : thread) : thread :=
  Thread (t_tid r) (t_proc r) (f (t_status r)) (t_on_cpu r) (t_wait_key r) (t_deadline r) (t_deadline_cpu r)
    (t_wake_state r) (t_completion_block r) (t_completion_event r) (t_frame r) (t_fs_base r) (t_gs_base r).
Definition upd_t_on_cpu (f : bool -> bool) (r : thread) : thread :=
  Thread (t_tid r) (t_proc r) (t_status r) (f (t_on_cpu r)) (t_wait_key r) (t_deadline r) (t_deadline_cpu r)
    (t_wake_state r) (t_completion_block r) (t_completion_event r) (t_frame r) (t_fs_base r) (t_gs_base r).
Definition upd_t_wait_key (f : (Z * Z) -> (Z * Z)) (r : thread) : thread :=
  Thread (t_tid r) (t_proc r) (t_status r) (t_on_cpu r) (f (t_wait_key r)) (t_deadline r) (t_deadline_cpu r)
    (t_wake_state r) (t_completion_block r) (t_completion_event r) (t_frame r) (t_fs_base r) (t_gs_base r).
Definition upd_t_deadline (f : Z -> Z) (r : thread) : thread :=
  Thread (t_tid r) (t_proc r) (t_status r) (t_on_cpu r) (t_wait_key r) (f (t_deadline r)) (t_deadline_cpu r)
    (t_wake_state r) (t_completion_block r) (t_completion_event r) (t_frame r) (t_fs_base r) (t_gs_base r).
Definition upd_t_deadline_cpu (f : Z -> Z) (r : thread) : thread :=
  Thread (t_tid r) (t_proc r) (t_status r) (t_on_cpu r) (t_wait_key r) (t_deadline r) (f (t_deadline_cpu r))
    (t_wake_state r) (t_completion_block r) (t_completion_event r) (t_frame r) (t_fs_base r) (t_gs_base r).
Definition upd_t_wake_state (f : futex_state -> futex_state) (r : thread) : thread :=
  Thread (t_tid r) (t_proc r) (t_status r) (t_on_cpu r) (t_wait_key r) (t_deadline r) (t_deadline_cpu r)
    (f (t_wake_state r)) (t_completion_block r) (t_completion_event r) (t_frame r) (t_fs_base r)
    (t_gs_base r).
Definition upd_t_completion_block (f : (option Z) -> (option Z)) (r : thread) : thread :=
  Thread (t_tid r) (t_proc r) (t_status r) (t_on_cpu r) (t_wait_key r) (t_deadline r) (t_deadline_cpu r)
    (t_wake_state r) (f (t_completion_block r)) (t_completion_event r) (t_frame r) (t_fs_base r)
    (t_gs_base r).
Definition upd_t_completion_event (f : Z -> Z) (r : thread) : thread :=
  Thread (t_tid r) (t_proc r) (t_status r) (t_on_cpu r) (t_wait_key r) (t_deadline r) (t_deadline_cpu r)
    (t_wake_state r) (t_completion_block r) (f (t_completion_event r)) (t_frame r) (t_fs_base r)
    (t_gs_base r).
Definition upd_t_frame (f : frame -> frame) (r : thread) : thread :=
  Thread (t_tid r) (t_proc r) (t_status r) (t_on_cpu r) (t_wait_key r) (t_deadline r) (t_deadline_cpu r)
    (t_wake_state r) (t_completion_block r) (t_completion_event r) (f (t_frame r)) (t_fs_base r)
    (t_gs_base r).
Definition upd_t_fs_base (f : Z -> Z) (r : thread) : thread :=
  Thread (t_tid r) (t_proc r) (t_status r) (t_on_cpu r) (t_wait_key r) (t_deadline r) (t_deadline_cpu r)
    (t_wake_state r) (t_completion_block r) (t_completion_event r) (t_frame r) (f (t_fs_base r))
    (t_gs_base r).
Definition upd_t_gs_base (f : Z -> Z) (r : thread) : thread :=
  Thread (t_tid r) (t_proc r) (t_status r) (t_on_cpu r) (t_wait_key r) (t_deadline r) (t_deadline_cpu r)
    (t_wake_state r) (t_completion_block r) (t_completion_event r) (t_frame r) (t_fs_base r)
    (f (t_gs_base r)).

(** [struct process]; its pid is also its key in [k_procs]. *)
Record process := Process {
  p_pid : Z;
  p_as : option aspace;
  p_dead : bool;
  p_parent : option Z;
  p_children : gmap Z Z;
  p_death_notified : bool;
  p_exit_status : Z;
  p_nthreads : Z;
  p_threads : gmap Z Z;
  p_blocks : gmap Z Z;
  p_views : gmap Z Z;
  p_unnotified_head : option Z;
  p_unnotified_tail : option Z;
  p_share_ch : option Z;
  p_tree_ch : option Z;
  p_iommu_ch : option Z }.

Definition upd_p_pid (f : Z -> Z) (r : process) : process :=
  Process (f (p_pid r)) (p_as r) (p_dead r) (p_parent r) (p_children r) (p_death_notified r)
    (p_exit_status r) (p_nthreads r) (p_threads r) (p_blocks r) (p_views r) (p_unnotified_head r)
    (p_unnotified_tail r) (p_share_ch r) (p_tree_ch r) (p_iommu_ch r).
Definition upd_p_as (f : (option aspace) -> (option aspace)) (r : process) : process :=
  Process (p_pid r) (f (p_as r)) (p_dead r) (p_parent r) (p_children r) (p_death_notified r)
    (p_exit_status r) (p_nthreads r) (p_threads r) (p_blocks r) (p_views r) (p_unnotified_head r)
    (p_unnotified_tail r) (p_share_ch r) (p_tree_ch r) (p_iommu_ch r).
Definition upd_p_dead (f : bool -> bool) (r : process) : process :=
  Process (p_pid r) (p_as r) (f (p_dead r)) (p_parent r) (p_children r) (p_death_notified r)
    (p_exit_status r) (p_nthreads r) (p_threads r) (p_blocks r) (p_views r) (p_unnotified_head r)
    (p_unnotified_tail r) (p_share_ch r) (p_tree_ch r) (p_iommu_ch r).
Definition upd_p_parent (f : (option Z) -> (option Z)) (r : process) : process :=
  Process (p_pid r) (p_as r) (p_dead r) (f (p_parent r)) (p_children r) (p_death_notified r)
    (p_exit_status r) (p_nthreads r) (p_threads r) (p_blocks r) (p_views r) (p_unnotified_head r)
    (p_unnotified_tail r) (p_share_ch r) (p_tree_ch r) (p_iommu_ch r).
Definition upd_p_children (f : (gmap Z Z) -> (gmap Z Z)) (r : process) : process :=
  Process (p_pid r) (p_as r) (p_dead r) (p_parent r) (f (p_children r)) (p_death_notified r)
    (p_exit_status r) (p_nthreads r) (p_threads r) (p_blocks r) (p_views r) (p_unnotified_head r)
    (p_unnotified_tail r) (p_share_ch r) (p_tree_ch r) (p_iommu_ch r).
Definition upd_p_death_notified (f : bool -> bool) (r : process) : process :=
  Process (p_pid r) (p_as r) (p_dead r) (p_parent r) (p_children r) (f (p_death_notified r))
    (p_exit_status r) (p_nthreads r) (p_threads r) (p_blocks r) (p_views r) (p_unnotified_head r)
    (p_unnotified_tail r) (p_share_ch r) (p_tree_ch r) (p_iommu_ch r).
Definition upd_p_exit_status (f : Z -> Z) (r : process) : process :=
  Process (p_pid r) (p_as r) (p_dead r) (p_parent r) (p_children r) (p_death_notified r)
    (f (p_exit_status r)) (p_nthreads r) (p_threads r) (p_blocks r) (p_views r) (p_unnotified_head r)
    (p_unnotified_tail r) (p_share_ch r) (p_tree_ch r) (p_iommu_ch r).
Definition upd_p_nthreads (f : Z -> Z) (r : process) : process :=
  Process (p_pid r) (p_as r) (p_dead r) (p_parent r) (p_children r) (p_death_notified r) (p_exit_status r)
    (f (p_nthreads r)) (p_threads r) (p_blocks r) (p_views r) (p_unnotified_head r) (p_unnotified_tail r)
    (p_share_ch r) (p_tree_ch r) (p_iommu_ch r).
Definition upd_p_threads (f : (gmap Z Z) -> (gmap Z Z)) (r : process) : process :=
  Process (p_pid r) (p_as r) (p_dead r) (p_parent r) (p_children r) (p_death_notified r) (p_exit_status r)
    (p_nthreads r) (f (p_threads r)) (p_blocks r) (p_views r) (p_unnotified_head r) (p_unnotified_tail r)
    (p_share_ch r) (p_tree_ch r) (p_iommu_ch r).
Definition upd_p_blocks (f : (gmap Z Z) -> (gmap Z Z)) (r : process) : process :=
  Process (p_pid r) (p_as r) (p_dead r) (p_parent r) (p_children r) (p_death_notified r) (p_exit_status r)
    (p_nthreads r) (p_threads r) (f (p_blocks r)) (p_views r) (p_unnotified_head r) (p_unnotified_tail r)
    (p_share_ch r) (p_tree_ch r) (p_iommu_ch r).
Definition upd_p_views (f : (gmap Z Z) -> (gmap Z Z)) (r : process) : process :=
  Process (p_pid r) (p_as r) (p_dead r) (p_parent r) (p_children r) (p_death_notified r) (p_exit_status r)
    (p_nthreads r) (p_threads r) (p_blocks r) (f (p_views r)) (p_unnotified_head r) (p_unnotified_tail r)
    (p_share_ch r) (p_tree_ch r) (p_iommu_ch r).
Definition upd_p_unnotified_head (f : (option Z) -> (option Z)) (r : process) : process :=
  Process (p_pid r) (p_as r) (p_dead r) (p_parent r) (p_children r) (p_death_notified r) (p_exit_status r)
    (p_nthreads r) (p_threads r) (p_blocks r) (p_views r) (f (p_unnotified_head r)) (p_unnotified_tail r)
    (p_share_ch r) (p_tree_ch r) (p_iommu_ch r).
Definition upd_p_unnotified_tail (f : (option Z) -> (option Z)) (r : process) : process :=
  Process (p_pid r) (p_as r) (p_dead r) (p_parent r) (p_children r) (p_death_notified r) (p_exit_status r)
    (p_nthreads r) (p_threads r) (p_blocks r) (p_views r) (p_unnotified_head r) (f (p_unnotified_tail r))
    (p_share_ch r) (p_tree_ch r) (p_iommu_ch r).
Definition upd_p_share_ch (f : (option Z) -> (option Z)) (r : process) : process :=
  Process (p_pid r) (p_as r) (p_dead r) (p_parent r) (p_children r) (p_death_notified r) (p_exit_status r)
    (p_nthreads r) (p_threads r) (p_blocks r) (p_views r) (p_unnotified_head r) (p_unnotified_tail r)
    (f (p_share_ch r)) (p_tree_ch r) (p_iommu_ch r).
Definition upd_p_tree_ch (f : (option Z) -> (option Z)) (r : process) : process :=
  Process (p_pid r) (p_as r) (p_dead r) (p_parent r) (p_children r) (p_death_notified r) (p_exit_status r)
    (p_nthreads r) (p_threads r) (p_blocks r) (p_views r) (p_unnotified_head r) (p_unnotified_tail r)
    (p_share_ch r) (f (p_tree_ch r)) (p_iommu_ch r).
Definition upd_p_iommu_ch (f : (option Z) -> (option Z)) (r : process) : process :=
  Process (p_pid r) (p_as r) (p_dead r) (p_parent r) (p_children r) (p_death_notified r) (p_exit_status r)
    (p_nthreads r) (p_threads r) (p_blocks r) (p_views r) (p_unnotified_head r) (p_unnotified_tail r)
    (p_share_ch r) (p_tree_ch r) (f (p_iommu_ch r)).

(** [struct share_edge]. *)
Record share_edge := ShareEdge {
  e_block : Z;
  e_to : Z;
  e_pending_prev : option Z;
  e_pending_next : option Z;
  e_notified : bool }.

Definition upd_e_block (f : Z -> Z) (r : share_edge) : share_edge :=
  ShareEdge (f (e_block r)) (e_to r) (e_pending_prev r) (e_pending_next r) (e_notified r).
Definition upd_e_to (f : Z -> Z) (r : share_edge) : share_edge :=
  ShareEdge (e_block r) (f (e_to r)) (e_pending_prev r) (e_pending_next r) (e_notified r).
Definition upd_e_pending_prev (f : (option Z) -> (option Z)) (r : share_edge) : share_edge :=
  ShareEdge (e_block r) (e_to r) (f (e_pending_prev r)) (e_pending_next r) (e_notified r).
Definition upd_e_pending_next (f : (option Z) -> (option Z)) (r : share_edge) : share_edge :=
  ShareEdge (e_block r) (e_to r) (e_pending_prev r) (f (e_pending_next r)) (e_notified r).
Definition upd_e_notified (f : bool -> bool) (r : share_edge) : share_edge :=
  ShareEdge (e_block r) (e_to r) (e_pending_prev r) (e_pending_next r) (f (e_notified r)).

(** [struct ublock]. *)
Record ublock := Ublock {
  b_base : Z;
  b_order : Z;
  b_bytes : Z;
  b_backing : ublock_backing;
  b_device_flags : Z;
  b_kernel_flags : Z;
  b_delegatable : bool;
  b_owner : Z;
  b_sharers : gmap Z Z;
  b_ring : option Z;
  b_dma_maps : option (gmap Z Z);
  b_thread_pins : Z }.

Definition upd_b_base (f : Z -> Z) (r : ublock) : ublock :=
  Ublock (f (b_base r)) (b_order r) (b_bytes r) (b_backing r) (b_device_flags r) (b_kernel_flags r)
    (b_delegatable r) (b_owner r) (b_sharers r) (b_ring r) (b_dma_maps r) (b_thread_pins r).
Definition upd_b_order (f : Z -> Z) (r : ublock) : ublock :=
  Ublock (b_base r) (f (b_order r)) (b_bytes r) (b_backing r) (b_device_flags r) (b_kernel_flags r)
    (b_delegatable r) (b_owner r) (b_sharers r) (b_ring r) (b_dma_maps r) (b_thread_pins r).
Definition upd_b_bytes (f : Z -> Z) (r : ublock) : ublock :=
  Ublock (b_base r) (b_order r) (f (b_bytes r)) (b_backing r) (b_device_flags r) (b_kernel_flags r)
    (b_delegatable r) (b_owner r) (b_sharers r) (b_ring r) (b_dma_maps r) (b_thread_pins r).
Definition upd_b_backing (f : ublock_backing -> ublock_backing) (r : ublock) : ublock :=
  Ublock (b_base r) (b_order r) (b_bytes r) (f (b_backing r)) (b_device_flags r) (b_kernel_flags r)
    (b_delegatable r) (b_owner r) (b_sharers r) (b_ring r) (b_dma_maps r) (b_thread_pins r).
Definition upd_b_device_flags (f : Z -> Z) (r : ublock) : ublock :=
  Ublock (b_base r) (b_order r) (b_bytes r) (b_backing r) (f (b_device_flags r)) (b_kernel_flags r)
    (b_delegatable r) (b_owner r) (b_sharers r) (b_ring r) (b_dma_maps r) (b_thread_pins r).
Definition upd_b_kernel_flags (f : Z -> Z) (r : ublock) : ublock :=
  Ublock (b_base r) (b_order r) (b_bytes r) (b_backing r) (b_device_flags r) (f (b_kernel_flags r))
    (b_delegatable r) (b_owner r) (b_sharers r) (b_ring r) (b_dma_maps r) (b_thread_pins r).
Definition upd_b_delegatable (f : bool -> bool) (r : ublock) : ublock :=
  Ublock (b_base r) (b_order r) (b_bytes r) (b_backing r) (b_device_flags r) (b_kernel_flags r)
    (f (b_delegatable r)) (b_owner r) (b_sharers r) (b_ring r) (b_dma_maps r) (b_thread_pins r).
Definition upd_b_owner (f : Z -> Z) (r : ublock) : ublock :=
  Ublock (b_base r) (b_order r) (b_bytes r) (b_backing r) (b_device_flags r) (b_kernel_flags r)
    (b_delegatable r) (f (b_owner r)) (b_sharers r) (b_ring r) (b_dma_maps r) (b_thread_pins r).
Definition upd_b_sharers (f : (gmap Z Z) -> (gmap Z Z)) (r : ublock) : ublock :=
  Ublock (b_base r) (b_order r) (b_bytes r) (b_backing r) (b_device_flags r) (b_kernel_flags r)
    (b_delegatable r) (b_owner r) (f (b_sharers r)) (b_ring r) (b_dma_maps r) (b_thread_pins r).
Definition upd_b_ring (f : (option Z) -> (option Z)) (r : ublock) : ublock :=
  Ublock (b_base r) (b_order r) (b_bytes r) (b_backing r) (b_device_flags r) (b_kernel_flags r)
    (b_delegatable r) (b_owner r) (b_sharers r) (f (b_ring r)) (b_dma_maps r) (b_thread_pins r).
Definition upd_b_dma_maps (f : (option (gmap Z Z)) -> (option (gmap Z Z))) (r : ublock) : ublock :=
  Ublock (b_base r) (b_order r) (b_bytes r) (b_backing r) (b_device_flags r) (b_kernel_flags r)
    (b_delegatable r) (b_owner r) (b_sharers r) (b_ring r) (f (b_dma_maps r)) (b_thread_pins r).
Definition upd_b_thread_pins (f : Z -> Z) (r : ublock) : ublock :=
  Ublock (b_base r) (b_order r) (b_bytes r) (b_backing r) (b_device_flags r) (b_kernel_flags r)
    (b_delegatable r) (b_owner r) (b_sharers r) (b_ring r) (b_dma_maps r) (f (b_thread_pins r)).

(** [struct ring]; [r_ops] is the scheme id that selects its [struct scheme_ops]. *)
Record ring := Ring {
  r_ops : Z;
  r_block : Z;
  r_nslots : Z;
  r_sq_head : Z;
  r_cq_count : Z;
  r_irq_claims : option Z;
  r_nclaims : Z }.

Definition upd_r_ops (f : Z -> Z) (r : ring) : ring :=
  Ring (f (r_ops r)) (r_block r) (r_nslots r) (r_sq_head r) (r_cq_count r) (r_irq_claims r) (r_nclaims r).
Definition upd_r_block (f : Z -> Z) (r : ring) : ring :=
  Ring (r_ops r) (f (r_block r)) (r_nslots r) (r_sq_head r) (r_cq_count r) (r_irq_claims r) (r_nclaims r).
Definition upd_r_nslots (f : Z -> Z) (r : ring) : ring :=
  Ring (r_ops r) (r_block r) (f (r_nslots r)) (r_sq_head r) (r_cq_count r) (r_irq_claims r) (r_nclaims r).
Definition upd_r_sq_head (f : Z -> Z) (r : ring) : ring :=
  Ring (r_ops r) (r_block r) (r_nslots r) (f (r_sq_head r)) (r_cq_count r) (r_irq_claims r) (r_nclaims r).
Definition upd_r_cq_count (f : Z -> Z) (r : ring) : ring :=
  Ring (r_ops r) (r_block r) (r_nslots r) (r_sq_head r) (f (r_cq_count r)) (r_irq_claims r) (r_nclaims r).
Definition upd_r_irq_claims (f : (option Z) -> (option Z)) (r : ring) : ring :=
  Ring (r_ops r) (r_block r) (r_nslots r) (r_sq_head r) (r_cq_count r) (f (r_irq_claims r)) (r_nclaims r).
Definition upd_r_nclaims (f : Z -> Z) (r : ring) : ring :=
  Ring (r_ops r) (r_block r) (r_nslots r) (r_sq_head r) (r_cq_count r) (r_irq_claims r) (f (r_nclaims r)).

(** [struct cpu_state] with its [struct scheduler]. *)
Record cpu := Cpu {
  c_current_as : option Z;
  c_current_thread : option Z;
  c_queue : list Z;
  c_idle : bool;
  c_deadlines : gmap (Z * Z) Z;
  c_quantum_deadline_ns : Z;
  c_fs_base : Z;
  c_gs_base : Z }.

Definition upd_c_current_as (f : (option Z) -> (option Z)) (r : cpu) : cpu :=
  Cpu (f (c_current_as r)) (c_current_thread r) (c_queue r) (c_idle r) (c_deadlines r)
    (c_quantum_deadline_ns r) (c_fs_base r) (c_gs_base r).
Definition upd_c_current_thread (f : (option Z) -> (option Z)) (r : cpu) : cpu :=
  Cpu (c_current_as r) (f (c_current_thread r)) (c_queue r) (c_idle r) (c_deadlines r)
    (c_quantum_deadline_ns r) (c_fs_base r) (c_gs_base r).
Definition upd_c_queue (f : (list Z) -> (list Z)) (r : cpu) : cpu :=
  Cpu (c_current_as r) (c_current_thread r) (f (c_queue r)) (c_idle r) (c_deadlines r)
    (c_quantum_deadline_ns r) (c_fs_base r) (c_gs_base r).
Definition upd_c_idle (f : bool -> bool) (r : cpu) : cpu :=
  Cpu (c_current_as r) (c_current_thread r) (c_queue r) (f (c_idle r)) (c_deadlines r)
    (c_quantum_deadline_ns r) (c_fs_base r) (c_gs_base r).
Definition upd_c_deadlines (f : (gmap (Z * Z) Z) -> (gmap (Z * Z) Z)) (r : cpu) : cpu :=
  Cpu (c_current_as r) (c_current_thread r) (c_queue r) (c_idle r) (f (c_deadlines r))
    (c_quantum_deadline_ns r) (c_fs_base r) (c_gs_base r).
Definition upd_c_quantum_deadline_ns (f : Z -> Z) (r : cpu) : cpu :=
  Cpu (c_current_as r) (c_current_thread r) (c_queue r) (c_idle r) (c_deadlines r)
    (f (c_quantum_deadline_ns r)) (c_fs_base r) (c_gs_base r).
Definition upd_c_fs_base (f : Z -> Z) (r : cpu) : cpu :=
  Cpu (c_current_as r) (c_current_thread r) (c_queue r) (c_idle r) (c_deadlines r) (c_quantum_deadline_ns r)
    (f (c_fs_base r)) (c_gs_base r).
Definition upd_c_gs_base (f : Z -> Z) (r : cpu) : cpu :=
  Cpu (c_current_as r) (c_current_thread r) (c_queue r) (c_idle r) (c_deadlines r) (c_quantum_deadline_ns r)
    (c_fs_base r) (f (c_gs_base r)).

(** The variants of the union in [struct grant]. *)
Inductive grant_payload :=
  | GDevmem (base len flags : Z)
  | GIrq (route : option Z) (id : Z)
  | GIommu (requester : Z).

(** [struct grant]; its id is also its key. *)
Record grant := Grant {
  g_id : Z;
  g_type : Z;
  g_depth : Z;
  g_wildcard : bool;
  g_dead : bool;
  g_payload : grant_payload;
  g_parent : option Z;
  g_first_child : option Z;
  g_next_sibling : option Z;
  g_prev_sibling : option Z }.

Definition upd_g_id (f : Z -> Z) (r : grant) : grant :=
  Grant (f (g_id r)) (g_type r) (g_depth r) (g_wildcard r) (g_dead r) (g_payload r) (g_parent r)
    (g_first_child r) (g_next_sibling r) (g_prev_sibling r).
Definition upd_g_type (f : Z -> Z) (r : grant) : grant :=
  Grant (g_id r) (f (g_type r)) (g_depth r) (g_wildcard r) (g_dead r) (g_payload r) (g_parent r)
    (g_first_child r) (g_next_sibling r) (g_prev_sibling r).
Definition upd_g_depth (f : Z -> Z) (r : grant) : grant :=
  Grant (g_id r) (g_type r) (f (g_depth r)) (g_wildcard r) (g_dead r) (g_payload r) (g_parent r)
    (g_first_child r) (g_next_sibling r) (g_prev_sibling r).
Definition upd_g_wildcard (f : bool -> bool) (r : grant) : grant :=
  Grant (g_id r) (g_type r) (g_depth r) (f (g_wildcard r)) (g_dead r) (g_payload r) (g_parent r)
    (g_first_child r) (g_next_sibling r) (g_prev_sibling r).
Definition upd_g_dead (f : bool -> bool) (r : grant) : grant :=
  Grant (g_id r) (g_type r) (g_depth r) (g_wildcard r) (f (g_dead r)) (g_payload r) (g_parent r)
    (g_first_child r) (g_next_sibling r) (g_prev_sibling r).
Definition upd_g_payload (f : grant_payload -> grant_payload) (r : grant) : grant :=
  Grant (g_id r) (g_type r) (g_depth r) (g_wildcard r) (g_dead r) (f (g_payload r)) (g_parent r)
    (g_first_child r) (g_next_sibling r) (g_prev_sibling r).
Definition upd_g_parent (f : (option Z) -> (option Z)) (r : grant) : grant :=
  Grant (g_id r) (g_type r) (g_depth r) (g_wildcard r) (g_dead r) (g_payload r) (f (g_parent r))
    (g_first_child r) (g_next_sibling r) (g_prev_sibling r).
Definition upd_g_first_child (f : (option Z) -> (option Z)) (r : grant) : grant :=
  Grant (g_id r) (g_type r) (g_depth r) (g_wildcard r) (g_dead r) (g_payload r) (g_parent r)
    (f (g_first_child r)) (g_next_sibling r) (g_prev_sibling r).
Definition upd_g_next_sibling (f : (option Z) -> (option Z)) (r : grant) : grant :=
  Grant (g_id r) (g_type r) (g_depth r) (g_wildcard r) (g_dead r) (g_payload r) (g_parent r)
    (g_first_child r) (f (g_next_sibling r)) (g_prev_sibling r).
Definition upd_g_prev_sibling (f : (option Z) -> (option Z)) (r : grant) : grant :=
  Grant (g_id r) (g_type r) (g_depth r) (g_wildcard r) (g_dead r) (g_payload r) (g_parent r)
    (g_first_child r) (g_next_sibling r) (f (g_prev_sibling r)).

Inductive irq_trigger_mode :=
  | IRQ_TRIGGER_EDGE
  | IRQ_TRIGGER_LEVEL.

(** [struct irq_route]; a route is named by its slot in [g_routes]. *)
Record irq_route := IrqRoute {
  q_ring : option Z;
  q_next_claim : option Z;
  q_cookie : Z;
  q_raised : Z;
  q_acked : Z;
  q_ev_index : Z;
  q_gsi : Z;
  q_mode : irq_trigger_mode;
  q_generation : Z;
  q_present : bool;
  q_allocated : bool;
  q_posted : bool;
  q_spurious_logged : bool }.

Definition upd_q_ring (f : (option Z) -> (option Z)) (r : irq_route) : irq_route :=
  IrqRoute (f (q_ring r)) (q_next_claim r) (q_cookie r) (q_raised r) (q_acked r) (q_ev_index r) (q_gsi r)
    (q_mode r) (q_generation r) (q_present r) (q_allocated r) (q_posted r) (q_spurious_logged r).
Definition upd_q_next_claim (f : (option Z) -> (option Z)) (r : irq_route) : irq_route :=
  IrqRoute (q_ring r) (f (q_next_claim r)) (q_cookie r) (q_raised r) (q_acked r) (q_ev_index r) (q_gsi r)
    (q_mode r) (q_generation r) (q_present r) (q_allocated r) (q_posted r) (q_spurious_logged r).
Definition upd_q_cookie (f : Z -> Z) (r : irq_route) : irq_route :=
  IrqRoute (q_ring r) (q_next_claim r) (f (q_cookie r)) (q_raised r) (q_acked r) (q_ev_index r) (q_gsi r)
    (q_mode r) (q_generation r) (q_present r) (q_allocated r) (q_posted r) (q_spurious_logged r).
Definition upd_q_raised (f : Z -> Z) (r : irq_route) : irq_route :=
  IrqRoute (q_ring r) (q_next_claim r) (q_cookie r) (f (q_raised r)) (q_acked r) (q_ev_index r) (q_gsi r)
    (q_mode r) (q_generation r) (q_present r) (q_allocated r) (q_posted r) (q_spurious_logged r).
Definition upd_q_acked (f : Z -> Z) (r : irq_route) : irq_route :=
  IrqRoute (q_ring r) (q_next_claim r) (q_cookie r) (q_raised r) (f (q_acked r)) (q_ev_index r) (q_gsi r)
    (q_mode r) (q_generation r) (q_present r) (q_allocated r) (q_posted r) (q_spurious_logged r).
Definition upd_q_ev_index (f : Z -> Z) (r : irq_route) : irq_route :=
  IrqRoute (q_ring r) (q_next_claim r) (q_cookie r) (q_raised r) (q_acked r) (f (q_ev_index r)) (q_gsi r)
    (q_mode r) (q_generation r) (q_present r) (q_allocated r) (q_posted r) (q_spurious_logged r).
Definition upd_q_gsi (f : Z -> Z) (r : irq_route) : irq_route :=
  IrqRoute (q_ring r) (q_next_claim r) (q_cookie r) (q_raised r) (q_acked r) (q_ev_index r) (f (q_gsi r))
    (q_mode r) (q_generation r) (q_present r) (q_allocated r) (q_posted r) (q_spurious_logged r).
Definition upd_q_mode (f : irq_trigger_mode -> irq_trigger_mode) (r : irq_route) : irq_route :=
  IrqRoute (q_ring r) (q_next_claim r) (q_cookie r) (q_raised r) (q_acked r) (q_ev_index r) (q_gsi r)
    (f (q_mode r)) (q_generation r) (q_present r) (q_allocated r) (q_posted r) (q_spurious_logged r).
Definition upd_q_generation (f : Z -> Z) (r : irq_route) : irq_route :=
  IrqRoute (q_ring r) (q_next_claim r) (q_cookie r) (q_raised r) (q_acked r) (q_ev_index r) (q_gsi r)
    (q_mode r) (f (q_generation r)) (q_present r) (q_allocated r) (q_posted r) (q_spurious_logged r).
Definition upd_q_present (f : bool -> bool) (r : irq_route) : irq_route :=
  IrqRoute (q_ring r) (q_next_claim r) (q_cookie r) (q_raised r) (q_acked r) (q_ev_index r) (q_gsi r)
    (q_mode r) (q_generation r) (f (q_present r)) (q_allocated r) (q_posted r) (q_spurious_logged r).
Definition upd_q_allocated (f : bool -> bool) (r : irq_route) : irq_route :=
  IrqRoute (q_ring r) (q_next_claim r) (q_cookie r) (q_raised r) (q_acked r) (q_ev_index r) (q_gsi r)
    (q_mode r) (q_generation r) (q_present r) (f (q_allocated r)) (q_posted r) (q_spurious_logged r).
Definition upd_q_posted (f : bool -> bool) (r : irq_route) : irq_route :=
  IrqRoute (q_ring r) (q_next_claim r) (q_cookie r) (q_raised r) (q_acked r) (q_ev_index r) (q_gsi r)
    (q_mode r) (q_generation r) (q_present r) (q_allocated r) (f (q_posted r)) (q_spurious_logged r).
Definition upd_q_spurious_logged (f : bool -> bool) (r : irq_route) : irq_route :=
  IrqRoute (q_ring r) (q_next_claim r) (q_cookie r) (q_raised r) (q_acked r) (q_ev_index r) (q_gsi r)
    (q_mode r) (q_generation r) (q_present r) (q_allocated r) (q_posted r) (f (q_spurious_logged r)).

(** ** DMA remapping *)

(** [struct iommu_device]; a device is named by its encoded requester id. *)
Record iommu_device := IommuDevice {
  dv_segment : Z;
  dv_bus : Z;
  dv_devfn : Z;
  dv_encoded : Z;
  dv_fault_cookie : Z;
  dv_fault_count : Z;
  dv_posted_count : Z;
  dv_last_iova : Z;
  dv_last_reason : Z;
  dv_ev_index : Z;
  dv_fault_posted : bool }.

Definition upd_dv_segment (f : Z -> Z) (r : iommu_device) : iommu_device :=
  IommuDevice (f (dv_segment r)) (dv_bus r) (dv_devfn r) (dv_encoded r) (dv_fault_cookie r)
    (dv_fault_count r) (dv_posted_count r) (dv_last_iova r) (dv_last_reason r) (dv_ev_index r)
    (dv_fault_posted r).
Definition upd_dv_bus (f : Z -> Z) (r : iommu_device) : iommu_device :=
  IommuDevice (dv_segment r) (f (dv_bus r)) (dv_devfn r) (dv_encoded r) (dv_fault_cookie r)
    (dv_fault_count r) (dv_posted_count r) (dv_last_iova r) (dv_last_reason r) (dv_ev_index r)
    (dv_fault_posted r).
Definition upd_dv_devfn (f : Z -> Z) (r : iommu_device) : iommu_device :=
  IommuDevice (dv_segment r) (dv_bus r) (f (dv_devfn r)) (dv_encoded r) (dv_fault_cookie r)
    (dv_fault_count r) (dv_posted_count r) (dv_last_iova r) (dv_last_reason r) (dv_ev_index r)
    (dv_fault_posted r).
Definition upd_dv_encoded (f : Z -> Z) (r : iommu_device) : iommu_device :=
  IommuDevice (dv_segment r) (dv_bus r) (dv_devfn r) (f (dv_encoded r)) (dv_fault_cookie r)
    (dv_fault_count r) (dv_posted_count r) (dv_last_iova r) (dv_last_reason r) (dv_ev_index r)
    (dv_fault_posted r).
Definition upd_dv_fault_cookie (f : Z -> Z) (r : iommu_device) : iommu_device :=
  IommuDevice (dv_segment r) (dv_bus r) (dv_devfn r) (dv_encoded r) (f (dv_fault_cookie r))
    (dv_fault_count r) (dv_posted_count r) (dv_last_iova r) (dv_last_reason r) (dv_ev_index r)
    (dv_fault_posted r).
Definition upd_dv_fault_count (f : Z -> Z) (r : iommu_device) : iommu_device :=
  IommuDevice (dv_segment r) (dv_bus r) (dv_devfn r) (dv_encoded r) (dv_fault_cookie r)
    (f (dv_fault_count r)) (dv_posted_count r) (dv_last_iova r) (dv_last_reason r) (dv_ev_index r)
    (dv_fault_posted r).
Definition upd_dv_posted_count (f : Z -> Z) (r : iommu_device) : iommu_device :=
  IommuDevice (dv_segment r) (dv_bus r) (dv_devfn r) (dv_encoded r) (dv_fault_cookie r) (dv_fault_count r)
    (f (dv_posted_count r)) (dv_last_iova r) (dv_last_reason r) (dv_ev_index r) (dv_fault_posted r).
Definition upd_dv_last_iova (f : Z -> Z) (r : iommu_device) : iommu_device :=
  IommuDevice (dv_segment r) (dv_bus r) (dv_devfn r) (dv_encoded r) (dv_fault_cookie r) (dv_fault_count r)
    (dv_posted_count r) (f (dv_last_iova r)) (dv_last_reason r) (dv_ev_index r) (dv_fault_posted r).
Definition upd_dv_last_reason (f : Z -> Z) (r : iommu_device) : iommu_device :=
  IommuDevice (dv_segment r) (dv_bus r) (dv_devfn r) (dv_encoded r) (dv_fault_cookie r) (dv_fault_count r)
    (dv_posted_count r) (dv_last_iova r) (f (dv_last_reason r)) (dv_ev_index r) (dv_fault_posted r).
Definition upd_dv_ev_index (f : Z -> Z) (r : iommu_device) : iommu_device :=
  IommuDevice (dv_segment r) (dv_bus r) (dv_devfn r) (dv_encoded r) (dv_fault_cookie r) (dv_fault_count r)
    (dv_posted_count r) (dv_last_iova r) (dv_last_reason r) (f (dv_ev_index r)) (dv_fault_posted r).
Definition upd_dv_fault_posted (f : bool -> bool) (r : iommu_device) : iommu_device :=
  IommuDevice (dv_segment r) (dv_bus r) (dv_devfn r) (dv_encoded r) (dv_fault_cookie r) (dv_fault_count r)
    (dv_posted_count r) (dv_last_iova r) (dv_last_reason r) (dv_ev_index r) (f (dv_fault_posted r)).

(** [struct iommu_domain] with its [iommu_hw_domain]: the root of the second-level
    tables is [dm_root].  A domain is named by its id.  A mapping is an entry of the
    block's tree [b_dma_maps], so the list [dm_mappings] holds the blocks. *)
Record iommu_domain := IommuDomain {
  dm_ring : Z;
  dm_id : Z;
  dm_cookie : Z;
  dm_hw_id : Z;
  dm_root : list entry;
  dm_devices : list iommu_device;
  dm_mappings : list Z }.

Definition upd_dm_ring (f : Z -> Z) (r : iommu_domain) : iommu_domain :=
  IommuDomain (f (dm_ring r)) (dm_id r) (dm_cookie r) (dm_hw_id r) (dm_root r) (dm_devices r)
    (dm_mappings r).
Definition upd_dm_id (f : Z -> Z) (r : iommu_domain) : iommu_domain :=
  IommuDomain (dm_ring r) (f (dm_id r)) (dm_cookie r) (dm_hw_id r) (dm_root r) (dm_devices r)
    (dm_mappings r).
Definition upd_dm_cookie (f : Z -> Z) (r : iommu_domain) : iommu_domain :=
  IommuDomain (dm_ring r) (dm_id r) (f (dm_cookie r)) (dm_hw_id r) (dm_root r) (dm_devices r)
    (dm_mappings r).
Definition upd_dm_hw_id (f : Z -> Z) (r : iommu_domain) : iommu_domain :=
  IommuDomain (dm_ring r) (dm_id r) (dm_cookie r) (f (dm_hw_id r)) (dm_root r) (dm_devices r)
    (dm_mappings r).
Definition upd_dm_root (f : (list entry) -> (list entry)) (r : iommu_domain) : iommu_domain :=
  IommuDomain (dm_ring r) (dm_id r) (dm_cookie r) (dm_hw_id r) (f (dm_root r)) (dm_devices r)
    (dm_mappings r).
Definition upd_dm_devices (f : (list iommu_device) -> (list iommu_device)) (r : iommu_domain) : iommu_domain :=
  IommuDomain (dm_ring r) (dm_id r) (dm_cookie r) (dm_hw_id r) (dm_root r) (f (dm_devices r))
    (dm_mappings r).
Definition upd_dm_mappings (f : (list Z) -> (list Z)) (r : iommu_domain) : iommu_domain :=
  IommuDomain (dm_ring r) (dm_id r) (dm_cookie r) (dm_hw_id r) (dm_root r) (dm_devices r)
    (f (dm_mappings r)).

(** The variables of [vtd.c].  A context entry holds the hardware domain id and the
    domain whose root it points to.  [vt_responds] is whether the unit acknowledges an
    invalidation within the wait limit, [vt_faults] the fault recording registers. *)
Record vtd := Vtd {
  vt_regs : bool;
  vt_superpage_2m : bool;
  vt_contexts : gmap Z (gmap Z (Z * Z));
  vt_next_domain : Z;
  vt_domain_used : gset Z;
  vt_responds : bool;
  vt_faults : list (Z * Z);
  vt_fsts : Z }.

Definition upd_vt_regs (f : bool -> bool) (r : vtd) : vtd :=
  Vtd (f (vt_regs r)) (vt_superpage_2m r) (vt_contexts r) (vt_next_domain r) (vt_domain_used r)
    (vt_responds r) (vt_faults r) (vt_fsts r).
Definition upd_vt_superpage_2m (f : bool -> bool) (r : vtd) : vtd :=
  Vtd (vt_regs r) (f (vt_superpage_2m r)) (vt_contexts r) (vt_next_domain r) (vt_domain_used r)
    (vt_responds r) (vt_faults r) (vt_fsts r).
Definition upd_vt_contexts (f : (gmap Z (gmap Z (Z * Z))) -> (gmap Z (gmap Z (Z * Z)))) (r : vtd) : vtd :=
  Vtd (vt_regs r) (vt_superpage_2m r) (f (vt_contexts r)) (vt_next_domain r) (vt_domain_used r)
    (vt_responds r) (vt_faults r) (vt_fsts r).
Definition upd_vt_next_domain (f : Z -> Z) (r : vtd) : vtd :=
  Vtd (vt_regs r) (vt_superpage_2m r) (vt_contexts r) (f (vt_next_domain r)) (vt_domain_used r)
    (vt_responds r) (vt_faults r) (vt_fsts r).
Definition upd_vt_domain_used (f : (gset Z) -> (gset Z)) (r : vtd) : vtd :=
  Vtd (vt_regs r) (vt_superpage_2m r) (vt_contexts r) (vt_next_domain r) (f (vt_domain_used r))
    (vt_responds r) (vt_faults r) (vt_fsts r).
Definition upd_vt_responds (f : bool -> bool) (r : vtd) : vtd :=
  Vtd (vt_regs r) (vt_superpage_2m r) (vt_contexts r) (vt_next_domain r) (vt_domain_used r)
    (f (vt_responds r)) (vt_faults r) (vt_fsts r).
Definition upd_vt_faults (f : (list (Z * Z)) -> (list (Z * Z))) (r : vtd) : vtd :=
  Vtd (vt_regs r) (vt_superpage_2m r) (vt_contexts r) (vt_next_domain r) (vt_domain_used r) (vt_responds r)
    (f (vt_faults r)) (vt_fsts r).
Definition upd_vt_fsts (f : Z -> Z) (r : vtd) : vtd :=
  Vtd (vt_regs r) (vt_superpage_2m r) (vt_contexts r) (vt_next_domain r) (vt_domain_used r) (vt_responds r)
    (vt_faults r) (f (vt_fsts r)).

(** The variables of [iommu.c]. *)
Record iommu := IommuState {
  io_domains : list iommu_domain;
  io_ndomains : Z;
  io_ndevices : Z;
  io_nmappings : Z;
  io_next_domain_id : Z;
  io_live : bool;
  io_fault_devices : gmap Z Z;
  io_vtd : vtd }.

Definition upd_io_domains (f : (list iommu_domain) -> (list iommu_domain)) (r : iommu) : iommu :=
  IommuState (f (io_domains r)) (io_ndomains r) (io_ndevices r) (io_nmappings r) (io_next_domain_id r)
    (io_live r) (io_fault_devices r) (io_vtd r).
Definition upd_io_ndomains (f : Z -> Z) (r : iommu) : iommu :=
  IommuState (io_domains r) (f (io_ndomains r)) (io_ndevices r) (io_nmappings r) (io_next_domain_id r)
    (io_live r) (io_fault_devices r) (io_vtd r).
Definition upd_io_ndevices (f : Z -> Z) (r : iommu) : iommu :=
  IommuState (io_domains r) (io_ndomains r) (f (io_ndevices r)) (io_nmappings r) (io_next_domain_id r)
    (io_live r) (io_fault_devices r) (io_vtd r).
Definition upd_io_nmappings (f : Z -> Z) (r : iommu) : iommu :=
  IommuState (io_domains r) (io_ndomains r) (io_ndevices r) (f (io_nmappings r)) (io_next_domain_id r)
    (io_live r) (io_fault_devices r) (io_vtd r).
Definition upd_io_next_domain_id (f : Z -> Z) (r : iommu) : iommu :=
  IommuState (io_domains r) (io_ndomains r) (io_ndevices r) (io_nmappings r) (f (io_next_domain_id r))
    (io_live r) (io_fault_devices r) (io_vtd r).
Definition upd_io_live (f : bool -> bool) (r : iommu) : iommu :=
  IommuState (io_domains r) (io_ndomains r) (io_ndevices r) (io_nmappings r) (io_next_domain_id r)
    (f (io_live r)) (io_fault_devices r) (io_vtd r).
Definition upd_io_fault_devices (f : (gmap Z Z) -> (gmap Z Z)) (r : iommu) : iommu :=
  IommuState (io_domains r) (io_ndomains r) (io_ndevices r) (io_nmappings r) (io_next_domain_id r)
    (io_live r) (f (io_fault_devices r)) (io_vtd r).
Definition upd_io_vtd (f : vtd -> vtd) (r : iommu) : iommu :=
  IommuState (io_domains r) (io_ndomains r) (io_ndevices r) (io_nmappings r) (io_next_domain_id r)
    (io_live r) (io_fault_devices r) (f (io_vtd r)).

(** ** Global state *)

Inductive lockid :=
  | LUmem
  | LProc (pid : Z)
  | LRoute (i : Z)
  | LFault
  | LCq (ring : Z)
  | LBucket (i : Z)
  | LTimer (cpu : Z)
  | LAllocator
  | LSched (cpu : Z).

Inductive hw_event :=
  | EvWakeCpu (cpu : Z)
  | EvLapicArm (us : Z)
  | EvLapicStop
  | EvLapicEoi
  | EvIoapicProgram (gsi vector apic : Z)
  | EvIoapicMask (gsi : Z)
  | EvIoapicUnmask (gsi : Z)
  | EvVtdInvalidate
  | EvVtdStatus
  | EvHlt
  | EvPutchar (c : Z).

(** [k_oom] decides the outcome of the next metadata allocations (the empty list
    means they succeed); [k_clock] is what [x86_monotonic_ns] reads; [k_ioapic_ok] is
    whether [x86_ioapic_program] accepts a pin; [k_log] is the sequence of commands
    given to the hardware, latest first. *)
Record kstate := KState {
  k_procs : gmap Z process;
  k_g_procs : gmap Z Z;
  k_blocks : gmap Z ublock;
  k_g_ublocks : gmap Z Z;
  k_edges : gmap Z share_edge;
  k_rings : gmap Z ring;
  k_threads : gmap Z thread;
  k_next_pid : Z;
  k_next_tid : Z;
  k_next_ref : Z;
  k_g_init : option Z;
  k_kas : aspace;
  k_pool : buddy_allocator_s;
  k_mem : Z -> Z;
  k_futex : gmap Z (gmap (Z * Z) Z);
  k_futex_key : list Z;
  k_futex_seq : Z;
  k_cpus : list cpu;
  k_this : nat;
  k_next_target : Z;
  k_platform : platform;
  k_grants : gmap Z grant;
  k_next_grant_id : Z;
  k_boot_key : list Z;
  k_routes : list irq_route;
  k_bsp_apic_id : Z;
  k_ioapic_ok : Z -> bool;
  k_iommu : iommu;
  k_clock : Z;
  k_oom : list bool;
  k_held : list lockid;
  k_log : list hw_event }.

Definition upd_k_procs (f : (gmap Z process) -> (gmap Z process)) (r : kstate) : kstate :=
  KState (f (k_procs r)) (k_g_procs r) (k_blocks r) (k_g_ublocks r) (k_edges r) (k_rings r) (k_threads r)
    (k_next_pid r) (k_next_tid r) (k_next_ref r) (k_g_init r) (k_kas r) (k_pool r) (k_mem r) (k_futex r)
    (k_futex_key r) (k_futex_seq r) (k_cpus r) (k_this r) (k_next_target r) (k_platform r) (k_grants r)
    (k_next_grant_id r) (k_boot_key r) (k_routes r) (k_bsp_apic_id r) (k_ioapic_ok r) (k_iommu r)
    (k_clock r) (k_oom r) (k_held r) (k_log r).
Definition upd_k_g_procs (f : (gmap Z Z) -> (gmap Z Z)) (r : kstate) : kstate :=
  KState (k_procs r) (f (k_g_procs r)) (k_blocks r) (k_g_ublocks r) (k_edges r) (k_rings r) (k_threads r)
    (k_next_pid r) (k_next_tid r) (k_next_ref r) (k_g_init r) (k_kas r) (k_pool r) (k_mem r) (k_futex r)
    (k_futex_key r) (k_futex_seq r) (k_cpus r) (k_this r) (k_next_target r) (k_platform r) (k_grants r)
    (k_next_grant_id r) (k_boot_key r) (k_routes r) (k_bsp_apic_id r) (k_ioapic_ok r) (k_iommu r)
    (k_clock r) (k_oom r) (k_held r) (k_log r).
Definition upd_k_blocks (f : (gmap Z ublock) -> (gmap Z ublock)) (r : kstate) : kstate :=
  KState (k_procs r) (k_g_procs r) (f (k_blocks r)) (k_g_ublocks r) (k_edges r) (k_rings r) (k_threads r)
    (k_next_pid r) (k_next_tid r) (k_next_ref r) (k_g_init r) (k_kas r) (k_pool r) (k_mem r) (k_futex r)
    (k_futex_key r) (k_futex_seq r) (k_cpus r) (k_this r) (k_next_target r) (k_platform r) (k_grants r)
    (k_next_grant_id r) (k_boot_key r) (k_routes r) (k_bsp_apic_id r) (k_ioapic_ok r) (k_iommu r)
    (k_clock r) (k_oom r) (k_held r) (k_log r).
Definition upd_k_g_ublocks (f : (gmap Z Z) -> (gmap Z Z)) (r : kstate) : kstate :=
  KState (k_procs r) (k_g_procs r) (k_blocks r) (f (k_g_ublocks r)) (k_edges r) (k_rings r) (k_threads r)
    (k_next_pid r) (k_next_tid r) (k_next_ref r) (k_g_init r) (k_kas r) (k_pool r) (k_mem r) (k_futex r)
    (k_futex_key r) (k_futex_seq r) (k_cpus r) (k_this r) (k_next_target r) (k_platform r) (k_grants r)
    (k_next_grant_id r) (k_boot_key r) (k_routes r) (k_bsp_apic_id r) (k_ioapic_ok r) (k_iommu r)
    (k_clock r) (k_oom r) (k_held r) (k_log r).
Definition upd_k_edges (f : (gmap Z share_edge) -> (gmap Z share_edge)) (r : kstate) : kstate :=
  KState (k_procs r) (k_g_procs r) (k_blocks r) (k_g_ublocks r) (f (k_edges r)) (k_rings r) (k_threads r)
    (k_next_pid r) (k_next_tid r) (k_next_ref r) (k_g_init r) (k_kas r) (k_pool r) (k_mem r) (k_futex r)
    (k_futex_key r) (k_futex_seq r) (k_cpus r) (k_this r) (k_next_target r) (k_platform r) (k_grants r)
    (k_next_grant_id r) (k_boot_key r) (k_routes r) (k_bsp_apic_id r) (k_ioapic_ok r) (k_iommu r)
    (k_clock r) (k_oom r) (k_held r) (k_log r).
Definition upd_k_rings (f : (gmap Z ring) -> (gmap Z ring)) (r : kstate) : kstate :=
  KState (k_procs r) (k_g_procs r) (k_blocks r) (k_g_ublocks r) (k_edges r) (f (k_rings r)) (k_threads r)
    (k_next_pid r) (k_next_tid r) (k_next_ref r) (k_g_init r) (k_kas r) (k_pool r) (k_mem r) (k_futex r)
    (k_futex_key r) (k_futex_seq r) (k_cpus r) (k_this r) (k_next_target r) (k_platform r) (k_grants r)
    (k_next_grant_id r) (k_boot_key r) (k_routes r) (k_bsp_apic_id r) (k_ioapic_ok r) (k_iommu r)
    (k_clock r) (k_oom r) (k_held r) (k_log r).
Definition upd_k_threads (f : (gmap Z thread) -> (gmap Z thread)) (r : kstate) : kstate :=
  KState (k_procs r) (k_g_procs r) (k_blocks r) (k_g_ublocks r) (k_edges r) (k_rings r) (f (k_threads r))
    (k_next_pid r) (k_next_tid r) (k_next_ref r) (k_g_init r) (k_kas r) (k_pool r) (k_mem r) (k_futex r)
    (k_futex_key r) (k_futex_seq r) (k_cpus r) (k_this r) (k_next_target r) (k_platform r) (k_grants r)
    (k_next_grant_id r) (k_boot_key r) (k_routes r) (k_bsp_apic_id r) (k_ioapic_ok r) (k_iommu r)
    (k_clock r) (k_oom r) (k_held r) (k_log r).
Definition upd_k_next_pid (f : Z -> Z) (r : kstate) : kstate :=
  KState (k_procs r) (k_g_procs r) (k_blocks r) (k_g_ublocks r) (k_edges r) (k_rings r) (k_threads r)
    (f (k_next_pid r)) (k_next_tid r) (k_next_ref r) (k_g_init r) (k_kas r) (k_pool r) (k_mem r) (k_futex r)
    (k_futex_key r) (k_futex_seq r) (k_cpus r) (k_this r) (k_next_target r) (k_platform r) (k_grants r)
    (k_next_grant_id r) (k_boot_key r) (k_routes r) (k_bsp_apic_id r) (k_ioapic_ok r) (k_iommu r)
    (k_clock r) (k_oom r) (k_held r) (k_log r).
Definition upd_k_next_tid (f : Z -> Z) (r : kstate) : kstate :=
  KState (k_procs r) (k_g_procs r) (k_blocks r) (k_g_ublocks r) (k_edges r) (k_rings r) (k_threads r)
    (k_next_pid r) (f (k_next_tid r)) (k_next_ref r) (k_g_init r) (k_kas r) (k_pool r) (k_mem r) (k_futex r)
    (k_futex_key r) (k_futex_seq r) (k_cpus r) (k_this r) (k_next_target r) (k_platform r) (k_grants r)
    (k_next_grant_id r) (k_boot_key r) (k_routes r) (k_bsp_apic_id r) (k_ioapic_ok r) (k_iommu r)
    (k_clock r) (k_oom r) (k_held r) (k_log r).
Definition upd_k_next_ref (f : Z -> Z) (r : kstate) : kstate :=
  KState (k_procs r) (k_g_procs r) (k_blocks r) (k_g_ublocks r) (k_edges r) (k_rings r) (k_threads r)
    (k_next_pid r) (k_next_tid r) (f (k_next_ref r)) (k_g_init r) (k_kas r) (k_pool r) (k_mem r) (k_futex r)
    (k_futex_key r) (k_futex_seq r) (k_cpus r) (k_this r) (k_next_target r) (k_platform r) (k_grants r)
    (k_next_grant_id r) (k_boot_key r) (k_routes r) (k_bsp_apic_id r) (k_ioapic_ok r) (k_iommu r)
    (k_clock r) (k_oom r) (k_held r) (k_log r).
Definition upd_k_g_init (f : (option Z) -> (option Z)) (r : kstate) : kstate :=
  KState (k_procs r) (k_g_procs r) (k_blocks r) (k_g_ublocks r) (k_edges r) (k_rings r) (k_threads r)
    (k_next_pid r) (k_next_tid r) (k_next_ref r) (f (k_g_init r)) (k_kas r) (k_pool r) (k_mem r) (k_futex r)
    (k_futex_key r) (k_futex_seq r) (k_cpus r) (k_this r) (k_next_target r) (k_platform r) (k_grants r)
    (k_next_grant_id r) (k_boot_key r) (k_routes r) (k_bsp_apic_id r) (k_ioapic_ok r) (k_iommu r)
    (k_clock r) (k_oom r) (k_held r) (k_log r).
Definition upd_k_kas (f : aspace -> aspace) (r : kstate) : kstate :=
  KState (k_procs r) (k_g_procs r) (k_blocks r) (k_g_ublocks r) (k_edges r) (k_rings r) (k_threads r)
    (k_next_pid r) (k_next_tid r) (k_next_ref r) (k_g_init r) (f (k_kas r)) (k_pool r) (k_mem r) (k_futex r)
    (k_futex_key r) (k_futex_seq r) (k_cpus r) (k_this r) (k_next_target r) (k_platform r) (k_grants r)
    (k_next_grant_id r) (k_boot_key r) (k_routes r) (k_bsp_apic_id r) (k_ioapic_ok r) (k_iommu r)
    (k_clock r) (k_oom r) (k_held r) (k_log r).
Definition upd_k_pool (f : buddy_allocator_s -> buddy_allocator_s) (r : kstate) : kstate :=
  KState (k_procs r) (k_g_procs r) (k_blocks r) (k_g_ublocks r) (k_edges r) (k_rings r) (k_threads r)
    (k_next_pid r) (k_next_tid r) (k_next_ref r) (k_g_init r) (k_kas r) (f (k_pool r)) (k_mem r) (k_futex r)
    (k_futex_key r) (k_futex_seq r) (k_cpus r) (k_this r) (k_next_target r) (k_platform r) (k_grants r)
    (k_next_grant_id r) (k_boot_key r) (k_routes r) (k_bsp_apic_id r) (k_ioapic_ok r) (k_iommu r)
    (k_clock r) (k_oom r) (k_held r) (k_log r).
Definition upd_k_mem (f : (Z -> Z) -> (Z -> Z)) (r : kstate) : kstate :=
  KState (k_procs r) (k_g_procs r) (k_blocks r) (k_g_ublocks r) (k_edges r) (k_rings r) (k_threads r)
    (k_next_pid r) (k_next_tid r) (k_next_ref r) (k_g_init r) (k_kas r) (k_pool r) (f (k_mem r)) (k_futex r)
    (k_futex_key r) (k_futex_seq r) (k_cpus r) (k_this r) (k_next_target r) (k_platform r) (k_grants r)
    (k_next_grant_id r) (k_boot_key r) (k_routes r) (k_bsp_apic_id r) (k_ioapic_ok r) (k_iommu r)
    (k_clock r) (k_oom r) (k_held r) (k_log r).
Definition upd_k_futex (f : (gmap Z (gmap (Z * Z) Z)) -> (gmap Z (gmap (Z * Z) Z))) (r : kstate) : kstate :=
  KState (k_procs r) (k_g_procs r) (k_blocks r) (k_g_ublocks r) (k_edges r) (k_rings r) (k_threads r)
    (k_next_pid r) (k_next_tid r) (k_next_ref r) (k_g_init r) (k_kas r) (k_pool r) (k_mem r) (f (k_futex r))
    (k_futex_key r) (k_futex_seq r) (k_cpus r) (k_this r) (k_next_target r) (k_platform r) (k_grants r)
    (k_next_grant_id r) (k_boot_key r) (k_routes r) (k_bsp_apic_id r) (k_ioapic_ok r) (k_iommu r)
    (k_clock r) (k_oom r) (k_held r) (k_log r).
Definition upd_k_futex_key (f : (list Z) -> (list Z)) (r : kstate) : kstate :=
  KState (k_procs r) (k_g_procs r) (k_blocks r) (k_g_ublocks r) (k_edges r) (k_rings r) (k_threads r)
    (k_next_pid r) (k_next_tid r) (k_next_ref r) (k_g_init r) (k_kas r) (k_pool r) (k_mem r) (k_futex r)
    (f (k_futex_key r)) (k_futex_seq r) (k_cpus r) (k_this r) (k_next_target r) (k_platform r) (k_grants r)
    (k_next_grant_id r) (k_boot_key r) (k_routes r) (k_bsp_apic_id r) (k_ioapic_ok r) (k_iommu r)
    (k_clock r) (k_oom r) (k_held r) (k_log r).
Definition upd_k_futex_seq (f : Z -> Z) (r : kstate) : kstate :=
  KState (k_procs r) (k_g_procs r) (k_blocks r) (k_g_ublocks r) (k_edges r) (k_rings r) (k_threads r)
    (k_next_pid r) (k_next_tid r) (k_next_ref r) (k_g_init r) (k_kas r) (k_pool r) (k_mem r) (k_futex r)
    (k_futex_key r) (f (k_futex_seq r)) (k_cpus r) (k_this r) (k_next_target r) (k_platform r) (k_grants r)
    (k_next_grant_id r) (k_boot_key r) (k_routes r) (k_bsp_apic_id r) (k_ioapic_ok r) (k_iommu r)
    (k_clock r) (k_oom r) (k_held r) (k_log r).
Definition upd_k_cpus (f : (list cpu) -> (list cpu)) (r : kstate) : kstate :=
  KState (k_procs r) (k_g_procs r) (k_blocks r) (k_g_ublocks r) (k_edges r) (k_rings r) (k_threads r)
    (k_next_pid r) (k_next_tid r) (k_next_ref r) (k_g_init r) (k_kas r) (k_pool r) (k_mem r) (k_futex r)
    (k_futex_key r) (k_futex_seq r) (f (k_cpus r)) (k_this r) (k_next_target r) (k_platform r) (k_grants r)
    (k_next_grant_id r) (k_boot_key r) (k_routes r) (k_bsp_apic_id r) (k_ioapic_ok r) (k_iommu r)
    (k_clock r) (k_oom r) (k_held r) (k_log r).
Definition upd_k_this (f : nat -> nat) (r : kstate) : kstate :=
  KState (k_procs r) (k_g_procs r) (k_blocks r) (k_g_ublocks r) (k_edges r) (k_rings r) (k_threads r)
    (k_next_pid r) (k_next_tid r) (k_next_ref r) (k_g_init r) (k_kas r) (k_pool r) (k_mem r) (k_futex r)
    (k_futex_key r) (k_futex_seq r) (k_cpus r) (f (k_this r)) (k_next_target r) (k_platform r) (k_grants r)
    (k_next_grant_id r) (k_boot_key r) (k_routes r) (k_bsp_apic_id r) (k_ioapic_ok r) (k_iommu r)
    (k_clock r) (k_oom r) (k_held r) (k_log r).
Definition upd_k_next_target (f : Z -> Z) (r : kstate) : kstate :=
  KState (k_procs r) (k_g_procs r) (k_blocks r) (k_g_ublocks r) (k_edges r) (k_rings r) (k_threads r)
    (k_next_pid r) (k_next_tid r) (k_next_ref r) (k_g_init r) (k_kas r) (k_pool r) (k_mem r) (k_futex r)
    (k_futex_key r) (k_futex_seq r) (k_cpus r) (k_this r) (f (k_next_target r)) (k_platform r) (k_grants r)
    (k_next_grant_id r) (k_boot_key r) (k_routes r) (k_bsp_apic_id r) (k_ioapic_ok r) (k_iommu r)
    (k_clock r) (k_oom r) (k_held r) (k_log r).
Definition upd_k_platform (f : platform -> platform) (r : kstate) : kstate :=
  KState (k_procs r) (k_g_procs r) (k_blocks r) (k_g_ublocks r) (k_edges r) (k_rings r) (k_threads r)
    (k_next_pid r) (k_next_tid r) (k_next_ref r) (k_g_init r) (k_kas r) (k_pool r) (k_mem r) (k_futex r)
    (k_futex_key r) (k_futex_seq r) (k_cpus r) (k_this r) (k_next_target r) (f (k_platform r)) (k_grants r)
    (k_next_grant_id r) (k_boot_key r) (k_routes r) (k_bsp_apic_id r) (k_ioapic_ok r) (k_iommu r)
    (k_clock r) (k_oom r) (k_held r) (k_log r).
Definition upd_k_grants (f : (gmap Z grant) -> (gmap Z grant)) (r : kstate) : kstate :=
  KState (k_procs r) (k_g_procs r) (k_blocks r) (k_g_ublocks r) (k_edges r) (k_rings r) (k_threads r)
    (k_next_pid r) (k_next_tid r) (k_next_ref r) (k_g_init r) (k_kas r) (k_pool r) (k_mem r) (k_futex r)
    (k_futex_key r) (k_futex_seq r) (k_cpus r) (k_this r) (k_next_target r) (k_platform r) (f (k_grants r))
    (k_next_grant_id r) (k_boot_key r) (k_routes r) (k_bsp_apic_id r) (k_ioapic_ok r) (k_iommu r)
    (k_clock r) (k_oom r) (k_held r) (k_log r).
Definition upd_k_next_grant_id (f : Z -> Z) (r : kstate) : kstate :=
  KState (k_procs r) (k_g_procs r) (k_blocks r) (k_g_ublocks r) (k_edges r) (k_rings r) (k_threads r)
    (k_next_pid r) (k_next_tid r) (k_next_ref r) (k_g_init r) (k_kas r) (k_pool r) (k_mem r) (k_futex r)
    (k_futex_key r) (k_futex_seq r) (k_cpus r) (k_this r) (k_next_target r) (k_platform r) (k_grants r)
    (f (k_next_grant_id r)) (k_boot_key r) (k_routes r) (k_bsp_apic_id r) (k_ioapic_ok r) (k_iommu r)
    (k_clock r) (k_oom r) (k_held r) (k_log r).
Definition upd_k_boot_key (f : (list Z) -> (list Z)) (r : kstate) : kstate :=
  KState (k_procs r) (k_g_procs r) (k_blocks r) (k_g_ublocks r) (k_edges r) (k_rings r) (k_threads r)
    (k_next_pid r) (k_next_tid r) (k_next_ref r) (k_g_init r) (k_kas r) (k_pool r) (k_mem r) (k_futex r)
    (k_futex_key r) (k_futex_seq r) (k_cpus r) (k_this r) (k_next_target r) (k_platform r) (k_grants r)
    (k_next_grant_id r) (f (k_boot_key r)) (k_routes r) (k_bsp_apic_id r) (k_ioapic_ok r) (k_iommu r)
    (k_clock r) (k_oom r) (k_held r) (k_log r).
Definition upd_k_routes (f : (list irq_route) -> (list irq_route)) (r : kstate) : kstate :=
  KState (k_procs r) (k_g_procs r) (k_blocks r) (k_g_ublocks r) (k_edges r) (k_rings r) (k_threads r)
    (k_next_pid r) (k_next_tid r) (k_next_ref r) (k_g_init r) (k_kas r) (k_pool r) (k_mem r) (k_futex r)
    (k_futex_key r) (k_futex_seq r) (k_cpus r) (k_this r) (k_next_target r) (k_platform r) (k_grants r)
    (k_next_grant_id r) (k_boot_key r) (f (k_routes r)) (k_bsp_apic_id r) (k_ioapic_ok r) (k_iommu r)
    (k_clock r) (k_oom r) (k_held r) (k_log r).
Definition upd_k_bsp_apic_id (f : Z -> Z) (r : kstate) : kstate :=
  KState (k_procs r) (k_g_procs r) (k_blocks r) (k_g_ublocks r) (k_edges r) (k_rings r) (k_threads r)
    (k_next_pid r) (k_next_tid r) (k_next_ref r) (k_g_init r) (k_kas r) (k_pool r) (k_mem r) (k_futex r)
    (k_futex_key r) (k_futex_seq r) (k_cpus r) (k_this r) (k_next_target r) (k_platform r) (k_grants r)
    (k_next_grant_id r) (k_boot_key r) (k_routes r) (f (k_bsp_apic_id r)) (k_ioapic_ok r) (k_iommu r)
    (k_clock r) (k_oom r) (k_held r) (k_log r).
Definition upd_k_ioapic_ok (f : (Z -> bool) -> (Z -> bool)) (r : kstate) : kstate :=
  KState (k_procs r) (k_g_procs r) (k_blocks r) (k_g_ublocks r) (k_edges r) (k_rings r) (k_threads r)
    (k_next_pid r) (k_next_tid r) (k_next_ref r) (k_g_init r) (k_kas r) (k_pool r) (k_mem r) (k_futex r)
    (k_futex_key r) (k_futex_seq r) (k_cpus r) (k_this r) (k_next_target r) (k_platform r) (k_grants r)
    (k_next_grant_id r) (k_boot_key r) (k_routes r) (k_bsp_apic_id r) (f (k_ioapic_ok r)) (k_iommu r)
    (k_clock r) (k_oom r) (k_held r) (k_log r).
Definition upd_k_iommu (f : iommu -> iommu) (r : kstate) : kstate :=
  KState (k_procs r) (k_g_procs r) (k_blocks r) (k_g_ublocks r) (k_edges r) (k_rings r) (k_threads r)
    (k_next_pid r) (k_next_tid r) (k_next_ref r) (k_g_init r) (k_kas r) (k_pool r) (k_mem r) (k_futex r)
    (k_futex_key r) (k_futex_seq r) (k_cpus r) (k_this r) (k_next_target r) (k_platform r) (k_grants r)
    (k_next_grant_id r) (k_boot_key r) (k_routes r) (k_bsp_apic_id r) (k_ioapic_ok r) (f (k_iommu r))
    (k_clock r) (k_oom r) (k_held r) (k_log r).
Definition upd_k_clock (f : Z -> Z) (r : kstate) : kstate :=
  KState (k_procs r) (k_g_procs r) (k_blocks r) (k_g_ublocks r) (k_edges r) (k_rings r) (k_threads r)
    (k_next_pid r) (k_next_tid r) (k_next_ref r) (k_g_init r) (k_kas r) (k_pool r) (k_mem r) (k_futex r)
    (k_futex_key r) (k_futex_seq r) (k_cpus r) (k_this r) (k_next_target r) (k_platform r) (k_grants r)
    (k_next_grant_id r) (k_boot_key r) (k_routes r) (k_bsp_apic_id r) (k_ioapic_ok r) (k_iommu r)
    (f (k_clock r)) (k_oom r) (k_held r) (k_log r).
Definition upd_k_oom (f : (list bool) -> (list bool)) (r : kstate) : kstate :=
  KState (k_procs r) (k_g_procs r) (k_blocks r) (k_g_ublocks r) (k_edges r) (k_rings r) (k_threads r)
    (k_next_pid r) (k_next_tid r) (k_next_ref r) (k_g_init r) (k_kas r) (k_pool r) (k_mem r) (k_futex r)
    (k_futex_key r) (k_futex_seq r) (k_cpus r) (k_this r) (k_next_target r) (k_platform r) (k_grants r)
    (k_next_grant_id r) (k_boot_key r) (k_routes r) (k_bsp_apic_id r) (k_ioapic_ok r) (k_iommu r)
    (k_clock r) (f (k_oom r)) (k_held r) (k_log r).
Definition upd_k_held (f : (list lockid) -> (list lockid)) (r : kstate) : kstate :=
  KState (k_procs r) (k_g_procs r) (k_blocks r) (k_g_ublocks r) (k_edges r) (k_rings r) (k_threads r)
    (k_next_pid r) (k_next_tid r) (k_next_ref r) (k_g_init r) (k_kas r) (k_pool r) (k_mem r) (k_futex r)
    (k_futex_key r) (k_futex_seq r) (k_cpus r) (k_this r) (k_next_target r) (k_platform r) (k_grants r)
    (k_next_grant_id r) (k_boot_key r) (k_routes r) (k_bsp_apic_id r) (k_ioapic_ok r) (k_iommu r)
    (k_clock r) (k_oom r) (f (k_held r)) (k_log r).
Definition upd_k_log (f : (list hw_event) -> (list hw_event)) (r : kstate) : kstate :=
  KState (k_procs r) (k_g_procs r) (k_blocks r) (k_g_ublocks r) (k_edges r) (k_rings r) (k_threads r)
    (k_next_pid r) (k_next_tid r) (k_next_ref r) (k_g_init r) (k_kas r) (k_pool r) (k_mem r) (k_futex r)
    (k_futex_key r) (k_futex_seq r) (k_cpus r) (k_this r) (k_next_target r) (k_platform r) (k_grants r)
    (k_next_grant_id r) (k_boot_key r) (k_routes r) (k_bsp_apic_id r) (k_ioapic_ok r) (k_iommu r)
    (k_clock r) (k_oom r) (k_held r) (f (k_log r)).

(** ** The monad *)

Inductive halt :=
  | HAssert (msg : string)
  | HDangling
  | HLockOrder (l : lockid)
  | HFault (addr : Z)
  | HOom
  | HSpin.

Inductive outcome (A : Type) :=
  | Ret (a : A) (s : kstate)
  | Park (s : kstate)
  | Halt (h : halt) (s : kstate).
Arguments Ret {A} a s.
Arguments Park {A} s.
Arguments Halt {A} h s.

Definition M (A : Type) : Type := kstate -> outcome A.

#[export] Instance M_ret : MRet M := fun A a s => Ret a s.
#[export] Instance M_bind : MBind M := fun A B k m s =>
  match m s with Ret a s => k a s | Park s => Park s | Halt h s => Halt h s end.

Definition gets {A} (f : kstate -> A) : M A := fun s => Ret (f s) s.
Definition modify (f : kstate -> kstate) : M unit := fun s => Ret tt (f s).
Definition die {A} (h : halt) : M A := fun s => Halt h s.
Definition park {A} : M A := fun s => Park s.
Definition skip : M unit := mret tt.

Definition asserts (b : bool) (msg : string) : M unit :=
  if b then skip else die (HAssert msg).

(** Following a pointer. *)
Definition deref {A} (o : option A) : M A :=
  match o with Some a => mret a | None => die HDangling end.

Definition when (b : bool) (m : M unit) : M unit := if b then m else skip.

Fixpoint iterM {A} (f : A -> M unit) (l : list A) : M unit :=
  match l with [] => skip | x :: l => _ ← f x; iterM f l end.

(** ** Locks *)

Definition rank (l : lockid) : Z :=
  match l with
  | LUmem => 0 | LProc _ => 1 | LRoute _ => 2 | LFault => 2 | LCq _ => 3 | LBucket _ => 4
  | LTimer _ => 5 | LAllocator => 5 | LSched _ => 5
  end.

(** The hierarchy of [umem.h]: a lock is taken only while every held lock ranks
    strictly above it; two futex buckets are taken in ascending index. *)
Definition above (h l : lockid) : bool :=
  (rank h <? rank l) || match h, l with LBucket i, LBucket j => i <? j | _, _ => false end.

Definition lock (l : lockid) : M unit := fun s =>
  if forallb (fun h => above h l) (k_held s) then Ret tt (upd_k_held (cons l) s)
  else Halt (HLockOrder l) s.

#[export] Instance thread_status_eq : EqDecision thread_status.
Proof. solve_decision. Defined.
#[export] Instance futex_state_eq : EqDecision futex_state.
Proof. solve_decision. Defined.
#[export] Instance ublock_backing_eq : EqDecision ublock_backing.
Proof. solve_decision. Defined.
#[export] Instance irq_trigger_mode_eq : EqDecision irq_trigger_mode.
Proof. solve_decision. Defined.
#[export] Instance lockid_eq : EqDecision lockid.
Proof. solve_decision. Defined.

Definition unlock (l : lockid) : M unit := fun s =>
  if bool_decide (l ∈ k_held s) then Ret tt (upd_k_held (List.remove lockid_eq l) s)
  else Halt (HLockOrder l) s.

Definition umem_lock : M unit := lock LUmem.
Definition umem_unlock : M unit := unlock LUmem.
Definition umem_proc_lock (p : Z) : M unit := lock (LProc p).
Definition umem_proc_unlock (p : Z) : M unit := unlock (LProc p).

(** ** Heap access *)

Definition get_proc (p : Z) : M process := fun s =>
  match k_procs s !! p with Some P => Ret P s | None => Halt HDangling s end.
Definition get_block (b : Z) : M ublock := fun s =>
  match k_blocks s !! b with Some B => Ret B s | None => Halt HDangling s end.
Definition get_edge (e : Z) : M share_edge := fun s =>
  match k_edges s !! e with Some E => Ret E s | None => Halt HDangling s end.
Definition get_ring (r : Z) : M ring := fun s =>
  match k_rings s !! r with Some R => Ret R s | None => Halt HDangling s end.
Definition get_thread (t : Z) : M thread := fun s =>
  match k_threads s !! t with Some T => Ret T s | None => Halt HDangling s end.

Definition mod_proc (p : Z) (f : process -> process) : M unit := fun s =>
  match k_procs s !! p with
  | Some P => Ret tt (upd_k_procs (insert p (f P)) s) | None => Halt HDangling s end.
Definition mod_block (b : Z) (f : ublock -> ublock) : M unit := fun s =>
  match k_blocks s !! b with
  | Some B => Ret tt (upd_k_blocks (insert b (f B)) s) | None => Halt HDangling s end.
Definition mod_edge (e : Z) (f : share_edge -> share_edge) : M unit := fun s =>
  match k_edges s !! e with
  | Some E => Ret tt (upd_k_edges (insert e (f E)) s) | None => Halt HDangling s end.
Definition mod_ring (r : Z) (f : ring -> ring) : M unit := fun s =>
  match k_rings s !! r with
  | Some R => Ret tt (upd_k_rings (insert r (f R)) s) | None => Halt HDangling s end.
Definition mod_thread (t : Z) (f : thread -> thread) : M unit := fun s =>
  match k_threads s !! t with
  | Some T => Ret tt (upd_k_threads (insert t (f T)) s) | None => Halt HDangling s end.

Definition get_grant (g : Z) : M grant := fun s =>
  match k_grants s !! g with Some G => Ret G s | None => Halt HDangling s end.
Definition mod_grant (g : Z) (f : grant -> grant) : M unit := fun s =>
  match k_grants s !! g with
  | Some G => Ret tt (upd_k_grants (insert g (f G)) s) | None => Halt HDangling s end.
Definition get_route (i : Z) : M irq_route := fun s =>
  match k_routes s !! Z.to_nat i with Some R => Ret R s | None => Halt HDangling s end.
Definition mod_route (i : Z) (f : irq_route -> irq_route) : M unit := fun s =>
  match k_routes s !! Z.to_nat i with
  | Some R => Ret tt (upd_k_routes (insert (Z.to_nat i) (f R)) s) | None => Halt HDangling s end.
Definition get_cpu (i : Z) : M cpu := fun s =>
  match k_cpus s !! Z.to_nat i with Some c => Ret c s | None => Halt HDangling s end.
Definition mod_cpu (i : Z) (f : cpu -> cpu) : M unit := fun s =>
  match k_cpus s !! Z.to_nat i with
  | Some c => Ret tt (upd_k_cpus (insert (Z.to_nat i) (f c)) s) | None => Halt HDangling s end.
Definition emit (e : hw_event) : M unit := modify (upd_k_log (cons e)).

(** The address of a new object. *)
Definition new_ref : M Z := fun s => Ret (k_next_ref s) (upd_k_next_ref Z.succ s).

(** A metadata allocation ([slab_*_malloc], a node of an index). *)
Definition try_alloc : M bool := fun s =>
  match k_oom s with [] => Ret true s | ok :: l => Ret ok (upd_k_oom (fun _ => l) s) end.

(** One whose failure is fatal: [asserts(x != nullptr, ...)]. *)
Definition must_alloc : M unit :=
  ok ← try_alloc; if (ok : bool) then skip else die HOom.

(** ** Address spaces *)

Definition as_has_pins (a : aspace) : bool := negb (a_pins a =? 0).

(** The address space of process [p] ([p->as], never null where it is used). *)
Definition get_as (p : Z) : M aspace := P ← get_proc p; deref (p_as P).

Definition as_flag_tree (a : aspace) (lo hi f : Z) : M aspace :=
  match pt_flag (a_tree a) lo hi f with
  | Some t => mret (Aspace t (a_pins a) true)
  | None => die (HAssert "paging")
  end.

(** [as_flag(p->as, lo, hi, f)]. *)
Definition as_flag (p lo hi f : Z) : M unit :=
  a ← get_as p;
  a ← as_flag_tree a lo hi f;
  mod_proc p (upd_p_as (fun _ => Some a)).

Definition as_flag_kernel (lo hi f : Z) : M unit :=
  a ← gets k_kas;
  a ← as_flag_tree a lo hi f;
  modify (upd_k_kas (fun _ => a)).

Definition as_flush (p : Z) : M unit :=
  a ← get_as p; mod_proc p (upd_p_as (fun _ => Some (upd_a_dirty (fun _ => false) a))).

Definition as_flush_kernel : M unit := modify (upd_k_kas (upd_a_dirty (fun _ => false))).

Definition as_pin (p : Z) : M unit :=
  a ← get_as p; mod_proc p (upd_p_as (fun _ => Some (upd_a_pins Z.succ a))).

Definition as_unpin (p : Z) : M unit :=
  a ← get_as p;
  _ ← asserts (negb (a_pins a =? 0)) "as_unpin: underflow";
  mod_proc p (upd_p_as (fun _ => Some (upd_a_pins Z.pred a))).

(** [as_clone(g_as_kernel)]. *)
Definition as_clone_kernel : M aspace := gets (fun s => Aspace (pt_clone (a_tree (k_kas s))) 0 false).

(** ** Memory *)

Definition canonical (a : Z) : bool := (a <? 2 ^ 47) || (2 ^ 64 - 2 ^ 47 <=? a).

Definition align_down (a : Z) : Z := a / PAGE_SIZE * PAGE_SIZE.

(** The pages that [[a, a+n)] touches. *)
Definition touched (a n : Z) : list Z :=
  (fun i => align_down a + i * PAGE_SIZE) <$> seqZ 0 ((a + n - 1) / PAGE_SIZE - a / PAGE_SIZE + 1).

(** The tree loaded on the running processor. *)
Definition current_tree (s : kstate) : option ptree :=
  c ← k_cpus s !! k_this s;
  match c_current_as c with
  | None => Some (a_tree (k_kas s))
  | Some p => P ← k_procs s !! p; a ← p_as P; Some (a_tree a)
  end.

Definition page_ok (t : ptree) (a : Z) : bool := canonical a && nz (pt_info t a).

(** A kernel-mode access to [[a, a+n)], [n > 0]. *)
Definition touch (a n : Z) : M unit := fun s =>
  match current_tree s with
  | None => Halt HDangling s
  | Some t => if forallb (page_ok t) (touched a n) then Ret tt s else Halt (HFault a) s
  end.

Definition mem_read (m : Z -> Z) (a : Z) (n : nat) : list Z := (fun i => u8 (m (a + Z.of_nat i))) <$> seq 0 n.

Definition mem_write (m : Z -> Z) (a : Z) (bs : list Z) : Z -> Z := fun x =>
  if (a <=? x) && (x <? a + Z.of_nat (length bs)) then nth (Z.to_nat (x - a)) bs 0 else m x.

Definition mem_fill (m : Z -> Z) (a n v : Z) : Z -> Z := fun x =>
  if (a <=? x) && (x <? a + n) then v else m x.

(** Little-endian words. *)
Fixpoint le_decode (bs : list Z) : Z :=
  match bs with [] => 0 | b :: bs => b + 256 * le_decode bs end.

Fixpoint le_encode (n : nat) (v : Z) : list Z :=
  match n with O => [] | S n => v mod 256 :: le_encode n (v / 256) end.

Definition load_bytes (a : Z) (n : nat) : M (list Z) :=
  _ ← touch a (Z.of_nat n); gets (fun s => mem_read (k_mem s) a n).
Definition store_bytes (a : Z) (bs : list Z) : M unit :=
  _ ← touch a (Z.of_nat (length bs)); modify (upd_k_mem (fun m => mem_write m a bs)).

Definition load32 (a : Z) : M Z := bs ← load_bytes a 4; mret (le_decode bs).
Definition load64 (a : Z) : M Z := bs ← load_bytes a 8; mret (le_decode bs).
Definition store32 (a v : Z) : M unit := store_bytes a (le_encode 4 v).

Definition memset0 (a n : Z) : M unit :=
  _ ← touch a n; modify (upd_k_mem (fun m => mem_fill m a n 0)).

(** ** Ordered indices *)

Definition pair_leb (x y : Z * Z) : bool :=
  (x.1 <? y.1) || ((x.1 =? y.1) && (x.2 <=? y.2)).

(** The keys of an index in ascending order. *)
Definition keys {A} (m : gmap Z A) : list Z := merge_sort Z.le (elements (dom m)).

(** [llrb_*_floor]: the entry with the largest key not above [k]. *)
Definition floor {A} (m : gmap Z A) (k : Z) : option (Z * A) :=
  match List.filter (fun x => x <=? k) (keys m) with
  | [] => None
  | l => x ← last l; a ← m !! x; Some (x, a)
  end.

(** The keys a lower-bound iteration from [after] visits, the equal one skipped:
    the enumeration loops of umem.c and process.c, at most [cap] of them. *)
Definition keys_after {A} (m : gmap Z A) (after : Z) (cap : nat) : list Z :=
  take cap (List.filter (fun x => after <? x) (keys m)).

(** The first entry of an index on pairs at or after [k]. *)
Definition lower_bound {A} (m : gmap (Z * Z) A) (k : Z * Z) : option ((Z * Z) * A) :=
  map_fold (fun x a acc =>
    if pair_leb k x then
      match acc with
      | Some (y, _) => if pair_leb x y then Some (x, a) else acc
      | None => Some (x, a)
      end
    else acc) None m.

End Structs.

Arguments Ret {PT A} a s.
Arguments Park {PT A} s.
Arguments Halt {PT A} h s.
