(* ===== verification/PageTrees.v ===== *)
(** * Four-level trees behind the page-tree interface

    The kernel modules use page trees through [PageTree]: a flat map from pages to
    flag words.  The radix trees of Paging.v implement it.  A tree carries the proof
    that it is well formed; an update is given the page-table frames it may need at
    most, since an exhausted pool halts the kernel. *)

From S2P Require Import Prelude Paging Machine.

(** A walk reads nine bits of the address per level, above the offset in the page. *)
Lemma level_idx_page a l : 0 <= a -> (1 <= l <= 4)%nat -> level_idx (a mod 2 ^ 48 / PAGE_SIZE * PAGE_SIZE) l = level_idx a l.
Proof.
  intros Ha Hl. unfold level_idx. f_equal. change 0x1ff with (Z.ones 9). rewrite !Z.land_ones, !Z.shiftr_div_pow2 by (destruct l as [|[|[|[|[|]]]]]; simpl; lia).
  unfold PAGE_SIZE. destruct l as [|[|[|[|[|]]]]]; try lia; simpl; div_lia.
Qed.

Lemma walk_page l t a : 0 <= a -> (1 <= l <= 4)%nat -> walk l t (a mod 2 ^ 48 / PAGE_SIZE * PAGE_SIZE) = walk l t a.
Proof.
  intros Ha. revert t. induction l as [|l IH]; intros t Hl; [lia|]. rewrite !walk_unfold, level_idx_page by done.
  destruct (t !! _) as [[w|c]|]; simpl; [done| |done]. destruct l; [done|]. apply IH. lia.
Qed.

Definition radix : Type := { s : address_space | wf_as s }.

(** The frames an update may take. *)
Definition flag_frames (a b : Z) : Z := 3 * leaf_count (Z.to_nat ((b - a) / PAGE_SIZE)) a b.

Definition radix_info (t : radix) (a : Z) : Z := from_option fst 0 (as_getinfo (`t) a).

#[export] Instance page_range_dec a b : Decision (page_range a b).
Proof. unfold page_range. apply _. Defined.

#[export] Instance flags_valid_dec f : Decision (flags_valid f).
Proof. unfold flags_valid. apply _. Defined.

Lemma valid_leaf f : flags_valid f -> flags_ok f.
Proof.
  intros (Hf & Hr & Hc).
  assert (Hall : Forall (fun f => Z.land f 15 = 0 \/ has f PAGE_R = true -> is_Some (leaf_flags_to_pte f)) (map Z.of_nat (seq 0 64))).
  { repeat constructor; intros [H|H]; vm_compute in H; try done; vm_compute; eauto. }
  rewrite Forall_forall in Hall. destruct (Hall f) as [lb Hlb]; [|done|by exists lb].
  apply list_elem_of_fmap. exists (Z.to_nat f). split; [lia|]. apply elem_of_seq. lia.
Qed.

Lemma flag_wf (t : radix) a b f s' n : page_range a b -> flags_valid f ->
  Paging.as_flag (`t) a b f (flag_frames a b) = Some (s', n) -> wf_as s'.
Proof.
  intros (H1 & H2 & H3 & H4) Hf E. destruct (valid_leaf f Hf) as [lb Hlb].
  destruct (as_flag_spec (`t) a b f lb (flag_frames a b)) as (s2 & n2 & e & E2 & Hin & _); [exact (proj2_sig t)|done..|].
  rewrite E in E2. injection E2 as <- <-. by destruct Hin.
Qed.

Definition radix_flag (t : radix) (a b f : Z) : option radix :=
  match decide (page_range a b /\ flags_valid f) with
  | left H =>
      match Paging.as_flag (`t) a b f (flag_frames a b) as o return Paging.as_flag (`t) a b f (flag_frames a b) = o -> option radix with
      | Some (s', n) => fun E => Some (exist wf_as s' (flag_wf t a b f s' n (proj1 H) (proj2 H) E))
      | None => fun _ => None
      end eq_refl
  | right _ => None
  end.

Lemma clone_wf (t : radix) s' n : as_clone (`t) (as_table_count (`t)) = Some (s', n) -> wf_as s'.
Proof.
  intros E. destruct (clone_spec (`t) (as_table_count (`t)) (proj2_sig t)) as (s2 & n2 & E2 & Hw & _); [lia|].
  rewrite E in E2. by injection E2 as <- <-.
Qed.

Definition radix_clone (t : radix) : radix :=
  match as_clone (`t) (as_table_count (`t)) as o return as_clone (`t) (as_table_count (`t)) = o -> radix with
  | Some (s', n) => fun E => exist wf_as s' (clone_wf t s' n E)
  | None => fun _ => t
  end eq_refl.

Lemma radix_flag_root t a b f t' : radix_flag t a b f = Some t' -> exists n, Paging.as_flag (`t) a b f (flag_frames a b) = Some (`t', n).
Proof.
  unfold radix_flag. destruct (decide _) as [H|]; [|done]. generalize (flag_wf t a b f).
  destruct (Paging.as_flag _ _ _ _ _) as [[s' n]|] eqn:E; [|done]. intros w [= <-]. simpl. eauto.
Qed.

Lemma radix_info_page t a : 0 <= a -> radix_info t a = radix_info t (a mod 2 ^ 48 / PAGE_SIZE * PAGE_SIZE).
Proof. intros Ha. unfold radix_info, as_getinfo. by rewrite walk_page by lia. Qed.

Lemma radix_flag_spec t a b f : page_range a b -> flags_valid f ->
  exists t', radix_flag t a b f = Some t' /\
    forall x, 0 <= x < 2 ^ 48 -> radix_info t' x = if decide (a <= x < b) then shown f else radix_info t x.
Proof.
  intros Hr Hf. destruct (valid_leaf f Hf) as [lb Hlb]. pose proof Hr as (H1 & H2 & H3 & H4). pose proof Hf as (F1 & F2 & F3).
  destruct (as_flag_spec (`t) a b f lb (flag_frames a b)) as (s' & n & e & E & _); [exact (proj2_sig t)|done..|].
  assert (exists t', radix_flag t a b f = Some t') as [t' Ht'].
  { unfold radix_flag. destruct (decide _) as [H|H]; [|by destruct H]. generalize (flag_wf t a b f). rewrite E. eauto. }
  exists t'. split; [done|]. intros x Hx. destruct (radix_flag_root _ _ _ _ _ Ht') as [n' E']. unfold radix_info.
  rewrite (flag_getinfo (`t) a b f (flag_frames a b) (`t') n' x (proj2_sig t)) by (done || by exists lb).
  case_decide; [|done]. unfold shown. by case_match.
Qed.

Lemma radix_clone_spec t x : 0 <= x < 2 ^ 48 -> radix_info (radix_clone t) x = radix_info t x.
Proof.
  intros Hx. destruct (clone_spec (`t) (as_table_count (`t)) (proj2_sig t)) as (s' & n & E & _ & Hw & _); [lia|].
  assert (proj1_sig (radix_clone t) = s') as Es. { unfold radix_clone. generalize (clone_wf t). rewrite E. done. }
  unfold radix_info, as_getinfo. by rewrite Es, Hw.
Qed.

Definition radix_pages : PageTree := {|
  ptree := radix;
  pt_info := radix_info;
  pt_flag := radix_flag;
  pt_clone := radix_clone;
  pt_info_page := radix_info_page;
  pt_flag_spec := radix_flag_spec;
  pt_clone_spec := radix_clone_spec |}.

(** The boot-time mapping of the first 512 GiB. *)
Lemma identity_wf s n : as_identity_mapping 2 = Some (s, n) -> wf_as s.
Proof. intros E. destruct (identity_spec 2) as (s' & E' & Hw & _); [lia|]. rewrite E in E'. by injection E' as -> _. Qed.

Definition boot_radix : option radix :=
  match as_identity_mapping 2 as o return as_identity_mapping 2 = o -> option radix with
  | Some (s, n) => fun E => Some (exist wf_as s (identity_wf s n E))
  | None => fun _ => None
  end eq_refl.

Lemma boot_radix_info : exists t, boot_radix = Some t /\ forall a, 0 <= a < 2 ^ 48 ->
  radix_info t a = if a <? 2 ^ 39 then PAGE_KERNEL_PRISTINE else 0.
Proof.
  destruct (identity_spec 2) as (s & E & Hw & _ & Hv); [lia|]. unfold boot_radix. generalize identity_wf. rewrite E.
  intros w. eexists. split; [done|]. intros a Ha. unfold radix_info. simpl. rewrite getinfo_view, Hv by done. by destruct (a <? 2 ^ 39).
Qed.

(** ** Any sequence of updates *)

Fixpoint flag_all {PT : PageTree} (ops : list (Z * Z * Z)) (t : ptree) : option ptree :=
  match ops with
  | [] => Some t
  | (a, b, f) :: ops => t' ← pt_flag t a b f; flag_all ops t'
  end.

Definition op_ok (op : Z * Z * Z) : Prop := page_range op.1.1 op.1.2 /\ flags_valid op.2.

#[export] Instance op_ok_dec op : Decision (op_ok op).
Proof. unfold op_ok. apply _. Defined.

(** Two implementations of the interface cannot be told apart by updates and queries. *)
Lemma trees_agree (P1 P2 : PageTree) ops : forall (t1 : @ptree P1) (t2 : @ptree P2), Forall op_ok ops ->
  (forall x, 0 <= x < 2 ^ 48 -> pt_info t1 x = pt_info t2 x) ->
  exists t1' t2', flag_all ops t1 = Some t1' /\ flag_all ops t2 = Some t2' /\
    forall x, 0 <= x < 2 ^ 48 -> pt_info t1' x = pt_info t2' x.
Proof.
  induction ops as [|[[a b] f] ops IH]; intros t1 t2 Hok Heq; [by eexists t1, t2|].
  inversion Hok as [|? ? [H1 H2] Hok']; subst. simpl.
  destruct (pt_flag_spec t1 a b f H1 H2) as (u1 & -> & I1), (pt_flag_spec t2 a b f H1 H2) as (u2 & -> & I2). simpl.
  apply IH; [done|]. intros x Hx. rewrite I1, I2 by done. case_decide; [done|by apply Heq].
Qed.

(** C31: The four-level trees implement the flat page map: after any sequence of
    [as_flag] calls on page-aligned ranges with valid flags, each of which succeeds,
    [as_getinfo] on the tree reports at every address what a flat array of flag words
    updated by the same calls holds, whatever tables were split, merged or freed. *)
Theorem radix_refines_flat ops (t : radix) (m : Z -> Z) : Forall op_ok ops ->
  (forall x, 0 <= x < 2 ^ 48 -> radix_info t x = flat_info m x) ->
  exists t' m', flag_all (PT := radix_pages) ops t = Some t' /\ flag_all (PT := flat_pages) ops m = Some m' /\
    forall x, 0 <= x < 2 ^ 48 -> radix_info t' x = flat_info m' x.
Proof. apply (trees_agree radix_pages flat_pages). Qed.

Definition some_updates : list (Z * Z * Z) := [(0, 2 ^ 30, 11); (4096, 8192, 0); (2 ^ 21, 2 ^ 22, 9)].

Lemma radix_refines_flat_witness : exists t t' m', boot_radix = Some t /\ flag_all (PT := radix_pages) some_updates t = Some t' /\
  radix_info t' 4096 = flat_info m' 4096.
Proof.
  destruct boot_radix_info as (t & Ht & Hi).
  destruct (radix_refines_flat some_updates t (fun n => if n <? 2 ^ 27 then PAGE_KERNEL_PRISTINE else 0)) as (t' & m' & E & _ & Hx).
  - by apply (bool_decide_unpack _).
  - intros x Hx. rewrite Hi by done. unfold flat_info, PAGE_SIZE. rewrite Z.mod_small by done.
    destruct (Z.ltb_spec x (2 ^ 39)), (Z.ltb_spec (x / 4096) (2 ^ 27)); try done; exfalso; div_lia.
  - exists t, t', m'. split_and!; [done|done|by apply Hx].
Defined.
