(* ===== verification/Sched.v ===== *)
(** * Liveness, the run queues, deadlines and the futex wait table

    [process_is_dead] of [process.c]; [scheduler_enqueue] and the run queues of
    [scheduler.c]; [thread_unblock_claimed] of [thread.c]; the deadline trees of
    [timer.c]; the bucket table and the claim protocol of [futex.c] up to the
    syscall backends, which are in Syscall.v.

    Loops without a structural measure carry fuel: the walk to the root of the
    process tree takes at most as many steps as the pid (a parent's pid is
    smaller), and one round over a futex bucket visits each waiter at most once.
    Running out of fuel is [HSpin]. *)

From S2P Require Import Prelude Buddy Paging Siphash PlatformMem Machine.

Section Sched.
Context {PT : PageTree}.

(** ** Error codes ([syscall.h]) *)

Definition SYSERR_NOSYS : Z := 2 ^ 64 - 1.
Definition SYSERR_FAULT : Z := 2 ^ 64 - 2.
Definition SYSERR_INVAL : Z := 2 ^ 64 - 3.
Definition SYSERR_NOMEM : Z := 2 ^ 64 - 4.
Definition SYSERR_EXIST : Z := 2 ^ 64 - 5.
Definition SYSERR_PERM : Z := 2 ^ 64 - 6.
Definition SYSERR_DEAD : Z := 2 ^ 64 - 7.
Definition SYSERR_AGAIN : Z := 2 ^ 64 - 8.
Definition SYSERR_TIMEDOUT : Z := 2 ^ 64 - 9.

(** ** Process liveness *)

Fixpoint dead_walk (fuel : nat) (p : option Z) : M bool :=
  match p with
  | None => mret false
  | Some p =>
      match fuel with
      | O => die HSpin
      | S fuel => P ← get_proc p; if p_dead P then mret true else dead_walk fuel (p_parent P)
      end
  end.

Definition process_is_dead (p : Z) : M bool := dead_walk (Z.to_nat p) (Some p).

(** ** Run queues *)

Definition scheduler_pop_local_locked (cpu : Z) : M (option Z) :=
  c ← get_cpu cpu;
  match c_queue c with
  | [] => mret None
  | t :: q => _ ← mod_cpu cpu (upd_c_queue (fun _ => q)); mret (Some t)
  end.

Definition scheduler_push_local_locked (cpu t : Z) : M unit :=
  mod_cpu cpu (upd_c_queue (fun q => q ++ [t])).

Definition scheduler_enqueue (t : Z) : M unit :=
  n ← gets (fun s => Z.of_nat (length (k_cpus s)));
  target ← gets (fun s => k_next_target s mod n);
  _ ← modify (upd_k_next_target (fun x => u64 (x + 1)));
  _ ← lock (LSched target);
  _ ← scheduler_push_local_locked target t;
  c ← get_cpu target;
  _ ← unlock (LSched target);
  when (c_idle c) (emit (EvWakeCpu target)).

(** ** The architecture's part of a thread ([thread_arch.c]) *)

Definition GDT_SEL_USER_DS : Z := Z.lor 0x20 3.
Definition GDT_SEL_USER_CS64 : Z := Z.lor 0x28 3.

Definition canonical48 (address : Z) : bool :=
  let high := Z.shiftr address 47 in (high =? 0) || (high =? 0x1FFFF).

(** The frame, FS base and GS base of a fresh user thread. *)
Definition arch_thread_init_user (entry user_stack_pointer arg fs_base gs_base : Z) : frame * Z * Z :=
  (TrapFrame 0 0 arg 0 0 0 0 0 0 0 0 0 0 0 0 0 entry GDT_SEL_USER_CS64 0x202 user_stack_pointer GDT_SEL_USER_DS,
   fs_base, gs_base).

Definition arch_uthread_set_result (v : Z) (t : thread) : thread := upd_t_frame (set_rax v) t.

Definition this_cpu : M Z := gets (fun s => Z.of_nat (k_this s)).

Definition arch_uthread_save_frame (t : Z) (tf : frame) : M unit :=
  _ ← mod_thread t (upd_t_frame (fun _ => tf));
  cpu ← this_cpu;
  c ← get_cpu cpu;
  _ ← mod_thread t (upd_t_fs_base (fun _ => c_fs_base c));
  mod_thread t (upd_t_gs_base (fun _ => c_gs_base c)).

Definition uthread_resume_prepare (t : Z) : M frame :=
  T ← get_thread t;
  cpu ← this_cpu;
  _ ← mod_cpu cpu (upd_c_fs_base (fun _ => t_fs_base T));
  _ ← mod_cpu cpu (upd_c_gs_base (fun _ => t_gs_base T));
  mret (t_frame T).

Definition arch_uthread_set_bases (t fs_base gs_base : Z) : M Z :=
  if negb (canonical48 fs_base) || negb (canonical48 gs_base) then mret SYSERR_INVAL
  else
    _ ← mod_thread t (upd_t_fs_base (fun _ => fs_base));
    _ ← mod_thread t (upd_t_gs_base (fun _ => gs_base));
    cpu ← this_cpu;
    _ ← mod_cpu cpu (upd_c_fs_base (fun _ => fs_base));
    _ ← mod_cpu cpu (upd_c_gs_base (fun _ => gs_base));
    mret 0.

(** [as_switch] to the address space of a process, or to the kernel's. *)
Definition as_switch (p : option Z) : M unit :=
  _ ← match p with
      | None => skip
      | Some p =>
          P ← get_proc p;
          asserts (bool_decide (is_Some (p_as P))) "paging: switching to invalid address_space"
      end;
  cpu ← this_cpu;
  mod_cpu cpu (upd_c_current_as (fun _ => p)).

Definition arch_thread_install (t : Z) : M unit :=
  T ← get_thread t;
  P ← get_proc (t_proc T);
  cpu ← this_cpu;
  c ← get_cpu cpu;
  if bool_decide (is_Some (p_as P)) && bool_decide (c_current_as c = Some (t_proc T)) then skip
  else as_switch (Some (t_proc T)).

Definition thread_current : M (option Z) := cpu ← this_cpu; c ← get_cpu cpu; mret (c_current_thread c).

Definition thread_unblock_claimed (t : Z) : M unit :=
  T ← get_thread t;
  if t_on_cpu T then die HSpin
  else
    _ ← asserts (bool_decide (t_status T = THREAD_BLOCKED)) "thread_unblock_claimed: not blocked";
    _ ← asserts (bool_decide (t_wake_state T = FUTEX_CLAIMED)) "thread_unblock_claimed: not claimed";
    _ ← mod_thread t (upd_t_status (fun _ => THREAD_RUNNABLE));
    _ ← mod_thread t (upd_t_wake_state (fun _ => FUTEX_IDLE));
    scheduler_enqueue t.

Definition thread_deliver_wait_result (t v : Z) : M unit := mod_thread t (arch_uthread_set_result v).

(** ** Deadlines *)

Definition TIMER_IRQ_BATCH : Z := 64.

Definition timer_now_ns : M Z := gets k_clock.

(** The earliest entry of a deadline tree. *)
Definition first_deadline (d : gmap (Z * Z) Z) : option (Z * Z) := option_map fst (lower_bound d (0, 0)).

Definition program_local_locked (cpu now : Z) : M unit :=
  c ← get_cpu cpu;
  let deadline := c_quantum_deadline_ns c in
  let deadline :=
    match first_deadline (c_deadlines c) with
    | Some first => if (deadline =? 0) || (first.1 <? deadline) then first.1 else deadline
    | None => deadline
    end in
  if deadline =? 0 then emit EvLapicStop
  else
    let delta := if now <? deadline then deadline - now else 0 in
    let us := delta / 1000 + Z.b2z (negb (delta mod 1000 =? 0)) in
    emit (EvLapicArm (if us =? 0 then 1 else us)).

Definition timer_cpu_dispatch (quantum_ns : Z) : M unit :=
  cpu ← this_cpu;
  _ ← lock (LTimer cpu);
  now ← timer_now_ns;
  _ ← mod_cpu cpu (upd_c_quantum_deadline_ns (fun _ =>
        if UINT64_MAX - now <? quantum_ns then UINT64_MAX else now + quantum_ns));
  _ ← program_local_locked cpu now;
  unlock (LTimer cpu).

Definition timer_cpu_idle : M unit :=
  cpu ← this_cpu;
  _ ← lock (LTimer cpu);
  _ ← mod_cpu cpu (upd_c_quantum_deadline_ns (fun _ => 0));
  now ← timer_now_ns;
  _ ← program_local_locked cpu now;
  unlock (LTimer cpu).

Definition timer_deadline_arm (t deadline_ns : Z) : M bool :=
  cpu ← this_cpu;
  _ ← lock (LTimer cpu);
  T ← get_thread t;
  c ← get_cpu cpu;
  let key := (deadline_ns, t_tid T) in
  ok ← try_alloc;
  if negb ok || bool_decide (is_Some (c_deadlines c !! key)) then
    _ ← unlock (LTimer cpu); mret false
  else
    _ ← mod_cpu cpu (upd_c_deadlines (insert key t));
    _ ← mod_thread t (upd_t_deadline (fun _ => deadline_ns));
    _ ← mod_thread t (upd_t_deadline_cpu (fun _ => u32 cpu));
    c ← get_cpu cpu;
    _ ← when (bool_decide (first_deadline (c_deadlines c) = Some key) &&
              ((c_quantum_deadline_ns c =? 0) || (deadline_ns <? c_quantum_deadline_ns c)))
          (now ← timer_now_ns; program_local_locked cpu now);
    _ ← unlock (LTimer cpu);
    mret true.

Definition timer_deadline_cancel (t : Z) : M unit :=
  T ← get_thread t;
  if t_deadline T =? 0 then skip
  else
    let cpu := t_deadline_cpu T in
    _ ← lock (LTimer cpu);
    _ ← mod_cpu cpu (upd_c_deadlines (delete (t_deadline T, t_tid T)));
    _ ← unlock (LTimer cpu);
    mod_thread t (upd_t_deadline (fun _ => 0)).

(** ** The futex table *)

Definition FUTEX_NBUCKETS_LOG2 : Z := 10.
Definition FUTEX_WAKE_BATCH : Z := 16.

Definition bucket_index (key : list Z) (addr : Z) : Z :=
  Z.shiftr (siphash (le_encode 8 (addr / 4)) key) (64 - FUTEX_NBUCKETS_LOG2).

Definition bucket_of (addr : Z) : M Z := gets (fun s => bucket_index (k_futex_key s) addr).

Definition waiters (s : kstate) (i : Z) : gmap (Z * Z) Z := default ∅ (k_futex s !! i).

Definition set_waiters (i : Z) (f : gmap (Z * Z) Z -> gmap (Z * Z) Z) : M unit :=
  modify (fun s => upd_k_futex (insert i (f (waiters s i))) s).

(** [llrb_futex_remove(...) && removed == t], under an [asserts]. *)
Definition futex_remove (i : Z) (key : Z * Z) (t : Z) (msg : string) : M unit :=
  w ← gets (fun s => waiters s i);
  _ ← asserts (bool_decide (w !! key = Some t)) msg;
  set_waiters i (delete key).

Definition futex_try_claim (t : Z) : M bool :=
  T ← get_thread t;
  match t_wake_state T with
  | FUTEX_MOVING => die HSpin
  | FUTEX_PARKED => _ ← mod_thread t (upd_t_wake_state (fun _ => FUTEX_CLAIMED)); mret true
  | _ => mret false
  end.

Definition finish_claimed (t result : Z) : M unit :=
  _ ← timer_deadline_cancel t;
  T ← get_thread t;
  dead ← process_is_dead (t_proc T);
  if (dead : bool) then mod_thread t (upd_t_wake_state (fun _ => FUTEX_REAPABLE))
  else
    _ ← thread_deliver_wait_result t result;
    thread_unblock_claimed t.

Fixpoint detach_loop (fuel : nat) (bk addr : Z) (cap : nat) (next_seq : Z) (batch : list Z) : M (list Z) :=
  if (cap <=? length batch)%nat then mret batch
  else
    match fuel with
    | O => die HSpin
    | S fuel =>
        w ← gets (fun s => waiters s bk);
        match lower_bound w (addr, next_seq) with
        | None => mret batch
        | Some (key, t) =>
            if negb (key.1 =? addr) then mret batch
            else
              let next_seq := u64 (key.2 + 1) in
              T ← get_thread t;
              if bool_decide (t_wake_state T = FUTEX_PARKED) then
                _ ← mod_thread t (upd_t_wake_state (fun _ => FUTEX_CLAIMED));
                _ ← futex_remove bk key t "futex: bucket tree lost claimed waiter";
                detach_loop fuel bk addr cap next_seq (batch ++ [t])
              else detach_loop fuel bk addr cap next_seq batch
        end
    end.

Definition detach_batch_locked (bk addr : Z) (cap : nat) : M (list Z) :=
  n ← gets (fun s => size (waiters s bk));
  detach_loop (S n) bk addr cap 0 [].

Definition wake_batch (addr count : Z) : M Z :=
  let cap := Z.to_nat (Z.min count FUTEX_WAKE_BATCH) in
  bk ← bucket_of addr;
  _ ← lock (LBucket bk);
  batch ← detach_batch_locked bk addr cap;
  _ ← unlock (LBucket bk);
  _ ← iterM (fun t => finish_claimed t 0) batch;
  mret (Z.of_nat (length batch)).

Definition futex_wake_one (addr : Z) : M unit := _ ← wake_batch addr 1; skip.

Definition futex_publish_wake (addr value : Z) : M unit :=
  bk ← bucket_of addr;
  _ ← lock (LBucket bk);
  _ ← store32 addr value;
  batch ← detach_batch_locked bk addr 1;
  _ ← unlock (LBucket bk);
  iterM (fun t => finish_claimed t 0) batch.

Definition futex_expire_claimed (t : Z) : M unit :=
  T ← get_thread t;
  bk ← bucket_of (t_wait_key T).1;
  _ ← lock (LBucket bk);
  _ ← futex_remove bk (t_wait_key T) t "futex: bucket tree lost expired waiter";
  _ ← unlock (LBucket bk);
  finish_claimed t SYSERR_TIMEDOUT.

Definition futex_reap_claimed (t : Z) : M unit :=
  T ← get_thread t;
  bk ← bucket_of (t_wait_key T).1;
  _ ← lock (LBucket bk);
  _ ← futex_remove bk (t_wait_key T) t "futex: bucket tree lost reaped waiter";
  _ ← unlock (LBucket bk);
  timer_deadline_cancel t.

(** The claim loop of [timer_cpu_interrupt]. *)
Fixpoint expire_loop (fuel : nat) (cpu now : Z) (seek : Z * Z) (expired : list Z) : M (list Z) :=
  if TIMER_IRQ_BATCH <=? Z.of_nat (length expired) then mret expired
  else
    match fuel with
    | O => die HSpin
    | S fuel =>
        c ← get_cpu cpu;
        match lower_bound (c_deadlines c) seek with
        | None => mret expired
        | Some (key, t) =>
            if now <? key.1 then mret expired
            else
              let seek := (key.1, u64 (key.2 + 1)) in
              won ← futex_try_claim t;
              if (won : bool) then
                c ← get_cpu cpu;
                _ ← asserts (bool_decide (c_deadlines c !! key = Some t))
                      "timer: deadline tree lost expiring entry";
                _ ← mod_cpu cpu (upd_c_deadlines (delete key));
                _ ← mod_thread t (upd_t_deadline (fun _ => 0));
                expire_loop fuel cpu now seek (expired ++ [t])
              else expire_loop fuel cpu now seek expired
        end
    end.

Definition timer_cpu_interrupt : M bool :=
  cpu ← this_cpu;
  _ ← lock (LTimer cpu);
  now ← timer_now_ns;
  c ← get_cpu cpu;
  expired ← expire_loop (S (size (c_deadlines c))) cpu now (0, 0) [];
  c ← get_cpu cpu;
  let quantum_expired := negb (c_quantum_deadline_ns c =? 0) && (c_quantum_deadline_ns c <=? now) in
  _ ← when quantum_expired (mod_cpu cpu (upd_c_quantum_deadline_ns (fun _ => 0)));
  _ ← program_local_locked cpu now;
  _ ← unlock (LTimer cpu);
  _ ← iterM futex_expire_claimed expired;
  mret quantum_expired.

End Sched.
