(* ===== verification/Index.v ===== *)
(** * Registry, ordered-index helpers and user-range validation

    The lookups the rest of the control plane is written with: the pid registry,
    the block and view indices and the pending-edge queue of [umem.c] (lines 46 to
    120), [user_range_ok] of [uaccess.c] and [process_reaper_authorized_locked] of
    [process.c].  A null result is [None]. *)

From S2P Require Import Prelude Buddy Paging Siphash PlatformMem Machine Sched.

Section Index.
Context {PT : PageTree}.

(** ** The pid registry *)

Definition proc_lookup_any (pid : Z) : M (option Z) := gets (fun s => k_g_procs s !! pid).

Definition proc_lookup (pid : Z) : M (option Z) :=
  p ← proc_lookup_any pid;
  match p with
  | None => mret None
  | Some p => dead ← process_is_dead p; mret (if (dead : bool) then None else Some p)
  end.

(** ** Blocks and views *)

Definition umem_owned_locked (p base : Z) : M (option Z) :=
  P ← get_proc p; mret (p_blocks P !! base).

Definition umem_view_locked (p addr len : Z) : M (option Z) :=
  match (if len =? 0 then None else add_overflow64 addr len) with
  | None => mret None
  | Some stop =>
      P ← get_proc p;
      owned ← match floor (p_blocks P) addr with
              | None => mret None
              | Some (_, b) =>
                  B ← get_block b;
                  if stop <=? u64 (b_base B + b_bytes B) then
                    _ ← asserts (bool_decide (p_blocks P !! b_base B = Some b)) "umem: floor block disappeared";
                    mret (Some b)
                  else mret None
              end;
      match owned with
      | Some b => mret (Some b)
      | None =>
          match floor (p_views P) addr with
          | None => mret None
          | Some (_, e) =>
              E ← get_edge e;
              B ← get_block (e_block E);
              mret (if stop <=? u64 (b_base B + b_bytes B) then Some (e_block E) else None)
          end
      end
  end.

(** ** The queue of un-notified edges *)

Definition pending_link (e : Z) : M unit :=
  E ← get_edge e;
  let p := e_to E in
  _ ← asserts (negb (e_notified E) && bool_decide (e_pending_prev E = None) &&
               bool_decide (e_pending_next E = None)) "umem: pending edge linked twice";
  P ← get_proc p;
  _ ← mod_edge e (upd_e_pending_prev (fun _ => p_unnotified_tail P));
  _ ← match p_unnotified_tail P with
      | Some t => mod_edge t (upd_e_pending_next (fun _ => Some e))
      | None => mod_proc p (upd_p_unnotified_head (fun _ => Some e))
      end;
  mod_proc p (upd_p_unnotified_tail (fun _ => Some e)).

Definition umem_edge_pending_unlink_locked (e : Z) : M unit :=
  E ← get_edge e;
  if e_notified E then skip
  else
    let p := e_to E in
    _ ← match e_pending_prev E with
        | Some q => mod_edge q (upd_e_pending_next (fun _ => e_pending_next E))
        | None => mod_proc p (upd_p_unnotified_head (fun _ => e_pending_next E))
        end;
    _ ← match e_pending_next E with
        | Some q => mod_edge q (upd_e_pending_prev (fun _ => e_pending_prev E))
        | None => mod_proc p (upd_p_unnotified_tail (fun _ => e_pending_prev E))
        end;
    mod_edge e (fun E => upd_e_pending_next (fun _ => None) (upd_e_pending_prev (fun _ => None) E)).

(** ** Validation of user pointers *)

(** The loop over the pages below [stop]. *)
Fixpoint range_loop (fuel : nat) (t : ptree) (page stop : Z) (need_write : bool) : option bool :=
  if stop <=? page then Some true
  else
    match fuel with
    | O => None
    | S fuel =>
        let flags := pt_info t page in
        if (flags =? 0) || negb (has flags PAGE_U) || negb (has flags PAGE_R) then Some false
        else if need_write && negb (has flags PAGE_W) then Some false
        else range_loop fuel t (u64 (page + PAGE_SIZE)) stop need_write
    end.

Definition user_range_ok (p addr len : Z) (need_write : bool) : M bool :=
  if len =? 0 then mret true
  else
    match add_overflow64 addr len with
    | None => mret false
    | Some stop =>
        a ← get_as p;
        match range_loop (Z.to_nat (len / PAGE_SIZE + 2)) (a_tree a) (align_down addr) stop need_write with
        | Some ok => mret ok
        | None => die HSpin
        end
    end.

(** ** Reaper authority *)

Fixpoint reaper_walk (fuel : nat) (caller : Z) (at_ : option Z) : M bool :=
  match at_ with
  | None => mret false
  | Some at_ =>
      if at_ =? caller then mret false
      else
        match fuel with
        | O => die HSpin
        | S fuel =>
            dead ← process_is_dead at_;
            if negb dead then mret false
            else
              P ← get_proc at_;
              if bool_decide (p_parent P = Some caller) then mret true
              else reaper_walk fuel caller (p_parent P)
        end
  end.

Definition process_reaper_authorized_locked (caller target : Z) : M bool :=
  if caller =? target then mret false
  else
    dead ← process_is_dead target;
    if negb dead then mret false else reaper_walk (Z.to_nat target) caller (Some target).

End Index.
