(* ===== verification/Channel.v ===== *)
(** * Kernel channels

    [channel.c], [channel_internal.h], [schemes/shares.c] and [schemes/tree.c]: the
    rings that carry commands to the kernel and completions and events back.  The
    ring block is user memory: the submission and completion entries live in
    [k_mem] at the offsets of [kring.h], and only the indices of the [ring] record
    are trusted.

    The scheme table is the interface [Schemes], one [scheme_ops] per scheme as in
    the source; the two pure event schemes are defined here, the others are
    supplied by their own files. *)

From S2P Require Import Prelude Buddy Paging Siphash PlatformMem Machine Sched Index.

Section Ring.
Context {PT : PageTree}.

(** ** Layout ([kring.h]) *)

Definition KRING_HDR_SIZE : Z := 64.
Definition KRING_NSLOTS (order : Z) : Z := u32 (Z.shiftl 32 order).
Definition KRING_CQ_COUNT_OFF : Z := 0.
Definition KRING_CQ_HEAD_OFF : Z := 4.
Definition KRING_SQ_HEAD_OFF : Z := 8.
Definition KRING_SQ_TAIL_OFF : Z := 12.
Definition KRING_NSLOTS_OFF : Z := 16.
Definition SIZEOF_KSQE : Z := 32.
Definition SIZEOF_KCQE : Z := 32.

Definition KEV_EVENT_BIT : Z := Z.shiftl 1 63.
Definition KEV (n : Z) : Z := Z.lor KEV_EVENT_BIT n.
Definition KEV_SHARE : Z := KEV 1.
Definition KEV_CHILD_DEAD : Z := KEV 2.

Definition KSCHEME_SHARES : Z := -1.
Definition KSCHEME_TREE : Z := -3.

Record ksqe := Ksqe { sqe_op : Z; sqe_a : Z; sqe_b : Z; sqe_c : Z }.

Definition decode_sqe (bs : list Z) : ksqe :=
  Ksqe (le_decode (take 8 bs)) (le_decode (take 8 (drop 8 bs)))
       (le_decode (take 8 (drop 16 bs))) (le_decode (take 8 (drop 24 bs))).

Definition encode_cqe (type a b status : Z) : list Z :=
  le_encode 8 type ++ le_encode 8 a ++ le_encode 8 b ++ le_encode 8 status.

Definition sq_of (base : Z) : Z := base + KRING_HDR_SIZE.
Definition cq_of (base nslots : Z) : Z := base + KRING_HDR_SIZE + nslots * SIZEOF_KSQE.

(** ** Posting *)

Definition ring_post_locked (r type a b status : Z) : M bool :=
  R ← get_ring r;
  B ← get_block (r_block R);
  let h := b_base B in
  consumed ← load32 (h + KRING_CQ_HEAD_OFF);
  if r_nslots R <=? u32 (r_cq_count R - consumed) then mret false
  else
    _ ← store_bytes (cq_of h (r_nslots R) + r_cq_count R mod r_nslots R * SIZEOF_KCQE)
          (encode_cqe type a b status);
    let count := u32 (r_cq_count R + 1) in
    _ ← mod_ring r (upd_r_cq_count (fun _ => count));
    _ ← store32 (h + KRING_CQ_COUNT_OFF) count;
    _ ← futex_wake_one (h + KRING_CQ_COUNT_OFF);
    mret true.

Definition channel_post (r type a b status : Z) : M bool :=
  _ ← lock (LCq r);
  posted ← ring_post_locked r type a b status;
  _ ← unlock (LCq r);
  mret posted.

(** [Some index] when posted. *)
Definition channel_post_data (r type a b status : Z) : M (option Z) :=
  _ ← lock (LCq r);
  posted ← ring_post_locked r type a b status;
  R ← get_ring r;
  _ ← unlock (LCq r);
  mret (if (posted : bool) then Some (u32 (r_cq_count R - 1)) else None).

Definition cqe_consumed (r ev_index : Z) : M bool :=
  R ← get_ring r;
  B ← get_block (r_block R);
  consumed ← load32 (b_base B + KRING_CQ_HEAD_OFF);
  mret (0 <? i32 (consumed - ev_index)).

(** ** Scheme -1: shares *)

Definition share_word (B : ublock) : Z := Z.lor (b_base B) (b_order B).

(** The fuel counts the edges that can be pending: their references are below
    [k_next_ref]. *)
Fixpoint shares_loop (fuel : nat) (r p : Z) : M unit :=
  P ← get_proc p;
  match p_unnotified_head P with
  | None => skip
  | Some e =>
      match fuel with
      | O => die HSpin
      | S fuel =>
          E ← get_edge e;
          B ← get_block (e_block E);
          O ← get_proc (b_owner B);
          posted ← channel_post r KEV_SHARE (p_pid O) (share_word B) 0;
          if (posted : bool) then
            _ ← umem_edge_pending_unlink_locked e;
            _ ← mod_edge e (upd_e_notified (fun _ => true));
            shares_loop fuel r p
          else skip
      end
  end.

Definition shares_replay (r : Z) : M unit :=
  R ← get_ring r;
  B ← get_block (r_block R);
  let p := b_owner B in
  _ ← umem_proc_lock p;
  n ← gets (fun s => Z.to_nat (k_next_ref s));
  _ ← shares_loop n r p;
  umem_proc_unlock p.

Definition channel_edge_notify (b e : Z) : M unit :=
  E ← get_edge e;
  T ← get_proc (e_to E);
  match p_share_ch T with
  | None => skip
  | Some r =>
      B ← get_block b;
      O ← get_proc (b_owner B);
      posted ← channel_post r KEV_SHARE (p_pid O) (share_word B) 0;
      when posted (
        _ ← umem_edge_pending_unlink_locked e;
        mod_edge e (upd_e_notified (fun _ => true)))
  end.

(** ** Scheme -3: tree *)

Fixpoint tree_loop (r : Z) (children : list Z) : M unit :=
  match children with
  | [] => skip
  | c :: children =>
      C ← get_proc c;
      if p_dead C && negb (p_death_notified C) then
        posted ← channel_post r KEV_CHILD_DEAD (p_pid C) (p_exit_status C) 0;
        if (posted : bool) then
          _ ← mod_proc c (upd_p_death_notified (fun _ => true));
          tree_loop r children
        else skip
      else tree_loop r children
  end.

(** The values of an index in key order. *)
Definition values {A} (m : gmap Z A) : list A := omap (fun k => m !! k) (keys m).

Definition tree_replay (r : Z) : M unit :=
  R ← get_ring r;
  B ← get_block (r_block R);
  P ← get_proc (b_owner B);
  tree_loop r (values (p_children P)).

Definition channel_child_dead_notify (parent child : Z) : M unit :=
  P ← get_proc parent;
  match p_tree_ch P with
  | None => skip
  | Some r =>
      C ← get_proc child;
      posted ← channel_post r KEV_CHILD_DEAD (p_pid C) (p_exit_status C) 0;
      when posted (mod_proc child (upd_p_death_notified (fun _ => true)))
  end.

(** ** Schemes *)

(** The owner slot of a one-per-process scheme. *)
Inductive anchor :=
  | share_ch
  | tree_ch
  | iommu_ch.

Definition anchor_get (a : anchor) (P : process) : option Z :=
  match a with share_ch => p_share_ch P | tree_ch => p_tree_ch P | iommu_ch => p_iommu_ch P end.

Definition anchor_set (a : anchor) (r : option Z) (P : process) : process :=
  match a with
  | share_ch => upd_p_share_ch (fun _ => r) P
  | tree_ch => upd_p_tree_ch (fun _ => r) P
  | iommu_ch => upd_p_iommu_ch (fun _ => r) P
  end.

(** A null callback is [None].  [so_exec] takes the calling thread, the ring and the
    submission entry, and returns the status and the entry as it leaves it. *)
Record scheme_ops := SchemeOps {
  so_id : Z;
  so_init : option (Z -> M Z);
  so_exec : option (Z -> Z -> ksqe -> M (Z * ksqe));
  so_replay : option (Z -> M unit);
  so_destroy : option (Z -> M unit);
  so_anchor : option anchor;
  so_destroyable : option (Z -> M bool) }.

Definition shares_ops : scheme_ops :=
  SchemeOps KSCHEME_SHARES None None (Some shares_replay) None (Some share_ch) None.

Definition tree_ops : scheme_ops :=
  SchemeOps KSCHEME_TREE None None (Some tree_replay) None (Some tree_ch) None.

End Ring.

(** The table [g_schemes]. *)
Class Schemes {PT : PageTree} := g_schemes : list scheme_ops.

Section Channel.
Context {PT : PageTree} {SC : Schemes}.

Definition scheme_lookup (id : Z) : option scheme_ops :=
  List.find (fun ops => so_id ops =? id) g_schemes.

(** [ring->ops]. *)
Definition ring_ops (r : Z) : M scheme_ops := R ← get_ring r; deref (scheme_lookup (r_ops R)).

Definition scheme_exec (curr r : Z) (sqe : ksqe) : M (Z * ksqe) :=
  ops ← ring_ops r;
  match so_exec ops with
  | None => mret (SYSERR_NOSYS, sqe)
  | Some exec => exec curr r sqe
  end.

Definition RING_SQ_BATCH : Z := 1024.
Definition RING_SQ_CHUNK : Z := 64.

Fixpoint chunk_loop (budget : nat) (curr r h tail done : Z) : M Z :=
  match budget with
  | O => mret done
  | S budget =>
      R ← get_ring r;
      if r_sq_head R =? tail then mret done
      else
        bs ← load_bytes (sq_of h + r_sq_head R mod r_nslots R * SIZEOF_KSQE) 32;
        let head := u32 (r_sq_head R + 1) in
        _ ← mod_ring r (upd_r_sq_head (fun _ => head));
        _ ← store32 (h + KRING_SQ_HEAD_OFF) head;
        '(status, sqe) ← scheme_exec curr r (decode_sqe bs);
        _ ← channel_post r (sqe_op sqe) (sqe_a sqe) (sqe_b sqe) status;
        chunk_loop budget curr r h tail (done + 1)
  end.

Definition ring_run_chunk (curr r budget : Z) : M Z :=
  R ← get_ring r;
  B ← get_block (r_block R);
  let h := b_base B in
  tail ← load32 (h + KRING_SQ_TAIL_OFF);
  if r_nslots R <? u32 (tail - r_sq_head R) then mret 0
  else chunk_loop (Z.to_nat budget) curr r h tail 0.

Definition ring_replay (r : Z) : M unit :=
  ops ← ring_ops r;
  match so_replay ops with None => skip | Some replay => replay r end.

(** One round of the drain loop handles a chunk; [RING_SQ_BATCH / RING_SQ_CHUNK]
    full chunks exhaust the budget. *)
Fixpoint drain_loop (fuel : nat) (curr p address budget : Z) (first : bool) : M Z :=
  match fuel with
  | O => die HSpin
  | S fuel =>
      _ ← umem_lock;
      _ ← umem_proc_lock p;
      b ← umem_view_locked p address 1;
      _ ← umem_proc_unlock p;
      ring ← match b with
             | None => mret None
             | Some b =>
                 B ← get_block b;
                 mret (if b_owner B =? p then b_ring B else None)
             end;
      match ring with
      | None => _ ← umem_unlock; mret (if first then SYSERR_INVAL else 0)
      | Some r =>
          let chunk := if budget <? RING_SQ_CHUNK then budget else RING_SQ_CHUNK in
          done ← ring_run_chunk curr r chunk;
          _ ← ring_replay r;
          _ ← umem_unlock;
          if (done <? chunk) || (budget - done =? 0) then mret 0
          else drain_loop fuel curr p address (budget - done) false
      end
  end.

Definition channel_ring_drain (curr address : Z) : M Z :=
  T ← get_thread curr;
  drain_loop (Z.to_nat (RING_SQ_BATCH / RING_SQ_CHUNK)) curr (t_proc T) address RING_SQ_BATCH true.

(** ** Establishment and teardown *)

Definition channel_scheme_create (p base scheme : Z) : M Z :=
  _ ← umem_lock;
  _ ← umem_proc_lock p;
  ob ← umem_owned_locked p base;
  ok ← match ob with
       | None => mret None
       | Some b =>
           B ← get_block b;
           mret (if bool_decide (b_backing B = UBLOCK_RAM) && bool_decide (b_ring B = None) &&
                    (b_thread_pins B =? 0) && (size (b_sharers B) =? 0)%nat
                 then Some b else None)
       end;
  match ok with
  | None => _ ← umem_proc_unlock p; _ ← umem_unlock; mret SYSERR_INVAL
  | Some b =>
      match scheme_lookup scheme with
      | None => _ ← umem_proc_unlock p; _ ← umem_unlock; mret SYSERR_INVAL
      | Some ops =>
          P ← get_proc p;
          if match so_anchor ops with Some a => bool_decide (is_Some (anchor_get a P)) | None => false end
          then _ ← umem_proc_unlock p; _ ← umem_unlock; mret SYSERR_EXIST
          else
            _ ← must_alloc;
            r ← new_ref;
            B ← get_block b;
            let nslots := KRING_NSLOTS (b_order B) in
            _ ← modify (upd_k_rings (insert r (Ring (so_id ops) b nslots 0 0 None 0)));
            init_status ← match so_init ops with None => mret 0 | Some init => init r end;
            if negb (init_status =? 0) then
              _ ← modify (upd_k_rings (delete r));
              _ ← umem_proc_unlock p; _ ← umem_unlock; mret init_status
            else
              let h := b_base B in
              _ ← memset0 h KRING_HDR_SIZE;
              _ ← store32 (h + KRING_NSLOTS_OFF) nslots;
              _ ← mod_block b (upd_b_ring (fun _ => Some r));
              _ ← umem_proc_unlock p;
              _ ← match so_anchor ops with None => skip | Some a => mod_proc p (anchor_set a (Some r)) end;
              _ ← match so_replay ops with None => skip | Some replay => replay r end;
              _ ← umem_unlock;
              mret 0
      end
  end.

Definition channel_ring_destroy (b : Z) : M unit :=
  B ← get_block b;
  _ ← mod_block b (upd_b_ring (fun _ => None));
  match b_ring B with
  | None => skip
  | Some r =>
      ops ← ring_ops r;
      _ ← match so_anchor ops with
          | None => skip
          | Some a =>
              O ← get_proc (b_owner B);
              _ ← asserts (bool_decide (anchor_get a O = Some r)) "channel: scheme anchor mismatch";
              mod_proc (b_owner B) (anchor_set a None)
          end;
      _ ← match so_destroy ops with None => skip | Some destroy => destroy r end;
      _ ← lock (LCq r);
      _ ← unlock (LCq r);
      modify (upd_k_rings (delete r))
  end.

Definition channel_block_destroyable (b : Z) : M bool :=
  B ← get_block b;
  match b_ring B with
  | None => mret true
  | Some r =>
      ops ← ring_ops r;
      match so_destroyable ops with None => mret true | Some f => f r end
  end.

Definition GDOS_THREAD_PENDING : Z := 0.
Definition GDOS_THREAD_COMPLETE : Z := 1.

Definition channel_thread_complete_locked (p block event : Z) (publish : bool) : M unit :=
  B ← get_block block;
  _ ← asserts (b_owner B =? p) "thread completion: bad block";
  _ ← asserts (negb (b_thread_pins B =? 0)) "thread completion: unpinned block";
  _ ← when publish (futex_publish_wake event GDOS_THREAD_COMPLETE);
  mod_block block (upd_b_thread_pins (fun n => u32 (n - 1))).

End Channel.
