(* ===== verification/Umem.v ===== *)
(** * User memory blocks

    [umem.c]: allocation, release, protection, sharing, transfer and enumeration of
    the blocks processes own.  Each function is the whole C function, its lock
    operations, early returns and assertions included; a [struct umem_release] is
    the record [umem_release]. *)

From S2P Require Import Prelude Buddy Paging Siphash PlatformMem Machine Sched Index Channel.

Section Umem.
Context {PT : PageTree} {SC : Schemes}.

Definition VM_ENUM_BATCH : Z := 128.

(** [asserts(llrb_*_insert_node(...))]: the key must be free. *)
Definition insert_fresh {A} (m : gmap Z A) (k : Z) (msg : string) : M unit :=
  asserts (bool_decide (m !! k = None)) msg.

(** [asserts(llrb_*_remove(...) && removed == v)]. *)
Definition remove_exact (m : gmap Z Z) (k v : Z) (msg : string) : M unit :=
  asserts (bool_decide (m !! k = Some v)) msg.

(** ** Lifecycle *)

(** A null index is an empty one that [umem_init] has not made yet. *)
Definition umem_init : M unit :=
  _ ← must_alloc;
  _ ← must_alloc;
  _ ← modify (upd_k_g_procs (fun _ => ∅));
  modify (upd_k_g_ublocks (fun _ => ∅)).

(** The indices of a new process are empty trees already in [process]. *)
Definition umem_process_register (p : Z) : M unit :=
  _ ← must_alloc;
  _ ← must_alloc;
  _ ← umem_lock;
  _ ← must_alloc;
  P ← get_proc p;
  g ← gets k_g_procs;
  _ ← insert_fresh g (p_pid P) "umem: duplicate pid or pid node alloc failed";
  _ ← modify (upd_k_g_procs (insert (p_pid P) p));
  umem_unlock.

(** ** Allocation *)

Fixpoint order_loop (fuel : nat) (order npages : Z) : Z :=
  match fuel with
  | O => order
  | S fuel => if Z.shiftl 1 order <? npages then order_loop fuel (order + 1) npages else order
  end.

Definition buddy_alloc_locked (n : Z) : M (buddy_status_t + Z) :=
  _ ← lock LAllocator;
  ba ← gets k_pool;
  r ← deref (buddy_page_alloc ba n);
  _ ← modify (upd_k_pool (fun _ => r.1));
  _ ← unlock LAllocator;
  mret r.2.

Definition buddy_free_locked (page_id : Z) : M buddy_status_t :=
  _ ← lock LAllocator;
  ba ← gets k_pool;
  r ← deref (buddy_page_free ba page_id);
  _ ← modify (upd_k_pool (fun _ => r.1));
  _ ← unlock LAllocator;
  mret r.2.

(** [asserts(llrb_base_ublock_insert(g_ublocks, &b->base, &b), msg)]. *)
Definition block_publish (b base : Z) (msg : string) : M unit :=
  g ← gets k_g_ublocks;
  _ ← must_alloc;
  _ ← insert_fresh g base msg;
  modify (upd_k_g_ublocks (insert base b)).

Definition umem_alloc (p len prot : Z) : M Z :=
  if len =? 0 then mret 0
  else
    let npages := u64 (len + PAGE_SIZE - 1) / PAGE_SIZE in
    let order := order_loop 64 0 npages in
    let bytes := u64 (Z.shiftl PAGE_SIZE order) in
    s ← buddy_alloc_locked (u64 (Z.shiftl 1 order));
    match s with
    | inl _ => mret 0
    | inr page_id =>
        let base := u64 (page_id * PAGE_SIZE) in
        _ ← memset0 base bytes;
        let value := Ublock base order bytes UBLOCK_RAM 0 PAGE_KERNEL_PRISTINE true p ∅ None None 0 in
        sharers_ok ← try_alloc;
        if negb sharers_ok then _ ← buddy_free_locked page_id; mret 0
        else
          node_ok ← try_alloc;
          if negb node_ok then _ ← buddy_free_locked page_id; mret 0
          else
            _ ← as_flag p base (base + bytes) (Z.lor prot PAGE_U);
            _ ← as_flush p;
            _ ← umem_lock;
            _ ← umem_proc_lock p;
            P ← get_proc p;
            _ ← insert_fresh (p_blocks P) base "umem: owned block insertion failed";
            b ← new_ref;
            _ ← modify (upd_k_blocks (insert b value));
            _ ← mod_proc p (upd_p_blocks (insert base b));
            _ ← umem_proc_unlock p;
            _ ← block_publish b base "umem: block index insertion failed";
            _ ← umem_unlock;
            mret base
    end.

Definition umem_size (p base : Z) : M Z :=
  _ ← umem_proc_lock p;
  b ← umem_owned_locked p base;
  bytes ← match b with None => mret 0 | Some b => B ← get_block b; mret (b_bytes B) end;
  _ ← umem_proc_unlock p;
  mret bytes.

(** The scan for an overlapping device block. *)
Fixpoint device_overlap (bs : list Z) (base stop : Z) : M bool :=
  match bs with
  | [] => mret false
  | b :: bs =>
      B ← get_block b;
      if bool_decide (b_backing B = UBLOCK_DEVICE) && (base <? u64 (b_base B + b_bytes B)) && (b_base B <? stop)
      then mret true else device_overlap bs base stop
  end.

(** Flags the kernel alias in one process's tree. *)
Definition flag_alias (base stop kernel_flags q : Z) : M unit :=
  Q ← get_proc q;
  match p_as Q with
  | None => skip
  | Some _ => _ ← as_flag q base stop kernel_flags; as_flush q
  end.

Definition umem_map_device_locked (p base len flags : Z) : M Z :=
  pm ← gets k_platform;
  match platform_mem_validate_device pm base len flags with
  | None => mret SYSERR_INVAL
  | Some (kernel_flags, delegatable) =>
      let stop := u64 (base + len) in
      let device_flags := PAGE_R in
      let device_flags := if has flags VM_DEVICE_WRITE then Z.lor device_flags PAGE_W else device_flags in
      let device_flags := if has flags VM_DEVICE_FIRMWARE then device_flags else Z.lor device_flags PAGE_UC in
      g ← gets k_g_ublocks;
      other ← device_overlap (values g) base stop;
      if (other : bool) then mret SYSERR_EXIST
      else
        _ ← as_flag_kernel base stop kernel_flags;
        _ ← as_flush_kernel;
        procs ← gets k_g_procs;
        _ ← iterM (flag_alias base stop kernel_flags) (values procs);
        let value := Ublock base 0 len UBLOCK_DEVICE device_flags kernel_flags delegatable p ∅ None None 0 in
        sharers_ok ← try_alloc;
        if negb sharers_ok then mret SYSERR_NOMEM
        else
          node_ok ← try_alloc;
          if negb node_ok then mret SYSERR_NOMEM
          else
            _ ← as_flag p base stop (Z.lor device_flags PAGE_U);
            _ ← as_flush p;
            _ ← umem_proc_lock p;
            P ← get_proc p;
            if bool_decide (is_Some (p_blocks P !! base)) then
              _ ← umem_proc_unlock p;
              _ ← as_flag p base stop kernel_flags;
              _ ← as_flush p;
              mret SYSERR_NOMEM
            else
              b ← new_ref;
              _ ← modify (upd_k_blocks (insert b value));
              _ ← mod_proc p (upd_p_blocks (insert base b));
              _ ← umem_proc_unlock p;
              _ ← block_publish b base "umem: device block index insertion failed";
              mret 0
  end.

Definition umem_map_device (p base len flags : Z) : M Z :=
  _ ← umem_lock;
  rc ← umem_map_device_locked p base len flags;
  _ ← umem_unlock;
  mret rc.

(** ** Release *)

(** The block and the processes whose address spaces are pinned for the flush. *)
Record umem_release := Release { rel_b : option Z; rel_ases : list Z }.

Definition block_release_prepare (b : Z) : M umem_release :=
  B ← get_block b;
  let stop := u64 (b_base B + b_bytes B) in
  _ ← asserts (size (b_sharers B) =? 0)%nat "umem: release with sharers";
  _ ← channel_ring_destroy b;
  _ ← must_alloc;
  _ ← as_flag (b_owner B) (b_base B) stop (b_kernel_flags B);
  _ ← as_pin (b_owner B);
  mret (Release (Some b) [b_owner B]).

Definition umem_release_finish (rel : umem_release) : M unit :=
  match rel_b rel with
  | None => skip
  | Some b =>
      _ ← iterM as_flush (rel_ases rel);
      _ ← iterM as_unpin (rel_ases rel);
      B ← get_block b;
      _ ← when (bool_decide (b_backing B = UBLOCK_RAM)) (
            s ← buddy_free_locked (b_base B / PAGE_SIZE);
            asserts (bool_decide (s = BUDDY_STATUS_SUCCESS)) "umem: buddy rejected block free");
      modify (upd_k_blocks (delete b))
  end.

(** 0, -1 (no such block) or -5, the [int] of [SYSERR_EXIST]. *)
Definition free_locked (p base : Z) : M (Z * umem_release) :=
  _ ← umem_proc_lock p;
  P ← get_proc p;
  match p_blocks P !! base with
  | None => _ ← umem_proc_unlock p; mret (-1, Release None [])
  | Some b =>
      B ← get_block b;
      destroyable ← (if bool_decide (is_Some (b_dma_maps B)) || negb (b_thread_pins B =? 0) ||
                        negb (size (b_sharers B) =? 0)%nat
                     then mret false else channel_block_destroyable b);
      if negb destroyable then _ ← umem_proc_unlock p; mret (-5, Release None [])
      else
        _ ← mod_proc p (upd_p_blocks (delete base));
        _ ← umem_proc_unlock p;
        g ← gets k_g_ublocks;
        _ ← remove_exact g (b_base B) b "umem: block index removal failed";
        _ ← modify (upd_k_g_ublocks (delete (b_base B)));
        rel ← block_release_prepare b;
        mret (0, rel)
  end.

Definition find_owned_global_locked (base : Z) : M (option Z) := gets (fun s => k_g_ublocks s !! base).

Definition resource_authorized (caller owner : Z) : M bool :=
  if caller =? owner then mret true else process_reaper_authorized_locked caller owner.

(** The block at [base] when the caller has authority over its owner. *)
Definition umem_resource_block_locked (caller base : Z) : M (option Z) :=
  b ← find_owned_global_locked base;
  match b with
  | None => mret None
  | Some b =>
      B ← get_block b;
      ok ← resource_authorized caller (b_owner B);
      mret (if (ok : bool) then Some b else None)
  end.

Definition umem_free (caller base : Z) : M Z :=
  _ ← umem_lock;
  ob ← umem_resource_block_locked caller base;
  match ob with
  | None => _ ← umem_unlock; mret SYSERR_PERM
  | Some b =>
      B ← get_block b;
      '(rc, rel) ← free_locked (b_owner B) base;
      _ ← umem_unlock;
      _ ← umem_release_finish rel;
      mret (if rc =? 0 then 0 else if rc =? -5 then SYSERR_EXIST else SYSERR_PERM)
  end.

(** ** Protection and sharing *)

(** A device block's views may not exceed its maximum rights or be executable. *)
Definition device_refuses (B : ublock) (prot : Z) : bool :=
  bool_decide (b_backing B = UBLOCK_DEVICE) &&
  (nz (Z.ldiff prot (b_device_flags B)) || has prot PAGE_X).

Definition with_cache_type (B : ublock) (flags : Z) : Z :=
  if bool_decide (b_backing B = UBLOCK_DEVICE) then Z.lor flags (Z.land (b_device_flags B) PAGE_CACHE_MASK)
  else flags.

Definition umem_protect (p base len prot : Z) : M Z :=
  if negb (base mod PAGE_SIZE =? 0) || (len =? 0) || negb (len mod PAGE_SIZE =? 0) then mret (-1)
  else
    match add_overflow64 base len with
    | None => mret (-1)
    | Some stop =>
        _ ← umem_proc_lock p;
        ob ← umem_view_locked p base len;
        oB ← match ob with
             | None => mret None
             | Some b =>
                 B ← get_block b;
                 mret (if negb (b_thread_pins B =? 0) || bool_decide (is_Some (b_ring B)) || device_refuses B prot
                       then None else Some B)
             end;
        match oB with
        | None => _ ← umem_proc_unlock p; mret (-1)
        | Some B =>
            let view := with_cache_type B (if prot =? 0 then 0 else Z.lor prot PAGE_U) in
            _ ← as_flag p base stop view;
            _ ← as_flush p;
            _ ← umem_proc_unlock p;
            mret 0
        end
    end.

(** The checks of [umem_share] on the block and the target, both found. *)
Definition share_refused (p : Z) (B : ublock) (target prot : Z) : bool :=
  (target =? p) || bool_decide (is_Some (b_ring B)) || negb (b_thread_pins B =? 0) ||
  negb (b_delegatable B) || device_refuses B prot.

Definition umem_share (p base target_pid prot : Z) : M Z :=
  edge_ok ← try_alloc;
  view_ok ← try_alloc;
  if negb edge_ok || negb view_ok then mret SYSERR_NOMEM
  else
    _ ← umem_lock;
    _ ← umem_proc_lock p;
    ob ← umem_owned_locked p base;
    ot ← proc_lookup target_pid;
    match ob, ot with
    | Some b, Some target =>
        B ← get_block b;
        if share_refused p B target prot then
          _ ← umem_proc_unlock p; _ ← umem_unlock; mret SYSERR_INVAL
        else
          T ← get_proc target;
          if bool_decide (is_Some (b_sharers B !! p_pid T)) then
            _ ← umem_proc_unlock p; _ ← umem_unlock; mret SYSERR_EXIST
          else
            e ← new_ref;
            _ ← modify (upd_k_edges (insert e (ShareEdge b target None None false)));
            _ ← mod_block b (upd_b_sharers (insert (p_pid T) e));
            _ ← pending_link e;
            _ ← umem_proc_unlock p;
            _ ← umem_proc_lock target;
            T ← get_proc target;
            _ ← insert_fresh (p_views T) (b_base B) "umem: view index insertion failed";
            _ ← mod_proc target (upd_p_views (insert (b_base B) e));
            _ ← umem_proc_unlock target;
            _ ← as_flag target (b_base B) (u64 (b_base B + b_bytes B)) (with_cache_type B (Z.lor prot PAGE_U));
            _ ← as_flush target;
            _ ← channel_edge_notify b e;
            _ ← umem_unlock;
            mret 0
    | _, _ => _ ← umem_proc_unlock p; _ ← umem_unlock; mret SYSERR_INVAL
    end.

(** [asserts(llrb_pid_edge_remove(b->sharers, &pid, &removed_edge), msg)]: the edge
    is stored in the node, so it goes with it. *)
Definition sharer_remove (b pid : Z) (msg : string) : M unit :=
  B ← get_block b;
  match b_sharers B !! pid with
  | None => die (HAssert msg)
  | Some e =>
      _ ← mod_block b (upd_b_sharers (delete pid));
      modify (upd_k_edges (delete e))
  end.

(** The common tail of [umem_dropshare] and [umem_unshare], the view already
    unlinked: the edge [e] of [b] towards [target] goes and its view is restored. *)
Definition edge_remove (b e target : Z) : M unit :=
  _ ← umem_edge_pending_unlink_locked e;
  T ← get_proc target;
  _ ← sharer_remove b (p_pid T) "umem: share edge removal failed";
  B ← get_block b;
  _ ← as_flag target (b_base B) (u64 (b_base B + b_bytes B)) (b_kernel_flags B);
  as_flush target.

Definition umem_dropshare (caller base pid : Z) : M Z :=
  _ ← umem_lock;
  C ← get_proc caller;
  ot ← (if (pid =? 0) || (pid =? p_pid C) then mret (Some caller) else proc_lookup_any pid);
  ok ← match ot with
       | None => mret false
       | Some target => if target =? caller then mret true else process_reaper_authorized_locked caller target
       end;
  match ot with
  | Some target =>
      if negb ok then _ ← umem_unlock; mret SYSERR_PERM
      else
        _ ← umem_proc_lock target;
        T ← get_proc target;
        match p_views T !! base with
        | None => _ ← umem_proc_unlock target; _ ← umem_unlock; mret SYSERR_INVAL
        | Some e =>
            E ← get_edge e;
            _ ← remove_exact (p_views T) base e "umem: view index removal failed";
            _ ← mod_proc target (upd_p_views (delete base));
            _ ← umem_proc_unlock target;
            _ ← edge_remove (e_block E) e target;
            _ ← umem_unlock;
            mret 0
        end
  | None => _ ← umem_unlock; mret SYSERR_PERM
  end.

Definition umem_unshare (caller base pid : Z) : M Z :=
  _ ← umem_lock;
  ob ← umem_resource_block_locked caller base;
  match ob with
  | None => _ ← umem_unlock; mret SYSERR_PERM
  | Some b =>
      ot ← proc_lookup_any pid;
      B ← get_block b;
      match ot, b_sharers B !! pid with
      | Some target, Some e =>
          _ ← umem_proc_lock target;
          T ← get_proc target;
          _ ← remove_exact (p_views T) base e "umem: view index removal failed";
          _ ← mod_proc target (upd_p_views (delete base));
          _ ← umem_proc_unlock target;
          _ ← edge_remove b e target;
          _ ← umem_unlock;
          mret 0
      | _, _ => _ ← umem_unlock; mret SYSERR_INVAL
      end
  end.

(** ** Enumeration *)

Definition enum_subject_locked (caller pid : Z) : M (option Z) :=
  C ← get_proc caller;
  if (pid =? 0) || (pid =? p_pid C) then mret (Some caller)
  else
    ot ← proc_lookup_any pid;
    match ot with
    | None => mret None
    | Some target =>
        ok ← process_reaper_authorized_locked caller target;
        mret (if (ok : bool) then Some target else None)
    end.

Definition umem_enum_copyout_locked (caller buf cap : Z) (vals : list Z) : M Z :=
  let count := Z.of_nat (length vals) in
  if (cap =? 0) || (VM_ENUM_BATCH <? cap) || (cap <? count) || (UINT64_MAX / 8 <? cap) then mret SYSERR_INVAL
  else
    let bytes := cap * 8 in
    _ ← umem_proc_lock caller;
    b ← umem_view_locked caller buf bytes;
    ok ← (if bool_decide (is_Some b) then user_range_ok caller buf bytes true else mret false);
    if negb ok then _ ← umem_proc_unlock caller; mret SYSERR_FAULT
    else
      _ ← when (negb (count =? 0)) (store_bytes buf (mjoin (le_encode 8 <$> vals)));
      _ ← umem_proc_unlock caller;
      mret count.

Definition umem_enum_blocks (caller pid buf cap after : Z) : M Z :=
  if (cap =? 0) || (VM_ENUM_BATCH <? cap) then mret SYSERR_INVAL
  else
    _ ← umem_lock;
    ot ← enum_subject_locked caller pid;
    match ot with
    | None => _ ← umem_unlock; mret SYSERR_PERM
    | Some target =>
        _ ← umem_proc_lock target;
        T ← get_proc target;
        let vals := keys_after (p_blocks T) after (Z.to_nat cap) in
        _ ← umem_proc_unlock target;
        rc ← umem_enum_copyout_locked caller buf cap vals;
        _ ← umem_unlock;
        mret rc
    end.

Definition umem_enum_views (caller pid buf cap after : Z) : M Z :=
  if (cap =? 0) || (VM_ENUM_BATCH <? cap) then mret SYSERR_INVAL
  else
    _ ← umem_lock;
    ot ← enum_subject_locked caller pid;
    match ot with
    | None => _ ← umem_unlock; mret SYSERR_PERM
    | Some target =>
        _ ← umem_proc_lock target;
        T ← get_proc target;
        let vals := keys_after (p_views T) after (Z.to_nat cap) in
        _ ← umem_proc_unlock target;
        rc ← umem_enum_copyout_locked caller buf cap vals;
        _ ← umem_unlock;
        mret rc
    end.

Definition umem_enum_sharers (caller base buf cap after : Z) : M Z :=
  if (cap =? 0) || (VM_ENUM_BATCH <? cap) then mret SYSERR_INVAL
  else
    _ ← umem_lock;
    ob ← umem_resource_block_locked caller base;
    match ob with
    | None => _ ← umem_unlock; mret SYSERR_PERM
    | Some b =>
        B ← get_block b;
        let vals := keys_after (b_sharers B) after (Z.to_nat cap) in
        rc ← umem_enum_copyout_locked caller buf cap vals;
        _ ← umem_unlock;
        mret rc
    end.

(** ** Ownership transfer and process registry *)

Definition umem_process_finish_locked (p : Z) : M unit :=
  P ← get_proc p;
  asserts ((size (p_blocks P) =? 0)%nat && (size (p_views P) =? 0)%nat) "umem: process finish with resources left".

Definition umem_move_locked (b from to : Z) (src_as_live : bool) : M Z :=
  B ← get_block b;
  if bool_decide (is_Some (b_dma_maps B)) || negb (b_thread_pins B =? 0) then mret SYSERR_EXIST
  else if negb (b_delegatable B) then mret SYSERR_INVAL
  else
    let stop := u64 (b_base B + b_bytes B) in
    _ ← umem_proc_lock from;
    F ← get_proc from;
    _ ← remove_exact (p_blocks F) (b_base B) b "umem: moved block missing from owner";
    _ ← mod_proc from (upd_p_blocks (delete (b_base B)));
    _ ← umem_proc_unlock from;
    _ ← umem_proc_lock to;
    T ← get_proc to;
    let old_view := p_views T !! b_base B in
    _ ← mod_proc to (upd_p_views (delete (b_base B)));
    _ ← umem_proc_unlock to;
    _ ← match old_view with
        | None => skip
        | Some e =>
            _ ← umem_edge_pending_unlink_locked e;
            sharer_remove b (p_pid T) "umem: moved view edge missing"
        end;
    _ ← mod_block b (upd_b_owner (fun _ => to));
    _ ← when src_as_live (as_flag from (b_base B) stop (b_kernel_flags B));
    let moved := if bool_decide (b_backing B = UBLOCK_DEVICE) then Z.lor (b_device_flags B) PAGE_U
                 else Z.lor (Z.lor PAGE_R PAGE_W) PAGE_U in
    _ ← as_flag to (b_base B) stop moved;
    _ ← as_flush to;
    _ ← when src_as_live (as_flush from);
    _ ← umem_proc_lock to;
    T ← get_proc to;
    _ ← insert_fresh (p_blocks T) (b_base B) "umem: moved block collided";
    _ ← mod_proc to (upd_p_blocks (insert (b_base B) b));
    _ ← umem_proc_unlock to;
    mret 0.

Definition umem_proc_unregister_locked (p : Z) : M unit :=
  P ← get_proc p;
  g ← gets k_g_procs;
  _ ← remove_exact g (p_pid P) p "umem: process missing from pid tree";
  modify (upd_k_g_procs (delete (p_pid P))).

End Umem.
