(* ===== verification/Process.v ===== *)
(** * Processes and threads

    [process.c]: creation, death, reaping and the syscall backends on the process
    tree; [uthread_spawn] of [thread.c] and the scheduler's hook for exited
    threads.  A function whose C original never returns ([proc_sys_process_exit])
    ends in [park]. *)

From S2P Require Import Prelude Buddy Paging Siphash PlatformMem Machine Sched Index Channel Umem.

Section Process.
Context {PT : PageTree} {SC : Schemes}.

Definition PROC_DESTROY_DONE : Z := 0.
Definition PROC_DESTROY_MORE : Z := 1.

Definition process_set_init (p : Z) : M unit :=
  g ← gets k_g_init;
  _ ← asserts (bool_decide (g = None)) "process: init set twice";
  modify (upd_k_g_init (fun _ => Some p)).

(** ** Creation *)

Definition process_create (parent : option Z) : M Z :=
  _ ← must_alloc;
  pid ← gets k_next_pid;
  _ ← modify (upd_k_next_pid (fun n => u64 (n + 1)));
  a ← as_clone_kernel;
  _ ← must_alloc;
  _ ← must_alloc;
  _ ← modify (upd_k_procs (insert pid
        (Process pid (Some a) false parent ∅ false 0 0 ∅ ∅ ∅ None None None None None)));
  _ ← umem_process_register pid;
  _ ← match parent with
      | None => skip
      | Some q =>
          _ ← umem_lock;
          _ ← must_alloc;
          Q ← get_proc q;
          _ ← insert_fresh (p_children Q) pid "process: child insertion failed";
          _ ← mod_proc q (upd_p_children (insert pid pid));
          umem_unlock
      end;
  mret pid.

Definition uthread_spawn (p entry sp arg fs gs : Z) (completion_block : option Z) (completion_event : Z) : M Z :=
  _ ← must_alloc;
  tid ← gets k_next_tid;
  _ ← modify (upd_k_next_tid (fun n => u64 (n + 1)));
  _ ← must_alloc;
  let '(uframe, fs_base, gs_base) := arch_thread_init_user entry sp arg fs gs in
  _ ← modify (upd_k_threads (insert tid
        (Thread tid p THREAD_RUNNABLE false (0, 0) 0 0 FUTEX_IDLE completion_block completion_event
           uframe fs_base gs_base)));
  mret tid.

Definition process_spawn_thread_locked (p entry sp arg fs gs : Z) (completion_block : option Z)
    (completion_event : Z) : M Z :=
  dead ← process_is_dead p;
  _ ← asserts (negb dead) "process: spawning into the dead";
  t ← uthread_spawn p entry sp arg fs gs completion_block completion_event;
  _ ← must_alloc;
  P ← get_proc p;
  _ ← insert_fresh (p_threads P) t "process: thread insertion failed";
  _ ← mod_proc p (upd_p_threads (insert t t));
  _ ← mod_proc p (upd_p_nthreads (fun n => u64 (n + 1)));
  _ ← scheduler_enqueue t;
  mret t.

Definition process_spawn_thread (p entry sp arg fs gs : Z) : M Z :=
  _ ← umem_lock;
  t ← process_spawn_thread_locked p entry sp arg fs gs None 0;
  _ ← umem_unlock;
  mret t.

(** ** Death *)

Definition remove_thread_ref (p t : Z) : M unit :=
  P ← get_proc p;
  T ← get_thread t;
  _ ← remove_exact (p_threads P) (t_tid T) t "process: thread index mismatch";
  mod_proc p (upd_p_threads (delete (t_tid T))).

Definition notify_parent_locked (child : Z) : M unit :=
  C ← get_proc child;
  match p_parent C with
  | None => mod_proc child (upd_p_death_notified (fun _ => true))
  | Some parent =>
      dead ← process_is_dead parent;
      if (dead : bool) then mod_proc child (upd_p_death_notified (fun _ => true))
      else channel_child_dead_notify parent child
  end.

Definition mark_dead_locked (p : Z) : M unit :=
  dead ← process_is_dead p;
  if (dead : bool) then skip
  else
    g ← gets k_g_init;
    _ ← asserts (negb (bool_decide (g = Some p))) "init died";
    mod_proc p (upd_p_dead (fun _ => true)).

Definition process_kill_subtree (p : Z) : M unit :=
  _ ← umem_lock;
  _ ← mark_dead_locked p;
  _ ← notify_parent_locked p;
  umem_unlock.

(** [arch_thread_destroy] and [slab_thread_free]. *)
Definition thread_free (t : Z) : M unit := modify (upd_k_threads (delete t)).

Definition process_thread_exited (t : Z) : M unit :=
  T ← get_thread t;
  let p := t_proc T in
  _ ← umem_lock;
  _ ← match t_completion_block T with
      | None => skip
      | Some b =>
          dead ← process_is_dead p;
          _ ← channel_thread_complete_locked p b (t_completion_event T) (negb dead);
          mod_thread t (upd_t_completion_block (fun _ => None))
      end;
  _ ← remove_thread_ref p t;
  _ ← thread_free t;
  _ ← mod_proc p (upd_p_nthreads (fun n => u64 (n - 1)));
  P ← get_proc p;
  dead ← (if p_nthreads P =? 0 then process_is_dead p else mret true);
  _ ← when (negb dead) (_ ← mark_dead_locked p; notify_parent_locked p);
  umem_unlock.

(** ** Syscall backends *)

Definition proc_sys_create (curr : Z) : M Z :=
  T ← get_thread curr; process_create (Some (t_proc T)).

Definition user_page_has (p address required : Z) : M bool :=
  a ← get_as p;
  let flags := pt_info (a_tree a) address in
  mret (negb (flags =? 0) && (Z.land flags required =? required)).

Definition SIZEOF_THREAD_START : Z := 56.
Definition GDOS_THREAD_START_VERSION : Z := 1.

Record gdos_thread_start := ThreadStart {
  ts_version : Z; ts_size : Z; ts_entry : Z; ts_argument : Z; ts_stack_pointer : Z;
  ts_fs_base : Z; ts_gs_base : Z; ts_completion_event : Z }.

Definition decode_start (bs : list Z) : gdos_thread_start :=
  let w32 i := le_decode (take 4 (drop i bs)) in
  let w64 i := le_decode (take 8 (drop i bs)) in
  ThreadStart (w32 0%nat) (w32 4%nat) (w64 8%nat) (w64 16%nat) (w64 24%nat) (w64 32%nat) (w64 40%nat) (w64 48%nat).

Definition start_wellformed (s : gdos_thread_start) : bool :=
  (ts_version s =? GDOS_THREAD_START_VERSION) && (ts_size s =? SIZEOF_THREAD_START) &&
  canonical48 (ts_entry s) && canonical48 (ts_stack_pointer s) && canonical48 (ts_fs_base s) &&
  canonical48 (ts_gs_base s) && (ts_stack_pointer s mod 16 =? 8).

(** The completion word: [Some block] when none is asked for (with no block) or the
    word is acceptable, [None] otherwise. *)
Definition completion_check (me target event : Z) : M (option (option Z)) :=
  if event =? 0 then mret (Some None)
  else
    ob ← (if target =? me then umem_view_locked target event 4 else mret None);
    match ob with
    | None => mret None
    | Some b =>
        B ← get_block b;
        if (event mod 4 =? 0) && (b_owner B =? target) && bool_decide (b_backing B = UBLOCK_RAM) &&
           bool_decide (b_ring B = None) && (size (b_sharers B) =? 0)%nat then
          ok ← user_range_ok target event 4 true;
          if (ok : bool) then
            word ← load32 event;
            if word =? GDOS_THREAD_PENDING then
              _ ← mod_block b (upd_b_thread_pins (fun n => u32 (n + 1)));
              mret (Some (Some b))
            else mret None
          else mret None
        else mret None
    end.

(** The validation of the target under [g_umem]. *)
Definition spawn_target (me pid : Z) (start : gdos_thread_start) : M (option Z) :=
  ot ← proc_lookup pid;
  match ot with
  | None => mret None
  | Some target =>
      T ← get_proc target;
      if (target =? me) || bool_decide (p_parent T = Some me) then
        x ← user_page_has target (ts_entry start) (Z.lor (Z.lor PAGE_U PAGE_R) PAGE_X);
        if negb x then mret None
        else if ts_stack_pointer start =? 0 then mret None
        else
          w ← user_page_has target (ts_stack_pointer start - 1) (Z.lor (Z.lor PAGE_U PAGE_R) PAGE_W);
          mret (if (w : bool) then Some target else None)
      else mret None
  end.

Definition proc_sys_thread_spawn (curr pid start_ptr start_size : Z) : M Z :=
  if negb (start_size =? SIZEOF_THREAD_START) then mret SYSERR_INVAL
  else
    T ← get_thread curr;
    let me := t_proc T in
    _ ← umem_proc_lock me;
    readable ← user_range_ok me start_ptr SIZEOF_THREAD_START false;
    bs ← (if (readable : bool) then load_bytes start_ptr 56 else mret []);
    _ ← umem_proc_unlock me;
    if negb readable then mret SYSERR_FAULT
    else
      let start := decode_start bs in
      if negb (start_wellformed start) then mret SYSERR_INVAL
      else
        _ ← umem_lock;
        ot ← spawn_target me pid start;
        match ot with
        | None => _ ← umem_unlock; mret SYSERR_INVAL
        | Some target =>
            _ ← umem_proc_lock target;
            oc ← completion_check me target (ts_completion_event start);
            _ ← umem_proc_unlock target;
            match oc with
            | None => _ ← umem_unlock; mret SYSERR_INVAL
            | Some block =>
                t ← process_spawn_thread_locked target (ts_entry start) (ts_stack_pointer start)
                      (ts_argument start) (ts_fs_base start) (ts_gs_base start) block
                      (ts_completion_event start);
                _ ← umem_unlock;
                mret t
            end
        end.

(** [uthread_park]: the thread's status, then the switch to the scheduler. *)
Definition uthread_park {A} (status : thread_status) (requeue : bool) : M A :=
  cpu ← this_cpu;
  _ ← lock (LSched cpu);
  c ← get_cpu cpu;
  _ ← asserts (bool_decide (is_Some (c_current_thread c))) "uthread_park: no current user thread";
  curr ← deref (c_current_thread c);
  _ ← mod_thread curr (upd_t_status (fun _ => status));
  _ ← when requeue (scheduler_push_local_locked cpu curr);
  _ ← unlock (LSched cpu);
  park.

Definition uthread_park_exit {A} : M A := uthread_park THREAD_DEAD false.
Definition uthread_park_yield {A} : M A := uthread_park THREAD_RUNNABLE true.
Definition uthread_park_blocked {A} : M A := uthread_park THREAD_BLOCKED false.

Definition proc_sys_process_exit {A} (curr status : Z) : M A :=
  T ← get_thread curr;
  _ ← umem_lock;
  _ ← mod_proc (t_proc T) (upd_p_exit_status (fun _ => status));
  _ ← mark_dead_locked (t_proc T);
  _ ← notify_parent_locked (t_proc T);
  _ ← umem_unlock;
  uthread_park_exit.

(** The walk up from the victim's parent. *)
Fixpoint ancestor_walk (fuel : nat) (me : Z) (a : option Z) : M bool :=
  match a with
  | None => mret false
  | Some a =>
      if a =? me then mret true
      else
        match fuel with
        | O => die HSpin
        | S fuel => A ← get_proc a; ancestor_walk fuel me (p_parent A)
        end
  end.

Definition proc_sys_kill (curr pid : Z) : M Z :=
  T ← get_thread curr;
  let me := t_proc T in
  _ ← umem_lock;
  ov ← proc_lookup pid;
  match ov with
  | None => _ ← umem_unlock; mret SYSERR_INVAL
  | Some victim =>
      if victim =? me then _ ← umem_unlock; mret SYSERR_INVAL
      else
        V ← get_proc victim;
        descendant ← ancestor_walk (Z.to_nat victim) me (p_parent V);
        if negb descendant then _ ← umem_unlock; mret SYSERR_INVAL
        else
          _ ← mark_dead_locked victim;
          _ ← notify_parent_locked victim;
          _ ← umem_unlock;
          mret 0
  end.

Definition resource_subject_locked (caller pid : Z) : M (option Z) := enum_subject_locked caller pid.

Definition proc_sys_threads (curr pid buf cap after : Z) : M Z :=
  if (cap =? 0) || (VM_ENUM_BATCH <? cap) then mret SYSERR_INVAL
  else
    C ← get_thread curr;
    _ ← umem_lock;
    ot ← resource_subject_locked (t_proc C) pid;
    match ot with
    | None => _ ← umem_unlock; mret SYSERR_PERM
    | Some target =>
        T ← get_proc target;
        rc ← umem_enum_copyout_locked (t_proc C) buf cap (keys_after (p_threads T) after (Z.to_nat cap));
        _ ← umem_unlock;
        mret rc
    end.

Definition proc_sys_children (curr pid buf cap after : Z) : M Z :=
  if (cap =? 0) || (VM_ENUM_BATCH <? cap) then mret SYSERR_INVAL
  else
    C ← get_thread curr;
    _ ← umem_lock;
    ot ← resource_subject_locked (t_proc C) pid;
    match ot with
    | None => _ ← umem_unlock; mret SYSERR_PERM
    | Some target =>
        T ← get_proc target;
        rc ← umem_enum_copyout_locked (t_proc C) buf cap (keys_after (p_children T) after (Z.to_nat cap));
        _ ← umem_unlock;
        mret rc
    end.

(** Whether the blocked victim may be taken: a parked thread is claimed and detached. *)
Definition reap_claim (victim : Z) : M bool :=
  V ← get_thread victim;
  if t_on_cpu V || negb (bool_decide (t_status V = THREAD_BLOCKED)) then mret false
  else
    match t_wake_state V with
    | FUTEX_PARKED =>
        won ← futex_try_claim victim;
        if (won : bool) then _ ← futex_reap_claimed victim; mret true else mret false
    | FUTEX_REAPABLE => mret true
    | _ => mret false
    end.

Definition proc_sys_thread_destroy (curr pid tid : Z) : M Z :=
  C ← get_thread curr;
  _ ← umem_lock;
  ot ← resource_subject_locked (t_proc C) pid;
  ok ← match ot with
       | None => mret false
       | Some target => if target =? t_proc C then mret true else process_is_dead target
       end;
  match ot with
  | Some target =>
      if negb ok then _ ← umem_unlock; mret SYSERR_PERM
      else
        T ← get_proc target;
        match p_threads T !! tid with
        | None => _ ← umem_unlock; mret SYSERR_INVAL
        | Some victim =>
            won ← reap_claim victim;
            if negb won then _ ← umem_unlock; mret SYSERR_AGAIN
            else
              V ← get_thread victim;
              _ ← match t_completion_block V with
                  | None => skip
                  | Some b =>
                      _ ← channel_thread_complete_locked target b (t_completion_event V) false;
                      mod_thread victim (upd_t_completion_block (fun _ => None))
                  end;
              _ ← remove_thread_ref target victim;
              _ ← thread_free victim;
              _ ← mod_proc target (upd_p_nthreads (fun n => u64 (n - 1)));
              _ ← umem_unlock;
              mret 0
        end
  | None => _ ← umem_unlock; mret SYSERR_PERM
  end.

Definition proc_sys_destroy (curr pid : Z) : M Z :=
  C ← get_thread curr;
  _ ← umem_lock;
  ot ← proc_lookup_any pid;
  ok ← match ot with None => mret false | Some target => process_reaper_authorized_locked (t_proc C) target end;
  match ot with
  | Some target =>
      if negb ok then _ ← umem_unlock; mret SYSERR_PERM
      else
        _ ← umem_proc_lock target;
        T ← get_proc target;
        let has_memory := negb (size (p_blocks T) =? 0)%nat || negb (size (p_views T) =? 0)%nat in
        _ ← umem_proc_unlock target;
        if has_memory || negb (size (p_children T) =? 0)%nat || negb (size (p_threads T) =? 0)%nat then
          _ ← umem_unlock; mret SYSERR_EXIST
        else
          match p_as T with
          | Some a =>
              cpus ← gets k_cpus;
              if as_has_pins a || existsb (fun c => bool_decide (c_current_as c = Some target)) cpus then
                _ ← umem_unlock; mret SYSERR_AGAIN
              else
                _ ← mod_proc target (upd_p_as (fun _ => None));
                _ ← umem_unlock;
                mret PROC_DESTROY_MORE
          | None =>
              parent ← deref (p_parent T);
              Q ← get_proc parent;
              _ ← remove_exact (p_children Q) (p_pid T) target "process: child missing during destroy";
              _ ← mod_proc parent (upd_p_children (delete (p_pid T)));
              _ ← umem_proc_unregister_locked target;
              _ ← umem_process_finish_locked target;
              _ ← modify (upd_k_procs (delete target));
              _ ← umem_unlock;
              mret PROC_DESTROY_DONE
          end
  | None => _ ← umem_unlock; mret SYSERR_PERM
  end.

Definition proc_sys_vm_move (curr base pid : Z) : M Z :=
  C ← get_thread curr;
  let me := t_proc C in
  _ ← umem_lock;
  ot ← proc_lookup pid;
  child ← match ot with
          | None => mret None
          | Some target => T ← get_proc target; mret (if bool_decide (p_parent T = Some me) then Some target else None)
          end;
  match child with
  | None => _ ← umem_unlock; mret SYSERR_INVAL
  | Some target =>
      _ ← umem_proc_lock me;
      ob ← umem_owned_locked me base;
      _ ← umem_proc_unlock me;
      match ob with
      | None => _ ← umem_unlock; mret SYSERR_INVAL
      | Some b =>
          B ← get_block b;
          if bool_decide (is_Some (b_ring B)) then _ ← umem_unlock; mret SYSERR_INVAL
          else
            rc ← umem_move_locked b me target true;
            _ ← umem_unlock;
            mret rc
      end
  end.

Definition proc_sys_vm_protect_for (curr base len prot pid : Z) : M Z :=
  C ← get_thread curr;
  _ ← umem_lock;
  ot ← proc_lookup pid;
  child ← match ot with
          | None => mret None
          | Some target =>
              T ← get_proc target; mret (if bool_decide (p_parent T = Some (t_proc C)) then Some target else None)
          end;
  match child with
  | None => _ ← umem_unlock; mret SYSERR_INVAL
  | Some target =>
      rc ← umem_protect target base len prot;
      _ ← umem_unlock;
      mret (if rc =? 0 then 0 else SYSERR_PERM)
  end.

End Process.
