(* ===== verification/Capability.v ===== *)
(** * Capabilities

    [capability.c]: the tree of grants behind the capability scheme, the sealed
    tokens that name grants, attenuation ([subgrant]), revocation one leaf at a time
    ([revoke_step]) and the commands of scheme -2.  A [grant *] is the grant's id:
    ids are drawn from a counter and never reused, and [k_grants] is both the heap
    of grants and the index [g_grants].  The union of [struct grant] is the payload
    of its type.  The two route helpers of [schemes/irq.c] that this file calls come
    first.

    The walk to the root in [token_resolve] carries the bound of the source; the walk
    of [KCAP_QUERY] and the descent of [revoke_step] carry fuel, the largest depth of
    a grant. *)

From S2P Require Import Prelude Buddy Paging Siphash PlatformMem Machine Sched Index Channel Umem.

Section Capability.
Context {PT : PageTree} {SC : Schemes}.

(** ** Routes ([schemes/irq.c]) *)

Definition VECTOR_DEVICE_BASE : Z := 0x30.
Definition VECTOR_DEVICE_END : Z := 0xEF.
Definition IRQ_ROUTE_COUNT : Z := VECTOR_DEVICE_END - VECTOR_DEVICE_BASE + 1.

Definition route_for_gsi (gsi : Z) : M (option Z) :=
  if IRQ_ROUTE_COUNT <=? gsi then mret None
  else R ← get_route gsi; mret (if q_present R then Some gsi else None).

Definition route_id (R : irq_route) : Z := Z.lor (Z.shiftl (q_generation R) 16) (q_gsi R).

(** ** ABI ([kring_cap.h]) *)

Definition KSCHEME_CAP : Z := -2.
Definition CAP_TOKEN_VERSION : Z := 1.
Definition CAP_TOKEN_SIZE : Z := 32.
Definition KCAP_MAX_DEPTH : Z := 64.
Definition KCAP_GRANT_DEVMEM : Z := 1.
Definition KCAP_GRANT_IRQ_ROUTE : Z := 2.
Definition KCAP_GRANT_IOMMU_DEV : Z := 3.
Definition KCAP_PARAM_P0 : Z := 1.
Definition KCAP_PARAM_P1 : Z := 2.
Definition KCAP_PARAM_P2 : Z := 4.
Definition KCAP_SUBGRANT : Z := 1.
Definition KCAP_REVOKE : Z := 2.
Definition KCAP_QUERY : Z := 3.

Record cap_token := CapToken {
  tk_version : Z; tk_nres : Z; tk_reserved : list Z; tk_grant_id_le : Z; tk_mac : list Z }.

Definition decode_token (bs : list Z) : cap_token :=
  CapToken (nth 0 bs 0) (nth 1 bs 0) (take 6 (drop 2 bs)) (le_decode (take 8 (drop 8 bs))) (take 16 (drop 16 bs)).

(** The first 16 bytes of a token. *)
Definition token_header (t : cap_token) : list Z :=
  tk_version t :: tk_nres t :: tk_reserved t ++ le_encode 8 (tk_grant_id_le t).

Definition encode_token (t : cap_token) : list Z := token_header t ++ tk_mac t.

Record kcap_subgrant_req := SubgrantReq {
  sg_token_off : Z; sg_token_len : Z; sg_p0 : Z; sg_p1 : Z; sg_p2 : Z;
  sg_present : Z; sg_reserved : Z; sg_reserved2 : Z }.

Definition SIZEOF_SUBGRANT_REQ : Z := 56.
Definition SIZEOF_QUERY_REQ : Z := 16.
Definition SIZEOF_QUERY_RESULT : Z := 48.

Definition decode_subgrant_req (bs : list Z) : kcap_subgrant_req :=
  let w64 i := le_decode (take 8 (drop i bs)) in
  let w32 i := le_decode (take 4 (drop i bs)) in
  SubgrantReq (w64 0%nat) (w64 8%nat) (w64 16%nat) (w64 24%nat) (w64 32%nat) (w32 40%nat) (w32 44%nat) (w64 48%nat).

(** ** Tokens *)

(** [g_mac_domain], "govindos-cap-v1". *)
Definition g_mac_domain : list Z := [103; 111; 118; 105; 110; 100; 111; 115; 45; 99; 97; 112; 45; 118; 49].

Definition token_mac (key : list Z) (t : cap_token) : list Z := siphash128 (g_mac_domain ++ token_header t) key.

Definition token_write (key : list Z) (id : Z) : cap_token :=
  let t := CapToken CAP_TOKEN_VERSION 0 [0; 0; 0; 0; 0; 0] id [] in
  CapToken (tk_version t) (tk_nres t) (tk_reserved t) (tk_grant_id_le t) (token_mac key t).

Fixpoint difference (a b : list Z) (len : nat) : Z :=
  match len with
  | O => 0
  | S len => Z.lor (Z.lxor (nth 0 a 0) (nth 0 b 0)) (difference (tail a) (tail b) len)
  end.

Definition constant_equal (a b : list Z) (len : nat) : bool := difference a b len =? 0.

(** The liveness walk of [token_resolve]; [more] is [KCAP_MAX_DEPTH + 1 - walked]. *)
Fixpoint live_walk (more : nat) (at_ : option Z) : M Z :=
  match at_ with
  | None => mret 0
  | Some a =>
      G ← get_grant a;
      if g_dead G then mret SYSERR_DEAD
      else match more with O => mret SYSERR_INVAL | S more => live_walk more (g_parent G) end
  end.

(** The status and, when it is 0, the grant. *)
Definition token_resolve (t : cap_token) (need_live : bool) (type : Z) : M (Z * option Z) :=
  if negb (tk_version t =? CAP_TOKEN_VERSION) || negb (tk_nres t =? 0) then mret (SYSERR_INVAL, None)
  else if existsb nz (tk_reserved t) then mret (SYSERR_INVAL, None)
  else
    key ← gets k_boot_key;
    if negb (constant_equal (tk_mac t) (token_mac key t) 16) then mret (SYSERR_PERM, None)
    else
      grants ← gets k_grants;
      match grants !! tk_grant_id_le t with
      | None => mret (SYSERR_DEAD, None)
      | Some G =>
          if negb (type =? 0) && negb (g_type G =? type) then mret (SYSERR_PERM, None)
          else
            rc ← (if need_live then live_walk (Z.to_nat (KCAP_MAX_DEPTH + 1)) (Some (tk_grant_id_le t)) else mret 0);
            mret (rc, if rc =? 0 then Some (tk_grant_id_le t) else None)
      end.

Definition ring_range (bytes off len : Z) : bool := (off <=? bytes) && (len <=? bytes - off).

Definition ring_block (r : Z) : M ublock := R ← get_ring r; get_block (r_block R).

Definition resolve_ring (r off len : Z) (need_live : bool) (type : Z) : M (Z * option Z) :=
  B ← ring_block r;
  if negb (len =? CAP_TOKEN_SIZE) || negb (ring_range (b_bytes B) off len) then mret (SYSERR_INVAL, None)
  else
    bs ← load_bytes (b_base B + off) 32;
    token_resolve (decode_token bs) need_live type.

Definition cap_verify_ring_locked (r off len type : Z) : M (Z * option Z) := resolve_ring r off len true type.

(** ** The grant tree *)

(** The zeroed union of a new grant. *)
Definition zero_payload (type : Z) : grant_payload :=
  if type =? KCAP_GRANT_DEVMEM then GDevmem 0 0 0
  else if type =? KCAP_GRANT_IRQ_ROUTE then GIrq None 0 else GIommu 0.

Definition grant_new (parent : option Z) (type : Z) (wildcard : bool) : M (option Z) :=
  P ← match parent with None => mret None | Some p => G ← get_grant p; mret (Some G) end;
  if match P with Some G => KCAP_MAX_DEPTH <=? g_depth G | None => false end then mret None
  else
    ok ← try_alloc;
    if negb ok then mret None
    else
      id ← gets k_next_grant_id;
      _ ← modify (upd_k_next_grant_id (fun n => u64 (n + 1)));
      _ ← asserts (negb (id =? 0)) "capability: grant id exhausted";
      let depth := match P with None => 0 | Some G => u8 (g_depth G + 1) end in
      let next := match P with None => None | Some G => g_first_child G end in
      grants ← gets k_grants;
      _ ← must_alloc;
      _ ← asserts (bool_decide (grants !! id = None)) "capability: grant index insertion failed";
      _ ← modify (upd_k_grants (insert id
            (Grant id type depth wildcard false (zero_payload type) parent None next None)));
      _ ← match next with None => skip | Some n => mod_grant n (upd_g_prev_sibling (fun _ => Some id)) end;
      _ ← match parent with None => skip | Some p => mod_grant p (upd_g_first_child (fun _ => Some id)) end;
      mret (Some id).

Definition grant_delete_leaf (g : Z) : M unit :=
  G ← get_grant g;
  _ ← asserts (bool_decide (g_first_child G = None)) "capability: deleting non-leaf";
  _ ← match g_parent G with
      | None => skip
      | Some p =>
          _ ← match g_prev_sibling G with
              | Some q => mod_grant q (upd_g_next_sibling (fun _ => g_next_sibling G))
              | None => mod_grant p (upd_g_first_child (fun _ => g_next_sibling G))
              end;
          match g_next_sibling G with
          | Some q => mod_grant q (upd_g_prev_sibling (fun _ => g_prev_sibling G))
          | None => skip
          end
      end;
  modify (upd_k_grants (delete g)).

Fixpoint leaf_walk (fuel : nat) (g : Z) : M Z :=
  G ← get_grant g;
  match g_first_child G with
  | None => mret g
  | Some c => match fuel with O => die HSpin | S fuel => leaf_walk fuel c end
  end.

Definition revoke_step (target : Z) : M Z :=
  _ ← mod_grant target (upd_g_dead (fun _ => true));
  leaf ← leaf_walk (Z.to_nat KCAP_MAX_DEPTH) target;
  _ ← grant_delete_leaf leaf;
  mret (if leaf =? target then 0 else SYSERR_AGAIN).

(** ** Attenuation *)

(** [None] is "overflows". *)
Definition add_overflows (base len : Z) : option Z := if len =? 0 then None else add_overflow64 base len.

Definition devmem_of (p : grant_payload) : option (Z * Z * Z) :=
  match p with GDevmem b l f => Some (b, l, f) | _ => None end.
Definition irq_of (p : grant_payload) : option (option Z * Z) :=
  match p with GIrq r i => Some (r, i) | _ => None end.
Definition iommu_of (p : grant_payload) : option Z := match p with GIommu q => Some q | _ => None end.

(** Status and payload of the child of a device-memory grant. *)
Definition subgrant_devmem (req : kcap_subgrant_req) (wildcard : bool) (pbase plen pflags : Z) : Z * grant_payload :=
  let present := sg_present req in
  let rc := if wildcard && negb (present =? 7) then SYSERR_INVAL else 0 in
  let base := if has present KCAP_PARAM_P0 then sg_p0 req else pbase in
  let len := if has present KCAP_PARAM_P1 then sg_p1 req else plen in
  let flags := if has present KCAP_PARAM_P2 then u32 (sg_p2 req) else pflags in
  let refused :=
    (has present KCAP_PARAM_P2 && nz (Z.shiftr (sg_p2 req) 32)) ||
    match add_overflows base len with
    | None => true
    | Some stop =>
        (negb wildcard &&
         match add_overflows pbase plen with
         | None => true
         | Some parent_end => (base <? pbase) || (parent_end <? stop)
         end) ||
        (negb wildcard && nz (Z.ldiff flags pflags))
    end in
  (if refused then SYSERR_PERM else rc, GDevmem base len flags).

(** The same for an interrupt route. *)
Definition subgrant_irq (req : kcap_subgrant_req) (wildcard : bool) (proute : option Z) (pid : Z) :
    M (Z * grant_payload) :=
  let present := sg_present req in
  '(rc, payload) ←
    (if wildcard then
       route ← (if has present KCAP_PARAM_P0 then route_for_gsi (sg_p0 req) else mret None);
       match route with
       | None => mret (SYSERR_INVAL, GIrq None 0)
       | Some i => R ← get_route i; mret (0, GIrq (Some i) (route_id R))
       end
     else
       mret (if has present KCAP_PARAM_P0 && negb (sg_p0 req =? pid) then SYSERR_PERM else 0, GIrq proute pid));
  mret (if has present (Z.lor KCAP_PARAM_P1 KCAP_PARAM_P2) then SYSERR_INVAL else rc, payload).

(** The same for a DMA requester. *)
Definition subgrant_iommu (req : kcap_subgrant_req) (wildcard : bool) (prequester : Z) : Z * grant_payload :=
  let present := sg_present req in
  let requester := if has present KCAP_PARAM_P0 then sg_p0 req else prequester in
  (if nz (Z.shiftr requester 32) || (wildcard && negb (has present KCAP_PARAM_P0)) ||
      (negb wildcard && negb (requester =? prequester)) || has present (Z.lor KCAP_PARAM_P1 KCAP_PARAM_P2)
   then SYSERR_PERM else 0, GIommu (u32 requester)).

(** The status and, when it is 0, the child. *)
Definition subgrant (req : kcap_subgrant_req) (parent : Z) : M (Z * option Z) :=
  if negb (sg_reserved req =? 0) || negb (sg_reserved2 req =? 0) || nz (Z.ldiff (sg_present req) 7)
  then mret (SYSERR_INVAL, None)
  else
    P ← get_grant parent;
    if KCAP_MAX_DEPTH <=? g_depth P then mret (SYSERR_NOMEM, None)
    else
      oc ← grant_new (Some parent) (g_type P) false;
      match oc with
      | None => mret (SYSERR_NOMEM, None)
      | Some child =>
          '(rc, payload) ←
            (if g_type P =? KCAP_GRANT_DEVMEM then
               '(b, l, f) ← deref (devmem_of (g_payload P)); mret (subgrant_devmem req (g_wildcard P) b l f)
             else if g_type P =? KCAP_GRANT_IRQ_ROUTE then
               '(r, i) ← deref (irq_of (g_payload P)); subgrant_irq req (g_wildcard P) r i
             else if g_type P =? KCAP_GRANT_IOMMU_DEV then
               q ← deref (iommu_of (g_payload P)); mret (subgrant_iommu req (g_wildcard P) q)
             else mret (SYSERR_INVAL, zero_payload (g_type P)));
          _ ← mod_grant child (upd_g_payload (fun _ => payload));
          if negb (rc =? 0) then _ ← grant_delete_leaf child; mret (rc, None)
          else mret (0, Some child)
      end.

(** ** Commands *)

Definition set_sqe_a (a : Z) (sqe : ksqe) : ksqe := Ksqe (sqe_op sqe) a (sqe_b sqe) (sqe_c sqe).

Definition exec_subgrant (r : Z) (sqe : ksqe) : M (Z * ksqe) :=
  B ← ring_block r;
  if negb (sqe_b sqe =? 0) || negb (ring_range (b_bytes B) (sqe_a sqe) SIZEOF_SUBGRANT_REQ) ||
     negb (ring_range (b_bytes B) (sqe_c sqe) CAP_TOKEN_SIZE) then mret (SYSERR_INVAL, sqe)
  else
    bs ← load_bytes (b_base B + sqe_a sqe) 56;
    let req := decode_subgrant_req bs in
    '(rc, parent) ← cap_verify_ring_locked r (sg_token_off req) (sg_token_len req) 0;
    match parent with
    | None => mret (rc, sqe)
    | Some parent =>
        '(rc, child) ← subgrant req parent;
        match child with
        | None => mret (rc, sqe)
        | Some child =>
            key ← gets k_boot_key;
            _ ← store_bytes (b_base B + sqe_c sqe) (encode_token (token_write key child));
            mret (0, set_sqe_a child sqe)
        end
    end.

Definition exec_revoke (r : Z) (sqe : ksqe) : M (Z * ksqe) :=
  B ← ring_block r;
  if negb (sqe_b sqe =? CAP_TOKEN_SIZE) || negb (ring_range (b_bytes B) (sqe_a sqe) (sqe_b sqe))
  then mret (SYSERR_INVAL, sqe)
  else
    bs ← load_bytes (b_base B + sqe_a sqe) 32;
    '(rc, target) ← token_resolve (decode_token bs) false 0;
    match target with
    | None => mret (rc, sqe)
    | Some target => rc ← revoke_step target; mret (rc, sqe)
    end.

(** Whether the grant and all its ancestors are live. *)
Fixpoint query_live (fuel : nat) (at_ : option Z) (live : bool) : M bool :=
  match at_ with
  | None => mret live
  | Some a =>
      match fuel with
      | O => die HSpin
      | S fuel => G ← get_grant a; query_live fuel (g_parent G) (if g_dead G then false else live)
      end
  end.

(** [p0], [p1] and [p2] of [struct kcap_query_result]. *)
Definition query_params (G : grant) : Z * Z * Z :=
  match g_payload G with
  | GDevmem b l f => (b, l, f)
  | GIrq _ i => (if g_wildcard G then UINT64_MAX else i, 0, 0)
  | GIommu q => (if g_wildcard G then UINT64_MAX else q, 0, 0)
  end.

Definition query_result (G : grant) (live : bool) : list Z :=
  let '(p0, p1, p2) := query_params G in
  le_encode 8 (g_id G) ++ le_encode 8 p0 ++ le_encode 8 p1 ++ le_encode 8 p2 ++ le_encode 4 (g_type G) ++
  le_encode 4 (g_depth G) ++ le_encode 4 (Z.b2z live) ++ le_encode 4 (Z.b2z (g_wildcard G)).

Definition exec_query (r : Z) (sqe : ksqe) : M (Z * ksqe) :=
  B ← ring_block r;
  if negb (ring_range (b_bytes B) (sqe_a sqe) SIZEOF_QUERY_REQ) ||
     negb (ring_range (b_bytes B) (sqe_c sqe) SIZEOF_QUERY_RESULT) then mret (SYSERR_INVAL, sqe)
  else
    bs ← load_bytes (b_base B + sqe_a sqe) 16;
    '(rc, og) ← resolve_ring r (le_decode (take 8 bs)) (le_decode (take 8 (drop 8 bs))) false 0;
    match og with
    | None => mret (rc, sqe)
    | Some g =>
        live ← query_live (Z.to_nat (KCAP_MAX_DEPTH + 1)) (Some g) true;
        G ← get_grant g;
        _ ← store_bytes (b_base B + sqe_c sqe) (query_result G live);
        mret (0, sqe)
    end.

Definition cap_exec (curr r : Z) (sqe : ksqe) : M (Z * ksqe) :=
  if sqe_op sqe =? KCAP_SUBGRANT then exec_subgrant r sqe
  else if sqe_op sqe =? KCAP_REVOKE then exec_revoke r sqe
  else if sqe_op sqe =? KCAP_QUERY then exec_query r sqe
  else mret (SYSERR_NOSYS, sqe).

Definition cap_ops : scheme_ops := SchemeOps KSCHEME_CAP None (Some cap_exec) None None None None.

(** ** Bring-up and the other kernel components *)

(** The random words are the argument. *)
Definition capability_init (random : list Z) : M unit :=
  _ ← must_alloc;
  _ ← modify (upd_k_grants (fun _ => ∅));
  modify (upd_k_boot_key (fun _ => mjoin (le_encode 8 <$> random))).

(** The tokens of the three root grants. *)
Definition capability_bootstrap : M (cap_token * cap_token * cap_token) :=
  _ ← umem_lock;
  d ← grant_new None KCAP_GRANT_DEVMEM true;
  q ← grant_new None KCAP_GRANT_IRQ_ROUTE true;
  m ← grant_new None KCAP_GRANT_IOMMU_DEV true;
  match d, q, m with
  | Some d, Some q, Some m =>
      key ← gets k_boot_key;
      _ ← umem_unlock;
      mret (token_write key d, token_write key q, token_write key m)
  | _, _, _ => die HOom
  end.

Definition cap_irq_route (g : Z) : M (option Z) :=
  G ← get_grant g;
  '(route, id) ← deref (irq_of (g_payload G));
  match route with
  | None => mret None
  | Some i => R ← get_route i; mret (if route_id R =? id then Some i else None)
  end.

Definition cap_iommu_requester (g : Z) : M Z := G ← get_grant g; deref (iommu_of (g_payload G)).

(** The status and, when it is 0, the token. *)
Definition cap_create_irq_route_locked (parent route : Z) : M (Z * option cap_token) :=
  P ← get_grant parent;
  if negb (g_type P =? KCAP_GRANT_IRQ_ROUTE) || g_dead P || negb (g_wildcard P) then mret (SYSERR_PERM, None)
  else
    og ← grant_new (Some parent) KCAP_GRANT_IRQ_ROUTE false;
    match og with
    | None => mret (SYSERR_NOMEM, None)
    | Some g =>
        R ← get_route route;
        _ ← mod_grant g (upd_g_payload (fun _ => GIrq (Some route) (route_id R)));
        key ← gets k_boot_key;
        mret (0, Some (token_write key g))
    end.

Definition cap_map_device (p token_ptr token_len flags : Z) : M Z :=
  if negb (token_len =? CAP_TOKEN_SIZE) then mret SYSERR_INVAL
  else
    ok ← user_range_ok p token_ptr token_len false;
    if negb ok then mret SYSERR_FAULT
    else
      bs ← load_bytes token_ptr 32;
      _ ← umem_lock;
      '(rc, og) ← token_resolve (decode_token bs) true KCAP_GRANT_DEVMEM;
      rc ← match og with
           | None => mret rc
           | Some g =>
               G ← get_grant g;
               '(base, len, gflags) ← deref (devmem_of (g_payload G));
               if g_wildcard G || nz (Z.ldiff flags gflags) then mret SYSERR_PERM
               else umem_map_device_locked p base len flags
           end;
      _ ← umem_unlock;
      mret rc.

End Capability.
