(* ===== verification/Irq.v ===== *)
(** * The interrupt scheme

    [schemes/irq.c]: the table of device vectors, their claims by rings, delivery,
    acknowledgement and the commands of scheme -4.  A [struct irq_route *] is the
    slot of the route in [g_routes]; the claims of a ring are the singly linked list
    through [q_next_claim].  Commands to the interrupt controllers are events of the
    hardware log.

    The walk along a ring's claims carries fuel, the number of slots of the table. *)

From S2P Require Import Prelude Buddy Paging Siphash PlatformMem Machine Sched Index Channel Umem Capability.

Section Irq.
Context {PT : PageTree} {SC : Schemes}.

Definition KSCHEME_IRQ : Z := -4.
Definition KIRQ_CLAIM : Z := 1.
Definition KIRQ_RELEASE : Z := 2.
Definition KIRQ_ACK : Z := 3.
Definition KIRQ_MSI : Z := 4.
Definition KIRQ_MSI_ADDR : Z := 5.
Definition KIRQ_MSI_PACK (route data : Z) : Z := Z.lor (Z.shiftl (u32 route) 32) (u32 data).
Definition KEV_IRQ : Z := KEV 5.

Definition irq_is_device_vector (vector : Z) : bool :=
  (VECTOR_DEVICE_BASE <=? vector) && (vector <=? VECTOR_DEVICE_END).

Definition x86_ioapic_mask (gsi : Z) : M unit := emit (EvIoapicMask gsi).
Definition x86_ioapic_unmask (gsi : Z) : M unit := emit (EvIoapicUnmask gsi).
Definition x86_ioapic_program (gsi vector apic : Z) : M bool :=
  ok ← gets (fun s => k_ioapic_ok s gsi);
  _ ← when ok (emit (EvIoapicProgram gsi vector apic));
  mret ok.
Definition x86_lapic_eoi : M unit := emit EvLapicEoi.

Definition set_ring (r : option Z) : irq_route -> irq_route := upd_q_ring (fun _ => r).
Definition set_posted (b : bool) : irq_route -> irq_route := upd_q_posted (fun _ => b).

(** The generation after this one; 0 is skipped. *)
Definition next_generation (g : Z) : Z := let g := u16 (g + 1) in if g =? 0 then 1 else g.

Definition route_for_id (id : Z) : M (option Z) :=
  direct ← (if id <? IRQ_ROUTE_COUNT then R ← get_route id; mret (q_present R) else mret false);
  if (direct : bool) then mret (Some id)
  else
    let idx := Z.land (u32 id) 0xffff in
    let generation := u16 (Z.shiftr (u32 id) 16) in
    if (IRQ_ROUTE_COUNT <=? idx) || (generation =? 0) then mret None
    else
      R ← get_route idx;
      mret (if q_allocated R && (q_generation R =? generation) then Some idx else None).

(** ** Events *)

Definition retire_locked (i : Z) : M unit :=
  R ← get_route i;
  match q_ring R with
  | Some r =>
      if q_posted R then
        consumed ← cqe_consumed r (q_ev_index R);
        when consumed (mod_route i (set_posted false))
      else skip
  | None => skip
  end.

Definition post_pending_locked (i : Z) : M unit :=
  _ ← retire_locked i;
  R ← get_route i;
  match q_ring R with
  | None => skip
  | Some r =>
      if q_posted R || (q_raised R =? q_acked R) then skip
      else
        index ← channel_post_data r KEV_IRQ (q_cookie R) (q_raised R) 0;
        match index with
        | None => skip
        | Some index =>
            _ ← mod_route i (set_posted true);
            mod_route i (upd_q_ev_index (fun _ => index))
        end
  end.

(** [gsi_info] is what [x86_ioapic_gsi_info] reports for each pin. *)
Definition irq_scheme_init (gsi_info : Z -> option irq_trigger_mode) (apic_id : Z) : M unit :=
  _ ← modify (upd_k_bsp_apic_id (fun _ => apic_id));
  modify (upd_k_routes (fun _ =>
    (fun gsi => IrqRoute None None 0 0 0 0 gsi (default IRQ_TRIGGER_EDGE (gsi_info gsi)) 0
                  (bool_decide (is_Some (gsi_info gsi))) false false false) <$> seqZ 0 IRQ_ROUTE_COUNT)).

Definition irq_deliver (vector : Z) : M unit :=
  let i := vector - VECTOR_DEVICE_BASE in
  _ ← lock (LRoute i);
  R ← get_route i;
  match q_ring R with
  | None =>
      _ ← when (q_present R) (x86_ioapic_mask (q_gsi R));
      _ ← mod_route i (upd_q_spurious_logged (fun _ => true));
      _ ← unlock (LRoute i);
      x86_lapic_eoi
  | Some _ =>
      _ ← when (bool_decide (q_mode R = IRQ_TRIGGER_LEVEL)) (x86_ioapic_mask (q_gsi R));
      _ ← mod_route i (upd_q_raised (fun n => u64 (n + 1)));
      _ ← post_pending_locked i;
      _ ← unlock (LRoute i);
      x86_lapic_eoi
  end.

(** ** Commands *)

Definition claim (r : Z) (route : option Z) (cookie : Z) : M Z :=
  match route with
  | None => mret SYSERR_INVAL
  | Some i =>
      R0 ← get_route i;
      let gsi := q_gsi R0 in
      N ← get_ring r;
      if r_nslots N <? u32 (2 * (r_nclaims N + 1)) then mret SYSERR_NOMEM
      else
        _ ← lock (LRoute i);
        R ← get_route i;
        if bool_decide (is_Some (q_ring R)) then _ ← unlock (LRoute i); mret SYSERR_EXIST
        else
          apic ← gets k_bsp_apic_id;
          ok ← x86_ioapic_program gsi (u8 (VECTOR_DEVICE_BASE + gsi)) apic;
          if negb ok then _ ← unlock (LRoute i); mret SYSERR_INVAL
          else
            _ ← mod_route i (fun R =>
                  upd_q_cookie (fun _ => cookie) (upd_q_raised (fun _ => 0) (upd_q_acked (fun _ => 0)
                    (set_posted false (upd_q_spurious_logged (fun _ => false) (set_ring (Some r)
                      (upd_q_next_claim (fun _ => r_irq_claims N) R)))))));
            _ ← mod_ring r (upd_r_irq_claims (fun _ => Some i));
            _ ← mod_ring r (upd_r_nclaims (fun n => u32 (n + 1)));
            _ ← x86_ioapic_unmask gsi;
            _ ← unlock (LRoute i);
            mret 0
  end.

(** The search for the link that points at [i]: the route before it, [None] for the
    head of the list; [Some] when it is found. *)
Fixpoint claim_link (fuel : nat) (prev : option Z) (at_ : option Z) (i : Z) : M (option (option Z)) :=
  match at_ with
  | None => mret None
  | Some a =>
      if a =? i then mret (Some prev)
      else
        match fuel with
        | O => die HSpin
        | S fuel => R ← get_route a; claim_link fuel (Some a) (q_next_claim R) i
        end
  end.

Definition claim_unlink (r i : Z) : M unit :=
  N ← get_ring r;
  link ← claim_link (Z.to_nat IRQ_ROUTE_COUNT) None (r_irq_claims N) i;
  _ ← asserts (bool_decide (is_Some link)) "irq: claim missing from ring";
  prev ← deref link;
  R ← get_route i;
  _ ← match prev with
      | None => mod_ring r (upd_r_irq_claims (fun _ => q_next_claim R))
      | Some a => mod_route a (upd_q_next_claim (fun _ => q_next_claim R))
      end;
  _ ← mod_route i (upd_q_next_claim (fun _ => None));
  mod_ring r (upd_r_nclaims (fun n => u32 (n - 1))).

(** An MSI slot that is given up gets a new generation. *)
Definition retire_slot (R : irq_route) : irq_route :=
  if q_present R then R
  else upd_q_allocated (fun _ => false) (upd_q_generation next_generation R).

Definition release (r gsi : Z) : M Z :=
  oi ← route_for_id gsi;
  match oi with
  | None => mret SYSERR_INVAL
  | Some i =>
      _ ← lock (LRoute i);
      R ← get_route i;
      if negb (bool_decide (q_ring R = Some r)) then _ ← unlock (LRoute i); mret SYSERR_INVAL
      else
        _ ← when (q_present R) (x86_ioapic_mask (q_gsi R));
        _ ← mod_route i (fun R => retire_slot (set_posted false (set_ring None R)));
        _ ← unlock (LRoute i);
        _ ← claim_unlink r i;
        mret 0
  end.

Definition ack (r gsi seq : Z) : M Z :=
  oi ← route_for_id gsi;
  match oi with
  | None => mret SYSERR_INVAL
  | Some i =>
      _ ← lock (LRoute i);
      R ← get_route i;
      if negb (bool_decide (q_ring R = Some r)) then _ ← unlock (LRoute i); mret SYSERR_INVAL
      else
        _ ← mod_route i (upd_q_acked (fun _ => seq));
        _ ← when (bool_decide (q_mode R = IRQ_TRIGGER_LEVEL)) (x86_ioapic_unmask (q_gsi R));
        _ ← post_pending_locked i;
        _ ← unlock (LRoute i);
        mret 0
  end.

(** The scan for a free slot, from the last one down. *)
Fixpoint free_slot (i : nat) : M (option Z) :=
  match i with
  | O => mret None
  | S i =>
      R ← get_route (Z.of_nat i);
      if q_present R || q_allocated R then free_slot i else mret (Some (Z.of_nat i))
  end.

(** The slot as the allocation leaves it before its grant is made. *)
Definition allocated_slot (r : Z) (claims : option Z) (R : irq_route) : irq_route :=
  let R := upd_q_allocated (fun _ => true) (upd_q_generation next_generation R) in
  let R := upd_q_mode (fun _ => IRQ_TRIGGER_EDGE) R in
  let R := upd_q_cookie (fun _ => route_id R) R in
  upd_q_raised (fun _ => 0) (upd_q_acked (fun _ => 0) (set_posted false (upd_q_spurious_logged (fun _ => false)
    (set_ring (Some r) (upd_q_next_claim (fun _ => claims) R))))).

Definition allocate_msi_on_ring (r : Z) (sqe : ksqe) : M (Z * ksqe) :=
  '(rc, parent) ← cap_verify_ring_locked r (sqe_a sqe) (sqe_b sqe) KCAP_GRANT_IRQ_ROUTE;
  B ← ring_block r;
  match parent with
  | None => mret (rc, sqe)
  | Some parent =>
      if (b_bytes B <? sqe_c sqe) || (b_bytes B - sqe_c sqe <? CAP_TOKEN_SIZE) then mret (SYSERR_INVAL, sqe)
      else
        N ← get_ring r;
        if r_nslots N <? u32 (2 * (r_nclaims N + 1)) then mret (SYSERR_NOMEM, sqe)
        else
          slot ← free_slot (Z.to_nat IRQ_ROUTE_COUNT);
          match slot with
          | None => mret (SYSERR_NOMEM, sqe)
          | Some i =>
              _ ← lock (LRoute i);
              _ ← mod_route i (allocated_slot r (r_irq_claims N));
              _ ← mod_ring r (upd_r_irq_claims (fun _ => Some i));
              _ ← mod_ring r (upd_r_nclaims (fun n => u32 (n + 1)));
              R ← get_route i;
              let id := route_id R in
              '(rc, token) ← cap_create_irq_route_locked parent i;
              match token with
              | None =>
                  _ ← mod_ring r (upd_r_irq_claims (fun _ => q_next_claim R));
                  _ ← mod_ring r (upd_r_nclaims (fun n => u32 (n - 1)));
                  _ ← mod_route i (fun R =>
                        upd_q_generation next_generation (upd_q_allocated (fun _ => false)
                          (set_ring None (upd_q_next_claim (fun _ => None) R))));
                  _ ← unlock (LRoute i);
                  mret (rc, sqe)
              | Some token =>
                  _ ← store_bytes (b_base B + sqe_c sqe) (encode_token token);
                  _ ← unlock (LRoute i);
                  mret (0, set_sqe_a id sqe)
              end
          end
  end.

Definition msi_address (route : option Z) (sqe : ksqe) : M (Z * ksqe) :=
  match route with
  | None => mret (SYSERR_INVAL, sqe)
  | Some i =>
      R ← get_route i;
      if q_present R then mret (SYSERR_INVAL, sqe)
      else
        _ ← lock (LRoute i);
        R ← get_route i;
        if negb (q_allocated R) then _ ← unlock (LRoute i); mret (SYSERR_INVAL, sqe)
        else
          apic ← gets k_bsp_apic_id;
          let data := u32 (VECTOR_DEVICE_BASE + q_gsi R) in
          _ ← unlock (LRoute i);
          mret (0, Ksqe (sqe_op sqe) (Z.lor 0xFEE00000 (Z.shiftl apic 12)) (KIRQ_MSI_PACK (route_id R) data) (sqe_c sqe))
  end.

Definition irq_exec (curr r : Z) (sqe : ksqe) : M (Z * ksqe) :=
  if sqe_op sqe =? KIRQ_CLAIM then
    '(rc, og) ← cap_verify_ring_locked r (sqe_a sqe) (sqe_b sqe) KCAP_GRANT_IRQ_ROUTE;
    match og with
    | None => mret (rc, sqe)
    | Some g => route ← cap_irq_route g; rc ← claim r route (sqe_c sqe); mret (rc, sqe)
    end
  else if sqe_op sqe =? KIRQ_RELEASE then rc ← release r (sqe_a sqe); mret (rc, sqe)
  else if sqe_op sqe =? KIRQ_ACK then rc ← ack r (sqe_a sqe) (sqe_b sqe); mret (rc, sqe)
  else if sqe_op sqe =? KIRQ_MSI then allocate_msi_on_ring r sqe
  else if sqe_op sqe =? KIRQ_MSI_ADDR then
    '(rc, og) ← cap_verify_ring_locked r (sqe_a sqe) (sqe_b sqe) KCAP_GRANT_IRQ_ROUTE;
    match og with
    | None => mret (rc, sqe)
    | Some g => route ← cap_irq_route g; msi_address route sqe
    end
  else mret (SYSERR_NOSYS, sqe).

Fixpoint replay_loop (fuel : nat) (r : Z) (at_ : option Z) : M unit :=
  match at_ with
  | None => skip
  | Some i =>
      match fuel with
      | O => die HSpin
      | S fuel =>
          _ ← lock (LRoute i);
          R ← get_route i;
          _ ← when (bool_decide (q_ring R = Some r)) (post_pending_locked i);
          _ ← unlock (LRoute i);
          replay_loop fuel r (q_next_claim R)
      end
  end.

Definition irq_replay (r : Z) : M unit :=
  N ← get_ring r; replay_loop (Z.to_nat IRQ_ROUTE_COUNT) r (r_irq_claims N).

Fixpoint destroy_loop (fuel : nat) (r : Z) : M unit :=
  N ← get_ring r;
  match r_irq_claims N with
  | None => skip
  | Some i =>
      match fuel with
      | O => die HSpin
      | S fuel =>
          _ ← lock (LRoute i);
          R ← get_route i;
          _ ← when (q_present R) (x86_ioapic_mask (q_gsi R));
          _ ← mod_ring r (upd_r_irq_claims (fun _ => q_next_claim R));
          _ ← mod_route i (fun R =>
                retire_slot (upd_q_next_claim (fun _ => None) (set_posted false (set_ring None R))));
          _ ← mod_ring r (upd_r_nclaims (fun n => u32 (n - 1)));
          _ ← unlock (LRoute i);
          destroy_loop fuel r
      end
  end.

Definition irq_endpoint_destroy (r : Z) : M unit := destroy_loop (Z.to_nat IRQ_ROUTE_COUNT) r.

Definition irq_ops : scheme_ops :=
  SchemeOps KSCHEME_IRQ None (Some irq_exec) (Some irq_replay) (Some irq_endpoint_destroy) None None.

End Irq.
