(* ===== verification/Iommu.v ===== *)
(** * DMA remapping

    [iommu.c], the domains of scheme -6, and [archsrc/x86_64/vtd.c], the second-level
    tables and context entries of the remapping unit.  The tables are the trees of
    Paging.v: a pointer to a child table is [Table], a leaf or an empty entry is
    [Word].  Following a leaf as if it were a table is [HDangling].

    The domain list [g_domains] and the lists through it are lists, newest first.  A
    pointer to a domain is its id, a pointer to a device its requester id, a pointer
    to a mapping its block together with its domain.  The registers of the unit are
    parts of the state: [vt_responds] is its answer to an invalidation, and the
    commands given to it are events of the hardware log.  The parsing of the DMAR
    table and the set-up of the unit ([vtd_init_required]) are not modelled.

    The loops over a range of pages carry as fuel the number of pages, the search for
    a hardware domain id the number of ids. *)

From S2P Require Import Prelude Buddy Paging Siphash PlatformMem Machine Sched Index Channel Umem Capability.

Section Vtd.
Context {PT : PageTree}.

Definition VTD_SL_READ : Z := 1.
Definition VTD_SL_WRITE : Z := 2.
Definition VTD_SL_PS : Z := Z.shiftl 1 7.
Definition VTD_ADDR_MASK : Z := 0x000FFFFFFFFFF000.
Definition HUGE_MASK : Z := Z.shiftl 2 20 - 1.

Definition get_vtd : M vtd := gets (fun s => io_vtd (k_iommu s)).
Definition mod_iommu (f : iommu -> iommu) : M unit := modify (upd_k_iommu f).
Definition mod_vtd (f : vtd -> vtd) : M unit := mod_iommu (upd_io_vtd f).

Definition domain_at (io : iommu) (d : Z) : option iommu_domain := List.find (fun D => dm_id D =? d) (io_domains io).
Definition get_domain (d : Z) : M iommu_domain := oD ← gets (fun s => domain_at (k_iommu s) d); deref oD.
Definition mod_domain (d : Z) (f : iommu_domain -> iommu_domain) : M unit :=
  _ ← get_domain d;
  mod_iommu (upd_io_domains (fmap (fun D => if dm_id D =? d then f D else D))).

(** ** Second-level tables ([vtd.c]) *)

Definition invalidate_all : M bool := _ ← emit EvVtdInvalidate; V ← get_vtd; mret (vt_responds V).

(** [entry & (VTD_SL_READ | VTD_SL_WRITE)]. *)
Definition sl_present (e : entry) : bool :=
  match e with Word w => nz (Z.land w (Z.lor VTD_SL_READ VTD_SL_WRITE)) | Table _ => true end.

(** The index of [iova] in a table of this level; the leaves are in level 1. *)
Definition sl_index (iova : Z) (level : nat) : nat := Z.to_nat (Z.land (Z.shiftr iova (12 + 9 * (Z.of_nat level - 1))) 0x1ff).

(** The way down through [n] tables from one of [level]; [false] when it ends early. *)
Fixpoint slpt_path (n level : nat) (t : list entry) (iova : Z) (allocate : bool) : M (list entry * bool) :=
  match n with
  | O => mret (t, true)
  | S n =>
      let i := sl_index iova level in
      e ← deref (t !! i);
      child ← (if negb (sl_present e) then
                 if negb allocate then mret None
                 else ok ← try_alloc; mret (if (ok : bool) then Some zero_table else None)
               else match e with Table c => mret (Some c) | Word _ => die HDangling end);
      match child with
      | None => mret (t, false)
      | Some c => '(c, ok) ← slpt_path n (pred level) c iova allocate; mret (<[i := Table c]> t, ok)
      end
  end.

(** The entry the way down ends at. *)
Fixpoint slpt_get (n level : nat) (t : list entry) (iova : Z) : option entry :=
  match n with
  | O => t !! sl_index iova level
  | S n => match t !! sl_index iova level with Some (Table c) => slpt_get n (pred level) c iova | _ => None end
  end.

Fixpoint slpt_put (n level : nat) (t : list entry) (iova : Z) (e : entry) : list entry :=
  match n with
  | O => <[sl_index iova level := e]> t
  | S n =>
      match t !! sl_index iova level with
      | Some (Table c) => <[sl_index iova level := Table (slpt_put n (pred level) c iova e)]> t
      | _ => t
      end
  end.

(** [slpt_entry]: whether there is an entry, which [leaf_read] and [leaf_write] then use. *)
Definition slpt_entry (d iova : Z) (target_level : nat) (allocate : bool) : M bool :=
  D ← get_domain d;
  '(t, ok) ← slpt_path (4 - target_level) 4 (dm_root D) iova allocate;
  _ ← mod_domain d (upd_dm_root (fun _ => t));
  mret ok.

Definition leaf_read (d iova : Z) (target_level : nat) : M entry :=
  D ← get_domain d; deref (slpt_get (4 - target_level) 4 (dm_root D) iova).

Definition leaf_write (d iova : Z) (target_level : nat) (w : Z) : M unit :=
  mod_domain d (upd_dm_root (fun t => slpt_put (4 - target_level) 4 t iova (Word w))).

(** The level of the leaf. *)
Definition leaf_level (huge : bool) : nat := if huge then 2 else 1.
Definition leaf_pages (huge : bool) : Z := if huge then 512 else 1.

Fixpoint domain_id_loop (fuel : nat) (V : vtd) (start : Z) : M (option vtd) :=
  if bool_decide (vt_next_domain V ∈ vt_domain_used V) then
    match fuel with
    | O => die HSpin
    | S fuel =>
        let next := u16 (vt_next_domain V + 1) in
        let next := if next =? 0 then 1 else next in
        let V := upd_vt_next_domain (fun _ => next) V in
        if next =? start then _ ← mod_vtd (fun _ => V); mret None else domain_id_loop fuel V start
    end
  else mret (Some V).

(** The id and the root of a new hardware domain. *)
Definition vtd_domain_init : M (option (Z * list entry)) :=
  V ← get_vtd;
  found ← domain_id_loop (Z.to_nat (2 ^ 16)) V (vt_next_domain V);
  match found with
  | None => mret None
  | Some V =>
      let id := vt_next_domain V in
      let next := u16 (id + 1) in
      _ ← mod_vtd (fun _ => upd_vt_domain_used (fun used => {[id]} ∪ used)
                              (upd_vt_next_domain (fun _ => if next =? 0 then 1 else next) V));
      if id =? 0 then mret None
      else
        ok ← try_alloc;
        if (ok : bool) then mret (Some (id, zero_table))
        else _ ← mod_vtd (upd_vt_domain_used (fun used => used ∖ {[id]})); mret None
  end.

Definition vtd_domain_destroy (id : Z) : M unit := mod_vtd (upd_vt_domain_used (fun used => used ∖ {[id]})).

Definition vtd_covers (segment : Z) : M bool := V ← get_vtd; mret (vt_regs V && (segment =? 0)).

(** The context table of the bus. *)
Definition context_for (bus : Z) (allocate : bool) : M (option (gmap Z (Z * Z))) :=
  V ← get_vtd;
  match vt_contexts V !! bus with
  | Some c => mret (Some c)
  | None =>
      if allocate then
        ok ← try_alloc;
        if (ok : bool) then _ ← mod_vtd (upd_vt_contexts (insert bus ∅)); mret (Some ∅) else mret None
      else mret None
  end.

Definition vtd_attach (d hw_id bus devfn : Z) : M bool :=
  ctx ← context_for bus true;
  match ctx with
  | None => mret false
  | Some c =>
      if bool_decide (is_Some (c !! devfn)) then mret false
      else
        _ ← mod_vtd (upd_vt_contexts (insert bus (<[devfn := (hw_id, d)]> c)));
        ok ← invalidate_all;
        _ ← asserts ok "vtd: runtime context invalidation timeout";
        mret true
  end.

Definition vtd_detach (bus devfn : Z) : M bool :=
  ctx ← context_for bus false;
  match ctx with
  | None => mret false
  | Some c =>
      if negb (bool_decide (is_Some (c !! devfn))) then mret false
      else
        _ ← mod_vtd (upd_vt_contexts (insert bus (delete devfn c)));
        ok ← invalidate_all;
        _ ← asserts ok "vtd: runtime detach invalidation timeout";
        mret true
  end.

(** Whether the next leaf of a range with [left] pages to go is a superpage. *)
Definition leaf_huge (superpage : bool) (iova left : Z) : bool :=
  superpage && (Z.land iova HUGE_MASK =? 0) && (512 <=? left).

Fixpoint mapping_leaves (fuel : nat) (superpage : bool) (iova pages : Z) : M Z :=
  if pages =? 0 then mret 0
  else
    match fuel with
    | O => die HSpin
    | S fuel =>
        let k := leaf_pages (leaf_huge superpage iova pages) in
        n ← mapping_leaves fuel superpage (u64 (iova + k * PAGE_SIZE)) (pages - k);
        mret (n + 1)
    end.

Definition vtd_mapping_leaves (iova pages : Z) : M Z :=
  V ← get_vtd; mapping_leaves (Z.to_nat pages) (vt_superpage_2m V) iova pages.

(** The map loop: the pages mapped. *)
Fixpoint map_loop (fuel : nat) (superpage : bool) (d iova phys pages bits mapped : Z) : M Z :=
  if pages <=? mapped then mret mapped
  else
    match fuel with
    | O => die HSpin
    | S fuel =>
        let at_ := iova + mapped * PAGE_SIZE in
        let to := phys + mapped * PAGE_SIZE in
        let huge := leaf_huge superpage at_ (pages - mapped) && (Z.land to HUGE_MASK =? 0) in
        ok ← slpt_entry d at_ (leaf_level huge) true;
        if negb ok then mret mapped
        else
          leaf ← leaf_read d at_ (leaf_level huge);
          if sl_present leaf then mret mapped
          else
            _ ← leaf_write d at_ (leaf_level huge)
                  (Z.lor (Z.lor (Z.land to VTD_ADDR_MASK) bits) (if huge then VTD_SL_PS else 0));
            map_loop fuel superpage d iova phys pages bits (mapped + leaf_pages huge)
    end.

Fixpoint rollback_loop (fuel : nat) (superpage : bool) (d iova mapped i : Z) : M unit :=
  if mapped <=? i then skip
  else
    match fuel with
    | O => die HSpin
    | S fuel =>
        let at_ := iova + i * PAGE_SIZE in
        let huge := leaf_huge superpage at_ (mapped - i) in
        ok ← slpt_entry d at_ (leaf_level huge) false;
        _ ← when ok (leaf_write d at_ (leaf_level huge) 0);
        rollback_loop fuel superpage d iova mapped (i + leaf_pages huge)
    end.

Definition vtd_map (d iova phys pages permissions : Z) : M bool :=
  let bits := Z.lor (if has permissions 1 then VTD_SL_READ else 0) (if has permissions 2 then VTD_SL_WRITE else 0) in
  if (Z.shiftl 1 48 <=? iova) || (Z.shiftl 1 48 <=? phys) || ((Z.shiftl 1 48 - iova) / PAGE_SIZE <? pages) then mret false
  else
    V ← get_vtd;
    let superpage := vt_superpage_2m V in
    mapped ← map_loop (Z.to_nat pages) superpage d iova phys pages bits 0;
    if negb (mapped =? pages) then
      _ ← rollback_loop (Z.to_nat pages) superpage d iova mapped 0;
      ok ← invalidate_all;
      _ ← asserts ok "vtd: rollback invalidation timeout";
      mret false
    else
      ok ← invalidate_all;
      _ ← asserts ok "vtd: runtime map invalidation timeout";
      mret true.

Fixpoint unmap_loop (fuel : nat) (superpage : bool) (d iova pages i : Z) : M bool :=
  if pages <=? i then mret true
  else
    match fuel with
    | O => die HSpin
    | S fuel =>
        let at_ := iova + i * PAGE_SIZE in
        let huge := leaf_huge superpage at_ (pages - i) in
        ok ← slpt_entry d at_ (leaf_level huge) false;
        if negb ok then mret false
        else
          leaf ← leaf_read d at_ (leaf_level huge);
          if negb (sl_present leaf) then mret false
          else
            _ ← leaf_write d at_ (leaf_level huge) 0;
            unmap_loop fuel superpage d iova pages (i + leaf_pages huge)
    end.

Definition vtd_unmap (d iova pages : Z) : M bool :=
  V ← get_vtd;
  ok ← unmap_loop (Z.to_nat pages) (vt_superpage_2m V) d iova pages 0;
  if negb ok then mret false
  else
    ok ← invalidate_all;
    _ ← asserts ok "vtd: runtime unmap invalidation timeout";
    mret true.

End Vtd.

Section Iommu.
Context {PT : PageTree} {SC : Schemes}.

(** ** Domains and devices ([iommu.c]) *)

Definition IOMMU_MAX_DOMAINS : Z := 64.
Definition IOMMU_MAX_DEVICES : Z := 256.
Definition IOMMU_MAX_MAPPINGS : Z := 1024.
Definition IOMMU_MAX_MAPPING_LEAVES : Z := 512.
Definition KSCHEME_IOMMU : Z := -6.
Definition KIOMMU_DOMAIN_CREATE : Z := 1.
Definition KIOMMU_DOMAIN_DESTROY : Z := 2.
Definition KIOMMU_DEVICE_ATTACH : Z := 3.
Definition KIOMMU_DEVICE_DETACH : Z := 4.
Definition KIOMMU_MAP_BLOCK : Z := 5.
Definition KIOMMU_UNMAP_BLOCK : Z := 6.
Definition KEV_IOMMU_FAULT : Z := KEV 6.
Definition IOMMU_FAULT_CONTEXT_MISSING : Z := 1.
Definition IOMMU_FAULT_PTE_MISSING : Z := 2.
Definition IOMMU_FAULT_ACCESS_WRITE : Z := Z.shiftl 1 8.

Definition get_iommu : M iommu := gets k_iommu.

Definition find_domain (r cookie : Z) : M (option Z) :=
  io ← get_iommu;
  mret (option_map dm_id (List.find (fun D => (dm_ring D =? r) && (dm_cookie D =? cookie)) (io_domains io))).

(** The domain of the device, and the device. *)
Definition device_at (io : iommu) (encoded : Z) : option (Z * iommu_device) :=
  List.find (fun p => dv_encoded p.2 =? encoded) (D ← io_domains io; (fun v => (dm_id D, v)) <$> dm_devices D).
Definition find_device (encoded : Z) : M (option (Z * iommu_device)) := gets (fun s => device_at (k_iommu s) encoded).

Definition mod_device (encoded : Z) (f : iommu_device -> iommu_device) : M unit :=
  ov ← find_device encoded;
  '(d, _) ← deref ov;
  mod_domain d (upd_dm_devices (fmap (fun v => if dv_encoded v =? encoded then f v else v))).

(** Segment, bus and devfn. *)
Definition decode_id (encoded : Z) : M (option (Z * Z * Z)) :=
  if nz (Z.shiftr encoded 32) then mret None
  else
    let segment := u16 (Z.shiftr encoded 16) in
    ok ← vtd_covers segment;
    mret (if (ok : bool) then Some (segment, u8 (Z.shiftr encoded 8), u8 encoded) else None).

Definition domain_create (r cookie : Z) : M Z :=
  io ← get_iommu;
  if negb (io_live io) || (cookie =? 0) then mret SYSERR_INVAL
  else
    found ← find_domain r cookie;
    if bool_decide (is_Some found) then mret SYSERR_EXIST
    else if io_ndomains io =? IOMMU_MAX_DOMAINS then mret SYSERR_NOMEM
    else
      ok ← try_alloc;
      hw ← (if (ok : bool) then vtd_domain_init else mret None);
      match hw with
      | None => mret SYSERR_NOMEM
      | Some (hw_id, root) =>
          io ← get_iommu;
          let id := io_next_domain_id io in
          _ ← mod_iommu (upd_io_next_domain_id (fun n => u64 (n + 1)));
          _ ← asserts (negb (id =? 0)) "iommu: domain id space exhausted";
          _ ← mod_iommu (upd_io_domains (cons (IommuDomain r id cookie hw_id root [] [])));
          _ ← mod_iommu (upd_io_ndomains (fun n => u32 (n + 1)));
          mret 0
      end.

Definition remove_domain (d : Z) : M unit := mod_iommu (upd_io_domains (List.filter (fun D => negb (dm_id D =? d)))).

Definition domain_destroy (r cookie : Z) : M Z :=
  od ← find_domain r cookie;
  match od with
  | None => mret SYSERR_INVAL
  | Some d =>
      D ← get_domain d;
      match dm_devices D, dm_mappings D with
      | [], [] =>
          _ ← remove_domain d;
          _ ← vtd_domain_destroy (dm_hw_id D);
          _ ← mod_iommu (upd_io_ndomains (fun n => u32 (n - 1)));
          mret 0
      | _, _ => mret SYSERR_EXIST
      end
  end.

Definition set_fault_device (encoded : Z) (v : option Z) : M unit :=
  _ ← lock LFault;
  _ ← mod_iommu (upd_io_fault_devices (partial_alter (fun _ => v) (u16 encoded)));
  unlock LFault.

Definition device_attach (d encoded fault_cookie : Z) : M Z :=
  oid ← decode_id encoded;
  match oid with
  | None => mret SYSERR_INVAL
  | Some (segment, bus, devfn) =>
      found ← find_device encoded;
      if bool_decide (is_Some found) then mret SYSERR_EXIST
      else
        io ← get_iommu;
        if io_ndevices io =? IOMMU_MAX_DEVICES then mret SYSERR_NOMEM
        else
          D ← get_domain d;
          let ring_devices := sum_list ((fun D' => if dm_ring D' =? dm_ring D then length (dm_devices D') else 0%nat) <$> io_domains io) in
          N ← get_ring (dm_ring D);
          if r_nslots N <? u32 (2 * (Z.of_nat ring_devices + 1)) then mret SYSERR_NOMEM
          else
            ok ← try_alloc;
            if negb ok then mret SYSERR_NOMEM
            else
              ok ← vtd_attach d (dm_hw_id D) bus devfn;
              if negb ok then mret SYSERR_INVAL
              else
                _ ← mod_domain d (upd_dm_devices (cons (IommuDevice segment bus devfn encoded fault_cookie 0 0 0 0 0 false)));
                _ ← set_fault_device encoded (Some encoded);
                _ ← mod_iommu (upd_io_ndevices (fun n => u32 (n + 1)));
                mret 0
  end.

Definition device_detach (d encoded : Z) : M Z :=
  D ← get_domain d;
  match List.find (fun v => dv_encoded v =? encoded) (dm_devices D) with
  | None => mret SYSERR_INVAL
  | Some v =>
      _ ← set_fault_device (dv_encoded v) None;
      ok ← vtd_detach (dv_bus v) (dv_devfn v);
      _ ← asserts ok "iommu: context invalidation failed";
      _ ← mod_domain d (upd_dm_devices (List.filter (fun v => negb (dv_encoded v =? encoded))));
      _ ← mod_iommu (upd_io_ndevices (fun n => u32 (n - 1)));
      mret 0
  end.

(** ** Faults *)

Definition fault_retire_and_post_locked (encoded : Z) : M unit :=
  ov ← find_device encoded;
  match ov with
  | None => skip
  | Some (d, v) =>
      D ← get_domain d;
      consumed ← (if dv_fault_posted v then cqe_consumed (dm_ring D) (dv_ev_index v) else mret false);
      _ ← when consumed (mod_device encoded (upd_dv_fault_posted (fun _ => false)));
      if (dv_fault_posted v && negb consumed) || (dv_posted_count v =? dv_fault_count v) then skip
      else
        index ← channel_post_data (dm_ring D) KEV_IOMMU_FAULT (dv_fault_cookie v) (dv_last_iova v) (dv_last_reason v);
        match index with
        | None => skip
        | Some index =>
            _ ← mod_device encoded (upd_dv_fault_posted (fun _ => true));
            _ ← mod_device encoded (upd_dv_ev_index (fun _ => index));
            mod_device encoded (fun v => upd_dv_posted_count (fun _ => dv_fault_count v) v)
        end
  end.

Definition iommu_report_fault (requester iova reason : Z) : M unit :=
  if nz (Z.shiftr requester 16) then skip
  else
    _ ← lock LFault;
    io ← get_iommu;
    _ ← match io_fault_devices io !! u16 requester with
        | None => skip
        | Some encoded =>
            _ ← mod_device encoded (upd_dv_fault_count (fun n => u64 (n + 1)));
            _ ← mod_device encoded (upd_dv_last_iova (fun _ => iova));
            _ ← mod_device encoded (upd_dv_last_reason (fun _ => reason));
            fault_retire_and_post_locked encoded
        end;
    unlock LFault.

(** The fault records in turn; a record is cleared by writing its valid bit. *)
Fixpoint fault_loop (n i : nat) : M unit :=
  match n with
  | O => skip
  | S n =>
      V ← get_vtd;
      '(lo, hi) ← deref (vt_faults V !! i);
      _ ← (if Z.testbit hi 63 then
             let iova := Z.ldiff lo 0xfff in
             let hw_reason := u8 (Z.shiftr hi 32) in
             let reason := if (hw_reason =? 1) || (hw_reason =? 2) then IOMMU_FAULT_CONTEXT_MISSING else IOMMU_FAULT_PTE_MISSING in
             let reason := if Z.testbit hi 62 then Z.lor reason IOMMU_FAULT_ACCESS_WRITE else reason in
             _ ← iommu_report_fault (u16 hi) iova reason;
             mod_vtd (upd_vt_faults (insert i (lo, Z.clearbit hi 63)))
           else skip);
      fault_loop n (S i)
  end.

Definition vtd_fault_interrupt : M unit :=
  V ← get_vtd;
  _ ← fault_loop (length (vt_faults V)) 0;
  V ← get_vtd;
  when (nz (vt_fsts V)) (emit EvVtdStatus).

Definition iommu_replay (r : Z) : M unit :=
  _ ← lock LFault;
  io ← get_iommu;
  _ ← iterM (fun D => when (dm_ring D =? r) (iterM (fun v => fault_retire_and_post_locked (dv_encoded v)) (dm_devices D))) (io_domains io);
  unlock LFault.

(** ** Mappings *)

(** The mapping of [d] whose block starts at [base]. *)
Fixpoint find_mapping (bs : list Z) (base : Z) : M (option Z) :=
  match bs with
  | [] => mret None
  | b :: bs => B ← get_block b; if b_base B =? base then mret (Some b) else find_mapping bs base
  end.

Definition map_block (p d base permissions : Z) : M Z :=
  if (permissions =? 0) || nz (Z.ldiff permissions 3) then mret SYSERR_INVAL
  else
    D ← get_domain d;
    found ← find_mapping (dm_mappings D) base;
    if bool_decide (is_Some found) then mret SYSERR_EXIST
    else
      io ← get_iommu;
      if io_nmappings io =? IOMMU_MAX_MAPPINGS then mret SYSERR_NOMEM
      else
        _ ← umem_proc_lock p;
        ob ← umem_view_locked p base 1;
        oB ← match ob with
             | None => mret None
             | Some b =>
                 B ← get_block b;
                 mret (if negb (b_base B =? base) || negb (bool_decide (b_backing B = UBLOCK_RAM)) || bool_decide (is_Some (b_ring B))
                       then None else Some (b, B))
             end;
        match oB with
        | None => _ ← umem_proc_unlock p; mret SYSERR_INVAL
        | Some (b, B) =>
            let pages := Z.shiftl 1 (b_order B) in
            leaves ← vtd_mapping_leaves base pages;
            if IOMMU_MAX_MAPPING_LEAVES <? leaves then _ ← umem_proc_unlock p; mret SYSERR_NOMEM
            else
              _ ← umem_proc_unlock p;
              ok ← try_alloc;
              ok ← (if negb ok then mret false else if bool_decide (b_dma_maps B = None) then try_alloc else mret true);
              if negb ok then mret SYSERR_NOMEM
              else
                ok ← vtd_map d base base pages permissions;
                if negb ok then mret SYSERR_NOMEM
                else
                  let maps := default ∅ (b_dma_maps B) in
                  if bool_decide (is_Some (maps !! d)) then
                    _ ← vtd_unmap d base pages; mret SYSERR_NOMEM
                  else
                    _ ← mod_block b (upd_b_dma_maps (fun _ => Some (<[d := permissions]> maps)));
                    _ ← mod_domain d (upd_dm_mappings (cons b));
                    _ ← mod_iommu (upd_io_nmappings (fun n => u32 (n + 1)));
                    mret 0
        end.

(** The mapping of block [b] in domain [d] leaves the domain's list and the tree. *)
Definition unlink_mapping (d b : Z) : M unit :=
  _ ← mod_domain d (upd_dm_mappings (List.filter (fun b' => negb (b' =? b))));
  B ← get_block b;
  _ ← asserts (bool_decide (is_Some (maps ← b_dma_maps B; maps !! d))) "iommu: block mapping missing";
  mod_block b (upd_b_dma_maps (fun o => maps ← o; let maps := delete d maps in if bool_decide (maps = ∅) then None else Some maps)).

Definition unmap_mapping (d b : Z) : M unit :=
  B ← get_block b;
  ok ← vtd_unmap d (b_base B) (Z.shiftl 1 (b_order B));
  _ ← asserts ok "iommu: IOTLB invalidation failed";
  _ ← unlink_mapping d b;
  mod_iommu (upd_io_nmappings (fun n => u32 (n - 1))).

Definition unmap_block (d base : Z) : M Z :=
  D ← get_domain d;
  ob ← find_mapping (dm_mappings D) base;
  match ob with
  | None => mret SYSERR_INVAL
  | Some b => _ ← unmap_mapping d b; mret 0
  end.

(** ** The scheme *)

Definition SIZEOF_KIOMMU_ATTACH_REQ : Z := 32.

Definition iommu_exec_rc (curr r : Z) (sqe : ksqe) : M Z :=
  let on_domain k := od ← find_domain r (sqe_a sqe); match od with None => mret SYSERR_INVAL | Some d => k d end in
  if sqe_op sqe =? KIOMMU_DOMAIN_CREATE then
    if (sqe_b sqe =? 0) && (sqe_c sqe =? 0) then domain_create r (sqe_a sqe) else mret SYSERR_INVAL
  else if sqe_op sqe =? KIOMMU_DOMAIN_DESTROY then domain_destroy r (sqe_a sqe)
  else if sqe_op sqe =? KIOMMU_DEVICE_ATTACH then
    B ← ring_block r;
    if (b_bytes B <? sqe_a sqe) || (b_bytes B - sqe_a sqe <? SIZEOF_KIOMMU_ATTACH_REQ) then mret SYSERR_INVAL
    else
      bs ← load_bytes (b_base B + sqe_a sqe) (Z.to_nat SIZEOF_KIOMMU_ATTACH_REQ);
      let w64 i := le_decode (take 8 (drop i bs)) in
      od ← find_domain r (w64 0%nat);
      match od with
      | None => mret SYSERR_INVAL
      | Some d =>
          '(rc, og) ← cap_verify_ring_locked r (w64 8%nat) (w64 16%nat) KCAP_GRANT_IOMMU_DEV;
          match og with
          | None => mret rc
          | Some g => q ← cap_iommu_requester g; device_attach d q (w64 24%nat)
          end
      end
  else if sqe_op sqe =? KIOMMU_DEVICE_DETACH then on_domain (fun d => device_detach d (sqe_b sqe))
  else if sqe_op sqe =? KIOMMU_MAP_BLOCK then
    on_domain (fun d => C ← get_thread curr; map_block (t_proc C) d (sqe_b sqe) (u32 (sqe_c sqe)))
  else if sqe_op sqe =? KIOMMU_UNMAP_BLOCK then on_domain (fun d => unmap_block d (sqe_b sqe))
  else mret SYSERR_NOSYS.

Definition iommu_exec (curr r : Z) (sqe : ksqe) : M (Z * ksqe) := rc ← iommu_exec_rc curr r sqe; mret (rc, sqe).

Definition iommu_endpoint_destroyable (r : Z) : M bool := mret true.

Fixpoint detach_devices (fuel : nat) (d : Z) : M unit :=
  D ← get_domain d;
  match dm_devices D with
  | [] => skip
  | v :: _ => match fuel with O => die HSpin | S fuel => _ ← device_detach d (dv_encoded v); detach_devices fuel d end
  end.

Fixpoint unmap_all_loop (fuel : nat) (d : Z) : M unit :=
  D ← get_domain d;
  match dm_mappings D with
  | [] => skip
  | b :: _ => match fuel with O => die HSpin | S fuel => _ ← unmap_mapping d b; unmap_all_loop fuel d end
  end.

(** The domains of the ring in turn; [ds] are the domains from the link on. *)
Fixpoint endpoint_loop (ds : list iommu_domain) (r : Z) : M unit :=
  match ds with
  | [] => skip
  | D :: ds =>
      _ ← (if dm_ring D =? r then
             _ ← detach_devices (length (dm_devices D)) (dm_id D);
             _ ← unmap_all_loop (length (dm_mappings D)) (dm_id D);
             _ ← remove_domain (dm_id D);
             _ ← vtd_domain_destroy (dm_hw_id D);
             mod_iommu (upd_io_ndomains (fun n => u32 (n - 1)))
           else skip);
      endpoint_loop ds r
  end.

Definition iommu_endpoint_destroy (r : Z) : M unit := io ← get_iommu; endpoint_loop (io_domains io) r.

Definition iommu_ops : scheme_ops :=
  SchemeOps KSCHEME_IOMMU None (Some iommu_exec) (Some iommu_replay) (Some iommu_endpoint_destroy) (Some iommu_ch)
    (Some iommu_endpoint_destroyable).

(** ** Enumeration and revocation *)

Definition iommu_enum_maps (caller base buf cap after : Z) : M Z :=
  if (cap =? 0) || (VM_ENUM_BATCH <? cap) then mret SYSERR_INVAL
  else
    _ ← umem_lock;
    ob ← umem_resource_block_locked caller base;
    match ob with
    | None => _ ← umem_unlock; mret SYSERR_PERM
    | Some b =>
        B ← get_block b;
        let vals := match b_dma_maps B with None => [] | Some maps => keys_after maps after (Z.to_nat cap) end in
        rc ← umem_enum_copyout_locked caller buf cap vals;
        _ ← umem_unlock;
        mret rc
    end.

Definition iommu_revoke_map (caller base domain_id : Z) : M Z :=
  _ ← umem_lock;
  ob ← umem_resource_block_locked caller base;
  match ob with
  | None => _ ← umem_unlock; mret SYSERR_PERM
  | Some b =>
      B ← get_block b;
      if bool_decide (is_Some (maps ← b_dma_maps B; maps !! domain_id)) then
        _ ← unmap_mapping domain_id b;
        _ ← umem_unlock;
        mret 0
      else _ ← umem_unlock; mret SYSERR_INVAL
  end.

End Iommu.
