(* ===== verification/Syscall.v ===== *)
(** * Kernel entry: futex calls, syscalls, the scheduler loop and interrupts

    The syscall backends of [futex.c], the dispatcher [syscall_entry] and its helpers
    of [syscall.c], the rounds of [scheduler_loop] and [interrupt_handler] of
    [archsrc/x86_64/interrupts.c].

    [kernel_schemes] is the table of schemes of the kernel.  The scheduler loop is cut
    where it gives the processor away: [scheduler_top] runs from the top of the loop
    to the switch into a thread, the halt, or the next round; [scheduler_wake] follows
    the halt and [scheduler_back] follows the return of [switch_context].  A syscall
    that does not come back to its caller ends in [Park]. *)

From S2P Require Import Prelude Buddy Paging Siphash PlatformMem Machine Sched Index Channel Umem Process Capability Irq Iommu.

(** The table [g_schemes]. *)
Definition kernel_schemes {PT : PageTree} : Schemes := [cap_ops; shares_ops; tree_ops; irq_ops; iommu_ops].

Section Futex.
Context {PT : PageTree} {SC : Schemes}.

(** ** Futex syscalls ([futex.c]) *)

Definition FUTEX_REQUEUE_BATCH : Z := 16.

Definition futex_sys_wake (curr addr count : Z) : M Z :=
  C ← get_thread curr;
  let p := t_proc C in
  _ ← umem_proc_lock p;
  ob ← umem_view_locked p addr 1;
  is_ring ← match ob with
            | None => mret false
            | Some b => B ← get_block b; mret (bool_decide (is_Some (b_ring B)))
            end;
  _ ← umem_proc_unlock p;
  match ob with
  | None => mret SYSERR_INVAL
  | Some _ => if (is_ring : bool) then channel_ring_drain curr addr else wake_batch addr count
  end.

(** [atomic_fetch_add(&g_futex_seq, 1)]. *)
Definition next_futex_seq : M Z :=
  n ← gets k_futex_seq; _ ← modify (upd_k_futex_seq (fun n => u64 (n + 1))); mret n.

(** The part under the bucket lock: [Some rc] to return, [None] to park. *)
Definition futex_enqueue (curr bk addr expected deadline : Z) : M (option Z) :=
  word ← load32 addr;
  if negb (word =? u32 expected) then mret (Some SYSERR_AGAIN)
  else
    seq ← next_futex_seq;
    let key := (addr, seq) in
    ok ← try_alloc;
    w ← gets (fun s => waiters s bk);
    if negb ok || bool_decide (is_Some (w !! key)) then mret (Some SYSERR_NOMEM)
    else
      _ ← set_waiters bk (insert key curr);
      _ ← mod_thread curr (upd_t_wait_key (fun _ => key));
      _ ← mod_thread curr (upd_t_deadline (fun _ => 0));
      armed ← (if deadline =? 0 then mret true else timer_deadline_arm curr deadline);
      if negb armed then
        w ← gets (fun s => waiters s bk);
        _ ← asserts (bool_decide (is_Some (w !! key))) "futex: failed park rollback";
        _ ← set_waiters bk (delete key);
        mret (Some SYSERR_NOMEM)
      else
        _ ← mod_thread curr (upd_t_wake_state (fun _ => FUTEX_PARKED));
        mret None.

Definition futex_sys_wait (curr addr expected wake_addr deadline : Z) : M Z :=
  if negb (addr mod 4 =? 0) then mret SYSERR_INVAL
  else
    _ ← when (negb (wake_addr =? 0)) (_ ← futex_sys_wake curr wake_addr 1; skip);
    C ← get_thread curr;
    let p := t_proc C in
    _ ← umem_proc_lock p;
    dead ← process_is_dead p;
    if (dead : bool) then _ ← umem_proc_unlock p; uthread_park_exit
    else
      ok ← user_range_ok p addr 4 false;
      if negb ok then _ ← umem_proc_unlock p; mret SYSERR_INVAL
      else
        bk ← bucket_of addr;
        _ ← lock (LBucket bk);
        rc ← futex_enqueue curr bk addr expected deadline;
        _ ← unlock (LBucket bk);
        _ ← umem_proc_unlock p;
        match rc with
        | Some rc => mret rc
        | None => uthread_park_blocked
        end.

(** The move loop; [moved] counts the waiters relinked so far. *)
Fixpoint requeue_loop (fuel : nat) (bfrom bto from to cap next_seq moved : Z) : M Z :=
  if cap <=? moved then mret moved
  else
    match fuel with
    | O => die HSpin
    | S fuel =>
        w ← gets (fun s => waiters s bfrom);
        match lower_bound w (from, next_seq) with
        | None => mret moved
        | Some (key, t) =>
            if negb (key.1 =? from) then mret moved
            else
              let next_seq := u64 (key.2 + 1) in
              T ← get_thread t;
              if bool_decide (t_wake_state T = FUTEX_PARKED) then
                _ ← mod_thread t (upd_t_wake_state (fun _ => FUTEX_MOVING));
                _ ← futex_remove bfrom key t "futex: bucket tree lost moving waiter";
                seq ← next_futex_seq;
                let newkey := (to, seq) in
                _ ← mod_thread t (upd_t_wait_key (fun _ => newkey));
                w ← gets (fun s => waiters s bto);
                _ ← asserts (bool_decide (w !! newkey = None)) "futex: requeue relink collided";
                _ ← set_waiters bto (insert newkey t);
                _ ← mod_thread t (upd_t_wake_state (fun _ => FUTEX_PARKED));
                requeue_loop fuel bfrom bto from to cap next_seq (moved + 1)
              else requeue_loop fuel bfrom bto from to cap next_seq moved
        end
    end.

Definition futex_sys_requeue (curr from to expected count : Z) : M Z :=
  if negb (from mod 4 =? 0) || negb (to mod 4 =? 0) || (from =? to) then mret SYSERR_INVAL
  else
    C ← get_thread curr;
    let p := t_proc C in
    _ ← umem_proc_lock p;
    ok ← (ok ← user_range_ok p from 4 false;
          if negb ok then mret false else user_range_ok p to 4 false);
    if negb ok then _ ← umem_proc_unlock p; mret SYSERR_INVAL
    else
      bfrom ← bucket_of from;
      bto ← bucket_of to;
      let lo := if bfrom <? bto then bfrom else bto in
      let hi := if bfrom <? bto then bto else bfrom in
      _ ← lock (LBucket lo);
      _ ← when (negb (hi =? lo)) (lock (LBucket hi));
      word ← load32 from;
      rc ← (if negb (word =? u32 expected) then mret SYSERR_AGAIN
            else
              n ← gets (fun s => size (waiters s bfrom));
              requeue_loop (S n) bfrom bto from to
                (if count <? FUTEX_REQUEUE_BATCH then count else FUTEX_REQUEUE_BATCH) 0 0);
      _ ← when (negb (hi =? lo)) (unlock (LBucket hi));
      _ ← unlock (LBucket lo);
      _ ← umem_proc_unlock p;
      mret rc.

End Futex.

Section Syscall.
Context {PT : PageTree} {SC : Schemes}.

(** ** Numbers ([syscall.h]) *)

Definition SYS_DEBUG_WRITE : Z := 0.
Definition SYS_YIELD : Z := 1.
Definition SYS_GETPID : Z := 2.
Definition SYS_GETTID : Z := 3.
Definition SYS_GETTIME : Z := 4.
Definition SYS_VM_ALLOC : Z := 5.
Definition SYS_VM_FREE : Z := 6.
Definition SYS_VM_PROTECT : Z := 7.
Definition SYS_VM_SIZE : Z := 8.
Definition SYS_VM_SHARE : Z := 9.
Definition SYS_VM_DROPSHARE : Z := 10.
Definition SYS_VM_UNSHARE : Z := 11.
Definition SYS_VM_MOVE : Z := 12.
Definition SYS_VM_MAP_DEVICE : Z := 13.
Definition SYS_VM_SHARERS : Z := 14.
Definition SYS_VM_BLOCKS : Z := 15.
Definition SYS_VM_VIEWS : Z := 16.
Definition SYS_VM_DMA_MAPS : Z := 17.
Definition SYS_VM_DMA_REVOKE : Z := 18.
Definition SYS_FUTEX_WAKE : Z := 19.
Definition SYS_FUTEX_WAIT : Z := 20.
Definition SYS_FUTEX_REQUEUE : Z := 21.
Definition SYS_PROC_CREATE : Z := 22.
Definition SYS_THREAD_SPAWN : Z := 23.
Definition SYS_THREAD_BASES_SET : Z := 24.
Definition SYS_THREAD_EXIT : Z := 25.
Definition SYS_PROC_KILL : Z := 26.
Definition SYS_THREADS : Z := 27.
Definition SYS_THREAD_DESTROY : Z := 28.
Definition SYS_PROC_CHILDREN : Z := 29.
Definition SYS_PROC_DESTROY : Z := 30.
Definition SYS_PROC_EXIT : Z := 31.

Definition VM_PROT_READ : Z := 1.
Definition VM_PROT_WRITE : Z := 2.
Definition VM_PROT_EXEC : Z := 4.

(** ** Helpers ([syscall.c]) *)

Definition sys_debug_write (curr uptr len : Z) : M Z :=
  if 4096 <? len then mret SYSERR_INVAL
  else
    C ← get_thread curr;
    ok ← user_range_ok (t_proc C) uptr len false;
    if negb ok then mret SYSERR_FAULT
    else
      _ ← when (negb (len =? 0)) (
            bs ← load_bytes uptr (Z.to_nat len);
            iterM (fun c => emit (EvPutchar c)) bs);
      mret len.

Definition vm_prot_to_flags (prot : Z) : Z :=
  let flags := 0 in
  let flags := if has prot VM_PROT_READ then Z.lor flags PAGE_R else flags in
  let flags := if has prot VM_PROT_WRITE then Z.lor flags PAGE_W else flags in
  if has prot VM_PROT_EXEC then Z.lor flags PAGE_X else flags.

Definition vm_prot_ok (prot : Z) (allow_none : bool) : bool :=
  if nz (Z.ldiff prot 7) then false
  else if prot =? 0 then allow_none
  else has prot VM_PROT_READ.

Definition sys_vm_alloc (curr len prot : Z) : M Z :=
  if (len =? 0) || (Z.shiftl 64 20 <? len) || negb (vm_prot_ok prot false) then mret SYSERR_INVAL
  else
    C ← get_thread curr;
    base ← umem_alloc (t_proc C) len (vm_prot_to_flags prot);
    mret (if base =? 0 then SYSERR_NOMEM else base).

Definition sys_vm_free (curr base : Z) : M Z := C ← get_thread curr; umem_free (t_proc C) base.

Definition sys_vm_size (curr base : Z) : M Z :=
  C ← get_thread curr;
  bytes ← umem_size (t_proc C) base;
  mret (if bytes =? 0 then SYSERR_PERM else bytes).

Definition sys_vm_protect (curr base len prot pid : Z) : M Z :=
  if negb (vm_prot_ok prot true) then mret SYSERR_INVAL
  else
    C ← get_thread curr;
    P ← get_proc (t_proc C);
    if negb (pid =? 0) && negb (pid =? p_pid P) then
      proc_sys_vm_protect_for curr base len (vm_prot_to_flags prot) pid
    else
      rc ← umem_protect (t_proc C) base len (vm_prot_to_flags prot);
      mret (if rc =? 0 then 0 else SYSERR_PERM).

Definition sys_vm_share (curr base target prot : Z) : M Z :=
  C ← get_thread curr;
  if i64 target <? 0 then channel_scheme_create (t_proc C) base (i64 target)
  else if negb (vm_prot_ok prot false) then mret SYSERR_INVAL
  else umem_share (t_proc C) base target (vm_prot_to_flags prot).

(** ** The dispatcher *)

(** The result of the call in [rax]; the calls that always give the processor away
    are handled by [syscall_entry]. *)
Definition syscall_value (curr nr a0 a1 a2 a3 : Z) : M Z :=
  C ← get_thread curr;
  let p := t_proc C in
  if nr =? SYS_DEBUG_WRITE then sys_debug_write curr a0 a1
  else if nr =? SYS_GETPID then P ← get_proc p; mret (p_pid P)
  else if nr =? SYS_GETTID then mret (t_tid C)
  else if nr =? SYS_VM_ALLOC then sys_vm_alloc curr a0 a1
  else if nr =? SYS_VM_FREE then sys_vm_free curr a0
  else if nr =? SYS_VM_PROTECT then sys_vm_protect curr a0 a1 a2 a3
  else if nr =? SYS_VM_SHARE then sys_vm_share curr a0 a1 a2
  else if nr =? SYS_VM_DROPSHARE then umem_dropshare p a0 a1
  else if nr =? SYS_VM_UNSHARE then umem_unshare p a0 a1
  else if nr =? SYS_VM_MOVE then proc_sys_vm_move curr a0 a1
  else if nr =? SYS_VM_MAP_DEVICE then cap_map_device p a0 a1 (u32 a2)
  else if nr =? SYS_VM_SHARERS then umem_enum_sharers p a0 a1 a2 a3
  else if nr =? SYS_VM_BLOCKS then umem_enum_blocks p a0 a1 a2 a3
  else if nr =? SYS_VM_VIEWS then umem_enum_views p a0 a1 a2 a3
  else if nr =? SYS_VM_DMA_MAPS then iommu_enum_maps p a0 a1 a2 a3
  else if nr =? SYS_VM_DMA_REVOKE then iommu_revoke_map p a0 a1
  else if nr =? SYS_VM_SIZE then sys_vm_size curr a0
  else if nr =? SYS_GETTIME then timer_now_ns
  else if nr =? SYS_FUTEX_WAKE then futex_sys_wake curr a0 a1
  else if nr =? SYS_FUTEX_WAIT then futex_sys_wait curr a0 a1 a2 a3
  else if nr =? SYS_FUTEX_REQUEUE then futex_sys_requeue curr a0 a1 a2 a3
  else if nr =? SYS_PROC_CREATE then proc_sys_create curr
  else if nr =? SYS_THREAD_SPAWN then proc_sys_thread_spawn curr a0 a1 a2
  else if nr =? SYS_THREAD_BASES_SET then arch_uthread_set_bases curr a0 a1
  else if nr =? SYS_PROC_KILL then proc_sys_kill curr a0
  else if nr =? SYS_THREADS then proc_sys_threads curr a0 a1 a2 a3
  else if nr =? SYS_THREAD_DESTROY then proc_sys_thread_destroy curr a0 a1
  else if nr =? SYS_PROC_CHILDREN then proc_sys_children curr a0 a1 a2 a3
  else if nr =? SYS_PROC_DESTROY then proc_sys_destroy curr a0
  else mret SYSERR_NOSYS.

(** The trap frame the caller resumes with. *)
Definition syscall_entry (tf : frame) : M frame :=
  oc ← thread_current;
  _ ← asserts (bool_decide (is_Some oc)) "syscall: no current thread";
  curr ← deref oc;
  C ← get_thread curr;
  dead ← process_is_dead (t_proc C);
  if (dead : bool) then uthread_park_exit
  else
    let nr := f_rax tf in
    if nr =? SYS_PROC_EXIT then proc_sys_process_exit curr (f_rcx tf)
    else if nr =? SYS_THREAD_EXIT then uthread_park_exit
    else if nr =? SYS_YIELD then
      _ ← arch_uthread_save_frame curr (set_rax 0 tf);
      uthread_park_yield
    else
      _ ← when (nr =? SYS_FUTEX_WAIT) (arch_uthread_save_frame curr (set_rax 0 tf));
      rax ← syscall_value curr nr (f_rcx tf) (f_rdx tf) (f_r8 tf) (f_r9 tf);
      mret (set_rax rax tf).

(** ** The scheduler loop *)

Definition SCHED_QUANTUM_US : Z := 10000.

(** Where a round of the loop leaves the processor. *)
Inductive round :=
  | NextRound
  | Halted
  | Switched (t : Z).

Definition scheduler_top : M round :=
  cpu ← this_cpu;
  _ ← lock (LSched cpu);
  next ← scheduler_pop_local_locked cpu;
  match next with
  | None =>
      _ ← mod_cpu cpu (upd_c_idle (fun _ => true));
      _ ← unlock (LSched cpu);
      c ← get_cpu cpu;
      _ ← when (bool_decide (is_Some (c_current_as c))) (as_switch None);
      _ ← timer_cpu_idle;
      _ ← emit EvHlt;
      mret Halted
  | Some t =>
      T ← get_thread t;
      dead ← process_is_dead (t_proc T);
      if (dead : bool) then
        _ ← mod_thread t (upd_t_status (fun _ => THREAD_DEAD));
        _ ← unlock (LSched cpu);
        _ ← process_thread_exited t;
        mret NextRound
      else
        _ ← mod_thread t (upd_t_status (fun _ => THREAD_RUNNING));
        _ ← mod_thread t (upd_t_on_cpu (fun _ => true));
        _ ← mod_cpu cpu (upd_c_current_thread (fun _ => Some t));
        _ ← arch_thread_install t;
        _ ← unlock (LSched cpu);
        _ ← timer_cpu_dispatch (SCHED_QUANTUM_US * 1000);
        mret (Switched t)
  end.

Definition scheduler_wake : M unit :=
  cpu ← this_cpu; mod_cpu cpu (upd_c_idle (fun _ => false)).

Definition scheduler_back : M unit :=
  cpu ← this_cpu;
  c ← get_cpu cpu;
  prev ← deref (c_current_thread c);
  _ ← mod_cpu cpu (upd_c_current_thread (fun _ => None));
  _ ← mod_thread prev (upd_t_on_cpu (fun _ => false));
  T ← get_thread prev;
  when (bool_decide (t_status T = THREAD_DEAD)) (process_thread_exited prev).

(** ** Interrupts *)

Definition VECTOR_IOMMU_FAULT : Z := 0xFA.
Definition VECTOR_TIMER : Z := 0xFB.
Definition VECTOR_RESCHED : Z := 0xFC.
Definition VECTOR_TLB_SHOOTDOWN : Z := 0xFD.
Definition PIC_VECTOR_BASE : Z := 0x20.
Definition PIC_VECTOR_END : Z := 0x2F.
Definition INT_GENERAL_PROTECTION : Z := 0x0D.
Definition INT_PAGE_FAULT : Z := 0x0E.

Definition from_user (tf : frame) : bool := Z.land (f_cs tf) 3 =? 3.

Definition cull_if_killed (tf : frame) : M unit :=
  if negb (from_user tf) then skip
  else
    oc ← thread_current;
    match oc with
    | None => skip
    | Some curr =>
        C ← get_thread curr;
        dead ← process_is_dead (t_proc C);
        if (dead : bool) then uthread_park_exit else skip
    end.

(** The servicing of a shootdown request is not modelled: it only touches the TLB. *)
Definition interrupt_handler (tf : frame) (vector : Z) : M unit :=
  if vector =? VECTOR_IOMMU_FAULT then
    _ ← vtd_fault_interrupt; _ ← x86_lapic_eoi; cull_if_killed tf
  else if vector =? VECTOR_TLB_SHOOTDOWN then cull_if_killed tf
  else if vector =? VECTOR_RESCHED then _ ← x86_lapic_eoi; cull_if_killed tf
  else if vector =? VECTOR_TIMER then
    _ ← x86_lapic_eoi;
    preempt ← timer_cpu_interrupt;
    if (preempt : bool) && from_user tf then
      _ ← cull_if_killed tf;
      oc ← thread_current;
      curr ← deref oc;
      _ ← arch_uthread_save_frame curr tf;
      uthread_park_yield
    else cull_if_killed tf
  else if irq_is_device_vector vector then _ ← irq_deliver vector; cull_if_killed tf
  else if (PIC_VECTOR_BASE <=? vector) && (vector <=? PIC_VECTOR_END) then cull_if_killed tf
  else if from_user tf && ((vector =? INT_PAGE_FAULT) || (vector =? INT_GENERAL_PROTECTION)) then uthread_park_exit
  else die (HAssert "kernel panic").

End Syscall.
