(* ===== verification/Graph.v ===== *)
(** * The ownership graph

    The abstract state behind the control plane's records: [gview] holds one column
    per field that matters to ownership (who owns a block, whom it is shared with,
    which processes and threads exist, what each page tree shows), and [view] reads
    it off a kernel state.  [graph_inv] is the invariant of the graph: every index
    the code keeps twice is the same relation.  Umem.v's operations are shown in
    UmemSpec.v and ProcessSpec.v to act on it as the transitions defined here. *)

From Stdlib Require Import FunctionalExtensionality.
From S2P Require Import Prelude Buddy Paging Siphash PlatformMem Machine Sched Index Channel Umem Process.

(** ** Function update *)

Definition fset {A} (k : Z) (a : A) (f : Z -> A) : Z -> A := fun x => if decide (x = k) then a else f x.

Lemma fset_eq {A} k (a : A) f : fset k a f k = a.
Proof. unfold fset. by rewrite decide_True. Qed.

Lemma fset_ne {A} k x (a : A) f : x <> k -> fset k a f x = f x.
Proof. intros. unfold fset. by rewrite decide_False. Qed.

Lemma fset_id {A} k (a : A) f : f k = a -> fset k a f = f.
Proof. intros <-. extensionality x. unfold fset. case_decide; by subst. Qed.

Lemma fset_fset {A} k (a b : A) f : fset k a (fset k b f) = fset k a f.
Proof. extensionality x. unfold fset. by case_decide. Qed.

Section Graph.
Context {PT : PageTree}.

(** The fields of a block that never change. *)
Record binfo := BInfo {
  i_base : Z; i_order : Z; i_bytes : Z; i_backing : ublock_backing;
  i_device_flags : Z; i_kernel_flags : Z; i_delegatable : bool }.

Definition info_of (B : ublock) : binfo :=
  BInfo (b_base B) (b_order B) (b_bytes B) (b_backing B) (b_device_flags B) (b_kernel_flags B) (b_delegatable B).

(** What a page tree shows at each address. *)
Definition as_map (a : aspace) : Z -> Z := fun x => pt_info (a_tree a) (x mod 2 ^ 48).

Definition tview (T : thread) : Z * option Z := (t_proc T, t_completion_block T).

Record gview := GView {
  v_pid : Z -> option Z;
  v_map : Z -> option (Z -> Z);
  v_pins : Z -> Z;
  v_dirty : Z -> bool;
  v_dead : Z -> bool;
  v_par : Z -> option Z;
  v_children : Z -> gmap Z Z;
  v_notified : Z -> bool;
  v_exit : Z -> Z;
  v_nthreads : Z -> Z;
  v_pthreads : Z -> gmap Z Z;
  v_pblocks : Z -> gmap Z Z;
  v_views : Z -> gmap Z Z;
  v_head : Z -> option Z;
  v_tail : Z -> option Z;
  v_share_ch : Z -> option Z;
  v_tree_ch : Z -> option Z;
  v_iommu_ch : Z -> option Z;
  v_info : Z -> option binfo;
  v_owner : Z -> option Z;
  v_sharers : Z -> gmap Z Z;
  v_bring : Z -> option Z;
  v_dma : Z -> option (gmap Z Z);
  v_bpins : Z -> Z;
  v_eblock : Z -> option Z;
  v_eto : Z -> option Z;
  v_eprev : Z -> option Z;
  v_enext : Z -> option Z;
  v_enot : Z -> bool;
  v_rblock : Z -> option Z;
  v_rops : Z -> option Z;
  v_rslots : Z -> Z;
  v_threads : gmap Z (Z * option Z);
  v_gprocs : gmap Z Z;
  v_gblocks : gmap Z Z;
  v_npid : Z;
  v_ntid : Z;
  v_nref : Z;
  v_init : option Z;
  v_kmap : Z -> Z;
  v_kdirty : bool }.

Definition upd_v_pid (f : (Z -> option Z) -> (Z -> option Z)) (r : gview) : gview :=
  GView (f (v_pid r)) (v_map r) (v_pins r) (v_dirty r) (v_dead r) (v_par r) (v_children r) (v_notified r)
    (v_exit r) (v_nthreads r) (v_pthreads r) (v_pblocks r) (v_views r) (v_head r) (v_tail r) (v_share_ch r)
    (v_tree_ch r) (v_iommu_ch r) (v_info r) (v_owner r) (v_sharers r) (v_bring r) (v_dma r) (v_bpins r)
    (v_eblock r) (v_eto r) (v_eprev r) (v_enext r) (v_enot r) (v_rblock r) (v_rops r) (v_rslots r)
    (v_threads r) (v_gprocs r) (v_gblocks r) (v_npid r) (v_ntid r) (v_nref r) (v_init r) (v_kmap r)
    (v_kdirty r).
Definition upd_v_map (f : (Z -> option (Z -> Z)) -> (Z -> option (Z -> Z))) (r : gview) : gview :=
  GView (v_pid r) (f (v_map r)) (v_pins r) (v_dirty r) (v_dead r) (v_par r) (v_children r) (v_notified r)
    (v_exit r) (v_nthreads r) (v_pthreads r) (v_pblocks r) (v_views r) (v_head r) (v_tail r) (v_share_ch r)
    (v_tree_ch r) (v_iommu_ch r) (v_info r) (v_owner r) (v_sharers r) (v_bring r) (v_dma r) (v_bpins r)
    (v_eblock r) (v_eto r) (v_eprev r) (v_enext r) (v_enot r) (v_rblock r) (v_rops r) (v_rslots r)
    (v_threads r) (v_gprocs r) (v_gblocks r) (v_npid r) (v_ntid r) (v_nref r) (v_init r) (v_kmap r)
    (v_kdirty r).
Definition upd_v_pins (f : (Z -> Z) -> (Z -> Z)) (r : gview) : gview :=
  GView (v_pid r) (v_map r) (f (v_pins r)) (v_dirty r) (v_dead r) (v_par r) (v_children r) (v_notified r)
    (v_exit r) (v_nthreads r) (v_pthreads r) (v_pblocks r) (v_views r) (v_head r) (v_tail r) (v_share_ch r)
    (v_tree_ch r) (v_iommu_ch r) (v_info r) (v_owner r) (v_sharers r) (v_bring r) (v_dma r) (v_bpins r)
    (v_eblock r) (v_eto r) (v_eprev r) (v_enext r) (v_enot r) (v_rblock r) (v_rops r) (v_rslots r)
    (v_threads r) (v_gprocs r) (v_gblocks r) (v_npid r) (v_ntid r) (v_nref r) (v_init r) (v_kmap r)
    (v_kdirty r).
Definition upd_v_dirty (f : (Z -> bool) -> (Z -> bool)) (r : gview) : gview :=
  GView (v_pid r) (v_map r) (v_pins r) (f (v_dirty r)) (v_dead r) (v_par r) (v_children r) (v_notified r)
    (v_exit r) (v_nthreads r) (v_pthreads r) (v_pblocks r) (v_views r) (v_head r) (v_tail r) (v_share_ch r)
    (v_tree_ch r) (v_iommu_ch r) (v_info r) (v_owner r) (v_sharers r) (v_bring r) (v_dma r) (v_bpins r)
    (v_eblock r) (v_eto r) (v_eprev r) (v_enext r) (v_enot r) (v_rblock r) (v_rops r) (v_rslots r)
    (v_threads r) (v_gprocs r) (v_gblocks r) (v_npid r) (v_ntid r) (v_nref r) (v_init r) (v_kmap r)
    (v_kdirty r).
Definition upd_v_dead (f : (Z -> bool) -> (Z -> bool)) (r : gview) : gview :=
  GView (v_pid r) (v_map r) (v_pins r) (v_dirty r) (f (v_dead r)) (v_par r) (v_children r) (v_notified r)
    (v_exit r) (v_nthreads r) (v_pthreads r) (v_pblocks r) (v_views r) (v_head r) (v_tail r) (v_share_ch r)
    (v_tree_ch r) (v_iommu_ch r) (v_info r) (v_owner r) (v_sharers r) (v_bring r) (v_dma r) (v_bpins r)
    (v_eblock r) (v_eto r) (v_eprev r) (v_enext r) (v_enot r) (v_rblock r) (v_rops r) (v_rslots r)
    (v_threads r) (v_gprocs r) (v_gblocks r) (v_npid r) (v_ntid r) (v_nref r) (v_init r) (v_kmap r)
    (v_kdirty r).
Definition upd_v_par (f : (Z -> option Z) -> (Z -> option Z)) (r : gview) : gview :=
  GView (v_pid r) (v_map r) (v_pins r) (v_dirty r) (v_dead r) (f (v_par r)) (v_children r) (v_notified r)
    (v_exit r) (v_nthreads r) (v_pthreads r) (v_pblocks r) (v_views r) (v_head r) (v_tail r) (v_share_ch r)
    (v_tree_ch r) (v_iommu_ch r) (v_info r) (v_owner r) (v_sharers r) (v_bring r) (v_dma r) (v_bpins r)
    (v_eblock r) (v_eto r) (v_eprev r) (v_enext r) (v_enot r) (v_rblock r) (v_rops r) (v_rslots r)
    (v_threads r) (v_gprocs r) (v_gblocks r) (v_npid r) (v_ntid r) (v_nref r) (v_init r) (v_kmap r)
    (v_kdirty r).
Definition upd_v_children (f : (Z -> gmap Z Z) -> (Z -> gmap Z Z)) (r : gview) : gview :=
  GView (v_pid r) (v_map r) (v_pins r) (v_dirty r) (v_dead r) (v_par r) (f (v_children r)) (v_notified r)
    (v_exit r) (v_nthreads r) (v_pthreads r) (v_pblocks r) (v_views r) (v_head r) (v_tail r) (v_share_ch r)
    (v_tree_ch r) (v_iommu_ch r) (v_info r) (v_owner r) (v_sharers r) (v_bring r) (v_dma r) (v_bpins r)
    (v_eblock r) (v_eto r) (v_eprev r) (v_enext r) (v_enot r) (v_rblock r) (v_rops r) (v_rslots r)
    (v_threads r) (v_gprocs r) (v_gblocks r) (v_npid r) (v_ntid r) (v_nref r) (v_init r) (v_kmap r)
    (v_kdirty r).
Definition upd_v_notified (f : (Z -> bool) -> (Z -> bool)) (r : gview) : gview :=
  GView (v_pid r) (v_map r) (v_pins r) (v_dirty r) (v_dead r) (v_par r) (v_children r) (f (v_notified r))
    (v_exit r) (v_nthreads r) (v_pthreads r) (v_pblocks r) (v_views r) (v_head r) (v_tail r) (v_share_ch r)
    (v_tree_ch r) (v_iommu_ch r) (v_info r) (v_owner r) (v_sharers r) (v_bring r) (v_dma r) (v_bpins r)
    (v_eblock r) (v_eto r) (v_eprev r) (v_enext r) (v_enot r) (v_rblock r) (v_rops r) (v_rslots r)
    (v_threads r) (v_gprocs r) (v_gblocks r) (v_npid r) (v_ntid r) (v_nref r) (v_init r) (v_kmap r)
    (v_kdirty r).
Definition upd_v_exit (f : (Z -> Z) -> (Z -> Z)) (r : gview) : gview :=
  GView (v_pid r) (v_map r) (v_pins r) (v_dirty r) (v_dead r) (v_par r) (v_children r) (v_notified r)
    (f (v_exit r)) (v_nthreads r) (v_pthreads r) (v_pblocks r) (v_views r) (v_head r) (v_tail r)
    (v_share_ch r) (v_tree_ch r) (v_iommu_ch r) (v_info r) (v_owner r) (v_sharers r) (v_bring r) (v_dma r)
    (v_bpins r) (v_eblock r) (v_eto r) (v_eprev r) (v_enext r) (v_enot r) (v_rblock r) (v_rops r)
    (v_rslots r) (v_threads r) (v_gprocs r) (v_gblocks r) (v_npid r) (v_ntid r) (v_nref r) (v_init r)
    (v_kmap r) (v_kdirty r).
Definition upd_v_nthreads (f : (Z -> Z) -> (Z -> Z)) (r : gview) : gview :=
  GView (v_pid r) (v_map r) (v_pins r) (v_dirty r) (v_dead r) (v_par r) (v_children r) (v_notified r)
    (v_exit r) (f (v_nthreads r)) (v_pthreads r) (v_pblocks r) (v_views r) (v_head r) (v_tail r)
    (v_share_ch r) (v_tree_ch r) (v_iommu_ch r) (v_info r) (v_owner r) (v_sharers r) (v_bring r) (v_dma r)
    (v_bpins r) (v_eblock r) (v_eto r) (v_eprev r) (v_enext r) (v_enot r) (v_rblock r) (v_rops r)
    (v_rslots r) (v_threads r) (v_gprocs r) (v_gblocks r) (v_npid r) (v_ntid r) (v_nref r) (v_init r)
    (v_kmap r) (v_kdirty r).
Definition upd_v_pthreads (f : (Z -> gmap Z Z) -> (Z -> gmap Z Z)) (r : gview) : gview :=
  GView (v_pid r) (v_map r) (v_pins r) (v_dirty r) (v_dead r) (v_par r) (v_children r) (v_notified r)
    (v_exit r) (v_nthreads r) (f (v_pthreads r)) (v_pblocks r) (v_views r) (v_head r) (v_tail r)
    (v_share_ch r) (v_tree_ch r) (v_iommu_ch r) (v_info r) (v_owner r) (v_sharers r) (v_bring r) (v_dma r)
    (v_bpins r) (v_eblock r) (v_eto r) (v_eprev r) (v_enext r) (v_enot r) (v_rblock r) (v_rops r)
    (v_rslots r) (v_threads r) (v_gprocs r) (v_gblocks r) (v_npid r) (v_ntid r) (v_nref r) (v_init r)
    (v_kmap r) (v_kdirty r).
Definition upd_v_pblocks (f : (Z -> gmap Z Z) -> (Z -> gmap Z Z)) (r : gview) : gview :=
  GView (v_pid r) (v_map r) (v_pins r) (v_dirty r) (v_dead r) (v_par r) (v_children r) (v_notified r)
    (v_exit r) (v_nthreads r) (v_pthreads r) (f (v_pblocks r)) (v_views r) (v_head r) (v_tail r)
    (v_share_ch r) (v_tree_ch r) (v_iommu_ch r) (v_info r) (v_owner r) (v_sharers r) (v_bring r) (v_dma r)
    (v_bpins r) (v_eblock r) (v_eto r) (v_eprev r) (v_enext r) (v_enot r) (v_rblock r) (v_rops r)
    (v_rslots r) (v_threads r) (v_gprocs r) (v_gblocks r) (v_npid r) (v_ntid r) (v_nref r) (v_init r)
    (v_kmap r) (v_kdirty r).
Definition upd_v_views (f : (Z -> gmap Z Z) -> (Z -> gmap Z Z)) (r : gview) : gview :=
  GView (v_pid r) (v_map r) (v_pins r) (v_dirty r) (v_dead r) (v_par r) (v_children r) (v_notified r)
    (v_exit r) (v_nthreads r) (v_pthreads r) (v_pblocks r) (f (v_views r)) (v_head r) (v_tail r)
    (v_share_ch r) (v_tree_ch r) (v_iommu_ch r) (v_info r) (v_owner r) (v_sharers r) (v_bring r) (v_dma r)
    (v_bpins r) (v_eblock r) (v_eto r) (v_eprev r) (v_enext r) (v_enot r) (v_rblock r) (v_rops r)
    (v_rslots r) (v_threads r) (v_gprocs r) (v_gblocks r) (v_npid r) (v_ntid r) (v_nref r) (v_init r)
    (v_kmap r) (v_kdirty r).
Definition upd_v_head (f : (Z -> option Z) -> (Z -> option Z)) (r : gview) : gview :=
  GView (v_pid r) (v_map r) (v_pins r) (v_dirty r) (v_dead r) (v_par r) (v_children r) (v_notified r)
    (v_exit r) (v_nthreads r) (v_pthreads r) (v_pblocks r) (v_views r) (f (v_head r)) (v_tail r)
    (v_share_ch r) (v_tree_ch r) (v_iommu_ch r) (v_info r) (v_owner r) (v_sharers r) (v_bring r) (v_dma r)
    (v_bpins r) (v_eblock r) (v_eto r) (v_eprev r) (v_enext r) (v_enot r) (v_rblock r) (v_rops r)
    (v_rslots r) (v_threads r) (v_gprocs r) (v_gblocks r) (v_npid r) (v_ntid r) (v_nref r) (v_init r)
    (v_kmap r) (v_kdirty r).
Definition upd_v_tail (f : (Z -> option Z) -> (Z -> option Z)) (r : gview) : gview :=
  GView (v_pid r) (v_map r) (v_pins r) (v_dirty r) (v_dead r) (v_par r) (v_children r) (v_notified r)
    (v_exit r) (v_nthreads r) (v_pthreads r) (v_pblocks r) (v_views r) (v_head r) (f (v_tail r))
    (v_share_ch r) (v_tree_ch r) (v_iommu_ch r) (v_info r) (v_owner r) (v_sharers r) (v_bring r) (v_dma r)
    (v_bpins r) (v_eblock r) (v_eto r) (v_eprev r) (v_enext r) (v_enot r) (v_rblock r) (v_rops r)
    (v_rslots r) (v_threads r) (v_gprocs r) (v_gblocks r) (v_npid r) (v_ntid r) (v_nref r) (v_init r)
    (v_kmap r) (v_kdirty r).
Definition upd_v_share_ch (f : (Z -> option Z) -> (Z -> option Z)) (r : gview) : gview :=
  GView (v_pid r) (v_map r) (v_pins r) (v_dirty r) (v_dead r) (v_par r) (v_children r) (v_notified r)
    (v_exit r) (v_nthreads r) (v_pthreads r) (v_pblocks r) (v_views r) (v_head r) (v_tail r)
    (f (v_share_ch r)) (v_tree_ch r) (v_iommu_ch r) (v_info r) (v_owner r) (v_sharers r) (v_bring r)
    (v_dma r) (v_bpins r) (v_eblock r) (v_eto r) (v_eprev r) (v_enext r) (v_enot r) (v_rblock r) (v_rops r)
    (v_rslots r) (v_threads r) (v_gprocs r) (v_gblocks r) (v_npid r) (v_ntid r) (v_nref r) (v_init r)
    (v_kmap r) (v_kdirty r).
Definition upd_v_tree_ch (f : (Z -> option Z) -> (Z -> option Z)) (r : gview) : gview :=
  GView (v_pid r) (v_map r) (v_pins r) (v_dirty r) (v_dead r) (v_par r) (v_children r) (v_notified r)
    (v_exit r) (v_nthreads r) (v_pthreads r) (v_pblocks r) (v_views r) (v_head r) (v_tail r) (v_share_ch r)
    (f (v_tree_ch r)) (v_iommu_ch r) (v_info r) (v_owner r) (v_sharers r) (v_bring r) (v_dma r) (v_bpins r)
    (v_eblock r) (v_eto r) (v_eprev r) (v_enext r) (v_enot r) (v_rblock r) (v_rops r) (v_rslots r)
    (v_threads r) (v_gprocs r) (v_gblocks r) (v_npid r) (v_ntid r) (v_nref r) (v_init r) (v_kmap r)
    (v_kdirty r).
Definition upd_v_iommu_ch (f : (Z -> option Z) -> (Z -> option Z)) (r : gview) : gview :=
  GView (v_pid r) (v_map r) (v_pins r) (v_dirty r) (v_dead r) (v_par r) (v_children r) (v_notified r)
    (v_exit r) (v_nthreads r) (v_pthreads r) (v_pblocks r) (v_views r) (v_head r) (v_tail r) (v_share_ch r)
    (v_tree_ch r) (f (v_iommu_ch r)) (v_info r) (v_owner r) (v_sharers r) (v_bring r) (v_dma r) (v_bpins r)
    (v_eblock r) (v_eto r) (v_eprev r) (v_enext r) (v_enot r) (v_rblock r) (v_rops r) (v_rslots r)
    (v_threads r) (v_gprocs r) (v_gblocks r) (v_npid r) (v_ntid r) (v_nref r) (v_init r) (v_kmap r)
    (v_kdirty r).
Definition upd_v_info (f : (Z -> option binfo) -> (Z -> option binfo)) (r : gview) : gview :=
  GView (v_pid r) (v_map r) (v_pins r) (v_dirty r) (v_dead r) (v_par r) (v_children r) (v_notified r)
    (v_exit r) (v_nthreads r) (v_pthreads r) (v_pblocks r) (v_views r) (v_head r) (v_tail r) (v_share_ch r)
    (v_tree_ch r) (v_iommu_ch r) (f (v_info r)) (v_owner r) (v_sharers r) (v_bring r) (v_dma r) (v_bpins r)
    (v_eblock r) (v_eto r) (v_eprev r) (v_enext r) (v_enot r) (v_rblock r) (v_rops r) (v_rslots r)
    (v_threads r) (v_gprocs r) (v_gblocks r) (v_npid r) (v_ntid r) (v_nref r) (v_init r) (v_kmap r)
    (v_kdirty r).
Definition upd_v_owner (f : (Z -> option Z) -> (Z -> option Z)) (r : gview) : gview :=
  GView (v_pid r) (v_map r) (v_pins r) (v_dirty r) (v_dead r) (v_par r) (v_children r) (v_notified r)
    (v_exit r) (v_nthreads r) (v_pthreads r) (v_pblocks r) (v_views r) (v_head r) (v_tail r) (v_share_ch r)
    (v_tree_ch r) (v_iommu_ch r) (v_info r) (f (v_owner r)) (v_sharers r) (v_bring r) (v_dma r) (v_bpins r)
    (v_eblock r) (v_eto r) (v_eprev r) (v_enext r) (v_enot r) (v_rblock r) (v_rops r) (v_rslots r)
    (v_threads r) (v_gprocs r) (v_gblocks r) (v_npid r) (v_ntid r) (v_nref r) (v_init r) (v_kmap r)
    (v_kdirty r).
Definition upd_v_sharers (f : (Z -> gmap Z Z) -> (Z -> gmap Z Z)) (r : gview) : gview :=
  GView (v_pid r) (v_map r) (v_pins r) (v_dirty r) (v_dead r) (v_par r) (v_children r) (v_notified r)
    (v_exit r) (v_nthreads r) (v_pthreads r) (v_pblocks r) (v_views r) (v_head r) (v_tail r) (v_share_ch r)
    (v_tree_ch r) (v_iommu_ch r) (v_info r) (v_owner r) (f (v_sharers r)) (v_bring r) (v_dma r) (v_bpins r)
    (v_eblock r) (v_eto r) (v_eprev r) (v_enext r) (v_enot r) (v_rblock r) (v_rops r) (v_rslots r)
    (v_threads r) (v_gprocs r) (v_gblocks r) (v_npid r) (v_ntid r) (v_nref r) (v_init r) (v_kmap r)
    (v_kdirty r).
Definition upd_v_bring (f : (Z -> option Z) -> (Z -> option Z)) (r : gview) : gview :=
  GView (v_pid r) (v_map r) (v_pins r) (v_dirty r) (v_dead r) (v_par r) (v_children r) (v_notified r)
    (v_exit r) (v_nthreads r) (v_pthreads r) (v_pblocks r) (v_views r) (v_head r) (v_tail r) (v_share_ch r)
    (v_tree_ch r) (v_iommu_ch r) (v_info r) (v_owner r) (v_sharers r) (f (v_bring r)) (v_dma r) (v_bpins r)
    (v_eblock r) (v_eto r) (v_eprev r) (v_enext r) (v_enot r) (v_rblock r) (v_rops r) (v_rslots r)
    (v_threads r) (v_gprocs r) (v_gblocks r) (v_npid r) (v_ntid r) (v_nref r) (v_init r) (v_kmap r)
    (v_kdirty r).
Definition upd_v_dma (f : (Z -> option (gmap Z Z)) -> (Z -> option (gmap Z Z))) (r : gview) : gview :=
  GView (v_pid r) (v_map r) (v_pins r) (v_dirty r) (v_dead r) (v_par r) (v_children r) (v_notified r)
    (v_exit r) (v_nthreads r) (v_pthreads r) (v_pblocks r) (v_views r) (v_head r) (v_tail r) (v_share_ch r)
    (v_tree_ch r) (v_iommu_ch r) (v_info r) (v_owner r) (v_sharers r) (v_bring r) (f (v_dma r)) (v_bpins r)
    (v_eblock r) (v_eto r) (v_eprev r) (v_enext r) (v_enot r) (v_rblock r) (v_rops r) (v_rslots r)
    (v_threads r) (v_gprocs r) (v_gblocks r) (v_npid r) (v_ntid r) (v_nref r) (v_init r) (v_kmap r)
    (v_kdirty r).
Definition upd_v_bpins (f : (Z -> Z) -> (Z -> Z)) (r : gview) : gview :=
  GView (v_pid r) (v_map r) (v_pins r) (v_dirty r) (v_dead r) (v_par r) (v_children r) (v_notified r)
    (v_exit r) (v_nthreads r) (v_pthreads r) (v_pblocks r) (v_views r) (v_head r) (v_tail r) (v_share_ch r)
    (v_tree_ch r) (v_iommu_ch r) (v_info r) (v_owner r) (v_sharers r) (v_bring r) (v_dma r) (f (v_bpins r))
    (v_eblock r) (v_eto r) (v_eprev r) (v_enext r) (v_enot r) (v_rblock r) (v_rops r) (v_rslots r)
    (v_threads r) (v_gprocs r) (v_gblocks r) (v_npid r) (v_ntid r) (v_nref r) (v_init r) (v_kmap r)
    (v_kdirty r).
Definition upd_v_eblock (f : (Z -> option Z) -> (Z -> option Z)) (r : gview) : gview :=
  GView (v_pid r) (v_map r) (v_pins r) (v_dirty r) (v_dead r) (v_par r) (v_children r) (v_notified r)
    (v_exit r) (v_nthreads r) (v_pthreads r) (v_pblocks r) (v_views r) (v_head r) (v_tail r) (v_share_ch r)
    (v_tree_ch r) (v_iommu_ch r) (v_info r) (v_owner r) (v_sharers r) (v_bring r) (v_dma r) (v_bpins r)
    (f (v_eblock r)) (v_eto r) (v_eprev r) (v_enext r) (v_enot r) (v_rblock r) (v_rops r) (v_rslots r)
    (v_threads r) (v_gprocs r) (v_gblocks r) (v_npid r) (v_ntid r) (v_nref r) (v_init r) (v_kmap r)
    (v_kdirty r).
Definition upd_v_eto (f : (Z -> option Z) -> (Z -> option Z)) (r : gview) : gview :=
  GView (v_pid r) (v_map r) (v_pins r) (v_dirty r) (v_dead r) (v_par r) (v_children r) (v_notified r)
    (v_exit r) (v_nthreads r) (v_pthreads r) (v_pblocks r) (v_views r) (v_head r) (v_tail r) (v_share_ch r)
    (v_tree_ch r) (v_iommu_ch r) (v_info r) (v_owner r) (v_sharers r) (v_bring r) (v_dma r) (v_bpins r)
    (v_eblock r) (f (v_eto r)) (v_eprev r) (v_enext r) (v_enot r) (v_rblock r) (v_rops r) (v_rslots r)
    (v_threads r) (v_gprocs r) (v_gblocks r) (v_npid r) (v_ntid r) (v_nref r) (v_init r) (v_kmap r)
    (v_kdirty r).
Definition upd_v_eprev (f : (Z -> option Z) -> (Z -> option Z)) (r : gview) : gview :=
  GView (v_pid r) (v_map r) (v_pins r) (v_dirty r) (v_dead r) (v_par r) (v_children r) (v_notified r)
    (v_exit r) (v_nthreads r) (v_pthreads r) (v_pblocks r) (v_views r) (v_head r) (v_tail r) (v_share_ch r)
    (v_tree_ch r) (v_iommu_ch r) (v_info r) (v_owner r) (v_sharers r) (v_bring r) (v_dma r) (v_bpins r)
    (v_eblock r) (v_eto r) (f (v_eprev r)) (v_enext r) (v_enot r) (v_rblock r) (v_rops r) (v_rslots r)
    (v_threads r) (v_gprocs r) (v_gblocks r) (v_npid r) (v_ntid r) (v_nref r) (v_init r) (v_kmap r)
    (v_kdirty r).
Definition upd_v_enext (f : (Z -> option Z) -> (Z -> option Z)) (r : gview) : gview :=
  GView (v_pid r) (v_map r) (v_pins r) (v_dirty r) (v_dead r) (v_par r) (v_children r) (v_notified r)
    (v_exit r) (v_nthreads r) (v_pthreads r) (v_pblocks r) (v_views r) (v_head r) (v_tail r) (v_share_ch r)
    (v_tree_ch r) (v_iommu_ch r) (v_info r) (v_owner r) (v_sharers r) (v_bring r) (v_dma r) (v_bpins r)
    (v_eblock r) (v_eto r) (v_eprev r) (f (v_enext r)) (v_enot r) (v_rblock r) (v_rops r) (v_rslots r)
    (v_threads r) (v_gprocs r) (v_gblocks r) (v_npid r) (v_ntid r) (v_nref r) (v_init r) (v_kmap r)
    (v_kdirty r).
Definition upd_v_enot (f : (Z -> bool) -> (Z -> bool)) (r : gview) : gview :=
  GView (v_pid r) (v_map r) (v_pins r) (v_dirty r) (v_dead r) (v_par r) (v_children r) (v_notified r)
    (v_exit r) (v_nthreads r) (v_pthreads r) (v_pblocks r) (v_views r) (v_head r) (v_tail r) (v_share_ch r)
    (v_tree_ch r) (v_iommu_ch r) (v_info r) (v_owner r) (v_sharers r) (v_bring r) (v_dma r) (v_bpins r)
    (v_eblock r) (v_eto r) (v_eprev r) (v_enext r) (f (v_enot r)) (v_rblock r) (v_rops r) (v_rslots r)
    (v_threads r) (v_gprocs r) (v_gblocks r) (v_npid r) (v_ntid r) (v_nref r) (v_init r) (v_kmap r)
    (v_kdirty r).
Definition upd_v_rblock (f : (Z -> option Z) -> (Z -> option Z)) (r : gview) : gview :=
  GView (v_pid r) (v_map r) (v_pins r) (v_dirty r) (v_dead r) (v_par r) (v_children r) (v_notified r)
    (v_exit r) (v_nthreads r) (v_pthreads r) (v_pblocks r) (v_views r) (v_head r) (v_tail r) (v_share_ch r)
    (v_tree_ch r) (v_iommu_ch r) (v_info r) (v_owner r) (v_sharers r) (v_bring r) (v_dma r) (v_bpins r)
    (v_eblock r) (v_eto r) (v_eprev r) (v_enext r) (v_enot r) (f (v_rblock r)) (v_rops r) (v_rslots r)
    (v_threads r) (v_gprocs r) (v_gblocks r) (v_npid r) (v_ntid r) (v_nref r) (v_init r) (v_kmap r)
    (v_kdirty r).
Definition upd_v_rops (f : (Z -> option Z) -> (Z -> option Z)) (r : gview) : gview :=
  GView (v_pid r) (v_map r) (v_pins r) (v_dirty r) (v_dead r) (v_par r) (v_children r) (v_notified r)
    (v_exit r) (v_nthreads r) (v_pthreads r) (v_pblocks r) (v_views r) (v_head r) (v_tail r) (v_share_ch r)
    (v_tree_ch r) (v_iommu_ch r) (v_info r) (v_owner r) (v_sharers r) (v_bring r) (v_dma r) (v_bpins r)
    (v_eblock r) (v_eto r) (v_eprev r) (v_enext r) (v_enot r) (v_rblock r) (f (v_rops r)) (v_rslots r)
    (v_threads r) (v_gprocs r) (v_gblocks r) (v_npid r) (v_ntid r) (v_nref r) (v_init r) (v_kmap r)
    (v_kdirty r).
Definition upd_v_rslots (f : (Z -> Z) -> (Z -> Z)) (r : gview) : gview :=
  GView (v_pid r) (v_map r) (v_pins r) (v_dirty r) (v_dead r) (v_par r) (v_children r) (v_notified r)
    (v_exit r) (v_nthreads r) (v_pthreads r) (v_pblocks r) (v_views r) (v_head r) (v_tail r) (v_share_ch r)
    (v_tree_ch r) (v_iommu_ch r) (v_info r) (v_owner r) (v_sharers r) (v_bring r) (v_dma r) (v_bpins r)
    (v_eblock r) (v_eto r) (v_eprev r) (v_enext r) (v_enot r) (v_rblock r) (v_rops r) (f (v_rslots r))
    (v_threads r) (v_gprocs r) (v_gblocks r) (v_npid r) (v_ntid r) (v_nref r) (v_init r) (v_kmap r)
    (v_kdirty r).
Definition upd_v_threads (f : (gmap Z (Z * option Z)) -> (gmap Z (Z * option Z))) (r : gview) : gview :=
  GView (v_pid r) (v_map r) (v_pins r) (v_dirty r) (v_dead r) (v_par r) (v_children r) (v_notified r)
    (v_exit r) (v_nthreads r) (v_pthreads r) (v_pblocks r) (v_views r) (v_head r) (v_tail r) (v_share_ch r)
    (v_tree_ch r) (v_iommu_ch r) (v_info r) (v_owner r) (v_sharers r) (v_bring r) (v_dma r) (v_bpins r)
    (v_eblock r) (v_eto r) (v_eprev r) (v_enext r) (v_enot r) (v_rblock r) (v_rops r) (v_rslots r)
    (f (v_threads r)) (v_gprocs r) (v_gblocks r) (v_npid r) (v_ntid r) (v_nref r) (v_init r) (v_kmap r)
    (v_kdirty r).
Definition upd_v_gprocs (f : (gmap Z Z) -> (gmap Z Z)) (r : gview) : gview :=
  GView (v_pid r) (v_map r) (v_pins r) (v_dirty r) (v_dead r) (v_par r) (v_children r) (v_notified r)
    (v_exit r) (v_nthreads r) (v_pthreads r) (v_pblocks r) (v_views r) (v_head r) (v_tail r) (v_share_ch r)
    (v_tree_ch r) (v_iommu_ch r) (v_info r) (v_owner r) (v_sharers r) (v_bring r) (v_dma r) (v_bpins r)
    (v_eblock r) (v_eto r) (v_eprev r) (v_enext r) (v_enot r) (v_rblock r) (v_rops r) (v_rslots r)
    (v_threads r) (f (v_gprocs r)) (v_gblocks r) (v_npid r) (v_ntid r) (v_nref r) (v_init r) (v_kmap r)
    (v_kdirty r).
Definition upd_v_gblocks (f : (gmap Z Z) -> (gmap Z Z)) (r : gview) : gview :=
  GView (v_pid r) (v_map r) (v_pins r) (v_dirty r) (v_dead r) (v_par r) (v_children r) (v_notified r)
    (v_exit r) (v_nthreads r) (v_pthreads r) (v_pblocks r) (v_views r) (v_head r) (v_tail r) (v_share_ch r)
    (v_tree_ch r) (v_iommu_ch r) (v_info r) (v_owner r) (v_sharers r) (v_bring r) (v_dma r) (v_bpins r)
    (v_eblock r) (v_eto r) (v_eprev r) (v_enext r) (v_enot r) (v_rblock r) (v_rops r) (v_rslots r)
    (v_threads r) (v_gprocs r) (f (v_gblocks r)) (v_npid r) (v_ntid r) (v_nref r) (v_init r) (v_kmap r)
    (v_kdirty r).
Definition upd_v_npid (f : Z -> Z) (r : gview) : gview :=
  GView (v_pid r) (v_map r) (v_pins r) (v_dirty r) (v_dead r) (v_par r) (v_children r) (v_notified r)
    (v_exit r) (v_nthreads r) (v_pthreads r) (v_pblocks r) (v_views r) (v_head r) (v_tail r) (v_share_ch r)
    (v_tree_ch r) (v_iommu_ch r) (v_info r) (v_owner r) (v_sharers r) (v_bring r) (v_dma r) (v_bpins r)
    (v_eblock r) (v_eto r) (v_eprev r) (v_enext r) (v_enot r) (v_rblock r) (v_rops r) (v_rslots r)
    (v_threads r) (v_gprocs r) (v_gblocks r) (f (v_npid r)) (v_ntid r) (v_nref r) (v_init r) (v_kmap r)
    (v_kdirty r).
Definition upd_v_ntid (f : Z -> Z) (r : gview) : gview :=
  GView (v_pid r) (v_map r) (v_pins r) (v_dirty r) (v_dead r) (v_par r) (v_children r) (v_notified r)
    (v_exit r) (v_nthreads r) (v_pthreads r) (v_pblocks r) (v_views r) (v_head r) (v_tail r) (v_share_ch r)
    (v_tree_ch r) (v_iommu_ch r) (v_info r) (v_owner r) (v_sharers r) (v_bring r) (v_dma r) (v_bpins r)
    (v_eblock r) (v_eto r) (v_eprev r) (v_enext r) (v_enot r) (v_rblock r) (v_rops r) (v_rslots r)
    (v_threads r) (v_gprocs r) (v_gblocks r) (v_npid r) (f (v_ntid r)) (v_nref r) (v_init r) (v_kmap r)
    (v_kdirty r).
Definition upd_v_nref (f : Z -> Z) (r : gview) : gview :=
  GView (v_pid r) (v_map r) (v_pins r) (v_dirty r) (v_dead r) (v_par r) (v_children r) (v_notified r)
    (v_exit r) (v_nthreads r) (v_pthreads r) (v_pblocks r) (v_views r) (v_head r) (v_tail r) (v_share_ch r)
    (v_tree_ch r) (v_iommu_ch r) (v_info r) (v_owner r) (v_sharers r) (v_bring r) (v_dma r) (v_bpins r)
    (v_eblock r) (v_eto r) (v_eprev r) (v_enext r) (v_enot r) (v_rblock r) (v_rops r) (v_rslots r)
    (v_threads r) (v_gprocs r) (v_gblocks r) (v_npid r) (v_ntid r) (f (v_nref r)) (v_init r) (v_kmap r)
    (v_kdirty r).
Definition upd_v_init (f : (option Z) -> (option Z)) (r : gview) : gview :=
  GView (v_pid r) (v_map r) (v_pins r) (v_dirty r) (v_dead r) (v_par r) (v_children r) (v_notified r)
    (v_exit r) (v_nthreads r) (v_pthreads r) (v_pblocks r) (v_views r) (v_head r) (v_tail r) (v_share_ch r)
    (v_tree_ch r) (v_iommu_ch r) (v_info r) (v_owner r) (v_sharers r) (v_bring r) (v_dma r) (v_bpins r)
    (v_eblock r) (v_eto r) (v_eprev r) (v_enext r) (v_enot r) (v_rblock r) (v_rops r) (v_rslots r)
    (v_threads r) (v_gprocs r) (v_gblocks r) (v_npid r) (v_ntid r) (v_nref r) (f (v_init r)) (v_kmap r)
    (v_kdirty r).
Definition upd_v_kmap (f : (Z -> Z) -> (Z -> Z)) (r : gview) : gview :=
  GView (v_pid r) (v_map r) (v_pins r) (v_dirty r) (v_dead r) (v_par r) (v_children r) (v_notified r)
    (v_exit r) (v_nthreads r) (v_pthreads r) (v_pblocks r) (v_views r) (v_head r) (v_tail r) (v_share_ch r)
    (v_tree_ch r) (v_iommu_ch r) (v_info r) (v_owner r) (v_sharers r) (v_bring r) (v_dma r) (v_bpins r)
    (v_eblock r) (v_eto r) (v_eprev r) (v_enext r) (v_enot r) (v_rblock r) (v_rops r) (v_rslots r)
    (v_threads r) (v_gprocs r) (v_gblocks r) (v_npid r) (v_ntid r) (v_nref r) (v_init r) (f (v_kmap r))
    (v_kdirty r).
Definition upd_v_kdirty (f : bool -> bool) (r : gview) : gview :=
  GView (v_pid r) (v_map r) (v_pins r) (v_dirty r) (v_dead r) (v_par r) (v_children r) (v_notified r)
    (v_exit r) (v_nthreads r) (v_pthreads r) (v_pblocks r) (v_views r) (v_head r) (v_tail r) (v_share_ch r)
    (v_tree_ch r) (v_iommu_ch r) (v_info r) (v_owner r) (v_sharers r) (v_bring r) (v_dma r) (v_bpins r)
    (v_eblock r) (v_eto r) (v_eprev r) (v_enext r) (v_enot r) (v_rblock r) (v_rops r) (v_rslots r)
    (v_threads r) (v_gprocs r) (v_gblocks r) (v_npid r) (v_ntid r) (v_nref r) (v_init r) (v_kmap r)
    (f (v_kdirty r)).

Definition view (s : kstate) : gview :=
  GView (fun x => from_option (fun X => Some (p_pid X)) None (k_procs s !! x))
    (fun x => from_option (fun X => option_map as_map (p_as X)) None (k_procs s !! x))
    (fun x => from_option (fun X => from_option a_pins 0 (p_as X)) 0 (k_procs s !! x))
    (fun x => from_option (fun X => from_option a_dirty false (p_as X)) false (k_procs s !! x))
    (fun x => from_option (fun X => p_dead X) false (k_procs s !! x))
    (fun x => from_option (fun X => p_parent X) None (k_procs s !! x))
    (fun x => from_option (fun X => p_children X) ∅ (k_procs s !! x))
    (fun x => from_option (fun X => p_death_notified X) false (k_procs s !! x))
    (fun x => from_option (fun X => p_exit_status X) 0 (k_procs s !! x))
    (fun x => from_option (fun X => p_nthreads X) 0 (k_procs s !! x))
    (fun x => from_option (fun X => p_threads X) ∅ (k_procs s !! x))
    (fun x => from_option (fun X => p_blocks X) ∅ (k_procs s !! x))
    (fun x => from_option (fun X => p_views X) ∅ (k_procs s !! x))
    (fun x => from_option (fun X => p_unnotified_head X) None (k_procs s !! x))
    (fun x => from_option (fun X => p_unnotified_tail X) None (k_procs s !! x))
    (fun x => from_option (fun X => p_share_ch X) None (k_procs s !! x))
    (fun x => from_option (fun X => p_tree_ch X) None (k_procs s !! x))
    (fun x => from_option (fun X => p_iommu_ch X) None (k_procs s !! x))
    (fun x => from_option (fun X => Some (info_of X)) None (k_blocks s !! x))
    (fun x => from_option (fun X => Some (b_owner X)) None (k_blocks s !! x))
    (fun x => from_option (fun X => b_sharers X) ∅ (k_blocks s !! x))
    (fun x => from_option (fun X => b_ring X) None (k_blocks s !! x))
    (fun x => from_option (fun X => b_dma_maps X) None (k_blocks s !! x))
    (fun x => from_option (fun X => b_thread_pins X) 0 (k_blocks s !! x))
    (fun x => from_option (fun X => Some (e_block X)) None (k_edges s !! x))
    (fun x => from_option (fun X => Some (e_to X)) None (k_edges s !! x))
    (fun x => from_option (fun X => e_pending_prev X) None (k_edges s !! x))
    (fun x => from_option (fun X => e_pending_next X) None (k_edges s !! x))
    (fun x => from_option (fun X => e_notified X) false (k_edges s !! x))
    (fun x => from_option (fun X => Some (r_block X)) None (k_rings s !! x))
    (fun x => from_option (fun X => Some (r_ops X)) None (k_rings s !! x))
    (fun x => from_option (fun X => r_nslots X) 0 (k_rings s !! x))
    (tview <$> k_threads s)
    (k_g_procs s)
    (k_g_ublocks s)
    (k_next_pid s)
    (k_next_tid s)
    (k_next_ref s)
    (k_g_init s)
    (as_map (k_kas s))
    (a_dirty (k_kas s)).

(** ** Creation and removal of objects *)

Definition put_proc (x : Z) (X : process) (v : gview) : gview :=
  upd_v_iommu_ch (fset x (p_iommu_ch X)) (upd_v_tree_ch (fset x (p_tree_ch X)) (upd_v_share_ch (fset x (p_share_ch X)) (upd_v_tail (fset x (p_unnotified_tail X)) (upd_v_head (fset x (p_unnotified_head X)) (upd_v_views (fset x (p_views X)) (upd_v_pblocks (fset x (p_blocks X)) (upd_v_pthreads (fset x (p_threads X)) (upd_v_nthreads (fset x (p_nthreads X)) (upd_v_exit (fset x (p_exit_status X)) (upd_v_notified (fset x (p_death_notified X)) (upd_v_children (fset x (p_children X)) (upd_v_par (fset x (p_parent X)) (upd_v_dead (fset x (p_dead X)) (upd_v_dirty (fset x (from_option a_dirty false (p_as X))) (upd_v_pins (fset x (from_option a_pins 0 (p_as X))) (upd_v_map (fset x (option_map as_map (p_as X))) (upd_v_pid (fset x (Some (p_pid X))) v))))))))))))))))).

Definition drop_proc (x : Z) (v : gview) : gview :=
  upd_v_iommu_ch (fset x None) (upd_v_tree_ch (fset x None) (upd_v_share_ch (fset x None) (upd_v_tail (fset x None) (upd_v_head (fset x None) (upd_v_views (fset x ∅) (upd_v_pblocks (fset x ∅) (upd_v_pthreads (fset x ∅) (upd_v_nthreads (fset x 0) (upd_v_exit (fset x 0) (upd_v_notified (fset x false) (upd_v_children (fset x ∅) (upd_v_par (fset x None) (upd_v_dead (fset x false) (upd_v_dirty (fset x false) (upd_v_pins (fset x 0) (upd_v_map (fset x None) (upd_v_pid (fset x None) v))))))))))))))))).

Definition put_block (x : Z) (X : ublock) (v : gview) : gview :=
  upd_v_bpins (fset x (b_thread_pins X)) (upd_v_dma (fset x (b_dma_maps X)) (upd_v_bring (fset x (b_ring X)) (upd_v_sharers (fset x (b_sharers X)) (upd_v_owner (fset x (Some (b_owner X))) (upd_v_info (fset x (Some (info_of X))) v))))).

Definition drop_block (x : Z) (v : gview) : gview :=
  upd_v_bpins (fset x 0) (upd_v_dma (fset x None) (upd_v_bring (fset x None) (upd_v_sharers (fset x ∅) (upd_v_owner (fset x None) (upd_v_info (fset x None) v))))).

Definition put_edge (x : Z) (X : share_edge) (v : gview) : gview :=
  upd_v_enot (fset x (e_notified X)) (upd_v_enext (fset x (e_pending_next X)) (upd_v_eprev (fset x (e_pending_prev X)) (upd_v_eto (fset x (Some (e_to X))) (upd_v_eblock (fset x (Some (e_block X))) v)))).

Definition drop_edge (x : Z) (v : gview) : gview :=
  upd_v_enot (fset x false) (upd_v_enext (fset x None) (upd_v_eprev (fset x None) (upd_v_eto (fset x None) (upd_v_eblock (fset x None) v)))).

Definition put_ring (x : Z) (X : ring) (v : gview) : gview :=
  upd_v_rslots (fset x (r_nslots X)) (upd_v_rops (fset x (Some (r_ops X))) (upd_v_rblock (fset x (Some (r_block X))) v)).

Definition drop_ring (x : Z) (v : gview) : gview :=
  upd_v_rslots (fset x 0) (upd_v_rops (fset x None) (upd_v_rblock (fset x None) v)).

(** ** How state updates act on the view *)

Ltac view_cols :=
  unfold view; cbv beta iota zeta delta [upd_v_pid upd_v_map upd_v_pins upd_v_dirty upd_v_dead upd_v_par upd_v_children upd_v_notified
    upd_v_exit upd_v_nthreads upd_v_pthreads upd_v_pblocks upd_v_views upd_v_head upd_v_tail
    upd_v_share_ch upd_v_tree_ch upd_v_iommu_ch upd_v_info upd_v_owner upd_v_sharers upd_v_bring
    upd_v_dma upd_v_bpins upd_v_eblock upd_v_eto upd_v_eprev upd_v_enext upd_v_enot upd_v_rblock
    upd_v_rops upd_v_rslots upd_v_threads upd_v_gprocs upd_v_gblocks upd_v_npid upd_v_ntid upd_v_nref
    upd_v_init upd_v_kmap upd_v_kdirty v_pid v_map v_pins v_dirty v_dead v_par v_children v_notified
    v_exit v_nthreads v_pthreads v_pblocks v_views v_head v_tail v_share_ch v_tree_ch v_iommu_ch v_info
    v_owner v_sharers v_bring v_dma v_bpins v_eblock v_eto v_eprev v_enext v_enot v_rblock v_rops
    v_rslots v_threads v_gprocs v_gblocks v_npid v_ntid v_nref v_init v_kmap v_kdirty];
  cbn [k_procs k_blocks k_edges k_rings k_threads k_g_procs k_g_ublocks k_next_pid k_next_tid
    k_next_ref k_g_init k_kas upd_k_procs upd_k_blocks upd_k_edges upd_k_rings upd_k_threads].

Ltac view_solve :=
  intros; view_cols; f_equal;
  let q := fresh "q" in extensionality q; unfold fset;
  match goal with
  | |- context [<[?k := _]> _ !! q] => destruct (decide (q = k))
  | |- context [base.delete ?k _ !! q] => destruct (decide (q = k))
  end; subst;
  rewrite ?lookup_insert_eq, ?lookup_insert_ne, ?lookup_delete_eq, ?lookup_delete_ne by done; simplify_option_eq; done.

Ltac view_threads :=
  intros; view_cols; f_equal; rewrite fmap_insert; apply insert_id; rewrite lookup_fmap; simplify_option_eq; done.

Lemma view_p_dead s x X g : k_procs s !! x = Some X ->
  view (upd_k_procs (insert x (upd_p_dead g X)) s) = upd_v_dead (fset x (g (p_dead X))) (view s).
Proof. view_solve. Qed.

Lemma view_p_parent s x X g : k_procs s !! x = Some X ->
  view (upd_k_procs (insert x (upd_p_parent g X)) s) = upd_v_par (fset x (g (p_parent X))) (view s).
Proof. view_solve. Qed.

Lemma view_p_children s x X g : k_procs s !! x = Some X ->
  view (upd_k_procs (insert x (upd_p_children g X)) s) = upd_v_children (fset x (g (p_children X))) (view s).
Proof. view_solve. Qed.

Lemma view_p_death_notified s x X g : k_procs s !! x = Some X ->
  view (upd_k_procs (insert x (upd_p_death_notified g X)) s) = upd_v_notified (fset x (g (p_death_notified X))) (view s).
Proof. view_solve. Qed.

Lemma view_p_exit_status s x X g : k_procs s !! x = Some X ->
  view (upd_k_procs (insert x (upd_p_exit_status g X)) s) = upd_v_exit (fset x (g (p_exit_status X))) (view s).
Proof. view_solve. Qed.

Lemma view_p_nthreads s x X g : k_procs s !! x = Some X ->
  view (upd_k_procs (insert x (upd_p_nthreads g X)) s) = upd_v_nthreads (fset x (g (p_nthreads X))) (view s).
Proof. view_solve. Qed.

Lemma view_p_threads s x X g : k_procs s !! x = Some X ->
  view (upd_k_procs (insert x (upd_p_threads g X)) s) = upd_v_pthreads (fset x (g (p_threads X))) (view s).
Proof. view_solve. Qed.

Lemma view_p_blocks s x X g : k_procs s !! x = Some X ->
  view (upd_k_procs (insert x (upd_p_blocks g X)) s) = upd_v_pblocks (fset x (g (p_blocks X))) (view s).
Proof. view_solve. Qed.

Lemma view_p_views s x X g : k_procs s !! x = Some X ->
  view (upd_k_procs (insert x (upd_p_views g X)) s) = upd_v_views (fset x (g (p_views X))) (view s).
Proof. view_solve. Qed.

Lemma view_p_unnotified_head s x X g : k_procs s !! x = Some X ->
  view (upd_k_procs (insert x (upd_p_unnotified_head g X)) s) = upd_v_head (fset x (g (p_unnotified_head X))) (view s).
Proof. view_solve. Qed.

Lemma view_p_unnotified_tail s x X g : k_procs s !! x = Some X ->
  view (upd_k_procs (insert x (upd_p_unnotified_tail g X)) s) = upd_v_tail (fset x (g (p_unnotified_tail X))) (view s).
Proof. view_solve. Qed.

Lemma view_p_share_ch s x X g : k_procs s !! x = Some X ->
  view (upd_k_procs (insert x (upd_p_share_ch g X)) s) = upd_v_share_ch (fset x (g (p_share_ch X))) (view s).
Proof. view_solve. Qed.

Lemma view_p_tree_ch s x X g : k_procs s !! x = Some X ->
  view (upd_k_procs (insert x (upd_p_tree_ch g X)) s) = upd_v_tree_ch (fset x (g (p_tree_ch X))) (view s).
Proof. view_solve. Qed.

Lemma view_p_iommu_ch s x X g : k_procs s !! x = Some X ->
  view (upd_k_procs (insert x (upd_p_iommu_ch g X)) s) = upd_v_iommu_ch (fset x (g (p_iommu_ch X))) (view s).
Proof. view_solve. Qed.

Lemma view_b_sharers s x X g : k_blocks s !! x = Some X ->
  view (upd_k_blocks (insert x (upd_b_sharers g X)) s) = upd_v_sharers (fset x (g (b_sharers X))) (view s).
Proof. view_solve. Qed.

Lemma view_b_ring s x X g : k_blocks s !! x = Some X ->
  view (upd_k_blocks (insert x (upd_b_ring g X)) s) = upd_v_bring (fset x (g (b_ring X))) (view s).
Proof. view_solve. Qed.

Lemma view_b_dma_maps s x X g : k_blocks s !! x = Some X ->
  view (upd_k_blocks (insert x (upd_b_dma_maps g X)) s) = upd_v_dma (fset x (g (b_dma_maps X))) (view s).
Proof. view_solve. Qed.

Lemma view_b_thread_pins s x X g : k_blocks s !! x = Some X ->
  view (upd_k_blocks (insert x (upd_b_thread_pins g X)) s) = upd_v_bpins (fset x (g (b_thread_pins X))) (view s).
Proof. view_solve. Qed.

Lemma view_b_owner s x X g : k_blocks s !! x = Some X ->
  view (upd_k_blocks (insert x (upd_b_owner g X)) s) = upd_v_owner (fset x (Some (g (b_owner X)))) (view s).
Proof. view_solve. Qed.

Lemma view_e_pending_prev s x X g : k_edges s !! x = Some X ->
  view (upd_k_edges (insert x (upd_e_pending_prev g X)) s) = upd_v_eprev (fset x (g (e_pending_prev X))) (view s).
Proof. view_solve. Qed.

Lemma view_e_pending_next s x X g : k_edges s !! x = Some X ->
  view (upd_k_edges (insert x (upd_e_pending_next g X)) s) = upd_v_enext (fset x (g (e_pending_next X))) (view s).
Proof. view_solve. Qed.

Lemma view_e_notified s x X g : k_edges s !! x = Some X ->
  view (upd_k_edges (insert x (upd_e_notified g X)) s) = upd_v_enot (fset x (g (e_notified X))) (view s).
Proof. view_solve. Qed.

Lemma view_r_sq_head s x X g : k_rings s !! x = Some X ->
  view (upd_k_rings (insert x (upd_r_sq_head g X)) s) = view s.
Proof. view_solve. Qed.

Lemma view_r_cq_count s x X g : k_rings s !! x = Some X ->
  view (upd_k_rings (insert x (upd_r_cq_count g X)) s) = view s.
Proof. view_solve. Qed.

Lemma view_r_irq_claims s x X g : k_rings s !! x = Some X ->
  view (upd_k_rings (insert x (upd_r_irq_claims g X)) s) = view s.
Proof. view_solve. Qed.

Lemma view_r_nclaims s x X g : k_rings s !! x = Some X ->
  view (upd_k_rings (insert x (upd_r_nclaims g X)) s) = view s.
Proof. view_solve. Qed.

Lemma view_t_status s x X g : k_threads s !! x = Some X ->
  view (upd_k_threads (insert x (upd_t_status g X)) s) = view s.
Proof. view_threads. Qed.

Lemma view_t_on_cpu s x X g : k_threads s !! x = Some X ->
  view (upd_k_threads (insert x (upd_t_on_cpu g X)) s) = view s.
Proof. view_threads. Qed.

Lemma view_t_wait_key s x X g : k_threads s !! x = Some X ->
  view (upd_k_threads (insert x (upd_t_wait_key g X)) s) = view s.
Proof. view_threads. Qed.

Lemma view_t_deadline s x X g : k_threads s !! x = Some X ->
  view (upd_k_threads (insert x (upd_t_deadline g X)) s) = view s.
Proof. view_threads. Qed.

Lemma view_t_deadline_cpu s x X g : k_threads s !! x = Some X ->
  view (upd_k_threads (insert x (upd_t_deadline_cpu g X)) s) = view s.
Proof. view_threads. Qed.

Lemma view_t_wake_state s x X g : k_threads s !! x = Some X ->
  view (upd_k_threads (insert x (upd_t_wake_state g X)) s) = view s.
Proof. view_threads. Qed.

Lemma view_t_frame s x X g : k_threads s !! x = Some X ->
  view (upd_k_threads (insert x (upd_t_frame g X)) s) = view s.
Proof. view_threads. Qed.

Lemma view_new_proc s x X : view (upd_k_procs (insert x X) s) = put_proc x X (view s).
Proof. unfold put_proc. view_solve. Qed.

Lemma view_del_proc s x : view (upd_k_procs (delete x) s) = drop_proc x (view s).
Proof. unfold drop_proc. view_solve. Qed.

Lemma view_new_block s x X : view (upd_k_blocks (insert x X) s) = put_block x X (view s).
Proof. unfold put_block. view_solve. Qed.

Lemma view_del_block s x : view (upd_k_blocks (delete x) s) = drop_block x (view s).
Proof. unfold drop_block. view_solve. Qed.

Lemma view_new_edge s x X : view (upd_k_edges (insert x X) s) = put_edge x X (view s).
Proof. unfold put_edge. view_solve. Qed.

Lemma view_del_edge s x : view (upd_k_edges (delete x) s) = drop_edge x (view s).
Proof. unfold drop_edge. view_solve. Qed.

Lemma view_new_ring s x X : view (upd_k_rings (insert x X) s) = put_ring x X (view s).
Proof. unfold put_ring. view_solve. Qed.

Lemma view_del_ring s x : view (upd_k_rings (delete x) s) = drop_ring x (view s).
Proof. unfold drop_ring. view_solve. Qed.

Lemma view_p_as s x X a : k_procs s !! x = Some X ->
  view (upd_k_procs (insert x (upd_p_as (fun _ => Some a) X)) s) =
  upd_v_map (fset x (Some (as_map a))) (upd_v_pins (fset x (a_pins a)) (upd_v_dirty (fset x (a_dirty a)) (view s))).
Proof. view_solve. Qed.

Lemma view_p_as_none s x X : k_procs s !! x = Some X ->
  view (upd_k_procs (insert x (upd_p_as (fun _ => None) X)) s) =
  upd_v_map (fset x None) (upd_v_pins (fset x 0) (upd_v_dirty (fset x false) (view s))).
Proof. view_solve. Qed.

Lemma view_t_completion_block s x X o : k_threads s !! x = Some X ->
  view (upd_k_threads (insert x (upd_t_completion_block (fun _ => o) X)) s) =
  upd_v_threads (insert x (t_proc X, o)) (view s).
Proof. intros. view_cols. f_equal. by rewrite fmap_insert. Qed.

Lemma view_new_thread s x X : view (upd_k_threads (insert x X) s) = upd_v_threads (insert x (tview X)) (view s).
Proof. view_cols. f_equal. by rewrite fmap_insert. Qed.

Lemma view_del_thread s x : view (upd_k_threads (delete x) s) = upd_v_threads (delete x) (view s).
Proof. view_cols. f_equal. by rewrite fmap_delete. Qed.

End Graph.
