(* ===== verification/Wp.v ===== *)
(** * Weakest preconditions over the ownership graph

    [wp m Q v x]: started in any kernel state whose graph is [v] and whose other
    relevant part is [x], the code [m] returns a value and leaves a state that
    satisfies [Q], or halts for a reason that no invariant of the control plane can
    exclude ([tolerated]: a page fault on user memory, an exhausted heap or id space, or
    the deliberate panic at the death of init).  A
    failed assertion, a dangling pointer, a lock taken against the hierarchy, an
    endless spin and a park all falsify it.  One rule per primitive of [Machine]. *)

From Stdlib Require Import FunctionalExtensionality.
From S2P Require Import Prelude Buddy Paging Siphash PlatformMem Machine Sched Index Channel Umem Process Graph.

Section Wp.
Context {PT : PageTree}.

(** The part of the state that is not in the graph but matters to the code. *)
Record rest := Rest {
  x_threads : gmap Z thread;
  x_futex : gmap Z (gmap (Z * Z) Z);
  x_futex_key : list Z;
  x_futex_seq : Z;
  x_queues : list (list Z);
  x_current : list (option Z);
  x_ases : list (option Z);
  x_deadlines : list (gmap (Z * Z) Z);
  x_this : nat;
  x_pool : buddy_allocator_s;
  x_platform : platform;
  x_mem : Z -> Z;
  x_grants : gmap Z grant;
  x_next_grant : Z;
  x_boot_key : list Z;
  x_ioapic : Z -> bool;
  x_iommu : iommu;
  x_routes : list irq_route;
  x_claims : gmap Z (option Z * Z);
  x_held : list lockid }.

(** The interrupt claims of a ring. *)
Definition rclaims (R : ring) : option Z * Z := (r_irq_claims R, r_nclaims R).

Definition rest_of (s : kstate) : rest :=
  Rest (k_threads s) (k_futex s) (k_futex_key s) (k_futex_seq s) (c_queue <$> k_cpus s)
    (c_current_thread <$> k_cpus s) (c_current_as <$> k_cpus s) (c_deadlines <$> k_cpus s) (k_this s) (k_pool s) (k_platform s)
    (k_mem s) (k_grants s) (k_next_grant_id s) (k_boot_key s) (k_ioapic_ok s) (k_iommu s) (k_routes s) (rclaims <$> k_rings s) (k_held s).

Definition set_threads (f : (gmap Z thread) -> (gmap Z thread)) (x : rest) : rest :=
  Rest (f (x_threads x)) (x_futex x) (x_futex_key x) (x_futex_seq x) (x_queues x) (x_current x) (x_ases x) (x_deadlines x) (x_this x) (x_pool x) (x_platform x) (x_mem x) (x_grants x) (x_next_grant x) (x_boot_key x) (x_ioapic x) (x_iommu x) (x_routes x) (x_claims x) (x_held x).
Definition set_futex (f : (gmap Z (gmap (Z * Z) Z)) -> (gmap Z (gmap (Z * Z) Z))) (x : rest) : rest :=
  Rest (x_threads x) (f (x_futex x)) (x_futex_key x) (x_futex_seq x) (x_queues x) (x_current x) (x_ases x) (x_deadlines x) (x_this x) (x_pool x) (x_platform x) (x_mem x) (x_grants x) (x_next_grant x) (x_boot_key x) (x_ioapic x) (x_iommu x) (x_routes x) (x_claims x) (x_held x).
Definition set_futex_seq (f : Z -> Z) (x : rest) : rest :=
  Rest (x_threads x) (x_futex x) (x_futex_key x) (f (x_futex_seq x)) (x_queues x) (x_current x) (x_ases x) (x_deadlines x) (x_this x) (x_pool x) (x_platform x) (x_mem x) (x_grants x) (x_next_grant x) (x_boot_key x) (x_ioapic x) (x_iommu x) (x_routes x) (x_claims x) (x_held x).
Definition set_queues (f : (list (list Z)) -> (list (list Z))) (x : rest) : rest :=
  Rest (x_threads x) (x_futex x) (x_futex_key x) (x_futex_seq x) (f (x_queues x)) (x_current x) (x_ases x) (x_deadlines x) (x_this x) (x_pool x) (x_platform x) (x_mem x) (x_grants x) (x_next_grant x) (x_boot_key x) (x_ioapic x) (x_iommu x) (x_routes x) (x_claims x) (x_held x).
Definition set_current (f : (list (option Z)) -> (list (option Z))) (x : rest) : rest :=
  Rest (x_threads x) (x_futex x) (x_futex_key x) (x_futex_seq x) (x_queues x) (f (x_current x)) (x_ases x) (x_deadlines x) (x_this x) (x_pool x) (x_platform x) (x_mem x) (x_grants x) (x_next_grant x) (x_boot_key x) (x_ioapic x) (x_iommu x) (x_routes x) (x_claims x) (x_held x).
Definition set_ases (f : (list (option Z)) -> (list (option Z))) (x : rest) : rest :=
  Rest (x_threads x) (x_futex x) (x_futex_key x) (x_futex_seq x) (x_queues x) (x_current x) (f (x_ases x)) (x_deadlines x) (x_this x) (x_pool x) (x_platform x) (x_mem x) (x_grants x) (x_next_grant x) (x_boot_key x) (x_ioapic x) (x_iommu x) (x_routes x) (x_claims x) (x_held x).
Definition set_deadlines (f : (list (gmap (Z * Z) Z)) -> (list (gmap (Z * Z) Z))) (x : rest) : rest :=
  Rest (x_threads x) (x_futex x) (x_futex_key x) (x_futex_seq x) (x_queues x) (x_current x) (x_ases x) (f (x_deadlines x)) (x_this x) (x_pool x) (x_platform x) (x_mem x) (x_grants x) (x_next_grant x) (x_boot_key x) (x_ioapic x) (x_iommu x) (x_routes x) (x_claims x) (x_held x).
Definition set_pool (a : buddy_allocator_s) (x : rest) : rest :=
  Rest (x_threads x) (x_futex x) (x_futex_key x) (x_futex_seq x) (x_queues x) (x_current x) (x_ases x) (x_deadlines x) (x_this x) a (x_platform x) (x_mem x) (x_grants x) (x_next_grant x) (x_boot_key x) (x_ioapic x) (x_iommu x) (x_routes x) (x_claims x) (x_held x).
Definition set_mem (f : (Z -> Z) -> (Z -> Z)) (x : rest) : rest :=
  Rest (x_threads x) (x_futex x) (x_futex_key x) (x_futex_seq x) (x_queues x) (x_current x) (x_ases x) (x_deadlines x) (x_this x) (x_pool x) (x_platform x) (f (x_mem x)) (x_grants x) (x_next_grant x) (x_boot_key x) (x_ioapic x) (x_iommu x) (x_routes x) (x_claims x) (x_held x).
Definition set_grants (f : (gmap Z grant) -> (gmap Z grant)) (x : rest) : rest :=
  Rest (x_threads x) (x_futex x) (x_futex_key x) (x_futex_seq x) (x_queues x) (x_current x) (x_ases x) (x_deadlines x) (x_this x) (x_pool x) (x_platform x) (x_mem x) (f (x_grants x)) (x_next_grant x) (x_boot_key x) (x_ioapic x) (x_iommu x) (x_routes x) (x_claims x) (x_held x).
Definition set_next_grant (f : Z -> Z) (x : rest) : rest :=
  Rest (x_threads x) (x_futex x) (x_futex_key x) (x_futex_seq x) (x_queues x) (x_current x) (x_ases x) (x_deadlines x) (x_this x) (x_pool x) (x_platform x) (x_mem x) (x_grants x) (f (x_next_grant x)) (x_boot_key x) (x_ioapic x) (x_iommu x) (x_routes x) (x_claims x) (x_held x).
Definition set_iommu (f : iommu -> iommu) (x : rest) : rest :=
  Rest (x_threads x) (x_futex x) (x_futex_key x) (x_futex_seq x) (x_queues x) (x_current x) (x_ases x) (x_deadlines x) (x_this x) (x_pool x) (x_platform x) (x_mem x) (x_grants x) (x_next_grant x) (x_boot_key x) (x_ioapic x) (f (x_iommu x)) (x_routes x) (x_claims x) (x_held x).
Definition set_routes (f : (list irq_route) -> (list irq_route)) (x : rest) : rest :=
  Rest (x_threads x) (x_futex x) (x_futex_key x) (x_futex_seq x) (x_queues x) (x_current x) (x_ases x) (x_deadlines x) (x_this x) (x_pool x) (x_platform x) (x_mem x) (x_grants x) (x_next_grant x) (x_boot_key x) (x_ioapic x) (x_iommu x) (f (x_routes x)) (x_claims x) (x_held x).
Definition set_claims (f : (gmap Z (option Z * Z)) -> (gmap Z (option Z * Z))) (x : rest) : rest :=
  Rest (x_threads x) (x_futex x) (x_futex_key x) (x_futex_seq x) (x_queues x) (x_current x) (x_ases x) (x_deadlines x) (x_this x) (x_pool x) (x_platform x) (x_mem x) (x_grants x) (x_next_grant x) (x_boot_key x) (x_ioapic x) (x_iommu x) (x_routes x) (f (x_claims x)) (x_held x).
Definition set_held (a : list lockid) (x : rest) : rest :=
  Rest (x_threads x) (x_futex x) (x_futex_key x) (x_futex_seq x) (x_queues x) (x_current x) (x_ases x) (x_deadlines x) (x_this x) (x_pool x) (x_platform x) (x_mem x) (x_grants x) (x_next_grant x) (x_boot_key x) (x_ioapic x) (x_iommu x) (x_routes x) (x_claims x) a.

Definition tolerated (h : halt) : Prop :=
  match h with
  | HFault _ | HOom => True
  | HAssert msg => msg = "init died"%string \/ msg = "capability: grant id exhausted"%string \/
      msg = "iommu: domain id space exhausted"%string
  | _ => False
  end.

Definition outcome_ok {A} (o : outcome A) (Q : A -> kstate -> Prop) : Prop :=
  match o with Ret a s => Q a s | Park _ => False | Halt h _ => tolerated h end.

Definition wp {A} (m : M A) (Q : A -> gview -> rest -> Prop) (v : gview) (x : rest) : Prop :=
  forall s, view s = v -> rest_of s = x -> outcome_ok (m s) (fun a s => Q a (view s) (rest_of s)).

Section Rules.
Context {A : Type}.
Implicit Types (Q : A -> gview -> rest -> Prop) (v : gview) (x : rest).

Lemma wp_adequate (m : M A) Q s : wp m Q (view s) (rest_of s) ->
  outcome_ok (m s) (fun a s => Q a (view s) (rest_of s)).
Proof. intros H. by apply H. Qed.

Lemma wp_mono (m : M A) Q Q' v x : wp m Q v x -> (forall a v x, Q a v x -> Q' a v x) -> wp m Q' v x.
Proof. intros H HQ s Hv Hx. specialize (H s Hv Hx). destruct (m s); simpl in *; auto. Qed.

Lemma wp_ret a Q v x : Q a v x -> wp (mret a) Q v x.
Proof. intros H s <- <-. exact H. Qed.

Lemma wp_die h Q v x : tolerated h -> wp (die h) Q v x.
Proof. by intros H s _ _. Qed.

End Rules.

Lemma wp_bind {A B} (m : M A) (k : A -> M B) Q v x :
  wp m (fun a v x => wp (k a) Q v x) v x -> wp (mbind k m) Q v x.
Proof.
  intros H s Hv Hx. unfold mbind, M_bind. specialize (H s Hv Hx).
  destruct (m s) as [a s'|s'|h s']; simpl in *; [|done..]. by apply H.
Qed.

Lemma wp_skip Q v x : Q tt v x -> wp skip Q v x.
Proof. apply wp_ret. Qed.

Lemma wp_asserts b msg Q v x : b = true -> Q tt v x -> wp (asserts b msg) Q v x.
Proof. intros -> H. by apply wp_ret. Qed.

Lemma wp_when (b : bool) m Q v x : (b = true -> wp m Q v x) -> (b = false -> Q tt v x) -> wp (when b m) Q v x.
Proof. intros H1 H2. destruct b; [auto|]. apply wp_ret; auto. Qed.

Lemma wp_deref {A} (o : option A) a Q v x : o = Some a -> Q a v x -> wp (deref o) Q v x.
Proof. intros -> H. by apply wp_ret. Qed.

(** ** Locks and allocation *)

Lemma wp_lock l Q v x : forallb (fun h => above h l) (x_held x) = true ->
  Q tt v (set_held (l :: x_held x) x) -> wp (lock l) Q v x.
Proof. intros Hh H s <- <-. unfold lock. change (x_held (rest_of s)) with (k_held s) in Hh. rewrite Hh. exact H. Qed.

Lemma wp_unlock l Q v x : l ∈ x_held x ->
  Q tt v (set_held (List.remove lockid_eq l (x_held x)) x) -> wp (unlock l) Q v x.
Proof.
  intros Hh H s <- <-. unfold unlock. change (x_held (rest_of s)) with (k_held s) in Hh.
  rewrite bool_decide_true by done. exact H.
Qed.

Lemma wp_try_alloc Q v x : (forall ok, Q ok v x) -> wp try_alloc Q v x.
Proof. intros H s <- <-. unfold try_alloc. destruct (k_oom s); apply H. Qed.

Lemma wp_must_alloc Q v x : Q tt v x -> wp must_alloc Q v x.
Proof. intros H. apply wp_bind, wp_try_alloc. intros []; [by apply wp_ret|by apply wp_die]. Qed.

Lemma wp_new_ref Q v x : Q (v_nref v) (upd_v_nref Z.succ v) x -> wp new_ref Q v x.
Proof. intros H s <- <-. exact H. Qed.

(** ** Globals *)

Lemma wp_gets {A} (f : kstate -> A) a Q v x :
  (forall s, view s = v -> rest_of s = x -> f s = a) -> Q a v x -> wp (gets f) Q v x.
Proof. intros Hf H s Hv Hx. simpl. rewrite (Hf s Hv Hx). by subst. Qed.

Lemma wp_gets_any {A} (f : kstate -> A) Q v x : (forall a, Q a v x) -> wp (gets f) Q v x.
Proof. intros H s <- <-. apply H. Qed.

Lemma wp_modify f Q v x v' x' : (forall s, view s = v -> rest_of s = x -> view (f s) = v' /\ rest_of (f s) = x') ->
  Q tt v' x' -> wp (modify f) Q v x.
Proof. intros Hf H s Hv Hx. simpl. by destruct (Hf s Hv Hx) as [-> ->]. Qed.

(** ** Reading structs *)

Definition proc_of (v : gview) (p pid : Z) (oa : option aspace) : process :=
  Process pid oa (v_dead v p) (v_par v p) (v_children v p) (v_notified v p) (v_exit v p) (v_nthreads v p)
    (v_pthreads v p) (v_pblocks v p) (v_views v p) (v_head v p) (v_tail v p) (v_share_ch v p) (v_tree_ch v p)
    (v_iommu_ch v p).

Definition block_of (v : gview) (b : Z) (i : binfo) (owner : Z) : ublock :=
  Ublock (i_base i) (i_order i) (i_bytes i) (i_backing i) (i_device_flags i) (i_kernel_flags i) (i_delegatable i)
    owner (v_sharers v b) (v_bring v b) (v_dma v b) (v_bpins v b).

Definition edge_of (v : gview) (e b to : Z) : share_edge :=
  ShareEdge b to (v_eprev v e) (v_enext v e) (v_enot v e).

(** [oa] is the address space whose columns are those of process [p]. *)
Definition as_of (v : gview) (p : Z) (oa : option aspace) : Prop :=
  option_map as_map oa = v_map v p /\ from_option a_pins 0 oa = v_pins v p /\
  from_option a_dirty false oa = v_dirty v p.

Lemma view_proc s p pid : v_pid (view s) p = Some pid ->
  exists oa, k_procs s !! p = Some (proc_of (view s) p pid oa) /\ as_of (view s) p oa.
Proof.
  simpl. destruct (k_procs s !! p) as [P|] eqn:E; [|done]. simpl. intros [= <-]. exists (p_as P).
  split; [unfold proc_of; simpl; rewrite E; by destruct P|]. unfold as_of. simpl. by rewrite E.
Qed.

Lemma view_block s b i o : v_info (view s) b = Some i -> v_owner (view s) b = Some o ->
  k_blocks s !! b = Some (block_of (view s) b i o).
Proof.
  simpl. destruct (k_blocks s !! b) as [B|] eqn:E; [|done]. simpl. intros [= <-] [= <-].
  unfold block_of. simpl. rewrite E. by destruct B.
Qed.

Lemma view_edge s e b to : v_eblock (view s) e = Some b -> v_eto (view s) e = Some to ->
  k_edges s !! e = Some (edge_of (view s) e b to).
Proof.
  simpl. destruct (k_edges s !! e) as [E|] eqn:H; [|done]. simpl. intros [= <-] [= <-].
  unfold edge_of. simpl. rewrite H. by destruct E.
Qed.

Lemma view_ring s r b ops : v_rblock (view s) r = Some b -> v_rops (view s) r = Some ops ->
  exists sq cq cl nc, k_rings s !! r = Some (Ring ops b (v_rslots (view s) r) sq cq cl nc).
Proof.
  simpl. destruct (k_rings s !! r) as [R|] eqn:H; [|done]. simpl. intros [= <-] [= <-].
  exists (r_sq_head R), (r_cq_count R), (r_irq_claims R), (r_nclaims R). by destruct R.
Qed.

Lemma wp_get_proc p pid Q v x : v_pid v p = Some pid ->
  (forall oa, as_of v p oa -> Q (proc_of v p pid oa) v x) -> wp (get_proc p) Q v x.
Proof.
  intros Hp H s <- <-. destruct (view_proc s p pid Hp) as (oa & E & Ha). unfold get_proc. rewrite E. by apply H.
Qed.

Lemma wp_get_block b i o Q v x : v_info v b = Some i -> v_owner v b = Some o ->
  Q (block_of v b i o) v x -> wp (get_block b) Q v x.
Proof. intros Hi Ho H s <- <-. unfold get_block. by rewrite (view_block s b i o). Qed.

Lemma wp_get_edge e b to Q v x : v_eblock v e = Some b -> v_eto v e = Some to ->
  Q (edge_of v e b to) v x -> wp (get_edge e) Q v x.
Proof. intros Hi Ho H s <- <-. unfold get_edge. by rewrite (view_edge s e b to). Qed.

Lemma wp_get_ring r b ops Q v x : v_rblock v r = Some b -> v_rops v r = Some ops ->
  (forall sq cq cl nc, x_claims x !! r = Some (cl, nc) -> Q (Ring ops b (v_rslots v r) sq cq cl nc) v x) ->
  wp (get_ring r) Q v x.
Proof.
  intros Hi Ho H s <- <-. destruct (view_ring s r b ops Hi Ho) as (sq & cq & cl & nc & E).
  unfold get_ring. rewrite E. apply H. simpl. by rewrite lookup_fmap, E.
Qed.

Lemma wp_get_thread t T Q v x : x_threads x !! t = Some T -> Q T v x -> wp (get_thread t) Q v x.
Proof. intros Ht H s <- <-. unfold get_thread. change (x_threads (rest_of s)) with (k_threads s) in Ht. by rewrite Ht. Qed.

(** [c] is processor [i] as the columns show it. *)
Record cpu_of (x : rest) (i : nat) (c : cpu) : Prop := {
  cpu_queue : x_queues x !! i = Some (c_queue c);
  cpu_current : x_current x !! i = Some (c_current_thread c);
  cpu_as : x_ases x !! i = Some (c_current_as c);
  cpu_deadlines : x_deadlines x !! i = Some (c_deadlines c) }.

Lemma rest_cpu s i c : k_cpus s !! i = Some c -> cpu_of (rest_of s) i c.
Proof. intros Hc. split; simpl; by rewrite list_lookup_fmap, Hc. Qed.

Lemma wp_get_cpu i Q v x : (Z.to_nat i < length (x_queues x))%nat ->
  (forall c, cpu_of x (Z.to_nat i) c -> Q c v x) -> wp (get_cpu i) Q v x.
Proof.
  intros Hi H s <- <-. simpl in Hi. rewrite length_fmap in Hi. apply lookup_lt_is_Some in Hi as [c Hc].
  unfold get_cpu. rewrite Hc. by apply H, rest_cpu.
Qed.

(** ** Writing structs *)

Lemma wp_mod_proc p f pid Q v x v' : v_pid v p = Some pid ->
  (forall s P, view s = v -> k_procs s !! p = Some P -> view (upd_k_procs (insert p (f P)) s) = v') ->
  Q tt v' x -> wp (mod_proc p f) Q v x.
Proof.
  intros Hp Hf H s <- <-. destruct (view_proc s p pid Hp) as (oa & E & Ha). unfold mod_proc. rewrite E. simpl.
  by rewrite (Hf s _ eq_refl E).
Qed.

Lemma wp_mod_block b f Q v x v' : is_Some (v_info v b) ->
  (forall s B, view s = v -> k_blocks s !! b = Some B -> view (upd_k_blocks (insert b (f B)) s) = v') ->
  Q tt v' x -> wp (mod_block b f) Q v x.
Proof.
  intros [i Hi] Hf H s <- <-. unfold mod_block. simpl in Hi. destruct (k_blocks s !! b) as [B|] eqn:E; [|done].
  simpl. by rewrite (Hf s _ eq_refl E).
Qed.

Lemma wp_mod_edge e f Q v x v' : is_Some (v_eblock v e) ->
  (forall s E, view s = v -> k_edges s !! e = Some E -> view (upd_k_edges (insert e (f E)) s) = v') ->
  Q tt v' x -> wp (mod_edge e f) Q v x.
Proof.
  intros [i Hi] Hf H s <- <-. unfold mod_edge. simpl in Hi. destruct (k_edges s !! e) as [B|] eqn:E; [|done].
  simpl. by rewrite (Hf s _ eq_refl E).
Qed.

Lemma wp_mod_ring r f Q v x : is_Some (v_rblock v r) ->
  (forall s R, k_rings s !! r = Some R -> view (upd_k_rings (insert r (f R)) s) = view s /\ rclaims (f R) = rclaims R) ->
  Q tt v x -> wp (mod_ring r f) Q v x.
Proof.
  intros [i Hi] Hf H s <- <-. unfold mod_ring. simpl in Hi. destruct (k_rings s !! r) as [R|] eqn:E; [|done].
  simpl. destruct (Hf s _ E) as [-> Hc]. unfold rest_of in *. cbn [k_rings upd_k_rings] in *.
  rewrite fmap_insert, Hc. by rewrite insert_id by (by rewrite lookup_fmap, E).
Qed.

Lemma wp_mod_thread t f T Q v x : x_threads x !! t = Some T -> tview (f T) = tview T ->
  Q tt v (set_threads (insert t (f T)) x) -> wp (mod_thread t f) Q v x.
Proof.
  intros Ht Hf H s <- <-. change (x_threads (rest_of s)) with (k_threads s) in Ht.
  unfold mod_thread. rewrite Ht. simpl.
  replace (view (upd_k_threads (insert t (f T)) s)) with (view s); [exact H|].
  rewrite view_new_thread, Hf. unfold view, upd_v_threads. cbn -[tview]. f_equal.
  symmetry. apply insert_id. by rewrite lookup_fmap, Ht.
Qed.

(** The columns of the processors have one length. *)
Definition columns_ok (x : rest) : Prop :=
  length (x_current x) = length (x_queues x) /\ length (x_ases x) = length (x_queues x) /\
  length (x_deadlines x) = length (x_queues x).
Lemma wp_columns {A} (m : M A) Q v x : (columns_ok x -> wp m Q v x) -> wp m Q v x.
Proof. intros H s Hv Hx. apply H; [|done..]. subst x. unfold columns_ok. simpl. by rewrite !length_fmap. Qed.

(** Processor [i] becomes [c] in every column. *)
Definition put_cpu (i : nat) (c : cpu) (x : rest) : rest :=
  set_queues (insert i (c_queue c)) (set_current (insert i (c_current_thread c))
    (set_ases (insert i (c_current_as c)) (set_deadlines (insert i (c_deadlines c)) x))).

Lemma wp_mod_cpu i f Q v x : (Z.to_nat i < length (x_queues x))%nat ->
  (forall c, cpu_of x (Z.to_nat i) c -> Q tt v (put_cpu (Z.to_nat i) (f c) x)) -> wp (mod_cpu i f) Q v x.
Proof.
  intros Hi H s <- <-. simpl in Hi. rewrite length_fmap in Hi. apply lookup_lt_is_Some in Hi as [c Hc].
  unfold mod_cpu. rewrite Hc. specialize (H c (rest_cpu s _ c Hc)). simpl.
  replace (rest_of _) with (put_cpu (Z.to_nat i) (f c) (rest_of s)); [exact H|].
  unfold put_cpu, rest_of, set_queues, set_current, set_ases, set_deadlines. cbn -[fmap list_fmap].
  by rewrite !list_fmap_insert.
Qed.

(** The columns a field update does not touch stay. *)
Ltac columns_rule :=
  let Ha := fresh "Ha" in let H := fresh "H" in
  intros Ha H; apply wp_columns; intros (? & ? & ?); apply wp_mod_cpu; [try apply lookup_lt_Some in Ha; lia|];
  let c := fresh "c" in let Hq := fresh "Hq" in let Hc := fresh "Hc" in let Hs := fresh "Hs" in let Hd := fresh "Hd" in
  intros c [Hq Hc Hs Hd];
  match goal with x : rest |- _ => destruct x end;
  unfold put_cpu, set_queues, set_current, set_ases, set_deadlines in *; simpl in *; simplify_eq;
  rewrite ?(list_insert_id _ _ _ Hq), ?(list_insert_id _ _ _ Hc), ?(list_insert_id _ _ _ Hs), ?(list_insert_id _ _ _ Hd);
  exact H.

Lemma wp_c_queue i g a Q v x : x_queues x !! Z.to_nat i = Some a ->
  Q tt v (set_queues (insert (Z.to_nat i) (g a)) x) -> wp (mod_cpu i (upd_c_queue g)) Q v x.
Proof. columns_rule. Qed.

Lemma wp_c_current_thread i g a Q v x : x_current x !! Z.to_nat i = Some a ->
  Q tt v (set_current (insert (Z.to_nat i) (g a)) x) -> wp (mod_cpu i (upd_c_current_thread g)) Q v x.
Proof. columns_rule. Qed.

Lemma wp_c_current_as i g a Q v x : x_ases x !! Z.to_nat i = Some a ->
  Q tt v (set_ases (insert (Z.to_nat i) (g a)) x) -> wp (mod_cpu i (upd_c_current_as g)) Q v x.
Proof. columns_rule. Qed.

Lemma wp_c_deadlines i g a Q v x : x_deadlines x !! Z.to_nat i = Some a ->
  Q tt v (set_deadlines (insert (Z.to_nat i) (g a)) x) -> wp (mod_cpu i (upd_c_deadlines g)) Q v x.
Proof. columns_rule. Qed.

Lemma wp_c_idle i g Q v x : (Z.to_nat i < length (x_queues x))%nat -> Q tt v x -> wp (mod_cpu i (upd_c_idle g)) Q v x.
Proof. columns_rule. Qed.

Lemma wp_c_quantum_deadline_ns i g Q v x : (Z.to_nat i < length (x_queues x))%nat -> Q tt v x -> wp (mod_cpu i (upd_c_quantum_deadline_ns g)) Q v x.
Proof. columns_rule. Qed.

Lemma wp_c_fs_base i g Q v x : (Z.to_nat i < length (x_queues x))%nat -> Q tt v x -> wp (mod_cpu i (upd_c_fs_base g)) Q v x.
Proof. columns_rule. Qed.

Lemma wp_c_gs_base i g Q v x : (Z.to_nat i < length (x_queues x))%nat -> Q tt v x -> wp (mod_cpu i (upd_c_gs_base g)) Q v x.
Proof. columns_rule. Qed.

Lemma wp_emit e Q v x : Q tt v x -> wp (emit e) Q v x.
Proof. intros H s <- <-. exact H. Qed.

Ltac mod_proc_rule L :=
  intros [pid Hp] H; eapply wp_mod_proc; [exact Hp| |exact H];
  let E := fresh in intros s P <- E; rewrite (L _ _ _ _ E); simpl; by rewrite E.
Ltac mod_block_rule L :=
  intros Hp H; eapply wp_mod_block; [exact Hp| |exact H];
  let E := fresh in intros s B <- E; rewrite (L _ _ _ _ E); simpl; by rewrite ?E.
Ltac mod_edge_rule L :=
  intros Hp H; eapply wp_mod_edge; [exact Hp| |exact H];
  let E := fresh in intros s B <- E; rewrite (L _ _ _ _ E); simpl; by rewrite E.
Ltac mod_ring_rule L :=
  intros Hp H; eapply wp_mod_ring; [exact Hp| |exact H];
  let E := fresh in intros s B E; split; [exact (L _ _ _ _ E)|done].

Lemma wp_p_dead p g Q v x : is_Some (v_pid v p) ->
  Q tt (upd_v_dead (fset p (g (v_dead v p))) v) x -> wp (mod_proc p (upd_p_dead g)) Q v x.
Proof. mod_proc_rule view_p_dead. Qed.

Lemma wp_p_parent p g Q v x : is_Some (v_pid v p) ->
  Q tt (upd_v_par (fset p (g (v_par v p))) v) x -> wp (mod_proc p (upd_p_parent g)) Q v x.
Proof. mod_proc_rule view_p_parent. Qed.

Lemma wp_p_children p g Q v x : is_Some (v_pid v p) ->
  Q tt (upd_v_children (fset p (g (v_children v p))) v) x -> wp (mod_proc p (upd_p_children g)) Q v x.
Proof. mod_proc_rule view_p_children. Qed.

Lemma wp_p_death_notified p g Q v x : is_Some (v_pid v p) ->
  Q tt (upd_v_notified (fset p (g (v_notified v p))) v) x -> wp (mod_proc p (upd_p_death_notified g)) Q v x.
Proof. mod_proc_rule view_p_death_notified. Qed.

Lemma wp_p_exit_status p g Q v x : is_Some (v_pid v p) ->
  Q tt (upd_v_exit (fset p (g (v_exit v p))) v) x -> wp (mod_proc p (upd_p_exit_status g)) Q v x.
Proof. mod_proc_rule view_p_exit_status. Qed.

Lemma wp_p_nthreads p g Q v x : is_Some (v_pid v p) ->
  Q tt (upd_v_nthreads (fset p (g (v_nthreads v p))) v) x -> wp (mod_proc p (upd_p_nthreads g)) Q v x.
Proof. mod_proc_rule view_p_nthreads. Qed.

Lemma wp_p_threads p g Q v x : is_Some (v_pid v p) ->
  Q tt (upd_v_pthreads (fset p (g (v_pthreads v p))) v) x -> wp (mod_proc p (upd_p_threads g)) Q v x.
Proof. mod_proc_rule view_p_threads. Qed.

Lemma wp_p_blocks p g Q v x : is_Some (v_pid v p) ->
  Q tt (upd_v_pblocks (fset p (g (v_pblocks v p))) v) x -> wp (mod_proc p (upd_p_blocks g)) Q v x.
Proof. mod_proc_rule view_p_blocks. Qed.

Lemma wp_p_views p g Q v x : is_Some (v_pid v p) ->
  Q tt (upd_v_views (fset p (g (v_views v p))) v) x -> wp (mod_proc p (upd_p_views g)) Q v x.
Proof. mod_proc_rule view_p_views. Qed.

Lemma wp_p_unnotified_head p g Q v x : is_Some (v_pid v p) ->
  Q tt (upd_v_head (fset p (g (v_head v p))) v) x -> wp (mod_proc p (upd_p_unnotified_head g)) Q v x.
Proof. mod_proc_rule view_p_unnotified_head. Qed.

Lemma wp_p_unnotified_tail p g Q v x : is_Some (v_pid v p) ->
  Q tt (upd_v_tail (fset p (g (v_tail v p))) v) x -> wp (mod_proc p (upd_p_unnotified_tail g)) Q v x.
Proof. mod_proc_rule view_p_unnotified_tail. Qed.

Lemma wp_p_share_ch p g Q v x : is_Some (v_pid v p) ->
  Q tt (upd_v_share_ch (fset p (g (v_share_ch v p))) v) x -> wp (mod_proc p (upd_p_share_ch g)) Q v x.
Proof. mod_proc_rule view_p_share_ch. Qed.

Lemma wp_p_tree_ch p g Q v x : is_Some (v_pid v p) ->
  Q tt (upd_v_tree_ch (fset p (g (v_tree_ch v p))) v) x -> wp (mod_proc p (upd_p_tree_ch g)) Q v x.
Proof. mod_proc_rule view_p_tree_ch. Qed.

Lemma wp_p_iommu_ch p g Q v x : is_Some (v_pid v p) ->
  Q tt (upd_v_iommu_ch (fset p (g (v_iommu_ch v p))) v) x -> wp (mod_proc p (upd_p_iommu_ch g)) Q v x.
Proof. mod_proc_rule view_p_iommu_ch. Qed.

Lemma wp_b_sharers b g Q v x : is_Some (v_info v b) ->
  Q tt (upd_v_sharers (fset b (g (v_sharers v b))) v) x -> wp (mod_block b (upd_b_sharers g)) Q v x.
Proof. mod_block_rule view_b_sharers. Qed.

Lemma wp_b_ring b g Q v x : is_Some (v_info v b) ->
  Q tt (upd_v_bring (fset b (g (v_bring v b))) v) x -> wp (mod_block b (upd_b_ring g)) Q v x.
Proof. mod_block_rule view_b_ring. Qed.

Lemma wp_b_dma_maps b g Q v x : is_Some (v_info v b) ->
  Q tt (upd_v_dma (fset b (g (v_dma v b))) v) x -> wp (mod_block b (upd_b_dma_maps g)) Q v x.
Proof. mod_block_rule view_b_dma_maps. Qed.

Lemma wp_b_thread_pins b g Q v x : is_Some (v_info v b) ->
  Q tt (upd_v_bpins (fset b (g (v_bpins v b))) v) x -> wp (mod_block b (upd_b_thread_pins g)) Q v x.
Proof. mod_block_rule view_b_thread_pins. Qed.

Lemma wp_b_owner b o Q v x : is_Some (v_info v b) ->
  Q tt (upd_v_owner (fset b (Some o)) v) x -> wp (mod_block b (upd_b_owner (fun _ => o))) Q v x.
Proof. mod_block_rule view_b_owner. Qed.

Lemma wp_e_pending_prev e g Q v x : is_Some (v_eblock v e) ->
  Q tt (upd_v_eprev (fset e (g (v_eprev v e))) v) x -> wp (mod_edge e (upd_e_pending_prev g)) Q v x.
Proof. mod_edge_rule view_e_pending_prev. Qed.

Lemma wp_e_pending_next e g Q v x : is_Some (v_eblock v e) ->
  Q tt (upd_v_enext (fset e (g (v_enext v e))) v) x -> wp (mod_edge e (upd_e_pending_next g)) Q v x.
Proof. mod_edge_rule view_e_pending_next. Qed.

Lemma wp_e_notified e g Q v x : is_Some (v_eblock v e) ->
  Q tt (upd_v_enot (fset e (g (v_enot v e))) v) x -> wp (mod_edge e (upd_e_notified g)) Q v x.
Proof. mod_edge_rule view_e_notified. Qed.

Lemma wp_r_sq_head r g Q v x : is_Some (v_rblock v r) -> Q tt v x -> wp (mod_ring r (upd_r_sq_head g)) Q v x.
Proof. mod_ring_rule view_r_sq_head. Qed.

Lemma wp_r_cq_count r g Q v x : is_Some (v_rblock v r) -> Q tt v x -> wp (mod_ring r (upd_r_cq_count g)) Q v x.
Proof. mod_ring_rule view_r_cq_count. Qed.

Lemma wp_unlink_edge e Q v x : is_Some (v_eblock v e) ->
  Q tt (upd_v_enext (fset e None) (upd_v_eprev (fset e None) v)) x ->
  wp (mod_edge e (fun E => upd_e_pending_next (fun _ => None) (upd_e_pending_prev (fun _ => None) E))) Q v x.
Proof.
  intros Hp H. eapply wp_mod_edge; [exact Hp| |exact H]. intros s E <- He.
  pose proof (view_e_pending_prev s e E (fun _ => None) He) as H1. simpl in H1. rewrite <-H1.
  rewrite <-(view_e_pending_next _ e (upd_e_pending_prev (fun _ => None) E) (fun _ => None)); [|by apply lookup_insert_eq].
  f_equal. unfold upd_k_edges. simpl. by rewrite insert_insert_eq.
Qed.

Lemma wp_r_irq_claims r g cl nc Q v x : is_Some (v_rblock v r) -> x_claims x !! r = Some (cl, nc) ->
  Q tt v (set_claims (insert r (g cl, nc)) x) -> wp (mod_ring r (upd_r_irq_claims g)) Q v x.
Proof.
  intros [i Hi] Hc H s <- <-. unfold mod_ring. simpl in Hi. destruct (k_rings s !! r) as [R|] eqn:E; [|done]. simpl.
  simpl in Hc. rewrite lookup_fmap, E in Hc. injection Hc as <- <-.
  rewrite (view_r_irq_claims s r R g E). unfold rest_of, set_claims in *. simpl. by rewrite fmap_insert.
Qed.

Lemma wp_r_nclaims r g cl nc Q v x : is_Some (v_rblock v r) -> x_claims x !! r = Some (cl, nc) ->
  Q tt v (set_claims (insert r (cl, g nc)) x) -> wp (mod_ring r (upd_r_nclaims g)) Q v x.
Proof.
  intros [i Hi] Hc H s <- <-. unfold mod_ring. simpl in Hi. destruct (k_rings s !! r) as [R|] eqn:E; [|done]. simpl.
  simpl in Hc. rewrite lookup_fmap, E in Hc. injection Hc as <- <-.
  rewrite (view_r_nclaims s r R g E). unfold rest_of, set_claims in *. simpl. by rewrite fmap_insert.
Qed.

(** ** New and freed objects *)

Lemma wp_new_proc p P Q v x : Q tt (put_proc p P v) x -> wp (modify (upd_k_procs (insert p P))) Q v x.
Proof. intros H. eapply wp_modify; [|exact H]. intros s <- <-. split; [apply view_new_proc|done]. Qed.

Lemma wp_free_proc p Q v x : Q tt (drop_proc p v) x -> wp (modify (upd_k_procs (delete p))) Q v x.
Proof. intros H. eapply wp_modify; [|exact H]. intros s <- <-. split; [apply view_del_proc|done]. Qed.

Lemma wp_new_block b B Q v x : Q tt (put_block b B v) x -> wp (modify (upd_k_blocks (insert b B))) Q v x.
Proof. intros H. eapply wp_modify; [|exact H]. intros s <- <-. split; [apply view_new_block|done]. Qed.

Lemma wp_free_block b Q v x : Q tt (drop_block b v) x -> wp (modify (upd_k_blocks (delete b))) Q v x.
Proof. intros H. eapply wp_modify; [|exact H]. intros s <- <-. split; [apply view_del_block|done]. Qed.

Lemma wp_new_edge e E Q v x : Q tt (put_edge e E v) x -> wp (modify (upd_k_edges (insert e E))) Q v x.
Proof. intros H. eapply wp_modify; [|exact H]. intros s <- <-. split; [apply view_new_edge|done]. Qed.

Lemma wp_free_edge e Q v x : Q tt (drop_edge e v) x -> wp (modify (upd_k_edges (delete e))) Q v x.
Proof. intros H. eapply wp_modify; [|exact H]. intros s <- <-. split; [apply view_del_edge|done]. Qed.

Lemma wp_new_ring r R Q v x : Q tt (put_ring r R v) (set_claims (insert r (rclaims R)) x) ->
  wp (modify (upd_k_rings (insert r R))) Q v x.
Proof.
  intros H. eapply wp_modify; [|exact H]. intros s <- <-. split; [apply view_new_ring|].
  unfold rest_of, set_claims. simpl. by rewrite fmap_insert.
Qed.

Lemma wp_free_ring r Q v x : Q tt (drop_ring r v) (set_claims (delete r) x) -> wp (modify (upd_k_rings (delete r))) Q v x.
Proof.
  intros H. eapply wp_modify; [|exact H]. intros s <- <-. split; [apply view_del_ring|].
  unfold rest_of, set_claims. simpl. by rewrite fmap_delete.
Qed.

Lemma wp_new_thread t T Q v x : Q tt (upd_v_threads (insert t (tview T)) v) (set_threads (insert t T) x) ->
  wp (modify (upd_k_threads (insert t T))) Q v x.
Proof. intros H. eapply wp_modify; [|exact H]. intros s <- <-. split; [apply view_new_thread|done]. Qed.

Lemma wp_free_thread t Q v x : Q tt (upd_v_threads (delete t) v) (set_threads (delete t) x) ->
  wp (modify (upd_k_threads (delete t))) Q v x.
Proof. intros H. eapply wp_modify; [|exact H]. intros s <- <-. split; [apply view_del_thread|done]. Qed.

Lemma wp_completion_block t T o Q v x : x_threads x !! t = Some T ->
  Q tt (upd_v_threads (insert t (t_proc T, o)) v) (set_threads (insert t (upd_t_completion_block (fun _ => o) T)) x) ->
  wp (mod_thread t (upd_t_completion_block (fun _ => o))) Q v x.
Proof.
  intros Ht H s <- <-. change (x_threads (rest_of s)) with (k_threads s) in Ht. unfold mod_thread. rewrite Ht. simpl.
  by rewrite (view_t_completion_block _ _ _ _ Ht).
Qed.

Lemma wp_g_procs f Q v x : Q tt (upd_v_gprocs f v) x -> wp (modify (upd_k_g_procs f)) Q v x.
Proof. intros H s <- <-. exact H. Qed.
Lemma wp_g_ublocks f Q v x : Q tt (upd_v_gblocks f v) x -> wp (modify (upd_k_g_ublocks f)) Q v x.
Proof. intros H s <- <-. exact H. Qed.
Lemma wp_next_pid f Q v x : Q tt (upd_v_npid f v) x -> wp (modify (upd_k_next_pid f)) Q v x.
Proof. intros H s <- <-. exact H. Qed.
Lemma wp_next_tid f Q v x : Q tt (upd_v_ntid f v) x -> wp (modify (upd_k_next_tid f)) Q v x.
Proof. intros H s <- <-. exact H. Qed.
Lemma wp_set_pool b Q v x : Q tt v (set_pool b x) -> wp (modify (upd_k_pool (fun _ => b))) Q v x.
Proof. intros H s <- <-. exact H. Qed.
Lemma wp_get_g_procs Q v x : Q (v_gprocs v) v x -> wp (gets k_g_procs) Q v x.
Proof. intros H s <- <-. exact H. Qed.
Lemma wp_get_g_ublocks Q v x : Q (v_gblocks v) v x -> wp (gets k_g_ublocks) Q v x.
Proof. intros H s <- <-. exact H. Qed.
Lemma wp_get_pool Q v x : Q (x_pool x) v x -> wp (gets k_pool) Q v x.
Proof. intros H s <- <-. exact H. Qed.
Lemma wp_get_platform Q v x : Q (x_platform x) v x -> wp (gets k_platform) Q v x.
Proof. intros H s <- <-. exact H. Qed.
Lemma wp_get_cpus Q v x : (forall l, c_current_as <$> l = x_ases x -> Q l v x) -> wp (gets k_cpus) Q v x.
Proof. intros H s <- <-. by apply H. Qed.
Lemma wp_this_cpu Q v x : Q (Z.of_nat (x_this x)) v x -> wp this_cpu Q v x.
Proof. intros H s <- <-. exact H. Qed.

Lemma wp_get_init Q v x : Q (v_init v) v x -> wp (gets k_g_init) Q v x.
Proof. intros H s <- <-. exact H. Qed.
Lemma wp_get_next_pid Q v x : Q (v_npid v) v x -> wp (gets k_next_pid) Q v x.
Proof. intros H s <- <-. exact H. Qed.
Lemma wp_get_next_tid Q v x : Q (v_ntid v) v x -> wp (gets k_next_tid) Q v x.
Proof. intros H s <- <-. exact H. Qed.

(** ** Memory *)

(** The processor runs on an address space that exists. *)
Definition cpu_ok (v : gview) (x : rest) : Prop :=
  exists a, x_ases x !! x_this x = Some a /\ forall p, a = Some p -> is_Some (v_map v p).

Lemma wp_touch a n Q v x : cpu_ok v x -> Q tt v x -> wp (touch a n) Q v x.
Proof.
  intros (a' & Hc & Hp) H s <- <-. unfold touch, current_tree. simpl in Hc. rewrite list_lookup_fmap in Hc.
  destruct (k_cpus s !! k_this s) as [c|]; [|done]. injection Hc as <-. simpl.
  destruct (c_current_as c) as [p|].
  - destruct (Hp p eq_refl) as [m Hm]. simpl in Hm. destruct (k_procs s !! p) as [P|]; [|done]. simpl in *.
    destruct (p_as P) as [as_|]; [|done]. simpl. by destruct (forallb _ _).
  - simpl. by destruct (forallb _ _).
Qed.

Lemma wp_load_bytes a n Q v x : cpu_ok v x -> Q (mem_read (x_mem x) a n) v x -> wp (load_bytes a n) Q v x.
Proof.
  intros Hc H. apply wp_bind, wp_touch; [done|]. eapply wp_gets; [|exact H]. by intros s _ <-.
Qed.

Lemma wp_load32 a Q v x : cpu_ok v x -> Q (le_decode (mem_read (x_mem x) a 4)) v x -> wp (load32 a) Q v x.
Proof. intros Hc H. apply wp_bind, wp_load_bytes; [done|]. by apply wp_ret. Qed.

Lemma wp_store_bytes a bs Q v x : cpu_ok v x ->
  Q tt v (set_mem (fun m => mem_write m a bs) x) -> wp (store_bytes a bs) Q v x.
Proof. intros Hc H. apply wp_bind, wp_touch; [done|]. eapply wp_modify; [|exact H]. by intros s <- <-. Qed.

Lemma wp_memset0 a n Q v x : cpu_ok v x ->
  Q tt v (set_mem (fun m => mem_fill m a n 0) x) -> wp (memset0 a n) Q v x.
Proof. intros Hc H. apply wp_bind, wp_touch; [done|]. eapply wp_modify; [|exact H]. by intros s <- <-. Qed.

(** ** Address spaces *)

(** [m] with the flags of [[lo, hi)] set to [f]. *)
Definition flagged (lo hi f : Z) (m : Z -> Z) : Z -> Z := fun a =>
  if decide (lo <= a mod 2 ^ 48 < hi) then shown f else m a.

Lemma as_map_flag a t lo hi f : page_range lo hi -> flags_valid f ->
  pt_flag (a_tree a) lo hi f = Some t ->
  forall n d, as_map (Aspace t n d) = flagged lo hi f (as_map a).
Proof.
  intros Hr Hf Ht n d. extensionality y. unfold as_map, flagged. simpl.
  destruct (pt_flag_spec (a_tree a) lo hi f Hr Hf) as (t' & Ht' & Hi). rewrite Ht in Ht'. injection Ht' as <-.
  apply Hi, Z.mod_pos_bound. lia.
Qed.

Lemma wp_get_as p m Q v x : v_map v p = Some m -> is_Some (v_pid v p) ->
  (forall a, as_map a = m -> a_pins a = v_pins v p -> a_dirty a = v_dirty v p -> Q a v x) -> wp (get_as p) Q v x.
Proof.
  intros Hm [pid Hp] H. apply wp_bind. eapply wp_get_proc; [done|]. intros oa (H1 & H2 & H3).
  rewrite Hm in H1. destruct oa as [a|]; simplify_eq/=. apply wp_ret. by apply H.
Qed.

Lemma wp_set_as p a Q v x : is_Some (v_pid v p) ->
  Q tt (upd_v_map (fset p (Some (as_map a))) (upd_v_pins (fset p (a_pins a)) (upd_v_dirty (fset p (a_dirty a)) v))) x ->
  wp (mod_proc p (upd_p_as (fun _ => Some a))) Q v x.
Proof. intros [pid Hp] H. eapply wp_mod_proc; [done| |exact H]. intros s P <- E. by apply view_p_as. Qed.

Lemma upd_pins_id v p a : a_pins a = v_pins v p -> upd_v_pins (fset p (a_pins a)) v = v.
Proof. intros E. unfold upd_v_pins. rewrite fset_id by done. by destruct v. Qed.

Lemma upd_pins_same v p n : v_pins v p = n -> upd_v_pins (fset p n) v = v.
Proof. intros E. unfold upd_v_pins. rewrite fset_id by done. by destruct v. Qed.

Lemma upd_map_same v p m : v_map v p = Some m -> upd_v_map (fset p (Some m)) v = v.
Proof. intros E. unfold upd_v_map. rewrite fset_id by done. by destruct v. Qed.

Lemma upd_dirty_same v p d : v_dirty v p = d -> upd_v_dirty (fset p d) v = v.
Proof. intros E. unfold upd_v_dirty. rewrite fset_id by done. by destruct v. Qed.

Lemma wp_as_flag p lo hi f m Q v x : v_map v p = Some m -> is_Some (v_pid v p) -> page_range lo hi -> flags_valid f ->
  Q tt (upd_v_map (fset p (Some (flagged lo hi f m))) (upd_v_dirty (fset p true) v)) x ->
  wp (as_flag p lo hi f) Q v x.
Proof.
  intros Hm Hp Hr Hf H. apply wp_bind. eapply wp_get_as; [done..|]. intros a Ha Hpins Hd. apply wp_bind.
  unfold as_flag_tree. destruct (pt_flag_spec (a_tree a) lo hi f Hr Hf) as (t & Ht & _). rewrite Ht.
  apply wp_ret, wp_set_as; [done|]. rewrite (as_map_flag a t lo hi f Hr Hf Ht), Ha. cbn [a_pins a_dirty].
  by rewrite upd_pins_same.
Qed.

Lemma wp_as_flush p m Q v x : v_map v p = Some m -> is_Some (v_pid v p) ->
  Q tt (upd_v_dirty (fset p false) v) x -> wp (as_flush p) Q v x.
Proof.
  intros Hm Hp H. apply wp_bind. eapply wp_get_as; [done..|]. intros a Ha Hpins Hd. apply wp_set_as; [done|].
  assert (as_map (upd_a_dirty (fun _ => false) a) = m) as -> by (by destruct a). cbn [a_pins a_dirty upd_a_dirty].
  rewrite upd_pins_same by done. rewrite upd_map_same; [done|]. by destruct v.
Qed.

Lemma wp_as_pin p m Q v x : v_map v p = Some m -> is_Some (v_pid v p) ->
  Q tt (upd_v_pins (fset p (v_pins v p + 1)) v) x -> wp (as_pin p) Q v x.
Proof.
  intros Hm Hp H. apply wp_bind. eapply wp_get_as; [done..|]. intros a Ha Hpins Hd. apply wp_set_as; [done|].
  assert (as_map (upd_a_pins Z.succ a) = m) as -> by (by destruct a). cbn [a_pins a_dirty upd_a_pins].
  rewrite upd_dirty_same by done. rewrite Hpins. rewrite upd_map_same; [done|]. by destruct v.
Qed.

Lemma wp_as_unpin p m Q v x : v_map v p = Some m -> is_Some (v_pid v p) -> v_pins v p <> 0 ->
  Q tt (upd_v_pins (fset p (v_pins v p - 1)) v) x -> wp (as_unpin p) Q v x.
Proof.
  intros Hm Hp Hn H. apply wp_bind. eapply wp_get_as; [done..|]. intros a Ha Hpins Hd.
  apply wp_bind, wp_asserts. { rewrite Hpins. by destruct (Z.eqb_spec (v_pins v p) 0). } apply wp_set_as; [done|].
  assert (as_map (upd_a_pins Z.pred a) = m) as -> by (by destruct a). cbn [a_pins a_dirty upd_a_pins].
  rewrite upd_dirty_same by done. rewrite Hpins. rewrite upd_map_same; [done|]. by destruct v.
Qed.

Lemma wp_as_flag_kernel lo hi f Q v x : page_range lo hi -> flags_valid f ->
  Q tt (upd_v_kmap (flagged lo hi f) (upd_v_kdirty (fun _ => true) v)) x -> wp (as_flag_kernel lo hi f) Q v x.
Proof.
  intros Hr Hf H s <- <-. unfold as_flag_kernel, gets, mbind, M_bind, as_flag_tree.
  destruct (pt_flag_spec (a_tree (k_kas s)) lo hi f Hr Hf) as (t & Ht & _). rewrite Ht. simpl.
  replace (view (upd_k_kas _ s)) with (upd_v_kmap (flagged lo hi f) (upd_v_kdirty (fun _ => true) (view s))); [exact H|].
  unfold view, upd_v_kmap, upd_v_kdirty. cbn -[as_map]. f_equal. by erewrite as_map_flag.
Qed.

Lemma wp_as_flush_kernel Q v x : Q tt (upd_v_kdirty (fun _ => false) v) x -> wp as_flush_kernel Q v x.
Proof. intros H s <- <-. exact H. Qed.

Lemma wp_as_clone_kernel Q v x :
  (forall a, as_map a = v_kmap v -> a_pins a = 0 -> a_dirty a = false -> Q a v x) -> wp as_clone_kernel Q v x.
Proof.
  intros H s <- <-. apply H; [|done..]. extensionality y. unfold as_map. simpl.
  apply pt_clone_spec, Z.mod_pos_bound. lia.
Qed.

End Wp.

(** ** Symbolic execution *)

(** Reads the columns of an updated graph. *)
Ltac vsimpl := cbn [v_pid v_map v_pins v_dirty v_dead v_par v_children v_notified v_exit v_nthreads v_pthreads v_pblocks
    v_views v_head v_tail v_share_ch v_tree_ch v_iommu_ch v_info v_owner v_sharers v_bring v_dma v_bpins
    v_eblock v_eto v_eprev v_enext v_enot v_rblock v_rops v_rslots v_threads v_gprocs v_gblocks v_npid
    v_ntid v_nref v_init v_kmap v_kdirty upd_v_pid upd_v_map upd_v_pins upd_v_dirty upd_v_dead upd_v_par
    upd_v_children upd_v_notified upd_v_exit upd_v_nthreads upd_v_pthreads upd_v_pblocks upd_v_views
    upd_v_head upd_v_tail upd_v_share_ch upd_v_tree_ch upd_v_iommu_ch upd_v_info upd_v_owner
    upd_v_sharers upd_v_bring upd_v_dma upd_v_bpins upd_v_eblock upd_v_eto upd_v_eprev upd_v_enext
    upd_v_enot upd_v_rblock upd_v_rops upd_v_rslots upd_v_threads upd_v_gprocs upd_v_gblocks upd_v_npid
    upd_v_ntid upd_v_nref upd_v_init upd_v_kmap upd_v_kdirty p_pid p_as p_dead p_parent p_children
    p_death_notified p_exit_status p_nthreads p_threads p_blocks p_views p_unnotified_head
    p_unnotified_tail p_share_ch p_tree_ch p_iommu_ch b_base b_order b_bytes b_backing b_device_flags
    b_kernel_flags b_delegatable b_owner b_sharers b_ring b_dma_maps b_thread_pins e_block e_to
    e_pending_prev e_pending_next e_notified r_ops r_block r_nslots r_sq_head r_cq_count r_irq_claims
    r_nclaims proc_of block_of edge_of x_threads x_futex x_futex_key x_futex_seq x_queues x_current
    x_ases x_deadlines x_this x_pool x_platform x_mem x_grants x_next_grant x_boot_key x_ioapic x_iommu
    x_routes x_claims x_held set_threads set_futex set_futex_seq set_queues set_current set_ases
    set_deadlines set_pool set_mem set_grants set_next_grant set_iommu set_routes set_claims set_held
    put_proc put_block put_edge put_ring drop_proc drop_block drop_edge drop_ring i_base i_order i_bytes
    i_backing i_device_flags i_kernel_flags i_delegatable info_of fst snd].
Ltac vsimpl_in H := cbn [v_pid v_map v_pins v_dirty v_dead v_par v_children v_notified v_exit v_nthreads v_pthreads v_pblocks
    v_views v_head v_tail v_share_ch v_tree_ch v_iommu_ch v_info v_owner v_sharers v_bring v_dma v_bpins
    v_eblock v_eto v_eprev v_enext v_enot v_rblock v_rops v_rslots v_threads v_gprocs v_gblocks v_npid
    v_ntid v_nref v_init v_kmap v_kdirty upd_v_pid upd_v_map upd_v_pins upd_v_dirty upd_v_dead upd_v_par
    upd_v_children upd_v_notified upd_v_exit upd_v_nthreads upd_v_pthreads upd_v_pblocks upd_v_views
    upd_v_head upd_v_tail upd_v_share_ch upd_v_tree_ch upd_v_iommu_ch upd_v_info upd_v_owner
    upd_v_sharers upd_v_bring upd_v_dma upd_v_bpins upd_v_eblock upd_v_eto upd_v_eprev upd_v_enext
    upd_v_enot upd_v_rblock upd_v_rops upd_v_rslots upd_v_threads upd_v_gprocs upd_v_gblocks upd_v_npid
    upd_v_ntid upd_v_nref upd_v_init upd_v_kmap upd_v_kdirty p_pid p_as p_dead p_parent p_children
    p_death_notified p_exit_status p_nthreads p_threads p_blocks p_views p_unnotified_head
    p_unnotified_tail p_share_ch p_tree_ch p_iommu_ch b_base b_order b_bytes b_backing b_device_flags
    b_kernel_flags b_delegatable b_owner b_sharers b_ring b_dma_maps b_thread_pins e_block e_to
    e_pending_prev e_pending_next e_notified r_ops r_block r_nslots r_sq_head r_cq_count r_irq_claims
    r_nclaims proc_of block_of edge_of x_threads x_futex x_futex_key x_futex_seq x_queues x_current
    x_ases x_deadlines x_this x_pool x_platform x_mem x_grants x_next_grant x_boot_key x_ioapic x_iommu
    x_routes x_claims x_held set_threads set_futex set_futex_seq set_queues set_current set_ases
    set_deadlines set_pool set_mem set_grants set_next_grant set_iommu set_routes set_claims set_held
    put_proc put_block put_edge put_ring drop_proc drop_block drop_edge drop_ring i_base i_order i_bytes
    i_backing i_device_flags i_kernel_flags i_delegatable info_of fst snd] in H.

(** One primitive step; side conditions that the rule needs are left first. *)
Ltac wp_prim :=
  lazymatch goal with
  | |- wp (mret _) _ _ _ => apply wp_ret
  | |- wp skip _ _ _ => apply wp_skip
  | |- wp (asserts _ _) _ _ _ => apply wp_asserts
  | |- wp (lock _) _ _ _ => apply wp_lock
  | |- wp umem_lock _ _ _ => apply wp_lock
  | |- wp (umem_proc_lock _) _ _ _ => apply wp_lock
  | |- wp (unlock _) _ _ _ => apply wp_unlock
  | |- wp umem_unlock _ _ _ => apply wp_unlock
  | |- wp (umem_proc_unlock _) _ _ _ => apply wp_unlock
  | |- wp try_alloc _ _ _ => apply wp_try_alloc; intros ?ok
  | |- wp must_alloc _ _ _ => apply wp_must_alloc
  | |- wp new_ref _ _ _ => apply wp_new_ref
  | |- wp (get_proc _) _ _ _ => eapply wp_get_proc; [|intros ?oa ?Hoa]
  | |- wp (get_block _) _ _ _ => eapply wp_get_block
  | |- wp (get_edge _) _ _ _ => eapply wp_get_edge
  | |- wp (get_ring _) _ _ _ => eapply wp_get_ring; [| |intros ?sq ?cq ?cl ?nc ?Hcl]
  | |- wp (get_thread _) _ _ _ => eapply wp_get_thread
  | |- wp (get_cpu _) _ _ _ => apply wp_get_cpu; [|intros ?c ?Hc]
  | |- wp this_cpu _ _ _ => apply wp_this_cpu
  | |- wp (mod_cpu _ (upd_c_queue _)) _ _ _ => eapply wp_c_queue
  | |- wp (mod_cpu _ (upd_c_current_thread _)) _ _ _ => eapply wp_c_current_thread
  | |- wp (mod_cpu _ (upd_c_current_as _)) _ _ _ => eapply wp_c_current_as
  | |- wp (mod_cpu _ (upd_c_deadlines _)) _ _ _ => eapply wp_c_deadlines
  | |- wp (mod_cpu _ (upd_c_idle _)) _ _ _ => apply wp_c_idle
  | |- wp (mod_cpu _ (upd_c_quantum_deadline_ns _)) _ _ _ => apply wp_c_quantum_deadline_ns
  | |- wp (mod_cpu _ (upd_c_fs_base _)) _ _ _ => apply wp_c_fs_base
  | |- wp (mod_cpu _ (upd_c_gs_base _)) _ _ _ => apply wp_c_gs_base
  | |- wp (emit _) _ _ _ => apply wp_emit
  | |- wp (mod_proc _ (upd_p_blocks _)) _ _ _ => apply wp_p_blocks
  | |- wp (mod_proc _ (upd_p_views _)) _ _ _ => apply wp_p_views
  | |- wp (mod_proc _ (upd_p_unnotified_head _)) _ _ _ => apply wp_p_unnotified_head
  | |- wp (mod_proc _ (upd_p_unnotified_tail _)) _ _ _ => apply wp_p_unnotified_tail
  | |- wp (mod_proc _ (upd_p_children _)) _ _ _ => apply wp_p_children
  | |- wp (mod_proc _ (upd_p_dead _)) _ _ _ => apply wp_p_dead
  | |- wp (mod_proc _ (upd_p_death_notified _)) _ _ _ => apply wp_p_death_notified
  | |- wp (mod_proc _ (upd_p_exit_status _)) _ _ _ => apply wp_p_exit_status
  | |- wp (mod_proc _ (upd_p_nthreads _)) _ _ _ => apply wp_p_nthreads
  | |- wp (mod_proc _ (upd_p_threads _)) _ _ _ => apply wp_p_threads
  | |- wp (mod_block _ (upd_b_sharers _)) _ _ _ => apply wp_b_sharers
  | |- wp (mod_block _ (upd_b_ring _)) _ _ _ => apply wp_b_ring
  | |- wp (mod_block _ (upd_b_thread_pins _)) _ _ _ => apply wp_b_thread_pins
  | |- wp (mod_block _ (upd_b_owner _)) _ _ _ => apply wp_b_owner
  | |- wp (mod_edge _ (upd_e_pending_prev _)) _ _ _ => apply wp_e_pending_prev
  | |- wp (mod_edge _ (upd_e_pending_next _)) _ _ _ => apply wp_e_pending_next
  | |- wp (mod_edge _ (upd_e_notified _)) _ _ _ => apply wp_e_notified
  | |- wp (mod_edge _ (fun _ => upd_e_pending_next _ _)) _ _ _ => apply wp_unlink_edge
  | |- wp (mod_ring _ (upd_r_cq_count _)) _ _ _ => apply wp_r_cq_count
  | |- wp (mod_ring _ (upd_r_sq_head _)) _ _ _ => apply wp_r_sq_head
  | |- wp (modify (upd_k_procs (insert _ _))) _ _ _ => apply wp_new_proc
  | |- wp (modify (upd_k_procs (base.delete _))) _ _ _ => apply wp_free_proc
  | |- wp (modify (upd_k_blocks (insert _ _))) _ _ _ => apply wp_new_block
  | |- wp (modify (upd_k_blocks (base.delete _))) _ _ _ => apply wp_free_block
  | |- wp (modify (upd_k_edges (insert _ _))) _ _ _ => apply wp_new_edge
  | |- wp (modify (upd_k_edges (base.delete _))) _ _ _ => apply wp_free_edge
  | |- wp (modify (upd_k_rings (insert _ _))) _ _ _ => apply wp_new_ring
  | |- wp (modify (upd_k_rings (base.delete _))) _ _ _ => apply wp_free_ring
  | |- wp (modify (upd_k_threads (insert _ _))) _ _ _ => apply wp_new_thread
  | |- wp (modify (upd_k_threads (base.delete _))) _ _ _ => apply wp_free_thread
  | |- wp (modify (upd_k_g_procs _)) _ _ _ => apply wp_g_procs
  | |- wp (modify (upd_k_g_ublocks _)) _ _ _ => apply wp_g_ublocks
  | |- wp (modify (upd_k_next_pid _)) _ _ _ => apply wp_next_pid
  | |- wp (modify (upd_k_next_tid _)) _ _ _ => apply wp_next_tid
  | |- wp (modify (upd_k_pool _)) _ _ _ => apply wp_set_pool
  | |- wp (gets k_g_procs) _ _ _ => apply wp_get_g_procs
  | |- wp (gets k_g_ublocks) _ _ _ => apply wp_get_g_ublocks
  | |- wp (gets k_pool) _ _ _ => apply wp_get_pool
  | |- wp (gets k_platform) _ _ _ => apply wp_get_platform
  | |- wp (gets k_cpus) _ _ _ => apply wp_get_cpus; intros ?l ?Hl
  | |- wp (gets k_g_init) _ _ _ => apply wp_get_init
  | |- wp (gets k_next_pid) _ _ _ => apply wp_get_next_pid
  | |- wp (gets k_next_tid) _ _ _ => apply wp_get_next_tid
  end.

Ltac wp_bound := lazymatch goal with |- wp (mbind _ _) _ _ _ => apply wp_bind; wp_bound | _ => idtac end.

(** Closes a side condition of a rule, if the context has it. *)
Ltac wp_facts := vsimpl; rewrite ?fset_eq; rewrite ?fset_ne by congruence.
Ltac wp_side :=
  lazymatch goal with
  | |- _ = _ => wp_facts; first [eassumption | reflexivity | done]
  | |- is_Some _ => wp_facts; first [eassumption | eexists; eassumption | eexists; reflexivity]
  | |- _ ∈ _ => vsimpl; first [by left | by right; left | by right; right; left | eassumption]
  | |- _ <> _ => first [eassumption | congruence]
  | |- cpu_ok _ _ => eassumption
  end.

Ltac ws := wp_bound; wp_prim; try (by wp_side).

(** Steps as long as every side condition closes by itself. *)
Ltac wrun := repeat (wp_bound; wp_prim; [by wp_side .. |]; vsimpl).
