(* ===== verification/Invariant.v ===== *)
(** * The invariant of the control plane

    [graph_inv] on the ownership graph, in groups: the pid registry and the process
    tree, block ownership, share edges and their notification queues, channels,
    threads and the blocks they pin, block geometry, and what each page tree shows.
    [pool_inv] relates blocks to the page pool and [sched_inv] threads to the run
    queues, the futex table and the deadlines; ChannelSpec.v puts them together.

    The isolation statement is [map_ok]: outside the blocks a process owns or was
    given a view of, its page tree shows exactly what the kernel's tree shows, and
    the kernel's tree shows nothing to user mode. *)

From Stdlib Require Import FunctionalExtensionality.
From S2P Require Import Prelude Buddy Paging Siphash PlatformMem Machine Sched Index Channel Umem Process Graph Wp.

Section Invariant.
Context {PT : PageTree} {SC : Schemes}.
Implicit Types (v : gview).


Definition live v (p : Z) : Prop := v_pid v p = Some p.

Definition bbase v (b : Z) : option Z := option_map i_base (v_info v b).

(** [p] owns [b] or holds a view of it. *)
Definition sees v (p b : Z) : Prop :=
  v_owner v b = Some p \/ exists e, v_eblock v e = Some b /\ v_eto v e = Some p.

Definition in_block (i : binfo) (a : Z) : Prop := i_base i <= a < i_base i + i_bytes i.

Definition v_anchor v (a : anchor) (p : Z) : option Z :=
  match a with share_ch => v_share_ch v p | tree_ch => v_tree_ch v p | iommu_ch => v_iommu_ch v p end.

Definition ring_anchor v (r : Z) : option anchor := id ← v_rops v r; ops ← scheme_lookup id; so_anchor ops.

(** ** Groups *)

(** [p] or one of its ancestors is marked dead. *)
Inductive eff_dead v : Z -> Prop :=
  | dead_here p : v_dead v p = true -> eff_dead v p
  | dead_above p q : v_par v p = Some q -> eff_dead v q -> eff_dead v p.

Record reg_ok v : Prop := {
  reg_pid p x : v_pid v p = Some x -> x = p /\ 0 < p < v_npid v;
  reg_index p x : v_gprocs v !! p = Some x <-> x = p /\ live v p;
  reg_as p : is_Some (v_map v p) -> live v p;
  reg_gone p : live v p -> v_map v p = None -> eff_dead v p }.

Record tree_ok v : Prop := {
  tree_up c q : v_par v c = Some q -> 0 < q < c /\ live v q /\ live v c;
  tree_down q c x : v_children v q !! c = Some x <-> x = c /\ v_par v c = Some q }.

Record own_ok v : Prop := {
  own_index p base b : v_pblocks v p !! base = Some b <-> v_owner v b = Some p /\ bbase v b = Some base;
  own_global base b : v_gblocks v !! base = Some b <-> bbase v b = Some base;
  own_as b p : v_owner v b = Some p -> is_Some (v_map v p);
  own_info b : is_Some (v_owner v b) <-> is_Some (v_info v b);
  own_ref b : is_Some (v_info v b) -> b < v_nref v;
  own_counter : 0 <= v_nref v }.

Record edge_ok v : Prop := {
  edge_sharers b p e : v_sharers v b !! p = Some e <-> v_eblock v e = Some b /\ v_eto v e = Some p;
  edge_views p base e : v_views v p !! base = Some e <->
    v_eto v e = Some p /\ exists b, v_eblock v e = Some b /\ bbase v b = Some base;
  edge_ends e : is_Some (v_eblock v e) <-> is_Some (v_eto v e);
  edge_block e b : v_eblock v e = Some b -> is_Some (v_info v b) /\ 0 <= e < v_nref v;
  edge_as e p : v_eto v e = Some p -> is_Some (v_map v p);
  edge_foreign e b p : v_eblock v e = Some b -> v_eto v e = Some p -> v_owner v b <> Some p }.

(** [l] is a doubly linked run between [prev] and [next]. *)
Fixpoint seg (pv nx : Z -> option Z) (prev : option Z) (l : list Z) (next : option Z) : Prop :=
  match l with
  | [] => True
  | e :: l => pv e = prev /\ nx e = (match head l with Some e' => Some e' | None => next end) /\ seg pv nx (Some e) l next
  end.

(** The notification queue of [p] is the linked list [l]. *)
Record queue v (p : Z) (l : list Z) : Prop := {
  pq_head : v_head v p = head l;
  pq_tail : v_tail v p = last l;
  pq_seg : seg (v_eprev v) (v_enext v) None l None;
  pq_nodup : NoDup l }.

(** [L p] is exactly the un-notified edges towards [p]. *)
Definition pending v (L : Z -> list Z) : Prop :=
  (forall p, queue v p (L p)) /\ forall p e, e ∈ L p <-> v_eto v e = Some p /\ v_enot v e = false.

Definition pend_ok v : Prop := exists L, pending v L.

Record ring_ok v : Prop := {
  ring_block b r : v_bring v b = Some r <-> v_rblock v r = Some b;
  ring_private b r : v_bring v b = Some r ->
    v_sharers v b = ∅ /\ v_bpins v b = 0 /\ r < v_nref v /\
    exists i, v_info v b = Some i /\ i_backing i = UBLOCK_RAM /\ v_rslots v r = KRING_NSLOTS (i_order i);
  ring_scheme r b : v_rblock v r = Some b -> exists id ops, v_rops v r = Some id /\ scheme_lookup id = Some ops;
  ring_anchored a p r : v_anchor v a p = Some r <->
    exists b, v_rblock v r = Some b /\ v_owner v b = Some p /\ ring_anchor v r = Some a }.

(** The threads whose completion word is in [b]. *)
Definition pinning v (b : Z) : gmap Z (Z * option Z) := base.filter (fun kv => kv.2.2 = Some b) (v_threads v).

Record thr_ok v : Prop := {
  thr_index p t x : v_pthreads v p !! t = Some x <-> x = t /\ exists cb, v_threads v !! t = Some (p, cb);
  thr_count p : live v p -> v_nthreads v p = Z.of_nat (size (v_pthreads v p));
  thr_as t p cb : v_threads v !! t = Some (p, cb) -> is_Some (v_map v p) /\ t < v_ntid v;
  thr_pin t p b : v_threads v !! t = Some (p, Some b) ->
    v_owner v b = Some p /\ v_sharers v b = ∅ /\ v_bring v b = None;
  thr_pins b : is_Some (v_info v b) -> v_bpins v b = Z.of_nat (size (pinning v b));
  thr_room : Z.of_nat (size (v_threads v)) < 2 ^ 32 }.

(** Geometry and flags of one block. *)
Record block_ok (i : binfo) : Prop := {
  blk_range : 0 <= i_base i /\ 0 < i_bytes i /\ i_base i + i_bytes i <= 2 ^ 47;
  blk_aligned : i_base i mod PAGE_SIZE = 0 /\ i_bytes i mod PAGE_SIZE = 0;
  blk_kernel : flags_valid (i_kernel_flags i) /\ has (i_kernel_flags i) PAGE_U = false /\ has (i_kernel_flags i) PAGE_R = true;
  blk_backing :
    match i_backing i with
    | UBLOCK_RAM => i_kernel_flags i = PAGE_KERNEL_PRISTINE /\ 0 <= i_order i /\ i_bytes i = PAGE_SIZE * 2 ^ i_order i /\
        i_base i mod i_bytes i = 0
    | UBLOCK_DEVICE => i_device_flags i ∈ [1; 3; 17; 19]
    end }.

Record geo_ok v : Prop := {
  geo_block b i : v_info v b = Some i -> block_ok i;
  geo_apart b b' i i' a : v_info v b = Some i -> v_info v b' = Some i' -> in_block i a -> in_block i' a -> b = b' }.

Record map_ok v : Prop := {
  map_user p m a : v_map v p = Some m -> 0 <= a < 2 ^ 48 ->
    m a = v_kmap v a \/ exists b i, sees v p b /\ v_info v b = Some i /\ in_block i a;
  map_kernel a : 0 <= a < 2 ^ 48 -> has (v_kmap v a) PAGE_U = false;
  map_block b i a : v_info v b = Some i -> in_block i a -> v_kmap v a = i_kernel_flags i;
  map_clean p : v_dirty v p = false /\ v_pins v p = 0;
  map_kclean : v_kdirty v = false }.

Record graph_inv v : Prop := {
  inv_reg : reg_ok v;
  inv_tree : tree_ok v;
  inv_own : own_ok v;
  inv_edge : edge_ok v;
  inv_pend : pend_ok v;
  inv_ring : ring_ok v;
  inv_thr : thr_ok v;
  inv_geo : geo_ok v;
  inv_map : map_ok v }.

(** ** The page pool *)

(** Physical page [pg] may be handed out by the pool. *)
Definition allocatable (x : rest) (t : blocks) (pg : Z) : Prop :=
  0 <= pg < 2 ^ ba_max_level (x_pool x) /\ page (x_pool x) t pg <> PBad.

Record pool_inv v (x : rest) (t : blocks) : Prop := {
  pool_holds : holds (x_pool x) t;
  pool_fits : 2 ^ ba_max_level (x_pool x) * PAGE_SIZE <= 2 ^ 47;
  pool_block b i pg : v_info v b = Some i -> i_backing i = UBLOCK_RAM ->
    i_base i <= pg * PAGE_SIZE < i_base i + i_bytes i ->
    0 <= pg < 2 ^ ba_max_level (x_pool x) /\ page (x_pool x) t pg = PAlloc (i_base i / PAGE_SIZE) (2 ^ i_order i);
  pool_pristine a : allocatable x t (a / PAGE_SIZE) -> v_kmap v a = PAGE_KERNEL_PRISTINE;
  pool_device base len flags r a : platform_mem_validate_device (x_platform x) base len flags = Some r ->
    base <= a < base + len -> ~ allocatable x t (a / PAGE_SIZE) /\ a < 2 ^ 47;
  pool_device_block b i a : v_info v b = Some i -> i_backing i = UBLOCK_DEVICE -> in_block i a ->
    ~ allocatable x t (a / PAGE_SIZE) }.

(** ** Threads, the futex table and the processors *)

Definition waiting (f : gmap Z (gmap (Z * Z) Z)) (i : Z) (k : Z * Z) (t : Z) : Prop := default ∅ (f !! i) !! k = Some t.

(** [i] is the bucket of [addr]. *)
Inductive home (key : list Z) (addr : Z) : Z -> Prop :=
  | at_home : home key addr (bucket_index key addr).

Definition armed (d : list (gmap (Z * Z) Z)) (i : nat) (k : Z * Z) (t : Z) : Prop := exists m, d !! i = Some m /\ m !! k = Some t.

Definition running (c : list (option Z)) (t : Z) (i : nat) : Prop := c !! i = Some (Some t).

(** How the fields of a thread go together. *)
Definition shape (T : thread) : Prop :=
  (t_deadline T <> 0 -> t_wake_state T = FUTEX_PARKED \/ t_wake_state T = FUTEX_CLAIMED) /\ 0 <= t_deadline_cpu T /\
  match t_status T with
  | THREAD_BLOCKED => t_on_cpu T = false /\ t_wake_state T <> FUTEX_IDLE /\ t_wake_state T <> FUTEX_MOVING
  | THREAD_RUNNABLE => t_on_cpu T = false /\ t_wake_state T = FUTEX_IDLE
  | THREAD_RUNNING => t_on_cpu T = true /\ t_wake_state T = FUTEX_IDLE
  | THREAD_DEAD => t_on_cpu T = false /\ t_wake_state T = FUTEX_IDLE
  end.

(** The thread tables agree on thread [t], which is [o].  [C] are the claimed threads
    already detached from their bucket, [D] those still in it; both are empty between
    operations. *)
Record thread_ok (x : rest) (C D : list Z) (t : Z) (o : option thread) : Prop := {
  th_shape T : o = Some T -> t_tid T = t /\ shape T;
  th_wait i k : waiting (x_futex x) i k t <-> exists T, o = Some T /\ k = t_wait_key T /\ home (x_futex_key x) k.1 i /\
    (t_wake_state T = FUTEX_PARKED \/ t ∈ D);
  th_claim : t ∈ C ++ D <-> exists T, o = Some T /\ t_wake_state T = FUTEX_CLAIMED;
  th_queue : t ∈ mjoin (x_queues x) <-> exists T, o = Some T /\ t_status T = THREAD_RUNNABLE;
  th_run : (exists i, running (x_current x) t i) <-> exists T, o = Some T /\ t_status T = THREAD_RUNNING;
  th_as T i : o = Some T -> running (x_current x) t i -> x_ases x !! i = Some (Some (t_proc T));
  th_armed i k : armed (x_deadlines x) i k t <-> exists T, o = Some T /\ t_deadline T <> 0 /\ k = (t_deadline T, t) /\
    i = Z.to_nat (t_deadline_cpu T) }.

Record sched_inv v (x : rest) (C D : list Z) : Prop := {
  sch_view : v_threads v = tview <$> x_threads x;
  sch_thread t : thread_ok x C D t (x_threads x !! t);
  sch_ticket i k t : waiting (x_futex x) i k t -> 0 <= k.2 < x_futex_seq x;
  sch_flight : NoDup (C ++ D);
  sch_once : NoDup (mjoin (x_queues x));
  sch_alone t i j : running (x_current x) t i -> running (x_current x) t j -> i = j;
  sch_as i p : x_ases x !! i = Some (Some p) -> is_Some (v_map v p);
  sch_seq : 0 <= x_futex_seq x < 2 ^ 64;
  sch_few : Z.of_nat (length (x_queues x)) < 2 ^ 32;
  sch_this : (x_this x < length (x_queues x))%nat }.

End Invariant.

(** Carries a group over to a graph that differs in columns it does not read. *)
Ltac keep H := destruct H; split; assumption.
