(* ===== verification/BaseSpec.v ===== *)
(** * Specifications of the helpers

    Weakest-precondition rules for the functions the operations are built from:
    liveness and reaper authority on the process tree, the registry, the view
    lookup, user-range validation and the notification queues. *)

From Stdlib Require Import FunctionalExtensionality.
From S2P Require Import Prelude Buddy Paging Siphash PlatformMem Machine Sched Index Channel Umem Process Graph Wp Invariant.

Section Base.
Context {PT : PageTree} {SC : Schemes}.
Implicit Types (v : gview) (x : rest).

(** ** Effective death and reaper authority *)

(** [p] is a strict descendant of [q]. *)
Inductive descends v : Z -> Z -> Prop :=
  | descends_child p q : v_par v p = Some q -> descends v p q
  | descends_below p r q : v_par v p = Some r -> descends v r q -> descends v p q.

(** Every process from [target] up to, not including, [caller] is effectively dead. *)
Inductive reaps v (caller : Z) : Z -> Prop :=
  | reaps_child t : eff_dead v t -> v_par v t = Some caller -> reaps v caller t
  | reaps_below t q : eff_dead v t -> v_par v t = Some q -> q <> caller -> reaps v caller q -> reaps v caller t.

(** Death depends on two columns, and more marks mean more dead. *)
Lemma eff_dead_mono v v' p : v_par v' = v_par v -> (forall q, v_dead v q = true -> v_dead v' q = true) ->
  eff_dead v p -> eff_dead v' p.
Proof. intros Ep Ed. induction 1; [apply dead_here; auto|]. eapply dead_above; [by rewrite Ep|done]. Qed.

Lemma eff_dead_cols v v' p : v_par v' = v_par v -> v_dead v' = v_dead v -> eff_dead v p -> eff_dead v' p.
Proof. intros Ep Ed. apply eff_dead_mono; [done|]. by rewrite Ed. Qed.

Lemma reg_cols v v' : v_pid v' = v_pid v -> v_npid v' = v_npid v -> v_gprocs v' = v_gprocs v -> v_map v' = v_map v ->
  v_par v' = v_par v -> (forall q, v_dead v q = true -> v_dead v' q = true) -> reg_ok v -> reg_ok v'.
Proof.
  intros E1 E2 E3 E4 E5 E6 [R1 R2 R3 R4]. unfold live in *. split; unfold live; rewrite ?E1, ?E2, ?E3, ?E4; try done.
  intros p Hp Hm. eapply eff_dead_mono; [done..|]. by apply R4.
Qed.

Lemma eff_dead_inv v p : eff_dead v p -> v_dead v p = true \/ exists q, v_par v p = Some q /\ eff_dead v q.
Proof. inversion 1; eauto. Qed.

Lemma wp_dead_walk fuel p Q v x : tree_ok v -> (0 < p -> live v p) -> 0 < p <= Z.of_nat fuel ->
  (forall b : bool, (b = true <-> eff_dead v p) -> Q b v x) -> wp (dead_walk fuel (Some p)) Q v x.
Proof.
  intros Ht. revert p. induction fuel as [|fuel IH]; intros p Hl Hp H; [lia|]. cbn [dead_walk].
  apply wp_bind. eapply wp_get_proc; [apply Hl; lia|]. intros oa _. vsimpl.
  destruct (v_dead v p) eqn:Ed.
  { apply wp_ret, H. split; [|done]. intros _. by constructor. }
  destruct (v_par v p) as [q|] eqn:Eq.
  - destruct (tree_up v Ht p q Eq) as (Hq & Hlq & _). apply IH; [done|lia|]. intros b Hb. apply H. rewrite Hb. split.
    + by apply dead_above.
    + intros [?|(q' & Hq' & Hd)]%eff_dead_inv; [congruence|]. by simplify_eq.
  - destruct fuel; apply wp_ret, H; (split; [done|]); intros [?|(q' & Hq' & _)]%eff_dead_inv; congruence.
Qed.

Lemma wp_is_dead p Q v x : reg_ok v -> tree_ok v -> live v p ->
  (forall b : bool, (b = true <-> eff_dead v p) -> Q b v x) -> wp (process_is_dead p) Q v x.
Proof. intros Hr Ht Hl H. destruct (reg_pid v Hr p p Hl) as [_ ?]. apply wp_dead_walk; [done|done|lia|done]. Qed.

Lemma eff_dead_par v p q : eff_dead v q -> v_par v p = Some q -> eff_dead v p.
Proof. eauto using dead_above. Qed.

Lemma descends_lt v p q : tree_ok v -> descends v p q -> q < p.
Proof.
  intros Ht. induction 1 as [p q E|p r q E _ IH]; destruct (tree_up v Ht _ _ E) as [? _]; lia.
Qed.

Lemma descends_dead v p q : descends v p q -> eff_dead v q -> eff_dead v p.
Proof. induction 1; eauto using dead_above. Qed.

Lemma reaps_descends v caller t : reaps v caller t -> descends v t caller.
Proof. induction 1; eauto using descends_child, descends_below. Qed.

Lemma reaps_dead v caller t : reaps v caller t -> eff_dead v t.
Proof. by inversion 1. Qed.

Lemma wp_reaper_walk fuel caller t Q v x : reg_ok v -> tree_ok v -> live v t -> t <= Z.of_nat fuel ->
  (forall b : bool, (b = true <-> reaps v caller t) -> Q b v x) -> wp (reaper_walk fuel caller (Some t)) Q v x.
Proof.
  intros Hr Ht. revert t. induction fuel as [|fuel IH]; intros t Hl Hf H; destruct (reg_pid v Hr t t Hl) as [_ Hpos]; [lia|].
  cbn [reaper_walk]. destruct (Z.eqb_spec t caller) as [->|Hne].
  { apply wp_ret, H. split; [done|]. intros Hd%reaps_descends. pose proof (descends_lt v _ _ Ht Hd). lia. }
  apply wp_bind, wp_is_dead; [done..|]. intros dead Hdead. destruct dead; simpl.
  2:{ apply wp_ret, H. split; [done|]. intros Hd%reaps_dead. by apply Hdead in Hd. }
  assert (Hd : eff_dead v t) by by apply Hdead.
  ws. intros. vsimpl. case_bool_decide as Ep.
  { apply wp_ret, H. split; [|done]. intros _. by apply reaps_child. }
  destruct (v_par v t) as [q|] eqn:Eq.
  - destruct (tree_up v Ht t q Eq) as (Hq & Hlq & _). apply IH; [done|lia|]. intros b Hb. apply H. rewrite Hb.
    split; [intros Hrq; apply (reaps_below v caller t q); [done|done|congruence|done]|]. by inversion 1; simplify_eq.
  - destruct fuel; apply wp_ret, H; (split; [done|]); inversion 1; congruence.
Qed.

Lemma wp_reaper caller t Q v x : reg_ok v -> tree_ok v -> live v t ->
  (forall b : bool, (b = true <-> reaps v caller t) -> Q b v x) -> wp (process_reaper_authorized_locked caller t) Q v x.
Proof.
  intros Hr Ht Hl H. unfold process_reaper_authorized_locked. destruct (reg_pid v Hr t t Hl) as [_ Hpos].
  destruct (Z.eqb_spec caller t) as [->|Hne].
  { apply wp_ret, H. split; [done|]. intros Hd%reaps_descends. pose proof (descends_lt v _ _ Ht Hd). lia. }
  apply wp_bind, wp_is_dead; [done..|]. intros dead Hdead. destruct dead; simpl.
  - apply wp_reaper_walk; [done..|lia|done].
  - apply wp_ret, H. split; [done|]. intros Hd%reaps_dead. by apply Hdead in Hd.
Qed.

(** ** The registry *)

Lemma wp_lookup_any pid Q v x : reg_ok v -> (live v pid -> Q (Some pid) v x) -> (~ live v pid -> Q None v x) ->
  wp (proc_lookup_any pid) Q v x.
Proof.
  intros Hr H1 H2. eapply (wp_gets _ (v_gprocs v !! pid)); [by intros s <- _|].
  destruct (v_gprocs v !! pid) as [p|] eqn:E.
  - apply reg_index in E as [-> Hl]; [|done]. auto.
  - apply H2. intros Hl. assert (v_gprocs v !! pid = Some pid) by (by apply reg_index). congruence.
Qed.

Lemma wp_lookup pid Q v x : reg_ok v -> tree_ok v ->
  (live v pid -> ~ eff_dead v pid -> Q (Some pid) v x) -> (~ live v pid \/ eff_dead v pid -> Q None v x) ->
  wp (proc_lookup pid) Q v x.
Proof.
  intros Hr Ht H1 H2. apply wp_bind, wp_lookup_any; [done|intros Hl|intros Hl; apply wp_ret; auto].
  apply wp_bind, wp_is_dead; [done..|]. intros b Hb. apply wp_ret. destruct b.
  - apply H2. right. by apply Hb.
  - apply H1; [done|]. intros Hd%Hb. done.
Qed.



(** ** Ordered indices *)

Section Keys.
Context {A : Type}.
Implicit Types (m : gmap Z A).

#[local] Instance Zle_total : Total Z.le.
Proof. intros a b. lia. Qed.

Lemma elem_of_keys m k : k ∈ keys m <-> is_Some (m !! k).
Proof. unfold keys. rewrite merge_sort_Permutation, elem_of_elements, elem_of_dom. done. Qed.

Lemma keys_nodup m : NoDup (keys m).
Proof. unfold keys. rewrite merge_sort_Permutation. apply NoDup_elements. Qed.

Lemma keys_sorted m : StronglySorted Z.le (keys m).
Proof. apply StronglySorted_merge_sort; [apply _|apply _]. Qed.

Lemma sorted_last l y : StronglySorted Z.le l -> last l = Some y -> forall z, z ∈ l -> z <= y.
Proof.
  induction 1 as [|a l Hs IH Ha]; [done|]. intros Hl z Hz. destruct l as [|b l].
  - simpl in Hl. injection Hl as <-. apply list_elem_of_singleton in Hz. lia.
  - rewrite last_cons_cons in Hl. apply elem_of_cons in Hz as [->|Hz]; [|by apply IH].
    rewrite Forall_forall in Ha. apply Ha. by apply last_Some_elem_of.
Qed.

Lemma sorted_filter (f : Z -> bool) l : StronglySorted Z.le l -> StronglySorted Z.le (List.filter f l).
Proof.
  induction 1 as [|a l Hs IH Ha]; simpl; [constructor|]. destruct (f a); [|done]. constructor; [done|].
  rewrite Forall_forall in *. intros z Hz. apply Ha. apply list_elem_of_In, filter_In in Hz as [Hz _].
  by apply list_elem_of_In.
Qed.

Lemma elem_of_sel (f : Z -> bool) l z : z ∈ List.filter f l <-> z ∈ l /\ f z = true.
Proof. rewrite !list_elem_of_In. apply filter_In. Qed.

Lemma floor_spec m k :
  match floor m k with
  | Some (y, a) => m !! y = Some a /\ y <= k /\ forall z, is_Some (m !! z) -> z <= k -> z <= y
  | None => forall z, is_Some (m !! z) -> k < z
  end.
Proof.
  unfold floor. destruct (List.filter (fun y => y <=? k) (keys m)) as [|h l] eqn:E.
  - intros z Hz. apply elem_of_keys in Hz. destruct (Z.leb_spec z k) as [Hle|]; [|done]. exfalso.
    assert (Hin : z ∈ List.filter (fun y => y <=? k) (keys m)) by (apply elem_of_sel; lia || (split; [done|lia])).
    rewrite E in Hin. by apply not_elem_of_nil in Hin.
  - destruct (last (h :: l)) as [y|] eqn:El; [|by apply last_None in El].
    assert (Hy : y ∈ List.filter (fun y => y <=? k) (keys m)) by (rewrite E; by apply last_Some_elem_of).
    apply elem_of_sel in Hy as [[a Ha]%elem_of_keys Hle]. cbn [mbind option_bind]. rewrite Ha. simpl.
    split_and!; [done|lia|]. intros z Hz Hzk. eapply (sorted_last (h :: l)); [|done|].
    + rewrite <-E. apply sorted_filter, keys_sorted.
    + rewrite <-E. apply elem_of_sel. split; [by apply elem_of_keys|lia].
Qed.

Lemma elem_of_values m a : a ∈ values m <-> exists k, m !! k = Some a.
Proof.
  unfold values. rewrite list_elem_of_omap. split.
  - intros (k & _ & Hk). eauto.
  - intros (k & Hk). exists k. split; [|done]. apply elem_of_keys. eauto.
Qed.

(** Enumeration: the keys above [after], ascending, at most [cap]. *)
Lemma keys_after_spec m after cap k : k ∈ keys_after m after cap -> after < k /\ is_Some (m !! k).
Proof.
  unfold keys_after. intros Hk. apply elem_of_take in Hk as (i & Hi & _). apply list_elem_of_lookup_2 in Hi.
  apply elem_of_sel in Hi as [Hi Hlt]. split; [lia|by apply elem_of_keys].
Qed.

End Keys.

(** ** Views *)

Lemma floor_candidate v (m : gmap Z Z) (blk : Z -> Z -> Prop) addr :
  geo_ok v ->
  (forall base o, m !! base = Some o <-> exists b i, blk o b /\ v_info v b = Some i /\ i_base i = base) ->
  forall o b i stop, blk o b -> v_info v b = Some i -> i_base i <= addr -> addr < stop <= i_base i + i_bytes i ->
  exists o' b', floor m addr = Some (i_base i, o') /\ blk o' b' /\ b' = b.
Proof.
  intros Hg Hm o b i stop Hb Hi Hle Hstop. pose proof (floor_spec m addr) as Hf.
  assert (Hin : is_Some (m !! i_base i)).
  { exists o. apply Hm. eauto. }
  destruct (floor m addr) as [[y o']|]; [|specialize (Hf _ Hin); lia].
  destruct Hf as (Hy & Hya & Hmax). apply Hm in Hy as (b' & i' & Hb' & Hi' & <-).
  assert (Hbb : b' = b).
  { specialize (Hmax _ Hin Hle). pose proof (geo_block v Hg b' i' Hi') as [Hr _ _ _].
    apply (geo_apart v Hg b' b i' i (i_base i') Hi' Hi); unfold in_block; lia. }
  subst b'. simplify_eq. eauto.
Qed.

(** [[addr, addr+len)] lies inside [b]. *)
Definition covers v (addr len b : Z) : Prop :=
  exists i, v_info v b = Some i /\ i_base i <= addr /\ addr + len <= i_base i + i_bytes i.

(** What [umem_view_locked] returns: the one block [p] sees that covers the range. *)
Definition view_of v (p addr len : Z) (ob : option Z) : Prop :=
  forall b, ob = Some b <-> 0 < len /\ sees v p b /\ covers v addr len b.

Lemma geo_end v b i : geo_ok v -> v_info v b = Some i -> u64 (i_base i + i_bytes i) = i_base i + i_bytes i.
Proof. intros Hg Hi. destruct (geo_block v Hg b i Hi) as [Hr _ _ _]. apply u64_small. lia. Qed.

Lemma covers_unique v addr len b b' : geo_ok v -> 0 < len -> covers v addr len b -> covers v addr len b' -> b = b'.
Proof.
  intros Hg Hl (i & Hi & ? & ?) (i' & Hi' & ? & ?).
  apply (geo_apart v Hg b b' i i' addr Hi Hi'); unfold in_block; lia.
Qed.

Lemma own_lookup v p base b : own_ok v ->
  v_pblocks v p !! base = Some b <->
  exists b' i, (b = b' /\ v_owner v b = Some p) /\ v_info v b' = Some i /\ i_base i = base.
Proof.
  intros Ho. rewrite (own_index v Ho). unfold bbase. split.
  - intros [H1 H2]. destruct (v_info v b) as [i|] eqn:E; [|done]. injection H2 as <-. by exists b, i.
  - intros (b' & i & [<- H1] & H2 & <-). by rewrite H2.
Qed.

Lemma view_lookup v p base e : edge_ok v ->
  v_views v p !! base = Some e <->
  exists b i, (v_eblock v e = Some b /\ v_eto v e = Some p) /\ v_info v b = Some i /\ i_base i = base.
Proof.
  intros He. rewrite (edge_views v He). unfold bbase. split.
  - intros (H1 & b & H2 & H3). destruct (v_info v b) as [i|] eqn:E; [|done]. injection H3 as <-. by exists b, i.
  - intros (b & i & [H1 H2] & H3 & <-). split; [done|]. exists b. split; [done|]. by rewrite H3.
Qed.

(** The block behind a floor entry is the only candidate. *)
Lemma floor_covers v (m : gmap Z Z) (blk : Z -> Z -> Prop) addr len :
  geo_ok v -> 0 < len ->
  (forall base o, m !! base = Some o <-> exists b i, blk o b /\ v_info v b = Some i /\ i_base i = base) ->
  match floor m addr with
  | None => forall o b, blk o b -> ~ covers v addr len b
  | Some (y, o) => exists b i, blk o b /\ v_info v b = Some i /\ i_base i = y /\ y <= addr /\
      forall o' b', blk o' b' -> covers v addr len b' -> b' = b
  end.
Proof.
  intros Hg Hl Hm. pose proof (floor_spec m addr) as Hf. destruct (floor m addr) as [[y o]|] eqn:E.
  - destruct Hf as (Hy & Hya & _). apply Hm in Hy as (b & i & Hb & Hi & <-). exists b, i. split_and!; [done..|].
    intros o' b' Hb' (i' & Hi' & H1 & H2).
    destruct (floor_candidate v m blk addr Hg Hm o' b' i' (addr + len) Hb' Hi' H1 ltac:(lia)) as (o2 & b2 & Hf2 & Hb2 & ->).
    rewrite E in Hf2. simplify_eq.
    apply (geo_apart v Hg b' b i' i (i_base i')); [done..| |]; unfold in_block;
      [pose proof (blk_range _ (geo_block v Hg b' i' Hi')); lia|].
    pose proof (blk_range _ (geo_block v Hg b i Hi)). lia.
  - intros o b Hb (i & Hi & H1 & H2).
    destruct (floor_candidate v m blk addr Hg Hm o b i (addr + len) Hb Hi H1 ltac:(lia)) as (o2 & b2 & Hf2 & _). congruence.
Qed.

Lemma wp_view p addr len Q v x : own_ok v -> edge_ok v -> geo_ok v -> live v p -> 0 <= addr -> 0 <= len ->
  (forall ob, view_of v p addr len ob -> Q ob v x) -> wp (umem_view_locked p addr len) Q v x.
Proof.
  intros Ho He Hg Hl Ha Hlen H. unfold umem_view_locked.
  destruct (Z.eqb_spec len 0) as [->|Hnz].
  { apply wp_ret, H. intros b. split; [done|lia]. }
  assert (Hpos : 0 < len) by lia.
  unfold add_overflow64. destruct (Z.leb_spec (2 ^ 64) (addr + len)) as [Hov|Hov].
  { apply wp_ret, H. intros b. split; [done|]. intros (_ & _ & i & Hi & _ & Hle).
    destruct (geo_block v Hg b i Hi) as [Hr _ _ _]. lia. }
  ws. vsimpl. apply wp_bind.
  apply (wp_mono _ (fun ob v' x' => v' = v /\ x' = x /\ forall b, ob = Some b <-> v_owner v b = Some p /\ covers v addr len b)).
  { pose proof (floor_covers v (v_pblocks v p) (fun o b => o = b /\ v_owner v o = Some p) addr len Hg Hpos
                  (fun base b => own_lookup v p base b Ho)) as Hf.
    destruct (floor (v_pblocks v p) addr) as [[y b]|].
    - destruct Hf as (b' & i & [<- Hob] & Hi & <- & Hya & Hu). ws. vsimpl. rewrite (geo_end v _ _ Hg Hi).
      destruct (Z.leb_spec (addr + len) (i_base i + i_bytes i)) as [Hle|Hle].
      + ws. { apply bool_decide_eq_true_2, own_lookup; [done|]. by exists b, i. }
        apply wp_ret. split_and!; [done..|]. intros b'. split; [intros [= <-]; split; [done|]; by exists i|].
        intros [Hb' Hc]. by rewrite (Hu b' b' (conj eq_refl Hb') Hc).
      + apply wp_ret. split_and!; [done..|]. intros b'. split; [done|]. intros [Hb' Hc].
        pose proof (Hu b' b' (conj eq_refl Hb') Hc) as ->. destruct Hc as (i' & Hi' & _ & H2). simplify_eq. lia.
    - apply wp_ret. split_and!; [done..|]. intros b. split; [done|]. intros [Hb Hc]. by destruct (Hf b b). }
  intros ob ? ? (-> & -> & Hob). destruct ob as [b|].
  { apply wp_ret, H. destruct (proj1 (Hob b) eq_refl) as [Hb Hin]. intros b'. split.
    - intros [= <-]. split_and!; [done|by left|done].
    - intros (_ & _ & Hin'). f_equal. by eapply covers_unique. }
  assert (Hno : forall b, ~ (v_owner v b = Some p /\ covers v addr len b)) by (intros b Hb; by apply Hob in Hb).
  pose proof (floor_covers v (v_views v p) (fun e b => v_eblock v e = Some b /\ v_eto v e = Some p) addr len Hg Hpos
                (fun base e => view_lookup v p base e He)) as Hf.
  destruct (floor (v_views v p) addr) as [[y e]|].
  - destruct Hf as (b & i & [Heb Het] & Hi & <- & Hya & Hu).
    destruct (proj2 (own_info v Ho b) ltac:(by eexists)) as [o Hbo].
    ws. vsimpl. ws. vsimpl. rewrite (geo_end v _ _ Hg Hi). apply wp_ret, H. intros b'. split.
    + destruct (Z.leb_spec (addr + len) (i_base i + i_bytes i)); [|done]. intros [= <-].
      split_and!; [done|right; eauto|by exists i].
    + intros (_ & [Hb'|(e' & He1 & He2)] & Hin); [by destruct (Hno b')|].
      pose proof (Hu e' b' (conj He1 He2) Hin) as ->. destruct Hin as (i' & Hi' & _ & H2). simplify_eq.
      destruct (Z.leb_spec (addr + len) (i_base i + i_bytes i)); [done|lia].
  - apply wp_ret, H. intros b. split; [done|]. intros (_ & [Hb'|(e' & He1 & He2)] & Hin); [by destruct (Hno b)|].
    by destruct (Hf e' b (conj He1 He2)).
Qed.

(** ** User ranges *)

(** The flag word [f] lets user code read the page, and write it if [w]. *)
Definition user_flags (w : bool) (f : Z) : bool := has f PAGE_U && has f PAGE_R && (negb w || has f PAGE_W).

(** Every byte of the range is user-accessible in the map [m]. *)
Definition user_ok (m : Z -> Z) (addr len : Z) (w : bool) : Prop :=
  forall a, addr <= a < addr + len -> user_flags w (m a) = true.

(** User pages are in the lower canonical half. *)
Definition user_low (m : Z -> Z) : Prop := forall a, has (m a) PAGE_U = true -> a mod 2 ^ 48 < 2 ^ 47.

Lemma as_map_page (a : aspace) y : 0 <= y -> as_map a y = as_map a (align_down y).
Proof.
  intros Hx. unfold as_map, align_down, PAGE_SIZE.
  rewrite (pt_info_page _ (y mod 2 ^ 48)), (pt_info_page _ (_ mod 2 ^ 48)) by (apply Z.mod_pos_bound; lia).
  f_equal. unfold PAGE_SIZE. div_lia.
Qed.

Lemma as_map_info (a : aspace) y : 0 <= y -> pt_info (a_tree a) y = as_map a y.
Proof. intros Hx. unfold as_map. by apply pt_info_alias. Qed.

Lemma range_test f w : (f =? 0) || negb (has f PAGE_U) || negb (has f PAGE_R) = false ->
  (w && negb (has f PAGE_W)) = false -> user_flags w f = true.
Proof.
  unfold user_flags. destruct (has f PAGE_U), (has f PAGE_R), (has f PAGE_W), w, (f =? 0); done.
Qed.

Lemma range_test_l f w : user_flags w f = true -> (f =? 0) || negb (has f PAGE_U) || negb (has f PAGE_R) = false.
Proof.
  unfold user_flags. destruct (Z.eqb_spec f 0) as [->|Hf]; [done|].
  by destruct (has f PAGE_U), (has f PAGE_R).
Qed.

Lemma range_test_r f w : user_flags w f = true -> (w && negb (has f PAGE_W)) = false.
Proof. unfold user_flags. by destruct (has f PAGE_U), (has f PAGE_R), (has f PAGE_W), w. Qed.

Lemma range_loop_spec (a : aspace) w stop fuel page : user_low (as_map a) ->
  0 <= page -> page mod PAGE_SIZE = 0 -> stop < 2 ^ 64 -> page < 2 ^ 64 ->
  (page < stop -> (stop - page) / PAGE_SIZE + 1 <= Z.of_nat fuel) ->
  exists b, range_loop fuel (a_tree a) page stop w = Some b /\
    (b = true <-> forall y, page <= y < stop -> user_flags w (as_map a y) = true).
Proof.
  intros Hlow. revert page. induction fuel as [|fuel IH]; intros page Hp Hal Hs Hps Hf; 
    cbn [range_loop]; unfold PAGE_SIZE in *; destruct (Z.leb_spec stop page) as [Hle|Hlt].
  1,3: exists true; split; [done|]; split; [intros _ y ?; lia|done].
  { specialize (Hf Hlt). assert (0 <= (stop - page) / 4096) by (apply Z.div_pos; lia). lia. }
  rewrite as_map_info by lia. set (f := as_map a page). specialize (Hf Hlt).
  assert (Hpage : forall y, page <= y < page + 4096 -> as_map a y = f).
  { intros y Hy. unfold f. rewrite as_map_page by lia. f_equal. unfold align_down, PAGE_SIZE. div_lia. }
  destruct (_ || _ || _) eqn:E1.
  { exists false. split; [done|]. split; [done|]. intros Hall. specialize (Hall page ltac:(lia)).
    apply range_test_l in Hall. unfold f in E1. congruence. }
  destruct (w && negb (has f PAGE_W)) eqn:E2.
  { exists false. split; [done|]. split; [done|]. intros Hall. specialize (Hall page ltac:(lia)).
    apply range_test_r in Hall. unfold f in E2. congruence. }
  pose proof (range_test f w E1 E2) as Hok.
  assert (Hpl : page mod 2 ^ 48 < 2 ^ 47).
  { apply Hlow. unfold user_flags in Hok. destruct (has (as_map a page) PAGE_U) eqn:E; [done|]. unfold f in Hok. by rewrite E in Hok. }
  assert (Hbound : page + 4096 < 2 ^ 64) by (clear - Hp Hps Hal Hpl; div_lia).
  rewrite (u64_small (page + 4096)) by lia.
  destruct (IH (page + 4096)) as (b & Hb & Hiff); [lia|clear - Hal; div_lia|lia|lia|clear - Hf; intros; div_lia|].
  exists b. split; [done|]. rewrite Hiff. split; intros Hall y Hy.
  - destruct (decide (y < page + 4096)); [by rewrite Hpage by lia|apply Hall; lia].
  - apply Hall. lia.
Qed.

Lemma map_user_low v p m : geo_ok v -> map_ok v -> v_map v p = Some m -> (forall a, m a = m (a mod 2 ^ 48)) -> user_low m.
Proof.
  intros Hg Hm Hp Hmod a Ha. rewrite Hmod in Ha. assert (Hb : 0 <= a mod 2 ^ 48 < 2 ^ 48) by (apply Z.mod_pos_bound; lia).
  destruct (map_user v Hm p m _ Hp Hb) as [E|(b & i & _ & Hi & Hin)].
  - rewrite E in Ha. by rewrite (map_kernel v Hm) in Ha.
  - destruct (geo_block v Hg b i Hi) as [Hr _ _ _]. unfold in_block in Hin. lia.
Qed.

Lemma wp_user_range p addr len w m Q v x : geo_ok v -> map_ok v -> v_map v p = Some m -> live v p -> 0 <= addr < 2 ^ 64 -> 0 <= len ->
  (forall b : bool, (b = true <-> len = 0 \/ (addr + len < 2 ^ 64 /\ user_ok m addr len w)) -> Q b v x) ->
  wp (user_range_ok p addr len w) Q v x.
Proof.
  intros Hg Hmap Hm Hp Ha Hlen H. unfold user_range_ok. destruct (Z.eqb_spec len 0) as [->|Hnz].
  { apply wp_ret, H. split; [by left|done]. }
  unfold add_overflow64. destruct (Z.leb_spec (2 ^ 64) (addr + len)) as [Hov|Hov].
  { apply wp_ret, H. split; [done|]. intros [?|[? _]]; lia. }
  apply wp_bind. eapply wp_get_as; [done|by eexists|]. intros a Has _ _. subst m.
  assert (Hlow : user_low (as_map a)).
  { eapply map_user_low; [done..|]. intros y. unfold as_map. by rewrite Zmod_mod. }
  destruct (range_loop_spec a w (addr + len) (Z.to_nat (len / PAGE_SIZE + 2)) (align_down addr) Hlow) as (b & -> & Hb);
    unfold align_down, PAGE_SIZE in *; [div_lia..|].
  apply wp_ret, H. rewrite Hb. split.
  - intros Hall. right. split; [done|]. intros y Hy. apply Hall. div_lia.
  - intros [?|[_ Hok]]; [lia|]. intros y Hy. destruct (decide (addr <= y)); [apply Hok; lia|].
    rewrite as_map_page by div_lia. replace (align_down y) with (align_down addr) by (unfold align_down, PAGE_SIZE; div_lia).
    rewrite <-as_map_page by lia. apply Hok. lia.
Qed.


(** ** The notification queues *)

Lemma seg_ext pv nx pv' nx' prev l next : (forall e, e ∈ l -> pv' e = pv e /\ nx' e = nx e) ->
  seg pv nx prev l next -> seg pv' nx' prev l next.
Proof.
  revert prev. induction l as [|e l IH]; intros prev Hl; [done|]. intros (H1 & H2 & H3). simpl.
  destruct (Hl e ltac:(by left)) as [-> ->]. split_and!; [done..|]. apply IH; [|done]. intros e' He'. apply Hl. by right.
Qed.

Lemma seg_app pv nx prev l1 l2 next : seg pv nx prev (l1 ++ l2) next <->
  seg pv nx prev l1 (match head l2 with Some e => Some e | None => next end) /\
  seg pv nx (match last l1 with Some e => Some e | None => prev end) l2 next.
Proof.
  revert prev. induction l1 as [|e l1 IH]; intros prev; [simpl; naive_solver|].
  cbn [app seg]. rewrite IH. destruct l1 as [|e' l1]; [simpl; naive_solver|].
  cbn [app head seg]. rewrite (last_cons_cons e e'). destruct (last (e' :: l1)) eqn:E; [|by apply last_None in E].
  naive_solver.
Qed.

(** Redirecting the last forward link of a run. *)
Lemma seg_set_next pv nx prev l a next next' : NoDup (l ++ [a]) ->
  seg pv nx prev (l ++ [a]) next -> seg pv (fset a next' nx) prev (l ++ [a]) next'.
Proof.
  intros Hnd. rewrite !seg_app. cbn [head seg]. intros [H1 (H2 & _ & _)]. split_and!; [|done|by rewrite fset_eq|done].
  apply (seg_ext pv nx); [|done]. intros e He. split; [done|]. apply fset_ne. intros ->.
  apply NoDup_app in Hnd as (_ & Hnd & _). apply (Hnd _ He). by left.
Qed.

(** Redirecting the first backward link. *)
Lemma seg_set_prev pv nx prev prev' a l next : NoDup (a :: l) ->
  seg pv nx prev (a :: l) next -> seg (fset a prev' pv) nx prev' (a :: l) next.
Proof.
  intros Hnd (H1 & H2 & H3). simpl. rewrite fset_eq. split_and!; [done..|].
  apply (seg_ext pv nx); [|done]. intros e He. split; [|done]. apply fset_ne. intros ->.
  apply NoDup_cons in Hnd as [Hnd _]. done.
Qed.

(** Only the links differ. *)
Definition relink v (pv nx hd tl : Z -> option Z) : gview :=
  upd_v_eprev (fun _ => pv) (upd_v_enext (fun _ => nx) (upd_v_head (fun _ => hd) (upd_v_tail (fun _ => tl) v))).

Lemma queue_ext v pv nx hd tl p l : queue v p l -> hd p = v_head v p -> tl p = v_tail v p ->
  (forall e, e ∈ l -> pv e = v_eprev v e /\ nx e = v_enext v e) -> queue (relink v pv nx hd tl) p l.
Proof.
  intros [H1 H2 H3 H4] Hh Ht He. split; simpl; [by rewrite Hh|by rewrite Ht| |done].
  by apply (seg_ext (v_eprev v) (v_enext v)).
Qed.

(** The queue of [p] becomes [l] and the others stay. *)
Lemma queue_update v L p l pv nx hd tl :
  (forall q, queue v q (L q)) -> (forall q e, q <> p -> e ∈ L q -> pv e = v_eprev v e /\ nx e = v_enext v e) ->
  (forall q, q <> p -> hd q = v_head v q /\ tl q = v_tail v q) -> queue (relink v pv nx hd tl) p l ->
  forall q, queue (relink v pv nx hd tl) q (fset p l L q).
Proof.
  intros HL He Hh Hp q. destruct (decide (q = p)) as [->|Hq]; [by rewrite fset_eq|]. rewrite fset_ne by done.
  destruct (Hh q Hq). apply queue_ext; [done..|]. intros e. by apply He.
Qed.

Lemma gview_relink v pv nx hd tl : pv = v_eprev v -> nx = v_enext v -> hd = v_head v -> tl = v_tail v ->
  v = relink v pv nx hd tl.
Proof. intros -> -> -> ->. by destruct v. Qed.

Lemma wp_pending_link e b p L Q v x : v_eblock v e = Some b -> v_eto v e = Some p -> live v p ->
  v_enot v e = false -> v_eprev v e = None -> v_enext v e = None ->
  (forall q, queue v q (L q)) -> (forall q, e ∉ L q) -> (forall q q' e', e' ∈ L q -> e' ∈ L q' -> q = q') ->
  (forall e', e' ∈ L p -> is_Some (v_eblock v e')) ->
  (forall pv nx hd tl, (forall q, queue (relink v pv nx hd tl) q (fset p (L p ++ [e]) L q)) -> Q tt (relink v pv nx hd tl) x) ->
  wp (pending_link e) Q v x.
Proof.
  intros Hb Hto Hp Hn Hpv Hnx HL Hfresh Hdisj Hblk H. unfold pending_link. ws. vsimpl.
  ws. { by rewrite Hn, Hpv, Hnx, !bool_decide_true. } ws. vsimpl. ws.
  destruct (HL p) as [Hhd Htl Hseg Hnd]. destruct (last (L p)) as [t|] eqn:El.
  - assert (Ht : t ∈ L p) by by apply last_Some_elem_of. destruct (Hblk t Ht) as [bt Hbt].
    assert (t <> e) by (intros ->; by destruct (Hfresh p)).
    rewrite Htl. ws. ws.
    apply last_Some in El as [l' El].
    eapply eq_ind; [apply (H (fset e (Some t) (v_eprev v)) (fset t (Some e) (v_enext v)) (v_head v) (fset p (Some e) (v_tail v)))|done].
    apply queue_update; [done|..].
    + intros q e' Hq He'. rewrite !fset_ne; [done|..]; intros ->; [by destruct (Hdisj q p t He' Ht)|by destruct (Hfresh q)].
    + intros q Hq. by rewrite fset_ne.
    + split; simpl; [by rewrite Hhd, El; destruct l'|by rewrite fset_eq, last_snoc| |].
      * rewrite El. apply seg_app. split; [|simpl; by rewrite last_snoc, fset_eq, fset_ne, Hnx].
        cbn [head]. apply seg_set_next with None; [by rewrite <-El|]. rewrite <-El.
        apply (seg_ext (v_eprev v) (v_enext v)); [|done]. intros e' He'. split; [|done]. apply fset_ne. intros ->. by destruct (Hfresh p).
      * apply NoDup_app. split_and!; [done| |apply NoDup_singleton].
        intros e' He' ->%list_elem_of_singleton. by destruct (Hfresh p).
  - rewrite Htl. ws. ws. apply last_None in El.
    eapply eq_ind; [apply (H (fset e None (v_eprev v)) (v_enext v) (fset p (Some e) (v_head v)) (fset p (Some e) (v_tail v)))|done].
    apply queue_update; [done|..].
    + intros q e' Hq He'. rewrite !fset_ne; [done|]; intros ->; by destruct (Hfresh q).
    + intros q Hq. by rewrite !fset_ne.
    + rewrite El. split; simpl; [by rewrite fset_eq..|by rewrite fset_eq|apply NoDup_singleton].
Qed.

(** A run whose element [e] is bypassed. *)
Lemma seg_remove pv nx l1 e l2 pv' nx' : NoDup (l1 ++ e :: l2) -> seg pv nx None (l1 ++ e :: l2) None ->
  nx' = fset e None (match last l1 with Some a => fset a (head l2) nx | None => nx end) ->
  pv' = fset e None (match head l2 with Some c => fset c (last l1) pv | None => pv end) ->
  seg pv' nx' None (l1 ++ l2) None.
Proof.
  intros Hnd Hs -> ->. apply NoDup_app in Hnd as (Hnd1 & Hd & Hnd2).
  apply NoDup_cons in Hnd2 as [He2 Hnd2].
  assert (He1 : e ∉ l1) by (intros He; apply (Hd e He); by left).
  assert (H12 : forall a, a ∈ l1 -> a ∉ l2) by (intros a Ha Ha2; apply (Hd a Ha); by right).
  apply seg_app in Hs as [Hs1 (Hp & Hn & Hs2)]. apply seg_app.
  cut (seg (fset e None (match head l2 with Some c => fset c (last l1) pv | None => pv end))
         (match last l1 with Some a => fset a (head l2) nx | None => nx end) None l1 (head l2) /\
       seg (match head l2 with Some c => fset c (last l1) pv | None => pv end)
         (match last l1 with Some a => fset a (head l2) nx | None => nx end) (last l1) l2 None).
  { intros [Ha Hb]. split.
    - assert (Hh : seg (fset e None (match head l2 with Some c => fset c (last l1) pv | None => pv end))
           (fset e None (match last l1 with Some a => fset a (head l2) nx | None => nx end)) None l1 (head l2)).
      { eapply seg_ext; [|exact Ha]. intros a Hal. split; [done|]. apply fset_ne. by intros ->. }
      by destruct (head l2).
    - assert (Hh : seg (fset e None (match head l2 with Some c => fset c (last l1) pv | None => pv end))
           (fset e None (match last l1 with Some a => fset a (head l2) nx | None => nx end)) (last l1) l2 None).
      { eapply seg_ext; [|exact Hb]. intros a Hal. split; apply fset_ne; by intros ->. }
      by destruct (last l1). }
  split.
  - destruct (last l1) as [a|] eqn:El; [|apply last_None in El; by subst].
    apply last_Some in El as [l' ->]. apply seg_set_next with (Some e); [done|]. simpl in Hs1.
    eapply seg_ext; [|exact Hs1]. intros a' Ha'. split; [|done]. rewrite fset_ne by (by intros ->).
    destruct l2 as [|c l2]; [done|]. cbn [head]. apply fset_ne. intros ->. apply (H12 c Ha'). by left.
  - destruct l2 as [|c l2]; [done|]. cbn [head]. apply seg_set_prev with (Some e); [done|].
    eapply seg_ext; [|exact Hs2]. intros a' Ha'. split; [done|]. destruct (last l1) as [a|] eqn:El; [|done].
    apply fset_ne. intros ->. apply (H12 a); [by apply last_Some_elem_of|done].
Qed.

Lemma seg_split_prev pv nx l1 e l2 : seg pv nx None (l1 ++ e :: l2) None -> pv e = last l1 /\ nx e = head l2.
Proof.
  intros [_ (H1 & H2 & _)]%seg_app. rewrite H1, H2. split; [by destruct (last l1)|by destruct (head l2)].
Qed.

Lemma wp_pending_unlink e b p L l1 l2 Q v x : v_eblock v e = Some b -> v_eto v e = Some p -> live v p ->
  v_enot v e = false -> (forall q, queue v q (L q)) -> L p = l1 ++ e :: l2 ->
  (forall q q' e', e' ∈ L q -> e' ∈ L q' -> q = q') -> (forall e', e' ∈ L p -> is_Some (v_eblock v e')) ->
  (forall pv nx hd tl, (forall q, queue (relink v pv nx hd tl) q (fset p (l1 ++ l2) L q)) -> pv e = None -> nx e = None ->
     Q tt (relink v pv nx hd tl) x) ->
  wp (umem_edge_pending_unlink_locked e) Q v x.
Proof.
  intros Hb Hto Hp Hn HL El Hdisj Hblk H. unfold umem_edge_pending_unlink_locked. ws. vsimpl. rewrite Hn.
  destruct (HL p) as [Hhd Htl Hseg Hnd]. rewrite El in *. destruct (seg_split_prev _ _ _ _ _ Hseg) as [Epv Enx].
  rewrite Epv, Enx.
  assert (Hl1 : forall a, last l1 = Some a -> a <> e /\ a ∈ l1 ++ e :: l2 /\ is_Some (v_eblock v a)).
  { intros a Ha%last_Some_elem_of. assert (a ∈ l1 ++ e :: l2) by (apply elem_of_app; by left). split_and!; [|done|by apply Hblk].
    intros ->. apply NoDup_app in Hnd as (_ & Hnd & _). apply (Hnd e Ha). by left. }
  assert (Hl2 : forall a, head l2 = Some a -> a <> e /\ a ∈ l1 ++ e :: l2 /\ is_Some (v_eblock v a)).
  { intros a Ha%head_Some_elem_of. assert (a ∈ l1 ++ e :: l2) by (apply elem_of_app; right; by right). split_and!; [|done|by apply Hblk].
    intros ->. apply NoDup_app in Hnd as (_ & _ & [Hnd _]%NoDup_cons). done. }
  set (nx' := match last l1 with Some a => fset a (head l2) (v_enext v) | None => v_enext v end).
  set (hd' := match last l1 with Some a => v_head v | None => fset p (head l2) (v_head v) end).
  set (pv' := match head l2 with Some c => fset c (last l1) (v_eprev v) | None => v_eprev v end).
  set (tl' := match head l2 with Some c => v_tail v | None => fset p (last l1) (v_tail v) end).
  apply wp_bind, (wp_mono _ (fun _ v' x' => v' = relink v (v_eprev v) nx' hd' (v_tail v) /\ x' = x)).
  { unfold nx', hd'. destruct (last l1) as [a|] eqn:E; [destruct (Hl1 a eq_refl) as (? & _ & ?)|]; ws; split; try done; by destruct v. }
  intros [] ? ? [-> ->].
  apply wp_bind, (wp_mono _ (fun _ v' x' => v' = relink v pv' nx' hd' tl' /\ x' = x)).
  { unfold pv', tl'. destruct (head l2) as [a|] eqn:E; [destruct (Hl2 a eq_refl) as (? & _ & ?)|]; ws; split; done. }
  intros [] ? ? [-> ->].
  ws. change (Q tt (relink v (fset e None pv') (fset e None nx') hd' tl') x).
  apply H; [|by rewrite fset_eq..]. apply queue_update; [done|..].
  - intros q a Hq Ha. assert (a ∉ l1 ++ e :: l2).
    { intros Ha'. rewrite <-El in Ha'. by destruct (Hdisj q p a Ha Ha'). }
    assert (a <> e) by (intros ->; set_solver). rewrite !fset_ne by done. unfold pv', nx'. split.
    + destruct (head l2) as [c|]; [|done]. destruct (Hl2 c eq_refl) as (_ & Hc & _). apply fset_ne. by intros ->.
    + destruct (last l1) as [c|]; [|done]. destruct (Hl1 c eq_refl) as (_ & Hc & _). apply fset_ne. by intros ->.
  - intros q Hq. unfold hd', tl'. by destruct (last l1), (head l2); rewrite ?fset_ne.
  - split; unfold relink; vsimpl.
    + unfold hd'. destruct l1 as [|a l1]; [cbn [last]; by rewrite fset_eq|].
      destruct (last (a :: l1)) eqn:E; [by rewrite Hhd|by apply last_None in E].
    + unfold tl'. destruct l2 as [|c l2]; [cbn [head]; by rewrite fset_eq, app_nil_r|].
      cbn [head]. rewrite Htl, !last_app, last_cons_cons. by destruct (last (c :: l2)).
    + by eapply seg_remove.
    + apply NoDup_app in Hnd as (Hn1 & Hn2 & [Hn3 Hn4]%NoDup_cons). apply NoDup_app. split_and!; [done| |done]. set_solver.
Qed.

(** The queues hold every pending edge except [e]. *)
Definition pending_but v (e : Z) : Prop :=
  exists L, (forall q, queue v q (L q)) /\ forall q e', e' ∈ L q <-> v_eto v e' = Some q /\ v_enot v e' = false /\ e' <> e.

Lemma wp_unlink e b p Q v x : pend_ok v -> (forall e', is_Some (v_eto v e') -> is_Some (v_eblock v e')) -> v_eblock v e = Some b -> v_eto v e = Some p -> live v p ->
  (forall pv nx hd tl, pending_but (relink v pv nx hd tl) e -> Q tt (relink v pv nx hd tl) x) ->
  wp (umem_edge_pending_unlink_locked e) Q v x.
Proof.
  intros (L & HL & Hin) He Hb Hto Hp H. destruct (v_enot v e) eqn:En.
  - unfold umem_edge_pending_unlink_locked. ws. vsimpl. rewrite En. apply wp_skip.
    rewrite (gview_relink v (v_eprev v) (v_enext v) (v_head v) (v_tail v)) by done. apply H. exists L.
    split; [rewrite <-gview_relink by done; apply HL|]. intros q e'. rewrite Hin. unfold relink. vsimpl.
    split; [|tauto]. intros [? ?]. split_and!; [done..|]. intros ->. congruence.
  - assert (Hel : e ∈ L p) by (by apply Hin). destruct (list_elem_of_split _ _ Hel) as (l1 & l2 & El).
    eapply (wp_pending_unlink e b p L l1 l2); [done..| | |].
    { intros q q' e' [? _]%Hin [? _]%Hin. congruence. }
    { intros e' [? _]%Hin. apply He. eauto. }
    intros pv nx hd tl HL' _ _. apply H. eexists. split; [exact HL'|]. intros q e'. unfold relink. vsimpl.
    destruct (decide (q = p)) as [->|Hq].
    + rewrite fset_eq. pose proof (pq_nodup _ _ _ (HL p)) as Hnd. rewrite El in Hnd.
      assert (Hsp : e' ∈ l1 ++ l2 <-> e' ∈ L p /\ e' <> e).
      { rewrite El. apply NoDup_app in Hnd as (_ & Hd & [Hd2 _]%NoDup_cons). rewrite !elem_of_app, elem_of_cons.
        split; [intros [?|?]; split; try tauto; intros ->; [by apply (Hd e); [|left]|done]|]. tauto. }
      rewrite Hsp, Hin. tauto.
    + rewrite fset_ne by done. rewrite Hin. split; [|tauto]. intros [? ?]. split_and!; [done..|]. congruence.
Qed.

End Base.
