(* ===== verification/SchedSpec.v ===== *)
(** * Specifications of run queues, deadlines and futex wake-ups

    The rules for Sched.v under [sched_inv]: claiming and waking threads, cancelling
    deadlines, detaching waiters in arrival order.  A wake-up changes no column of
    the ownership graph: it is a [calm] step of the rest of the state. *)

From Stdlib Require Import FunctionalExtensionality.
From S2P Require Import Prelude Buddy Paging Siphash PlatformMem Machine Sched Index Channel Umem Process Graph Wp Invariant BaseSpec.

(** ** Ordered pairs *)

Definition ple (a b : Z * Z) : Prop := a.1 < b.1 \/ (a.1 = b.1 /\ a.2 <= b.2).

Lemma pair_leb_spec a b : pair_leb a b = true <-> ple a b.
Proof. unfold pair_leb, ple. lia. Qed.

Lemma pair_leb_false a b : pair_leb a b = false <-> ~ ple a b.
Proof. rewrite <-pair_leb_spec. by destruct (pair_leb a b). Qed.

Lemma ple_total a b : ple a b \/ ple b a.
Proof. unfold ple. lia. Qed.

Lemma ple_trans a b c : ple a b -> ple b c -> ple a c.
Proof. unfold ple. lia. Qed.

Lemma ple_antisym a b : ple a b -> ple b a -> a = b.
Proof. destruct a, b. unfold ple. simpl. intros. f_equal; lia. Qed.

(** The least entry at or after [k]. *)
Definition least_from {A} (m : gmap (Z * Z) A) (k : Z * Z) (o : option ((Z * Z) * A)) : Prop :=
  match o with
  | None => forall y a, m !! y = Some a -> ~ ple k y
  | Some (y, a) => m !! y = Some a /\ ple k y /\ forall z b, m !! z = Some b -> ple k z -> ple y z
  end.

Lemma lower_bound_spec {A} (m : gmap (Z * Z) A) k : least_from m k (lower_bound m k).
Proof.
  unfold lower_bound. apply (map_fold_weak_ind (fun o m => least_from m k o)).
  { intros y a. by rewrite lookup_empty. }
  intros i a m' o Hi IH. destruct (pair_leb k i) eqn:Ek.
  - apply pair_leb_spec in Ek. destruct o as [[y b]|].
    + destruct IH as (Hy & Hky & Hmin). destruct (pair_leb i y) eqn:Ei.
      * apply pair_leb_spec in Ei. split_and!; [by rewrite lookup_insert_eq|done|]. intros z c Hz Hkz.
        apply lookup_insert_Some in Hz as [[<- _]|[_ Hz]]; [unfold ple; lia|]. eapply ple_trans; [done|]. by eapply Hmin.
      * apply pair_leb_false in Ei. split_and!; [|done|].
        { rewrite lookup_insert_ne; [done|]. intros <-. congruence. }
        intros z c Hz Hkz. apply lookup_insert_Some in Hz as [[<- _]|[_ Hz]]; [|by eapply Hmin].
        destruct (ple_total y i); [done|by destruct Ei].
    + split_and!; [by rewrite lookup_insert_eq|done|]. intros z c Hz Hkz.
      apply lookup_insert_Some in Hz as [[<- _]|[_ Hz]]; [unfold ple; lia|]. by destruct (IH z c Hz).
  - apply pair_leb_false in Ek. destruct o as [[y b]|].
    + destruct IH as (Hy & Hky & Hmin). split_and!; [|done|].
      { rewrite lookup_insert_ne; [done|]. intros <-. congruence. }
      intros z c Hz Hkz. apply lookup_insert_Some in Hz as [[<- _]|[_ Hz]]; [done|]. by eapply Hmin.
    + intros z c Hz. apply lookup_insert_Some in Hz as [[<- _]|[_ Hz]]; [done|]. by eapply IH.
Qed.

Section Sched.
Context {PT : PageTree} {SC : Schemes}.
Implicit Types (v : gview) (x : rest).

(** ** The run queues together *)

Lemma join_insert (l : list (list Z)) i q q' : l !! i = Some q -> Permutation (mjoin (<[i := q']> l) ++ q) (mjoin l ++ q').
Proof.
  revert i. induction l as [|a l IH]; intros [|i] Hi; simplify_eq/=.
  - rewrite <-!app_assoc. rewrite (Permutation_app_comm (mjoin l) q), (Permutation_app_comm (mjoin l) q').
    rewrite !app_assoc. apply Permutation_app_tail, Permutation_app_comm.
  - rewrite <-!app_assoc. by apply Permutation_app_head, IH.
Qed.

Lemma join_push (l : list (list Z)) i q t : l !! i = Some q -> Permutation (mjoin (<[i := q ++ [t]]> l)) (t :: mjoin l).
Proof.
  intros Hi. pose proof (join_insert l i q (q ++ [t]) Hi) as Hp.
  apply (Permutation_app_inv_r q). rewrite Hp. simpl. rewrite app_assoc.
  rewrite (Permutation_app_comm (mjoin l ++ q) [t]). done.
Qed.

Lemma join_pop (l : list (list Z)) i q t : l !! i = Some (t :: q) -> Permutation (mjoin l) (t :: mjoin (<[i := q]> l)).
Proof.
  intros Hi. pose proof (join_insert l i (t :: q) q Hi) as Hp. apply (Permutation_app_inv_r q). rewrite <-Hp. simpl.
  symmetry. apply Permutation_middle.
Qed.

(** ** Locks *)

Definition held_below (n : Z) (l : list lockid) : Prop := Forall (fun h => rank h < n) l.

Lemma above_below n l h : rank l = n -> held_below n h -> forallb (fun h => above h l) h = true.
Proof.
  intros <- Hh. apply forallb_forall. intros h' Hin. rewrite <-list_elem_of_In in Hin. unfold held_below in Hh.
  rewrite Forall_forall in Hh. specialize (Hh h' Hin). unfold above. apply orb_true_iff. left. lia.
Qed.

Lemma held_below_weaken m n l : m <= n -> held_below m l -> held_below n l.
Proof. intros Hmn Hl. eapply Forall_impl; [exact Hl|]. simpl. intros. lia. Qed.

Lemma remove_top l h : held_below (rank l) h -> List.remove lockid_eq l (l :: h) = h.
Proof.
  intros Hh. simpl. destruct (lockid_eq l l) as [_|]; [|done]. apply notin_remove. intros Hin.
  rewrite <-list_elem_of_In in Hin. unfold held_below in Hh. rewrite Forall_forall in Hh. specialize (Hh l Hin). lia.
Qed.

Lemma wp_lock_below l Q v x : held_below (rank l) (x_held x) -> Q tt v (set_held (l :: x_held x) x) -> wp (lock l) Q v x.
Proof. intros Hh. apply wp_lock. by eapply above_below. Qed.

Lemma wp_unlock_top l h Q v x : x_held x = l :: h -> held_below (rank l) h -> Q tt v (set_held h x) -> wp (unlock l) Q v x.
Proof. intros Hx Hh H. apply wp_unlock; rewrite Hx; [by left|]. by rewrite remove_top. Qed.

(** ** Calm steps *)

(** What a wake-up leaves alone. *)
Record calm x x' : Prop := {
  calm_keep : x_futex_key x' = x_futex_key x /\ x_futex_seq x' = x_futex_seq x /\ x_this x' = x_this x /\
    x_pool x' = x_pool x /\ x_platform x' = x_platform x /\ x_grants x' = x_grants x /\ x_next_grant x' = x_next_grant x /\
    x_boot_key x' = x_boot_key x /\ x_routes x' = x_routes x /\ x_claims x' = x_claims x /\ x_ioapic x' = x_ioapic x /\ x_iommu x' = x_iommu x /\ x_held x' = x_held x;
  calm_run t T : x_threads x !! t = Some T -> t_status T <> THREAD_BLOCKED -> x_threads x' !! t = Some T;
  calm_dead t T : x_threads x' !! t = Some T -> t_status T = THREAD_DEAD -> x_threads x !! t = Some T;
  calm_current : x_current x' = x_current x;
  calm_ases : x_ases x' = x_ases x }.

Lemma calm_refl x : calm x x.
Proof. by split. Qed.

Lemma calm_trans x y z : calm x y -> calm y z -> calm x z.
Proof.
  intros [H1 H2 H3 H4 H5] [K1 K2 K3 K4 K5]. split.
  - destruct H1 as (-> & -> & -> & -> & -> & -> & -> & -> & -> & -> & -> & -> & ->) in K1. exact K1.
  - intros t T HT Hr. apply K2; [by apply H2|done].
  - intros t T HT Hr. apply H3; [by apply K3|done].
  - by rewrite K4.
  - by rewrite K5.
Qed.

Lemma calm_unlock l x x' : calm (set_held (l :: x_held x) x) x' -> calm x (set_held (x_held x) x').
Proof. intros [H1 H2 H3 H4 H5]. split; simpl in *; [naive_solver|done..]. Qed.

Lemma calm_relock l x x' : calm (set_held l x) x' -> calm x (set_held (x_held x) x').
Proof. intros [H1 H2 H3 H4 H5]. split; simpl in *; [naive_solver|done..]. Qed.

Lemma calm_mem f x x' : calm (set_mem f x) x' -> calm x x'.
Proof. intros [H1 H2 H3 H4 H5]. split; simpl in *; done. Qed.

(** ** Changing one thread *)

(** Nothing the tables say of thread [t] changes. *)
Record agree x (C D : list Z) x' (C' D' : list Z) (t : Z) : Prop := {
  ag_key : x_futex_key x' = x_futex_key x;
  ag_wait i k : waiting (x_futex x') i k t <-> waiting (x_futex x) i k t;
  ag_claim : t ∈ C' ++ D' <-> t ∈ C ++ D;
  ag_linked : t ∈ D' <-> t ∈ D;
  ag_queue : t ∈ mjoin (x_queues x') <-> t ∈ mjoin (x_queues x);
  ag_run i : running (x_current x') t i <-> running (x_current x) t i;
  ag_as i : running (x_current x) t i -> x_ases x' !! i = x_ases x !! i;
  ag_armed i k : armed (x_deadlines x') i k t <-> armed (x_deadlines x) i k t }.

Lemma thread_ok_agree x C D x' C' D' t o : agree x C D x' C' D' t -> thread_ok x C D t o -> thread_ok x' C' D' t o.
Proof.
  intros [A1 A2 A3 A4 A5 A6 A7 A8] [T1 T2 T3 T4 T5 T6 T7]. split; [done| | | | | |].
  - intros i k. rewrite A2, T2, A1. by setoid_rewrite A4.
  - by rewrite A3.
  - by rewrite A5.
  - setoid_rewrite A6. done.
  - intros T i Ho Hr. apply A6 in Hr. rewrite A7 by done. by apply T6.
  - intros i k. by rewrite A8.
Qed.

(** One thread changes and the tables agree on all the others. *)
Lemma sched_step v x C D v' x' C' D' t :
  sched_inv v x C D ->
  (forall u, u <> t -> x_threads x' !! u = x_threads x !! u /\ agree x C D x' C' D' u) ->
  thread_ok x' C' D' t (x_threads x' !! t) ->
  v_threads v' = tview <$> x_threads x' ->
  (forall i k u, waiting (x_futex x') i k u -> 0 <= k.2 < x_futex_seq x') ->
  NoDup (C' ++ D') -> NoDup (mjoin (x_queues x')) ->
  (forall u i j, running (x_current x') u i -> running (x_current x') u j -> i = j) ->
  (forall i p, x_ases x' !! i = Some (Some p) -> is_Some (v_map v' p)) ->
  0 <= x_futex_seq x' < 2 ^ 64 -> length (x_queues x') = length (x_queues x) -> x_this x' = x_this x ->
  sched_inv v' x' C' D'.
Proof.
  intros Hs Ho Ht Hv Hk Hf Hn Ha Has Hseq Hl Hthis. split; [done| |done..| |].
  - intros u. destruct (decide (u = t)) as [->|Hu]; [done|]. destruct (Ho u Hu) as [-> Hag].
    eapply thread_ok_agree; [exact Hag|apply Hs].
  - rewrite Hl. apply Hs.
  - rewrite Hl, Hthis. apply Hs.
Qed.

Section Facts.
Context {v : gview} {x : rest} {C D : list Z} (Hs : sched_inv v x C D).

Lemma sch_tid t T : x_threads x !! t = Some T -> t_tid T = t /\ shape T.
Proof. apply (th_shape _ _ _ _ _ (sch_thread _ _ _ _ Hs t)). Qed.

Lemma sch_waiter i k t : waiting (x_futex x) i k t -> exists T, x_threads x !! t = Some T /\ t_wait_key T = k /\
  home (x_futex_key x) k.1 i /\ (t_wake_state T = FUTEX_PARKED \/ t ∈ D).
Proof. intros Hw. apply (th_wait _ _ _ _ _ (sch_thread _ _ _ _ Hs t)) in Hw as (T & ? & ? & ? & ?). by exists T. Qed.

Lemma sch_claimed t T : t ∈ C ++ D -> x_threads x !! t = Some T -> t_wake_state T = FUTEX_CLAIMED.
Proof. intros Hc HT. apply (th_claim _ _ _ _ _ (sch_thread _ _ _ _ Hs t)) in Hc as (T' & ? & ?). congruence. Qed.

Lemma sch_armed t T : x_threads x !! t = Some T -> t_deadline T <> 0 ->
  armed (x_deadlines x) (Z.to_nat (t_deadline_cpu T)) (t_deadline T, t) t.
Proof. intros HT Hd. apply (th_armed _ _ _ _ _ (sch_thread _ _ _ _ Hs t)). eauto. Qed.

Lemma sch_parked t T i : x_threads x !! t = Some T -> home (x_futex_key x) (t_wait_key T).1 i ->
  t_wake_state T = FUTEX_PARKED \/ t ∈ D -> waiting (x_futex x) i (t_wait_key T) t.
Proof. intros HT Hi Hd. apply (th_wait _ _ _ _ _ (sch_thread _ _ _ _ Hs t)). exists T. by split_and!. Qed.

End Facts.

(** ** Waking one claimed thread *)

Lemma wp_gets_pred {A} (f : kstate -> A) (P : A -> Prop) Q v x :
  (forall s, view s = v -> rest_of s = x -> P (f s)) -> (forall a, P a -> Q a v x) -> wp (gets f) Q v x.
Proof. intros Hf H s <- <-. simpl. apply H. by apply Hf. Qed.

Lemma wp_next_target f Q v x : Q tt v x -> wp (modify (upd_k_next_target f)) Q v x.
Proof. intros H s <- <-. exact H. Qed.

Lemma wp_enqueue t Q v x : x_queues x <> [] -> held_below 5 (x_held x) ->
  (forall i q, x_queues x !! i = Some q -> Q tt v (set_queues (insert i (q ++ [t])) x)) ->
  wp (scheduler_enqueue t) Q v x.
Proof.
  intros Hc Hh H. unfold scheduler_enqueue.
  apply wp_bind. eapply (wp_gets _ (Z.of_nat (length (x_queues x)))); [intros s _ <-; simpl; by rewrite length_fmap|].
  assert (Hpos : 0 < Z.of_nat (length (x_queues x))) by (destruct (x_queues x); [done|simpl; lia]).
  apply wp_bind. eapply (wp_gets_pred _ (fun a => 0 <= a < Z.of_nat (length (x_queues x)))).
  { intros s _ _. by apply Z.mod_pos_bound. }
  intros i Hi. apply wp_bind, wp_next_target. apply wp_bind, wp_lock_below; [done|].
  assert (exists q, x_queues x !! Z.to_nat i = Some q) as [q Hq] by (apply lookup_lt_is_Some; lia).
  apply wp_bind. eapply wp_c_queue; [exact Hq|]. cbn beta.
  apply wp_bind. apply wp_get_cpu. { simpl. rewrite length_insert. by eapply lookup_lt_Some. } intros c _.
  apply wp_bind. eapply wp_unlock_top; [reflexivity|done|]. vsimpl. specialize (H _ _ Hq).
  apply wp_when; intros _; [apply wp_emit|]; destruct x; exact H.
Qed.

Lemma alter_insert {A} (f : A -> A) (l : list A) i c : l !! i = Some c -> alter f i l = <[i := f c]> l.
Proof. revert i. induction l as [|a l IH]; intros [|i] Hi; simplify_eq/=; [done|]. f_equal. by apply IH. Qed.

(** The deadline of [t] is gone from its processor and from the thread. *)
Definition cancelled (t : Z) (T : thread) x : rest :=
  if t_deadline T =? 0 then x
  else set_threads (insert t (upd_t_deadline (fun _ => 0) T))
         (set_deadlines (alter (delete (t_deadline T, t)) (Z.to_nat (t_deadline_cpu T))) x).

Lemma wp_cancel t T Q v x C D : sched_inv v x C D -> x_threads x !! t = Some T -> held_below 5 (x_held x) ->
  Q tt v (cancelled t T x) -> wp (timer_deadline_cancel t) Q v x.
Proof.
  intros Hs HT Hh H. unfold timer_deadline_cancel, cancelled in *. ws.
  destruct (Z.eqb_spec (t_deadline T) 0) as [E|E]; [by ws|].
  destruct (sch_armed Hs t T HT E) as (m & Hm & _).
  apply wp_bind, wp_lock_below; [done|]. apply wp_bind. eapply wp_c_deadlines; [exact Hm|]. cbn beta.
  apply wp_bind. eapply wp_unlock_top; [reflexivity|done|]. eapply wp_mod_thread; [exact HT|done|].
  rewrite (proj1 (sch_tid Hs t T HT)). vsimpl. unfold set_threads, set_deadlines in H. cbn in H.
  rewrite (alter_insert _ _ _ _ Hm) in H. destruct x; exact H.
Qed.

Lemma tview_insert x t T T' : x_threads x !! t = Some T -> tview T' = tview T ->
  tview <$> <[t := T']> (x_threads x) = tview <$> x_threads x.
Proof. intros HT E. rewrite fmap_insert, E. apply insert_id. by rewrite lookup_fmap, HT. Qed.

Lemma lookup_alter_Some {A} (f : A -> A) (l : list A) i j a :
  alter f j l !! i = Some a <-> exists a', l !! i = Some a' /\ a = if decide (i = j) then f a' else a'.
Proof.
  destruct (decide (i = j)) as [->|Hij].
  - rewrite list_lookup_alter_eq. destruct (l !! j) as [b|]; simpl.
    + split; [intros H; exists b; by simplify_eq|]. intros (b' & E & ->). by simplify_eq.
    + split; [done|]. by intros (b' & E & _).
  - rewrite list_lookup_alter_ne by done. split; [by exists a|]. by intros (b' & E & ->).
Qed.

Lemma armed_delete d j k0 i k t :
  armed (alter (delete k0) j d) i k t <-> armed d i k t /\ ~ (i = j /\ k = k0).
Proof.
  unfold armed. simpl. setoid_rewrite lookup_alter_Some. split.
  - intros (m & (m' & Hm & ->) & Hk). case_decide.
    + apply lookup_delete_Some in Hk as [? ?]. split; [eauto|]. naive_solver.
    + split; [eauto|]. naive_solver.
  - intros [(m & Hm & Hk) Hne]. exists (if decide (i = j) then delete k0 m else m). split; [eauto|].
    case_decide; [|done]. rewrite lookup_delete_ne; [done|]. naive_solver.
Qed.

(** A statement on the only thread there is, which does not see the changed fields. *)
Ltac one_thread := split; intros (? & [= <-] & ?); eexists; (split; [reflexivity|]); assumption.

(** A thread loses its deadline. *)
Lemma sched_cancel v x C D t T : sched_inv v x C D -> x_threads x !! t = Some T -> sched_inv v (cancelled t T x) C D.
Proof.
  intros Hs HT. unfold cancelled. destruct (Z.eqb_spec (t_deadline T) 0) as [E|E]; [done|].
  eapply (sched_step v x C D); [exact Hs| | |..]; try first [apply Hs|reflexivity].
  - intros u Hu. vsimpl. rewrite lookup_insert_ne by done. split; [done|]. split; vsimpl; try done.
    intros i k. rewrite armed_delete. split; [tauto|]. intros Ha. split; [done|]. intros [-> ->].
    apply (th_armed _ _ _ _ _ (sch_thread _ _ _ _ Hs u)) in Ha as (U & _ & _ & [= _ <-] & _). done.
  - vsimpl. rewrite lookup_insert_eq. destruct (sch_thread _ _ _ _ Hs t) as [T1 T2 T3 T4 T5 T6 T7]. rewrite HT in *.
    destruct (T1 T eq_refl) as (Htid & Hd & Hc & Hst). split; vsimpl.
    + intros ? [= <-]. split; [done|]. split_and!; [done|done|exact Hst].
    + intros i k. rewrite T2. one_thread.
    + rewrite T3. one_thread.
    + rewrite T4. one_thread.
    + rewrite T5. one_thread.
    + intros ? i [= <-]. exact (T6 T i eq_refl).
    + intros i k. rewrite armed_delete, T7. split; [|by intros (? & [= <-] & [] & _)].
      intros [(? & [= <-] & _ & -> & ->) []]. done.
  - vsimpl. rewrite (tview_insert x t T) by done. apply Hs.
Qed.

(** A claimed thread is given up: it is queued, or left to its reaper. *)
Definition given_up (t : Z) (T' : thread) (q q' : list (list Z)) : Prop :=
  t_on_cpu T' = false /\
  ((t_status T' = THREAD_BLOCKED /\ t_wake_state T' = FUTEX_REAPABLE /\ q' = q) \/
   (t_status T' = THREAD_RUNNABLE /\ t_wake_state T' = FUTEX_IDLE /\ Permutation (mjoin q') (t :: mjoin q))).

Lemma sched_finish v x t C D T T' x' : sched_inv v x (t :: C) D -> x_threads x !! t = Some T -> t_deadline T = 0 ->
  t_tid T' = t_tid T -> tview T' = tview T -> t_deadline T' = 0 -> t_deadline_cpu T' = t_deadline_cpu T ->
  given_up t T' (x_queues x) (x_queues x') -> length (x_queues x') = length (x_queues x) ->
  x_threads x' = <[t := T']> (x_threads x) -> x_futex x' = x_futex x -> x_futex_key x' = x_futex_key x ->
  x_futex_seq x' = x_futex_seq x -> x_current x' = x_current x -> x_ases x' = x_ases x ->
  x_deadlines x' = x_deadlines x -> x_this x' = x_this x ->
  sched_inv v x' C D.
Proof.
  intros Hs HT Hdl Htid Htv Hdl' Hdc (Hoff & Hend) Hlen E1 E2 E3 E4 E5 E6 E7 E8.
  assert (HtC : t ∉ C ++ D) by (pose proof (sch_flight _ _ _ _ Hs) as Hf; by apply NoDup_cons in Hf as [? _]).
  assert (HtQ : t ∉ mjoin (x_queues x)).
  { intros Hq. apply (th_queue _ _ _ _ _ (sch_thread _ _ _ _ Hs t)) in Hq as (U & HU & Hst).
    rewrite HT in HU. injection HU as <-. pose proof (sch_claimed Hs t T ltac:(by left) HT) as Hw.
    destruct (sch_tid Hs t T HT) as (_ & _ & _ & Hsh). rewrite Hst in Hsh. destruct Hsh. congruence. }
  eapply (sched_step v x (t :: C) D _ _ _ _ t); [exact Hs| | |..]; rewrite ?E2, ?E4, ?E5, ?E6; try first [apply Hs|done].
  - intros u Hu. rewrite E1, lookup_insert_ne by done. split; [done|].
    split; rewrite ?E2, ?E3, ?E5, ?E6, ?E7; try done.
    + set_solver.
    + destruct Hend as [(_ & _ & ->)|(_ & _ & ->)]; [done|]. set_solver.
  - rewrite E1, lookup_insert_eq. destruct (sch_thread _ _ _ _ Hs t) as [T1 T2 T3 T4 T5 T6 T7]. rewrite HT in *.
    destruct (T1 T eq_refl) as (Ht & Hd & Hc & Hst). pose proof (sch_claimed Hs t T ltac:(by left) HT) as Hw.
    assert (Hne : t_status T <> THREAD_RUNNING /\ t_status T <> THREAD_RUNNABLE).
    { split; intros Est; rewrite Est in Hst; destruct Hst; congruence. }
    split; rewrite ?E2, ?E3, ?E5, ?E6, ?E7.
    + intros ? [= <-]. split; [congruence|]. split_and!; [congruence|congruence|].
      destruct Hend as [(-> & -> & _)|(-> & -> & _)]; done.
    + intros i k. rewrite T2. split; intros (? & [= <-] & _ & _ & Hor); exfalso; destruct Hor as [Hp|Hp]; try (apply HtC, elem_of_app; by right).
      * congruence.
      * destruct Hend as [(_ & E & _)|(_ & E & _)]; congruence.
    + split; [done|]. intros (? & [= <-] & Hc'). destruct Hend as [(_ & E & _)|(_ & E & _)]; congruence.
    + destruct Hend as [(Es & _ & ->)|(Es & _ & ->)].
      * split; [done|]. intros (? & [= <-] & ?). congruence.
      * split; [|intros _; by left]. eauto.
    + rewrite T5. split; intros (? & [= <-] & ?); exfalso; [by destruct Hne|]. destruct Hend as [(E & _)|(E & _)]; congruence.
    + intros ? i [= <-] Hr. exfalso. destruct (proj1 T5 (ex_intro _ i Hr)) as (? & [= <-] & ?). by destruct Hne.
    + intros i k. rewrite T7. split; intros (? & [= <-] & ? & _); congruence.
  - rewrite E1, (tview_insert x t T) by done. apply Hs.
  - pose proof (sch_flight _ _ _ _ Hs) as Hf. by apply NoDup_cons in Hf as [_ ?].
  - destruct Hend as [(_ & _ & ->)|(_ & _ & ->)]; [apply Hs|]. apply NoDup_cons. split; [done|apply Hs].
Qed.

Lemma sched_ncpu v x C D : sched_inv v x C D -> x_queues x <> [].
Proof. intros Hs E. pose proof (sch_this _ _ _ _ Hs) as H. rewrite E in H. simpl in H. lia. Qed.

Lemma sched_live v x C D t T : sched_inv v x C D -> reg_ok v -> thr_ok v -> x_threads x !! t = Some T -> live v (t_proc T).
Proof.
  intros Hs Hr Ht HT. apply (reg_as v Hr). refine (proj1 (thr_as v Ht t (t_proc T) (t_completion_block T) _)).
  rewrite (sch_view _ _ _ _ Hs). by rewrite lookup_fmap, HT.
Qed.

(** The columns [sched_inv] reads. *)
Definition sched_part x := (x_threads x, x_futex x, x_futex_key x, x_futex_seq x, x_queues x, x_current x, x_ases x, x_deadlines x, x_this x).

Lemma sched_ext v v' x x' C D : sched_part x' = sched_part x -> v_threads v' = v_threads v ->
  (forall p, is_Some (v_map v p) -> is_Some (v_map v' p)) -> sched_inv v x C D -> sched_inv v' x' C D.
Proof.
  intros E Ev Em [H1 H2 H3 H4 H5 H6 H7 H8 H9 H10].
  injection E as E1 E2 E3 E4 E5 E6 E7 E8 E9.
  split; rewrite ?Ev, ?E1, ?E2, ?E4, ?E5, ?E6, ?E7, ?E9; try done; [|by eauto].
  intros t. destruct (H2 t). split; rewrite ?E2, ?E3, ?E5, ?E6, ?E7, ?E8; done.
Qed.

Lemma sched_rest v x x' C D : sched_part x' = sched_part x -> sched_inv v x C D -> sched_inv v x' C D.
Proof. intros E. by apply sched_ext. Qed.

(** What waking a claimed thread does besides the invariant. *)
Definition woken (v : gview) (t result : Z) x x' : Prop :=
  x_futex x' = x_futex x /\ (forall u, u <> t -> x_threads x' !! u = x_threads x !! u) /\
  exists T T', x_threads x !! t = Some T /\ x_threads x' !! t = Some T' /\
    (eff_dead v (t_proc T) -> t_wake_state T' = FUTEX_REAPABLE /\ t_frame T' = t_frame T) /\
    (~ eff_dead v (t_proc T) -> t_status T' = THREAD_RUNNABLE /\ t_frame T' = set_rax result (t_frame T)).

Lemma calm_cancelled t T x : x_threads x !! t = Some T -> t_status T = THREAD_BLOCKED -> calm x (cancelled t T x).
Proof.
  intros HT Hb. unfold cancelled. destruct (t_deadline T =? 0); [apply calm_refl|]. split; simpl; try done.
  - intros u U HU Hn. rewrite lookup_insert_ne; [done|]. congruence.
  - intros u U HU Hn. apply lookup_insert_Some in HU as [[<- <-]|[_ HU]]; [|done]. simpl in Hn. congruence.
Qed.

Lemma calm_insert x x' t T T' : x_threads x !! t = Some T -> t_status T = THREAD_BLOCKED -> t_status T' <> THREAD_DEAD ->
  x_threads x' = <[t := T']> (x_threads x) -> x_current x' = x_current x -> x_ases x' = x_ases x ->
  x_futex_key x' = x_futex_key x /\ x_futex_seq x' = x_futex_seq x /\ x_this x' = x_this x /\
    x_pool x' = x_pool x /\ x_platform x' = x_platform x /\ x_grants x' = x_grants x /\ x_next_grant x' = x_next_grant x /\
    x_boot_key x' = x_boot_key x /\ x_routes x' = x_routes x /\ x_claims x' = x_claims x /\ x_ioapic x' = x_ioapic x /\ x_iommu x' = x_iommu x /\ x_held x' = x_held x ->
  calm x x'.
Proof.
  intros HT Hb Hd E1 E2 E3 E4. split; [done| | |done..].
  - intros u U HU Hn. rewrite E1, lookup_insert_ne; [done|]. congruence.
  - intros u U HU Hn. rewrite E1 in HU. by apply lookup_insert_Some in HU as [[<- <-]|[_ HU]].
Qed.

Lemma claimed_blocked v x C D t T : sched_inv v x C D -> t ∈ C ++ D -> x_threads x !! t = Some T ->
  t_wake_state T = FUTEX_CLAIMED /\ t_status T = THREAD_BLOCKED /\ t_on_cpu T = false.
Proof.
  intros Hs Hc HT. pose proof (sch_claimed Hs t T Hc HT) as Hw. destruct (sch_tid Hs t T HT) as (_ & _ & _ & Hsh).
  destruct (t_status T); destruct Hsh; first [congruence|done].
Qed.

Lemma claimed_thread v x C D t : sched_inv v x C D -> t ∈ C ++ D -> exists T, x_threads x !! t = Some T.
Proof. intros Hs Hc. apply (th_claim _ _ _ _ _ (sch_thread _ _ _ _ Hs t)) in Hc as (T & HT & _). eauto. Qed.

Lemma wp_finish t r C D Q v x : sched_inv v x (t :: C) D -> reg_ok v -> tree_ok v -> thr_ok v -> held_below 5 (x_held x) ->
  (forall x', sched_inv v x' C D -> calm x x' -> woken v t r x x' -> Q tt v x') -> wp (finish_claimed t r) Q v x.
Proof.
  intros Hs Hr Ht Hth Hh H. destruct (claimed_thread v x _ _ t Hs ltac:(by left)) as [T HT].
  destruct (claimed_blocked v x _ _ t T Hs ltac:(by left) HT) as (Hw & Hb & Hoff).
  unfold finish_claimed. apply wp_bind. eapply wp_cancel; [done..|]. pose proof (sched_cancel _ _ _ _ t T Hs HT) as Hs1.
  pose proof (calm_cancelled t T x HT Hb) as Hc1.
  assert (exists T1, x_threads (cancelled t T x) !! t = Some T1 /\ t_deadline T1 = 0 /\ t_proc T1 = t_proc T /\
    t_wake_state T1 = FUTEX_CLAIMED /\ t_status T1 = THREAD_BLOCKED /\ t_on_cpu T1 = false /\ t_frame T1 = t_frame T) as
    (T1 & HT1 & Hd1 & Hp1 & Hw1 & Hb1 & Ho1 & Hf1).
  { unfold cancelled. destruct (Z.eqb_spec (t_deadline T) 0); [by exists T|]. simpl. rewrite lookup_insert_eq. by eexists. }
  assert (Hfx : x_futex (cancelled t T x) = x_futex x) by (unfold cancelled; by case_match).
  assert (Hox : forall u, u <> t -> x_threads (cancelled t T x) !! u = x_threads x !! u).
  { intros u Hu. unfold cancelled. case_match; [done|]. simpl. by rewrite lookup_insert_ne. }
  assert (Hh1 : held_below 5 (x_held (cancelled t T x))) by (unfold cancelled; by case_match).
  revert Hs1 Hc1 HT1 Hfx Hox Hh1. generalize (cancelled t T x) as x1. intros x1 Hs1 Hc1 HT1 Hfx Hox Hh1.
  apply wp_bind. eapply wp_get_thread; [done|]. apply wp_bind, wp_is_dead; [done..| |].
  { by eapply sched_live. }
  intros [] Hdead.
  - eapply wp_mod_thread; [done..|]. apply H.
    + eapply (sched_finish v x1 t C D T1 (upd_t_wake_state (fun _ => FUTEX_REAPABLE) T1)); try done. split; [exact Ho1|]. left. split; [exact Hb1|done].
    + eapply calm_trans; [done|]. eapply calm_insert; [done|done| |reflexivity|..]; try done. simpl. congruence.
    + split; [done|]. split; [intros u Hu; simpl; rewrite lookup_insert_ne by done; by apply Hox|].
      exists T. eexists. split; [done|]. split; [apply lookup_insert_eq|]. split; [done|].
      intros []. rewrite <-Hp1. by apply Hdead.
  - unfold thread_deliver_wait_result, thread_unblock_claimed.
    apply wp_bind. eapply wp_mod_thread; [done..|]. apply wp_bind. eapply wp_get_thread; [apply lookup_insert_eq|].
    cbn [t_on_cpu arch_uthread_set_result upd_t_frame t_status t_wake_state]. rewrite Ho1, Hb1, Hw1.
    do 2 (apply wp_bind, wp_asserts; [done|]).
    apply wp_bind. eapply wp_mod_thread; [apply lookup_insert_eq|done|].
    apply wp_bind. eapply wp_mod_thread; [apply lookup_insert_eq|done|]. vsimpl.
    apply wp_enqueue; [exact (sched_ncpu _ _ _ _ Hs1)|exact Hh1|]. intros i q Hq. apply H.
    + eapply (sched_finish v x1 t C D T1 (upd_t_wake_state (fun _ => FUTEX_IDLE) (upd_t_status (fun _ => THREAD_RUNNABLE) (arch_uthread_set_result r T1)))); try done; vsimpl; [|by rewrite length_insert|by rewrite !insert_insert_eq].
      split; [done|]. right. split; [done|]. split; [done|]. by apply join_push.
    + eapply calm_trans; [done|]. eapply calm_insert; [done|done| |vsimpl; rewrite !insert_insert_eq; reflexivity|..]; done.
    + split; [done|]. split; [intros u Hu; vsimpl; rewrite !lookup_insert_ne by done; by apply Hox|].
      exists T. eexists. split; [done|]. split; [vsimpl; apply lookup_insert_eq|]. cbn. rewrite <-Hf1. split; [|done].
      intros Hd. rewrite <-Hp1 in Hd. by apply Hdead in Hd.
Qed.

(** ** Detaching waiters *)

Definition bucket_delete (i : Z) (k : Z * Z) (f : gmap Z (gmap (Z * Z) Z)) := <[i := delete k (default ∅ (f !! i))]> f.
Definition bucket_insert (i : Z) (k : Z * Z) (t : Z) (f : gmap Z (gmap (Z * Z) Z)) := <[i := <[k := t]> (default ∅ (f !! i))]> f.

Lemma waiting_delete f i k j k' u : waiting (bucket_delete i k f) j k' u <-> waiting f j k' u /\ ~ (j = i /\ k' = k).
Proof.
  unfold waiting, bucket_delete. destruct (decide (j = i)) as [->|Hj].
  - rewrite lookup_insert_eq. simpl. rewrite lookup_delete_Some. naive_solver.
  - rewrite lookup_insert_ne by done. naive_solver.
Qed.

Lemma waiting_insert f i k t j k' u : waiting (bucket_insert i k t f) j k' u <->
  (j = i /\ k' = k /\ u = t) \/ (waiting f j k' u /\ ~ (j = i /\ k' = k)).
Proof.
  unfold waiting, bucket_insert. destruct (decide (j = i)) as [->|Hj].
  - rewrite lookup_insert_eq. simpl. rewrite lookup_insert_Some. naive_solver.
  - rewrite lookup_insert_ne by done. naive_solver.
Qed.

Lemma wp_get_waiters i Q v x : Q (default ∅ (x_futex x !! i)) v x -> wp (gets (fun s => waiters s i)) Q v x.
Proof. intros H s <- <-. exact H. Qed.

Lemma wp_delete_waiter i k Q v x : Q tt v (set_futex (bucket_delete i k) x) -> wp (set_waiters i (delete k)) Q v x.
Proof. intros H s <- <-. exact H. Qed.

Lemma wp_insert_waiter i k t Q v x : Q tt v (set_futex (bucket_insert i k t) x) -> wp (set_waiters i (insert k t)) Q v x.
Proof. intros H s <- <-. exact H. Qed.

Lemma wp_bucket addr Q v x : Q (bucket_index (x_futex_key x) addr) v x -> wp (bucket_of addr) Q v x.
Proof. intros H s <- <-. exact H. Qed.

Lemma wp_futex_remove i k t msg Q v x : waiting (x_futex x) i k t ->
  Q tt v (set_futex (bucket_delete i k) x) -> wp (futex_remove i k t msg) Q v x.
Proof.
  intros Hw H. unfold futex_remove. apply wp_bind, wp_get_waiters, wp_bind, wp_asserts; [by apply bool_decide_eq_true|].
  by apply wp_delete_waiter.
Qed.

(** A claimed thread leaves its bucket: a parked one is claimed on the way. *)
Lemma sched_detach v x C D C' D' t T T' x' bk : sched_inv v x C D -> x_threads x !! t = Some T ->
  t_wake_state T = FUTEX_PARKED \/ t ∈ D ->
  t_tid T' = t_tid T -> tview T' = tview T -> t_deadline T' = t_deadline T -> t_deadline_cpu T' = t_deadline_cpu T ->
  t_status T' = t_status T -> t_on_cpu T' = t_on_cpu T -> t_wake_state T' = FUTEX_CLAIMED ->
  NoDup (C' ++ D') -> (forall u, u ∈ C' ++ D' <-> u ∈ C ++ D \/ u = t) -> (forall u, u ∈ D' <-> u ∈ D /\ u <> t) ->
  x_threads x' = <[t := T']> (x_threads x) ->
  x_futex x' = bucket_delete bk (t_wait_key T) (x_futex x) -> home (x_futex_key x) (t_wait_key T).1 bk ->
  x_futex_key x' = x_futex_key x -> x_futex_seq x' = x_futex_seq x -> x_queues x' = x_queues x ->
  x_current x' = x_current x -> x_ases x' = x_ases x -> x_deadlines x' = x_deadlines x -> x_this x' = x_this x ->
  sched_inv v x' C' D'.
Proof.
  intros Hs HT Hp Htid Htv Hdl Hdc Hst Hoc Hwk Hnd HC HD E1 E2 Hbk E3 E4 E5 E6 E7 E8 E9.
  assert (Hblk : t_status T = THREAD_BLOCKED /\ t_wake_state T <> FUTEX_IDLE).
  { destruct (sch_tid Hs t T HT) as (_ & _ & _ & Hsh). assert (t_wake_state T <> FUTEX_IDLE).
    { destruct Hp as [->|Hp]; [done|]. rewrite (sch_claimed Hs t T (proj2 (elem_of_app _ _ _) (or_intror Hp)) HT). done. }
    destruct (t_status T); destruct Hsh; done. }
  eapply (sched_step v x C D _ _ _ _ t); [exact Hs| | |..]; rewrite ?E4, ?E5, ?E6, ?E7; try first [apply Hs|done].
  - intros u Hu. rewrite E1, lookup_insert_ne by done. split; [done|].
    split; rewrite ?E3, ?E5, ?E6, ?E7, ?E8; try done.
    + intros i k. rewrite E2, waiting_delete. split; [tauto|]. intros Hw. split; [done|]. intros [Ei Ek].
      apply Hu. apply (sch_parked Hs t T _ HT Hbk) in Hp. unfold waiting in *. congruence.
    + rewrite HC. tauto.
    + rewrite HD. tauto.
  - rewrite E1, lookup_insert_eq. destruct (sch_thread _ _ _ _ Hs t) as [T1 T2 T3 T4 T5 T6 T7]. rewrite HT in *.
    destruct (T1 T eq_refl) as (Ht & Hd & Hc & Hsh). destruct Hblk as [Hblk Hidle].
    split; rewrite ?E3, ?E5, ?E6, ?E7, ?E8.
    + intros ? [= <-]. split; [congruence|]. unfold shape. rewrite Hdl, Hdc, Hst, Hwk, Hoc, Hblk in *. destruct Hsh as [? _]. split_and!; [by right|done..].
    + intros i k. rewrite E2, waiting_delete, T2. split.
      * intros [(? & [= <-] & Ek & Ei & _) Hn]. exfalso. apply Hn. split; [|done]. subst k. by destruct Ei, Hbk.
      * intros (? & [= <-] & _ & _ & [Hpk|Hin]); [congruence|]. apply HD in Hin as [_ Hin]. done.
    + rewrite HC. split; [|by right]. eauto.
    + rewrite T4. split; intros (? & [= <-] & ?); congruence.
    + rewrite T5. split; intros (? & [= <-] & ?); congruence.
    + intros ? i [= <-] Hr. exfalso. destruct (proj1 T5 (ex_intro _ i Hr)) as (? & [= <-] & ?). congruence.
    + intros i k. rewrite T7. split; intros (? & [= <-] & Hrest); eexists; (split; [reflexivity|]); [rewrite Hdl, Hdc|rewrite Hdl, Hdc in Hrest]; done.
  - rewrite E1, (tview_insert x t T) by done. apply Hs.
  - intros i k u. rewrite E2, waiting_delete. intros [Hw _]. by eapply Hs.
Qed.

(** What [finish_claimed] does to each thread of a batch. *)
Definition woken_all (v : gview) (l : list Z) (result : Z) x x' : Prop :=
  x_futex x' = x_futex x /\ (forall u, u ∉ l -> x_threads x' !! u = x_threads x !! u) /\
  forall t, t ∈ l -> exists T T', x_threads x !! t = Some T /\ x_threads x' !! t = Some T' /\
    (eff_dead v (t_proc T) -> t_wake_state T' = FUTEX_REAPABLE /\ t_frame T' = t_frame T) /\
    (~ eff_dead v (t_proc T) -> t_status T' = THREAD_RUNNABLE /\ t_frame T' = set_rax result (t_frame T)).

Lemma wp_finish_all l r C D Q v x : sched_inv v x (l ++ C) D -> reg_ok v -> tree_ok v -> thr_ok v -> held_below 5 (x_held x) ->
  (forall x', sched_inv v x' C D -> calm x x' -> woken_all v l r x x' -> Q tt v x') ->
  wp (iterM (fun t => finish_claimed t r) l) Q v x.
Proof.
  intros Hs Hr Ht Hth. revert x Hs. induction l as [|t l IH]; intros x Hs Hh H; simpl.
  { apply wp_skip, H; [done|apply calm_refl|]. split_and!; [done..|]. by intros t ?%not_elem_of_nil. }
  apply wp_bind. eapply wp_finish; [exact Hs|done..|]. intros y Hy Hc (Hf & Ho & T & T' & HT & HT' & Hd & Hl).
  apply IH; [done| |]. { destruct (calm_keep _ _ Hc) as (_ & _ & _ & _ & _ & _ & _ & _ & _ & _ & _ & _ & ->). done. }
  assert (Htl : t ∉ l).
  { pose proof (sch_flight _ _ _ _ Hs) as Hn. simpl in Hn. apply NoDup_cons in Hn as [Hn _]. set_solver. }
  intros z Hz Hcz (Hfz & Hoz & Hwz). apply H; [done|by eapply calm_trans|]. split_and!; [congruence| |].
  - intros u Hu. rewrite Hoz, Ho by set_solver. done.
  - intros u [->|Hu]%elem_of_cons.
    + exists T, T'. rewrite Hoz by done. done.
    + destruct (Hwz u Hu) as (U & U' & HU & HU' & HW). exists U, U'. rewrite <-Ho by set_solver. done.
Qed.

(** [batch] is what [detach_batch_locked] takes from the queue of [addr]: the waiters
    with the lowest tickets, in the order of their tickets, up to [cap]. *)
Record oldest (f f' : gmap Z (gmap (Z * Z) Z)) (bk addr : Z) (cap : nat) (tickets batch : list Z) : Prop := {
  old_order : StronglySorted Z.lt tickets;
  old_batch : Forall2 (fun s t => waiting f bk (addr, s) t) tickets batch;
  old_left j k u : waiting f' j k u <-> waiting f j k u /\ ~ (j = bk /\ k.1 = addr /\ k.2 ∈ tickets);
  old_first s t : waiting f' bk (addr, s) t -> Forall (fun s' => s' < s) tickets;
  old_cap : (length batch <= cap)%nat;
  old_full : (length batch < cap)%nat -> forall s t, ~ waiting f' bk (addr, s) t }.

Lemma sorted_snoc (l : list Z) s : StronglySorted Z.lt l -> Forall (fun s' => s' < s) l -> StronglySorted Z.lt (l ++ [s]).
Proof.
  induction 1 as [|a l Hl IH Ha]; intros H; simpl; [repeat constructor|]. apply Forall_cons in H as [H1 H2].
  constructor; [by apply IH|]. apply Forall_app. split; [done|]. by constructor.
Qed.

Lemma Forall2_snoc {A B} (P : A -> B -> Prop) l k a b : Forall2 P l k -> P a b -> Forall2 P (l ++ [a]) (k ++ [b]).
Proof. intros. by apply Forall2_app; [|constructor]. Qed.

(** The loop between two rounds, started in [x0]. *)
Record detaching v x0 x (bk addr : Z) (cap : nat) (next : Z) (tickets batch : list Z) : Prop := {
  dt_inv : sched_inv v x batch [];
  dt_calm : calm x0 x;
  dt_bk : home (x_futex_key x) addr bk;
  dt_order : StronglySorted Z.lt tickets;
  dt_batch : Forall2 (fun s t => waiting (x_futex x0) bk (addr, s) t) tickets batch;
  dt_left j k u : waiting (x_futex x) j k u <-> waiting (x_futex x0) j k u /\ ~ (j = bk /\ k.1 = addr /\ k.2 ∈ tickets);
  dt_next s t : waiting (x_futex x) bk (addr, s) t -> next <= s;
  dt_below : Forall (fun s => s < next) tickets;
  dt_cap : (length batch <= cap)%nat;
  dt_same u : u ∉ batch -> x_threads x !! u = x_threads x0 !! u;
  dt_taken u : u ∈ batch -> exists T, x_threads x0 !! u = Some T /\ x_threads x !! u = Some (upd_t_wake_state (fun _ => FUTEX_CLAIMED) T) }.

Lemma detaching_done v x0 x bk addr cap next tickets batch : detaching v x0 x bk addr cap next tickets batch ->
  (cap <= length batch)%nat \/ (forall s t, ~ waiting (x_futex x) bk (addr, s) t) ->
  oldest (x_futex x0) (x_futex x) bk addr cap tickets batch.
Proof.
  intros [H1 H2 H3 H4 H5 H6 H7 H8 H9 H10 H11] Hend. split; [done..| |done|].
  - intros s t Hw. eapply Forall_impl; [exact H8|]. simpl. intros s' Hs'. specialize (H7 s t Hw). lia.
  - intros Hlt. destruct Hend; [lia|done].
Qed.

(** The waiter with the lowest ticket is taken. *)
Lemma detaching_take v x0 x bk addr cap next tickets batch s t T : detaching v x0 x bk addr cap next tickets batch ->
  (length batch < cap)%nat -> waiting (x_futex x) bk (addr, s) t -> x_threads x !! t = Some T -> t_wait_key T = (addr, s) ->
  (forall s' t', waiting (x_futex x) bk (addr, s') t' -> s <= s') ->
  detaching v x0 (set_futex (bucket_delete bk (addr, s)) (set_threads (insert t (upd_t_wake_state (fun _ => FUTEX_CLAIMED) T)) x))
    bk addr cap (s + 1) (tickets ++ [s]) (batch ++ [t]).
Proof.
  intros [H1 H2 H3 H4 H5 H6 H7 H8 H9 H10 H11] Hlt Hw HT Hk Hmin.
  destruct (sch_waiter H1 _ _ _ Hw) as (T0 & HT0 & _ & _ & [Hpk|[]%not_elem_of_nil]). rewrite HT in HT0. injection HT0 as <-.
  assert (Htb : t ∉ batch).
  { intros Hin. pose proof (sch_claimed H1 t T ltac:(by rewrite app_nil_r) HT). congruence. }
  assert (Hns : Forall (fun s' => s' < s) tickets).
  { eapply Forall_impl; [exact H8|]. simpl. intros s' ?. specialize (H7 s t Hw). lia. }
  assert (Hblk : t_status T = THREAD_BLOCKED).
  { destruct (sch_tid H1 t T HT) as (_ & _ & _ & Hsh). destruct (t_status T); destruct Hsh; congruence. }
  split; vsimpl.
  - eapply (sched_detach v x batch [] _ _ t T (upd_t_wake_state (fun _ => FUTEX_CLAIMED) T) _ bk); [exact H1|exact HT|by left|..]; try reflexivity; rewrite ?app_nil_r.
    + apply NoDup_app. pose proof (sch_flight _ _ _ _ H1) as Hf. rewrite app_nil_r in Hf.
      split_and!; [done| |apply NoDup_singleton]. intros u Hu ->%list_elem_of_singleton. done.
    + intros u. rewrite elem_of_app, list_elem_of_singleton. done.
    + intros u. rewrite elem_of_nil. tauto.
    + vsimpl. by rewrite Hk.
    + rewrite Hk. exact H3.
  - eapply calm_trans; [exact H2|]. eapply calm_insert; [exact HT|done| |reflexivity|done..]. simpl. congruence.
  - done.
  - by apply sorted_snoc.
  - apply Forall2_snoc; [done|]. by apply H6.
  - intros j k u. rewrite waiting_delete, H6, elem_of_app, list_elem_of_singleton. destruct k as [a s']. simpl. naive_solver.
  - intros s' t' [Hw' Hne]%waiting_delete. pose proof (Hmin s' t' Hw'). assert (s' <> s) by naive_solver. lia.
  - apply Forall_app. split; [|repeat constructor; lia]. eapply Forall_impl; [exact Hns|]. simpl. lia.
  - rewrite length_app. simpl. lia.
  - intros u Hu. rewrite lookup_insert_ne by set_solver. apply H10. set_solver.
  - intros u Hu'. apply elem_of_app in Hu' as [Hu|Hu]; [|apply list_elem_of_singleton in Hu as ->].
    + destruct (H11 u Hu) as (U & HU & HU'). exists U. split; [done|]. rewrite lookup_insert_ne by congruence. done.
    + exists T. rewrite lookup_insert_eq, <-H10 by done. done.
Qed.

Lemma size_pos (m : gmap (Z * Z) Z) k t : m !! k = Some t -> (0 < size m)%nat.
Proof. intros Hk. enough (size m <> 0%nat) by lia. intros E%map_size_empty_inv. by rewrite E, lookup_empty in Hk. Qed.

Lemma default_size (f : gmap Z (gmap (Z * Z) Z)) i k t : waiting f i k t ->
  (size (default ∅ (bucket_delete i k f !! i)) < size (default ∅ (f !! i)))%nat.
Proof.
  unfold waiting, bucket_delete. intros Hw. rewrite lookup_insert_eq. simpl.
  rewrite map_size_delete_Some by eauto. apply size_pos in Hw. lia.
Qed.

Lemma wp_detach_loop v x0 bk addr cap Q fuel : forall x next tickets batch,
  detaching v x0 x bk addr cap next tickets batch -> 0 <= next ->
  (size (default ∅ (x_futex x !! bk)) < fuel)%nat ->
  (forall x' tickets' batch', sched_inv v x' batch' [] -> calm x0 x' -> oldest (x_futex x0) (x_futex x') bk addr cap tickets' batch' ->
     (forall u, u ∉ batch' -> x_threads x' !! u = x_threads x0 !! u) ->
     (forall u, u ∈ batch' -> exists T, x_threads x0 !! u = Some T /\ x_threads x' !! u = Some (upd_t_wake_state (fun _ => FUTEX_CLAIMED) T)) ->
     Q batch' v x') ->
  wp (detach_loop fuel bk addr cap next batch) Q v x.
Proof.
  induction fuel as [|fuel IH]; intros x next tickets batch Hd Hn Hf H; [lia|]. cbn [detach_loop].
  destruct (Nat.leb_spec cap (length batch)) as [Hcap|Hcap].
  { apply wp_ret. destruct (detaching_done _ _ _ _ _ _ _ _ _ Hd ltac:(by left)), Hd. by eapply H. }
  apply wp_bind, wp_get_waiters. pose proof (lower_bound_spec (default ∅ (x_futex x !! bk)) (addr, next)) as Hlb.
  destruct (lower_bound _ _) as [[[a s] t]|].
  - destruct Hlb as (Hw & Hle & Hmin). cbn [fst snd]. destruct (Z.eqb_spec a addr) as [->|Hne]; simpl.
    + destruct (sch_waiter (dt_inv _ _ _ _ _ _ _ _ _ Hd) bk (addr, s) t Hw) as (T & HT & Hk & _ & [Hpk|[]%not_elem_of_nil]).
      apply wp_bind. eapply wp_get_thread; [exact HT|]. rewrite Hpk, bool_decide_true by done.
      apply wp_bind. eapply wp_mod_thread; [exact HT|done|]. apply wp_bind, wp_futex_remove; [exact Hw|].
      assert (Hs : 0 <= s < 2 ^ 64).
      { destruct (sch_ticket _ _ _ _ (dt_inv _ _ _ _ _ _ _ _ _ Hd) bk (addr, s) t Hw). simpl in *.
        destruct (sch_seq _ _ _ _ (dt_inv _ _ _ _ _ _ _ _ _ Hd)). lia. }
      assert (u64 (s + 1) = s + 1) as ->.
      { destruct (sch_ticket _ _ _ _ (dt_inv _ _ _ _ _ _ _ _ _ Hd) bk (addr, s) t Hw). simpl in *.
        destruct (sch_seq _ _ _ _ (dt_inv _ _ _ _ _ _ _ _ _ Hd)). apply u64_small. lia. }
      eapply IH; [eapply detaching_take; try done|lia| |done].
      * intros s' t' Hw'. assert (Hp : ple (addr, s) (addr, s')).
        { apply (Hmin _ t' Hw'). right. split; [done|]. by apply (dt_next _ _ _ _ _ _ _ _ _ Hd s' t'). }
        destruct Hp as [Hp|[_ Hp]]; simpl in *; lia.
      * vsimpl. pose proof (default_size _ _ _ _ Hw). lia.
    + apply wp_ret. destruct (detaching_done _ _ _ _ _ _ _ _ _ Hd); [right|destruct Hd; by eapply H].
      intros s' t' Hw'. assert (Hp : ple (a, s) (addr, s')).
      { apply (Hmin _ t' Hw'). right. split; [done|]. by apply (dt_next _ _ _ _ _ _ _ _ _ Hd s' t'). }
      destruct Hp as [Hp|[Hp _]], Hle as [Hle|[Hle _]]; simpl in *; lia.
  - apply wp_ret. destruct (detaching_done _ _ _ _ _ _ _ _ _ Hd); [right|destruct Hd; by eapply H].
    intros s' t' Hw'. apply (Hlb _ t' Hw'). right. split; [done|]. by apply (dt_next _ _ _ _ _ _ _ _ _ Hd s' t').
Qed.

Lemma wp_cpu {A} (m : M A) C D Q v x : sched_inv v x C D -> (cpu_ok v x -> wp m Q v x) -> wp m Q v x.
Proof.
  intros Hs H. apply wp_columns. intros (_ & Hl & _). apply H.
  destruct (lookup_lt_is_Some_2 (x_ases x) (x_this x)) as [a Ha]; [rewrite Hl; apply Hs|].
  exists a. split; [done|]. intros p ->. by eapply Hs.
Qed.

(** The threads [batch] have been taken from the queue of [addr] and woken. *)
Record woke v (addr : Z) (cap : nat) x x' (batch : list Z) : Prop := {
  wk_oldest : exists bk tickets, home (x_futex_key x) addr bk /\ oldest (x_futex x) (x_futex x') bk addr cap tickets batch;
  wk_same u : u ∉ batch -> x_threads x' !! u = x_threads x !! u;
  wk_each t : t ∈ batch -> exists T T', x_threads x !! t = Some T /\ x_threads x' !! t = Some T' /\
    (eff_dead v (t_proc T) -> t_wake_state T' = FUTEX_REAPABLE /\ t_frame T' = t_frame T) /\
    (~ eff_dead v (t_proc T) -> t_status T' = THREAD_RUNNABLE /\ t_frame T' = set_rax 0 (t_frame T)) }.

Lemma woke_made v addr cap x y z bk tickets batch : home (x_futex_key x) addr bk ->
  oldest (x_futex x) (x_futex y) bk addr cap tickets batch ->
  (forall u, u ∉ batch -> x_threads y !! u = x_threads x !! u) ->
  (forall u, u ∈ batch -> exists T, x_threads x !! u = Some T /\ x_threads y !! u = Some (upd_t_wake_state (fun _ => FUTEX_CLAIMED) T)) ->
  woken_all v batch 0 y z -> woke v addr cap x z batch.
Proof.
  intros Hh Ho Hs Ht (Hf & Hs' & Hw). split.
  - exists bk, tickets. by rewrite Hf.
  - intros u Hu. by rewrite Hs', Hs.
  - intros t Hin. destruct (Hw t Hin) as (T & T' & HT & HT' & Hdead & Hlive). destruct (Ht t Hin) as (U & HU & HU').
    rewrite HT in HU'. injection HU' as ->. exists U, T'. done.
Qed.

Lemma wp_detach_batch bk addr cap Q v x : sched_inv v x [] [] -> home (x_futex_key x) addr bk ->
  (forall x' tickets batch, sched_inv v x' batch [] -> calm x x' -> oldest (x_futex x) (x_futex x') bk addr cap tickets batch ->
     (forall u, u ∉ batch -> x_threads x' !! u = x_threads x !! u) ->
     (forall u, u ∈ batch -> exists T, x_threads x !! u = Some T /\ x_threads x' !! u = Some (upd_t_wake_state (fun _ => FUTEX_CLAIMED) T)) ->
     Q batch v x') ->
  wp (detach_batch_locked bk addr cap) Q v x.
Proof.
  intros Hs Hh H. unfold detach_batch_locked. apply wp_bind.
  eapply (wp_gets _ (size (default ∅ (x_futex x !! bk)))); [by intros s _ <-|].
  eapply (wp_detach_loop v x bk addr cap Q _ x 0 []); [|lia|lia|done].
  split; try done; try (by constructor).
  - intros j k u. rewrite elem_of_nil. tauto.
  - intros s t Hw. by destruct (sch_ticket _ _ _ _ Hs bk (addr, s) t Hw).
  - simpl. lia.
  - by intros u ?%not_elem_of_nil.
Qed.

Lemma calm_held x x' : calm x x' -> x_held x' = x_held x.
Proof. intros Hc. by destruct (calm_keep _ _ Hc) as (_ & _ & _ & _ & _ & _ & _ & _ & _ & _ & _ & _ & ?). Qed.

Lemma calm_key x x' : calm x x' -> x_futex_key x' = x_futex_key x.
Proof. intros Hc. by destruct (calm_keep _ _ Hc). Qed.

Lemma woke_part v addr cap x x' y y' batch : woke v addr cap x y batch -> x_futex_key x' = x_futex_key x ->
  x_futex x' = x_futex x -> x_threads x' = x_threads x -> x_futex y' = x_futex y -> x_threads y' = x_threads y ->
  woke v addr cap x' y' batch.
Proof. intros [H1 H2 H3] E1 E2 E3 E4 E5. split; rewrite ?E1, ?E2, ?E3, ?E4, ?E5; done. Qed.

(** The common end of [wake_batch] and [futex_publish_wake], under the bucket lock. *)
Lemma wp_wake_locked bk addr cap Q v x h : sched_inv v x [] [] -> home (x_futex_key x) addr bk ->
  reg_ok v -> tree_ok v -> thr_ok v -> x_held x = LBucket bk :: h -> held_below 4 h ->
  (forall x' batch, sched_inv v x' [] [] -> calm (set_held h x) x' -> woke v addr cap x x' batch -> Q batch v x') ->
  wp (detach_batch_locked bk addr cap) (fun batch => wp (unlock (LBucket bk)) (fun _ =>
    wp (iterM (fun t => finish_claimed t 0) batch) (fun _ => Q batch))) v x.
Proof.
  intros Hs Hh Hr Ht Hth Hx Hb H. apply wp_detach_batch; [done..|]. intros y tickets batch Hy Hcy Ho Hsame Htaken.
  eapply wp_unlock_top; [by rewrite (calm_held _ _ Hcy)|done|].
  apply (wp_finish_all _ _ [] []); [..|exact Hr|exact Ht|exact Hth| |].
  - rewrite app_nil_r. eapply sched_rest; [|exact Hy]. done.
  - by eapply held_below_weaken; [|exact Hb].
  - intros z Hz Hcz Hw. apply H; [done| |].
    + eapply calm_trans; [|exact Hcz]. destruct Hcy as [K1 K2 K3 K4 K5]. split; simpl; [naive_solver|done..].
    + eapply woke_made; [exact Hh|exact Ho|done..].
Qed.

Lemma wp_wake_batch addr count Q v x : sched_inv v x [] [] -> reg_ok v -> tree_ok v -> thr_ok v -> held_below 4 (x_held x) ->
  (forall x' batch, sched_inv v x' [] [] -> calm x x' -> woke v addr (Z.to_nat (Z.min count FUTEX_WAKE_BATCH)) x x' batch ->
     Q (Z.of_nat (length batch)) v x') -> wp (wake_batch addr count) Q v x.
Proof.
  intros Hs Hr Ht Hth Hh H. unfold wake_batch. apply wp_bind, wp_bucket, wp_bind, wp_lock_below; [done|]. apply wp_bind.
  eapply wp_mono; [eapply (wp_wake_locked _ _ _ (fun batch => Q (Z.of_nat (length batch)))); [|constructor|done..|]; [by eapply sched_rest; [|exact Hs]|]|].
  - intros y batch Hy Hc Hw. refine (H y batch Hy _ _); [by destruct x|by eapply woke_part].
  - simpl. intros batch w y Hb. apply wp_bind. eapply wp_mono; [exact Hb|]. simpl. intros _ w' y' Hb'.
    apply wp_bind. eapply wp_mono; [exact Hb'|]. simpl. intros _ w'' y''. apply wp_ret.
Qed.

Lemma wp_wake_one addr Q v x : sched_inv v x [] [] -> reg_ok v -> tree_ok v -> thr_ok v -> held_below 4 (x_held x) ->
  (forall x', sched_inv v x' [] [] -> calm x x' -> Q tt v x') -> wp (futex_wake_one addr) Q v x.
Proof. intros Hs Hr Ht Hth Hh H. apply wp_bind, wp_wake_batch; [done..|]. intros y batch Hy Hc _. apply wp_skip. auto. Qed.

Lemma wp_publish_wake addr value Q v x : sched_inv v x [] [] -> reg_ok v -> tree_ok v -> thr_ok v -> held_below 4 (x_held x) ->
  (forall x', sched_inv v x' [] [] -> calm x x' -> Q tt v x') -> wp (futex_publish_wake addr value) Q v x.
Proof.
  intros Hs Hr Ht Hth Hh H. eapply wp_cpu; [exact Hs|]. intros Hcpu. unfold futex_publish_wake.
  apply wp_bind, wp_bucket, wp_bind, wp_lock_below; [done|]. apply wp_bind, wp_store_bytes; [done|]. apply wp_bind.
  eapply wp_mono; [eapply (wp_wake_locked _ _ _ (fun _ => Q tt)); [|constructor|done..|]; [by eapply sched_rest; [|exact Hs]|]|].
  - intros y batch Hy Hc Hw. apply H; [done|]. destruct Hc as [K1 K2 K3 K4 K5]. by split.
  - simpl. intros batch w y Hb. apply wp_bind. eapply wp_mono; [exact Hb|]. simpl. intros _ w' y' Hb'.
    eapply wp_mono; [exact Hb'|]. by intros [].
Qed.

(** ** Expiry and reaping *)

Lemma wp_futex_detach (k : Z * Z) t msg {A} (m : M A) D Q v x : sched_inv v x [] (t :: D) ->
  (forall T, x_threads x !! t = Some T -> t_wait_key T = k) -> held_below 4 (x_held x) ->
  (forall x', sched_inv v x' [t] D -> calm x x' -> wp m Q v x') ->
  wp (bk ← bucket_of k.1; _ ← lock (LBucket bk); _ ← futex_remove bk k t msg; _ ← unlock (LBucket bk); m) Q v x.
Proof.
  intros Hs Hk Hh H. destruct (claimed_thread v x _ _ t Hs ltac:(by left)) as [T HT]. specialize (Hk T HT). subst k.
  destruct (claimed_blocked v x _ _ t T Hs ltac:(by left) HT) as (Hw & Hb & Hoff).
  apply wp_bind, wp_bucket, wp_bind, wp_lock_below; [done|].
  apply wp_bind, wp_futex_remove; [eapply (sch_parked Hs t T); [done|constructor|right; by left]|].
  apply wp_bind. eapply wp_unlock_top; [done..|]. pose proof (sch_flight _ _ _ _ Hs) as Hf. simpl in Hf.
  assert (Hid : <[t := T]> (x_threads x) = x_threads x) by (by apply insert_id).
  apply H.
  - eapply (sched_detach v x [] (t :: D) _ _ t T T _ (bucket_index (x_futex_key x) (t_wait_key T).1)); try done.
    + right. by left.
    + intros u. simpl. rewrite elem_of_cons. set_solver.
    + intros u. rewrite elem_of_cons. apply NoDup_cons in Hf as [Hf _]. split; [intros Hu; split; [by right|congruence]|].
      intros [[->|?] ?]; done.
  - eapply (calm_insert _ _ t T T); [done|done|congruence|done..|]. by destruct x.
Qed.

Lemma wp_expire t D Q v x : sched_inv v x [] (t :: D) -> reg_ok v -> tree_ok v -> thr_ok v -> held_below 4 (x_held x) ->
  (forall x', sched_inv v x' [] D -> calm x x' -> Q tt v x') -> wp (futex_expire_claimed t) Q v x.
Proof.
  intros Hs Hr Ht Hth Hh H. destruct (claimed_thread v x _ _ t Hs ltac:(by left)) as [T HT].
  unfold futex_expire_claimed. apply wp_bind. eapply wp_get_thread; [exact HT|].
  eapply wp_futex_detach; [exact Hs|congruence|done|]. intros y Hy Hc.
  eapply wp_finish; [exact Hy|done..| |]. { rewrite (calm_held _ _ Hc). by eapply held_below_weaken; [|exact Hh]. }
  intros z Hz Hcz _. apply H; [done|]. by eapply calm_trans.
Qed.

Lemma wp_expire_all l Q v x : sched_inv v x [] l -> reg_ok v -> tree_ok v -> thr_ok v -> held_below 4 (x_held x) ->
  (forall x', sched_inv v x' [] [] -> calm x x' -> Q tt v x') -> wp (iterM futex_expire_claimed l) Q v x.
Proof.
  intros Hs Hr Ht Hth. revert x Hs. induction l as [|t l IH]; intros x Hs Hh H; simpl.
  { apply wp_skip, H; [done|apply calm_refl]. }
  apply wp_bind. eapply wp_expire; [exact Hs|done..|]. intros y Hy Hc. apply IH; [done|by rewrite (calm_held _ _ Hc)|].
  intros z Hz Hcz. apply H; [done|by eapply calm_trans].
Qed.

(** ** The timer interrupt *)

Lemma sched_claim v x C D t T : sched_inv v x C D -> x_threads x !! t = Some T -> t_wake_state T = FUTEX_PARKED ->
  sched_inv v (set_threads (insert t (upd_t_wake_state (fun _ => FUTEX_CLAIMED) T)) x) C (D ++ [t]).
Proof.
  intros Hs HT Hp. set (T' := upd_t_wake_state (fun _ => FUTEX_CLAIMED) T).
  assert (Hblk : t_status T = THREAD_BLOCKED /\ t_on_cpu T = false).
  { destruct (sch_tid Hs t T HT) as (_ & _ & _ & Hsh). destruct (t_status T); destruct Hsh; first [congruence|done]. }
  assert (Htn : t ∉ C ++ D). { intros Hin. pose proof (sch_claimed Hs t T Hin HT). congruence. }
  eapply (sched_step v x C D _ _ _ _ t); [exact Hs| | |..]; vsimpl; try first [apply Hs|reflexivity].
  - intros u Hu. rewrite lookup_insert_ne by done. split; [done|]. split; vsimpl; try done.
    + rewrite !elem_of_app, list_elem_of_singleton. tauto.
    + rewrite elem_of_app, list_elem_of_singleton. tauto.
  - rewrite lookup_insert_eq. destruct (sch_thread _ _ _ _ Hs t) as [T1 T2 T3 T4 T5 T6 T7]. rewrite HT in *.
    destruct (T1 T eq_refl) as (Htid & Hd & Hc & Hsh). destruct Hblk as [Hb Ho]. split; vsimpl.
    + intros ? [= <-]. split; [done|]. unfold shape, T'. cbn. rewrite Hb, Ho. split_and!; [by right|done..].
    + intros i k. rewrite T2. split; intros (? & [= <-] & Hk & Hi & _); eexists; (split; [reflexivity|]); split_and!; try done.
      * right. apply elem_of_app. right. by left.
      * by left.
    + split; [|intros _; rewrite !elem_of_app; right; right; by left]. intros _. by exists T'.
    + rewrite T4. one_thread.
    + rewrite T5. one_thread.
    + intros ? i [= <-]. exact (T6 T i eq_refl).
    + intros i k. rewrite T7. one_thread.
  - rewrite (tview_insert x t T) by done. apply Hs.
  - rewrite app_assoc. apply NoDup_app. split_and!; [apply Hs| |apply NoDup_singleton].
    intros u Hu ->%list_elem_of_singleton. done.
Qed.

Lemma wp_try_claim t T Q v x : x_threads x !! t = Some T -> t_wake_state T = FUTEX_PARKED ->
  Q true v (set_threads (insert t (upd_t_wake_state (fun _ => FUTEX_CLAIMED) T)) x) -> wp (futex_try_claim t) Q v x.
Proof.
  intros HT Hp H. unfold futex_try_claim. apply wp_bind. eapply wp_get_thread; [exact HT|]. rewrite Hp.
  apply wp_bind. eapply wp_mod_thread; [exact HT|done|]. by apply wp_ret.
Qed.

Lemma wp_program cpu now Q v x : (Z.to_nat cpu < length (x_queues x))%nat -> Q tt v x -> wp (program_local_locked cpu now) Q v x.
Proof.
  intros Hc H. unfold program_local_locked. apply wp_bind, wp_get_cpu; [done|]. intros c _.
  destruct (_ =? 0); by apply wp_emit.
Qed.

Lemma wp_now Q v x : (forall n, Q n v x) -> wp timer_now_ns Q v x.
Proof. apply wp_gets_any. Qed.

(** Every expired thread has lost its deadline. *)
Definition disarmed x (l : list Z) : Prop := forall t T, t ∈ l -> x_threads x !! t = Some T -> t_deadline T = 0.

Lemma wp_expire_loop cpu now Q v fuel : forall x seek expired,
  sched_inv v x [] expired -> disarmed x expired -> cpu = Z.of_nat (x_this x) ->
  (forall m, x_deadlines x !! Z.to_nat cpu = Some m -> (size m < fuel)%nat) ->
  (forall x' expired', sched_inv v x' [] expired' -> calm x x' -> Q expired' v x') ->
  wp (expire_loop fuel cpu now seek expired) Q v x.
Proof.
  induction fuel as [|fuel IH]; intros x seek expired Hs Hdis Hcpu Hf H; cbn [expire_loop].
  { destruct (_ <=? _); [apply wp_ret, H; [done|apply calm_refl]|]. apply wp_columns. intros (_ & _ & Hl).
    destruct (lookup_lt_is_Some_2 (x_deadlines x) (Z.to_nat cpu)) as [m Hm].
    { rewrite Hl, Hcpu, Nat2Z.id. apply Hs. } specialize (Hf m Hm). lia. }
  destruct (_ <=? _); [apply wp_ret, H; [done|apply calm_refl]|].
  assert (Hlt : (Z.to_nat cpu < length (x_queues x))%nat) by (rewrite Hcpu, Nat2Z.id; apply Hs).
  apply wp_bind, wp_get_cpu; [done|]. intros c [_ _ _ Hc]. pose proof (lower_bound_spec (c_deadlines c) seek) as Hlb.
  destruct (lower_bound _ _) as [[k t]|]; [|apply wp_ret, H; [done|apply calm_refl]]. destruct Hlb as (Hk & _ & _).
  destruct (now <? k.1); [apply wp_ret, H; [done|apply calm_refl]|].
  destruct (proj1 (th_armed _ _ _ _ _ (sch_thread _ _ _ _ Hs t) (Z.to_nat cpu) k)) as (T & HT & Hd & -> & Hi); [by exists (c_deadlines c)|].
  destruct (sch_tid Hs t T HT) as (_ & Hsh & Hdc & _).
  assert (Hp : t_wake_state T = FUTEX_PARKED).
  { destruct (Hsh Hd) as [?|Hw]; [done|]. exfalso. apply Hd, (Hdis t T); [|done].
    apply (th_claim _ _ _ _ _ (sch_thread _ _ _ _ Hs t)). eauto. }
  apply wp_bind. eapply wp_try_claim; [exact HT|exact Hp|]. cbv iota.
  apply wp_bind, wp_get_cpu; [done|]. intros c' [_ _ _ Hc']. simpl in Hc'. rewrite Hc in Hc'. injection Hc' as Hc'.
  apply wp_bind, wp_asserts; [by rewrite <-Hc', bool_decide_true|].
  apply wp_bind. eapply wp_c_deadlines; [exact Hc|]. apply wp_bind. eapply wp_mod_thread; [apply lookup_insert_eq|done|].
  pose proof (sched_claim v x [] expired t T Hs HT Hp) as Hs1.
  pose proof (sched_cancel v _ _ _ t _ Hs1 (lookup_insert_eq _ _ _)) as Hs2.
  unfold cancelled in Hs2. cbn [t_deadline t_deadline_cpu upd_t_wake_state] in Hs2.
  rewrite (proj2 (Z.eqb_neq _ _) Hd), <-Hi in Hs2.
  assert (Ha : alter (delete (t_deadline T, t)) (Z.to_nat cpu) (x_deadlines x) =
    <[Z.to_nat cpu := delete (t_deadline T, t) (c_deadlines c)]> (x_deadlines x)) by (by apply alter_insert).
  unfold set_deadlines in Hs2 at 1. vsimpl. cbn [x_deadlines set_threads] in Hs2. rewrite Ha in Hs2.
  apply IH.
  - exact Hs2.
  - intros u U Hu HU. vsimpl. simpl in HU. apply lookup_insert_Some in HU as [[<- <-]|[Hne HU]]; [done|].
    rewrite lookup_insert_ne in HU by done. apply (Hdis u U); [|done]. apply elem_of_app in Hu as [Hu|Hu]; [done|].
    by apply list_elem_of_singleton in Hu.
  - done.
  - simpl. intros m Hm. rewrite list_lookup_insert_eq in Hm by (by eapply lookup_lt_Some). injection Hm as <-.
    specialize (Hf _ Hc). rewrite map_size_delete_Some by eauto. apply size_pos in Hk. lia.
  - intros y expired' Hy Hcy. apply H; [done|]. eapply calm_trans; [|exact Hcy].
    assert (Hb : t_status T = THREAD_BLOCKED).
    { destruct (sch_tid Hs t T HT) as (_ & _ & _ & Hsh'). destruct (t_status T); destruct Hsh'; congruence. }
    eapply calm_insert; [exact HT|exact Hb| |simpl; rewrite insert_insert_eq; reflexivity|done..]. simpl. congruence.
Qed.

Lemma wp_timer_interrupt Q v x : sched_inv v x [] [] -> reg_ok v -> tree_ok v -> thr_ok v -> held_below 4 (x_held x) ->
  (forall b x', sched_inv v x' [] [] -> calm x x' -> Q b v x') -> wp timer_cpu_interrupt Q v x.
Proof.
  intros Hs Hr Ht Hth Hh H. unfold timer_cpu_interrupt.
  assert (Hlt : (Z.to_nat (Z.of_nat (x_this x)) < length (x_queues x))%nat) by (rewrite Nat2Z.id; apply Hs).
  apply wp_bind, wp_this_cpu, wp_bind, wp_lock_below; [by eapply held_below_weaken; [|exact Hh]|].
  apply wp_bind, wp_now. intros now. apply wp_bind, wp_get_cpu; [done|]. intros c [_ _ _ Hc].
  apply wp_bind, wp_expire_loop; [by eapply sched_rest; [|exact Hs]| |done| |].
  { by intros t T ?%not_elem_of_nil. }
  { intros m Hm. simpl in *. rewrite Hc in Hm. injection Hm as <-. lia. }
  intros y expired Hy Hcy. assert (Hly : (Z.to_nat (Z.of_nat (x_this x)) < length (x_queues y))%nat).
  { destruct (calm_keep _ _ Hcy) as (_ & _ & E & _). simpl in E. rewrite <-E, Nat2Z.id. apply Hy. }
  apply wp_bind, wp_get_cpu; [done|]. intros c' _. apply wp_bind.
  assert (Hend : wp (_ ← program_local_locked (Z.of_nat (x_this x)) now; _ ← unlock (LTimer (Z.of_nat (x_this x)));
    _ ← iterM futex_expire_claimed expired;
    mret (negb (c_quantum_deadline_ns c' =? 0) && (c_quantum_deadline_ns c' <=? now))) Q v y).
  { apply wp_bind, wp_program; [done|]. apply wp_bind.
    eapply wp_unlock_top; [by rewrite (calm_held _ _ Hcy)|by eapply held_below_weaken; [|exact Hh]|].
    apply wp_bind, wp_expire_all; [by eapply sched_rest; [|exact Hy]|done..|]. intros z Hz Hcz.
    apply wp_ret, H; [done|]. eapply calm_trans; [|exact Hcz]. destruct Hcy as [K1 K2 K3 K4 K5].
    split; simpl in *; [naive_solver|done..]. }
  apply wp_when; intros _; [|exact Hend]. by apply wp_c_quantum_deadline_ns.
Qed.

End Sched.
