(* ===== verification/ChannelSpec.v ===== *)
(** * Specifications of channels

    Posting completions, delivering share and death notices and replaying them, under
    the invariant.  A post changes no column of the ownership graph. *)

From Stdlib Require Import FunctionalExtensionality.
From S2P Require Import Prelude Buddy Paging Siphash PlatformMem Machine Sched Index Channel Umem Process Graph Wp Invariant BaseSpec SchedSpec.

Section Posts.
Context {PT : PageTree} {SC : Schemes}.
Implicit Types (v : gview) (x : rest).

(** The part of the graph that waking a thread reads. *)
Record wake_ok v : Prop := { wake_reg : reg_ok v; wake_tree : tree_ok v; wake_thr : thr_ok v }.

Lemma inv_wake v : graph_inv v -> wake_ok v.
Proof. intros []. by split. Qed.

(** The ring [r] and its block exist. *)
Definition ring_live v (r : Z) : Prop :=
  exists b ops i o, v_rblock v r = Some b /\ v_rops v r = Some ops /\ v_info v b = Some i /\ v_owner v b = Some o.

Lemma inv_ring_live v r b : graph_inv v -> v_rblock v r = Some b -> ring_live v r.
Proof.
  intros Hg Hb. destruct (ring_scheme v (inv_ring v Hg) r b Hb) as (id & ops & Hops & _).
  destruct (ring_private v (inv_ring v Hg) b r) as (_ & _ & _ & i & Hi & _); [by apply (ring_block v (inv_ring v Hg))|].
  destruct (proj2 (own_info v (inv_own v Hg) b)) as [o Ho]; [eauto|]. by exists b, id, i, o.
Qed.

Lemma calm_set_mem x f : calm x (set_mem f x).
Proof. by split. Qed.

Lemma wp_ring_post r type a b status Q v x : wake_ok v -> sched_inv v x [] [] -> ring_live v r -> held_below 4 (x_held x) ->
  (forall ok x', sched_inv v x' [] [] -> calm x x' -> Q ok v x') -> wp (ring_post_locked r type a b status) Q v x.
Proof.
  intros [Hr Ht Hth] Hs (bk & ops & i & o & H1 & H2 & H3 & H4) Hh H. eapply wp_cpu; [exact Hs|]. intros Hcpu.
  unfold ring_post_locked. ws. ws. vsimpl. apply wp_bind, wp_load32; [done|].
  destruct (_ <=? _); [apply wp_ret, H; [done|apply calm_refl]|]. vsimpl.
  apply wp_bind, wp_store_bytes; [done|]. ws. apply wp_bind, wp_store_bytes; [done|].
  apply wp_bind, wp_wake_one; try done.
  { by eapply sched_rest; [|exact Hs]. }
  intros y Hy Hc. apply wp_ret, H; [done|]. eapply calm_trans; [|exact Hc]. by split.
Qed.

Lemma wp_post r type a b status Q v x : wake_ok v -> sched_inv v x [] [] -> ring_live v r -> held_below 3 (x_held x) ->
  (forall ok x', sched_inv v x' [] [] -> calm x x' -> Q ok v x') -> wp (channel_post r type a b status) Q v x.
Proof.
  intros Hw Hs Hl Hh H. unfold channel_post. apply wp_bind, wp_lock_below; [done|]. apply wp_bind, wp_ring_post; try done.
  { by eapply sched_rest; [|exact Hs]. }
  { constructor; [simpl; lia|]. by eapply held_below_weaken; [|exact Hh]. }
  intros ok y Hy Hc. apply wp_bind. eapply wp_unlock_top; [by rewrite (calm_held _ _ Hc)|done|]. apply wp_ret, H.
  { by eapply sched_rest; [|exact Hy]. } by apply calm_unlock in Hc.
Qed.

Lemma wp_post_data r type a b status Q v x : wake_ok v -> sched_inv v x [] [] -> ring_live v r -> held_below 3 (x_held x) ->
  (forall o x', sched_inv v x' [] [] -> calm x x' -> Q o v x') -> wp (channel_post_data r type a b status) Q v x.
Proof.
  intros Hw Hs Hl Hh H. unfold channel_post_data. apply wp_bind, wp_lock_below; [done|]. apply wp_bind, wp_ring_post; try done.
  { by eapply sched_rest; [|exact Hs]. }
  { constructor; [simpl; lia|]. by eapply held_below_weaken; [|exact Hh]. }
  intros ok y Hy Hc. destruct Hl as (bk & ops & i & o & H1 & H2 & _). ws. apply wp_bind.
  eapply wp_unlock_top; [by rewrite (calm_held _ _ Hc)|done|]. apply wp_ret, H.
  { by eapply sched_rest; [|exact Hy]. } by apply calm_unlock in Hc.
Qed.

Lemma wp_consumed r i Q v x : sched_inv v x [] [] -> ring_live v r -> (forall b, Q b v x) -> wp (cqe_consumed r i) Q v x.
Proof.
  intros Hs (bk & ops & j & o & H1 & H2 & H3 & H4) H. eapply wp_cpu; [exact Hs|]. intros Hcpu. unfold cqe_consumed.
  ws. ws. apply wp_bind, wp_load32; [done|]. by apply wp_ret.
Qed.

(** ** Notices *)

(** Only links, notification marks and death notices differ. *)
Definition notice v v' : Prop := exists pv nx nt hd tl dn,
  v' = upd_v_notified (fun _ => dn) (upd_v_enot (fun _ => nt) (relink v pv nx hd tl)).

Lemma notice_refl v : notice v v.
Proof. exists (v_eprev v), (v_enext v), (v_enot v), (v_head v), (v_tail v), (v_notified v). by destruct v. Qed.

Lemma notice_trans v w u : notice v w -> notice w u -> notice v u.
Proof. intros (? & ? & ? & ? & ? & ? & ->) (pv & nx & nt & hd & tl & dn & ->). by exists pv, nx, nt, hd, tl, dn. Qed.

Lemma graph_notice v v' : graph_inv v -> notice v v' -> pend_ok v' -> graph_inv v'.
Proof.
  intros Hg (pv & nx & nt & hd & tl & dn & ->) Hp. split; [..|exact Hp| | | |].
  - by eapply reg_cols, (inv_reg v Hg).
  - keep (inv_tree v Hg).
  - keep (inv_own v Hg).
  - keep (inv_edge v Hg).
  - keep (inv_ring v Hg).
  - keep (inv_thr v Hg).
  - keep (inv_geo v Hg).
  - keep (inv_map v Hg).
Qed.

Lemma pend_links v v' : pend_ok v -> v_eto v' = v_eto v -> v_enot v' = v_enot v -> v_eprev v' = v_eprev v ->
  v_enext v' = v_enext v -> v_head v' = v_head v -> v_tail v' = v_tail v -> pend_ok v'.
Proof.
  intros (L & HL & Hin) E1 E2 E3 E4 E5 E6. exists L. split; [|by rewrite E1, E2].
  intros p. destruct (HL p) as [Q1 Q2 Q3 Q4]. split; rewrite ?E3, ?E4, ?E5, ?E6; done.
Qed.

Lemma sched_notice v v' x C D : notice v v' -> sched_inv v x C D -> sched_inv v' x C D.
Proof. intros (pv & nx & nt & hd & tl & dn & ->). by apply sched_ext. Qed.

(** A delivered notice: the edge leaves its queue for good. *)
Lemma wp_notify_edge e p Q v x : graph_inv v -> v_eto v e = Some p ->
  (forall v', graph_inv v' -> notice v v' -> v_enot v' = fset e true (v_enot v) -> Q tt v' x) ->
  wp (_ ← umem_edge_pending_unlink_locked e; mod_edge e (upd_e_notified (fun _ => true))) Q v x.
Proof.
  intros Hg Hto H. pose proof (inv_edge v Hg) as He. destruct (proj2 (edge_ends v He e) ltac:(eauto)) as [b Hb].
  assert (Hp : live v p) by (apply (reg_as v (inv_reg v Hg)), (edge_as v He e p Hto)).
  apply wp_bind. eapply wp_unlink; [apply Hg|apply He|done..|]. intros pv nx hd tl (L & HL & Hin). ws.
  set (w := upd_v_enot _ _).
  assert (Hn : notice v w).
  { exists pv, nx, (fset e true (v_enot v)), hd, tl, (v_notified v). unfold w. by destruct v. }
  apply H; [|done|done]. apply (graph_notice v); [done..|]. exists L. split.
  - intros q. destruct (HL q). by split.
  - intros q e'. rewrite Hin. unfold w, relink. vsimpl. destruct (decide (e' = e)) as [->|Hne].
    + rewrite fset_eq. split; [tauto|]. by intros [_ ?].
    + rewrite fset_ne by done. tauto.
Qed.

Lemma notice_eto v v' : notice v v' -> v_eto v' = v_eto v.
Proof. by intros (? & ? & ? & ? & ? & ? & ->). Qed.

Lemma graph_owner v b i : graph_inv v -> v_info v b = Some i -> exists o, v_owner v b = Some o /\ live v o.
Proof.
  intros Hg Hi. destruct (proj2 (own_info v (inv_own v Hg) b) ltac:(eauto)) as [o Ho]. exists o. split; [done|].
  apply (reg_as v (inv_reg v Hg)). by eapply (own_as v (inv_own v Hg)).
Qed.

Lemma edge_facts v e p : graph_inv v -> v_eto v e = Some p ->
  exists b i o, v_eblock v e = Some b /\ v_info v b = Some i /\ v_owner v b = Some o /\ live v o /\ live v p.
Proof.
  intros Hg Hto. pose proof (inv_edge v Hg) as He. destruct (proj2 (edge_ends v He e) ltac:(eauto)) as [b Hb].
  destruct (edge_block v He e b Hb) as [[i Hi] _]. destruct (graph_owner v b i Hg Hi) as (o & Ho & Hlo).
  exists b, i, o. split_and!; try done. apply (reg_as v (inv_reg v Hg)). by eapply (edge_as v He).
Qed.

Lemma anchor_ring v a p r : graph_inv v -> v_anchor v a p = Some r -> ring_live v r.
Proof.
  intros Hg Ha. apply (ring_anchored v (inv_ring v Hg)) in Ha as (b & Hb & _). by eapply inv_ring_live.
Qed.

(** Posts the notice of edge [e] on [r] and marks it. *)
Lemma wp_post_edge r e p type a b status (k : M unit) Q v x : graph_inv v -> sched_inv v x [] [] -> ring_live v r ->
  v_eto v e = Some p -> held_below 3 (x_held x) ->
  (forall v' x', graph_inv v' -> notice v v' -> v_enot v' = fset e true (v_enot v) -> sched_inv v' x' [] [] -> calm x x' -> wp k Q v' x') ->
  (forall x', sched_inv v x' [] [] -> calm x x' -> Q tt v x') ->
  wp (posted ← channel_post r type a b status;
      if (posted : bool) then _ ← umem_edge_pending_unlink_locked e; _ ← mod_edge e (upd_e_notified (fun _ => true)); k else skip) Q v x.
Proof.
  intros Hg Hs Hl Hto Hh Hk H. apply wp_bind, wp_post; [by apply inv_wake|done..|]. intros [] y Hy Hc; [|by apply wp_skip, H].
  pose proof (wp_notify_edge e p (fun _ v x => wp k Q v x) v y Hg Hto) as Hn.
  intros s Es Ey. revert s Es Ey.
  assert (Hw : wp (_ ← umem_edge_pending_unlink_locked e; mod_edge e (upd_e_notified (fun _ => true))) (fun _ v x => wp k Q v x) v y).
  { apply Hn. intros w Hw Hnw Hen. apply Hk; try done. by eapply sched_notice. }
  intros s Es Ey. specialize (Hw s Es Ey). unfold mbind, M_bind in *.
  destruct (umem_edge_pending_unlink_locked e s) as [[] s1|s1|h s1]; simpl in *; try done.
  destruct (mod_edge e _ s1) as [[] s2|s2|h s2]; simpl in *; try done. by apply Hw.
Qed.

Lemma wp_edge_notify b e p Q v x : graph_inv v -> sched_inv v x [] [] -> v_eblock v e = Some b -> v_eto v e = Some p ->
  held_below 3 (x_held x) ->
  (forall v' x', graph_inv v' -> notice v v' -> sched_inv v' x' [] [] -> calm x x' -> Q tt v' x') ->
  wp (channel_edge_notify b e) Q v x.
Proof.
  intros Hg Hs Hb Hto Hh H. destruct (edge_facts v e p Hg Hto) as (b' & i & o & Hb' & Hi & Ho & Hlo & Hlp).
  rewrite Hb in Hb'. injection Hb' as <-. unfold channel_edge_notify. ws. vsimpl. ws. vsimpl.
  destruct (v_share_ch v p) as [r|] eqn:Er.
  - ws. vsimpl. ws. apply wp_bind, wp_post; [by apply inv_wake|done| |done|].
    { by eapply (anchor_ring v share_ch p). }
    intros ok y Hy Hc. apply wp_when; intros _.
    + eapply wp_notify_edge; [done..|]. intros w Hw Hn _. apply H; try done. by eapply sched_notice.
    + apply H; try done. apply notice_refl.
  - apply wp_skip, H; [done|apply notice_refl|done|apply calm_refl].
Qed.

Lemma pending_shrink v v' L L' e p : pending v L -> pending v' L' -> v_eto v' = v_eto v ->
  v_enot v' = fset e true (v_enot v) -> e ∈ L p -> length (L p) = S (length (L' p)).
Proof.
  intros [HL Hin] [HL' Hin'] Eto Een He. assert (Hp : L p ≡ₚ e :: L' p).
  { apply NoDup_Permutation; [apply HL| |].
    - apply NoDup_cons. split; [|apply HL']. rewrite Hin', Een, fset_eq. by intros [_ ?].
    - intros e'. rewrite elem_of_cons, Hin', Eto, Een. destruct (decide (e' = e)) as [->|Hne]; [tauto|].
      rewrite fset_ne, Hin by done. split; [by right|]. by intros [?|?]. }
  by rewrite Hp.
Qed.

(** The fuel is at least the number of pending edges. *)
Lemma wp_shares_loop r p Q fuel : forall v x L, graph_inv v -> sched_inv v x [] [] -> ring_live v r -> live v p ->
  held_below 3 (x_held x) -> pending v L -> (length (L p) <= fuel)%nat ->
  (forall v' x', graph_inv v' -> notice v v' -> sched_inv v' x' [] [] -> calm x x' -> Q tt v' x') ->
  wp (shares_loop fuel r p) Q v x.
Proof.
  induction fuel as [|fuel IH]; intros v x L Hg Hs Hl Hp Hh HL Hf H; cbn [shares_loop]; ws; vsimpl;
    rewrite (pq_head v p _ (proj1 HL p)).
  { destruct (L p); [|simpl in Hf; lia]. apply wp_skip, H; [done|apply notice_refl|done|apply calm_refl]. }
  destruct (L p) as [|e l] eqn:El; [apply wp_skip, H; [done|apply notice_refl|done|apply calm_refl]|]. cbn [head].
  assert (He : e ∈ L p) by (rewrite El; by left). destruct (proj1 (proj2 HL p e) He) as [Hto Hn].
  destruct (edge_facts v e p Hg Hto) as (b & i & o & Hb & Hi & Ho & Hlo & _). ws. vsimpl. ws. vsimpl. ws.
  eapply wp_post_edge; [done..| |].
  - intros w y Hw Hnw Hen Hy Hc. destruct (inv_pend w Hw) as [L' HL'].
    pose proof (pending_shrink v w L L' e p HL HL' (notice_eto v w Hnw) Hen He) as Hlen.
    rewrite El in Hlen. simpl in Hlen, Hf.
    apply (IH w y L'); try done; [| |by rewrite (calm_held _ _ Hc)|lia|].
    { by destruct Hnw as (? & ? & ? & ? & ? & ? & ->). } { by destruct Hnw as (? & ? & ? & ? & ? & ? & ->). }
    intros u z Hu Hnu Hz Hcz. apply H; [done|by eapply notice_trans|done|by eapply calm_trans].
  - intros y Hy Hc. apply H; [done|apply notice_refl|done|done].
Qed.

Lemma below_length (l : list Z) n : NoDup l -> (forall e, e ∈ l -> 0 <= e < n) -> Z.of_nat (length l) <= Z.max 0 n.
Proof.
  intros Hnd Hl. assert (Hs : l ⊆+ seqZ 0 n).
  { apply NoDup_submseteq; [done|]. intros e He%Hl. apply elem_of_seqZ. lia. }
  apply submseteq_length in Hs. rewrite length_seqZ in Hs. lia.
Qed.

Lemma pending_few v L p : graph_inv v -> pending v L -> (length (L p) <= Z.to_nat (v_nref v))%nat.
Proof.
  intros Hg HL. pose proof (below_length (L p) (v_nref v) (pq_nodup _ _ _ (proj1 HL p))) as Hb.
  enough (Z.of_nat (length (L p)) <= Z.max 0 (v_nref v)) by lia. apply Hb. intros e He.
  destruct (proj1 (proj2 HL p e) He) as [Hto _]. destruct (edge_facts v e p Hg Hto) as (b & _ & _ & Heb & _).
  by apply (edge_block v (inv_edge v Hg) e b).
Qed.

Lemma wp_shares_replay r b p Q v x : graph_inv v -> sched_inv v x [] [] -> v_rblock v r = Some b -> v_owner v b = Some p ->
  held_below 1 (x_held x) ->
  (forall v' x', graph_inv v' -> notice v v' -> sched_inv v' x' [] [] -> calm x x' -> Q tt v' x') ->
  wp (shares_replay r) Q v x.
Proof.
  intros Hg Hs Hb Ho Hh H. pose proof (inv_ring_live v r b Hg Hb) as Hl.
  destruct (Hl) as (b' & ops & i & o & Hb' & Hops & Hi & Ho'). rewrite Hb in Hb'. injection Hb' as <-.
  rewrite Ho in Ho'. injection Ho' as <-. destruct (graph_owner v b i Hg Hi) as (o & Ho' & Hlo).
  rewrite Ho in Ho'. injection Ho' as <-. unfold shares_replay. ws. vsimpl. ws. vsimpl.
  apply wp_bind, wp_lock_below; [done|]. apply wp_bind. eapply (wp_gets _ (Z.to_nat (v_nref v))); [by intros s <- _|].
  destruct (inv_pend v Hg) as [L HL]. apply wp_bind. eapply wp_shares_loop; try done.
  { by eapply sched_rest; [|exact Hs]. }
  { constructor; [simpl; lia|]. by eapply held_below_weaken; [|exact Hh]. } { by apply pending_few. }
  intros w y Hw Hn Hy Hc. eapply wp_unlock_top; [by rewrite (calm_held _ _ Hc)|done|]. apply H; try done.
  { by eapply sched_rest; [|exact Hy]. } by apply calm_unlock in Hc.
Qed.

Lemma notice_dead v c b : notice v (upd_v_notified (fset c b) v).
Proof. exists (v_eprev v), (v_enext v), (v_enot v), (v_head v), (v_tail v), (fset c b (v_notified v)). by destruct v. Qed.

Lemma graph_death_notified v c b : graph_inv v -> graph_inv (upd_v_notified (fset c b) v).
Proof.
  intros Hg. apply (graph_notice v); [done|apply notice_dead|]. by apply (pend_links v), eq_refl; [apply Hg|..].
Qed.

Lemma wp_tree_loop r Q cs : forall v x, graph_inv v -> sched_inv v x [] [] -> ring_live v r -> held_below 3 (x_held x) ->
  Forall (live v) cs ->
  (forall v' x', graph_inv v' -> notice v v' -> sched_inv v' x' [] [] -> calm x x' -> Q tt v' x') ->
  wp (tree_loop r cs) Q v x.
Proof.
  induction cs as [|c cs IH]; intros v x Hg Hs Hl Hh Hcs H; cbn [tree_loop].
  { apply wp_skip, H; [done|apply notice_refl|done|apply calm_refl]. }
  apply Forall_cons in Hcs as [Hc Hcs]. ws. vsimpl. destruct (v_dead v c && negb (v_notified v c)); [|by apply IH].
  apply wp_bind, wp_post; [by apply inv_wake|done..|]. intros [] y Hy Hcy.
  - ws. pose proof (graph_death_notified v c true Hg) as Hg'. apply IH; try done.
    + eapply sched_notice; [apply notice_dead|done].
    + by rewrite (calm_held _ _ Hcy).
    + intros w z Hw Hn Hz Hcz. apply H; [done| |done|by eapply calm_trans]. eapply notice_trans; [apply notice_dead|done].
  - apply wp_skip, H; [done|apply notice_refl|done|done].
Qed.

Lemma wp_tree_replay r b p Q v x : graph_inv v -> sched_inv v x [] [] -> v_rblock v r = Some b -> v_owner v b = Some p ->
  held_below 1 (x_held x) ->
  (forall v' x', graph_inv v' -> notice v v' -> sched_inv v' x' [] [] -> calm x x' -> Q tt v' x') ->
  wp (tree_replay r) Q v x.
Proof.
  intros Hg Hs Hb Ho Hh H. pose proof (inv_ring_live v r b Hg Hb) as Hl.
  destruct (Hl) as (b' & ops & i & o & Hb' & Hops & Hi & Ho'). rewrite Hb in Hb'. injection Hb' as <-.
  rewrite Ho in Ho'. injection Ho' as <-. destruct (graph_owner v b i Hg Hi) as (o & Ho' & Hlo).
  rewrite Ho in Ho'. injection Ho' as <-. unfold tree_replay. ws. vsimpl. ws. vsimpl. ws. vsimpl.
  apply wp_tree_loop; try done; [by eapply held_below_weaken; [|exact Hh]|]. apply Forall_forall. intros c Hc.
  apply elem_of_values in Hc as [k Hk]. apply (tree_down v (inv_tree v Hg)) in Hk as [-> Hk].
  by destruct (tree_up v (inv_tree v Hg) _ _ Hk) as (_ & _ & ?).
Qed.

Lemma wp_child_dead_notify q c Q v x : graph_inv v -> sched_inv v x [] [] -> live v q -> live v c -> held_below 3 (x_held x) ->
  (forall v' x', graph_inv v' -> notice v v' -> sched_inv v' x' [] [] -> calm x x' -> Q tt v' x') ->
  wp (channel_child_dead_notify q c) Q v x.
Proof.
  intros Hg Hs Hq Hc Hh H. unfold channel_child_dead_notify. ws. vsimpl. destruct (v_tree_ch v q) as [r|] eqn:Er.
  - ws. vsimpl. apply wp_bind, wp_post; [by apply inv_wake|done| |done|].
    { by eapply (anchor_ring v tree_ch q). }
    intros ok y Hy Hcy. apply wp_when; intros _.
    + ws. apply H; [by apply graph_death_notified|apply notice_dead| |done]. eapply sched_notice; [apply notice_dead|done].
    + apply H; [done|apply notice_refl|done..].
  - apply wp_skip, H; [done|apply notice_refl|done|apply calm_refl].
Qed.

Lemma wp_notify_parent c Q v x : graph_inv v -> sched_inv v x [] [] -> live v c -> held_below 3 (x_held x) ->
  (forall v' x', graph_inv v' -> notice v v' -> sched_inv v' x' [] [] -> calm x x' -> Q tt v' x') ->
  wp (notify_parent_locked c) Q v x.
Proof.
  intros Hg Hs Hc Hh H. unfold notify_parent_locked. ws. vsimpl.
  assert (Hmark : wp (mod_proc c (upd_p_death_notified (fun _ => true))) Q v x).
  { ws. apply H; [by apply graph_death_notified|apply notice_dead| |apply calm_refl].
    eapply sched_notice; [apply notice_dead|done]. }
  destruct (v_par v c) as [q|] eqn:Eq; [|exact Hmark].
  destruct (tree_up v (inv_tree v Hg) c q Eq) as (_ & Hq & _).
  apply wp_bind, wp_is_dead; [apply Hg|apply Hg|done|]. intros [] _; [exact Hmark|]. by apply wp_child_dead_notify.
Qed.

(** A death mark is never taken back. *)
Lemma graph_dead v p : graph_inv v -> graph_inv (upd_v_dead (fset p true) v).
Proof.
  intros Hg. split; [eapply reg_cols, (inv_reg v Hg); try done; intros q Hq; vsimpl; unfold fset; by case_decide|keep (inv_tree v Hg)|keep (inv_own v Hg)|keep (inv_edge v Hg)| |
    keep (inv_ring v Hg)|keep (inv_thr v Hg)|keep (inv_geo v Hg)|keep (inv_map v Hg)].
  by apply (pend_links v), eq_refl; [apply Hg|..].
Qed.

Lemma graph_exit v p n : graph_inv v -> graph_inv (upd_v_exit (fset p n) v).
Proof.
  intros Hg. split; [by eapply reg_cols, (inv_reg v Hg)|keep (inv_tree v Hg)|keep (inv_own v Hg)|keep (inv_edge v Hg)| |
    keep (inv_ring v Hg)|keep (inv_thr v Hg)|keep (inv_geo v Hg)|keep (inv_map v Hg)].
  by apply (pend_links v), eq_refl; [apply Hg|..].
Qed.

(** [v'] is [v] with [p] effectively dead. *)
Definition killed v p v' : Prop := (v' = v /\ eff_dead v p) \/ v' = upd_v_dead (fset p true) v.

Lemma wp_mark_dead p Q v x : graph_inv v -> live v p -> (forall v', graph_inv v' -> killed v p v' -> Q tt v' x) ->
  wp (mark_dead_locked p) Q v x.
Proof.
  intros Hg Hp H. unfold mark_dead_locked. apply wp_bind, wp_is_dead; [apply Hg|apply Hg|done|].
  intros [] Hd; [apply wp_skip, H; [done|]; left; split; [done|by apply Hd]|].
  ws. destruct (bool_decide (v_init v = Some p)); cbn [negb].
  - apply wp_bind, wp_die. by left.
  - apply wp_bind, wp_asserts; [done|]. ws. apply H; [by apply graph_dead|by right].
Qed.

Lemma sched_killed v p v' x C D : killed v p v' -> sched_inv v x C D -> sched_inv v' x C D.
Proof. intros [[-> _]| ->]; [done|]. by apply sched_ext. Qed.

Lemma killed_dead v p v' : killed v p v' -> eff_dead v' p.
Proof. intros [[-> ?]| ->]; [done|]. apply dead_here. simpl. by rewrite fset_eq. Qed.

Lemma killed_notice_dead v v' p : notice v v' -> eff_dead v p -> eff_dead v' p.
Proof.
  intros (? & ? & ? & ? & ? & ? & ->). induction 1; [by apply dead_here|by eapply dead_above].
Qed.

End Posts.

(** ** The whole invariant and what the schemes promise *)

Section Schemes.
Context {PT : PageTree} {SC : Schemes}.
Implicit Types (v : gview) (x : rest).

(** What a command of a scheme leaves alone: it may change the grants, the interrupt
    routes and the claims of rings. *)
Record quiet x x' : Prop := {
  qt_keep : x_futex_key x' = x_futex_key x /\ x_futex_seq x' = x_futex_seq x /\ x_this x' = x_this x /\
    x_pool x' = x_pool x /\ x_platform x' = x_platform x /\ x_held x' = x_held x;
  qt_run t T : x_threads x !! t = Some T -> t_status T <> THREAD_BLOCKED -> x_threads x' !! t = Some T;
  qt_dead t T : x_threads x' !! t = Some T -> t_status T = THREAD_DEAD -> x_threads x !! t = Some T;
  qt_current : x_current x' = x_current x;
  qt_ases : x_ases x' = x_ases x }.

Lemma calm_quiet x x' : calm x x' -> quiet x x'.
Proof. intros [H1 H2 H3 H4 H5]. split; [naive_solver|done..]. Qed.

Lemma quiet_refl x : quiet x x.
Proof. by split. Qed.

Lemma quiet_trans x y z : quiet x y -> quiet y z -> quiet x z.
Proof.
  intros [H1 H2 H3 H4 H5] [K1 K2 K3 K4 K5]. split.
  - destruct H1 as (-> & -> & -> & -> & -> & ->) in K1. exact K1.
  - intros t T HT Hr. apply K2; [by apply H2|done].
  - intros t T HT Hr. apply H3; [by apply K3|done].
  - by rewrite K4.
  - by rewrite K5.
Qed.

Lemma quiet_held x x' : quiet x x' -> x_held x' = x_held x.
Proof. intros Hc. by destruct (qt_keep _ _ Hc) as (_ & _ & _ & _ & _ & ?). Qed.

(** The columns the schemes own. *)
Definition scheme_part x := (x_grants x, x_next_grant x, x_boot_key x, x_routes x, x_claims x, x_ioapic x, x_iommu x).

(** The invariant, over the part [S] of the schemes. *)
Record inv_with (S : gview -> rest -> Prop) v x : Prop := {
  inv_graph : graph_inv v;
  inv_pool : exists t, pool_inv v x t;
  inv_sched : sched_inv v x [] [];
  inv_alive t T : x_threads x !! t = Some T -> t_status T <> THREAD_DEAD;
  inv_scheme : S v x }.

(** A block retained for DMA, with the domains it is mapped in. *)
Definition dma_of v (b : Z) : option (binfo * gmap Z Z) :=
  match v_info v b, v_dma v b with Some i, Some m => Some (i, m) | _, _ => None end.

Definition same_dma v v' : Prop := forall b, dma_of v' b = dma_of v b.

Lemma same_dma_eq v v' : v_dma v' = v_dma v -> v_info v' = v_info v -> same_dma v v'.
Proof. intros E1 E2 b. unfold dma_of. by rewrite E1, E2. Qed.

(** Only DMA retention differs. *)
Definition redma v v' : Prop := exists d, v' = upd_v_dma (fun _ => d) v.

(** No block is retained that was not. *)
Definition dma_fewer v (d : Z -> option (gmap Z Z)) : Prop := forall b, v_dma v b = None -> d b = None.

(** The words of an entry are 64 bits wide. *)
Record sqe_ok (sqe : ksqe) : Prop := {
  sq_op : 0 <= sqe_op sqe < 2 ^ 64;
  sq_a : 0 <= sqe_a sqe < 2 ^ 64;
  sq_b : 0 <= sqe_b sqe < 2 ^ 64;
  sq_c : 0 <= sqe_c sqe < 2 ^ 64 }.

(** What [channel.c] relies on of the callbacks in [g_schemes]. *)
Class SchemesSafe := {
  scheme_inv : gview -> rest -> Prop;
  scheme_ext v v' x x' : v_rblock v' = v_rblock v -> v_rops v' = v_rops v -> same_dma v v' -> scheme_part x' = scheme_part x ->
    scheme_inv v x -> scheme_inv v' x';
  scheme_new r b id n v x : scheme_inv v x -> v_rblock v r = None -> is_Some (scheme_lookup id) ->
    scheme_inv (put_ring r (Ring id b n 0 0 None 0) v) (set_claims (insert r (None, 0)) x);
  scheme_init_ok id ops init r Q v x : scheme_lookup id = Some ops -> so_init ops = Some init ->
    v_rops v r = Some id -> ring_live v r -> wake_ok v -> sched_inv v x [] [] -> scheme_inv v x -> held_below 2 (x_held x) ->
    (forall rc x', sched_inv v x' [] [] -> quiet x x' -> scheme_inv v x' ->
      (rc <> 0 -> scheme_inv (drop_ring r v) (set_claims (delete r) x')) -> Q rc v x') -> wp (init r) Q v x;
  scheme_exec_ok id ops exec curr T r b sqe Q v x : scheme_lookup id = Some ops -> so_exec ops = Some exec ->
    v_rops v r = Some id -> v_rblock v r = Some b -> x_threads x !! curr = Some T -> t_status T = THREAD_RUNNING ->
    v_owner v b = Some (t_proc T) -> sqe_ok sqe -> inv_with scheme_inv v x -> x_held x = [LUmem] ->
    (forall rc v' x', inv_with scheme_inv v' x' -> redma v v' -> quiet x x' -> Q rc v' x') -> wp (exec curr r sqe) Q v x;
  scheme_replay_ok id ops replay r b Q v x : scheme_lookup id = Some ops -> so_replay ops = Some replay ->
    v_rops v r = Some id -> v_rblock v r = Some b -> inv_with scheme_inv v x -> x_held x = [LUmem] ->
    (forall v' x', inv_with scheme_inv v' x' -> notice v v' -> quiet x x' -> Q tt v' x') -> wp (replay r) Q v x;
  scheme_destroy_ok id ops destroy r Q v x : scheme_lookup id = Some ops -> so_destroy ops = Some destroy ->
    v_rops v r = Some id -> ring_live v r -> wake_ok v -> sched_inv v x [] [] -> scheme_inv v x -> x_held x = [LUmem] ->
    (forall d x', dma_fewer v d -> sched_inv v x' [] [] -> quiet x x' ->
      scheme_inv (drop_ring r (upd_v_dma (fun _ => d) v)) (set_claims (delete r) x') -> Q tt (upd_v_dma (fun _ => d) v) x') ->
    wp (destroy r) Q v x;
  scheme_idle id ops r v x : scheme_lookup id = Some ops -> so_destroy ops = None -> v_rops v r = Some id ->
    scheme_inv v x -> scheme_inv (drop_ring r v) (set_claims (delete r) x);
  scheme_destroyable_ok id ops f r Q v x : scheme_lookup id = Some ops -> so_destroyable ops = Some f ->
    (forall ok, Q ok v x) -> wp (f r) Q v x }.

End Schemes.

Abbreviation inv := (inv_with scheme_inv).
