(* ===== verification/UmemSpec.v ===== *)
(** * Specifications of user memory

    Each operation of Umem.v keeps the invariant; the transition it makes on the
    ownership graph is given by the rule. *)

From Stdlib Require Import FunctionalExtensionality.
From S2P Require Import Prelude Buddy Paging Siphash PlatformMem Machine Sched Index Channel Umem Process Graph Wp Invariant BaseSpec SchedSpec ChannelSpec.

Section Frames.
Context {PT : PageTree} {SC : Schemes} {SS : SchemesSafe}.
Implicit Types (v : gview) (x : rest).

(** ** Framing *)

(** The columns of the graph that the pool and the schemes read. *)
Record keeps v v' : Prop := {
  kp_info : v_info v' = v_info v;
  kp_kmap : v_kmap v' = v_kmap v;
  kp_rblock : v_rblock v' = v_rblock v;
  kp_rops : v_rops v' = v_rops v;
  kp_dma : v_dma v' = v_dma v }.

Lemma keeps_refl v : keeps v v.
Proof. by split. Qed.

Lemma keeps_trans v w u : keeps v w -> keeps w u -> keeps v u.
Proof. intros [] []. split; congruence. Qed.

Lemma keeps_notice v v' : notice v v' -> keeps v v'.
Proof. by intros (? & ? & ? & ? & ? & ? & ->). Qed.

Lemma pool_frame v v' x x' : v_info v' = v_info v -> v_kmap v' = v_kmap v -> x_pool x' = x_pool x ->
  x_platform x' = x_platform x -> (exists t, pool_inv v x t) -> exists t, pool_inv v' x' t.
Proof.
  intros E1 E2 E3 E4 [t [P1 P2 P3 P4 P5 P6]]. exists t. unfold allocatable in *.
  split; unfold allocatable; rewrite ?E1, ?E2, ?E3, ?E4; done.
Qed.

(** The graph moves on and the rest stays calm. *)
Lemma inv_step v x v' x' : inv v x -> graph_inv v' -> keeps v v' -> sched_inv v' x' [] [] -> calm x x' -> inv v' x'.
Proof.
  intros [I1 I2 I3 I4 I5] Hg [K1 K2 K3 K4 K5] Hs Hc.
  destruct (calm_keep _ _ Hc) as (C1 & C2 & C3 & C4 & C5 & C6 & C7 & C8 & C9 & C10 & C11 & C12 & C13).
  split; [done| |done| |].
  - by eapply pool_frame.
  - intros t T HT Hd. by eapply I4; [eapply (calm_dead _ _ Hc)|].
  - eapply scheme_ext; [done|done|by apply same_dma_eq| |exact I5]. unfold scheme_part. congruence.
Qed.

Lemma inv_same v x x' : inv v x -> sched_inv v x' [] [] -> calm x x' -> inv v x'.
Proof. intros Hi. apply (inv_step v x v); [done|apply Hi|apply keeps_refl]. Qed.

(** Only the locks held and user memory differ. *)
Definition rest_but_locks x x' : Prop := exists h f, x' = set_held h (set_mem f x).

Lemma inv_live v x p m : inv v x -> v_map v p = Some m -> live v p.
Proof. intros Hi Hm. apply (reg_as v (inv_reg v (inv_graph _ _ _ Hi))). eauto. Qed.

(** ** Changing what a page tree shows *)

(** [p]'s tree shows [f] in [[lo, hi)]. *)
Definition reflag (p lo hi f : Z) v : gview := upd_v_map (fset p (flagged lo hi f <$> v_map v p)) v.

Lemma flagged_in lo hi f m a : 0 <= a < 2 ^ 48 -> lo <= a < hi -> flagged lo hi f m a = shown f.
Proof. intros Ha Hin. unfold flagged. rewrite Z.mod_small by lia. by rewrite decide_True. Qed.

Lemma flagged_out lo hi f m a : 0 <= a < 2 ^ 48 -> ~ lo <= a < hi -> flagged lo hi f m a = m a.
Proof. intros Ha Hin. unfold flagged. rewrite Z.mod_small by lia. by rewrite decide_False. Qed.

Lemma wp_reflag p lo hi f m {A} (k : M A) Q v x : v_map v p = Some m -> live v p -> page_range lo hi -> flags_valid f ->
  v_dirty v p = false -> wp k Q (reflag p lo hi f v) x -> wp (_ ← as_flag p lo hi f; _ ← as_flush p; k) Q v x.
Proof.
  intros Hm Hp Hr Hf Hd H. apply wp_bind. eapply wp_as_flag; [done|by eexists|done..|].
  apply wp_bind. eapply wp_as_flush; [by vsimpl; rewrite fset_eq|by eexists|].
  unfold reflag in H. rewrite Hm in H. simpl in H.
  replace (upd_v_dirty _ _) with (upd_v_map (fset p (Some (flagged lo hi f m))) v); [exact H|].
  unfold upd_v_map, upd_v_dirty. cbn. by rewrite fset_fset, (fset_id p false (v_dirty v)).
Qed.

(** The same as the last two steps of a function. *)
Lemma wp_reflag_end p lo hi f m Q v x : v_map v p = Some m -> live v p -> page_range lo hi -> flags_valid f ->
  v_dirty v p = false -> Q tt (reflag p lo hi f v) x -> wp (_ ← as_flag p lo hi f; as_flush p) Q v x.
Proof.
  intros Hm Hp Hr Hf Hd H. apply wp_bind. eapply wp_as_flag; [done|by eexists|done..|].
  eapply wp_as_flush; [by vsimpl; rewrite fset_eq|by eexists|].
  unfold reflag in H. rewrite Hm in H. simpl in H.
  replace (upd_v_dirty _ _) with (upd_v_map (fset p (Some (flagged lo hi f m))) v); [exact H|].
  unfold upd_v_map, upd_v_dirty. cbn. by rewrite fset_fset, (fset_id p false (v_dirty v)).
Qed.

Lemma block_range v b i : geo_ok v -> v_info v b = Some i -> page_range (i_base i) (i_base i + i_bytes i).
Proof.
  intros Hg Hi. destruct (blk_range i (geo_block v Hg b i Hi)) as (? & ? & ?).
  destruct (blk_aligned i (geo_block v Hg b i Hi)) as (Ea & Eb). unfold page_range.
  split_and!; try lia. by rewrite Z.add_mod, Ea, Eb.
Qed.

Lemma reflag_maps p lo hi f v q : is_Some (v_map v q) -> is_Some (v_map (reflag p lo hi f v) q).
Proof.
  intros Hq. unfold reflag. vsimpl. destruct (decide (q = p)) as [->|Hne]; [|by rewrite fset_ne].
  rewrite fset_eq. by apply fmap_is_Some.
Qed.

Lemma reflag_maps_inv p lo hi f v q : is_Some (v_map (reflag p lo hi f v) q) -> is_Some (v_map v q).
Proof.
  unfold reflag. vsimpl. destruct (decide (q = p)) as [->|Hne]; [|by rewrite fset_ne]. rewrite fset_eq. by apply fmap_is_Some.
Qed.

Lemma keeps_reflag p lo hi f v : keeps v (reflag p lo hi f v).
Proof. by split. Qed.

Lemma sees_reflag p lo hi f v q b : sees (reflag p lo hi f v) q b <-> sees v q b.
Proof. done. Qed.

(** The invariant without the page trees. *)
Record graph_rest v : Prop := {
  gr_reg : reg_ok v;
  gr_tree : tree_ok v;
  gr_own : own_ok v;
  gr_edge : edge_ok v;
  gr_pend : pend_ok v;
  gr_ring : ring_ok v;
  gr_thr : thr_ok v;
  gr_geo : geo_ok v }.

Lemma graph_split v : graph_inv v <-> graph_rest v /\ map_ok v.
Proof. split; [intros []; by split|]. intros [[] ?]. by split. Qed.

Lemma rest_remap v mp : graph_rest v -> (forall p, is_Some (mp p) <-> is_Some (v_map v p)) ->
  graph_rest (upd_v_map (fun _ => mp) v).
Proof.
  intros [R T O E P Rg Th G] Hd. split; [|keep T|..].
  - destruct R as [R1 R2 R3 R4]. split; try assumption; intros p Hp; [apply R3; by apply Hd|].
    vsimpl. intros Hn. apply (eff_dead_cols v); [done|done|]. apply R4; [done|]. apply eq_None_not_Some. intros Hx%Hd.
    rewrite Hn in Hx. by destruct Hx.
  - destruct O as [O1 O2 O3 O4 O5 O6]. split; try assumption. intros b p Hp. apply Hd. by eapply O3.
  - destruct E as [E1 E2 E3 E4 E5 E6]. split; try assumption. intros e p Hp. apply Hd. by eapply E5.
  - by apply (pend_links v), eq_refl.
  - keep Rg.
  - destruct Th as [T1 T2 T3 T4 T5 T6]. split; try assumption. intros t p cb Ht.
    destruct (T3 t p cb Ht). split; [by apply Hd|done].
  - keep G.
Qed.

Lemma graph_remap v mp : graph_inv v -> (forall p, is_Some (mp p) <-> is_Some (v_map v p)) ->
  map_ok (upd_v_map (fun _ => mp) v) -> graph_inv (upd_v_map (fun _ => mp) v).
Proof. intros [Hr _]%graph_split Hd Hm. apply graph_split. split; [by apply rest_remap|done]. Qed.

(** Inside a block [p] sees, [p]'s tree may show anything. *)
Lemma graph_reflag v p b i lo hi f : graph_inv v -> sees v p b -> v_info v b = Some i ->
  i_base i <= lo -> hi <= i_base i + i_bytes i -> graph_inv (reflag p lo hi f v).
Proof.
  intros Hg Hsee Hi Hlo Hhi. apply graph_remap; [done| |].
  { intros q. split; [apply (reflag_maps_inv p lo hi f)|apply reflag_maps]. }
  pose proof (inv_map v Hg) as [M1 M2 M3 M4 M5]. split; try assumption.
  intros q m a Hm Ha. vsimpl. simpl in Hm. destruct (decide (q = p)) as [->|Hq].
  - rewrite fset_eq in Hm. destruct (v_map v p) as [m0|] eqn:Em; [|done]. injection Hm as <-.
    destruct (decide (lo <= a < hi)).
    + right. exists b, i. split_and!; [done|done|]. unfold in_block. lia.
    + rewrite flagged_out by done. by apply (M1 p m0).
  - rewrite fset_ne in Hm by done. by apply (M1 q m).
Qed.

(** ** Read-only operations *)

Lemma wp_umem_size p base Q v x : inv v x -> live v p -> held_below 1 (x_held x) -> (forall n, Q n v x) ->
  wp (umem_size p base) Q v x.
Proof.
  intros Hi Hp Hh H. pose proof (inv_graph _ _ _ Hi) as Hg. unfold umem_size, umem_owned_locked.
  apply wp_bind, wp_lock_below; [done|]. ws. vsimpl. ws. 
  assert (Hend : forall n, wp (_ ← umem_proc_unlock p; mret n) Q v (set_held (LProc p :: x_held x) x)).
  { intros n. apply wp_bind. eapply wp_unlock_top; [done|done|]. apply wp_ret. destruct x; apply H. }
  apply wp_bind. destruct (v_pblocks v p !! base) as [b|] eqn:Eb; [|apply wp_ret, Hend].
  apply (own_index v (inv_own v Hg)) in Eb as [Ho Hb]. unfold bbase in Hb. destruct (v_info v b) as [i|] eqn:Ei; [|done].
  ws. apply wp_ret, Hend.
Qed.

(** ** Protection *)

(** The flag words [vm_prot_to_flags] makes. *)
Definition prots : list Z := [0; 1; 3; 5; 7].

(** The words with no execute right. *)
Lemma device_view_valid d prot : d ∈ [1; 3; 17; 19] -> prot ∈ prots -> nz (Z.ldiff prot d) = false ->
  flags_valid (Z.lor (if prot =? 0 then 0 else Z.lor prot PAGE_U) (Z.land d PAGE_CACHE_MASK)) /\
  flags_valid (Z.lor (Z.lor prot PAGE_U) (Z.land d PAGE_CACHE_MASK)) \/ prot = 0.
Proof.
  intros Hd Hp _. apply list_elem_of_In in Hd, Hp.
  destruct Hd as [<-|[<-|[<-|[<-|[]]]]]; destruct Hp as [<-|[<-|[<-|[<-|[<-|[]]]]]];
    first [by right|left; split; (split; [vm_compute; split; congruence|split; [right; reflexivity|vm_compute; congruence]])].
Qed.

Lemma cache_valid d : d ∈ [1; 3; 17; 19] -> flags_valid (Z.lor 0 (Z.land d PAGE_CACHE_MASK)).
Proof.
  intros Hd. apply list_elem_of_In in Hd. destruct Hd as [<-|[<-|[<-|[<-|[]]]]];
    (split; [vm_compute; split; congruence|split; [left; reflexivity|vm_compute; congruence]]).
Qed.

Lemma ram_view_valid prot : prot ∈ prots -> flags_valid (if prot =? 0 then 0 else Z.lor prot PAGE_U) /\
  (prot <> 0 -> flags_valid (Z.lor prot PAGE_U)).
Proof.
  intros Hp. apply list_elem_of_In in Hp. destruct Hp as [<-|[<-|[<-|[<-|[<-|[]]]]]];
    (split; [|try done; intros _]; (split; [vm_compute; split; congruence|split; [first [left; reflexivity|right; reflexivity]|vm_compute; congruence]])).
Qed.

(** The flag word [umem_protect] and [umem_share] write is one [as_flag] takes. *)
Lemma view_flags_valid v b i o prot : geo_ok v -> v_info v b = Some i -> prot ∈ prots ->
  device_refuses (block_of v b i o) prot = false ->
  flags_valid (with_cache_type (block_of v b i o) (if prot =? 0 then 0 else Z.lor prot PAGE_U)) /\
  (prot <> 0 -> flags_valid (with_cache_type (block_of v b i o) (Z.lor prot PAGE_U))).
Proof.
  intros Hg Hi Hp Hr. unfold with_cache_type, device_refuses in *. cbn in *.
  pose proof (blk_backing i (geo_block v Hg b i Hi)) as Hb. destruct (i_backing i).
  - rewrite bool_decide_false by done. by apply ram_view_valid.
  - rewrite bool_decide_true in * by done. cbn [andb] in Hr. apply orb_false_iff in Hr as [Hr _].
    destruct (device_view_valid _ _ Hb Hp Hr) as [[H1 H2]| ->]; [done|]. split; [by apply cache_valid|done].
Qed.

(** [p] is given the rights [prot] on part of a block it sees. *)
Record protects v (p base len prot : Z) v' : Prop := {
  pr_block : exists b i o, sees v p b /\ v_info v b = Some i /\ v_owner v b = Some o /\ i_base i <= base /\
    base + len <= i_base i + i_bytes i /\ v_bpins v b = 0 /\ v_bring v b = None /\
    device_refuses (block_of v b i o) prot = false /\
    v' = reflag p base (base + len) (with_cache_type (block_of v b i o) (if prot =? 0 then 0 else Z.lor prot PAGE_U)) v;
  pr_inv : graph_inv v' }.

Lemma wp_protect p base len prot m Q v x : inv v x -> v_map v p = Some m -> held_below 1 (x_held x) -> prot ∈ prots ->
  0 <= base -> 0 <= len -> Q (-1) v x -> (forall v', protects v p base len prot v' -> Q 0 v' x) ->
  wp (umem_protect p base len prot) Q v x.
Proof.
  intros Hi Hm Hh Hprot Hb Hl Hbad Hok. pose proof (inv_graph _ _ _ Hi) as Hg. pose proof (inv_live _ _ _ _ Hi Hm) as Hp.
  unfold umem_protect. destruct (_ || _) eqn:Eal; [by apply wp_ret|].
  assert (Hal : base mod PAGE_SIZE = 0 /\ len <> 0 /\ len mod PAGE_SIZE = 0) by lia. clear Eal.
  unfold add_overflow64. destruct (_ <=? _) eqn:Eov; [by apply wp_ret|].
  apply wp_bind, wp_lock_below; [done|]. apply wp_bind. eapply wp_view; [apply Hg|apply Hg|apply Hg|done..|].
  intros ob Hob. apply wp_bind.
  assert (Hend : forall rc v', Q rc v' x -> wp (_ ← umem_proc_unlock p; mret rc) Q v' (set_held (LProc p :: x_held x) x)).
  { intros rc v' HQ. apply wp_bind. eapply wp_unlock_top; [done|done|]. apply wp_ret. destruct x; exact HQ. }
  destruct ob as [b|]; [|apply wp_ret; by apply Hend].
  destruct (proj1 (Hob b) eq_refl) as (_ & Hsee & i & Hbi & Hlo & Hhi).
  destruct (graph_owner v b i Hg Hbi) as (o & Ho & Hlo'). ws. apply wp_ret.
  destruct (_ || _) eqn:Echk; [by apply Hend|]. apply orb_false_iff in Echk as [Echk Hdev]. apply orb_false_iff in Echk as [Hpin Hring].
  vsimpl. eapply wp_reflag; [exact Hm|done| | |apply (map_clean v (inv_map v Hg))|].
  - destruct (block_range v b i (inv_geo v Hg) Hbi) as (? & ? & _ & _). unfold page_range.
    split_and!; try lia. rewrite Z.add_mod by done. destruct Hal as (-> & _ & ->). done.
  - by apply (view_flags_valid v b i o prot (inv_geo v Hg)).
  - apply Hend, Hok. split; [|by eapply graph_reflag]. exists b, i, o. split_and!; try done.
    + cbn in Hpin. lia.
    + cbn in Hring. by apply bool_decide_eq_false, eq_None_not_Some in Hring.
Qed.

(** ** Sharing *)

Lemma unpinned v b i t p : thr_ok v -> v_info v b = Some i -> v_bpins v b = 0 -> v_threads v !! t <> Some (p, Some b).
Proof.
  intros Ht Hi Hn Hb. rewrite (thr_pins v Ht b) in Hn by eauto.
  assert (Hs : size (pinning v b) = 0%nat) by lia. apply map_size_empty_inv in Hs.
  assert (Hl : pinning v b !! t = Some (p, Some b)) by (by apply map_lookup_filter_Some). by rewrite Hs, lookup_empty in Hl.
Qed.

(** Block [b] gets an edge [e] towards [target]. *)
Definition linked v (b e target base : Z) (pv nx hd tl : Z -> option Z) : gview :=
  upd_v_views (fset target (<[base := e]> (v_views v target)))
    (relink (upd_v_sharers (fset b (<[target := e]> (v_sharers v b)))
      (put_edge e (ShareEdge b target None None false) (upd_v_nref Z.succ v))) pv nx hd tl).

Lemma base_inj v b b' base : own_ok v -> bbase v b = Some base -> bbase v b' = Some base -> b = b'.
Proof. intros Ho H1 H2. apply (own_global v Ho) in H1, H2. congruence. Qed.

Lemma edge_fresh v e : edge_ok v -> ~ e < v_nref v -> v_eblock v e = None /\ v_eto v e = None.
Proof.
  intros He Hn. split; apply eq_None_not_Some; intros H; [|apply (edge_ends v He) in H]; destruct H as [b Hb];
    destruct (edge_block v He _ b Hb) as [_ Hlt]; lia.
Qed.

Lemma linked_edge v b i o e target pv nx hd tl : graph_inv v -> v_info v b = Some i -> v_owner v b = Some o ->
  target <> o -> v_sharers v b !! target = None -> is_Some (v_map v target) -> e = v_nref v ->
  edge_ok (linked v b e target (i_base i) pv nx hd tl).
Proof.
  intros Hg Hi Ho Hto Hsh Hmap Ee. pose proof (inv_edge v Hg) as He. pose proof (own_counter v (inv_own v Hg)) as Hc.
  destruct (edge_fresh v e He ltac:(lia)) as [Hfb Hft]. destruct He as [E1 E2 E3 E4 E5 E6].
  assert (Hbb : bbase v b = Some (i_base i)) by (unfold bbase; by rewrite Hi).
  unfold linked, relink. split; vsimpl.
  - intros b' p e'. destruct (decide (e' = e)) as [->|Hne].
    + rewrite !fset_eq. unfold fset at 1. case_decide as Hb'.
      * subst b'. rewrite lookup_insert_Some. split; [intros [[-> _]|[_ Hx]]; [done|apply E1 in Hx as [Hx _]; congruence]|].
        intros [_ [= ->]]. by left.
      * split; [intros Hx%E1; destruct Hx; congruence|]. intros [[= ->] _]. done.
    + rewrite !(fset_ne e e') by done. rewrite <-E1. unfold fset. case_decide as Hb'; [|done]. subst b'.
      rewrite lookup_insert_Some. split; [intros [[_ ?]|[_ ?]]; congruence|]. intros Hx. right. split; [|done]. congruence.
  - intros p base e'. change (bbase _) with (bbase v). destruct (decide (e' = e)) as [->|Hne].
    + rewrite !fset_eq. unfold fset at 1. case_decide as Hp.
      * subst p. rewrite lookup_insert_Some. split.
        { intros [[<- _]|[_ Hx]]; [eauto|apply E2 in Hx as [Hx _]; congruence]. }
        intros (_ & b' & [= <-] & Hx). left. split; [congruence|done].
      * split; [intros Hx%E2; destruct Hx; congruence|]. intros [[= ->] _]. done.
    + rewrite !(fset_ne e e') by done. rewrite <-E2. unfold fset. case_decide as Hp; [|done]. subst p.
      rewrite lookup_insert_Some. split; [intros [[_ ?]|[_ ?]]; congruence|]. intros Hx. right. split; [|done]. intros <-.
      apply E2 in Hx as (Hx & b' & Hb' & Hbb'). assert (b' = b) as -> by (by eapply base_inj; [apply Hg|..]).
      assert (v_sharers v b !! target = Some e') by (by apply E1). congruence.
  - intros e'. unfold fset. case_decide; [|apply E3]. split; intros _; eauto.
  - intros e' b'. destruct (decide (e' = e)) as [->|Hne].
    + rewrite fset_eq. intros [= <-]. split; [eauto|lia].
    + rewrite fset_ne by done. intros Hx%E4. destruct Hx. split; [done|lia].
  - intros e' p. destruct (decide (e' = e)) as [->|Hne].
    + rewrite fset_eq. by intros [= <-].
    + rewrite fset_ne by done. apply E5.
  - intros e' b' p. destruct (decide (e' = e)) as [->|Hne].
    + rewrite !fset_eq. intros [= <-] [= <-]. congruence.
    + rewrite !fset_ne by done. apply E6.
Qed.

(** A queue in a graph with the same links. *)
Lemma queue_same v v' p l : v_head v' = v_head v -> v_tail v' = v_tail v -> v_eprev v' = v_eprev v -> v_enext v' = v_enext v ->
  queue v p l -> queue v' p l.
Proof. intros E1 E2 E3 E4 [A1 A2 A3 A4]. split; rewrite ?E1, ?E2, ?E3, ?E4; done. Qed.

(** A queue that does not hold [e] in a graph whose links differ at [e] only. *)
Lemma queue_off v v' e p l : v_head v' = v_head v -> v_tail v' = v_tail v ->
  (forall e', e' <> e -> v_eprev v' e' = v_eprev v e' /\ v_enext v' e' = v_enext v e') -> e ∉ l ->
  queue v p l -> queue v' p l.
Proof.
  intros E1 E2 Ee Hn [A1 A2 A3 A4]. split; rewrite ?E1, ?E2; try done. eapply seg_ext; [|exact A3].
  intros e' He'. apply Ee. by intros ->.
Qed.

(** The graph just before the new edge is queued. *)
Definition edged v (b e target : Z) : gview :=
  upd_v_sharers (fset b (<[target := e]> (v_sharers v b)))
    (put_edge e (ShareEdge b target None None false) (upd_v_nref Z.succ v)).

Lemma edged_queue v b e target L : pending v L -> v_eto v e = None ->
  (forall q, queue (edged v b e target) q (L q)) /\ forall q, e ∉ L q.
Proof.
  intros [HL Hin] He. assert (Hn : forall q, e ∉ L q) by (intros q [Hq _]%Hin; congruence). split; [|done].
  intros q. destruct (HL q) as [Q1 Q2 Q3 Q4]. split; try assumption. unfold edged. vsimpl.
  eapply seg_ext; [|exact Q3]. intros e' He'. split; apply fset_ne; intros ->; by apply (Hn q).
Qed.

Lemma linked_pend v b e target base pv nx hd tl L : pending v L -> v_eto v e = None ->
  (forall q, queue (relink (edged v b e target) pv nx hd tl) q (fset target (L target ++ [e]) L q)) ->
  pend_ok (linked v b e target base pv nx hd tl).
Proof.
  intros HL He HQ. exists (fset target (L target ++ [e]) L). split.
  - intros q. eapply queue_same, HQ; unfold linked, relink; vsimpl; reflexivity.
  - intros q e'. unfold linked, relink. vsimpl. destruct HL as [_ Hin]. destruct (decide (e' = e)) as [->|Hne].
    + rewrite !fset_eq. unfold fset. case_decide as Hq.
      * subst q. rewrite elem_of_app, list_elem_of_singleton. tauto.
      * rewrite Hin. split; intros [? ?]; congruence.
    + rewrite !(fset_ne e e') by done. rewrite <-Hin. unfold fset. case_decide as Hq; [|done]. subst q.
      rewrite elem_of_app, list_elem_of_singleton. tauto.
Qed.

Lemma sees_linked v b e target base pv nx hd tl : v_eblock v e = None ->
  sees (linked v b e target base pv nx hd tl) target b /\
  forall p b', sees v p b' -> sees (linked v b e target base pv nx hd tl) p b'.
Proof.
  intros He. unfold sees, linked, relink. vsimpl. split.
  - right. exists e. by rewrite !fset_eq.
  - intros p b' [?|(e' & H1 & H2)]; [by left|]. right. exists e'. rewrite !fset_ne by congruence. done.
Qed.

Lemma graph_linked v b i o e target pv nx hd tl L : graph_inv v -> v_info v b = Some i -> v_owner v b = Some o ->
  target <> o -> v_sharers v b !! target = None -> is_Some (v_map v target) -> e = v_nref v -> v_bring v b = None -> v_bpins v b = 0 ->
  pending v L -> (forall q, queue (relink (edged v b e target) pv nx hd tl) q (fset target (L target ++ [e]) L q)) ->
  graph_inv (linked v b e target (i_base i) pv nx hd tl).
Proof.
  intros Hg Hi Ho Hto Hsh Hmap Ee Hring Hpins HL HQ. pose proof (own_counter v (inv_own v Hg)) as Hc.
  destruct (edge_fresh v e (inv_edge v Hg) ltac:(lia)) as [Hfb Hft].
  destruct (sees_linked v b e target (i_base i) pv nx hd tl Hfb) as [_ Hs2].
  split; [by eapply reg_cols, (inv_reg v Hg)|keep (inv_tree v Hg)| |by eapply linked_edge|by eapply linked_pend| | |keep (inv_geo v Hg)|].
  - destruct (inv_own v Hg) as [O1 O2 O3 O4 O5 O6]. split; try assumption; unfold linked, relink; vsimpl; [|lia].
    intros b' Hb'. specialize (O5 b' Hb'). lia.
  - destruct (inv_ring v Hg) as [R1 R2 R3 R4]. split; try assumption. intros b' r Hr. change (v_bring v b' = Some r) in Hr. destruct (R2 b' r Hr) as (A1 & A2 & A3 & A4).
    unfold linked, relink. vsimpl. split_and!; [|done|lia|done]. rewrite fset_ne; [done|]. intros ->. congruence.
  - destruct (inv_thr v Hg) as [T1 T2 T3 T4 T5 T6]. split; try assumption. intros t p b' Ht. destruct (T4 t p b' Ht) as (A1 & A2 & A3).
    unfold linked, relink. vsimpl. split_and!; [done| |done]. rewrite fset_ne; [done|]. intros ->.
    by apply (unpinned v b i t p (inv_thr v Hg) Hi Hpins).
  - destruct (inv_map v Hg) as [M1 M2 M3 M4 M5]. split; try assumption. intros p m a Hm Ha.
    destruct (M1 p m a Hm Ha) as [?|(b' & i' & Hx & Hy)]; [by left|]. right. exists b', i'. split; [by apply Hs2|done].
Qed.

(** [b] is shared with [target], which sees it with the flag word [f]. *)
Definition shares v (b : Z) (i : binfo) (target f : Z) v' : Prop :=
  exists pv nx hd tl, notice (reflag target (i_base i) (i_base i + i_bytes i) f (linked v b (v_nref v) target (i_base i) pv nx hd tl)) v'.

(** What [umem_share] asks of the block and the target. *)
Record share_allowed v (p base target prot : Z) (b : Z) (i : binfo) : Prop := {
  sa_owner : v_owner v b = Some p;
  sa_info : v_info v b = Some i;
  sa_base : i_base i = base;
  sa_live : live v target /\ ~ eff_dead v target;
  sa_other : target <> p;
  sa_plain : v_bring v b = None /\ v_bpins v b = 0;
  sa_may : i_delegatable i = true /\ device_refuses (block_of v b i p) prot = false;
  sa_new : v_sharers v b !! target = None }.

Lemma owned_block v p base b : own_ok v -> v_pblocks v p !! base = Some b ->
  v_owner v b = Some p /\ exists i, v_info v b = Some i /\ i_base i = base.
Proof.
  intros Ho Hb. apply (own_index v Ho) in Hb as [Hp Hb]. unfold bbase in Hb. destruct (v_info v b) as [i|]; [|done].
  injection Hb as Hb. eauto.
Qed.

Lemma views_free v b i target : graph_inv v -> v_info v b = Some i -> v_sharers v b !! target = None ->
  v_views v target !! i_base i = None.
Proof.
  intros Hg Hi Hs. apply eq_None_not_Some. intros [e He]. apply (edge_views v (inv_edge v Hg)) in He as (Ht & b' & Hb & Hbb).
  assert (b' = b) as ->. { eapply base_inj; [apply Hg|done|]. unfold bbase. by rewrite Hi. }
  assert (v_sharers v b !! target = Some e) by (by apply (edge_sharers v (inv_edge v Hg))). congruence.
Qed.

(** The locks held are the only change. *)
Lemma set_held_back x l : set_held (x_held x) (set_held l x) = x.
Proof. by destruct x. Qed.

Lemma wp_unlock_two l l' {A} (a : A) Q v x : x_held x = [] -> rank l < rank l' -> Q a v x ->
  wp (_ ← unlock l'; _ ← unlock l; mret a) Q v (set_held [l'; l] x).
Proof.
  intros Hx Hl H. apply wp_bind. eapply wp_unlock_top; [done|by repeat constructor|].
  apply wp_bind. eapply wp_unlock_top; [done|by constructor|]. apply wp_ret. rewrite <-Hx. by destruct x.
Qed.

Lemma wp_share_locked p b i target prot m Q v x : inv v x -> share_allowed v p (i_base i) target prot b i ->
  v_map v p = Some m -> is_Some (v_map v target) -> prot ∈ prots -> prot <> 0 -> x_held x = [] ->
  (forall v' x', inv v' x' -> shares v b i target (with_cache_type (block_of v b i p) (Z.lor prot PAGE_U)) v' ->
     calm x x' -> Q 0 v' x') ->
  wp (e ← new_ref;
      _ ← modify (upd_k_edges (insert e (ShareEdge b target None None false)));
      _ ← mod_block b (upd_b_sharers (insert target e));
      _ ← pending_link e;
      _ ← umem_proc_unlock p;
      _ ← umem_proc_lock target;
      T ← get_proc target;
      _ ← insert_fresh (p_views T) (i_base i) "umem: view index insertion failed";
      _ ← mod_proc target (upd_p_views (insert (i_base i) e));
      _ ← umem_proc_unlock target;
      _ ← as_flag target (i_base i) (u64 (i_base i + i_bytes i)) (with_cache_type (block_of v b i p) (Z.lor prot PAGE_U));
      _ ← as_flush target;
      _ ← channel_edge_notify b e;
      _ ← umem_unlock;
      mret 0) Q v (set_held [LProc p; LUmem] x).
Proof.
  intros Hi [S1 S2 _ [S4 S4'] S5 [S6 S6'] [S7 S7'] S8] Hm [mt Hmt] Hprot Hnz Hx H. pose proof (inv_graph _ _ _ Hi) as Hg.
  destruct (inv_pend v Hg) as [L HL]. pose proof (own_counter v (inv_own v Hg)) as Hc.
  destruct (edge_fresh v (v_nref v) (inv_edge v Hg) ltac:(lia)) as [Hfb Hft].
  destruct (edged_queue v b (v_nref v) target L HL Hft) as [HQ Hfr].
  apply wp_bind, wp_new_ref. apply wp_bind, wp_new_edge. apply wp_bind, wp_b_sharers; [by eexists|]. apply wp_bind.
  eapply (wp_pending_link (v_nref v) b target L); [| |done| | | |exact HQ|exact Hfr| | |]; try (by vsimpl; rewrite fset_eq).
  { intros q q' e' [? _]%HL [? _]%HL. congruence. }
  { intros e' [He' _]%HL. vsimpl. rewrite fset_ne; [by apply (edge_ends v (inv_edge v Hg)); eexists|]. intros ->. congruence. }
  intros pv nx hd tl HQ'. apply wp_bind. eapply wp_unlock_top; [done|by repeat constructor|].
  apply wp_bind, wp_lock_below; [by repeat constructor|]. apply wp_bind. eapply wp_get_proc; [done|]. intros oa _.
  apply wp_bind, wp_asserts; [by apply bool_decide_eq_true, (views_free v b i)|].
  apply wp_bind, wp_p_views; [by eexists|]. apply wp_bind. eapply wp_unlock_top; [done|by repeat constructor|].
  rewrite (geo_end v b i (inv_geo v Hg) S2).
  assert (Hlk : graph_inv (linked v b (v_nref v) target (i_base i) pv nx hd tl)) by (by eapply graph_linked).
  eapply wp_reflag; [exact Hmt|done|by eapply block_range; [apply Hg|]|by apply view_flags_valid; [apply Hg|..]|
    apply (map_clean v (inv_map v Hg))|].
  set (f := with_cache_type _ _).
  assert (Hrf : graph_inv (reflag target (i_base i) (i_base i + i_bytes i) f (linked v b (v_nref v) target (i_base i) pv nx hd tl))).
  { eapply graph_reflag; [exact Hlk|exact (proj1 (sees_linked _ _ _ _ _ _ _ _ _ Hfb))|exact S2|lia|lia]. }
  apply wp_bind. eapply wp_edge_notify; [exact Hrf| | | | |].
  - eapply sched_ext; [| | |exact (inv_sched _ _ _ Hi)]; [done|done|]. intros q Hq. by apply reflag_maps.
  - unfold reflag, linked, relink. vsimpl. by rewrite fset_eq.
  - unfold reflag, linked, relink. vsimpl. by rewrite fset_eq.
  - by repeat constructor.
  - intros w y Hw Hn Hy Hcy. apply wp_bind. eapply wp_unlock_top; [by rewrite (calm_held _ _ Hcy)|by constructor|].
    pose proof (calm_relock [LUmem] x y Hcy) as Hcx. rewrite Hx in Hcx.
    apply wp_ret, H; [|by exists pv, nx, hd, tl|exact Hcx]. eapply (inv_step v x); [done..| | |exact Hcx].
    + eapply keeps_trans; [|by apply keeps_notice]. by split.
    + eapply sched_rest; [|exact Hy]. done.
Qed.

Lemma wp_share p base target prot m Q v x : inv v x -> v_map v p = Some m -> x_held x = [] -> prot ∈ prots -> prot <> 0 ->
  (forall rc, rc <> 0 -> Q rc v x) ->
  (forall b i v' x', share_allowed v p base target prot b i -> inv v' x' ->
     shares v b i target (with_cache_type (block_of v b i p) (Z.lor prot PAGE_U)) v' -> calm x x' -> Q 0 v' x') ->
  wp (umem_share p base target prot) Q v x.
Proof.
  intros Hi Hm Hx Hprot Hnz Hbad Hok. pose proof (inv_graph _ _ _ Hi) as Hg. pose proof (inv_live _ _ _ _ Hi Hm) as Hp.
  unfold umem_share, umem_owned_locked. ws. ws. destruct (_ || _); [by apply wp_ret, Hbad|].
  apply wp_bind, wp_lock_below; [rewrite Hx; constructor|]. vsimpl. rewrite Hx.
  apply wp_bind, wp_lock_below; [by repeat constructor|]. vsimpl.
  assert (Hend : forall rc, rc <> 0 -> wp (_ ← umem_proc_unlock p; _ ← umem_unlock; mret rc) Q v (set_held [LProc p; LUmem] x)).
  { intros rc Hrc. apply (wp_unlock_two LUmem (LProc p)); [done..|by apply Hbad]. }
  ws. vsimpl. apply wp_ret, wp_bind.
  apply wp_lookup; [apply Hg|apply Hg|intros Hlt Hdead|intros _; destruct (v_pblocks v p !! base); by apply Hend].
  destruct (v_pblocks v p !! base) as [b|] eqn:Eb; [|by apply Hend].
  destruct (owned_block v p base b (inv_own v Hg) Eb) as (Ho & i & Hbi & Hbase). ws.
  destruct (share_refused _ _ _ _) eqn:Eref; [by apply Hend|]. unfold share_refused in Eref. vsimpl_in Eref.
  rewrite !orb_false_iff in Eref. destruct Eref as ((((E1 & E2) & E3) & E4) & E5).
  apply wp_bind. eapply wp_get_proc; [exact Hlt|]. intros oat _. vsimpl.
  destruct (v_sharers v b !! target) as [e|] eqn:Esh.
  { rewrite bool_decide_true by eauto. by apply Hend. }
  rewrite bool_decide_false by (by apply eq_None_not_Some). subst base.
  assert (Hall : share_allowed v p (i_base i) target prot b i).
  { split; try done; [lia| |].
    - apply bool_decide_eq_false, eq_None_not_Some in E2. split; [done|lia].
    - split; [by destruct (i_delegatable i)|done]. }
  apply (wp_share_locked p b i target prot m Q v x); try done.
  - destruct (v_map v target) as [mt|] eqn:Emt; [eauto|]. destruct Hdead. by apply (reg_gone v (inv_reg v Hg)).
  - intros w y Hw Hsw Hcy. by eapply Hok.
Qed.

(** ** Withdrawing a share *)

(** The edge [e] of [b] towards [target] is gone. *)
Definition unlinked v (b e target base : Z) (pv nx hd tl : Z -> option Z) : gview :=
  drop_edge e (upd_v_sharers (fset b (delete target (v_sharers v b)))
    (relink (upd_v_views (fset target (delete base (v_views v target))) v) pv nx hd tl)).

Lemma unlinked_edge v b i e target pv nx hd tl : graph_inv v -> v_info v b = Some i -> v_eblock v e = Some b ->
  v_eto v e = Some target -> edge_ok (unlinked v b e target (i_base i) pv nx hd tl).
Proof.
  intros Hg Hi Heb Het. pose proof (inv_edge v Hg) as [E1 E2 E3 E4 E5 E6].
  assert (Hbb : bbase v b = Some (i_base i)) by (unfold bbase; by rewrite Hi).
  assert (Hsh : v_sharers v b !! target = Some e) by (by apply E1).
  assert (Hvw : v_views v target !! i_base i = Some e) by (apply E2; eauto).
  unfold unlinked, relink. split; vsimpl.
  - intros b' p e'. destruct (decide (e' = e)) as [->|Hne].
    + rewrite !fset_eq. split; [|by intros [? _]]. unfold fset. case_decide as Hb'.
      * subst b'. rewrite lookup_delete_Some. intros [? Hx%E1]. destruct Hx. congruence.
      * intros Hx%E1. destruct Hx. congruence.
    + rewrite !(fset_ne e e') by done. rewrite <-E1. unfold fset. case_decide as Hb'; [|done]. subst b'.
      rewrite lookup_delete_Some. split; [by intros [_ ?]|]. intros Hx. split; [|done]. congruence.
  - intros p base e'. change (bbase _) with (bbase v). destruct (decide (e' = e)) as [->|Hne].
    + rewrite !fset_eq. split; [|by intros [? _]]. unfold fset. case_decide as Hp.
      * subst p. rewrite lookup_delete_Some. intros [? Hx%E2]. destruct Hx as (_ & b' & ? & ?). congruence.
      * intros Hx%E2. destruct Hx. congruence.
    + rewrite !(fset_ne e e') by done. rewrite <-E2. unfold fset. case_decide as Hp; [|done]. subst p.
      rewrite lookup_delete_Some. split; [by intros [_ ?]|]. intros Hx. split; [|done]. congruence.
  - intros e'. unfold fset. case_decide; [|apply E3]. split; by intros [].
  - intros e' b'. unfold fset. case_decide; [done|]. apply E4.
  - intros e' p. unfold fset. case_decide; [done|]. apply E5.
  - intros e' b' p. unfold fset. case_decide; [done|]. apply E6.
Qed.

Lemma unlinked_pend v b e target base pv nx hd tl :
  pending_but (relink (upd_v_views (fset target (delete base (v_views v target))) v) pv nx hd tl) e ->
  pend_ok (unlinked v b e target base pv nx hd tl).
Proof.
  intros (L & HQ & Hin). assert (Hn : forall q, e ∉ L q) by (intros q [_ [_ ?]]%Hin; done). exists L. split.
  - intros q. eapply (queue_off _ _ e); [| | |by apply Hn|apply HQ]; unfold unlinked, relink; vsimpl; [done..|].
    intros e' He'. by rewrite !fset_ne.
  - intros q e'. rewrite Hin. unfold unlinked, relink. vsimpl. destruct (decide (e' = e)) as [->|Hne].
    + rewrite !fset_eq. split; [tauto|]. by intros [? _].
    + rewrite !fset_ne by done. tauto.
Qed.

Lemma rest_unlinked v b i e target pv nx hd tl : graph_inv v -> v_info v b = Some i -> v_eblock v e = Some b ->
  v_eto v e = Some target ->
  pending_but (relink (upd_v_views (fset target (delete (i_base i) (v_views v target))) v) pv nx hd tl) e ->
  graph_rest (unlinked v b e target (i_base i) pv nx hd tl).
Proof.
  intros Hg Hi Heb Het HP.
  assert (Hne : v_sharers v b <> ∅).
  { intros E. assert (v_sharers v b !! target = Some e) as Hs by (by apply (edge_sharers v (inv_edge v Hg))).
    by rewrite E, lookup_empty in Hs. }
  split; [by eapply reg_cols, (inv_reg v Hg)|keep (inv_tree v Hg)|keep (inv_own v Hg)|by apply unlinked_edge|
    by apply unlinked_pend| | |keep (inv_geo v Hg)].
  - destruct (inv_ring v Hg) as [R1 R2 R3 R4]. split; try assumption. intros b' r Hr. change (v_bring v b' = Some r) in Hr.
    destruct (R2 b' r Hr) as (A1 & A2 & A3 & A4). unfold unlinked, relink. vsimpl. split_and!; try done.
    rewrite fset_ne; [done|]. by intros ->.
  - destruct (inv_thr v Hg) as [T1 T2 T3 T4 T5 T6]. split; try assumption. intros t p b' Ht. destruct (T4 t p b' Ht) as (A1 & A2 & A3).
    unfold unlinked, relink. vsimpl. split_and!; try done. rewrite fset_ne; [done|]. by intros ->.
Qed.

(** Who sees what after the withdrawal. *)
Lemma sees_unlinked v b e target base pv nx hd tl p b' : edge_ok v -> v_eblock v e = Some b -> v_eto v e = Some target ->
  (p <> target \/ b' <> b) -> sees v p b' -> sees (unlinked v b e target base pv nx hd tl) p b'.
Proof.
  intros He Heb Het Hne [?|(e' & H1 & H2)]; [by left|]. right. exists e'. unfold unlinked, relink. vsimpl.
  rewrite !fset_ne; [done|..]; intros ->; rewrite Heb in H1; rewrite Het in H2; destruct Hne; congruence.
Qed.

(** A map that shows a block as the kernel sees it need not see the block. *)
Lemma shown_kernel i : block_ok i -> shown (i_kernel_flags i) = i_kernel_flags i.
Proof.
  intros [_ _ (_ & _ & Hr) _]. unfold shown. destruct (Z.eqb_spec (Z.land (i_kernel_flags i) 15) 0) as [E|E]; [|done].
  exfalso. unfold has, nz in Hr. destruct (Z.eqb_spec (Z.land (i_kernel_flags i) PAGE_R) 0) as [E'|E']; [done|].
  apply E'. change PAGE_R with (Z.land 15 1). by rewrite Z.land_assoc, E.
Qed.

Lemma graph_unshared v b i e target pv nx hd tl : graph_inv v -> v_info v b = Some i -> v_eblock v e = Some b ->
  v_eto v e = Some target ->
  pending_but (relink (upd_v_views (fset target (delete (i_base i) (v_views v target))) v) pv nx hd tl) e ->
  graph_inv (reflag target (i_base i) (i_base i + i_bytes i) (i_kernel_flags i) (unlinked v b e target (i_base i) pv nx hd tl)).
Proof.
  intros Hg Hi Heb Het HP. apply graph_split. split.
  { apply rest_remap; [by apply rest_unlinked|].
    intros q. split; [eapply reflag_maps_inv|apply reflag_maps]. }
  pose proof (inv_map v Hg) as [M1 M2 M3 M4 M5]. pose proof (geo_block v (inv_geo v Hg) b i Hi) as Hblk.
  split; try assumption. intros q m a Hm Ha. unfold reflag, unlinked, relink in Hm. vsimpl_in Hm.
  destruct (decide (q = target)) as [->|Hq].
  - rewrite fset_eq in Hm. destruct (v_map v target) as [m0|] eqn:Em; [|done]. injection Hm as <-.
    destruct (decide (i_base i <= a < i_base i + i_bytes i)) as [Hin|Hout].
    + left. rewrite flagged_in by done. rewrite shown_kernel by done. symmetry. by apply (M3 b i).
    + rewrite flagged_out by done. destruct (M1 target m0 a Em Ha) as [?|(b' & i' & Hs & Hi' & Hin)]; [by left|].
      right. exists b', i'. split; [|done]. apply sees_reflag, (sees_unlinked v b e target); [apply Hg|done|done| |done].
      right. intros ->. rewrite Hi in Hi'. injection Hi' as <-. done.
  - rewrite fset_ne in Hm by done. destruct (M1 q m a Hm Ha) as [?|(b' & i' & Hs & Hi')]; [by left|].
    right. exists b', i'. split; [|done]. apply sees_reflag, (sees_unlinked v b e target); [apply Hg|done|done|by left|done].
Qed.

(** [b] is withdrawn from [target], whose tree shows it as the kernel does again. *)
Definition unshares v (b : Z) (i : binfo) (target : Z) v' : Prop :=
  exists e pv nx hd tl, v_sharers v b !! target = Some e /\
    v' = reflag target (i_base i) (i_base i + i_bytes i) (i_kernel_flags i) (unlinked v b e target (i_base i) pv nx hd tl).

Lemma wp_sharer_remove b i o pid e msg Q v x : v_info v b = Some i -> v_owner v b = Some o -> v_sharers v b !! pid = Some e ->
  Q tt (drop_edge e (upd_v_sharers (fset b (delete pid (v_sharers v b))) v)) x -> wp (sharer_remove b pid msg) Q v x.
Proof. intros Hi Ho Hs H. unfold sharer_remove. ws. vsimpl. rewrite Hs. ws. by ws. Qed.

Lemma wp_edge_remove b i e target Q v x : graph_inv v -> v_info v b = Some i -> v_eblock v e = Some b -> v_eto v e = Some target ->
  (forall v', graph_inv v' -> unshares v b i target v' -> Q tt v' x) ->
  wp (edge_remove b e target) Q (upd_v_views (fset target (delete (i_base i) (v_views v target))) v) x.
Proof.
  intros Hg Hbi Heb Het H.
  assert (Hsh : v_sharers v b !! target = Some e) by (by apply (edge_sharers v (inv_edge v Hg))).
  destruct (edge_facts v e target Hg Het) as (b' & i' & o & Heb' & Hi' & Ho & Hlo & Hlt).
  rewrite Heb in Heb'. injection Heb' as <-. rewrite Hbi in Hi'. injection Hi' as <-.
  destruct (edge_as v (inv_edge v Hg) e target Het) as [m Hm].
  unfold edge_remove. apply wp_bind. eapply (wp_unlink e b target); [| |exact Heb|exact Het|exact Hlt|].
  { by apply (pend_links v), eq_refl; [apply Hg|..]. }
  { intros e'. apply (edge_ends v (inv_edge v Hg)). }
  intros pv nx hd tl HP. apply wp_bind. eapply wp_get_proc; [exact Hlt|]. intros oa _. vsimpl. unfold relink.
  apply wp_bind. eapply wp_sharer_remove; [exact Hbi|exact Ho|vsimpl; exact Hsh|]. apply wp_bind.
  eapply wp_get_block; [exact Hbi|exact Ho|]. vsimpl. rewrite (geo_end v b i (inv_geo v Hg) Hbi).
  eapply wp_reflag_end; [exact Hm|exact Hlt|by eapply block_range; [apply Hg|]|apply (blk_kernel i (geo_block v (inv_geo v Hg) b i Hbi))|
    apply (map_clean v (inv_map v Hg))|].
  apply H; [by apply (graph_unshared v b i e target pv nx hd tl)|]. exists e, pv, nx, hd, tl. split; [done|]. reflexivity.
Qed.

Lemma wp_unlock_one l {A} (a : A) Q v x : x_held x = [] -> Q a v x -> wp (_ ← unlock l; mret a) Q v (set_held [l] x).
Proof.
  intros Hx H. apply wp_bind. eapply wp_unlock_top; [done|by constructor|]. apply wp_ret. rewrite <-Hx. by destruct x.
Qed.

Lemma unshares_keeps v b i target v' : unshares v b i target v' -> keeps v v'.
Proof. intros (e & pv & nx & hd & tl & _ & ->). unfold reflag, unlinked, relink. split; vsimpl; done. Qed.

Lemma unshares_sched v b i target v' x C D : unshares v b i target v' -> sched_inv v x C D -> sched_inv v' x C D.
Proof.
  intros (e & pv & nx & hd & tl & _ & ->). apply sched_ext; [done| |].
  - unfold reflag, unlinked, relink. by vsimpl.
  - intros p Hp. apply reflag_maps. unfold unlinked, relink. by vsimpl.
Qed.

(** The end of both withdrawals: the view entry, the edge, the tree. *)
Lemma wp_withdraw b i e target Q v x : inv v x -> v_info v b = Some i -> v_eblock v e = Some b -> v_eto v e = Some target ->
  x_held x = [] -> (forall v', inv v' x -> unshares v b i target v' -> Q 0 v' x) ->
  wp (_ ← remove_exact (v_views v target) (i_base i) e "umem: view index removal failed";
      _ ← mod_proc target (upd_p_views (delete (i_base i)));
      _ ← umem_proc_unlock target;
      _ ← edge_remove b e target;
      _ ← umem_unlock;
      mret 0) Q v (set_held [LProc target; LUmem] x).
Proof.
  intros Hi Hbi Heb Het Hx H. pose proof (inv_graph _ _ _ Hi) as Hg.
  destruct (edge_facts v e target Hg Het) as (_ & _ & _ & _ & _ & _ & _ & Hlt).
  assert (Hvw : v_views v target !! i_base i = Some e).
  { apply (edge_views v (inv_edge v Hg)). split; [done|]. exists b. split; [done|]. unfold bbase. by rewrite Hbi. }
  apply wp_bind, wp_asserts; [by apply bool_decide_eq_true|]. apply wp_bind, wp_p_views; [by eexists|].
  apply wp_bind. eapply wp_unlock_top; [done|by repeat constructor|]. apply wp_bind.
  eapply wp_edge_remove; [done..|]. intros w Hw Hu. apply (wp_unlock_one LUmem 0 Q w x Hx), H; [|done].
  eapply (inv_step v x); [done|done|by eapply unshares_keeps| |apply calm_refl].
  eapply unshares_sched; [done|apply Hi].
Qed.

Lemma wp_dropshare caller base pid m Q v x : inv v x -> v_map v caller = Some m -> x_held x = [] ->
  (forall rc, rc <> 0 -> Q rc v x) ->
  (forall target b i v', target = caller \/ reaps v caller target -> v_info v b = Some i -> i_base i = base ->
     inv v' x -> unshares v b i target v' -> Q 0 v' x) ->
  wp (umem_dropshare caller base pid) Q v x.
Proof.
  intros Hi Hm Hx Hbad Hok. pose proof (inv_graph _ _ _ Hi) as Hg. pose proof (inv_live _ _ _ _ Hi Hm) as Hp.
  unfold umem_dropshare. apply wp_bind, wp_lock_below; [rewrite Hx; constructor|]. vsimpl. rewrite Hx. ws. vsimpl.
  assert (Hend : forall rc, rc <> 0 -> wp (_ ← umem_unlock; mret rc) Q v (set_held [LUmem] x)).
  { intros rc Hrc. apply wp_unlock_one; [done|by apply Hbad]. }
  assert (Hgo : forall target, target = caller \/ reaps v caller target -> live v target ->
    wp (_ ← umem_proc_lock target; T ← get_proc target;
        match p_views T !! base with
        | None => _ ← umem_proc_unlock target; _ ← umem_unlock; mret SYSERR_INVAL
        | Some e =>
            E ← get_edge e;
            _ ← remove_exact (p_views T) base e "umem: view index removal failed";
            _ ← mod_proc target (upd_p_views (delete base));
            _ ← umem_proc_unlock target;
            _ ← edge_remove (e_block E) e target;
            _ ← umem_unlock;
            mret 0
        end) Q v (set_held [LUmem] x)).
  { intros target Hauth Hlt. apply wp_bind, wp_lock_below; [by repeat constructor|]. vsimpl.
    apply wp_bind. eapply wp_get_proc; [exact Hlt|]. intros oat _. vsimpl.
    destruct (v_views v target !! base) as [e|] eqn:Ee.
    - apply (edge_views v (inv_edge v Hg)) in Ee as (Het & b & Heb & Hbb). unfold bbase in Hbb.
      destruct (v_info v b) as [i|] eqn:Hbi; [|done]. injection Hbb as Hbb. subst base. ws. vsimpl.
      apply (wp_withdraw b i e target Q v x); try done. intros w Hw Hu. by eapply Hok.
    - apply (wp_unlock_two LUmem (LProc target) SYSERR_INVAL Q v x); [done|done|by apply Hbad]. }
  apply wp_bind. destruct ((pid =? 0) || (pid =? caller)) eqn:Epid.
  - apply wp_ret, wp_bind. rewrite Z.eqb_refl. apply wp_ret. apply Hgo; [by left|done].
  - apply wp_lookup_any; [apply Hg|intros Hl|intros _; apply wp_bind, wp_ret; by apply Hend].
    apply wp_bind. destruct (Z.eqb_spec pid caller) as [->|Hne]; [apply wp_ret, Hgo; [by left|done]|].
    apply wp_reaper; [apply Hg|apply Hg|done|]. intros [] Hr; [|by apply Hend].
    apply Hgo; [right; by apply Hr|done].
Qed.

(** [caller] may act on what [o] owns. *)
Definition authority v (caller o : Z) : Prop := o = caller \/ reaps v caller o.

Lemma wp_resource_block caller base Q v x : graph_inv v ->
  Q None v x -> (forall b i o, v_info v b = Some i -> i_base i = base -> v_owner v b = Some o -> live v o -> authority v caller o -> Q (Some b) v x) ->
  wp (umem_resource_block_locked caller base) Q v x.
Proof.
  intros Hg Hnone Hsome. unfold umem_resource_block_locked, find_owned_global_locked.
  apply wp_bind. eapply (wp_gets _ (v_gblocks v !! base)); [by intros s <- _|].
  destruct (v_gblocks v !! base) as [b|] eqn:Eb; [|by apply wp_ret].
  apply (own_global v (inv_own v Hg)) in Eb. unfold bbase in Eb. destruct (v_info v b) as [i|] eqn:Hbi; [|done]. injection Eb as Eb.
  destruct (graph_owner v b i Hg Hbi) as (o & Ho & Hlo). ws. vsimpl. unfold resource_authorized. apply wp_bind.
  destruct (Z.eqb_spec caller o) as [->|Hne].
  - apply wp_ret, wp_ret. eapply Hsome; try done. by left.
  - apply wp_reaper; [apply Hg|apply Hg|done|]. intros [] Hr; apply wp_ret; [|done].
    eapply Hsome; try done. right. by apply Hr.
Qed.

Lemma wp_unshare caller base pid m Q v x : inv v x -> v_map v caller = Some m -> x_held x = [] ->
  (forall rc, rc <> 0 -> Q rc v x) ->
  (forall b i o v', v_info v b = Some i -> i_base i = base -> v_owner v b = Some o -> authority v caller o ->
     inv v' x -> unshares v b i pid v' -> Q 0 v' x) ->
  wp (umem_unshare caller base pid) Q v x.
Proof.
  intros Hi Hm Hx Hbad Hok. pose proof (inv_graph _ _ _ Hi) as Hg. pose proof (inv_live _ _ _ _ Hi Hm) as Hp.
  unfold umem_unshare. apply wp_bind, wp_lock_below; [rewrite Hx; constructor|]. vsimpl. rewrite Hx.
  assert (Hend : forall rc, rc <> 0 -> wp (_ ← umem_unlock; mret rc) Q v (set_held [LUmem] x)).
  { intros rc Hrc. apply wp_unlock_one; [done|by apply Hbad]. }
  apply wp_bind, wp_resource_block; [done|by apply Hend|]. intros b i o Hbi Hbase Ho Hlo Hauth. subst base.
  apply wp_bind, wp_lookup_any; [apply Hg|intros Hl|intros _; apply wp_bind; eapply wp_get_block; [done..|]; by apply Hend].
  ws. vsimpl. destruct (v_sharers v b !! pid) as [e|] eqn:Ee; [|by apply Hend].
  apply (edge_sharers v (inv_edge v Hg)) in Ee as [Heb Het].
  apply wp_bind, wp_lock_below; [by repeat constructor|]. vsimpl. apply wp_bind. eapply wp_get_proc; [exact Hl|]. intros oa _. vsimpl.
  apply (wp_withdraw b i e pid Q v x); try done. intros w Hw Hu. by eapply Hok.
Qed.

(** ** Enumeration *)

Lemma wp_enum_subject caller pid m Q v x : inv v x -> v_map v caller = Some m ->
  Q None v x -> (forall target, live v target -> authority v caller target -> Q (Some target) v x) ->
  wp (enum_subject_locked caller pid) Q v x.
Proof.
  intros Hi Hm Hnone Hsome. pose proof (inv_graph _ _ _ Hi) as Hg. pose proof (inv_live _ _ _ _ Hi Hm) as Hp.
  unfold enum_subject_locked. ws. vsimpl. destruct (_ || _); [apply wp_ret, Hsome; [done|by left]|].
  apply wp_bind, wp_lookup_any; [apply Hg|intros Hl|intros _; by apply wp_ret].
  apply wp_bind, wp_reaper; [apply Hg|apply Hg|done|]. intros [] Hr; apply wp_ret; [|done].
  apply Hsome; [done|]. right. by apply Hr.
Qed.

Lemma inv_mem v x f : inv v x -> inv v (set_mem f x).
Proof. intros Hi. eapply inv_same; [done| |apply calm_set_mem]. eapply sched_rest; [|exact (inv_sched _ _ _ Hi)]; done. Qed.

Lemma wp_copyout caller buf cap vals m Q v x : inv v x -> v_map v caller = Some m -> held_below 1 (x_held x) ->
  0 <= buf < 2 ^ 64 -> 0 <= cap -> (forall rc, Q rc v x) ->
  (forall f, Q (Z.of_nat (length vals)) v (set_mem f x)) ->
  wp (umem_enum_copyout_locked caller buf cap vals) Q v x.
Proof.
  intros Hi Hm Hh Hbuf Hcap Hbad Hok. pose proof (inv_graph _ _ _ Hi) as Hg. pose proof (inv_live _ _ _ _ Hi Hm) as Hp.
  eapply wp_cpu; [apply Hi|]. intros Hcpu. unfold umem_enum_copyout_locked.
  destruct (_ || _); [by apply wp_ret|]. apply wp_bind, wp_lock_below; [done|].
  apply wp_bind. eapply wp_view; [apply Hg|apply Hg|apply Hg|done|lia|lia|]. intros ob _. apply wp_bind.
  assert (Hend : forall f rc, Q rc v (set_mem f x) -> wp (_ ← umem_proc_unlock caller; mret rc) Q v (set_mem f (set_held (LProc caller :: x_held x) x))).
  { intros f rc HQ. apply wp_bind. eapply wp_unlock_top; [done|done|]. apply wp_ret. by destruct x. }
  assert (Hrest : forall ok : bool, wp (if negb ok then _ ← umem_proc_unlock caller; mret SYSERR_FAULT
    else _ ← when (negb (Z.of_nat (length vals) =? 0)) (store_bytes buf (mjoin (le_encode 8 <$> vals)));
         _ ← umem_proc_unlock caller; mret (Z.of_nat (length vals))) Q v (set_held (LProc caller :: x_held x) x)).
  { intros []; cbn [negb].
    - apply wp_bind, wp_when; intros _; [apply wp_store_bytes; [done|]; by apply Hend|].
      apply (Hend (fun y => y)). apply Hok.
    - apply (Hend (fun y => y)). destruct x; apply Hbad. }
  destruct (bool_decide (is_Some ob)); [|apply wp_ret, (Hrest false)].
  eapply wp_user_range; [apply Hg|apply Hg|exact Hm|done|done|lia|]. intros b _. apply Hrest.
Qed.

Lemma wp_unlock_mem l f {A} (a : A) Q v x : x_held x = [] -> Q a v (set_mem f x) ->
  wp (_ ← unlock l; mret a) Q v (set_mem f (set_held [l] x)).
Proof.
  intros Hx H. apply wp_bind. eapply wp_unlock_top; [done|by constructor|]. apply wp_ret. rewrite <-Hx. by destruct x.
Qed.

Lemma inv_held v x h : inv v x -> inv v (set_held h x).
Proof.
  intros [I1 I2 I3 I4 I5]. split; [done| | |done|].
  - eapply pool_frame; [..|exact I2]; done.
  - eapply sched_rest; [|exact I3]. done.
  - eapply scheme_ext; [..|exact I5]; done.
Qed.

(** Enumerations change nothing but the caller's buffer. *)
Lemma wp_enum_end caller buf cap vals m Q v x : inv v x -> v_map v caller = Some m -> x_held x = [] ->
  0 <= buf < 2 ^ 64 -> 0 <= cap -> (forall rc f, Q rc v (set_mem f x)) ->
  wp (rc ← umem_enum_copyout_locked caller buf cap vals; _ ← umem_unlock; mret rc) Q v (set_held [LUmem] x).
Proof.
  intros Hi Hm Hx Hbuf Hcap H. apply wp_bind.
  eapply wp_copyout; [by apply inv_held|done|by repeat constructor|done|done|..].
  - intros rc. apply (wp_unlock_mem LUmem (fun y => y)); [done|]. apply H.
  - intros f. by apply (wp_unlock_mem LUmem f).
Qed.

Lemma wp_enum caller pid m (k : Z -> M Z) Q v x : inv v x -> v_map v caller = Some m -> x_held x = [] ->
  (forall rc f, Q rc v (set_mem f x)) ->
  (forall target, live v target -> authority v caller target -> wp (k target) Q v (set_held [LUmem] x)) ->
  wp (_ ← umem_lock;
      ot ← enum_subject_locked caller pid;
      match ot with None => _ ← umem_unlock; mret SYSERR_PERM | Some target => k target end) Q v x.
Proof.
  intros Hi Hm Hx H Hk. apply wp_bind, wp_lock_below; [rewrite Hx; constructor|]. vsimpl. rewrite Hx.
  apply wp_bind. eapply wp_enum_subject; [by apply inv_held|done| |done].
  apply (wp_unlock_mem LUmem (fun y => y)); [done|]. apply H.
Qed.

Lemma set_mem_id x : set_mem (fun y => y) x = x.
Proof. by destruct x. Qed.

(** A list read under the process lock. *)
Lemma wp_list_read target (sel : process -> list Z) (k : list Z -> M Z) Q v x : live v target ->
  (forall vals, wp (k vals) Q v (set_held [LUmem] x)) ->
  wp (_ ← umem_proc_lock target; T ← get_proc target; _ ← umem_proc_unlock target; k (sel T)) Q v (set_held [LUmem] x).
Proof.
  intros Hl H. apply wp_bind, wp_lock_below; [by repeat constructor|]. apply wp_bind. eapply wp_get_proc; [exact Hl|].
  intros oa _. apply wp_bind. eapply wp_unlock_top; [done|by repeat constructor|]. apply H.
Qed.

Section Enum.
Context (caller buf cap after : Z) (m : Z -> Z) (v : gview) (x : rest) (Q : Z -> gview -> rest -> Prop).
Context (Hi : inv v x) (Hm : v_map v caller = Some m) (Hx : x_held x = []) (Hbuf : 0 <= buf < 2 ^ 64) (Hcap : 0 <= cap).
Context (HQ : forall rc f, Q rc v (set_mem f x)).

Lemma wp_enum_blocks pid : wp (umem_enum_blocks caller pid buf cap after) Q v x.
Proof.
  unfold umem_enum_blocks. destruct (_ || _); [apply wp_ret; rewrite <-(set_mem_id x); apply HQ|].
  eapply wp_enum; [done..|]. intros target Hl _. apply (wp_list_read target (fun T => keys_after (p_blocks T) after (Z.to_nat cap))
    (fun vals => rc ← umem_enum_copyout_locked caller buf cap vals; _ ← umem_unlock; mret rc)); [done|].
  intros vals. by eapply wp_enum_end.
Qed.

Lemma wp_enum_views pid : wp (umem_enum_views caller pid buf cap after) Q v x.
Proof.
  unfold umem_enum_views. destruct (_ || _); [apply wp_ret; rewrite <-(set_mem_id x); apply HQ|].
  eapply wp_enum; [done..|]. intros target Hl _. apply (wp_list_read target (fun T => keys_after (p_views T) after (Z.to_nat cap))
    (fun vals => rc ← umem_enum_copyout_locked caller buf cap vals; _ ← umem_unlock; mret rc)); [done|].
  intros vals. by eapply wp_enum_end.
Qed.

Lemma wp_enum_sharers base : wp (umem_enum_sharers caller base buf cap after) Q v x.
Proof.
  unfold umem_enum_sharers. destruct (_ || _); [apply wp_ret; rewrite <-(set_mem_id x); apply HQ|].
  apply wp_bind, wp_lock_below; [rewrite Hx; constructor|]. vsimpl. rewrite Hx. apply wp_bind, wp_resource_block; [apply Hi| |].
  - apply (wp_unlock_mem LUmem (fun y => y)); [done|]. apply HQ.
  - intros b i o Hbi _ Ho _ _. ws. by eapply wp_enum_end.
Qed.

End Enum.

(** ** A new block *)

Definition of_info (i : binfo) (owner : Z) : ublock :=
  Ublock (i_base i) (i_order i) (i_bytes i) (i_backing i) (i_device_flags i) (i_kernel_flags i) (i_delegatable i) owner ∅ None None 0.

(** Block [b] described by [i] comes into being, owned by [p]. *)
Definition born v (b p : Z) (i : binfo) : gview :=
  upd_v_gblocks (insert (i_base i) b) (upd_v_pblocks (fset p (<[i_base i := b]> (v_pblocks v p)))
    (put_block b (of_info i p) (upd_v_nref Z.succ v))).

(** No existing block touches [i]. *)
Definition clear_of v (i : binfo) : Prop := forall b' i' a, v_info v b' = Some i' -> in_block i a -> ~ in_block i' a.

Lemma block_fresh v b : graph_rest v -> ~ b < v_nref v ->
  v_info v b = None /\ v_owner v b = None /\ (forall e, v_eblock v e <> Some b) /\ (forall r, v_rblock v r <> Some b) /\
  v_bring v b = None /\ pinning v b = ∅.
Proof.
  intros Hg Hb. assert (Hi : v_info v b = None).
  { apply eq_None_not_Some. intros Hi. pose proof (own_ref v (gr_own v Hg) b Hi). lia. }
  assert (Hbr : v_bring v b = None).
  { apply eq_None_not_Some. intros [r Hr]. destruct (ring_private v (gr_ring v Hg) b r Hr) as (_ & _ & _ & i & ? & _). congruence. }
  split_and!; [done| | | |done|].
  - apply eq_None_not_Some. intros Ho. apply (own_info v (gr_own v Hg)) in Ho. rewrite Hi in Ho. by destruct Ho.
  - intros e He. destruct (edge_block v (gr_edge v Hg) e b He) as [Hx _]. rewrite Hi in Hx. by destruct Hx.
  - intros r Hr. apply (ring_block v (gr_ring v Hg)) in Hr. congruence.
  - apply map_empty. intros t. apply eq_None_not_Some. intros [[q cb] Ht]. apply map_lookup_filter_Some in Ht as [Ht Hcb].
    simpl in Hcb. subst cb. destruct (thr_pin v (gr_thr v Hg) t q b Ht) as [Ho _].
    assert (is_Some (v_info v b)) as Hx by (apply (own_info v (gr_own v Hg)); eauto). rewrite Hi in Hx. by destruct Hx.
Qed.

Lemma born_bbase v b p i b' : bbase (born v b p i) b' = if decide (b' = b) then Some (i_base i) else bbase v b'.
Proof. unfold bbase, born. vsimpl. unfold fset. by case_decide. Qed.

Lemma clear_base v i b' base : graph_rest v -> block_ok i -> clear_of v i -> bbase v b' = Some base -> base <> i_base i.
Proof.
  intros Hg Hb Hc Hbb ->. unfold bbase in Hbb. destruct (v_info v b') as [i'|] eqn:Ei; [|done]. injection Hbb as E.
  destruct (blk_range i Hb) as (? & ? & ?). destruct (blk_range i' (geo_block v (gr_geo v Hg) b' i' Ei)) as (? & ? & ?).
  apply (Hc b' i' (i_base i) Ei); unfold in_block; lia.
Qed.

Lemma born_own v b p i : graph_rest v -> block_ok i -> clear_of v i -> b = v_nref v -> is_Some (v_map v p) -> own_ok (born v b p i).
Proof.
  intros Hg Hblk Hclr Eb Hp. destruct (block_fresh v b Hg ltac:(lia)) as (F1 & F2 & _).
  pose proof (gr_own v Hg) as [O1 O2 O3 O4 O5 O6]. split.
  - intros q base b'. rewrite born_bbase. unfold born. vsimpl. unfold fset at 1 2.
    destruct (decide (q = p)) as [->|Hq], (decide (b' = b)) as [->|Hb'].
    + rewrite lookup_insert_Some. split; [intros [[<- _]|[_ Hx%O1]]; [done|destruct Hx; congruence]|]. intros [_ [= <-]]. by left.
    + rewrite lookup_insert_Some, <-O1. split; [intros [[_ ?]|[_ ?]]; congruence|]. intros Hx. right. split; [|done].
      intros <-. apply O1 in Hx as [_ Hx]. by eapply clear_base in Hx.
    + rewrite O1. split; [intros [? _]; congruence|]. intros [[= <-] _]. done.
    + by rewrite O1.
  - intros base b'. rewrite born_bbase. unfold born. vsimpl. rewrite lookup_insert_Some. case_decide as Hb'.
    + subst b'. split; [intros [[<- _]|[_ Hx%O2]]; [done|]|intros [= <-]; by left].
      unfold bbase in Hx. by rewrite F1 in Hx.
    + rewrite <-O2. split; [intros [[_ ?]|[_ ?]]; congruence|]. intros Hx. right. split; [|done].
      intros <-. apply O2 in Hx. by eapply clear_base in Hx.
  - intros b' q. unfold born. vsimpl. unfold fset. case_decide; [by intros [= <-]|apply O3].
  - intros b'. unfold born. vsimpl. unfold fset. case_decide; [|apply O4]. split; intros _; eauto.
  - intros b'. unfold born. vsimpl. unfold fset. case_decide; [lia|]. intros Hx%O5. lia.
  - unfold born. vsimpl. lia.
Qed.

Lemma born_edge v b p i : graph_rest v -> b = v_nref v -> edge_ok (born v b p i).
Proof.
  intros Hg Eb. destruct (block_fresh v b Hg ltac:(lia)) as (F1 & F2 & F3 & _).
  pose proof (gr_edge v Hg) as [E1 E2 E3 E4 E5 E6]. split.
  - intros b' q e. unfold born. vsimpl. unfold fset. case_decide; [|apply E1]. subst b'. simpl. rewrite lookup_empty.
    split; [done|]. intros [Hx _]. by destruct (F3 e).
  - intros q base e. rewrite (E2 q base e). split; intros (H1 & b' & H2 & H3); (split; [done|]); exists b'; (split; [done|]).
    + rewrite born_bbase, decide_False; [done|]. intros ->. by destruct (F3 e).
    + rewrite born_bbase, decide_False in H3; [done|]. intros ->. by destruct (F3 e).
  - exact E3.
  - intros e b' He. destruct (E4 e b' He) as [? ?]. unfold born. vsimpl. split; [|lia].
    unfold fset. case_decide; [eauto|done].
  - exact E5.
  - intros e b' q He Ht. unfold born. vsimpl. rewrite fset_ne; [by apply (E6 e)|]. intros ->. by destruct (F3 e).
Qed.

Lemma born_ring v b p i : graph_rest v -> b = v_nref v -> ring_ok (born v b p i).
Proof.
  intros Hg Eb. destruct (block_fresh v b Hg ltac:(lia)) as (F1 & F2 & F3 & F4 & F5 & F6).
  pose proof (gr_ring v Hg) as [R1 R2 R3 R4]. split.
  - intros b' r. unfold born. vsimpl. unfold fset. case_decide; [|apply R1]. subst b'. split; [done|]. intros Hx. by destruct (F4 r).
  - intros b' r Hr. unfold born in Hr. vsimpl_in Hr. unfold fset in Hr. case_decide as Hb; [done|].
    destruct (R2 b' r Hr) as (A1 & A2 & A3 & A4). unfold born. vsimpl. rewrite !fset_ne by done. split_and!; [done|done|lia|done].
  - exact R3.
  - intros a q r. change (v_anchor (born v b p i) a q) with (v_anchor v a q). rewrite R4.
    split; intros (b' & H1 & H2 & H3); exists b'; (split; [done|]); (split; [|exact H3]).
    + unfold born. vsimpl. rewrite fset_ne; [done|]. intros ->. by destruct (F4 r).
    + unfold born in H2. vsimpl_in H2. rewrite fset_ne in H2; [done|]. intros ->. by destruct (F4 r).
Qed.

Lemma born_thr v b p i : graph_rest v -> b = v_nref v -> thr_ok (born v b p i).
Proof.
  intros Hg Eb. destruct (block_fresh v b Hg ltac:(lia)) as (F1 & F2 & F3 & F4 & F5 & F6).
  pose proof (gr_thr v Hg) as [T1 T2 T3 T4 T5 T6]. split; [exact T1|exact T2|exact T3| | |exact T6].
  - intros t q b' Ht. destruct (T4 t q b' Ht) as (A1 & A2 & A3). unfold born. vsimpl.
    assert (b' <> b) by congruence. by rewrite !fset_ne.
  - intros b'. change (pinning (born v b p i) b') with (pinning v b'). unfold born. vsimpl. unfold fset. case_decide; [|apply T5].
    subst b'. rewrite F6. by rewrite map_size_empty.
Qed.

Lemma rest_born v b p i : graph_rest v -> block_ok i -> clear_of v i -> b = v_nref v -> is_Some (v_map v p) ->
  graph_rest (born v b p i).
Proof.
  intros Hg Hblk Hclr Eb Hp. destruct (block_fresh v b Hg ltac:(lia)) as (F1 & _).
  split; [eapply reg_cols, (gr_reg v Hg); done|keep (gr_tree v Hg)|by apply born_own|by apply born_edge| |by apply born_ring|by apply born_thr|].
  - by apply (pend_links v), eq_refl; [apply Hg|..].
  - pose proof (gr_geo v Hg) as [G1 G2]. split.
    + intros b' i'. unfold born. vsimpl. unfold fset. case_decide; [intros [= <-]; by destruct i|apply G1].
    + intros b1 b2 i1 i2 a. unfold born. vsimpl. unfold fset.
      assert (E : info_of (of_info i p) = i) by (by destruct i). rewrite E.
      destruct (decide (b1 = b)) as [->|H1], (decide (b2 = b)) as [->|H2].
      * done.
      * intros [= <-] Hi2 Ha1 Ha2. by destruct (Hclr b2 i2 a).
      * intros Hi1 [= <-] Ha1 Ha2. by destruct (Hclr b1 i1 a).
      * intros Hi1 Hi2. by apply G2.
Qed.

(** The owner's tree may show anything in the new block. *)
Lemma graph_born v b p i f : graph_inv v -> block_ok i -> clear_of v i -> b = v_nref v -> is_Some (v_map v p) ->
  (forall a, in_block i a -> v_kmap v a = i_kernel_flags i) ->
  graph_inv (born (reflag p (i_base i) (i_base i + i_bytes i) f v) b p i).
Proof.
  intros [Hr Hm]%graph_split Hblk Hclr Eb Hp Hk. set (w := reflag p (i_base i) (i_base i + i_bytes i) f v).
  assert (Hw : graph_rest w).
  { apply rest_remap; [done|]. intros q. split; [eapply reflag_maps_inv|apply reflag_maps]. }
  apply graph_split. split; [apply rest_born; [done..|by apply reflag_maps]|].
  destruct (block_fresh v b Hr ltac:(lia)) as (F1 & F2 & F3 & _). destruct Hm as [M1 M2 M3 M4 M5].
  assert (E : info_of (of_info i p) = i) by (by destruct i).
  assert (Hs : forall q b', sees v q b' -> sees (born w b p i) q b').
  { intros q b' [Ho|(e & H1 & H2)]; [left|right; by exists e]. unfold born. vsimpl. rewrite fset_ne; [done|]. congruence. }
  split; [|exact M2| |exact M4|exact M5].
  - intros q m a Hq Ha. change (v_map w q = Some m) in Hq. change (v_kmap (born w b p i) a) with (v_kmap v a).
    assert (Hold : forall m0, v_map v q = Some m0 -> m0 a = v_kmap v a \/
      exists b' i', sees (born w b p i) q b' /\ v_info (born w b p i) b' = Some i' /\ in_block i' a).
    { intros m0 Hm0. destruct (M1 q m0 a Hm0 Ha) as [?|(b' & i' & H1 & H2 & H3)]; [by left|]. right. exists b', i'.
      split_and!; [by apply Hs| |done]. unfold born. vsimpl. rewrite fset_ne; [done|]. congruence. }
    unfold w, reflag in Hq. vsimpl_in Hq. destruct (decide (q = p)) as [->|Hqp]; [|rewrite fset_ne in Hq by done; by apply Hold].
    rewrite fset_eq in Hq. destruct (v_map v p) as [m0|] eqn:Em; [|done]. injection Hq as <-.
    destruct (decide (i_base i <= a < i_base i + i_bytes i)) as [Hin|Hout].
    + right. exists b, i. split_and!; [|unfold born; vsimpl; by rewrite fset_eq, E|done]. left. unfold born. vsimpl. by rewrite fset_eq.
    + rewrite flagged_out by done. by apply Hold.
  - intros b' i' a. unfold born. vsimpl. unfold fset. case_decide; [rewrite E; intros [= <-]; apply Hk|apply M3].
Qed.

End Frames.
