(* ===== verification/BlockSpec.v ===== *)
(** * Specifications of block allocation and release

    The page pool under the blocks: [umem_alloc], [umem_map_device], [umem_free],
    and the transfer of blocks with [umem_move_locked]. *)

From Stdlib Require Import FunctionalExtensionality.
From S2P Require Import Prelude Buddy Paging Siphash PlatformMem Machine Sched Index Channel Umem Process Graph Wp Invariant BaseSpec SchedSpec ChannelSpec UmemSpec.

(** Closes the goal with [H], up to an equation between their graphs. *)
Ltac same_view H :=
  lazymatch type of H with
  | ?Q ?a ?w ?x => lazymatch goal with |- Q a ?w' x => replace w' with w; [exact H|] end
  end.

Section Blocks.
Context {PT : PageTree} {SC : Schemes} {SS : SchemesSafe}.
Implicit Types (v : gview) (x : rest).

(** ** Steady steps *)

(** What every operation that returns to its caller keeps: the processor, the locks,
    and every thread that is not blocked. *)
Record steady x x' : Prop := {
  st_keep : x_this x' = x_this x /\ x_held x' = x_held x /\ x_platform x' = x_platform x /\ x_current x' = x_current x /\ x_ases x' = x_ases x /\
    x_futex_seq x' = x_futex_seq x;
  st_run t T : x_threads x !! t = Some T -> t_status T <> THREAD_BLOCKED -> x_threads x' !! t = Some T }.

Lemma steady_refl x : steady x x.
Proof. by split. Qed.

Lemma steady_trans x y z : steady x y -> steady y z -> steady x z.
Proof. intros [H1 H2] [K1 K2]. split; [naive_solver congruence|]. intros t T HT Hb. apply K2; [by apply H2|done]. Qed.

Lemma quiet_steady x x' : quiet x x' -> steady x x'.
Proof. intros [H1 H2 H3 H4 H5]. split; [naive_solver|done]. Qed.

Lemma calm_steady x x' : calm x x' -> steady x x'.
Proof. intros Hc. by apply quiet_steady, calm_quiet. Qed.

(** ** The pool *)

(** Only the pool and user memory differ. *)
Definition repool x x' : Prop := exists ba f, x' = set_pool ba (set_mem f x).

(** No RAM block touches the pages [[first, first + n)]. *)
Definition unused v (first n : Z) : Prop := forall b i pg, v_info v b = Some i -> i_backing i = UBLOCK_RAM ->
  i_base i <= pg * PAGE_SIZE < i_base i + i_bytes i -> ~ first <= pg < first + n.

Lemma allocatable_same x ba t t' pg : same_pool (x_pool x) ba ->
  (forall p, 0 <= p < 2 ^ ba_max_level (x_pool x) -> page ba t' p = PBad <-> page (x_pool x) t p = PBad) ->
  allocatable (set_pool ba x) t' pg <-> allocatable x t pg.
Proof.
  intros Hs Hp. destruct (same_pool_fields _ _ Hs) as (EM & _ & _). unfold allocatable. vsimpl. rewrite EM.
  split; intros [Hr Hb]; (split; [done|]); by rewrite ?Hp in *.
Qed.

Lemma pool_update v x t ba t' : pool_inv v x t -> holds ba t' -> same_pool (x_pool x) ba ->
  (forall p, 0 <= p < 2 ^ ba_max_level (x_pool x) -> page ba t' p = PBad <-> page (x_pool x) t p = PBad) ->
  (forall b i pg, v_info v b = Some i -> i_backing i = UBLOCK_RAM -> i_base i <= pg * PAGE_SIZE < i_base i + i_bytes i ->
     page ba t' pg = page (x_pool x) t pg) ->
  pool_inv v (set_pool ba x) t'.
Proof.
  intros [P1 P2 P3 P4 P5 P6] Hh Hs Hbad Hsame. destruct (same_pool_fields _ _ Hs) as (EM & _ & _).
  pose proof (fun pg => allocatable_same x ba t t' pg Hs Hbad) as Ha. split; vsimpl; [done|by rewrite EM|..].
  - intros b i pg Hi Hr Hpg. rewrite EM, (Hsame b i pg) by done. by apply P3 with b.
  - intros a Hal%Ha. by apply P4.
  - intros base len flags r a Hv Hin. rewrite Ha. by apply (P5 base len flags r).
  - intros b i a Hi Hd Hin. rewrite Ha. by apply (P6 b i).
Qed.

Lemma pool_alloc v x t ba t' first n : pool_inv v x t -> allocated (x_pool x) t ba t' first n ->
  pool_inv v (set_pool ba x) t' /\ unused v first n.
Proof.
  intros Hp [A1 A2 A3 A4 A5].
  assert (Hu : unused v first n).
  { intros b i pg Hi Hr Hpg Hin. destruct (pool_block v x t Hp b i pg Hi Hr Hpg) as [Hrng E].
    specialize (A5 pg Hrng). rewrite decide_True in A5 by done. destruct A5. congruence. }
  split; [|done]. eapply pool_update; [done..| |].
  - intros p Hrng. specialize (A5 p Hrng). case_decide; [destruct A5 as [-> ->]|rewrite A5]; done.
  - intros b i pg Hi Hr Hpg. destruct (pool_block v x t Hp b i pg Hi Hr Hpg) as [Hrng E].
    specialize (A5 pg Hrng). rewrite decide_False in A5; [done|]. by eapply Hu.
Qed.

Lemma pool_release v x t ba t' first n : pool_inv v x t -> released (x_pool x) t ba t' first n -> unused v first n ->
  pool_inv v (set_pool ba x) t'.
Proof.
  intros Hp [A1 A2 A5] Hu. eapply pool_update; [done..| |].
  - intros p Hrng. specialize (A5 p Hrng). case_decide; [destruct A5 as [-> ->]|rewrite A5]; done.
  - intros b i pg Hi Hr Hpg. destruct (pool_block v x t Hp b i pg Hi Hr Hpg) as [Hrng E].
    specialize (A5 pg Hrng). rewrite decide_False in A5; [done|]. by eapply Hu.
Qed.

Lemma page_alloc_either ba t n : holds ba t -> 0 <= n < 2 ^ 64 ->
  (exists s, buddy_page_alloc ba n = Some (ba, inl s)) \/
  exists ba' t' first, buddy_page_alloc ba n = Some (ba', inr first) /\ allocated ba t ba' t' first (2 ^ Z.log2_up (Z.max n 1)).
Proof.
  intros Hh Hn. destruct (page_alloc_cases ba t n Hh Hn) as (H1 & H2 & H3).
  destruct (Z.lt_ge_cases (2 ^ ba_max_level ba) (Z.max n 1)) as [Hbig|Hfit]; [left; eauto|].
  assert (Hk : 0 <= Z.log2_up (Z.max n 1) <= ba_max_level ba).
  { split; [apply Z.log2_up_nonneg|]. apply Z.log2_up_le_pow2; [lia|done]. }
  destruct (decide (value (ba_max_level ba) 0 t <= ba_max_level ba - Z.log2_up (Z.max n 1))) as [Hv|Hv];
    rewrite <-(free_run_value ba t _ Hh Hk) in Hv; [right|left; eauto]. by apply H3.
Qed.

Lemma wp_buddy_alloc n t Q v x : pool_inv v x t -> 0 <= n < 2 ^ 64 -> held_below 5 (x_held x) ->
  (forall s, Q (inl s) v x) ->
  (forall ba t' first, allocated (x_pool x) t ba t' first (2 ^ Z.log2_up (Z.max n 1)) -> Q (inr first) v (set_pool ba x)) ->
  wp (buddy_alloc_locked n) Q v x.
Proof.
  intros Hp Hn Hx Hbad Hok. unfold buddy_alloc_locked. apply wp_bind, wp_lock_below; [done|]. ws. vsimpl.
  assert (Hsame : set_pool (x_pool x) x = x) by (by destruct x).
  destruct (page_alloc_either (x_pool x) t n (pool_holds _ _ _ Hp) Hn) as [[s E]|(ba & t' & first & E & Ha)];
    apply wp_bind; (eapply wp_deref; [exact E|]); ws; apply wp_bind; (eapply wp_unlock_top; [done|done|]); apply wp_ret.
  - specialize (Hbad s). rewrite <-Hsame in Hbad. exact Hbad.
  - exact (Hok ba t' first Ha).
Qed.

Lemma wp_buddy_free pg first n t Q v x : pool_inv v x t -> 0 <= pg < 2 ^ ba_max_level (x_pool x) ->
  page (x_pool x) t pg = PAlloc first n -> held_below 5 (x_held x) ->
  (forall ba t', released (x_pool x) t ba t' first n -> Q BUDDY_STATUS_SUCCESS v (set_pool ba x)) ->
  wp (buddy_free_locked pg) Q v x.
Proof.
  intros Hp Hpg Epg Hx Hok. unfold buddy_free_locked. apply wp_bind, wp_lock_below; [done|]. ws. vsimpl.
  pose proof (page_free_cases (x_pool x) t pg (pool_holds _ _ _ Hp) Hpg) as Hf. rewrite Epg in Hf.
  destruct Hf as (ba & t' & E & _ & Hr). apply wp_bind. eapply wp_deref; [exact E|]. ws. apply wp_bind.
  eapply wp_unlock_top; [done|done|]. apply wp_ret. exact (Hok ba t' Hr).
Qed.

(** ** umem_alloc *)

Lemma order_loop_spec fuel order n : 0 <= order <= Z.log2_up (Z.max n 1) -> Z.log2_up (Z.max n 1) <= order + Z.of_nat fuel ->
  order_loop fuel order n = Z.log2_up (Z.max n 1).
Proof.
  revert order. induction fuel as [|fuel IH]; intros order Ho Hhi; simpl; [lia|].
  rewrite Z.shiftl_1_l. pose proof (Z.pow_pos_nonneg 2 order ltac:(lia) ltac:(lia)).
  destruct (Z.ltb_spec (2 ^ order) n) as [Hlt|Hge].
  - assert (order < Z.log2_up (Z.max n 1)) by (apply Z.log2_up_lt_pow2; lia). apply IH; lia.
  - assert (Z.log2_up (Z.max n 1) <= order) by (apply Z.log2_up_le_pow2; lia). lia.
Qed.

(** The block [umem_alloc] makes for [len] bytes at page [first]. *)
Definition block_order (len : Z) : Z := Z.log2_up (Z.max ((len + PAGE_SIZE - 1) / PAGE_SIZE) 1).

Lemma block_order_fits len : len <= PAGE_SIZE * 2 ^ block_order len.
Proof.
  unfold block_order. set (n := Z.max _ 1). assert (n <= 2 ^ Z.log2_up n) by (destruct (decide (n = 1)) as [->|]; [done|]; apply Z.log2_up_spec; lia).
  assert ((len + PAGE_SIZE - 1) / PAGE_SIZE <= n) by lia. unfold PAGE_SIZE in *. div_lia.
Qed.

Definition ram_block (first len : Z) : binfo :=
  BInfo (first * PAGE_SIZE) (block_order len) (PAGE_SIZE * 2 ^ block_order len) UBLOCK_RAM 0 PAGE_KERNEL_PRISTINE true.

(** What [umem_alloc] does when it succeeds: block [v_nref v], whose pages were free,
    comes into being with its bytes zeroed. *)
Record allocates v x (p len prot first : Z) v' x' : Prop := {
  al_new : v_info v (v_nref v) = None;
  al_clear : clear_of v (ram_block first len);
  al_graph : v' = born (reflag p (first * PAGE_SIZE) (first * PAGE_SIZE + PAGE_SIZE * 2 ^ block_order len) (Z.lor prot PAGE_U) v)
    (v_nref v) p (ram_block first len);
  al_mem : x_mem x' = mem_fill (x_mem x) (first * PAGE_SIZE) (PAGE_SIZE * 2 ^ block_order len) 0 }.

Lemma ram_block_ok first len M : 0 <= first -> first mod 2 ^ block_order len = 0 -> first + 2 ^ block_order len <= 2 ^ M -> 2 ^ M * PAGE_SIZE <= 2 ^ 47 ->
  block_ok (ram_block first len).
Proof.
  intros H1 Hal H2 H3. pose proof (Z.log2_up_nonneg (Z.max ((len + PAGE_SIZE - 1) / PAGE_SIZE) 1)) as Ho. fold (block_order len) in Ho.
  pose proof (Z.pow_pos_nonneg 2 (block_order len) ltac:(lia) Ho). split; unfold ram_block; cbn [i_base i_bytes i_kernel_flags i_backing i_order].
  - unfold PAGE_SIZE in *. nia.
  - split; [apply Z_mod_mult|rewrite Z.mul_comm; apply Z_mod_mult].
  - unfold flags_valid. split_and!; try done. by right.
  - split_and!; [done|done|done|]. rewrite Z.mul_comm, Zmult_mod_distr_l, Hal. apply Z.mul_0_r.
Qed.

Lemma block_page i a : block_ok i -> in_block i a -> i_base i <= a / PAGE_SIZE * PAGE_SIZE < i_base i + i_bytes i.
Proof.
  intros Hb Ha. destruct (blk_range i Hb), (blk_aligned i Hb) as [E1 E2]. unfold in_block, PAGE_SIZE in *.
  pose proof (Z.div_mod a 4096 ltac:(lia)). pose proof (Z.mod_pos_bound a 4096 ltac:(lia)).
  pose proof (Z.div_mod (i_base i) 4096 ltac:(lia)). nia.
Qed.

(** Freshly allocated pages are in no block. *)
Lemma fresh_clear v x t first len ba t' : graph_inv v -> pool_inv v x t ->
  allocated (x_pool x) t ba t' first (2 ^ block_order len) -> clear_of v (ram_block first len).
Proof.
  intros Hg Hp [A1 A2 A3 A4 A5] b i a Hi Hin Hin'. unfold in_block, ram_block in Hin. simpl in Hin.
  assert (Hpg : first <= a / PAGE_SIZE < first + 2 ^ block_order len).
  { unfold PAGE_SIZE in *. split; [apply Z.div_le_lower_bound|apply Z.div_lt_upper_bound]; lia. }
  pose proof (A5 (a / PAGE_SIZE) ltac:(lia)) as Hf. rewrite decide_True in Hf by done. destruct Hf as [Hf _].
  pose proof (geo_block v (inv_geo v Hg) b i Hi) as Hblk. destruct (i_backing i) eqn:Eb.
  - destruct (pool_block v x t Hp b i (a / PAGE_SIZE) Hi Eb) as [_ E]; [by apply block_page|]. congruence.
  - eapply (pool_device_block v x t Hp b i a Hi Eb Hin'). split; [lia|]. by rewrite Hf.
Qed.

Lemma pool_born v x t b p i : pool_inv v x t -> i_backing i = UBLOCK_RAM ->
  (forall pg, i_base i <= pg * PAGE_SIZE < i_base i + i_bytes i -> 0 <= pg < 2 ^ ba_max_level (x_pool x) /\
    page (x_pool x) t pg = PAlloc (i_base i / PAGE_SIZE) (2 ^ i_order i)) ->
  pool_inv (born v b p i) x t.
Proof.
  intros [P1 P2 P3 P4 P5 P6] Hr Hpg. assert (E : info_of (of_info i p) = i) by (by destruct i).
  split; [done|done| |done|done|].
  - intros b' i' pg. unfold born. vsimpl. unfold fset. case_decide; [|apply P3]. rewrite E. intros [= <-] _. apply Hpg.
  - intros b' i' a. unfold born. vsimpl. unfold fset. case_decide; [|apply P6]. rewrite E. intros [= <-]. congruence.
Qed.

Lemma inv_repool v x x' : inv v x -> repool x x' -> (exists t, pool_inv v x' t) -> inv v x'.
Proof.
  intros [I1 I2 I3 I4 I5] (ba & f & ->) Hp. split; [done|done| |done|].
  - eapply sched_rest; [|exact I3]. done.
  - eapply scheme_ext; [| | | |exact I5]; done.
Qed.

(** A new block over the same processes and schemes. *)
Lemma inv_born v x x' lo hi f b p i t : inv v x -> v_info v b = None -> repool x x' -> graph_inv (born (reflag p lo hi f v) b p i) ->
  pool_inv (born (reflag p lo hi f v) b p i) x' t -> inv (born (reflag p lo hi f v) b p i) x'.
Proof.
  intros [I1 I2 I3 I4 I5] Hb (ba & g & ->) Hg Hp. split; [done|eauto| |done|].
  - eapply sched_ext; [| | |exact I3]; [done|done|]. intros q Hq. by apply (reflag_maps p lo hi f).
  - eapply scheme_ext; [| | | |exact I5]; [done|done| |done]. intros b'. unfold dma_of, born. vsimpl. unfold fset.
    case_decide as E; [|done]. subst. by rewrite Hb.
Qed.

Lemma alloc_sizes len : 0 < len -> len <= 2 ^ 62 ->
  order_loop 64 0 (u64 (len + PAGE_SIZE - 1) / PAGE_SIZE) = block_order len /\ 0 <= block_order len <= 51 /\
  u64 (Z.shiftl PAGE_SIZE (block_order len)) = PAGE_SIZE * 2 ^ block_order len /\
  u64 (Z.shiftl 1 (block_order len)) = 2 ^ block_order len.
Proof.
  intros Hl Hh. assert (Ho : 0 <= block_order len <= 51).
  { split; [apply Z.log2_up_nonneg|]. apply Z.log2_up_le_pow2; [lia|]. unfold PAGE_SIZE.
    assert ((len + 4096 - 1) / 4096 <= 2 ^ 51) by (apply Z.div_le_upper_bound; lia). lia. }
  pose proof (Z.pow_le_mono_r 2 (block_order len) 51 ltac:(lia) ltac:(lia)).
  pose proof (Z.pow_pos_nonneg 2 (block_order len) ltac:(lia) ltac:(lia)).
  rewrite u64_small by (unfold PAGE_SIZE; lia). split_and!; [|lia|lia| |].
  - apply order_loop_spec; fold (block_order len); lia.
  - rewrite Z.shiftl_mul_pow2, u64_small; unfold PAGE_SIZE; lia.
  - rewrite Z.shiftl_1_l, u64_small; lia.
Qed.

Lemma alloc_view_valid prot : prot ∈ prots -> prot <> 0 -> flags_valid (Z.lor prot PAGE_U).
Proof. intros Hp Hn. by apply ram_view_valid. Qed.

(** The graph and the pool once the block is published. *)
Lemma alloc_inv v x x' t ba t' p len prot m first : inv v x -> pool_inv v x t -> v_map v p = Some m ->
  allocated (x_pool x) t ba t' first (2 ^ block_order len) -> x' = set_pool ba (set_mem (fun m => mem_fill m (first * PAGE_SIZE) (PAGE_SIZE * 2 ^ block_order len) 0) x) ->
  inv (born (reflag p (first * PAGE_SIZE) (first * PAGE_SIZE + PAGE_SIZE * 2 ^ block_order len) (Z.lor prot PAGE_U) v)
    (v_nref v) p (ram_block first len)) x' /\
  allocates v x p len prot first (born (reflag p (first * PAGE_SIZE) (first * PAGE_SIZE + PAGE_SIZE * 2 ^ block_order len) (Z.lor prot PAGE_U) v)
    (v_nref v) p (ram_block first len)) x'.
Proof.
  intros Hi Hp Hm Ha ->. pose proof (inv_graph _ _ _ Hi) as Hg. pose proof (fresh_clear v x t first len ba t' Hg Hp Ha) as Hc.
  pose proof Ha as [A1 A2 A3 A4 A5]. destruct (pool_alloc _ _ _ _ _ _ _ Hp Ha) as [Hp' _].
  pose proof (proj1 (graph_split v) Hg) as [Hr _]. destruct (block_fresh v (v_nref v) Hr ltac:(lia)) as [F1 _].
  destruct (same_pool_fields _ _ A2) as (EM & _ & _).
  split; [|by split]. eapply (inv_born v x); [done|exact F1|by eexists _, _| |].
  - apply (graph_born v (v_nref v) p (ram_block first len)); [done| |done|done|eauto|].
    + eapply ram_block_ok; [lia|apply Ha|apply A4|apply (pool_fits _ _ _ Hp)].
    + intros a Hin. apply (pool_pristine _ _ _ Hp). unfold in_block, ram_block in Hin. simpl in Hin.
      assert (Hpg : first <= a / PAGE_SIZE < first + 2 ^ block_order len).
      { unfold PAGE_SIZE in *. split; [apply Z.div_le_lower_bound|apply Z.div_lt_upper_bound]; lia. }
      pose proof (A5 (a / PAGE_SIZE) ltac:(lia)) as Hf. rewrite decide_True in Hf by done. destruct Hf as [Hf _].
      split; [lia|]. by rewrite Hf.
  - apply pool_born with (t := t'); [|done|].
    + destruct Hp' as [P1 P2 P3 P4 P5 P6]. by split.
    + unfold ram_block. cbn [i_base i_bytes i_order x_pool set_pool]. intros pg Hpg. rewrite EM.
      assert (first <= pg < first + 2 ^ block_order len) by (unfold PAGE_SIZE in *; lia).
      split; [lia|]. rewrite Z.div_mul by done. specialize (A5 pg ltac:(lia)). rewrite decide_True in A5 by done. apply A5.
Qed.

(** The base of a new block is in no index. *)
Lemma clear_free v i p : graph_rest v -> block_ok i -> clear_of v i -> v_pblocks v p !! i_base i = None /\ v_gblocks v !! i_base i = None.
Proof.
  intros Hg Hb Hc. split; apply eq_None_not_Some; intros [b' Hb'].
  - apply (own_index v (gr_own v Hg)) in Hb' as [_ Hb']. by eapply clear_base in Hb'.
  - apply (own_global v (gr_own v Hg)) in Hb'. by eapply clear_base in Hb'.
Qed.

(** The end of both ways of making a block. *)
Lemma wp_publish p i msg {A} (k : M A) Q v x : live v p -> v_gblocks v !! i_base i = None ->
  wp k Q (born v (v_nref v) p i) (set_held [LUmem] x) ->
  wp (b ← new_ref; _ ← modify (upd_k_blocks (insert b (of_info i p))); _ ← mod_proc p (upd_p_blocks (insert (i_base i) b));
      _ ← umem_proc_unlock p; _ ← block_publish b (i_base i) msg; k) Q v (set_held [LProc p; LUmem] x).
Proof.
  intros Hp Hf H. apply wp_bind, wp_new_ref. apply wp_bind, wp_new_block. apply wp_bind, wp_p_blocks; [done|]. apply wp_bind.
  eapply wp_unlock_top; [done|by repeat constructor|]. unfold block_publish. ws. ws. wp_bound.
  apply wp_asserts; [by apply bool_decide_eq_true|]. apply wp_g_ublocks. exact H.
Qed.

(** Undoing the page allocation. *)
Lemma wp_alloc_undo first n t Q v x : inv v x -> pool_inv v x t -> page (x_pool x) t first = PAlloc first n -> 0 <= first < 2 ^ ba_max_level (x_pool x) ->
  unused v first n -> x_held x = [] -> (forall ba, inv v (set_pool ba x) -> Q 0 v (set_pool ba x)) ->
  wp (_ ← buddy_free_locked first; mret 0) Q v x.
Proof.
  intros Hi Hp Hpg Hr Hu Hx H. apply wp_bind. eapply (wp_buddy_free first first n t); [done..|rewrite Hx; constructor|].
  intros ba t' Hrel. apply wp_ret, H. eapply inv_repool; [exact Hi|exists ba, id; by destruct x|].
  exists t'. by eapply pool_release.
Qed.

Lemma wp_alloc p len prot m Q v x : inv v x -> v_map v p = Some m -> x_held x = [] -> prot ∈ prots -> prot <> 0 -> 0 <= len <= 2 ^ 62 ->
  (forall x', inv v x' -> repool x x' -> Q 0 v x') ->
  (forall first v' x', inv v' x' -> repool x x' -> allocates v x p len prot first v' x' -> Q (first * PAGE_SIZE) v' x') ->
  wp (umem_alloc p len prot) Q v x.
Proof.
  intros Hi Hm Hx Hprot Hnz Hlen Hbad Hok. pose proof (inv_graph _ _ _ Hi) as Hg. pose proof (inv_live _ _ _ _ Hi Hm) as Hlp.
  unfold umem_alloc. assert (Hid : repool x x) by (exists (x_pool x), id; by destruct x).
  destruct (Z.eqb_spec len 0) as [->|Hl0]; [by apply wp_ret, Hbad|].
  destruct (alloc_sizes len ltac:(lia) ltac:(lia)) as (-> & Ho & -> & ->).
  pose proof (Z.pow_pos_nonneg 2 (block_order len) ltac:(lia) ltac:(lia)).
  pose proof (Z.pow_le_mono_r 2 (block_order len) 51 ltac:(lia) ltac:(lia)).
  destruct (inv_pool _ _ _ Hi) as [t Hp]. apply wp_bind. eapply (wp_buddy_alloc _ t); [done|lia|rewrite Hx; constructor|by intros; apply wp_ret, Hbad|].
  intros ba t' first Ha. rewrite Z.max_l, Z.log2_up_pow2 in Ha by lia. pose proof Ha as [A1 A2 A3 A4 A5].
  pose proof (ram_block_ok first len _ (proj1 A4) A3 (proj2 A4) (pool_fits _ _ _ Hp)) as Hblk.
  destruct (blk_range _ Hblk) as (B1 & B2 & B3). destruct (blk_aligned _ Hblk) as [E1 E2]. cbn [ram_block i_base i_bytes] in *.
  rewrite (u64_small (first * PAGE_SIZE)) by lia. cbv zeta.
  apply wp_bind. eapply (wp_cpu _ [] []); [eapply sched_rest; [|apply Hi]; done|intros Hcpu; apply wp_memset0; [done|]].
  destruct (pool_alloc _ _ _ _ _ _ _ Hp Ha) as [Hp' Hu]. set (x1 := set_mem _ _).
  assert (Hre : forall ba2, repool x (set_pool ba2 x1)).
  { intros ba2. by exists ba2, (fun m0 => mem_fill m0 (first * PAGE_SIZE) (PAGE_SIZE * 2 ^ block_order len) 0). }
  assert (Hp1 : pool_inv v x1 t') by (destruct Hp' as [P1 P2 P3 P4 P5 P6]; by split).
  assert (Hfail : wp (_ ← buddy_free_locked first; mret 0) Q v x1).
  { apply (wp_alloc_undo first (2 ^ block_order len) t'); [|done| | |done|done|intros ba2 Hi2; apply Hbad; [done|apply Hre]].
    - eapply inv_repool; [exact Hi|apply (Hre ba)|by exists t'].
    - specialize (A5 first ltac:(lia)). rewrite decide_True in A5 by lia. apply A5.
    - destruct (same_pool_fields _ _ A2) as (EM & _ & _). cbn. rewrite EM. lia. }
  apply wp_bind, wp_try_alloc. intros []; [cbn [negb]|done]. apply wp_bind, wp_try_alloc. intros []; [cbn [negb]|done].
  eapply wp_reflag; [done|done| |by apply alloc_view_valid|apply (map_clean v (inv_map v Hg))|].
  { unfold page_range. split_and!; try lia. by rewrite Z.add_mod, E1, E2. }
  destruct (alloc_inv v x x1 t ba t' p len prot m first Hi Hp Hm Ha) as [Hi' Hal]; [done|].
  destruct (clear_free v (ram_block first len) p (proj1 (proj1 (graph_split v) Hg)) Hblk (fresh_clear v x t first len ba t' Hg Hp Ha)) as [Hf1 Hf2].
  apply wp_bind, wp_lock_below; [cbn; rewrite Hx; constructor|]. apply wp_bind, wp_lock_below; [cbn; rewrite Hx; by repeat constructor|].
  apply wp_bind. eapply wp_get_proc; [done|]. intros oa _. apply wp_bind, wp_asserts; [by apply bool_decide_eq_true|].
  cbn [x_held set_held x1 set_mem set_pool]. rewrite Hx.
  apply (wp_publish p (ram_block first len)); [done|done|]. apply (wp_unlock_one LUmem _ Q _ x1); [exact Hx|].
  eapply Hok; [exact Hi'|apply (Hre ba)|exact Hal].
Qed.

(** ** umem_map_device *)

Lemma wp_device_overlap bs base stop Q v x : graph_inv v -> Forall (fun b => is_Some (v_info v b)) bs ->
  (forall r : bool, (r = false -> forall b i a, b ∈ bs -> v_info v b = Some i -> i_backing i = UBLOCK_DEVICE ->
     in_block i a -> ~ base <= a < stop) -> Q r v x) ->
  wp (device_overlap bs base stop) Q v x.
Proof.
  intros Hg. revert Q. induction bs as [|b bs IH]; intros Q Hbs HQ; simpl.
  - apply wp_ret, HQ. intros _ b i a Hb. by apply not_elem_of_nil in Hb.
  - apply Forall_cons in Hbs as [[i Hi] Hbs]. destruct (graph_owner v b i Hg Hi) as (o & Ho & _). ws. vsimpl.
    rewrite (geo_end v b i (inv_geo v Hg) Hi).
    destruct (bool_decide _ && (base <? _) && (i_base i <? stop)) eqn:Et; [by apply wp_ret, HQ|].
    apply IH; [done|]. intros r Hr. apply HQ. intros -> b' i' a [->|Hb']%elem_of_cons; [|by apply Hr].
    intros Hi' Hd Hin. rewrite Hi in Hi'. injection Hi' as <-. rewrite bool_decide_true in Et by done. unfold in_block in Hin. lia.
Qed.

(** The kernel tree and every process's tree show [f] in [[lo, hi)]. *)
Definition aliased (lo hi f : Z) v : gview :=
  upd_v_map (fun _ q => flagged lo hi f <$> v_map v q) (upd_v_kmap (flagged lo hi f) v).

Lemma flagged_twice lo hi f m : flagged lo hi f (flagged lo hi f m) = flagged lo hi f m.
Proof. extensionality a. unfold flagged. by case_decide. Qed.

Lemma wp_flag_alias lo hi f qs Q v x : page_range lo hi -> flags_valid f -> Forall (live v) qs -> (forall q, v_dirty v q = false) ->
  Q tt (upd_v_map (fun _ q => if decide (q ∈ qs) then flagged lo hi f <$> v_map v q else v_map v q) v) x ->
  wp (iterM (flag_alias lo hi f) qs) Q v x.
Proof.
  intros Hr Hf. revert v. induction qs as [|q qs IH]; intros v Hqs Hd HQ.
  - apply wp_ret. destruct v. exact HQ.
  - apply Forall_cons in Hqs as [Hq Hqs]. simpl. apply wp_bind.
    assert (Hgo : wp (iterM (flag_alias lo hi f) qs) Q (reflag q lo hi f v) x).
    { apply IH; [done|done|]. same_view HQ. unfold reflag, upd_v_map. vsimpl. f_equal. extensionality q'.
      unfold fset. destruct (decide (q' = q)) as [->|Hne].
      - rewrite decide_True by (by left). destruct (v_map v q); simpl; case_decide; by rewrite ?flagged_twice.
      - destruct (decide (q' ∈ qs)) as [Hin|Hin]; [by rewrite decide_True by (by right)|].
        rewrite decide_False; [done|]. by intros [?|?]%elem_of_cons. }
    unfold flag_alias at 1. apply wp_bind. eapply wp_get_proc; [done|]. intros oa [Em _]. vsimpl.
    destruct oa as [a|]; simpl in Em.
    + eapply wp_reflag_end; [done..|apply Hd|exact Hgo].
    + apply wp_ret. same_view Hgo. unfold reflag, upd_v_map. rewrite <-Em. cbn.
      rewrite fset_id by done. by destruct v.
Qed.

Lemma aliased_maps lo hi f v q : is_Some (v_map (aliased lo hi f v) q) <-> is_Some (v_map v q).
Proof. unfold aliased. vsimpl. apply fmap_is_Some. Qed.

Lemma flags_shown f : has f PAGE_R = true -> shown f = f.
Proof.
  intros Hr. unfold shown. destruct (Z.eqb_spec (Z.land f 15) 0) as [E|]; [|done]. exfalso. revert Hr. unfold has.
  assert (Z.land f PAGE_R = Z.land (Z.land f 15) PAGE_R) as -> by (by rewrite <-Z.land_assoc). by rewrite E.
Qed.

(** Device memory nobody has mapped yet changes under everyone at once. *)
Lemma graph_aliased lo hi f v : graph_inv v -> (forall b i a, v_info v b = Some i -> in_block i a -> ~ lo <= a < hi) ->
  has f PAGE_U = false -> has f PAGE_R = true -> graph_inv (aliased lo hi f v).
Proof.
  intros [Hr Hm]%graph_split Hout Hu Hrd. apply graph_split. split.
  - assert (Hk : graph_rest (upd_v_kmap (flagged lo hi f) v)).
    { destruct Hr as [R T O E P Rg Th G]. split; [eapply reg_cols, R; done|keep T|keep O|keep E| |keep Rg|keep Th|keep G].
      by apply (pend_links v), eq_refl. }
    apply (rest_remap _ _ Hk). intros p. apply fmap_is_Some.
  - destruct Hm as [M1 M2 M3 M4 M5]. split; [| | |exact M4|exact M5]; unfold aliased.
    + intros p m a. vsimpl. intros Hp Ha. destruct (v_map v p) as [m0|] eqn:Em; [|done]. injection Hp as <-.
      destruct (decide (lo <= a < hi)) as [Hin|Hn]; [left; by rewrite !flagged_in|].
      rewrite !flagged_out by done. by apply (M1 p m0).
    + intros a Ha. vsimpl. destruct (decide (lo <= a < hi)) as [Hin|Hn]; [by rewrite flagged_in, flags_shown|].
      rewrite flagged_out by done. by apply M2.
    + intros b i a Hi Hin. vsimpl. rewrite flagged_out; [by apply (M3 b i)| |by apply (Hout b i)].
      pose proof (blk_range i (geo_block v (gr_geo v Hr) b i Hi)). unfold in_block in Hin. lia.
Qed.

Lemma pool_aliased lo hi f v x t : pool_inv v x t -> (forall a, lo <= a < hi -> ~ allocatable x t (a / PAGE_SIZE)) ->
  pool_inv (aliased lo hi f v) x t.
Proof.
  intros [P1 P2 P3 P4 P5 P6] Hout. split; try done. intros a Ha. unfold aliased. vsimpl. rewrite flagged_out; [by apply P4| |].
  - destruct Ha as [Hr _]. unfold PAGE_SIZE in *. pose proof (Z.div_mod a 4096 ltac:(lia)). pose proof (Z.mod_pos_bound a 4096 ltac:(lia)). lia.
  - intros Hin. by eapply Hout.
Qed.

Lemma inv_aliased lo hi f v x t : inv v x -> graph_inv (aliased lo hi f v) -> pool_inv (aliased lo hi f v) x t -> inv (aliased lo hi f v) x.
Proof.
  intros [I1 I2 I3 I4 I5] Hg Hp. split; [done|eauto| |done|].
  - eapply sched_ext; [| | |exact I3]; [done|done|]. intros q Hq. by apply aliased_maps.
  - eapply scheme_ext; [| | | |exact I5]; done.
Qed.

(** The rights [umem_map_device_locked] records for a request. *)
Definition device_rights (flags : Z) : Z :=
  let device_flags := PAGE_R in
  let device_flags := if has flags VM_DEVICE_WRITE then Z.lor device_flags PAGE_W else device_flags in
  if has flags VM_DEVICE_FIRMWARE then device_flags else Z.lor device_flags PAGE_UC.

Definition device_block (base len flags kf : Z) (dl : bool) : binfo := BInfo base 0 len UBLOCK_DEVICE (device_rights flags) kf dl.

(** What a request the platform policy accepts gives. *)
Lemma device_block_ok v x t base len flags kf dl : pool_inv v x t -> 0 <= base -> 0 <= len -> 0 <= flags ->
  platform_mem_validate_device (x_platform x) base len flags = Some (kf, dl) ->
  block_ok (device_block base len flags kf dl) /\ (forall a, base <= a < base + len -> ~ allocatable x t (a / PAGE_SIZE)) /\
  flags_valid (Z.lor (device_rights flags) PAGE_U).
Proof.
  intros Hp Hb Hl Hf Hv. pose proof (fun a => pool_device v x t Hp base len flags (kf, dl) a Hv) as Hd.
  apply validate_device_iff in Hv as (H1 & H2 & H3 & H4 & Hpol); [|done..].
  destruct (Hd (base + len - 1) ltac:(lia)) as [_ Htop].
  assert (Hkf : kf = PAGE_KERNEL_PRISTINE \/ kf = DEVICE_KERNEL_FLAGS).
  { destruct Hpol as (_ & _ & _ & _ & Hx). destruct (has flags VM_DEVICE_FIRMWARE); [left|right]; apply Hx. }
  assert (Hr : device_rights flags ∈ [1; 3; 17; 19]).
  { unfold device_rights. destruct (has flags VM_DEVICE_WRITE), (has flags VM_DEVICE_FIRMWARE); apply list_elem_of_In; simpl; tauto. }
  split_and!; [|by intros a Ha; apply Hd|].
  - split; cbn [device_block i_base i_bytes i_kernel_flags i_backing i_device_flags]; [lia|done| |done].
    destruct Hkf as [-> | ->]; (split; [|done]); (split; [vm_compute; split; congruence|split; [right; reflexivity|vm_compute; congruence]]).
  - apply list_elem_of_In in Hr. destruct Hr as [<-|[<-|[<-|[<-|[]]]]];
      (split; [vm_compute; split; congruence|split; [right; reflexivity|vm_compute; congruence]]).
Qed.

(** A range clear of device blocks and of the pool is clear of every block. *)
Lemma device_clear v x t base len flags kf dl : graph_inv v -> pool_inv v x t -> 
  (forall a, base <= a < base + len -> ~ allocatable x t (a / PAGE_SIZE)) ->
  (forall b i a, v_info v b = Some i -> i_backing i = UBLOCK_DEVICE -> in_block i a -> ~ base <= a < base + len) ->
  clear_of v (device_block base len flags kf dl).
Proof.
  intros Hg Hp Hpool Hdev b i a Hi Hin Hin'. unfold in_block in Hin. cbn in Hin. destruct (i_backing i) eqn:Eb; [|by eapply Hdev].
  pose proof (geo_block v (inv_geo v Hg) b i Hi) as Hblk.
  destruct (pool_block v x t Hp b i (a / PAGE_SIZE) Hi Eb) as [Hr E]; [by apply block_page|].
  apply (Hpool a Hin). split; [done|]. by rewrite E.
Qed.

(** What a successful device mapping does. *)
Definition maps_device v x (p base len flags : Z) v' : Prop := exists kf dl,
  platform_mem_validate_device (x_platform x) base len flags = Some (kf, dl) /\ clear_of v (device_block base len flags kf dl) /\
  v' = born (reflag p base (base + len) (Z.lor (device_rights flags) PAGE_U) (aliased base (base + len) kf v)) (v_nref v) p
    (device_block base len flags kf dl).

Lemma wp_alias base stop kf {A} (k : M A) Q v x : graph_inv v -> page_range base stop -> flags_valid kf ->
  wp k Q (aliased base stop kf v) x ->
  wp (_ ← as_flag_kernel base stop kf; _ ← as_flush_kernel; procs ← gets k_g_procs;
      _ ← iterM (flag_alias base stop kf) (values procs); k) Q v x.
Proof.
  intros Hg Hr Hf H. apply wp_bind, wp_as_flag_kernel; [done..|]. apply wp_bind, wp_as_flush_kernel. ws. apply wp_bind.
  apply wp_flag_alias; [done|done| | |].
  - apply Forall_forall. intros q Hq. apply elem_of_values in Hq as [k' Hk']. vsimpl_in Hk'.
    apply (reg_index v (inv_reg v Hg)) in Hk' as [-> Hl]. exact Hl.
  - intros q. vsimpl. apply (map_clean v (inv_map v Hg)).
  - assert (E : (fun q => if decide (q ∈ values (v_gprocs v)) then flagged base stop kf <$> v_map v q else v_map v q) =
      fun q => flagged base stop kf <$> v_map v q).
    { extensionality q. case_decide as Hq; [done|]. destruct (v_map v q) as [m|] eqn:Em; [|done]. exfalso. apply Hq.
      apply elem_of_values. exists q. apply (reg_index v (inv_reg v Hg)). split; [done|]. apply (reg_as v (inv_reg v Hg)). by rewrite Em. }
    pose proof (map_kclean v (inv_map v Hg)) as Ek. vsimpl. rewrite E. clear - H Ek. destruct v. cbn in Ek. subst. exact H.
Qed.

Lemma pool_born_device v x t b p i : pool_inv v x t -> i_backing i = UBLOCK_DEVICE ->
  (forall a, in_block i a -> ~ allocatable x t (a / PAGE_SIZE)) -> pool_inv (born v b p i) x t.
Proof.
  intros [P1 P2 P3 P4 P5 P6] Hd Hout. assert (E : info_of (of_info i p) = i) by (by destruct i).
  split; [done|done| |done|done|].
  - intros b' i' pg. unfold born. vsimpl. unfold fset. case_decide; [|apply P3]. rewrite E. intros [= <-]. congruence.
  - intros b' i' a. unfold born. vsimpl. unfold fset. case_decide; [|apply P6]. rewrite E. intros [= <-] _. apply Hout.
Qed.

(** The graph with the alias, and with the block. *)
Lemma device_inv v x t p base len flags kf dl : inv v x -> pool_inv v x t -> is_Some (v_map v p) ->
  block_ok (device_block base len flags kf dl) -> clear_of v (device_block base len flags kf dl) ->
  (forall a, base <= a < base + len -> ~ allocatable x t (a / PAGE_SIZE)) ->
  let w := aliased base (base + len) kf v in
  inv w x /\ inv (born (reflag p base (base + len) (Z.lor (device_rights flags) PAGE_U) w) (v_nref v) p (device_block base len flags kf dl)) x.
Proof.
  intros Hi Hp Hm Hblk Hc Hout w. pose proof (inv_graph _ _ _ Hi) as Hg. destruct (blk_kernel _ Hblk) as (_ & Hu & Hr). cbn in Hu, Hr.
  assert (Hgw : graph_inv w). { apply graph_aliased; try done. intros b i a Hbi Hin Ha. by eapply Hc. }
  assert (Hiw : inv w x). { eapply inv_aliased; [done|done|by apply pool_aliased]. }
  pose proof (proj1 (graph_split v) Hg) as [Hrg _]. destruct (block_fresh v (v_nref v) Hrg ltac:(lia)) as [F1 _].
  split; [done|]. eapply (inv_born w x); [done|exact F1|exists (x_pool x), id; by destruct x| |].
  - apply (graph_born w (v_nref v) p (device_block base len flags kf dl)); [done|done|done|done|by apply aliased_maps|].
    intros a Hin. unfold w, aliased. vsimpl. unfold in_block in Hin. cbn in Hin. destruct (blk_range _ Hblk) as (? & ? & ?). cbn in *.
    rewrite flagged_in by lia. by apply flags_shown.
  - apply pool_born_device with (t := t); [|done|done]. destruct (pool_aliased base (base + len) kf v x t Hp Hout) as [P1 P2 P3 P4 P5 P6].
    by split.
Qed.

Lemma wp_map_device_locked p base len flags m Q v x : inv v x -> v_map v p = Some m -> x_held x = [LUmem] ->
  0 <= base < 2 ^ 64 -> 0 <= len < 2 ^ 64 -> 0 <= flags < 2 ^ 64 ->
  (forall rc v', rc <> 0 -> inv v' x -> v' = v \/ (exists kf, v' = aliased base (base + len) kf v) -> Q rc v' x) ->
  (forall v', inv v' x -> maps_device v x p base len flags v' -> Q 0 v' x) ->
  wp (umem_map_device_locked p base len flags) Q v x.
Proof.
  intros Hi Hm Hx Hb Hl Hf Hbad Hok. pose proof (inv_graph _ _ _ Hi) as Hg. pose proof (inv_live _ _ _ _ Hi Hm) as Hlp.
  assert (Hkeep : forall rc, rc <> 0 -> Q rc v x) by (intros; apply Hbad; [done|done|by left]).
  unfold umem_map_device_locked. fold (device_rights flags). cbv zeta. ws.
  destruct (platform_mem_validate_device (x_platform x) base len flags) as [[kf dl]|] eqn:Ev; [|by apply wp_ret, Hkeep].
  destruct (inv_pool _ _ _ Hi) as [t Hp].
  destruct (device_block_ok v x t base len flags kf dl Hp ltac:(lia) ltac:(lia) ltac:(lia) Ev) as (Hblk & Hout & Hfv).
  destruct (blk_range _ Hblk) as (B1 & B2 & B3), (blk_aligned _ Hblk) as (B4 & B5), (blk_kernel _ Hblk) as (B6 & B7 & B8).
  cbn [device_block i_base i_bytes i_kernel_flags] in *. rewrite (u64_small (base + len)) by lia. ws. apply wp_bind.
  apply wp_device_overlap; [done| |].
  { apply Forall_forall. intros b (k & Hk)%elem_of_values. apply (own_global v (inv_own v Hg)) in Hk. unfold bbase in Hk.
    destruct (v_info v b); [by eexists|done]. }
  intros [] Hov; [by apply wp_ret, Hkeep|]. specialize (Hov eq_refl).
  assert (Hc : clear_of v (device_block base len flags kf dl)).
  { apply (device_clear v x t); [done|done|done|]. intros b i a Hbi. apply (Hov b); [|done]. apply elem_of_values. exists (i_base i).
    apply (own_global v (inv_own v Hg)). unfold bbase. by rewrite Hbi. }
  destruct (device_inv v x t p base len flags kf dl Hi Hp ltac:(eauto) Hblk Hc Hout) as [Hiw Hib].
  assert (Hr : page_range base (base + len)). { unfold page_range. split_and!; try lia. by rewrite Z.add_mod, B4, B5. }
  apply wp_alias; [done|done|done|]. set (w := aliased base (base + len) kf v) in *.
  assert (Hno : forall rc, rc <> 0 -> Q rc w x) by (intros; apply Hbad; [done|done|right; by exists kf]).
  apply wp_bind, wp_try_alloc. intros []; [cbn [negb]|by apply wp_ret, Hno].
  apply wp_bind, wp_try_alloc. intros []; [cbn [negb]|by apply wp_ret, Hno].
  eapply (wp_reflag p base (base + len) _ (flagged base (base + len) kf m)); [unfold w, aliased; vsimpl; by rewrite Hm|done|done|done|
    apply (map_clean w (inv_map w (inv_graph _ _ _ Hiw)))|].
  destruct (clear_free v (device_block base len flags kf dl) p (proj1 (proj1 (graph_split v) Hg)) Hblk Hc) as [Hf1 Hf2].
  apply wp_bind, wp_lock_below; [rewrite Hx; by repeat constructor|]. apply wp_bind. eapply wp_get_proc; [done|]. intros oa _.
  rewrite bool_decide_false; [|by apply eq_None_not_Some]. rewrite Hx.
  apply (wp_publish p (device_block base len flags kf dl)); [done|done|]. apply wp_ret. rewrite <-Hx.
  replace (set_held (x_held x) x) with x by (by destruct x). apply Hok; [exact Hib|]. by exists kf, dl.
Qed.

(** ** Taking a ring down *)

#[global] Instance anchor_eq_dec : EqDecision anchor.
Proof. solve_decision. Defined.

Definition set_anchor (oa : option anchor) (p : Z) (r : option Z) v : gview :=
  match oa with
  | None => v
  | Some share_ch => upd_v_share_ch (fset p r) v
  | Some tree_ch => upd_v_tree_ch (fset p r) v
  | Some iommu_ch => upd_v_iommu_ch (fset p r) v
  end.

(** Ring [r] of block [b], owned by [o], is gone. *)
Definition unringed v (b o r : Z) : gview := drop_ring r (set_anchor (ring_anchor v r) o None (upd_v_bring (fset b None) v)).

Lemma set_anchor_get oa p r v a q : v_anchor (set_anchor oa p r v) a q =
  if decide (oa = Some a /\ q = p) then r else v_anchor v a q.
Proof.
  destruct oa as [[]|], a; simpl; unfold fset; repeat case_decide; try done; destruct_and?; subst; by exfalso; auto.
Qed.

Lemma set_anchor_keeps oa p r v :
  v_bring (set_anchor oa p r v) = v_bring v /\ v_rblock (set_anchor oa p r v) = v_rblock v /\ v_rops (set_anchor oa p r v) = v_rops v /\
  v_rslots (set_anchor oa p r v) = v_rslots v /\ v_owner (set_anchor oa p r v) = v_owner v /\ v_info (set_anchor oa p r v) = v_info v /\
  v_sharers (set_anchor oa p r v) = v_sharers v /\ v_bpins (set_anchor oa p r v) = v_bpins v /\ v_nref (set_anchor oa p r v) = v_nref v /\
  v_dma (set_anchor oa p r v) = v_dma v.
Proof. by destruct oa as [[]|]. Qed.

Lemma unringed_ring v b o r : ring_ok v -> v_bring v b = Some r -> v_owner v b = Some o -> ring_ok (unringed v b o r).
Proof.
  intros [R1 R2 R3 R4] Hb Ho. unfold unringed. set (w := upd_v_bring (fset b None) v).
  destruct (set_anchor_keeps (ring_anchor v r) o None w) as (E1 & E2 & E3 & E4 & E5 & E6 & E7 & E8 & E9 & _).
  change (v_bring w) with (fset b None (v_bring v)) in E1. change (v_rblock w) with (v_rblock v) in E2.
  change (v_rops w) with (v_rops v) in E3. change (v_rslots w) with (v_rslots v) in E4. change (v_owner w) with (v_owner v) in E5.
  change (v_info w) with (v_info v) in E6. change (v_sharers w) with (v_sharers v) in E7. change (v_bpins w) with (v_bpins v) in E8.
  change (v_nref w) with (v_nref v) in E9.
  split.
  - intros b' r'. unfold drop_ring. vsimpl. rewrite E1, E2. unfold fset.
    destruct (decide (b' = b)) as [->|Hb'], (decide (r' = r)) as [->|Hr']; [done| |split; [|done]|apply R1].
    + split; [done|]. rewrite <-R1. congruence.
    + rewrite R1. intros Hx. apply R1 in Hb. congruence.
  - intros b' r'. unfold drop_ring. vsimpl. rewrite E1, E4, E6, E7, E8, E9. unfold fset. case_decide as Hb'; [done|]. intros Hr'.
    destruct (R2 b' r' Hr') as (A1 & A2 & A3 & A4). split_and!; [done|done|done|]. rewrite decide_False; [done|]. intros ->.
    apply R1 in Hr', Hb. congruence.
  - intros r' b'. unfold drop_ring. vsimpl. rewrite E2, E3. unfold fset. case_decide; [done|apply R3].
  - intros a q r'. assert (ring_anchor (drop_ring r (set_anchor (ring_anchor v r) o None w)) r' =
      if decide (r' = r) then None else ring_anchor v r') as ->.
    { unfold ring_anchor at 1, drop_ring. vsimpl. rewrite E3. unfold fset. by case_decide. }
    change (v_anchor (drop_ring _ _) a q) with (v_anchor (set_anchor (ring_anchor v r) o None w) a q).
    rewrite set_anchor_get. unfold drop_ring. vsimpl. rewrite E2, E5. change (v_anchor w a q) with (v_anchor v a q). unfold fset.
    destruct (decide (r' = r)) as [->|Hr'].
    + split; [|by intros (? & ? & _)]. case_decide as Hc; [done|]. intros Ha%R4. destruct Ha as (b' & H1 & H2 & H3). exfalso. apply Hc.
      split; [done|]. apply R1 in Hb. congruence.
    + case_decide as Hc; [|apply R4]. destruct Hc as [Hc ->]. split; [done|]. intros Hx.
      assert (v_anchor v a o = Some r') as Hx1 by (by apply R4).
      assert (v_anchor v a o = Some r) as Hx2. { apply R4. exists b. apply R1 in Hb. done. } congruence.
Qed.

Lemma thr_unring v b : thr_ok v -> thr_ok (upd_v_bring (fset b None) v).
Proof.
  intros [T1 T2 T3 T4 T5 T6]. split; try assumption. intros t p c Ht. destruct (T4 t p c Ht) as (? & ? & ?). split_and!; [done|done|].
  vsimpl. unfold fset. by case_decide.
Qed.

Lemma wake_unring v b oa p r : wake_ok v -> wake_ok (set_anchor oa p r (upd_v_bring (fset b None) v)).
Proof.
  intros [R T Th]. pose proof (thr_unring v b Th) as Th'.
  destruct oa as [[]|]; cbn [set_anchor]; (split; [eapply reg_cols, R; done|keep T|keep Th']).
Qed.

Lemma graph_unringed v b o r : graph_inv v -> v_bring v b = Some r -> v_owner v b = Some o -> graph_inv (unringed v b o r).
Proof.
  intros [R T O E P Rg Th G Mp] Hb Ho. pose proof (unringed_ring v b o r Rg Hb Ho) as Hr. pose proof (thr_unring v b Th) as Th'.
  unfold unringed, drop_ring in *. destruct (ring_anchor v r) as [[]|]; cbn [set_anchor] in *;
    (split; [eapply reg_cols, R; done|keep T|keep O|keep E|by apply (pend_links v), eq_refl|exact Hr|keep Th'|keep G|keep Mp]).
Qed.

Lemma wp_ring_ops r b id ops Q v x : v_rblock v r = Some b -> v_rops v r = Some id -> scheme_lookup id = Some ops -> Q ops v x ->
  wp (ring_ops r) Q v x.
Proof. intros Hb Ho Hl H. unfold ring_ops. ws. vsimpl. eapply wp_deref; [exact Hl|done]. Qed.

Lemma wp_anchor_set a p r Q v x : is_Some (v_pid v p) -> Q tt (set_anchor (Some a) p r v) x -> wp (mod_proc p (anchor_set a r)) Q v x.
Proof.
  intros Hp H. destruct a; [apply (wp_p_share_ch p (fun _ => r))|apply (wp_p_tree_ch p (fun _ => r))|apply (wp_p_iommu_ch p (fun _ => r))]; done.
Qed.

Lemma wp_ring_end r id ops Q v x : scheme_lookup id = Some ops -> v_rops v r = Some id -> ring_live v r -> wake_ok v ->
  sched_inv v x [] [] -> scheme_inv v x -> x_held x = [LUmem] ->
  (forall d x', dma_fewer v d -> sched_inv v x' [] [] -> quiet x x' -> scheme_inv (upd_v_dma (fun _ => d) (drop_ring r v)) (set_claims (delete r) x') ->
     Q tt (upd_v_dma (fun _ => d) (drop_ring r v)) (set_claims (delete r) x')) ->
  wp (_ ← match so_destroy ops with None => skip | Some destroy => destroy r end;
      _ ← lock (LCq r); _ ← unlock (LCq r); modify (upd_k_rings (delete r))) Q v x.
Proof.
  intros Hops Hid Hl Hw Hs Hsch Hx H.
  assert (Hend : forall d x', dma_fewer v d -> sched_inv v x' [] [] -> quiet x x' ->
    scheme_inv (drop_ring r (upd_v_dma (fun _ => d) v)) (set_claims (delete r) x') ->
    wp (_ ← lock (LCq r); _ ← unlock (LCq r); modify (upd_k_rings (delete r))) Q (upd_v_dma (fun _ => d) v) x').
  { intros d x' Hd Hs' Hq Hsc. pose proof (quiet_held _ _ Hq) as Hh. rewrite Hx in Hh.
    apply wp_bind, wp_lock_below; [rewrite Hh; by repeat constructor|]. apply wp_bind.
    eapply wp_unlock_top; [cbn; by rewrite Hh|by repeat constructor|]. apply wp_free_ring.
    replace (set_held [LUmem] _) with x' by (rewrite <-Hh; by destruct x'). exact (H d x' Hd Hs' Hq Hsc). }
  apply wp_bind. destruct (so_destroy ops) as [destroy|] eqn:Ed.
  - eapply scheme_destroy_ok; [done..|]. intros d x' Hd Hs' Hq Hsc. by apply Hend.
  - apply wp_ret. pose proof (scheme_idle id ops r v x Hops Ed Hid Hsch) as Hsc.
    specialize (Hend (v_dma v) x (fun _ E => E) Hs (quiet_refl x)). replace (upd_v_dma (fun _ => v_dma v) v) with v in Hend by (by destruct v).
    by apply Hend.
Qed.

(** What is left of the schemes' state once the ring is gone. *)
Lemma wp_ring_destroy b i o Q v x : v_info v b = Some i -> v_owner v b = Some o -> live v o -> ring_ok v -> wake_ok v ->
  sched_inv v x [] [] -> scheme_inv v x -> x_held x = [LUmem] ->
  (v_bring v b = None -> Q tt (upd_v_bring (fset b None) v) x) ->
  (forall r d x', v_bring v b = Some r -> dma_fewer v d -> sched_inv v x' [] [] -> quiet x x' ->
     scheme_inv (upd_v_dma (fun _ => d) (unringed v b o r)) (set_claims (delete r) x') ->
     Q tt (upd_v_dma (fun _ => d) (unringed v b o r)) (set_claims (delete r) x')) ->
  wp (channel_ring_destroy b) Q v x.
Proof.
  intros Hi Ho Hl Hr Hw Hs Hsch Hx Hnone Hsome. unfold channel_ring_destroy. ws. vsimpl. ws.
  destruct (v_bring v b) as [r|] eqn:Er; [|by apply wp_ret, Hnone].
  pose proof (proj1 (ring_block v Hr b r) Er) as Hrb. destruct (ring_scheme v Hr r b Hrb) as (id & ops & Hid & Hops).
  apply wp_bind. eapply wp_ring_ops; [done..|]. set (w0 := upd_v_bring _ v).
  assert (Ean : ring_anchor v r = so_anchor ops) by (unfold ring_anchor; rewrite Hid; simpl; by rewrite Hops).
  set (w := set_anchor (so_anchor ops) o None w0).
  assert (Hsw : forall y, sched_inv v y [] [] <-> sched_inv w y [] []).
  { intros y. unfold w, w0. split; destruct (so_anchor ops) as [[]|]; (eapply sched_ext; [done|done|by intros p]). }
  assert (Hww : wake_ok w).
  { by apply wake_unring. }
  assert (Hgo : wp (_ ← match so_destroy ops with None => skip | Some destroy => destroy r end;
      _ ← lock (LCq r); _ ← unlock (LCq r); modify (upd_k_rings (delete r))) Q w x).
  { destruct (set_anchor_keeps (so_anchor ops) o None w0) as (E1 & E2 & E3 & E4 & E5 & E6 & _ & _ & _ & E10). fold w in E1, E2, E3, E4, E5, E6, E10.
    apply (wp_ring_end r id ops); [done|by rewrite E3| |done|by apply Hsw| |done|].
    - exists b, id, i, o. by rewrite E2, E3, E5, E6.
    - by eapply scheme_ext; [| | | |exact Hsch]; [rewrite E2|rewrite E3|apply same_dma_eq|].
    - intros d x' Hd Hs' Hq Hsc. assert (Ew : drop_ring r w = unringed v b o r) by (unfold unringed; by rewrite Ean).
      rewrite Ew in *. apply Hsome; [done|intros b'; specialize (Hd b'); by rewrite E10 in Hd|by apply Hsw|done|done]. }
  apply wp_bind. destruct (so_anchor ops) as [a|] eqn:Ea; [|apply wp_ret; exact Hgo].
  ws. apply wp_bind, wp_asserts; [|apply wp_anchor_set; [done|exact Hgo]].
  apply bool_decide_eq_true. assert (v_anchor v a o = Some r) as Hx'; [|by destruct a].
  apply (ring_anchored v Hr). by exists b.
Qed.

(** ** umem_free *)

(** Block [b], which is [i], is gone; its owner [p] sees there what the kernel sees. *)
Definition gone v (b p : Z) (i : binfo) : gview :=
  drop_block b (upd_v_gblocks (delete (i_base i)) (upd_v_pblocks (fset p (delete (i_base i) (v_pblocks v p)))
    (reflag p (i_base i) (i_base i + i_bytes i) (i_kernel_flags i) v))).

(** Flushing and unpinning a tree that was clean before it was changed. *)
Lemma settle w p M : v_pins w p = 0 -> v_dirty w p = false ->
  upd_v_pins (fset p 0) (upd_v_dirty (fset p false) (upd_v_pins (fset p 1) (upd_v_map M (upd_v_dirty (fset p true) w)))) = upd_v_map M w.
Proof.
  intros Hn Hd. destruct w. simpl in Hn, Hd. lazy beta iota zeta delta -[fset]. by rewrite !fset_fset, (fset_id p 0), (fset_id p false).
Qed.

Section Gone.
Context (v : gview) (b p : Z) (i : binfo) (Hg : graph_inv v) (Hi : v_info v b = Some i) (Ho : v_owner v b = Some p)
  (Hs : v_sharers v b = ∅) (Hr : v_bring v b = None) (Hp : v_bpins v b = 0).

Lemma gone_edges e : v_eblock v e <> Some b.
Proof.
  intros He. destruct (proj1 (edge_ends v (inv_edge v Hg) e)) as [q Hq]; [eauto|].
  assert (v_sharers v b !! q = Some e) as Hx by (by apply (edge_sharers v (inv_edge v Hg))). by rewrite Hs in Hx.
Qed.

Lemma gone_rings r : v_rblock v r <> Some b.
Proof. intros Hx%(ring_block v (inv_ring v Hg)). congruence. Qed.

Lemma gone_bbase b' : bbase (gone v b p i) b' = if decide (b' = b) then None else bbase v b'.
Proof. unfold bbase, gone, drop_block. vsimpl. unfold fset. by case_decide. Qed.

Lemma gone_base b' : bbase v b' = Some (i_base i) -> b' = b.
Proof.
  unfold bbase. destruct (v_info v b') as [i'|] eqn:Ei; [|done]. intros [= E].
  destruct (blk_range i (geo_block v (inv_geo v Hg) b i Hi)) as (? & ? & ?), (blk_range i' (geo_block v (inv_geo v Hg) b' i' Ei)) as (? & ? & ?).
  apply (geo_apart v (inv_geo v Hg) b' b i' i (i_base i)); [done|done|..]; unfold in_block; lia.
Qed.

Lemma gone_own : own_ok (gone v b p i).
Proof.
  pose proof (inv_own v Hg) as [O1 O2 O3 O4 O5 O6]. split.
  - intros q base b'. rewrite gone_bbase. unfold gone, drop_block, reflag. vsimpl. unfold fset.
    destruct (decide (q = p)) as [->|Hq], (decide (b' = b)) as [->|Hb'].
    + rewrite lookup_delete_Some. split; [|by intros [? _]]. intros [Hne Hx%O1]. destruct Hx as [_ Hx]. unfold bbase in Hx. rewrite Hi in Hx. simpl in Hx. congruence.
    + rewrite lookup_delete_Some, <-O1. split; [by intros [_ ?]|]. intros Hx. split; [|done]. intros <-.
      apply O1 in Hx as [_ Hx]. by apply gone_base in Hx.
    + split; [|by intros [? _]]. intros [Hx _]%O1. congruence.
    + apply O1.
  - intros base b'. rewrite gone_bbase. unfold gone, drop_block. vsimpl. rewrite lookup_delete_Some. case_decide as Hb'.
    + subst b'. split; [|done]. intros [Hne Hx%O2]. unfold bbase in Hx. rewrite Hi in Hx. simpl in Hx. congruence.
    + rewrite <-O2. split; [by intros [_ ?]|]. intros Hx. split; [|done]. intros <-. apply O2 in Hx. by apply gone_base in Hx.
  - intros b' q. unfold gone, drop_block. vsimpl. unfold fset at 1. case_decide; [done|]. intros Hx%O3. by apply reflag_maps.
  - intros b'. unfold gone, drop_block. vsimpl. unfold fset. case_decide; [|apply O4]. split; intros [? ?]; done.
  - intros b'. unfold gone, drop_block. vsimpl. unfold fset. case_decide; [by intros [? ?]|apply O5].
  - exact O6.
Qed.

Lemma gone_edge : edge_ok (gone v b p i).
Proof.
  pose proof (inv_edge v Hg) as [E1 E2 E3 E4 E5 E6]. split.
  - intros b' q e. unfold gone, drop_block. vsimpl. unfold fset. case_decide; [|apply E1]. subst b'. rewrite lookup_empty.
    split; [done|]. intros [Hx _]. by destruct (gone_edges e).
  - intros q base e. change (v_views (gone v b p i)) with (v_views v). rewrite E2.
    split; intros (H1 & b' & H2 & H3); (split; [done|]); exists b'; (split; [done|]).
    + rewrite gone_bbase, decide_False; [done|]. intros ->. by destruct (gone_edges e).
    + rewrite gone_bbase in H3. by case_decide.
  - exact E3.
  - intros e b' He. destruct (E4 e b' He) as [? ?]. split; [|done]. unfold gone, drop_block. vsimpl. rewrite fset_ne; [done|].
    intros ->. by destruct (gone_edges e).
  - intros e q He. by apply reflag_maps, (E5 e).
  - intros e b' q He Ht. unfold gone, drop_block. vsimpl. unfold fset. case_decide; [done|]. by apply (E6 e).
Qed.

Lemma gone_ring : ring_ok (gone v b p i).
Proof.
  pose proof (inv_ring v Hg) as [R1 R2 R3 R4]. split.
  - intros b' r. unfold gone, drop_block. vsimpl. unfold fset. case_decide; [|apply R1]. subst b'. split; [done|].
    intros Hx. by destruct (gone_rings r).
  - intros b' r Hr'. unfold gone, drop_block in Hr'. vsimpl_in Hr'. unfold fset in Hr'. case_decide as Hb; [done|].
    destruct (R2 b' r Hr') as (A1 & A2 & A3 & A4). unfold gone, drop_block. vsimpl. by rewrite !fset_ne.
  - exact R3.
  - intros a q r. change (v_anchor (gone v b p i) a q) with (v_anchor v a q). rewrite R4.
    split; intros (b' & H1 & H2 & H3); exists b'; (split; [done|]); (split; [|exact H3]).
    + unfold gone, drop_block. vsimpl. rewrite fset_ne; [done|]. intros ->. by destruct (gone_rings r).
    + unfold gone, drop_block in H2. vsimpl_in H2. unfold fset in H2. by case_decide.
Qed.

Lemma gone_pinning : pinning v b = ∅.
Proof.
  pose proof (thr_pins v (inv_thr v Hg) b ltac:(eauto)) as Hn. rewrite Hp in Hn. apply map_size_empty_iff. lia.
Qed.

Lemma gone_thr : thr_ok (gone v b p i).
Proof.
  pose proof (inv_thr v Hg) as [T1 T2 T3 T4 T5 T6]. split; [exact T1|exact T2| | | |exact T6].
  - intros t q cb Ht. destruct (T3 t q cb Ht). split; [by apply reflag_maps|done].
  - intros t q c Ht. destruct (T4 t q c Ht) as (A1 & A2 & A3). assert (c <> b).
    { intros ->. pose proof gone_pinning as Hx. apply (map_empty (pinning v b)) with (i := t) in Hx.
      assert (pinning v b !! t = Some (q, Some b)) as Hy by (by apply map_lookup_filter_Some). congruence. }
    unfold gone, drop_block. vsimpl. by rewrite !fset_ne.
  - intros b'. change (pinning (gone v b p i) b') with (pinning v b'). unfold gone, drop_block. vsimpl. unfold fset.
    case_decide; [by intros [? ?]|apply T5].
Qed.

Lemma graph_gone : graph_inv (gone v b p i).
Proof.
  pose proof (geo_block v (inv_geo v Hg) b i Hi) as Hblk. destruct (blk_kernel i Hblk) as (_ & _ & Hrd).
  destruct (blk_range i Hblk) as (B1 & B2 & B3).
  split; [| keep (inv_tree v Hg)|apply gone_own|apply gone_edge| |apply gone_ring|apply gone_thr| |].
  - pose proof (inv_reg v Hg) as [R1 R2 R3 R4]. split; [exact R1|exact R2| |].
    + intros q Hq. by apply R3, (reflag_maps_inv p (i_base i) (i_base i + i_bytes i) (i_kernel_flags i)).
    + intros q Hl Hq. apply (eff_dead_cols v); [done|done|]. apply R4; [done|]. apply eq_None_not_Some.
      intros Hx%(reflag_maps p (i_base i) (i_base i + i_bytes i) (i_kernel_flags i)). destruct Hx as [? Hx].
      change (v_map (reflag p (i_base i) (i_base i + i_bytes i) (i_kernel_flags i) v) q = None) in Hq. congruence.
  - by apply (pend_links v), eq_refl; [apply Hg|..].
  - pose proof (inv_geo v Hg) as [G1 G2]. split.
    + intros b' i'. unfold gone, drop_block. vsimpl. unfold fset. case_decide; [done|apply G1].
    + intros b1 b2 i1 i2 a. unfold gone, drop_block. vsimpl. unfold fset. repeat case_decide; try done. apply G2.
  - pose proof (inv_map v Hg) as [M1 M2 M3 M4 M5]. split; [|exact M2| |exact M4|exact M5].
    + intros q m a Hq Ha. change (v_map (reflag p (i_base i) (i_base i + i_bytes i) (i_kernel_flags i) v) q = Some m) in Hq.
      change (v_kmap (gone v b p i)) with (v_kmap v).
      assert (Hold : forall m0, v_map v q = Some m0 -> (q = p -> ~ in_block i a) -> m0 a = v_kmap v a \/
        exists b' i', sees (gone v b p i) q b' /\ v_info (gone v b p i) b' = Some i' /\ in_block i' a).
      { intros m0 Hm0 Hout. destruct (M1 q m0 a Hm0 Ha) as [?|(b' & i' & H1 & H2 & H3)]; [by left|]. right. exists b', i'.
        assert (b' <> b). { intros ->. destruct H1 as [H1|(e & H1 & _)]; [|by destruct (gone_edges e)].
          rewrite Ho in H1. injection H1 as <-. rewrite Hi in H2. injection H2 as <-. by apply Hout. }
        unfold gone, drop_block. split_and!; [|vsimpl; by rewrite fset_ne|done].
        destruct H1 as [H1|He]; [left; vsimpl; by rewrite fset_ne|by right]. }
      unfold reflag in Hq. vsimpl_in Hq. destruct (decide (q = p)) as [->|Hqp].
      * rewrite fset_eq in Hq. destruct (v_map v p) as [m0|] eqn:Em; [|done]. injection Hq as <-.
        destruct (decide (i_base i <= a < i_base i + i_bytes i)) as [Hin|Hout].
        -- left. rewrite flagged_in by done. rewrite flags_shown by done. symmetry. by apply (M3 b i).
        -- rewrite flagged_out by done. by apply Hold.
      * rewrite fset_ne in Hq by done. by apply Hold.
    + intros b' i' a. unfold gone, drop_block. vsimpl. unfold fset. case_decide; [done|apply M3].
Qed.

(** Between the locked and the unlocked half of a release: the block is out of the
    indices, and its owner's tree is changed, dirty and pinned. *)
Definition limbo u (m : Z -> Z) : gview :=
  upd_v_pins (fset p 1) (upd_v_map (fset p (Some (flagged (i_base i) (i_base i + i_bytes i) (i_kernel_flags i) m)))
    (upd_v_dirty (fset p true) (upd_v_gblocks (delete (i_base i)) (upd_v_pblocks (fset p (delete (i_base i) (v_pblocks u p))) u)))).

Lemma limbo_gone m : v_map v p = Some m ->
  drop_block b (upd_v_pins (fset p 0) (upd_v_dirty (fset p false) (limbo v m))) = gone v b p i.
Proof using Hg.
  intros Hm. destruct (map_clean v (inv_map v Hg) p) as [Hd Hn]. unfold limbo. rewrite settle by done.
  unfold gone, reflag. by rewrite Hm.
Qed.

Lemma pool_gone x t : pool_inv v x t -> pool_inv (gone v b p i) x t.
Proof using.
  intros [P1 P2 P3 P4 P5 P6]. split; [done|done| |done|done|].
  - intros b' i' pg. unfold gone, drop_block. vsimpl. unfold fset. case_decide; [done|apply P3].
  - intros b' i' a. unfold gone, drop_block. vsimpl. unfold fset. case_decide; [done|apply P6].
Qed.

Lemma gone_pages x t : pool_inv v x t -> i_backing i = UBLOCK_RAM ->
  unused (gone v b p i) (i_base i / PAGE_SIZE) (2 ^ i_order i) /\
  page (x_pool x) t (i_base i / PAGE_SIZE) = PAlloc (i_base i / PAGE_SIZE) (2 ^ i_order i) /\
  0 <= i_base i / PAGE_SIZE < 2 ^ ba_max_level (x_pool x).
Proof using Hg Hi.
  intros Hpl Hram. pose proof (geo_block v (inv_geo v Hg) b i Hi) as Hblk. pose proof (blk_backing i Hblk) as Hb. rewrite Hram in Hb.
  destruct (blk_range i Hblk) as (B1 & B2 & B3), (blk_aligned i Hblk) as [E1 E2], Hb as (_ & Ho' & Hbytes).
  assert (Eb : i_base i / PAGE_SIZE * PAGE_SIZE = i_base i).
  { unfold PAGE_SIZE in *. pose proof (Z.div_mod (i_base i) 4096 ltac:(lia)). lia. }
  destruct (pool_block v x t Hpl b i (i_base i / PAGE_SIZE) Hi Hram ltac:(lia)) as [Hrng Hpg]. split_and!; [|done|lia|lia].
  intros b' i' pg Hi' Hram' Hpg' Hin. unfold gone, drop_block in Hi'. vsimpl_in Hi'. unfold fset in Hi'. case_decide as Hne; [done|].
  apply Hne. apply (geo_apart v (inv_geo v Hg) b' b i' i (pg * PAGE_SIZE)); [done|done|exact Hpg'|]. unfold in_block, PAGE_SIZE in *. nia.
Qed.

Lemma wp_release_finish m t Q x : pool_inv v x t -> v_map v p = Some m -> live v p -> x_held x = [] ->
  (forall ba t', pool_inv (gone v b p i) (set_pool ba x) t' -> Q tt (gone v b p i) (set_pool ba x)) ->
  wp (umem_release_finish (Release (Some b) [p])) Q (limbo v m) x.
Proof using Hg Hi Ho.
  intros Hpl Hm Hl Hx H. unfold umem_release_finish. cbn [rel_b rel_ases iterM].
  apply wp_bind, wp_bind. eapply wp_as_flush; [unfold limbo; vsimpl; by rewrite fset_eq|done|]. apply wp_ret.
  apply wp_bind, wp_bind. eapply wp_as_unpin; [unfold limbo; vsimpl; by rewrite fset_eq|done|unfold limbo; vsimpl; by rewrite fset_eq|].
  apply wp_ret. assert (E : v_pins (upd_v_dirty (fset p false) (limbo v m)) p - 1 = 0) by (unfold limbo; vsimpl; by rewrite fset_eq).
  rewrite E. clear E. apply wp_bind. eapply wp_get_block; [exact Hi|exact Ho|]. cbn [block_of b_backing b_base].
  assert (Hend : forall y ba t', y = set_pool ba x -> pool_inv (gone v b p i) (set_pool ba x) t' ->
    wp (modify (upd_k_blocks (delete b))) Q (upd_v_pins (fset p 0) (upd_v_dirty (fset p false) (limbo v m))) y).
  { intros y ba t' -> Hpl'. apply wp_free_block. rewrite limbo_gone by done. by eapply H. }
  apply wp_bind. destruct (i_backing i) eqn:Eb.
  - rewrite bool_decide_true by done. destruct (gone_pages x t Hpl Eb) as (Hu & Hpg & Hr'). apply wp_bind.
    pose proof (pool_gone x t Hpl) as Hplg.
    apply (wp_buddy_free (i_base i / PAGE_SIZE) (i_base i / PAGE_SIZE) (2 ^ i_order i) t); [|done|done|rewrite Hx; constructor|].
    { destruct Hpl as [P1 P2 P3 P4 P5 P6]. by split. }
    intros ba t' Hrel. apply wp_asserts; [done|]. apply (Hend _ ba t'); [done|]. by eapply pool_release.
  - rewrite bool_decide_false by done. apply wp_ret. apply (Hend x (x_pool x) t); [by destruct x|].
    replace (set_pool (x_pool x) x) with x by (by destruct x). by apply pool_gone.
Qed.

End Gone.

Lemma unringed_index v b o r G B : unringed (upd_v_gblocks G (upd_v_pblocks B v)) b o r = upd_v_gblocks G (upd_v_pblocks B (unringed v b o r)).
Proof.
  unfold unringed. change (ring_anchor (upd_v_gblocks G (upd_v_pblocks B v)) r) with (ring_anchor v r).
  by destruct (ring_anchor v r) as [[]|].
Qed.

Lemma bring_same v b : v_bring v b = None -> upd_v_bring (fset b None) v = v.
Proof. intros E. destruct v. unfold upd_v_bring. simpl in *. by rewrite fset_id. Qed.

(** Block [b] of [o] has lost its ring, if it had one. *)
Definition disarmed v (b o : Z) u : Prop :=
  v_bring v b = None /\ u = v \/ exists r d, v_bring v b = Some r /\ dma_fewer v d /\ u = upd_v_dma (fun _ => d) (unringed v b o r).

Lemma disarmed_keeps v b o u : disarmed v b o u -> v_info u = v_info v /\ v_owner u = v_owner v /\ v_sharers u = v_sharers v /\
  v_bpins u = v_bpins v /\ v_map u = v_map v /\ v_kmap u = v_kmap v /\ v_threads u = v_threads v /\ v_pid u = v_pid v /\ v_pblocks u = v_pblocks v /\ v_bring u b = None.
Proof.
  intros [[Hb ->]|(r & d & Hb & _ & ->)]; [done|]. unfold unringed, drop_ring.
  destruct (ring_anchor v r) as [[]|]; cbn [set_anchor]; vsimpl; rewrite fset_eq; done.
Qed.

Lemma disarmed_dma v b o u b' : disarmed v b o u -> v_dma v b' = None -> v_dma u b' = None.
Proof. intros [[_ ->]|(r & d & _ & Hd & ->)]; [done|]. apply Hd. Qed.

Lemma graph_redma v d : graph_inv v -> graph_inv (upd_v_dma (fun _ => d) v).
Proof.
  intros [R T O E P Rg Th G Mp].
  split; [eapply reg_cols, R; done|keep T|keep O|keep E|by apply (pend_links v), eq_refl|keep Rg|keep Th|keep G|keep Mp].
Qed.

Lemma graph_disarmed v b o u : graph_inv v -> v_owner v b = Some o -> disarmed v b o u -> graph_inv u.
Proof. intros Hg Ho [[_ ->]|(r & d & Hb & _ & ->)]; [done|]. by apply graph_redma, graph_unringed. Qed.

Lemma wp_destroyable b i o Q v x : graph_inv v -> v_info v b = Some i -> v_owner v b = Some o -> (forall ok, Q ok v x) ->
  wp (channel_block_destroyable b) Q v x.
Proof.
  intros Hg Hi Ho H. unfold channel_block_destroyable. ws. vsimpl. destruct (v_bring v b) as [r|] eqn:Er; [|by apply wp_ret].
  pose proof (proj1 (ring_block v (inv_ring v Hg) b r) Er) as Hrb.
  destruct (ring_scheme v (inv_ring v Hg) r b Hrb) as (id & ops & Hid & Hops). apply wp_bind. eapply wp_ring_ops; [done..|].
  destruct (so_destroyable ops) as [f|] eqn:Ef; [|by apply wp_ret]. eapply scheme_destroyable_ok; [done|done|exact H].
Qed.

(** The locked half of a release, from the indices onwards. *)
Lemma wp_release_prepare b i o m Q v x : inv v x -> v_info v b = Some i -> v_owner v b = Some o -> v_map v o = Some m -> x_held x = [LUmem] ->
  v_sharers v b = ∅ ->
  (forall u x', disarmed v b o u -> sched_inv u x' [] [] -> scheme_inv u x' ->
     (exists y, quiet x y /\ (x' = y \/ exists r, x' = set_claims (delete r) y)) -> Q (Release (Some b) [o]) (limbo o i u m) x') ->
  wp (block_release_prepare b) Q
    (upd_v_gblocks (delete (i_base i)) (upd_v_pblocks (fset o (delete (i_base i) (v_pblocks v o))) v)) x.
Proof.
  intros Hi Hbi Ho Hm Hx Hsh H. pose proof (inv_graph _ _ _ Hi) as Hg. pose proof (inv_live _ _ _ _ Hi Hm) as Hl.
  unfold block_release_prepare. apply wp_bind. eapply wp_get_block; [exact Hbi|exact Ho|]. vsimpl.
  apply wp_bind, wp_asserts; [cbn; by rewrite Hsh, map_size_empty|]. apply wp_bind. rewrite (geo_end v b i (inv_geo v Hg) Hbi).
  set (w := upd_v_gblocks _ _).
  assert (Hend : forall u x', disarmed v b o u -> sched_inv u x' [] [] -> scheme_inv u x' ->
     (exists y, quiet x y /\ (x' = y \/ exists r, x' = set_claims (delete r) y)) ->
     wp (_ ← must_alloc; _ ← as_flag o (i_base i) (i_base i + i_bytes i) (i_kernel_flags i); _ ← as_pin o; mret (Release (Some b) [o])) Q
       (upd_v_gblocks (delete (i_base i)) (upd_v_pblocks (fset o (delete (i_base i) (v_pblocks u o))) u)) x').
  { intros u x' Hu Hs Hsc Hq. destruct (disarmed_keeps v b o u Hu) as (U1 & U2 & U3 & U4 & U5 & U6 & U7 & U8 & U9 & _).
    ws. apply wp_bind. eapply wp_as_flag; [vsimpl; by rewrite U5|vsimpl; by rewrite U8; eexists|by eapply block_range; [apply Hg|]|
      apply (blk_kernel i (geo_block v (inv_geo v Hg) b i Hbi))|].
    apply wp_bind. eapply wp_as_pin; [vsimpl; by rewrite fset_eq|vsimpl; by rewrite U8; eexists|]. apply wp_ret. vsimpl.
    rewrite (proj2 (map_clean u (inv_map u (graph_disarmed v b o u Hg Ho Hu)) o)). by apply H. }
  apply (wp_ring_destroy b i o); [done|done|done|keep (inv_ring v Hg)| | | |done| |].
  - destruct (inv_wake v Hg) as [W1 W2 W3]. split; [eapply reg_cols, W1; done|keep W2|keep W3].
  - eapply sched_ext; [| | |apply Hi]; [done|done|by intros q].
  - eapply scheme_ext; [| | | |apply Hi]; done.
  - intros Hr. specialize (Hend v x ltac:(by left) ltac:(apply Hi) ltac:(apply Hi) ltac:(exists x; split; [apply quiet_refl|by left])).
    replace (upd_v_bring (fset b None) w) with w; [exact Hend|]. symmetry. by apply bring_same.
  - intros r d x' Hr Hd Hs Hq Hsc. unfold w in *. rewrite unringed_index in *. set (u := upd_v_dma (fun _ => d) (unringed v b o r)).
    assert (Hu : disarmed v b o u) by (right; by exists r, d).
    destruct (disarmed_keeps v b o u Hu) as (U1 & U2 & U3 & U4 & U5 & U6 & U7 & U8 & U9 & _).
    specialize (Hend u (set_claims (delete r) x') Hu). rewrite U9 in Hend. apply Hend.
    + eapply sched_ext; [| | |exact Hs]; [done|done|]. intros q Hq'. by rewrite U5.
    + eapply scheme_ext; [| | | |exact Hsc]; done.
    + exists x'. split; [done|]. right. by exists r.
Qed.

Lemma wp_free_locked b i o m Q v x : inv v x -> v_info v b = Some i -> v_owner v b = Some o -> v_map v o = Some m -> x_held x = [LUmem] ->
  (forall rc, rc <> 0 -> Q (rc, Release None []) v x) ->
  (forall u x', v_sharers v b = ∅ -> v_bpins v b = 0 -> v_dma v b = None -> disarmed v b o u -> sched_inv u x' [] [] -> scheme_inv u x' ->
     (exists y, quiet x y /\ (x' = y \/ exists r, x' = set_claims (delete r) y)) ->
     Q (0, Release (Some b) [o]) (limbo o i u m) x') ->
  wp (free_locked o (i_base i)) Q v x.
Proof.
  intros Hi Hbi Ho Hm Hx Hbad Hok. pose proof (inv_graph _ _ _ Hi) as Hg. pose proof (inv_live _ _ _ _ Hi Hm) as Hl.
  assert (Hown : v_pblocks v o !! i_base i = Some b).
  { apply (own_index v (inv_own v Hg)). split; [done|]. unfold bbase. by rewrite Hbi. }
  unfold free_locked. apply wp_bind, wp_lock_below; [rewrite Hx; by repeat constructor|].
  apply wp_bind. eapply wp_get_proc; [done|]. intros oa _. cbn [proc_of p_blocks]. rewrite Hown.
  apply wp_bind. eapply wp_get_block; [done..|]. cbn [block_of b_dma_maps b_thread_pins b_sharers b_base].
  assert (Hno : wp (_ ← umem_proc_unlock o; mret (-5, Release None [])) Q v (set_held (LProc o :: x_held x) x)).
  { apply wp_bind. eapply wp_unlock_top; [done|rewrite Hx; by repeat constructor|]. apply wp_ret.
    replace (set_held _ _) with x by (by destruct x). by apply Hbad. }
  apply wp_bind. destruct (_ || _ || _) eqn:Eref; [by apply wp_ret|].
  rewrite !orb_false_iff in Eref. destruct Eref as ((Ed & Epin) & Esh).
  apply negb_false_iff, Nat.eqb_eq, map_size_empty_iff in Esh. apply negb_false_iff, Z.eqb_eq in Epin.
  apply bool_decide_eq_false, eq_None_not_Some in Ed.
  apply (wp_destroyable b i o); [done..|]. intros []; [cbn [negb]|done]. apply wp_bind, wp_p_blocks; [done|].
  apply wp_bind. eapply wp_unlock_top; [done|rewrite Hx; by repeat constructor|].
  replace (set_held (x_held x) _) with x by (by destruct x). ws. apply wp_bind, wp_asserts.
  { apply bool_decide_eq_true, (own_global v (inv_own v Hg)). unfold bbase. by rewrite Hbi. }
  ws. apply wp_bind. apply (wp_release_prepare b i o m); try done.
  intros u x' Hu Hs Hsc Hq. apply wp_ret, Hok; done.
Qed.

(** Block [b] of [o] is given back. *)
Definition frees v (b o : Z) (i : binfo) v' : Prop :=
  v_sharers v b = ∅ /\ v_bpins v b = 0 /\ v_dma v b = None /\ exists u, disarmed v b o u /\ v' = gone u b o i.

Lemma wp_free caller base m Q v x : inv v x -> v_map v caller = Some m -> x_held x = [] ->
  (forall rc, rc <> 0 -> Q rc v x) ->
  (forall b i o v' x', v_info v b = Some i -> i_base i = base -> v_owner v b = Some o -> authority v caller o ->
     inv v' x' -> frees v b o i v' -> steady x x' -> Q 0 v' x') ->
  wp (umem_free caller base) Q v x.
Proof.
  intros Hi Hm Hx Hbad Hok. pose proof (inv_graph _ _ _ Hi) as Hg. unfold umem_free.
  apply wp_bind, wp_lock_below; [rewrite Hx; constructor|]. rewrite Hx.
  assert (Hend : forall rc, rc <> 0 -> wp (_ ← umem_unlock; mret rc) Q v (set_held [LUmem] x)).
  { intros rc Hrc. apply wp_unlock_one; [done|by apply Hbad]. }
  apply wp_bind, wp_resource_block; [done|by apply Hend|]. intros b i o Hbi Hbase Ho Hlo Hauth. subst base.
  destruct (own_as v (inv_own v Hg) b o Ho) as [mo Hmo]. ws. cbn [block_of b_owner]. apply wp_bind.
  apply (wp_free_locked b i o mo); [by apply inv_held|done..| |].
  - intros rc Hrc. apply wp_bind. eapply wp_unlock_top; [done|by constructor|]. apply wp_bind, wp_ret, wp_ret.
    replace (set_held _ _) with x by (rewrite <-Hx; by destruct x). destruct (Z.eqb_spec rc 0); [done|]. apply Hbad. by destruct (_ =? _).
  - intros u x' Hsh Hpin Hdma Hu Hs Hsc (y & Hy & Hxy). pose proof (graph_disarmed v b o u Hg Ho Hu) as Hgu.
    destruct (disarmed_keeps v b o u Hu) as (U1 & U2 & U3 & U4 & U5 & U6 & U7 & U8 & U9 & U10).
    assert (Hh : x_held x' = [LUmem]) by (pose proof (quiet_held _ _ Hy); by destruct Hxy as [->|[r ->]]).
    assert (Hpp : x_pool x' = x_pool x /\ x_platform x' = x_platform x /\ x_threads x' = x_threads y).
    { destruct (qt_keep _ _ Hy) as (_ & _ & _ & ? & ? & _). by destruct Hxy as [->|[r ->]]. }
    destruct Hpp as (P1 & P2 & P3). apply wp_bind. eapply (wp_unlock_top LUmem []); [done|constructor|].
    apply wp_bind. destruct (pool_frame v u x (set_held [] x')) as [t Ht]; [done..|apply Hi|].
    eapply (wp_release_finish u b o i Hgu); [by rewrite U1|by rewrite U2|exact Ht|by rewrite U5|unfold live; by rewrite U8|done|].
    intros ba t' Ht'. apply wp_ret. eapply (Hok b i o); [done..| | |].
    + split; [apply graph_gone; [done|by rewrite U1|by rewrite U2|by rewrite U3|done|by rewrite U4]|by exists t'| | |].
      * eapply sched_ext; [| | |exact Hs]; [done|done|]. intros q Hq. by apply reflag_maps.
      * intros t0 T HT Hd. cbn in HT. rewrite P3 in HT. by eapply (inv_alive _ _ _ Hi); [eapply (qt_dead _ _ Hy)|].
      * eapply scheme_ext; [| | | |exact Hsc]; [done|done| |done]. intros b'. unfold dma_of, gone. vsimpl. unfold fset.
        case_decide as E; [subst b'|done]. rewrite (disarmed_dma v b o u b Hu Hdma). by destruct (v_info u b).
    + split_and!; [done..|]. by exists u.
    + destruct (quiet_steady _ _ Hy) as [S1 S2]. cbn in S1, S2. split; cbn.
      * rewrite Hx. by destruct Hxy as [->|[r ->]]; cbn; naive_solver.
      * by rewrite P3.
Qed.

End Blocks.
