(* ===== verification/MoveSpec.v ===== *)
(** * Specifications of block transfer

    [umem_move_locked]: the block changes owner, the new owner's borrowed view of it
    becomes ownership, the old owner sees there what the kernel sees. *)

From Stdlib Require Import FunctionalExtensionality.
From S2P Require Import Prelude Buddy Paging Siphash PlatformMem Machine Sched Index Channel Umem Process Graph Wp Invariant BaseSpec SchedSpec ChannelSpec UmemSpec BlockSpec.

Section Moves.
Context {PT : PageTree} {SC : Schemes} {SS : SchemesSafe}.
Implicit Types (v u : gview) (x : rest).

Definition moved u (b from to : Z) (i : binfo) (fl : Z) : gview :=
  upd_v_pblocks (fun f => fset to (<[i_base i := b]> (v_pblocks u to)) (fset from (delete (i_base i) (v_pblocks u from)) f))
    (upd_v_owner (fset b (Some to)) (reflag to (i_base i) (i_base i + i_bytes i) fl
      (reflag from (i_base i) (i_base i + i_bytes i) (i_kernel_flags i) u))).

Section Moved.
Context (v : gview) (b from to : Z) (i : binfo) (fl : Z).
Context (Hg : graph_inv v) (Hi : v_info v b = Some i) (Ho : v_owner v b = Some from) (Hs : v_sharers v b !! to = None)
  (Hr : v_bring v b = None) (Hp : v_bpins v b = 0) (Ht : is_Some (v_map v to)) (Hne : to <> from).

Let w := moved v b from to i fl.

Lemma moved_maps q : is_Some (v_map w q) <-> is_Some (v_map v q).
Proof using.
  split.
  - intros Hq. eapply reflag_maps_inv, reflag_maps_inv, Hq.
  - intros Hq. by apply reflag_maps, reflag_maps.
Qed.

Lemma moved_own : own_ok w.
Proof.
  pose proof (inv_own v Hg) as [O1 O2 O3 O4 O5 O6]. assert (Hbb : bbase v b = Some (i_base i)) by (unfold bbase; by rewrite Hi).
  split; [|exact O2| | |exact O5|exact O6].
  - intros q base b'. change (bbase w b') with (bbase v b'). unfold w, moved, reflag. vsimpl. unfold fset.
    destruct (decide (q = to)) as [->|Hq]; [|destruct (decide (q = from)) as [->|Hq']].
    + rewrite lookup_insert_Some, O1. destruct (decide (b' = b)) as [->|Hb'].
      * split; [intros [[<- _]|[_ [? _]]]; [done|congruence]|]. intros [_ Hx]. left. split; [congruence|done].
      * split; [intros [[_ ?]|[_ ?]]; [congruence|done]|]. intros [Hx Hy]. right. split; [|done]. intros <-.
        apply Hb', (gone_base v b i Hg Hi b' Hy).
    + rewrite lookup_delete_Some, O1. destruct (decide (b' = b)) as [->|Hb'].
      * split; [intros (? & _ & ?); congruence|]. intros [[= ?] _]. congruence.
      * split; [by intros (_ & ?)|]. intros [Hx Hy]. split; [|done]. intros <-. apply Hb', (gone_base v b i Hg Hi b' Hy).
    + rewrite O1. destruct (decide (b' = b)) as [->|Hb']; [|done]. split; intros [? _]; congruence.
  - intros b' q. unfold w, moved, reflag at 1. vsimpl. unfold fset. intros Hx. apply moved_maps. case_decide; [|by apply (O3 b')].
    by injection Hx as <-.
  - intros b'. unfold w, moved, reflag. vsimpl. unfold fset. case_decide; [|apply O4]. subst b'. rewrite Hi. split; eauto.
Qed.

Lemma moved_edge : edge_ok w.
Proof.
  pose proof (inv_edge v Hg) as [E1 E2 E3 E4 E5 E6]. split; [exact E1|exact E2|exact E3|exact E4| |].
  - intros e q He. by apply moved_maps, (E5 e).
  - intros e b' q He Hq. unfold w, moved, reflag. vsimpl. unfold fset. case_decide; [|by apply (E6 e)]. subst b'. intros [= <-].
    assert (v_sharers v b !! to = Some e) as Hx by (by apply E1). congruence.
Qed.

Lemma moved_ring : ring_ok w.
Proof.
  pose proof (inv_ring v Hg) as [R1 R2 R3 R4]. split; [exact R1|exact R2|exact R3|].
  intros a q r. change (v_anchor w a q) with (v_anchor v a q). change (ring_anchor w r) with (ring_anchor v r). rewrite R4.
  assert (Hb : v_rblock v r <> Some b) by (intros Hx%R1; congruence).
  split; intros (b' & H1 & H2 & H3); exists b'; (split; [done|]); (split; [|done]).
  - unfold w, moved, reflag. vsimpl. rewrite fset_ne; [done|]. by intros ->.
  - unfold w, moved, reflag in H2. vsimpl_in H2. rewrite fset_ne in H2; [done|]. by intros ->.
Qed.

Lemma moved_thr : thr_ok w.
Proof.
  pose proof (inv_thr v Hg) as [T1 T2 T3 T4 T5 T6]. split; [exact T1|exact T2| | |exact T5|exact T6].
  - intros t q cb Hq. destruct (T3 t q cb Hq). split; [by apply moved_maps|done].
  - intros t q c Hq. destruct (T4 t q c Hq) as (A1 & A2 & A3). split; [|done]. unfold w, moved, reflag. vsimpl. rewrite fset_ne; [done|].
    intros ->. pose proof (gone_pinning v b i Hg Hi Hp) as Hx. apply (map_empty (pinning v b)) with (i := t) in Hx.
    assert (pinning v b !! t = Some (q, Some b)) as Hy by (by apply map_lookup_filter_Some). congruence.
Qed.

Lemma moved_sees q b' : sees v q b' -> q <> from \/ b' <> b -> sees w q b'.
Proof using Ho.
  intros [Hx|He] Hn; [|by right]. left. unfold w, moved, reflag. vsimpl. rewrite fset_ne; [done|]. intros ->. destruct Hn; congruence.
Qed.

Lemma moved_map : map_ok w.
Proof.
  pose proof (inv_map v Hg) as [M1 M2 M3 M4 M5]. pose proof (geo_block v (inv_geo v Hg) b i Hi) as Hblk.
  split; [|exact M2|exact M3|exact M4|exact M5]. intros q m a Hq Ha.
  destruct (decide (i_base i <= a < i_base i + i_bytes i)) as [Hin|Hout].
  - destruct (decide (q = to)) as [->|Hqt].
    { right. exists b, i. split_and!; [|done|done]. left. unfold w, moved, reflag. vsimpl. by rewrite fset_eq. }
    unfold w, moved, reflag in Hq. vsimpl_in Hq. rewrite fset_ne in Hq by done. destruct (decide (q = from)) as [->|Hqf].
    + left. rewrite fset_eq in Hq. destruct (v_map v from) as [m0|]; [|done]. injection Hq as <-.
      rewrite flagged_in, shown_kernel by done. symmetry. by apply (M3 b i).
    + rewrite fset_ne in Hq by done. destruct (M1 q m a Hq Ha) as [?|(b' & i' & H1 & H2)]; [by left|]. right. exists b', i'.
      split; [|done]. apply moved_sees; [done|by left].
  - assert (Hold : exists m0, v_map v q = Some m0 /\ m a = m0 a).
    { unfold w, moved, reflag in Hq. vsimpl_in Hq. unfold fset in Hq.
      destruct (decide (q = to)) as [->|Hqt]; [rewrite decide_False in Hq by done|destruct (decide (q = from)) as [->|Hqf]].
      - destruct (v_map v to) as [m0|]; [|done]. injection Hq as <-. exists m0. by rewrite flagged_out.
      - destruct (v_map v from) as [m0|]; [|done]. injection Hq as <-. exists m0. by rewrite flagged_out.
      - by exists m. }
    destruct Hold as (m0 & Hm0 & ->). destruct (M1 q m0 a Hm0 Ha) as [?|(b' & i' & H1 & H2 & H3)]; [by left|]. right. exists b', i'.
    split; [|done]. apply moved_sees; [done|]. right. intros ->. rewrite Hi in H2. injection H2 as <-. done.
Qed.

Lemma graph_moved : graph_inv w.
Proof.
  split; [|keep (inv_tree v Hg)|apply moved_own|apply moved_edge| |apply moved_ring|apply moved_thr|keep (inv_geo v Hg)|apply moved_map].
  - pose proof (inv_reg v Hg) as [R1 R2 R3 R4]. split; [exact R1|exact R2| |].
    + intros q Hq. by apply R3, moved_maps.
    + intros q Hl Hq. apply (eff_dead_cols v); [done|done|]. apply R4; [done|]. apply eq_None_not_Some.
      intros Hx%moved_maps. fold w in Hx. rewrite Hq in Hx. by destruct Hx.
  - by apply (pend_links v), eq_refl; [apply Hg|..].
Qed.

End Moved.

(** The rights the new owner gets. *)
Definition moved_flags (i : binfo) : Z :=
  match i_backing i with UBLOCK_DEVICE => Z.lor (i_device_flags i) PAGE_U | UBLOCK_RAM => Z.lor (Z.lor PAGE_R PAGE_W) PAGE_U end.

Lemma moved_flags_valid i : block_ok i -> flags_valid (moved_flags i).
Proof.
  intros Hb. pose proof (blk_backing i Hb) as Hx. unfold moved_flags. destruct (i_backing i).
  - split; [vm_compute; split; congruence|split; [by right|vm_compute; congruence]].
  - apply list_elem_of_In in Hx. destruct Hx as [<-|[<-|[<-|[<-|[]]]]];
      (split; [vm_compute; split; congruence|split; [right; reflexivity|vm_compute; congruence]]).
Qed.

(** Two trees changed, then both flushed. *)
Lemma settle_two v p q M N : p <> q -> v_dirty v p = false -> v_dirty v q = false ->
  upd_v_dirty (fset p false) (upd_v_dirty (fset q false) (upd_v_map (fset q N) (upd_v_dirty (fset q true)
    (upd_v_map (fset p M) (upd_v_dirty (fset p true) v))))) = upd_v_map (fset q N) (upd_v_map (fset p M) v).
Proof.
  intros Hne Hp Hq. destruct v. simpl in Hp, Hq. lazy beta iota zeta delta -[fset]. f_equal. extensionality k. unfold fset.
  repeat case_decide; congruence.
Qed.

Lemma wp_move_tail b from to i o mf mt Q u x : to <> from -> v_info u b = Some i -> v_owner u b = Some o -> block_ok i ->
  v_map u from = Some mf -> v_map u to = Some mt -> live u from -> live u to -> (forall p, v_dirty u p = false) ->
  v_pblocks u to !! i_base i = None -> x_held x = [LUmem] -> Q 0 (moved u b from to i (moved_flags i)) x ->
  wp (_ ← mod_block b (upd_b_owner (fun _ => to));
      _ ← when true (as_flag from (i_base i) (i_base i + i_bytes i) (i_kernel_flags i));
      _ ← as_flag to (i_base i) (i_base i + i_bytes i) (moved_flags i);
      _ ← as_flush to;
      _ ← when true (as_flush from);
      _ ← umem_proc_lock to;
      T ← get_proc to;
      _ ← insert_fresh (p_blocks T) (i_base i) "umem: moved block collided";
      _ ← mod_proc to (upd_p_blocks (insert (i_base i) b));
      _ ← umem_proc_unlock to;
      mret 0) Q (upd_v_pblocks (fset from (delete (i_base i) (v_pblocks u from))) u) x.
Proof.
  intros Hne Hi Ho Hb Hmf Hmt Hlf Hlt Hd Hfr Hx H. cbn [when].
  assert (Hr : page_range (i_base i) (i_base i + i_bytes i)).
  { destruct (blk_range i Hb) as (? & ? & ?), (blk_aligned i Hb) as [E1 E2]. unfold page_range. split_and!; try lia. by rewrite Z.add_mod, E1, E2. }
  apply wp_bind, wp_b_owner; [by eexists|]. apply wp_bind. eapply wp_as_flag; [done|done|done|apply (blk_kernel i Hb)|].
  apply wp_bind. eapply wp_as_flag; [vsimpl; rewrite fset_ne by done; exact Hmt|done|done|by apply moved_flags_valid|].
  apply wp_bind. eapply wp_as_flush; [vsimpl; by rewrite fset_eq|done|].
  apply wp_bind. eapply wp_as_flush; [vsimpl; rewrite fset_ne by done; by rewrite fset_eq|done|]. rewrite settle_two; [|by apply not_eq_sym|apply Hd|apply Hd].
  apply wp_bind, wp_lock_below; [rewrite Hx; by repeat constructor|]. apply wp_bind. eapply wp_get_proc; [done|]. intros oa _.
  cbn [proc_of p_blocks]. vsimpl. apply wp_bind, wp_asserts; [apply bool_decide_eq_true; by rewrite fset_ne|].
  apply wp_bind, wp_p_blocks; [done|]. apply wp_bind. eapply wp_unlock_top; [done|rewrite Hx; by repeat constructor|]. apply wp_ret.
  replace (set_held _ _) with x by (by destruct x). vsimpl. rewrite fset_ne by done. same_view H. unfold moved, reflag.
  assert (E : forall N, v_map (upd_v_map (fset from N) u) to = Some mt) by (intros N; vsimpl; by rewrite fset_ne).
  rewrite E, Hmf. reflexivity.
Qed.

Lemma flagged_over lo hi f g m : flagged lo hi f (flagged lo hi g m) = flagged lo hi f m.
Proof. extensionality a. unfold flagged. by case_decide. Qed.

Lemma reflag_over p q lo hi f g h u : p <> q -> reflag p lo hi f (reflag q lo hi g (reflag p lo hi h u)) = reflag p lo hi f (reflag q lo hi g u).
Proof.
  intros Hne. unfold reflag. destruct u as [pid mp]. lazy beta iota zeta delta -[fset fmap flagged]. f_equal. extensionality k. unfold fset.
  repeat case_decide; try congruence. destruct (mp p); simpl; [by rewrite flagged_over|done].
Qed.

Lemma moved_reflag u b from to i f fl : to <> from ->
  moved (reflag to (i_base i) (i_base i + i_bytes i) f u) b from to i fl = moved u b from to i fl.
Proof. intros Hne. unfold moved. by rewrite reflag_over. Qed.

Lemma views_same v p base : v_views v p !! base = None -> upd_v_views (fset p (delete base (v_views v p))) v = v.
Proof. intros E. rewrite delete_id by done. destruct v. unfold upd_v_views. simpl in *. by rewrite fset_id. Qed.

(** [b] passes from [from] to [to], which may have had a view of it. *)
Definition moves v (b from to : Z) (i : binfo) v' : Prop :=
  exists u, (v_sharers v b !! to = None /\ u = v \/ unshares v b i to u) /\ v' = moved u b from to i (moved_flags i).

Lemma unshares_cols v b i to u : unshares v b i to u -> v_info u = v_info v /\ v_owner u = v_owner v /\ v_bring u = v_bring v /\
  v_bpins u = v_bpins v /\ v_pid u = v_pid v /\ v_pblocks u = v_pblocks v /\ v_sharers u b = delete to (v_sharers v b) /\
  (forall q, is_Some (v_map u q) <-> is_Some (v_map v q)).
Proof.
  intros (e & pv & nx & hd & tl & _ & ->). unfold unlinked, relink. split_and!; try (by unfold reflag; vsimpl).
  - unfold reflag, drop_edge. vsimpl. by rewrite fset_eq.
  - intros q. split; [intros Hq; exact (reflag_maps_inv _ _ _ _ _ _ Hq)|intros Hq; by apply reflag_maps].
Qed.

Lemma inv_moves v x b from to i u : inv v x -> v_info v b = Some i -> v_owner v b = Some from -> v_bring v b = None -> v_bpins v b = 0 ->
  is_Some (v_map v to) -> to <> from -> (v_sharers v b !! to = None /\ u = v) \/ (unshares v b i to u /\ graph_inv u) ->
  inv (moved u b from to i (moved_flags i)) x.
Proof.
  intros Hi Hbi Ho Hr Hp Ht Hne Hu.
  assert (graph_inv u /\ v_info u b = Some i /\ v_owner u b = Some from /\ v_sharers u b !! to = None /\ v_bring u b = None /\ v_bpins u b = 0 /\
    is_Some (v_map u to) /\ keeps v u /\ sched_inv u x [] []) as (U1 & U2 & U3 & U4 & U5 & U6 & U7 & U8 & U9).
  { destruct Hu as [[Hs ->]|[Hu Hgu]]; [split_and!; try done; [apply Hi|apply Hi]|].
    destruct (unshares_cols v b i to u Hu) as (U1 & U2 & U3 & U4 & U5 & U6 & U7 & U8).
    rewrite U1, U2, U3, U4, U7, lookup_delete_eq. split_and!; try done; [by apply U8|by eapply unshares_keeps|].
    eapply unshares_sched; [done|apply Hi]. }
  apply (inv_step v x); [done|by apply graph_moved| | |apply calm_refl].
  - eapply keeps_trans; [exact U8|]. by split.
  - eapply sched_ext; [| | |exact U9]; [done|done|]. intros q Hq. by apply moved_maps.
Qed.

Lemma wp_move b from to i m Q v x : inv v x -> v_info v b = Some i -> v_owner v b = Some from -> v_bring v b = None ->
  v_map v to = Some m -> to <> from -> x_held x = [LUmem] -> (forall rc, rc <> 0 -> Q rc v x) ->
  (forall v', inv v' x -> v_dma v b = None -> v_bpins v b = 0 -> i_delegatable i = true -> moves v b from to i v' -> Q 0 v' x) ->
  wp (umem_move_locked b from to true) Q v x.
Proof.
  intros Hi Hbi Ho Hr Hm Hne Hx Hbad Hok. pose proof (inv_graph _ _ _ Hi) as Hg. pose proof (inv_live _ _ _ _ Hi Hm) as Hlt.
  destruct (own_as v (inv_own v Hg) b from Ho) as [mf Hmf]. pose proof (inv_live _ _ _ _ Hi Hmf) as Hlf.
  pose proof (geo_block v (inv_geo v Hg) b i Hbi) as Hblk.
  assert (Hbb : bbase v b = Some (i_base i)) by (unfold bbase; by rewrite Hbi).
  assert (Hown : v_pblocks v from !! i_base i = Some b) by (by apply (own_index v (inv_own v Hg))).
  assert (Hfr : v_pblocks v to !! i_base i = None).
  { apply eq_None_not_Some. intros [b' [Ho' Hb']%(own_index v (inv_own v Hg))]. pose proof (gone_base v b i Hg Hbi b' Hb'). congruence. }
  unfold umem_move_locked. ws. cbn [block_of b_dma_maps b_thread_pins b_delegatable b_base b_bytes b_kernel_flags b_backing b_device_flags].
  destruct (bool_decide _ || _) eqn:E1; [by apply wp_ret, Hbad|]. apply orb_false_iff in E1 as [Ed Ep].
  apply negb_false_iff, Z.eqb_eq in Ep. apply bool_decide_eq_false, eq_None_not_Some in Ed.
  destruct (i_delegatable i) eqn:Edl; [cbn [negb]|by apply wp_ret, Hbad].
  rewrite (geo_end v b i (inv_geo v Hg) Hbi). cbv zeta.
  assert ((if bool_decide (i_backing i = UBLOCK_DEVICE) then Z.lor (i_device_flags i) PAGE_U else Z.lor (Z.lor PAGE_R PAGE_W) PAGE_U) =
    moved_flags i) as -> by (unfold moved_flags; by destruct (i_backing i)).
  apply wp_bind, wp_lock_below; [rewrite Hx; by repeat constructor|]. apply wp_bind. eapply wp_get_proc; [done|]. intros oa _.
  apply wp_bind, wp_asserts; [by apply bool_decide_eq_true|]. apply wp_bind, wp_p_blocks; [done|].
  apply wp_bind. eapply wp_unlock_top; [done|rewrite Hx; by repeat constructor|]. replace (set_held (x_held x) _) with x by (by destruct x).
  apply wp_bind, wp_lock_below; [rewrite Hx; by repeat constructor|]. apply wp_bind. eapply wp_get_proc; [done|]. intros oa' _. vsimpl.
  apply wp_bind, wp_p_views; [done|].
  apply wp_bind. eapply wp_unlock_top; [done|rewrite Hx; by repeat constructor|]. replace (set_held (x_held x) _) with x by (by destruct x).
  apply wp_bind. destruct (v_views v to !! i_base i) as [e|] eqn:Ev.
  - assert (He : v_eto v e = Some to /\ v_eblock v e = Some b).
    { apply (edge_views v (inv_edge v Hg)) in Ev as (Het & b' & Heb & Hb'). by rewrite (gone_base v b i Hg Hbi b' Hb') in Heb. }
    destruct He as [Het Heb]. assert (Hsh : v_sharers v b !! to = Some e) by (by apply (edge_sharers v (inv_edge v Hg))).
    apply wp_bind. eapply (wp_unlink e b to); [| |exact Heb|exact Het|exact Hlt|].
    { by apply (pend_links v), eq_refl; [apply Hg|..]. }
    { intros e'. apply (edge_ends v (inv_edge v Hg)). }
    intros pv nx hd tl HP. eapply wp_sharer_remove; [exact Hbi|exact Ho|exact Hsh|].
    assert (Hgu : graph_inv (reflag to (i_base i) (i_base i + i_bytes i) (i_kernel_flags i) (unlinked v b e to (i_base i) pv nx hd tl))).
    { apply (graph_unshared v b i e to pv nx hd tl); [done..|]. destruct HP as (L & HQ & Hin). exists L. split; [|exact Hin].
      intros q. by eapply queue_same; [..|apply HQ]. }
    apply (wp_move_tail b from to i from mf m Q (unlinked v b e to (i_base i) pv nx hd tl)); try done; [apply (map_clean v (inv_map v Hg))|].
    rewrite <-(moved_reflag _ b from to i (i_kernel_flags i)) by done. apply Hok; [|done|done|done|].
    + apply (inv_moves v); [done..|by eexists|done|]. right. split; [|done]. by exists e, pv, nx, hd, tl.
    + eexists. split; [right; by exists e, pv, nx, hd, tl|done].
  - apply wp_ret. rewrite views_same by done.
    apply (wp_move_tail b from to i from mf m); try done; [apply (map_clean v (inv_map v Hg))|].
    assert (Hsh : v_sharers v b !! to = None).
    { apply eq_None_not_Some. intros [e [Heb Het]%(edge_sharers v (inv_edge v Hg))].
      assert (v_views v to !! i_base i = Some e) by (apply (edge_views v (inv_edge v Hg)); eauto). congruence. }
    apply Hok; [|done|done|done|exists v; split; [by left|done]]. apply (inv_moves v); [done..|by eexists|done|by left].
Qed.

End Moves.
