(* ===== verification/ThreadSpec.v ===== *)
(** * The life of a thread in the scheduler's tables

    One lemma per transition of a thread: it is born into a run queue, leaves the
    tables, stops running, is picked to run, starts to wait.  Each changes one thread
    and keeps what the tables say of the others. *)

From S2P Require Import Prelude Buddy Paging Siphash PlatformMem Machine Sched Index Channel Umem Process Graph Wp Invariant BaseSpec SchedSpec.

Section Threads.
Context {PT : PageTree} {SC : Schemes}.
Implicit Types (v : gview) (x : rest).

(** The columns of the tables other than the threads are the same. *)
Definition same_tables x x' : Prop :=
  x_futex x' = x_futex x /\ x_futex_key x' = x_futex_key x /\ x_futex_seq x' = x_futex_seq x /\ x_current x' = x_current x /\
  x_ases x' = x_ases x /\ x_deadlines x' = x_deadlines x /\ x_this x' = x_this x.

(** ** Birth *)

Lemma sched_spawn v v' x x' t T : sched_inv v x [] [] -> x_threads x !! t = None ->
  t_tid T = t -> t_status T = THREAD_RUNNABLE -> t_on_cpu T = false -> t_wake_state T = FUTEX_IDLE -> t_deadline T = 0 -> 0 <= t_deadline_cpu T ->
  x_threads x' = <[t := T]> (x_threads x) -> Permutation (mjoin (x_queues x')) (t :: mjoin (x_queues x)) ->
  length (x_queues x') = length (x_queues x) -> same_tables x x' ->
  v_threads v' = <[t := tview T]> (v_threads v) -> (forall p, is_Some (v_map v p) -> is_Some (v_map v' p)) -> sched_inv v' x' [] [].
Proof.
  intros Hs HN Etid Est Eon Ewk Edl Edc E1 Eq El (E2 & E3 & E4 & E5 & E6 & E7 & E8) Ev Em.
  assert (Hnw : forall i k, ~ waiting (x_futex x) i k t).
  { intros i k Hw. destruct (sch_waiter Hs i k t Hw) as (U & ? & _). congruence. }
  assert (HnQ : t ∉ mjoin (x_queues x)).
  { intros Hq. apply (th_queue _ _ _ _ _ (sch_thread _ _ _ _ Hs t)) in Hq as (U & ? & _). congruence. }
  assert (Hnr : forall i, ~ running (x_current x) t i).
  { intros i Hr. destruct (proj1 (th_run _ _ _ _ _ (sch_thread _ _ _ _ Hs t)) (ex_intro _ i Hr)) as (U & ? & _). congruence. }
  eapply (sched_step v x [] [] _ _ _ _ t); [exact Hs| | |..]; rewrite ?E2, ?E4, ?E5, ?E6; try first [apply Hs|done].
  - intros u Hu. rewrite E1, lookup_insert_ne by done. split; [done|]. split; rewrite ?E2, ?E3, ?E5, ?E6, ?E7; try done.
    rewrite Eq, elem_of_cons. naive_solver.
  - rewrite E1, lookup_insert_eq. split; rewrite ?E2, ?E3, ?E5, ?E6, ?E7.
    + intros ? [= <-]. split; [done|]. unfold shape. rewrite Est. split_and!; [by intros []|done|done|done].
    + intros i k. split; [by intros ?%Hnw|]. intros (? & [= <-] & _ & _ & [?|?%not_elem_of_nil]); [congruence|done].
    + split; [by intros ?%not_elem_of_nil|]. intros (? & [= <-] & ?). congruence.
    + rewrite Eq. split; [eauto|]. by left.
    + split; [by intros (i & ?%Hnr)|]. intros (? & [= <-] & ?). congruence.
    + by intros ? i _ ?%Hnr.
    + intros i k. split; [|by intros (? & [= <-] & ? & _)].
      intros Ha. apply (th_armed _ _ _ _ _ (sch_thread _ _ _ _ Hs t)) in Ha as (U & ? & _). congruence.
  - by rewrite Ev, E1, fmap_insert, (sch_view _ _ _ _ Hs).
  - rewrite Eq. apply NoDup_cons. split; [done|apply Hs].
  - intros i p Hi. apply Em. by eapply (sch_as _ _ _ _ Hs).
Qed.

(** ** Leaving *)

Lemma sched_gone v v' x x' C C' t T : sched_inv v x C [] -> x_threads x !! t = Some T ->
  t_wake_state T <> FUTEX_PARKED -> t_status T <> THREAD_RUNNABLE -> t_status T <> THREAD_RUNNING -> t_deadline T = 0 ->
  (forall u, u ∈ C' <-> u ∈ C /\ u <> t) -> NoDup C' ->
  x_threads x' = delete t (x_threads x) -> x_queues x' = x_queues x -> same_tables x x' ->
  v_threads v' = delete t (v_threads v) -> (forall p, is_Some (v_map v p) -> is_Some (v_map v' p)) -> sched_inv v' x' C' [].
Proof.
  intros Hs HT Hw Hst Hst' Hdl HC HnC E1 Eq (E2 & E3 & E4 & E5 & E6 & E7 & E8) Ev Em.
  destruct (sch_thread _ _ _ _ Hs t) as [T1 T2 T3 T4 T5 T6 T7]. rewrite HT in T1, T2, T3, T4, T5, T6, T7.
  eapply (sched_step v x C [] _ _ _ _ t); [exact Hs| | |..]; rewrite ?Eq, ?E2, ?E4, ?E5, ?E6, ?app_nil_r; try first [apply Hs|done].
  - intros u Hu. rewrite E1, lookup_delete_ne by done. split; [done|]. split; rewrite ?Eq, ?E2, ?E3, ?E5, ?E6, ?E7; try done.
    rewrite !app_nil_r, HC. naive_solver.
  - rewrite E1, lookup_delete_eq. split; rewrite ?Eq, ?E2, ?E3, ?E5, ?E6, ?E7, ?app_nil_r.
    + done.
    + intros i k. rewrite T2. split; [|by intros (? & ? & _)]. intros (? & [= <-] & _ & _ & [?|?%not_elem_of_nil]); done.
    + rewrite HC. split; [naive_solver|by intros (? & ? & _)].
    + rewrite T4. split; [|by intros (? & ? & _)]. intros (? & [= <-] & ?). done.
    + rewrite T5. split; [|by intros (? & ? & _)]. intros (? & [= <-] & ?). done.
    + done.
    + intros i k. rewrite T7. split; [|by intros (? & ? & _)]. intros (? & [= <-] & ? & _). done.
  - by rewrite Ev, E1, fmap_delete, (sch_view _ _ _ _ Hs).
  - intros i p Hi. apply Em. by eapply (sch_as _ _ _ _ Hs).
Qed.

(** ** Turns

    A thread that waits for nothing changes hands between a run queue, a processor
    and death. *)

Record turns x (t : Z) (T' : thread) x' : Prop := {
  tn_threads : x_threads x' = <[t := T']> (x_threads x);
  tn_wait i k u : waiting (x_futex x') i k u <-> waiting (x_futex x) i k u;
  tn_tables : x_futex_key x' = x_futex_key x /\ x_futex_seq x <= x_futex_seq x' < 2 ^ 64 /\ x_deadlines x' = x_deadlines x /\ x_this x' = x_this x;
  tn_queue u : u <> t -> u ∈ mjoin (x_queues x') <-> u ∈ mjoin (x_queues x);
  tn_queued : t ∈ mjoin (x_queues x') <-> t_status T' = THREAD_RUNNABLE;
  tn_once : NoDup (mjoin (x_queues x'));
  tn_length : length (x_queues x') = length (x_queues x);
  tn_current u i : u <> t -> running (x_current x') u i <-> running (x_current x) u i;
  tn_running : (exists i, running (x_current x') t i) <-> t_status T' = THREAD_RUNNING;
  tn_alone i j : running (x_current x') t i -> running (x_current x') t j -> i = j;
  tn_ases u i : u <> t -> running (x_current x) u i -> x_ases x' !! i = x_ases x !! i;
  tn_as i : running (x_current x') t i -> x_ases x' !! i = Some (Some (t_proc T')) }.

Lemma sched_turn v x x' t T T' : sched_inv v x [] [] -> x_threads x !! t = Some T -> t_status T <> THREAD_BLOCKED ->
  t_tid T' = t -> tview T' = tview T -> shape T' -> t_wake_state T' = FUTEX_IDLE -> t_deadline T' = 0 -> turns x t T' x' ->
  (forall i p, x_ases x' !! i = Some (Some p) -> is_Some (v_map v p)) -> sched_inv v x' [] [].
Proof.
  intros Hs HT Hnb Etid Ev Hsh Hw Hd [E1 E2 (E3 & E4 & E5 & E6) Q1 Q2 Q3 Q4 C1 C2 C3 A1 A2] Ha.
  destruct (sch_tid Hs t T HT) as (Et0 & Hdl & _ & Hsh0).
  assert (Hw0 : t_wake_state T = FUTEX_IDLE) by (destruct (t_status T); by destruct Hsh0).
  assert (Hd0 : t_deadline T = 0) by (destruct (decide (t_deadline T = 0)); [done|]; destruct (Hdl ltac:(done)); congruence).
  destruct (sch_thread _ _ _ _ Hs t) as [T1 T2 T3 T4 T5 T6 T7]. rewrite HT in T1, T2, T3, T4, T5, T6, T7.
  eapply (sched_step v x [] [] _ _ _ _ t); [exact Hs| | |..]; try first [apply Hs|done].
  - intros u Hu. rewrite E1, lookup_insert_ne by done. split; [done|]. split; rewrite ?E3, ?E5; try done; [by apply Q1|by intros i; apply C1|by intros i; apply A1].
  - rewrite E1, lookup_insert_eq. split; rewrite ?E3, ?E5.
    + by intros ? [= <-].
    + intros i k. rewrite E2, T2. split; intros (? & [= <-] & _ & _ & [?|[]%not_elem_of_nil]); congruence.
    + split; [by intros ?%not_elem_of_nil|]. intros (? & [= <-] & ?). congruence.
    + rewrite Q2. split; [eauto|]. by intros (? & [= <-] & ?).
    + rewrite C2. split; [eauto|]. by intros (? & [= <-] & ?).
    + intros ? i [= <-]. apply A2.
    + intros i k. rewrite T7. split; intros (? & [= <-] & ? & _); congruence.
  - rewrite E1, fmap_insert, Ev, (sch_view _ _ _ _ Hs). symmetry. apply insert_id. by rewrite lookup_fmap, HT.
  - intros i k u. rewrite E2. intros Hk%(sch_ticket _ _ _ _ Hs). lia.
  - intros u i j. destruct (decide (u = t)) as [->|Hu]; [apply C3|]. rewrite !C1 by done. apply Hs.
  - pose proof (sch_seq _ _ _ _ Hs). lia.
Qed.

(** ** Blocking *)

(** The running thread [t] leaves its processor and waits under [key] in bucket [bk]. *)
Record blocks_on x (t bk : Z) (key : Z * Z) (T' : thread) x' : Prop := {
  bl_threads : x_threads x' = <[t := T']> (x_threads x);
  bl_wait i k u : waiting (x_futex x') i k u <-> waiting (x_futex x) i k u \/ (i = bk /\ k = key /\ u = t);
  bl_home : home (x_futex_key x) key.1 bk;
  bl_armed i k u : armed (x_deadlines x') i k u <->
    armed (x_deadlines x) i k u \/ (t_deadline T' <> 0 /\ k = (t_deadline T', t) /\ i = Z.to_nat (t_deadline_cpu T') /\ u = t);
  bl_current u i : running (x_current x') u i <-> running (x_current x) u i /\ u <> t;
  bl_tables : x_futex_key x' = x_futex_key x /\ x_futex_seq x' = x_futex_seq x + 1 /\ x_queues x' = x_queues x /\ x_ases x' = x_ases x /\
    x_this x' = x_this x;
  bl_seq : key.2 = x_futex_seq x /\ x_futex_seq x + 1 < 2 ^ 64 }.

Lemma home_eq key a i j : home key a i -> home key a j -> i = j.
Proof. by intros [] []. Qed.

Lemma sched_block v x x' t T T' bk key : sched_inv v x [] [] -> x_threads x !! t = Some T -> t_status T = THREAD_RUNNING ->
  t_tid T' = t -> tview T' = tview T -> t_status T' = THREAD_BLOCKED -> t_on_cpu T' = false -> t_wake_state T' = FUTEX_PARKED ->
  t_wait_key T' = key -> 0 <= t_deadline_cpu T' -> blocks_on x t bk key T' x' -> sched_inv v x' [] [].
Proof.
  intros Hs HT Hr Etid Ev Est Eon Ewk Ek Ec [E1 W1 W2 A1 R1 (E2 & E3 & E4 & E5 & E6) [S1 S2]].
  destruct (sch_tid Hs t T HT) as (_ & Hdl & _ & Hsh). rewrite Hr in Hsh. destruct Hsh as [_ Hw0].
  assert (Hd0 : t_deadline T = 0) by (destruct (decide (t_deadline T = 0)); [done|]; destruct (Hdl ltac:(done)); congruence).
  destruct (sch_thread _ _ _ _ Hs t) as [T1 T2 T3 T4 T5 T6 T7]. rewrite HT in T1, T2, T3, T4, T5, T6, T7.
  eapply (sched_step v x [] [] _ _ _ _ t); [exact Hs| | |..]; rewrite ?E3, ?E4, ?E5; try first [apply Hs|done].
  - intros u Hu. rewrite E1, lookup_insert_ne by done. split; [done|]. split; rewrite ?E2, ?E4, ?E5; try done.
    + intros i k. rewrite W1. naive_solver.
    + intros i. rewrite R1. naive_solver.
    + intros i k. rewrite A1. naive_solver.
  - rewrite E1, lookup_insert_eq. split; rewrite ?E2, ?E4.
    + intros ? [= <-]. split; [done|]. unfold shape. rewrite Est, Ewk, Eon. split_and!; [by left|done|done|done|done].
    + intros i k. rewrite W1, T2. split.
      * intros [(? & [= <-] & _ & _ & [?|[]%not_elem_of_nil])|(-> & -> & _)]; [congruence|]. eauto 10.
      * intros (? & [= <-] & -> & Hh & _). right. rewrite Ek in Hh |- *. split_and!; [|done|done]. by rewrite (home_eq _ _ _ _ Hh W2).
    + split; [by intros ?%not_elem_of_nil|]. intros (? & [= <-] & ?). congruence.
    + rewrite T4. split; intros (? & [= <-] & ?); congruence.
    + split; [intros (i & Hi); by apply R1 in Hi as [_ ?]|]. intros (? & [= <-] & ?). congruence.
    + intros ? i _ Hi. by apply R1 in Hi as [_ ?].
    + intros i k. rewrite A1, T7. split.
      * intros [(? & [= <-] & ? & _)|(? & -> & -> & _)]; [congruence|]. eauto 10.
      * intros (? & [= <-] & ? & -> & ->). right. done.
  - rewrite E1, fmap_insert, Ev, (sch_view _ _ _ _ Hs). symmetry. apply insert_id. by rewrite lookup_fmap, HT.
  - intros i k u Hk. apply W1 in Hk as [Hk|(_ & -> & _)]; [apply (sch_ticket _ _ _ _ Hs) in Hk|pose proof (sch_seq _ _ _ _ Hs)]; lia.
  - intros u i j [Hi _]%R1 [Hj _]%R1. by eapply (sch_alone _ _ _ _ Hs).
  - pose proof (sch_seq _ _ _ _ Hs). lia.
Qed.

End Threads.
