(* ===== verification/ProcessSpec.v ===== *)
(** * Specifications of processes and threads

    The operations of Process.v keep the invariant: a process enters the tree under
    its creator, a killed process takes its descendants with it, a process leaves the
    tree once it owns nothing, and threads enter and leave the thread tables. *)

From Stdlib Require Import FunctionalExtensionality.
From S2P Require Import Prelude Buddy Paging Siphash PlatformMem Machine Sched Index Channel Umem Process Graph Wp Invariant BaseSpec SchedSpec ChannelSpec UmemSpec BlockSpec MoveSpec.

Section Processes.
Context {PT : PageTree} {SC : Schemes} {SS : SchemesSafe}.
Implicit Types (v : gview) (x : rest).

(** ** Creation *)

(** Nothing refers to a process that is not there. *)
Record absent v (p : Z) : Prop := {
  ab_pid : v_pid v p = None;
  ab_map : v_map v p = None;
  ab_par c : v_par v c <> Some p;
  ab_up : v_par v p = None;
  ab_owner b : v_owner v b <> Some p;
  ab_edge e : v_eto v e <> Some p;
  ab_thread t cb : v_threads v !! t <> Some (p, cb) }.

Lemma not_live_absent v p : graph_inv v -> v_pid v p = None -> absent v p.
Proof.
  intros Hg Hp. assert (Hm : v_map v p = None).
  { apply eq_None_not_Some. intros Hx%(reg_as v (inv_reg v Hg)). unfold live in Hx. congruence. }
  split; [done|done|..].
  - intros c Hc. destruct (tree_up v (inv_tree v Hg) c p Hc) as (_ & Hl & _). unfold live in Hl. congruence.
  - apply eq_None_not_Some. intros [q Hq]. destruct (tree_up v (inv_tree v Hg) p q Hq) as (_ & _ & Hl). unfold live in Hl. congruence.
  - intros b Hb%(own_as v (inv_own v Hg)). rewrite Hm in Hb. by destruct Hb.
  - intros e He%(edge_as v (inv_edge v Hg)). rewrite Hm in He. by destruct He.
  - intros t cb [Ht _]%(thr_as v (inv_thr v Hg)). rewrite Hm in Ht. by destruct Ht.
Qed.

Lemma fresh_absent v : graph_inv v -> absent v (v_npid v).
Proof.
  intros Hg. apply not_live_absent; [done|]. destruct (v_pid v (v_npid v)) as [q|] eqn:E; [|done].
  destruct (reg_pid v (inv_reg v Hg) _ _ E). lia.
Qed.

(** Process [p] comes into being under [parent], its tree a copy of the kernel's. *)
Definition newborn v (p : Z) (parent : option Z) (a : aspace) : gview :=
  let w := upd_v_gprocs (insert p p) (put_proc p (Process p (Some a) false parent ∅ false 0 0 ∅ ∅ ∅ None None None None None)
    (upd_v_npid Z.succ v)) in
  match parent with
  | None => w
  | Some q => upd_v_children (fset q (<[p := p]> (v_children w q))) w
  end.

Section Newborn.
Context (v : gview) (p : Z) (parent : option Z) (a : aspace).
Context (Hg : graph_inv v) (Ep : p = v_npid v) (H0 : 0 < p) (Hab : absent v p) (Hl : forall q, parent = Some q -> live v q)
  (Ha : as_map a = v_kmap v) (Hn : a_pins a = 0) (Hd : a_dirty a = false).

Let w := newborn v p parent a.

(** The columns of the new graph. *)
Lemma newborn_cols :
  v_pid w = fset p (Some p) (v_pid v) /\ v_map w = fset p (Some (as_map a)) (v_map v) /\
  v_pins w = fset p (a_pins a) (v_pins v) /\ v_dirty w = fset p (a_dirty a) (v_dirty v) /\
  v_dead w = fset p false (v_dead v) /\ v_par w = fset p parent (v_par v) /\ v_pblocks w = fset p ∅ (v_pblocks v) /\
  v_views w = fset p ∅ (v_views v).
Proof. clear Hl. unfold w, newborn, put_proc. destruct parent; vsimpl; split_and!; reflexivity. Qed.

Lemma newborn_dead q : q <> p -> eff_dead v q -> eff_dead w q.
Proof using Hab.
  destruct newborn_cols as (_ & _ & _ & _ & E5 & E6 & _). intros Hq Hdd. revert Hq. induction Hdd as [q Hq|q r Hq Hr IH]; intros Hne.
  - apply dead_here. by rewrite E5, fset_ne.
  - apply dead_above with r; [by rewrite E6, fset_ne|]. apply IH. intros ->. by destruct (ab_par v p Hab q).
Qed.

Lemma newborn_reg : reg_ok w.
Proof.
  destruct newborn_cols as (E1 & E2 & _). pose proof (inv_reg v Hg) as [R1 R2 R3 R4].
  assert (Egp : v_gprocs w = <[p := p]> (v_gprocs v)) by (clear Hl; unfold w, newborn; by destruct parent).
  assert (Enp : v_npid w = Z.succ (v_npid v)) by (clear Hl; unfold w, newborn; by destruct parent).
  unfold live in *. split; rewrite ?Egp, ?Enp, ?E1, ?E2.
  - intros q y. unfold fset. case_decide; [intros [= <-]; lia|]. intros Hx%R1. lia.
  - intros q y. unfold live. rewrite E1. rewrite lookup_insert_Some, R2. unfold fset. case_decide as Hq.
    + subst q. split; [intros [[_ <-]|[? _]]; done|]. intros [-> _]. by left.
    + split; [intros [[? _]|[_ ?]]; [by destruct Hq|done]|]. intros Hx. right. split; [congruence|done].
  - intros q. unfold live. rewrite E1. unfold fset. case_decide; [by subst|apply R3].
  - intros q. unfold live. rewrite E1. unfold fset. case_decide; [done|]. intros Hx Hm. apply newborn_dead; [done|by apply R4].
Qed.

Lemma newborn_children q c y : v_children w q !! c = Some y <->
  (parent = Some q /\ c = p /\ y = p) \/ (q <> p /\ c <> p /\ v_children v q !! c = Some y).
Proof.
  assert (Hnc : forall r z, v_children v r !! p <> Some z).
  { intros r z Hx. apply (tree_down v (inv_tree v Hg)) in Hx as [_ Hx]. by rewrite (ab_up v p Hab) in Hx. }
  assert (Ew : v_children w = match parent with Some r => fset r (<[p := p]> (fset p ∅ (v_children v) r)) (fset p ∅ (v_children v)) | None => fset p ∅ (v_children v) end).
  { clear Hl. unfold w, newborn, put_proc. destruct parent; vsimpl; reflexivity. }
  assert (Hold : fset p ∅ (v_children v) q !! c = Some y <-> q <> p /\ c <> p /\ v_children v q !! c = Some y).
  { unfold fset. case_decide; [by rewrite lookup_empty; split; [|intros (? & _)]|]. split; [|by intros (_ & _ & ?)].
    intros Hx. split_and!; try done. intros ->. by destruct (Hnc q y). }
  rewrite Ew. destruct parent as [r|].
  - pose proof (Hl r eq_refl) as Hr. assert (r <> p). { pose proof (reg_pid v (inv_reg v Hg) r r Hr). lia. }
    destruct (decide (q = r)) as [->|Hq].
    + rewrite fset_eq, lookup_insert_Some, Hold. split.
      * intros [[<- <-]|[_ ?]]; [by left|by right].
      * intros [(_ & -> & ->)|Hx]; [by left|]. right. split; [|done]. destruct Hx as (_ & ? & _). congruence.
    + rewrite fset_ne, Hold by done. split; [by right|]. intros [(? & _)|?]; [congruence|done].
  - rewrite Hold. split; [by right|]. by intros [(? & _)|?].
Qed.

Lemma newborn_tree : tree_ok w.
Proof.
  destruct newborn_cols as (E1 & _ & _ & _ & _ & E6 & _). pose proof (inv_tree v Hg) as [T1 T2]. unfold live in *. split.
  - intros c q. unfold live. rewrite E6, E1. unfold fset. destruct (decide (c = p)) as [->|Hc].
    + intros Hq. pose proof (Hl q Hq) as Hx. pose proof (reg_pid v (inv_reg v Hg) q q Hx). rewrite decide_False by lia. split_and!; [lia..|done|done].
    + intros Hq. destruct (T1 c q Hq) as (? & ? & ?). rewrite decide_False; [done|]. intros ->. by destruct (ab_par v p Hab c).
  - intros q c y. rewrite newborn_children, E6. unfold fset. destruct (decide (c = p)) as [->|Hc].
    + split; [intros [(? & _ & ->)|(_ & ? & _)]; done|]. intros [-> ?]. by left.
    + rewrite T2. split; [intros [(_ & ? & _)|(_ & _ & ?)]; done|]. intros [-> Hq]. right. split_and!; try done.
      intros ->. by destruct (ab_par v p Hab c).
Qed.

Lemma newborn_own : own_ok w.
Proof.
  destruct newborn_cols as (_ & E2 & _ & _ & _ & _ & E7 & _). pose proof (inv_own v Hg) as [O1 O2 O3 O4 O5 O6].
  assert (Ew : v_owner w = v_owner v /\ v_info w = v_info v /\ v_gblocks w = v_gblocks v /\ v_nref w = v_nref v)
    by (clear Hl; unfold w, newborn; by destruct parent).
  destruct Ew as (W1 & W2 & W3 & W4). unfold bbase in *. split; unfold bbase; rewrite ?W1, ?W2, ?W3, ?W4; try done.
  - intros q base b. rewrite E7. unfold fset. case_decide; [|apply O1]. subst q. rewrite lookup_empty. split; [done|].
    intros [Hx _]. by destruct (ab_owner v p Hab b).
  - intros b q Hq. rewrite E2. unfold fset. case_decide; [by eexists|by apply (O3 b)].
Qed.

Lemma newborn_edge : edge_ok w.
Proof.
  destruct newborn_cols as (_ & E2 & _ & _ & _ & _ & _ & E8). pose proof (inv_edge v Hg) as [F1 F2 F3 F4 F5 F6].
  assert (Ew : v_owner w = v_owner v /\ v_info w = v_info v /\ v_sharers w = v_sharers v /\ v_nref w = v_nref v /\ v_eto w = v_eto v /\ v_eblock w = v_eblock v)
    by (clear Hl; unfold w, newborn; by destruct parent).
  destruct Ew as (W1 & W2 & W3 & W4 & W5 & W6). unfold bbase in *.
  split; unfold bbase; rewrite ?W1, ?W2, ?W3, ?W4, ?W5, ?W6; try done.
  - intros q base e. rewrite E8. unfold fset. case_decide; [|apply F2]. subst q. rewrite lookup_empty. split; [done|].
    intros [Hx _]. by destruct (ab_edge v p Hab e).
  - intros e q Hq. rewrite E2. unfold fset. case_decide; [by eexists|by apply (F5 e)].
Qed.

Lemma newborn_pend : pend_ok w.
Proof.
  assert (Ew : v_head w = fset p None (v_head v) /\ v_tail w = fset p None (v_tail v) /\ v_eprev w = v_eprev v /\ v_enext w = v_enext v /\
    v_eto w = v_eto v /\ v_enot w = v_enot v) by (clear Hl; unfold w, newborn, put_proc; destruct parent; vsimpl; done).
  destruct Ew as (W1 & W2 & W3 & W4 & W5 & W6). destruct (inv_pend v Hg) as (L & HQ & HL). exists L. split; [|by rewrite W5, W6].
  intros q. pose proof (HQ q) as [A1 A2 A3 A4]. split; rewrite ?W1, ?W2, ?W3, ?W4; try done; unfold fset; case_decide; try done; subst q.
  all: destruct (L p) as [|e l] eqn:E; [done|]; exfalso; destruct (proj1 (HL p e)) as [Hx _]; [rewrite E; by left|]; by destruct (ab_edge v p Hab e).
Qed.

Lemma newborn_ring : ring_ok w.
Proof.
  pose proof (inv_ring v Hg) as [R1 R2 R3 R4].
  assert (Ew : v_bring w = v_bring v /\ v_rblock w = v_rblock v /\ v_rops w = v_rops v /\ v_rslots w = v_rslots v /\ v_owner w = v_owner v /\
    v_info w = v_info v /\ v_sharers w = v_sharers v /\ v_bpins w = v_bpins v /\ v_nref w = v_nref v)
    by (clear Hl; unfold w, newborn, put_proc; destruct parent; vsimpl; done).
  destruct Ew as (W1 & W2 & W3 & W4 & W5 & W6 & W7 & W8 & W9).
  split; rewrite ?W1, ?W2, ?W3, ?W4, ?W5, ?W6, ?W7, ?W8, ?W9; try done.
  intros k q r. unfold ring_anchor. rewrite W3. fold (ring_anchor v r).
  assert (v_anchor w k q = if decide (q = p) then None else v_anchor v k q) as ->.
  { clear Hl. unfold w, newborn, put_proc. destruct parent, k; vsimpl; cbn [v_anchor]; vsimpl; done. }
  case_decide; [|apply R4]. subst q. split; [done|]. intros (b & _ & Hx & _). by destruct (ab_owner v p Hab b).
Qed.

Lemma newborn_thr : thr_ok w.
Proof.
  destruct newborn_cols as (E1 & E2 & _). pose proof (inv_thr v Hg) as [T1 T2 T3 T4 T5 T6].
  assert (Ew : v_pthreads w = fset p ∅ (v_pthreads v) /\ v_nthreads w = fset p 0 (v_nthreads v) /\ v_threads w = v_threads v /\
    v_owner w = v_owner v /\ v_info w = v_info v /\ v_sharers w = v_sharers v /\ v_bring w = v_bring v /\ v_bpins w = v_bpins v /\ v_ntid w = v_ntid v)
    by (clear Hl; unfold w, newborn, put_proc; destruct parent; vsimpl; done).
  destruct Ew as (W1 & W2 & W3 & W4 & W5 & W6 & W7 & W8 & W9). unfold live, pinning in *.
  split; unfold live, pinning; rewrite ?W1, ?W2, ?W3, ?W4, ?W5, ?W6, ?W7, ?W8, ?W9; try done.
  - intros q t y. unfold fset. case_decide; [|apply T1]. subst q. rewrite lookup_empty. split; [done|].
    intros (_ & cb & Hx). by destruct (ab_thread v p Hab t cb).
  - intros q. rewrite E1. unfold fset. case_decide; [by rewrite map_size_empty|apply T2].
  - intros t q cb Ht. destruct (T3 t q cb Ht). split; [|done]. rewrite E2. unfold fset. case_decide; [by eexists|done].
Qed.

Lemma newborn_map : map_ok w.
Proof.
  destruct newborn_cols as (_ & E2 & E3 & E4 & _). pose proof (inv_map v Hg) as [M1 M2 M3 M4 M5].
  assert (Ew : v_kmap w = v_kmap v /\ v_kdirty w = v_kdirty v /\ v_info w = v_info v /\ v_owner w = v_owner v /\ v_eblock w = v_eblock v /\ v_eto w = v_eto v)
    by (clear Hl; unfold w, newborn, put_proc; destruct parent; vsimpl; done).
  destruct Ew as (W1 & W2 & W3 & W4 & W5 & W6). unfold sees in *. split; unfold sees; rewrite ?W1, ?W2, ?W3, ?W4, ?W5, ?W6; try done.
  - intros q m y. rewrite E2. unfold fset. case_decide; [|apply M1]. intros [= <-] _. left. by rewrite Ha.
  - intros q. rewrite E3, E4. unfold fset. case_decide; [by rewrite Hn, Hd|apply M4].
Qed.

Lemma graph_newborn : graph_inv w.
Proof.
  split; [apply newborn_reg|apply newborn_tree|apply newborn_own|apply newborn_edge|apply newborn_pend|apply newborn_ring|apply newborn_thr| |apply newborn_map].
  pose proof (inv_geo v Hg) as [G1 G2]. assert (Ew : v_info w = v_info v) by (clear Hl; unfold w, newborn; by destruct parent).
  split; rewrite ?Ew; done.
Qed.

End Newborn.

Lemma inv_newborn v x p parent a : inv v x -> p = v_npid v -> 0 < p -> (forall q, parent = Some q -> live v q) ->
  as_map a = v_kmap v -> a_pins a = 0 -> a_dirty a = false -> inv (newborn v p parent a) x.
Proof.
  intros Hi -> H0 Hl Ha Hn Hd. pose proof (inv_graph _ _ _ Hi) as Hg. pose proof (fresh_absent v Hg) as Hab.
  apply (inv_step v x); [done|by apply graph_newborn| | |apply calm_refl].
  - clear Hl. unfold newborn, put_proc. destruct parent; split; vsimpl; done.
  - eapply sched_ext; [done| | |apply Hi].
    + clear Hl. unfold newborn, put_proc. by destruct parent.
    + intros q Hq. destruct (newborn_cols v (v_npid v) parent a) as (_ & -> & _). unfold fset. case_decide; [by eexists|done].
Qed.

Lemma wp_register p P Q v x : v_pid v p = Some P -> v_gprocs v !! P = None -> x_held x = [] ->
  Q tt (upd_v_gprocs (insert P p) v) x -> wp (umem_process_register p) Q v x.
Proof.
  intros Hp Hf Hx H. unfold umem_process_register. ws. ws. apply wp_bind, wp_lock_below; [rewrite Hx; constructor|]. ws. ws. ws.
  apply wp_bind, wp_asserts; [by apply bool_decide_eq_true|]. ws. eapply wp_unlock_top; [done|rewrite Hx; constructor|].
  replace (set_held _ _) with x by (by destruct x). done.
Qed.

Lemma wp_create parent Q v x : inv v x -> (forall q, parent = Some q -> live v q) -> 0 < v_npid v < 2 ^ 64 - 1 -> x_held x = [] ->
  (forall a, as_map a = v_kmap v -> inv (newborn v (v_npid v) parent a) x -> Q (v_npid v) (newborn v (v_npid v) parent a) x) ->
  wp (process_create parent) Q v x.
Proof.
  intros Hi Hl Hb Hx H. pose proof (inv_graph _ _ _ Hi) as Hg. pose proof (fresh_absent v Hg) as Hab. unfold process_create. ws. ws. ws.
  assert (upd_v_npid (fun n => u64 (n + 1)) v = upd_v_npid Z.succ v) as -> by (unfold upd_v_npid; rewrite u64_small by lia; done).
  apply wp_bind, wp_as_clone_kernel. intros a Ha Hn Hd. pose proof (inv_newborn v x _ parent a Hi eq_refl ltac:(lia) Hl Ha Hn Hd) as Hi'.
  specialize (H a Ha Hi'). ws. ws. ws. apply wp_bind. eapply wp_register; [unfold put_proc; vsimpl; by rewrite fset_eq| |done|].
  { apply eq_None_not_Some. intros [y [-> Hy]%(reg_index v (inv_reg v Hg))]. unfold live in Hy. by rewrite (ab_pid v _ Hab) in Hy. }
  apply wp_bind. destruct parent as [q|]; [|apply wp_ret, wp_ret; exact H].
  pose proof (Hl q eq_refl) as Hq. assert (Hqp : q <> v_npid v) by (pose proof (reg_pid v (inv_reg v Hg) q q Hq); lia).
  apply wp_bind, wp_lock_below; [rewrite Hx; constructor|]. ws. 
  apply wp_bind. eapply wp_get_proc; [unfold put_proc; vsimpl; rewrite fset_ne by done; exact Hq|]. intros oa _.
  apply wp_bind, wp_asserts.
  { apply bool_decide_eq_true. unfold proc_of, put_proc. cbn [p_children]. vsimpl. rewrite fset_ne by done.
    apply eq_None_not_Some. intros [y [_ Hy]%(tree_down v (inv_tree v Hg))]. by rewrite (ab_up v _ Hab) in Hy. }
  apply wp_bind, wp_p_children; [unfold put_proc; vsimpl; rewrite fset_ne by done; by eexists|].
  eapply wp_unlock_top; [done|rewrite Hx; constructor|]. replace (set_held _ _) with x by (by destruct x). apply wp_ret. exact H.
Qed.

(** ** Destruction *)

(** [p] owns nothing, sees nothing of others, and has neither children nor threads. *)
Record spent v (p : Z) : Prop := {
  sp_par c : v_par v c <> Some p;
  sp_owner b : v_owner v b <> Some p;
  sp_edge e : v_eto v e <> Some p;
  sp_thread t cb : v_threads v !! t <> Some (p, cb) }.

Lemma empty_spent v p : graph_inv v -> v_pblocks v p = ∅ -> v_views v p = ∅ -> v_children v p = ∅ -> v_pthreads v p = ∅ -> spent v p.
Proof.
  intros Hg E1 E2 E3 E4. split.
  - intros c Hc. assert (v_children v p !! c = Some c) as Hx by (by apply (tree_down v (inv_tree v Hg))). by rewrite E3 in Hx.
  - intros b Hb. destruct (proj1 (own_info v (inv_own v Hg) b)) as [i Hi]; [eauto|].
    assert (v_pblocks v p !! i_base i = Some b) as Hx; [|by rewrite E1 in Hx].
    apply (own_index v (inv_own v Hg)). split; [done|]. unfold bbase. by rewrite Hi.
  - intros e He. destruct (edge_facts v e p Hg He) as (b & i & o & Heb & Hi & _).
    assert (v_views v p !! i_base i = Some e) as Hx; [|by rewrite E2 in Hx].
    apply (edge_views v (inv_edge v Hg)). split; [done|]. exists b. split; [done|]. unfold bbase. by rewrite Hi.
  - intros t cb Ht. assert (v_pthreads v p !! t = Some t) as Hx; [|by rewrite E4 in Hx].
    apply (thr_index v (inv_thr v Hg)). eauto.
Qed.

(** [p]'s address space is gone. *)
Definition unmapped v (p : Z) : gview := upd_v_map (fset p None) (upd_v_pins (fset p 0) (upd_v_dirty (fset p false) v)).

Lemma wp_as_none p Q v x : is_Some (v_pid v p) -> Q tt (unmapped v p) x -> wp (mod_proc p (upd_p_as (fun _ => None))) Q v x.
Proof. intros [pid Hp] H. eapply wp_mod_proc; [done| |exact H]. intros s P <- E. by apply view_p_as_none. Qed.

Lemma graph_unmapped v p : graph_inv v -> spent v p -> eff_dead v p -> graph_inv (unmapped v p).
Proof.
  intros Hg [S1 S2 S3 S4] Hd. unfold unmapped. pose proof Hg as [R T O E P Rg Th G Mp].
  split; [|keep T| | |by apply (pend_links v), eq_refl|keep Rg| |keep G|].
  - destruct R as [R1 R2 R3 R4]. split; [done|done|..]; intros q; vsimpl; (destruct (decide (q = p)) as [->|Hq]; [rewrite fset_eq|rewrite fset_ne by done]).
    + by intros [? ?].
    + apply R3.
    + intros _ _. by apply (eff_dead_cols v).
    + intros Hl Hn. apply (eff_dead_cols v); [done|done|by apply R4].
  - destruct O as [O1 O2 O3 O4 O5 O6]. split; try done. intros b q Hb. vsimpl. rewrite fset_ne; [by apply (O3 b)|]. intros ->. by destruct (S2 b).
  - destruct E as [E1 E2 E3 E4 E5 E6]. split; try done. intros e q He. vsimpl. rewrite fset_ne; [by apply (E5 e)|]. intros ->. by destruct (S3 e).
  - destruct Th as [T1 T2 T3 T4 T5 T6]. split; try done. intros t q cb Ht. destruct (T3 t q cb Ht). split; [|done]. vsimpl.
    rewrite fset_ne; [done|]. intros ->. by destruct (S4 t cb).
  - destruct Mp as [M1 M2 M3 M4 M5]. split; try done.
    + intros q m a. vsimpl. unfold fset. case_decide; [done|apply M1].
    + intros q. vsimpl. unfold fset. case_decide; [done|apply M4].
Qed.

(** [p], a child of [q], leaves the tree. *)
Definition removed v (p q : Z) : gview :=
  drop_proc p (upd_v_gprocs (delete p) (upd_v_children (fset q (delete p (v_children v q))) v)).

Section Removed.
Context (v : gview) (p q : Z) (Hg : graph_inv v) (Hsp : spent v p) (Hm : v_map v p = None) (Hpar : v_par v p = Some q).

Lemma removed_dead r : r <> p -> eff_dead v r -> eff_dead (removed v p q) r.
Proof using Hsp.
  intros Hr Hd. revert Hr. induction Hd as [r Hr|r s Hr Hs IH]; intros Hne; unfold removed, drop_proc.
  - apply dead_here. vsimpl. by rewrite fset_ne.
  - apply dead_above with s; [vsimpl; by rewrite fset_ne|]. apply IH. intros ->. by destruct (sp_par v p Hsp r).
Qed.

Lemma removed_reg : reg_ok (removed v p q).
Proof.
  pose proof (inv_reg v Hg) as [R1 R2 R3 R4]. unfold live in *. split.
  - intros r y. unfold removed, drop_proc. vsimpl. unfold fset. case_decide; [done|apply R1].
  - intros r y. unfold live, removed, drop_proc. vsimpl. rewrite lookup_delete_Some, R2. unfold fset. case_decide as Hr.
    + subst r. split; [by intros [? _]|by intros [_ ?]].
    + split; [by intros [_ ?]|]. intros Hx. split; [congruence|done].
  - intros r. unfold live, removed, drop_proc. vsimpl. unfold fset. case_decide; [by intros [? ?]|apply R3].
  - intros r. unfold live. intros Hx Hn. destruct (decide (r = p)) as [->|Hr].
    + unfold removed, drop_proc in Hx. vsimpl_in Hx. by rewrite fset_eq in Hx.
    + apply removed_dead; [done|]. unfold removed, drop_proc in Hx, Hn. vsimpl_in Hx. vsimpl_in Hn. rewrite fset_ne in Hx by done. rewrite fset_ne in Hn by done. by apply R4.
Qed.

Lemma removed_tree : tree_ok (removed v p q).
Proof.
  pose proof (inv_tree v Hg) as [T1 T2]. unfold live in *. split.
  - intros c r. unfold live, removed, drop_proc. vsimpl. unfold fset at 1. case_decide as Hc; [done|]. intros Hr. destruct (T1 c r Hr) as (? & ? & ?).
    rewrite !fset_ne; [done|done|]. intros ->. by destruct (sp_par v p Hsp c).
  - intros r c y. unfold removed, drop_proc. vsimpl. destruct (decide (r = p)) as [->|Hr].
    + rewrite fset_eq, lookup_empty. split; [done|]. intros [_ Hx]. unfold fset in Hx. case_decide; [done|]. by destruct (sp_par v p Hsp c).
    + rewrite (fset_ne p r) by done. destruct (decide (r = q)) as [->|Hrq].
      * rewrite fset_eq, lookup_delete_Some, T2. unfold fset. case_decide as Hc; [subst c; split; [by intros [? _]|by intros [_ ?]]|].
        split; [by intros [_ ?]|]. intros Hx. split; [congruence|done].
      * rewrite fset_ne by done. rewrite T2. unfold fset. case_decide as Hc; [|done]. subst c. rewrite Hpar. split; [intros [_ ?]; congruence|by intros [_ ?]].
Qed.

Lemma removed_pend : pend_ok (removed v p q).
Proof.
  destruct (inv_pend v Hg) as (L & HQ & HL). exists L. split; [|exact HL].
  intros r. pose proof (HQ r) as [A1 A2 A3 A4]. split; [| |exact A3|exact A4]; unfold removed, drop_proc; vsimpl; unfold fset; case_decide; try done; subst r.
  all: destruct (L p) as [|e l] eqn:E; [done|]; exfalso; destruct (proj1 (HL p e)) as [Hx _]; [rewrite E; by left|]; by destruct (sp_edge v p Hsp e).
Qed.

Lemma graph_removed : graph_inv (removed v p q).
Proof.
  destruct Hsp as [S1 S2 S3 S4].
  split; [apply removed_reg|apply removed_tree| | |apply removed_pend| | |keep (inv_geo v Hg)|].
  - destruct (inv_own v Hg) as [O1 O2 O3 O4 O5 O6]. split; try done; unfold removed, drop_proc.
    + intros r base b. vsimpl. unfold fset. case_decide; [|apply O1]. subst r. rewrite lookup_empty. split; [done|]. intros [Hx _]. by destruct (S2 b).
    + intros b r Hb. vsimpl. rewrite fset_ne; [by apply (O3 b)|]. intros ->. by destruct (S2 b).
  - destruct (inv_edge v Hg) as [E1 E2 E3 E4 E5 E6]. split; try done; unfold removed, drop_proc.
    + intros r base e. vsimpl. unfold fset. case_decide; [|apply E2]. subst r. rewrite lookup_empty. split; [done|]. intros [Hx _]. by destruct (S3 e).
    + intros e r He. vsimpl. rewrite fset_ne; [by apply (E5 e)|]. intros ->. by destruct (S3 e).
  - destruct (inv_ring v Hg) as [R1 R2 R3 R4]. split; try done. intros k r y.
    assert (v_anchor (removed v p q) k r = if decide (r = p) then None else v_anchor v k r) as -> by (by destruct k).
    case_decide; [|apply R4]. subst r. split; [done|]. intros (b & _ & Hx & _). by destruct (S2 b).
  - destruct (inv_thr v Hg) as [T1 T2 T3 T4 T5 T6]. split; try done; unfold removed, drop_proc.
    + intros r t y. vsimpl. unfold fset. case_decide; [|apply T1]. subst r. rewrite lookup_empty. split; [done|].
      intros (_ & cb & Hx). by destruct (S4 t cb).
    + intros r. unfold live. vsimpl. unfold fset. case_decide; [done|apply T2].
    + intros t r cb Ht. destruct (T3 t r cb Ht). split; [|done]. vsimpl. rewrite fset_ne; [done|]. intros ->. by destruct (S4 t cb).
  - destruct (inv_map v Hg) as [M1 M2 M3 M4 M5]. split; try done; unfold removed, drop_proc.
    + intros r m a. vsimpl. unfold fset. case_decide; [done|apply M1].
    + intros r. vsimpl. unfold fset. case_decide; [done|apply M4].
Qed.

End Removed.

Lemma inv_unmapped v x p : inv v x -> spent v p -> eff_dead v p -> (forall i, x_ases x !! i <> Some (Some p)) -> inv (unmapped v p) x.
Proof.
  intros Hi Hsp Hd Hc. apply (inv_step v x); [done|by apply graph_unmapped; [apply Hi|..]|by split| |apply calm_refl].
  destruct (inv_sched _ _ _ Hi) as [H1 H2 H3 H4 H5 H6 H7 H8 H9 H10]. split; try done.
  intros i q Hq. unfold unmapped. vsimpl. rewrite fset_ne; [by apply (H7 i)|]. intros ->. by destruct (Hc i).
Qed.

Lemma inv_removed v x p q : inv v x -> spent v p -> v_map v p = None -> v_par v p = Some q -> inv (removed v p q) x.
Proof.
  intros Hi Hsp Hm Hp. apply (inv_step v x); [done|by apply graph_removed; [apply Hi|..]|by split| |apply calm_refl].
  apply (sched_ext v _ x x); [done|done| |apply Hi]. intros r Hr. unfold removed, drop_proc. vsimpl. rewrite fset_ne; [done|].
  intros ->. rewrite Hm in Hr. by destruct Hr.
Qed.

Lemma wp_removed p q Q v x : graph_inv v -> live v p -> spent v p -> v_map v p = None -> v_par v p = Some q -> v_pblocks v p = ∅ -> v_views v p = ∅ -> 
  x_held x = [] -> Q PROC_DESTROY_DONE (removed v p q) x ->
  wp (parent ← deref (Some q);
      Qp ← get_proc parent;
      _ ← remove_exact (p_children Qp) p p "process: child missing during destroy";
      _ ← mod_proc parent (upd_p_children (delete p));
      _ ← umem_proc_unregister_locked p;
      _ ← umem_process_finish_locked p;
      _ ← modify (upd_k_procs (delete p));
      _ ← umem_unlock;
      mret PROC_DESTROY_DONE) Q v (set_held [LUmem] x).
Proof.
  intros Hg Hp Hsp Hm Hpar Hpb Hpv Hx H. destruct (tree_up v (inv_tree v Hg) p q Hpar) as (_ & Hq & _).
  apply wp_bind. eapply wp_deref; [done|]. apply wp_bind. eapply wp_get_proc; [exact Hq|]. intros oq _. cbn [proc_of p_children].
  apply wp_bind, wp_asserts; [by apply bool_decide_eq_true, (tree_down v (inv_tree v Hg))|].
  apply wp_bind, wp_p_children; [by eexists|]. unfold umem_proc_unregister_locked, umem_process_finish_locked.
  wp_bound. eapply wp_get_proc; [exact Hp|]. intros op _. cbn [proc_of p_pid]. ws. wp_bound. apply wp_asserts.
  { by apply bool_decide_eq_true, (reg_index v (inv_reg v Hg)). }
  ws. wp_bound. eapply wp_get_proc; [exact Hp|]. intros op' _. cbn [proc_of p_blocks p_views]. vsimpl. rewrite Hpb, Hpv, !map_size_empty.
  apply wp_asserts; [done|]. wp_bound. apply wp_free_proc. apply (wp_unlock_one LUmem _ Q _ x); [done|]. exact H.
Qed.

Lemma wp_destroy curr T pid Q v x : inv v x -> x_threads x !! curr = Some T -> x_held x = [] ->
  (forall rc, rc <> 0 -> rc <> 1 -> Q rc v x) ->
  (reaps v (t_proc T) pid -> spent v pid -> inv (unmapped v pid) x -> Q PROC_DESTROY_MORE (unmapped v pid) x) ->
  (forall q, reaps v (t_proc T) pid -> spent v pid -> v_map v pid = None -> v_par v pid = Some q -> inv (removed v pid q) x ->
     Q PROC_DESTROY_DONE (removed v pid q) x) ->
  wp (proc_sys_destroy curr pid) Q v x.
Proof.
  intros Hi HT Hx Hbad Hmore Hdone. pose proof (inv_graph _ _ _ Hi) as Hg. unfold proc_sys_destroy. ws.
  apply wp_bind, wp_lock_below; [rewrite Hx; constructor|]. rewrite Hx.
  assert (Hend : forall rc, rc <> 0 -> rc <> 1 -> wp (_ ← umem_unlock; mret rc) Q v (set_held [LUmem] x)).
  { intros rc Hrc Hrc'. apply wp_unlock_one; [done|by apply Hbad]. }
  apply wp_bind, wp_lookup_any; [apply Hg|intros Hl|intros _; apply wp_bind, wp_ret; by apply Hend].
  apply wp_bind, wp_reaper; [apply Hg|apply Hg|done|]. intros [] Hr; [cbn [negb]|by apply Hend].
  specialize (proj1 Hr eq_refl) as Hreap. apply wp_bind, wp_lock_below; [by repeat constructor|].
  apply wp_bind. eapply wp_get_proc; [exact Hl|]. intros oa [Hoa [Hon _]]. cbn [proc_of p_blocks p_views p_children p_threads p_as p_parent p_pid].
  apply wp_bind. eapply wp_unlock_top; [done|by repeat constructor|].
  destruct (_ || _ || _) eqn:E; [by apply Hend|]. rewrite !orb_false_iff in E. destruct E as (((E1 & E2) & E3) & E4).
  apply negb_false_iff, Nat.eqb_eq, map_size_empty_iff in E1, E2, E3, E4. pose proof (empty_spent v pid Hg E1 E2 E3 E4) as Hsp.
  destruct oa as [a|].
  - simpl in Hoa, Hon. apply wp_bind, wp_get_cpus. intros cpus Hcpus. destruct (_ || _) eqn:Ec; [by apply Hend|].
    apply orb_false_iff in Ec as [Ec1 Ec2]. apply wp_bind, wp_as_none; [by eexists|]. apply (wp_unlock_one LUmem _ Q _ x); [done|].
    apply Hmore; [done|done|]. apply inv_unmapped; [done|done|by eapply reaps_dead|]. intros k Hk. cbn in Hcpus. rewrite <-Hcpus, list_lookup_fmap in Hk.
    destruct (cpus !! k) as [c|] eqn:Ek; [|done]. simpl in Hk. injection Hk as Hk.
    assert (existsb (fun c => bool_decide (c_current_as c = Some pid)) cpus = true); [|congruence].
    apply existsb_exists. exists c. split; [by eapply list_elem_of_In, list_elem_of_lookup_2|by apply bool_decide_eq_true].
  - simpl in Hoa. assert (Hpar : exists q, v_par v pid = Some q) by (inversion Hreap; eauto). destruct Hpar as [q Hpar]. rewrite Hpar.
    apply (wp_removed pid q Q v x); try done. apply Hdone; try done. by apply inv_removed.
Qed.

End Processes.
