(* ===== verification/LifeSpec.v ===== *)
(** * Specifications of thread creation, exit and of killing

    A thread enters the tables of its process and of the scheduler together, and
    leaves both together; the last thread of a process takes it down.  Killing marks
    a process and with it all its descendants. *)

From Stdlib Require Import FunctionalExtensionality.
From S2P Require Import Prelude Buddy Paging Siphash PlatformMem Machine Sched Index Channel Umem Process Graph Wp Invariant BaseSpec SchedSpec ThreadSpec ChannelSpec UmemSpec BlockSpec MoveSpec ProcessSpec.

Section Life.
Context {PT : PageTree} {SC : Schemes} {SS : SchemesSafe}.
Implicit Types (v w : gview) (x : rest).

(** ** Threads of a process *)

(** The completion word of a new thread is in block [cb]. *)
Definition pinned v (cb : option Z) : gview :=
  match cb with None => v | Some b => upd_v_bpins (fset b (v_bpins v b + 1)) v end.

(** Thread [t] of [p] with its completion word in [cb]. *)
Definition hatched v (p t : Z) (cb : option Z) : gview :=
  upd_v_nthreads (fset p (v_nthreads v p + 1)) (upd_v_pthreads (fset p (<[t := t]> (v_pthreads v p)))
    (upd_v_threads (insert t (p, cb)) (upd_v_ntid Z.succ (pinned v cb)))).

Definition unpinned_by v (cb : option Z) : gview :=
  match cb with None => v | Some b => upd_v_bpins (fset b (v_bpins v b - 1)) v end.

(** Thread [t] of [p], its completion word in [cb], is gone. *)
Definition departed v (p t : Z) (cb : option Z) : gview :=
  upd_v_nthreads (fset p (v_nthreads v p - 1)) (upd_v_threads (delete t) (upd_v_pthreads (fset p (delete t (v_pthreads v p)))
    (unpinned_by v cb))).

(** Groups that do not read the thread columns. *)
Lemma graph_threads v w : graph_inv v -> (exists n pt ts nt bp, w = upd_v_nthreads n (upd_v_pthreads pt (upd_v_threads ts (upd_v_ntid nt (upd_v_bpins bp v))))) ->
  thr_ok w -> (forall b r, v_bring v b = Some r -> v_bpins w b = 0) -> graph_inv w.
Proof.
  intros Hg (n & pt & ts & nt & bp & ->) Hth Hb.
  split; [eapply reg_cols, (inv_reg v Hg); done|keep (inv_tree v Hg)|keep (inv_own v Hg)|keep (inv_edge v Hg)| | |exact Hth|keep (inv_geo v Hg)|keep (inv_map v Hg)].
  - by apply (pend_links v), eq_refl; [apply Hg|..].
  - destruct (inv_ring v Hg) as [R1 R2 R3 R4]. split; try assumption. intros b r Hr. destruct (R2 b r Hr) as (A1 & _ & A3 & A4).
    split_and!; [done|by eapply Hb|done|done].
Qed.

Lemma pinning_insert v w t p cb b : v_threads w = <[t := (p, cb)]> (v_threads v) -> v_threads v !! t = None ->
  Z.of_nat (size (pinning w b)) = Z.of_nat (size (pinning v b)) + (if decide (cb = Some b) then 1 else 0).
Proof.
  intros Ew Ht. unfold pinning. rewrite Ew. case_decide as Hb.
  - rewrite map_filter_insert_True by done. rewrite map_size_insert_None; [lia|]. apply map_lookup_filter_None. by left.
  - rewrite map_filter_insert_not' by naive_solver. lia.
Qed.

Lemma pinning_delete v w t p cb b : v_threads w = delete t (v_threads v) -> v_threads v !! t = Some (p, cb) ->
  Z.of_nat (size (pinning w b)) = Z.of_nat (size (pinning v b)) - (if decide (cb = Some b) then 1 else 0).
Proof.
  intros Ew Ht. unfold pinning. rewrite Ew, map_filter_delete. case_decide as Hb.
  - assert (Hx : base.filter (fun kv : Z * (Z * option Z) => kv.2.2 = Some b) (v_threads v) !! t = Some (p, cb)) by (by apply map_lookup_filter_Some).
    rewrite map_size_delete_Some by eauto. destruct (size _) eqn:E; [|lia]. apply map_size_empty_iff in E. by rewrite E in Hx.
  - rewrite map_size_delete_None; [lia|]. apply map_lookup_filter_None. right. naive_solver.
Qed.

Section Hatched.
Context (v : gview) (p t : Z) (cb : option Z) (Hg : graph_inv v) (Et : t = v_ntid v) (Hm : is_Some (v_map v p))
  (Hcb : forall b, cb = Some b -> v_owner v b = Some p /\ v_sharers v b = ∅ /\ v_bring v b = None)
  (Hroom : Z.of_nat (size (v_threads v)) + 1 < 2 ^ 32).

Lemma hatched_fresh : v_threads v !! t = None.
Proof using Hg Et.
  apply eq_None_not_Some. intros [[q c] Hx]. destruct (thr_as v (inv_thr v Hg) t q c Hx). lia.
Qed.

Lemma hatched_bpins b : v_bpins (hatched v p t cb) b = v_bpins v b + (if decide (cb = Some b) then 1 else 0).
Proof.
  clear Hcb. unfold hatched, pinned. destruct cb as [c|]; vsimpl; unfold fset; repeat case_decide; simplify_eq; lia.
Qed.

Lemma hatched_cols : v_threads (hatched v p t cb) = <[t := (p, cb)]> (v_threads v) /\
  v_pthreads (hatched v p t cb) = fset p (<[t := t]> (v_pthreads v p)) (v_pthreads v) /\
  v_nthreads (hatched v p t cb) = fset p (v_nthreads v p + 1) (v_nthreads v) /\ v_ntid (hatched v p t cb) = Z.succ (v_ntid v) /\
  v_map (hatched v p t cb) = v_map v /\ v_pid (hatched v p t cb) = v_pid v /\ v_owner (hatched v p t cb) = v_owner v /\
  v_sharers (hatched v p t cb) = v_sharers v /\ v_bring (hatched v p t cb) = v_bring v /\ v_info (hatched v p t cb) = v_info v.
Proof. clear Hcb. unfold hatched, pinned. destruct cb; vsimpl; done. Qed.

Lemma hatched_thr : thr_ok (hatched v p t cb).
Proof.
  pose proof hatched_fresh as Hfr. pose proof (inv_thr v Hg) as [T1 T2 T3 T4 T5 T6].
  destruct hatched_cols as (E1 & E2 & E3 & E4 & E5 & E6 & E7 & E8 & E9 & E10).
  assert (Hnp : v_pthreads v p !! t = None).
  { apply eq_None_not_Some. intros [y [_ (c & Hx)]%T1]. congruence. }
  unfold live in *. split; unfold live; rewrite ?E1, ?E2, ?E3, ?E4, ?E5, ?E6, ?E7, ?E8, ?E9, ?E10.
  - intros q u y. unfold fset. case_decide as Hq.
    + subst q. rewrite lookup_insert_Some, T1. setoid_rewrite lookup_insert_Some. destruct (decide (u = t)) as [->|Hu].
      * split; [intros [[_ <-]|[? _]]; [eauto 10|done]|]. intros [-> _]. by left.
      * split; [intros [[? _]|[_ (-> & c & ?)]]; [congruence|eauto 10]|]. intros (-> & c & [[? _]|[_ ?]]); [congruence|]. right. eauto.
    + rewrite T1. setoid_rewrite lookup_insert_Some. split; intros (-> & c & Hx); (split; [done|]); exists c.
      * right. split; [congruence|done].
      * destruct Hx as [[_ [= ? _]]|[_ ?]]; [congruence|done].
  - intros q Hq. unfold fset. case_decide; [|by apply T2]. subst q. rewrite map_size_insert_None by done. rewrite T2 by done. lia.
  - intros u q c [[<- [= <- <-]]|[_ Hx]]%lookup_insert_Some; [split; [done|lia]|]. destruct (T3 u q c Hx). split; [done|lia].
  - intros u q b [[<- [= <- Hb]]|[_ Hx]]%lookup_insert_Some; [by apply Hcb|by apply (T4 u)].
  - intros b Hb. rewrite hatched_bpins, (pinning_insert v _ t p cb b) by done. by rewrite T5.
  - rewrite map_size_insert_None by done. lia.
Qed.

Lemma graph_hatched : graph_inv (hatched v p t cb).
Proof.
  pose proof hatched_fresh as Hfr. pose proof (inv_thr v Hg) as [T1 T2 T3 T4 T5 T6].
  apply (graph_threads v); [done| | |].
  - unfold hatched, pinned. destruct cb as [b|]; eexists _, _, _, _, _; [reflexivity|]. instantiate (1 := id). by destruct v.
  - apply hatched_thr.
  - intros b r Hr. rewrite hatched_bpins. destruct (ring_private v (inv_ring v Hg) b r Hr) as (_ & -> & _).
    case_decide as Hb; [|done]. destruct (Hcb b Hb) as (_ & _ & ?). congruence.
Qed.

End Hatched.

Section Departed.
Context (v : gview) (p t : Z) (cb : option Z) (Hg : graph_inv v) (Ht : v_threads v !! t = Some (p, cb)).

Lemma departed_bpins b : v_bpins (departed v p t cb) b = v_bpins v b - (if decide (cb = Some b) then 1 else 0).
Proof. clear Ht. unfold departed, unpinned_by. destruct cb as [c|]; vsimpl; unfold fset; repeat case_decide; simplify_eq; lia. Qed.

Lemma departed_cols : v_threads (departed v p t cb) = delete t (v_threads v) /\
  v_pthreads (departed v p t cb) = fset p (delete t (v_pthreads v p)) (v_pthreads v) /\
  v_nthreads (departed v p t cb) = fset p (v_nthreads v p - 1) (v_nthreads v) /\ v_ntid (departed v p t cb) = v_ntid v /\
  v_map (departed v p t cb) = v_map v /\ v_pid (departed v p t cb) = v_pid v /\ v_owner (departed v p t cb) = v_owner v /\
  v_sharers (departed v p t cb) = v_sharers v /\ v_bring (departed v p t cb) = v_bring v /\ v_info (departed v p t cb) = v_info v.
Proof. clear Ht. unfold departed, unpinned_by. destruct cb; vsimpl; done. Qed.

Lemma departed_thr : thr_ok (departed v p t cb).
Proof.
  pose proof (inv_thr v Hg) as [T1 T2 T3 T4 T5 T6].
  destruct departed_cols as (E1 & E2 & E3 & E4 & E5 & E6 & E7 & E8 & E9 & E10).
  assert (Hnp : v_pthreads v p !! t = Some t) by (apply T1; eauto).
  unfold live in *. split; unfold live; rewrite ?E1, ?E2, ?E3, ?E4, ?E5, ?E6, ?E7, ?E8, ?E9, ?E10.
  - intros q u y. unfold fset. case_decide as Hq.
    + subst q. rewrite lookup_delete_Some, T1. setoid_rewrite lookup_delete_Some. naive_solver.
    + rewrite T1. setoid_rewrite lookup_delete_Some. split; intros (-> & c & Hx); (split; [done|]); exists c; [|by destruct Hx].
      split; [|done]. intros <-. congruence.
  - intros q Hq. unfold fset. case_decide; [|by apply T2]. subst q. rewrite map_size_delete_Some by eauto. rewrite T2 by done.
    destruct (size (v_pthreads v p)) eqn:E; [|lia]. apply map_size_empty_iff in E. by rewrite E in Hnp.
  - intros u q c [_ Hx]%lookup_delete_Some. by apply (T3 u q c).
  - intros u q b [_ Hx]%lookup_delete_Some. by apply (T4 u q b).
  - intros b Hb. rewrite departed_bpins, (pinning_delete v _ t p cb b) by done. by rewrite T5.
  - rewrite map_size_delete_Some by eauto. lia.
Qed.

Lemma graph_departed : graph_inv (departed v p t cb).
Proof.
  apply (graph_threads v); [done| |apply departed_thr|].
  - unfold departed, unpinned_by. destruct cb as [b|]; eexists _, _, _, _, _.
    + instantiate (5 := fset p (v_nthreads v p - 1)). instantiate (4 := fset p (delete t (v_pthreads v p))). instantiate (3 := delete t).
      instantiate (2 := id). instantiate (1 := fset b (v_bpins v b - 1)). by destruct v.
    + instantiate (5 := fset p (v_nthreads v p - 1)). instantiate (4 := fset p (delete t (v_pthreads v p))). instantiate (3 := delete t).
      instantiate (2 := id). instantiate (1 := id). by destruct v.
  - intros b r Hr. rewrite departed_bpins. destruct (ring_private v (inv_ring v Hg) b r Hr) as (_ & -> & _).
    case_decide as Hb; [|done]. destruct (thr_pin v (inv_thr v Hg) t p b) as (_ & _ & ?); congruence.
Qed.

End Departed.

(** ** Spawning *)

(** The thread [uthread_spawn] makes. *)
Definition new_thread (p t entry sp arg fs gs : Z) (cb : option Z) (ev : Z) : thread :=
  let '(uframe, fs_base, gs_base) := arch_thread_init_user entry sp arg fs gs in
  Thread t p THREAD_RUNNABLE false (0, 0) 0 0 FUTEX_IDLE cb ev uframe fs_base gs_base.

(** The counters are not exhausted. *)
Record in_range v x : Prop := {
  ir_pid : 0 < v_npid v < 2 ^ 64 - 1;
  ir_tid : 0 <= v_ntid v < 2 ^ 64 - 1;
  ir_threads : Z.of_nat (size (v_threads v)) + 1 < 2 ^ 32;
  ir_seq : x_futex_seq x < 2 ^ 64 - 16 }.

Lemma size_pthreads v p : graph_inv v -> live v p -> v_nthreads v p <= Z.of_nat (size (v_threads v)).
Proof.
  intros Hg Hl. rewrite (thr_count v (inv_thr v Hg) p Hl).
  assert (Hsub : dom (v_pthreads v p) ⊆ dom (v_threads v)).
  { intros t [y Hy]%elem_of_dom. apply (thr_index v (inv_thr v Hg)) in Hy as (_ & c & Hc). apply elem_of_dom. eauto. }
  apply subseteq_size in Hsub. rewrite !size_dom in Hsub. lia.
Qed.

Lemma pinned_cols v cb : v_pid (pinned v cb) = v_pid v /\ v_dead (pinned v cb) = v_dead v /\ v_par (pinned v cb) = v_par v /\
  v_ntid (pinned v cb) = v_ntid v /\ v_pthreads (pinned v cb) = v_pthreads v /\ v_nthreads (pinned v cb) = v_nthreads v.
Proof. by destruct cb. Qed.

Lemma inv_hatched v x x' p t cb T : inv v x -> t = v_ntid v -> is_Some (v_map v p) -> in_range v x ->
  (forall b, cb = Some b -> v_owner v b = Some p /\ v_sharers v b = ∅ /\ v_bring v b = None) ->
  x_threads x' = <[t := T]> (x_threads x) -> t_status T <> THREAD_DEAD -> sched_inv (hatched v p t cb) x' [] [] ->
  x_pool x' = x_pool x -> x_platform x' = x_platform x -> scheme_part x' = scheme_part x -> inv (hatched v p t cb) x'.
Proof.
  intros Hi Et Hm [_ _ Hr _] Hcb E1 Hst Hs E2 E3 E4. split.
  - apply graph_hatched; [apply Hi|done|done|done|done].
  - clear Hcb Hs. eapply (pool_frame v _ x); [..|apply Hi]; try done; unfold hatched, pinned; by destruct cb.
  - done.
  - intros u U HU Hd. rewrite E1 in HU. apply lookup_insert_Some in HU as [[<- <-]|[_ HU]]; [done|by eapply (inv_alive _ _ _ Hi)].
  - clear Hcb Hs. eapply scheme_ext; [| | | |apply Hi]; [| | |done]; unfold hatched, pinned; by destruct cb.
Qed.

Lemma hatched_built v p t cb T : t = v_ntid v -> tview T = (p, cb) -> 0 <= v_ntid v < 2 ^ 64 - 1 ->
  upd_v_nthreads (fset p (v_nthreads v p + 1)) (upd_v_pthreads (fset p (<[t := t]> (v_pthreads v p)))
    (upd_v_threads (insert t (tview T)) (upd_v_ntid (fun n => u64 (n + 1)) (pinned v cb)))) = hatched v p t cb.
Proof.
  intros Et ET Hr. unfold hatched. rewrite ET. do 3 f_equal. assert (E : u64 (v_ntid v + 1) = Z.succ (v_ntid v)) by (apply Z.mod_small; lia).
  clear - E. destruct cb, v; cbn in E; lazy beta iota zeta delta -[fset u64 Z.succ Z.add Z.sub]; by rewrite E.
Qed.

Lemma wp_spawn p entry sp arg fs gs cb ev Q v x : inv v x -> is_Some (v_map v p) -> ~ eff_dead v p -> in_range v x -> x_held x = [LUmem] ->
  (forall b, cb = Some b -> v_owner v b = Some p /\ v_sharers v b = ∅ /\ v_bring v b = None) ->
  (forall x', inv (hatched v p (v_ntid v) cb) x' -> steady x x' ->
     x_threads x' = <[v_ntid v := new_thread p (v_ntid v) entry sp arg fs gs cb ev]> (x_threads x) -> Q (v_ntid v) (hatched v p (v_ntid v) cb) x') ->
  wp (process_spawn_thread_locked p entry sp arg fs gs cb ev) Q (pinned v cb) x.
Proof.
  intros Hi Hm Hnd Hr Hx Hcb H. pose proof (inv_graph _ _ _ Hi) as Hg. pose proof (reg_as v (inv_reg v Hg) p Hm) as Hl.
  destruct (pinned_cols v cb) as (P1 & P2 & P3 & P4 & P5 & P6). set (w := pinned v cb) in *.
  assert (Hfr : x_threads x !! v_ntid v = None).
  { pose proof (hatched_fresh v (v_ntid v) Hg eq_refl) as Hf. rewrite (sch_view _ _ _ _ (inv_sched _ _ _ Hi)), lookup_fmap in Hf.
    by destruct (x_threads x !! v_ntid v). }
  assert (Hreg : reg_ok w). { unfold w. destruct cb; [eapply reg_cols, (inv_reg v Hg); done|apply Hg]. }
  assert (Htree : tree_ok w). { unfold w. destruct cb; [keep (inv_tree v Hg)|apply Hg]. }
  assert (Hlw : live w p) by (unfold live; by rewrite P1).
  unfold process_spawn_thread_locked. apply wp_bind, wp_is_dead; [done..|]. intros [] Hdead.
  { exfalso. apply Hnd. apply (eff_dead_cols w); [done|done|by apply Hdead]. }
  apply wp_bind, wp_asserts; [done|]. unfold uthread_spawn. destruct Hr as [R1 R2 R3 R4].
  ws. wp_bound. apply wp_get_next_tid. rewrite P4. wp_bound. apply wp_next_tid. ws. cbn [arch_thread_init_user].
  wp_bound. apply wp_new_thread. apply wp_ret. ws.
  apply wp_bind. eapply wp_get_proc; [exact Hlw|]. intros oa _. cbn [proc_of p_threads]. apply wp_bind, wp_asserts.
  { apply bool_decide_eq_true. vsimpl. rewrite P5. apply eq_None_not_Some. intros [y [_ (c & Hc)]%(thr_index v (inv_thr v Hg))].
    by rewrite (hatched_fresh v (v_ntid v) Hg eq_refl) in Hc. }
  apply wp_bind, wp_p_threads; [by eexists|]. apply wp_bind, wp_p_nthreads; [by eexists|]. apply wp_bind. vsimpl.
  rewrite P5, P6. replace (u64 (v_nthreads v p + 1)) with (v_nthreads v p + 1).
  2:{ pose proof (size_pthreads v p Hg Hl). rewrite (thr_count v (inv_thr v Hg) p Hl) in *. symmetry. apply Z.mod_small. lia. }
  set (T := Thread _ _ _ _ _ _ _ _ _ _ _ _ _).
  unfold w. rewrite (hatched_built v p (v_ntid v) cb T) by done.
  apply wp_enqueue; [exact (sched_ncpu _ _ _ _ (inv_sched _ _ _ Hi))|simpl; rewrite Hx; by repeat constructor|].
  intros i q Hq. apply wp_ret. simpl in Hq. apply H; [|split; [by destruct x|]|done].
  - eapply (inv_hatched v x _ _ _ _ T); try done.
    eapply (sched_spawn v _ x _ (v_ntid v) T); try done; [apply Hi|by apply join_push|simpl; by rewrite length_insert|by destruct cb|].
    intros q'. unfold hatched, pinned. by destruct cb.
  - intros t U HU _. simpl. by rewrite lookup_insert_ne by congruence.
Qed.

(** ** Leaving *)

(** The completion of thread [t] has been delivered. *)
Definition completed v (p t : Z) (cb : option Z) : gview :=
  match cb with None => v | Some _ => upd_v_threads (insert t (p, None)) (unpinned_by v cb) end.

Lemma completed_cols v p t cb : v_pid (completed v p t cb) = v_pid v /\ v_pthreads (completed v p t cb) = v_pthreads v /\
  v_nthreads (completed v p t cb) = v_nthreads v.
Proof. by destruct cb. Qed.

Lemma departed_built v p t cb : v_threads v !! t = Some (p, cb) ->
  upd_v_nthreads (fset p (v_nthreads v p - 1)) (upd_v_threads (delete t) (upd_v_pthreads (fset p (delete t (v_pthreads v p))) (completed v p t cb)))
    = departed v p t cb.
Proof.
  intros Ht. unfold departed, completed. destruct cb as [b|]; [|done]. f_equal. cbn [unpinned_by].
  pose proof (delete_insert_eq (v_threads v) t (p, None)) as E. destruct v. simpl in E, Ht.
  lazy beta iota zeta delta -[fset delete insert map_delete map_insert Z.sub]. f_equal. exact E.
Qed.

Lemma nthreads_bound v p t cb : graph_inv v -> v_threads v !! t = Some (p, cb) -> live v p /\ 1 <= v_nthreads v p < 2 ^ 32.
Proof.
  intros Hg Ht. destruct (thr_as v (inv_thr v Hg) t p cb Ht) as [Hm _]. pose proof (reg_as v (inv_reg v Hg) p Hm) as Hl. split; [done|].
  pose proof (size_pthreads v p Hg Hl). pose proof (thr_room v (inv_thr v Hg)). rewrite (thr_count v (inv_thr v Hg) p Hl) in *.
  assert (v_pthreads v p !! t = Some t) as Hx by (apply (thr_index v (inv_thr v Hg)); eauto).
  destruct (size (v_pthreads v p)) eqn:E; [|lia]. apply map_size_empty_iff in E. by rewrite E in Hx.
Qed.

Lemma wp_leave p t T cb {A} (k : M A) Q v x : graph_inv v -> v_threads v !! t = Some (p, cb) -> x_threads x !! t = Some T -> t_tid T = t ->
  wp k Q (departed v p t cb) (set_threads (delete t) x) ->
  wp (_ ← remove_thread_ref p t; _ ← thread_free t; _ ← mod_proc p (upd_p_nthreads (fun n => u64 (n - 1))); k) Q (completed v p t cb) x.
Proof.
  intros Hg Ht HT Et H. destruct (nthreads_bound v p t cb Hg Ht) as [Hl Hn]. destruct (completed_cols v p t cb) as (E1 & E2 & E3).
  assert (Hp : v_pthreads v p !! t = Some t) by (apply (thr_index v (inv_thr v Hg)); eauto).
  apply wp_bind. unfold remove_thread_ref. apply wp_bind. eapply wp_get_proc; [by rewrite E1|]. intros oa _. cbn [proc_of p_threads].
  apply wp_bind. eapply wp_get_thread; [done|]. rewrite Et, E2. apply wp_bind.
  apply wp_asserts; [by apply bool_decide_eq_true|].
  apply wp_p_threads; [rewrite E1; by eexists|]. rewrite E2. unfold thread_free. apply wp_bind, wp_free_thread.
  apply wp_bind, wp_p_nthreads; [vsimpl; rewrite E1; by eexists|]. vsimpl. rewrite E3.
  replace (u64 (v_nthreads v p - 1)) with (v_nthreads v p - 1) by (symmetry; apply Z.mod_small; lia).
  by rewrite departed_built.
Qed.

(** The delivery, with the wake-up if [publish]. *)
Lemma wp_complete p t T b ev (publish : bool) C Q v x : graph_inv v -> sched_inv v x C [] -> x_threads x !! t = Some T -> t_proc T = p ->
  t_completion_block T = Some b -> (publish = true -> C = [] /\ t_status T <> THREAD_BLOCKED) -> held_below 4 (x_held x) ->
  (forall x', sched_inv v x' C [] -> calm x x' -> x_threads x' !! t = Some T -> (publish = false -> x' = x) ->
     Q tt (completed v p t (Some b)) (set_threads (insert t (upd_t_completion_block (fun _ => None) T)) x')) ->
  wp (_ ← channel_thread_complete_locked p b ev publish; mod_thread t (upd_t_completion_block (fun _ => None))) Q v x.
Proof.
  intros Hg Hs HT Ep Ec Hst Hh H.
  assert (Ht : v_threads v !! t = Some (p, Some b)) by (rewrite (sch_view _ _ _ _ Hs), lookup_fmap, HT; simpl; unfold tview; by rewrite Ep, Ec).
  destruct (thr_pin v (inv_thr v Hg) t p b Ht) as (Ho & _ & _).
  assert (exists i, v_info v b = Some i) as [i Hi] by (apply (own_info v (inv_own v Hg)); eauto).
  assert (Hpin : 1 <= v_bpins v b < 2 ^ 32).
  { rewrite (thr_pins v (inv_thr v Hg) b) by eauto. pose proof (thr_room v (inv_thr v Hg)).
    assert (size (pinning v b) <= size (v_threads v))%nat by (apply map_size_filter).
    assert (pinning v b !! t = Some (p, Some b)) as Hx by (by apply map_lookup_filter_Some).
    destruct (size (pinning v b)) eqn:E; [|lia]. apply map_size_empty_iff in E. by rewrite E in Hx. }
  unfold channel_thread_complete_locked. apply wp_bind, wp_bind. eapply wp_get_block; [done|done|].
  apply wp_bind, wp_asserts; [by apply Z.eqb_refl|]. apply wp_bind, wp_asserts; [cbn; destruct (Z.eqb_spec (v_bpins v b) 0); [lia|done]|].
  assert (Hend : forall x', sched_inv v x' C [] -> calm x x' -> x_threads x' !! t = Some T -> (publish = false -> x' = x) ->
    wp (mod_block b (upd_b_thread_pins (fun n => u32 (n - 1)))) (fun _ v x => wp (mod_thread t (upd_t_completion_block (fun _ => None))) Q v x) v x').
  { intros x' Hs' Hc' HT' Hno. apply wp_b_thread_pins; [eauto|]. eapply wp_completion_block; [done|]. rewrite Ep.
    replace (u32 (v_bpins v b - 1)) with (v_bpins v b - 1) by (symmetry; apply Z.mod_small; lia). by apply H. }
  apply wp_bind, wp_when; intros Ep'; [|by apply Hend; [|apply calm_refl|..]].
  destruct (Hst Ep') as [-> Hb]. apply wp_publish_wake; [done|apply Hg|apply Hg|apply Hg|done|]. intros x' Hs' Hc'.
  apply Hend; [done|done| |congruence]. by apply (calm_run _ _ Hc').
Qed.

(** Everything but the death of [t] is as the invariant says. *)
Record dying (t : Z) v x : Prop := {
  dy_graph : graph_inv v;
  dy_pool : exists B, pool_inv v x B;
  dy_sched : sched_inv v x [] [];
  dy_alive u U : x_threads x !! u = Some U -> u <> t -> t_status U <> THREAD_DEAD;
  dy_scheme : scheme_inv v x;
  dy_dead : exists T, x_threads x !! t = Some T /\ t_status T = THREAD_DEAD }.

Lemma dead_fields v x C D t T : sched_inv v x C D -> x_threads x !! t = Some T -> t_status T = THREAD_DEAD ->
  t_tid T = t /\ t_wake_state T = FUTEX_IDLE /\ t_deadline T = 0.
Proof.
  intros Hs HT Hd. destruct (th_shape _ _ _ _ _ (sch_thread _ _ _ _ Hs t) T HT) as [Et (Hdl & _ & Hsh)]. rewrite Hd in Hsh.
  destruct Hsh as [_ Hw]. split_and!; [done|done|]. destruct (decide (t_deadline T = 0)) as [|Hn]; [done|]. destruct (Hdl Hn); congruence.
Qed.

(** What is left once [t], whose process was [p], is gone. *)
Lemma inv_departed t p cb v x x1 : dying t v x -> v_threads v !! t = Some (p, cb) -> calm x x1 -> sched_inv v x1 [] [] ->
  inv (departed v p t cb) (set_threads (delete t) x1).
Proof.
  intros [D1 D2 D3 D4 D5 (T & HT & Hd)] Ht Hc Hs1. assert (HT1 : x_threads x1 !! t = Some T) by (apply (calm_run _ _ Hc); [done|congruence]).
  destruct (dead_fields v x1 [] [] t T Hs1 HT1 Hd) as (Et & Hw & Hdl).
  destruct (calm_keep _ _ Hc) as (C1 & C2 & C3 & C4 & C5 & C6 & C7 & C8 & C9 & C10 & C11 & C12 & C13). split.
  - by apply graph_departed.
  - eapply (pool_frame v _ x); [..|exact D2]; try done; unfold departed, unpinned_by; by destruct cb.
  - eapply (sched_gone v _ x1 _ [] [] t T); try done; try congruence; [set_solver|constructor|unfold departed, unpinned_by; by destruct cb|].
    intros q. unfold departed, unpinned_by. by destruct cb.
  - intros u U HU Hu. simpl in HU. apply lookup_delete_Some in HU as [Hne HU]. eapply D4; [|done|done]. by apply (calm_dead _ _ Hc).
  - eapply (scheme_ext v _ x); [| | | |exact D5]; [unfold departed, unpinned_by; by destruct cb..|].
    unfold scheme_part. simpl. congruence.
Qed.

(** The other running threads, the processors and the locks are as before. *)
Record ended (t : Z) x x' : Prop := {
  en_keep : x_this x' = x_this x /\ x_held x' = x_held x /\ x_platform x' = x_platform x /\ x_current x' = x_current x /\ x_ases x' = x_ases x /\
    x_futex_seq x' = x_futex_seq x;
  en_gone : x_threads x' !! t = None;
  en_run u U : x_threads x !! u = Some U -> u <> t -> t_status U <> THREAD_BLOCKED -> x_threads x' !! u = Some U }.

Lemma ended_steady t x y z : ended t x y -> calm y z -> x_threads z !! t = None -> ended t x z.
Proof.
  intros [E1 E2 E3] Hc Hz. destruct (calm_steady _ _ Hc) as [S1 S2]. split; [naive_solver congruence|done|].
  intros u U HU Hu Hb. apply S2; [by apply E3|done].
Qed.

Lemma calm_gone v v' x y t : sched_inv v x [] [] -> sched_inv v' y [] [] -> v_threads v' = v_threads v -> x_threads x !! t = None -> x_threads y !! t = None.
Proof.
  intros H1 H2 E Hx. pose proof (sch_view _ _ _ _ H1) as E1. pose proof (sch_view _ _ _ _ H2) as E2.
  assert (v_threads v !! t = None) as Hv by (by rewrite E1, lookup_fmap, Hx). rewrite <- E, E2, lookup_fmap in Hv. by destruct (x_threads y !! t).
Qed.

Lemma ended_made t x x1 : calm x x1 -> ended t x (set_threads (delete t) x1).
Proof.
  intros Hc. destruct (calm_steady _ _ Hc) as [S1 S2]. split; simpl; [done|by rewrite lookup_delete_eq|].
  intros u U HU Hu Hb. rewrite lookup_delete_ne by done. by apply S2.
Qed.

Lemma inv_killed v x p v' : inv v x -> killed v p v' -> graph_inv v' -> inv v' x.
Proof.
  intros Hi Hk Hg. apply (inv_step v x); [done|done| |eapply sched_killed; [done|apply Hi]|apply calm_refl].
  destruct Hk as [[-> _]| ->]; [apply keeps_refl|by split].
Qed.

Lemma inv_notice v x v' x' : inv v x -> graph_inv v' -> notice v v' -> sched_inv v' x' [] [] -> calm x x' -> inv v' x'.
Proof. intros Hi Hg Hn Hs Hc. apply (inv_step v x); [done|done|by apply keeps_notice|done|done]. Qed.

(** The last thread takes its process down. *)
Lemma wp_last_thread t p x0 {A} (k : M A) Q v x : inv v x -> live v p -> x_held x = [LUmem] -> ended t x0 x ->
  (forall v' x', inv v' x' -> ended t x0 x' -> wp k Q v' x') ->
  wp (P ← get_proc p; dead ← (if p_nthreads P =? 0 then process_is_dead p else mret true);
      _ ← when (negb dead) (_ ← mark_dead_locked p; notify_parent_locked p); k) Q v x.
Proof.
  intros Hi Hl Hx He H. pose proof (inv_graph _ _ _ Hi) as Hg. apply wp_bind. eapply wp_get_proc; [exact Hl|]. intros oa _.
  assert (Hend : forall d : bool, wp (_ ← when (negb d) (_ ← mark_dead_locked p; notify_parent_locked p); k) Q v x).
  { intros d. apply wp_bind, wp_when; intros _; [|by apply H]. apply wp_bind, wp_mark_dead; [done|done|]. intros v1 Hg1 Hk.
    pose proof (inv_killed v x p v1 Hi Hk Hg1) as Hi1. apply wp_notify_parent; [done|apply Hi1| |rewrite Hx; by repeat constructor|].
    { unfold live. by destruct Hk as [[-> _]| ->]. }
    intros v2 x2 Hg2 Hn Hs2 Hc2. apply H; [by eapply inv_notice|]. eapply ended_steady; [done|done|].
    eapply (calm_gone v1 v2); [apply Hi1|done| |apply He]. by destruct Hn as (? & ? & ? & ? & ? & ? & ->). }
  apply wp_bind. case_match; [apply wp_is_dead; [apply Hg|apply Hg|done|by intros]|by apply wp_ret].
Qed.

Lemma dying_held t v x h : dying t v x -> dying t v (set_held h x).
Proof. intros [D1 D2 D3 D4 D5 D6]. split; try done; [by apply (pool_frame v _ x)|by apply (sched_ext v _ x)|by apply (scheme_ext v _ x)]. Qed.

Lemma ended_held t x x' h : ended t (set_held h x) x' -> ended t x (set_held (x_held x) x').
Proof. intros [E1 E2 E3]. split; [naive_solver|done|done]. Qed.

Lemma wp_exited t Q v x : dying t v x -> x_held x = [] ->
  (forall v' x', inv v' x' -> ended t x x' -> Q tt v' x') -> wp (process_thread_exited t) Q v x.
Proof.
  intros Hd Hx H. pose proof Hd as [_ _ D3 _ _ (T & HT & Hdead)]. destruct (dead_fields _ _ _ _ _ _ D3 HT Hdead) as (Et & Hw & Hdl).
  set (p := t_proc T). set (cb := t_completion_block T).
  assert (Ht : v_threads v !! t = Some (p, cb)) by (by rewrite (sch_view _ _ _ _ D3), lookup_fmap, HT).
  unfold process_thread_exited. apply wp_bind. eapply wp_get_thread; [done|]. fold p cb.
  apply wp_bind, wp_lock_below; [rewrite Hx; constructor|]. rewrite Hx.
  apply (dying_held t v x [LUmem]) in Hd as Hd1. clear D3. pose proof Hd1 as [D1 _ D3 _ _ _]. set (y := set_held [LUmem] x) in *.
  destruct (nthreads_bound v p t cb D1 Ht) as [Hl _].
  assert (Hend : forall x1 x2 T2, calm y x1 -> sched_inv v x1 [] [] -> x_threads x2 !! t = Some T2 -> t_tid T2 = t ->
    set_threads (delete t) x2 = set_threads (delete t) x1 ->
    wp (_ ← remove_thread_ref p t; _ ← thread_free t; _ ← mod_proc p (upd_p_nthreads (fun n => u64 (n - 1)));
        P ← get_proc p; dead ← (if p_nthreads P =? 0 then process_is_dead p else mret true);
        _ ← when (negb dead) (_ ← mark_dead_locked p; notify_parent_locked p); umem_unlock) Q (completed v p t cb) x2).
  { intros x1 x2 T2 Hc Hs HT2 Et2 Es. eapply wp_leave; [done|done|done|done|]. rewrite Es. eapply wp_last_thread.
    - by apply (inv_departed t p cb v y x1).
    - clear - Hl. unfold live, departed, unpinned_by. by destruct cb.
    - destruct (calm_steady _ _ Hc) as [(_ & S & _) _]. exact S.
    - by apply ended_made.
    - intros v' x' Hi' He. destruct (en_keep _ _ _ He) as (_ & Eh & _). eapply wp_unlock_top; [exact Eh|constructor|].
      apply H; [by apply inv_held|]. rewrite <- Hx. by apply ended_held in He. }
  assert (Hcase : cb = None \/ exists b, cb = Some b) by (destruct cb; eauto). destruct Hcase as [Ec|[b Ec]].
  - rewrite Ec. apply wp_bind, wp_skip. specialize (Hend y y T (calm_refl y) D3 HT Et eq_refl). by rewrite Ec in Hend.
  - rewrite Ec. apply wp_bind, wp_bind, wp_is_dead; [apply D1|apply D1|done|]. intros d _.
    apply (wp_complete p t T b _ (negb d) []); [done|done|done|done|done|intros _; split; congruence|by repeat constructor|].
    intros x' Hs' Hc' HT' _. rewrite Ec in Hend. eapply (Hend x'); [done|done|by apply lookup_insert_eq|done|].
    unfold set_threads. simpl. f_equal. apply delete_insert_eq.
Qed.

End Life.
