(* ===== verification/CallSpec.v ===== *)
(** * Specifications of the process system calls

    Killing, spawning, destroying a thread, handing a block to a child and the
    enumerations.  Each keeps the invariant and leaves every thread that is not
    blocked alone. *)

From S2P Require Import Prelude Buddy Paging Siphash PlatformMem Machine Sched Index Channel Umem Process Graph Wp Invariant BaseSpec SchedSpec ChannelSpec UmemSpec BlockSpec MoveSpec ThreadSpec ProcessSpec LifeSpec.

Section Calls.
Context {PT : PageTree} {SC : Schemes} {SS : SchemesSafe}.
Implicit Types (v w : gview) (x : rest).

(** ** The calling thread *)

(** [curr] runs and belongs to [p], whose page tree shows [m]. *)
Record caller v x (curr : Z) (T : thread) (m : Z -> Z) : Prop := {
  ca_thread : x_threads x !! curr = Some T;
  ca_running : t_status T = THREAD_RUNNING;
  ca_map : v_map v (t_proc T) = Some m;
  ca_live : live v (t_proc T) }.

Lemma caller_made v x curr T : inv v x -> x_threads x !! curr = Some T -> t_status T = THREAD_RUNNING -> exists m, caller v x curr T m.
Proof.
  intros Hi HT Hr. pose proof (inv_graph _ _ _ Hi) as Hg.
  assert (Ht : v_threads v !! curr = Some (tview T)) by (by rewrite (sch_view _ _ _ _ (inv_sched _ _ _ Hi)), lookup_fmap, HT).
  destruct (thr_as v (inv_thr v Hg) curr (t_proc T) (t_completion_block T) Ht) as [[m Hm] _]. exists m.
  split; [done|done|done|]. by eapply inv_live.
Qed.

(** The end of a section under [g_umem]. *)
Lemma wp_unlock_calm {A} (a : A) Q v x x' : x_held x = [] -> calm (set_held [LUmem] x) x' -> inv v x' ->
  (forall y, inv v y -> calm x y -> Q a v y) -> wp (_ ← umem_unlock; mret a) Q v x'.
Proof.
  intros Hx Hc Hi H. apply wp_bind. eapply wp_unlock_top; [exact (calm_held _ _ Hc)|constructor|]. apply wp_ret, H; [by apply inv_held|].
  rewrite <- Hx. by eapply calm_relock.
Qed.

Lemma steady_relock l x x' : steady (set_held l x) x' -> steady x (set_held (x_held x) x').
Proof. intros [H1 H2]. split; [naive_solver|done]. Qed.

Lemma wp_unlock_steady {A} (a : A) Q v x x' : x_held x = [] -> steady (set_held [LUmem] x) x' -> inv v x' ->
  (forall y, inv v y -> steady x y -> Q a v y) -> wp (_ ← umem_unlock; mret a) Q v x'.
Proof.
  intros Hx Hc Hi H. apply wp_bind. destruct (st_keep _ _ Hc) as (_ & Eh & _). eapply wp_unlock_top; [exact Eh|constructor|].
  apply wp_ret, H; [by apply inv_held|]. rewrite <- Hx. by eapply steady_relock.
Qed.

(** ** Killing *)

Lemma wp_ancestor fuel me Q v x : forall a, tree_ok v -> reg_ok v -> (forall q, a = Some q -> live v q /\ q <= Z.of_nat fuel) ->
  (forall b : bool, (b = true <-> exists q, a = Some q /\ (q = me \/ descends v q me)) -> Q b v x) -> wp (ancestor_walk fuel me a) Q v x.
Proof.
  induction fuel as [|fuel IH]; intros [q|] Ht Hr Ha H; cbn [ancestor_walk].
  - destruct (Ha q eq_refl) as [Hl Hq]. destruct (reg_pid v Hr q q Hl). lia.
  - apply wp_ret, H. split; [done|]. by intros (? & ? & _).
  - destruct (Ha q eq_refl) as [Hl Hq]. destruct (Z.eqb_spec q me) as [->|Hne]; [apply wp_ret, H; split; [eauto|done]|].
    apply wp_bind. eapply wp_get_proc; [exact Hl|]. intros oa _. cbn [proc_of p_parent]. apply IH; [done|done| |].
    + intros r Er. destruct (tree_up v Ht q r Er) as (? & ? & _). split; [done|lia].
    + intros b Hb. apply H. rewrite Hb. split.
      * intros (r & Er & Hd). exists q. split; [done|right]. destruct Hd as [->|Hd]; [by apply descends_child|by eapply descends_below].
      * intros (q' & [= <-] & [?|Hd]); [done|]. inversion Hd; subst; eauto.
  - apply wp_ret, H. split; [done|]. by intros (? & ? & _).
Qed.

(** [p] was killed and its parent told. *)
Definition slain v (p : Z) v' : Prop := exists w, killed v p w /\ notice w v'.

Lemma wp_slay p {A} (k : M A) Q v x : inv v x -> live v p -> held_below 3 (x_held x) ->
  (forall v' x', inv v' x' -> slain v p v' -> calm x x' -> wp k Q v' x') ->
  wp (_ ← mark_dead_locked p; _ ← notify_parent_locked p; k) Q v x.
Proof.
  intros Hi Hl Hh H. apply wp_bind, wp_mark_dead; [apply Hi|done|]. intros v1 Hg1 Hk.
  pose proof (inv_killed v x p v1 Hi Hk Hg1) as Hi1. apply wp_bind, wp_notify_parent; [done|apply Hi1| |done|].
  { unfold live. by destruct Hk as [[-> _]| ->]. }
  intros v2 x2 Hg2 Hn Hs2 Hc2. apply H; [by eapply inv_notice|by exists v1|done].
Qed.

Lemma wp_kill curr T pid Q v x : inv v x -> x_threads x !! curr = Some T -> live v (t_proc T) -> x_held x = [] ->
  (forall rc, rc <> 0 -> Q rc v x) ->
  (forall v' x', inv v' x' -> descends v pid (t_proc T) -> slain v pid v' -> calm x x' -> Q 0 v' x') ->
  wp (proc_sys_kill curr pid) Q v x.
Proof.
  intros Hi HT Hl Hx Hbad Hok. pose proof (inv_graph _ _ _ Hi) as Hg. unfold proc_sys_kill.
  apply wp_bind. eapply wp_get_thread; [done|]. apply wp_bind, wp_lock_below; [rewrite Hx; constructor|]. rewrite Hx.
  assert (Hno : forall rc, rc <> 0 -> wp (_ ← umem_unlock; mret rc) Q v (set_held [LUmem] x)).
  { intros rc Hrc. apply (wp_unlock_one LUmem _ Q v x); [done|by apply Hbad]. }
  apply wp_bind, wp_lookup; [apply Hg|apply Hg| |intros _; by apply Hno]. intros Hlv Hnd.
  case_match; [by apply Hno|]. apply wp_bind. eapply wp_get_proc; [exact Hlv|]. intros oa _. cbn [proc_of p_parent].
  destruct (reg_pid v (inv_reg v Hg) pid pid Hlv) as [_ Hpos].
  apply wp_bind, wp_ancestor; [apply Hg|apply Hg| |].
  { intros q Hq. destruct (tree_up v (inv_tree v Hg) pid q Hq) as (? & ? & _). split; [done|lia]. }
  intros [] Hb; [|by apply Hno]. destruct (proj1 Hb eq_refl) as (q & Hq & Hd).
  apply wp_slay; [by apply inv_held|done|by repeat constructor|]. intros v' x' Hi' Hs Hc.
  eapply wp_unlock_calm; [done|done|done|]. intros y Hy Hcy. apply Hok; [done| |done|done].
  destruct Hd as [->|Hd]; [by apply descends_child|by eapply descends_below].
Qed.

(** ** Enumerations *)

Section Lists.
Context (curr pid buf cap after : Z) (T : thread) (m : Z -> Z) (v : gview) (x : rest) (Q : Z -> gview -> rest -> Prop).
Context (Hi : inv v x) (Hc : caller v x curr T m) (Hx : x_held x = []) (Hbuf : 0 <= buf < 2 ^ 64) (Hcap : 0 <= cap)
  (HQ : forall rc f, Q rc v (set_mem f x)).

Lemma wp_threads : wp (proc_sys_threads curr pid buf cap after) Q v x.
Proof using All.
  unfold proc_sys_threads. destruct (_ || _); [apply wp_ret; rewrite <-(set_mem_id x); apply HQ|].
  apply wp_bind. eapply wp_get_thread; [apply Hc|]. eapply (wp_enum (t_proc T) pid m (fun target => _)); [done|apply Hc|done|done|].
  intros target Hl _. apply wp_bind. eapply wp_get_proc; [exact Hl|]. intros oa _. by eapply wp_enum_end; [|apply Hc|..].
Qed.

Lemma wp_children : wp (proc_sys_children curr pid buf cap after) Q v x.
Proof using All.
  unfold proc_sys_children. destruct (_ || _); [apply wp_ret; rewrite <-(set_mem_id x); apply HQ|].
  apply wp_bind. eapply wp_get_thread; [apply Hc|]. eapply (wp_enum (t_proc T) pid m (fun target => _)); [done|apply Hc|done|done|].
  intros target Hl _. apply wp_bind. eapply wp_get_proc; [exact Hl|]. intros oa _. by eapply wp_enum_end; [|apply Hc|..].
Qed.

End Lists.

(** ** Destroying a thread *)

(** Thread [t] is blocked and nothing refers to it any more. *)
Record reapable v x (C : list Z) (t : Z) (T : thread) : Prop := {
  rp_sched : sched_inv v x C [];
  rp_only u : u ∈ C -> u = t;
  rp_thread : x_threads x !! t = Some T;
  rp_blocked : t_status T = THREAD_BLOCKED;
  rp_wake : t_wake_state T <> FUTEX_PARKED;
  rp_deadline : t_deadline T = 0 }.

Lemma wp_reap_claim t T Q v x : sched_inv v x [] [] -> x_threads x !! t = Some T -> held_below 4 (x_held x) -> Q false v x ->
  (forall x' C T', reapable v x' C t T' -> calm x x' -> Q true v x') -> wp (reap_claim t) Q v x.
Proof.
  intros Hs HT Hh Hno Hok. unfold reap_claim. apply wp_bind. eapply wp_get_thread; [done|].
  destruct (t_on_cpu T); [by apply wp_ret|]. destruct (decide (t_status T = THREAD_BLOCKED)) as [Hb|Hb];
    [rewrite bool_decide_true by done|rewrite bool_decide_false by done; by apply wp_ret]. cbn [orb negb].
  destruct (t_wake_state T) eqn:Ew; try (by apply wp_ret).
  - apply wp_bind. eapply wp_try_claim; [done|done|]. pose proof (sched_claim v x [] [] t T Hs HT Ew) as Hs1. simpl in Hs1.
    set (T1 := upd_t_wake_state (fun _ => FUTEX_CLAIMED) T) in *. set (x1 := set_threads (insert t T1) x) in *.
    assert (HT1 : x_threads x1 !! t = Some T1) by (by apply lookup_insert_eq).
    assert (Hc1 : calm x x1) by (eapply (calm_insert x x1 t T T1); try done; simpl; congruence).
    apply wp_bind. unfold futex_reap_claimed. apply wp_bind. eapply wp_get_thread; [exact HT1|].
    eapply wp_futex_detach; [exact Hs1|congruence|done|]. intros x2 Hs2 Hc2.
    destruct (claimed_thread v x2 _ _ t Hs2 ltac:(by left)) as [T2 HT2].
    destruct (claimed_blocked v x2 _ _ t T2 Hs2 ltac:(by left) HT2) as (Hw2 & Hb2 & _).
    eapply wp_cancel; [exact Hs2|exact HT2|rewrite (calm_held _ _ Hc2); by eapply held_below_weaken; [|exact Hh]|]. apply wp_ret.
    assert (Hc3 : calm x (cancelled t T2 x2)) by (eapply calm_trans; [exact Hc1|]; eapply calm_trans; [exact Hc2|by apply calm_cancelled]).
    pose proof (sched_cancel v x2 [t] [] t T2 Hs2 HT2) as Hs3. unfold cancelled in *. destruct (Z.eqb_spec (t_deadline T2) 0) as [Hd|Hd].
    + apply (Hok x2 [t] T2); [|done]. split; try done; [|congruence]. by intros u ?%list_elem_of_singleton.
    + eapply (Hok _ [t]); [|done]. split; [exact Hs3| |by apply lookup_insert_eq|done|simpl; congruence|done].
      by intros u ?%list_elem_of_singleton.
  - apply wp_ret, (Hok x [] T); [|apply calm_refl]. split; try done; [|congruence|].
    + by intros u ?%not_elem_of_nil.
    + destruct (sch_tid Hs t T HT) as (_ & Hdl & _). destruct (decide (t_deadline T = 0)); [done|]. destruct (Hdl ltac:(done)); congruence.
Qed.

Lemma departed_keeps v p t cb : v_map (departed v p t cb) = v_map v /\ v_info (departed v p t cb) = v_info v /\ v_kmap (departed v p t cb) = v_kmap v /\
  v_rblock (departed v p t cb) = v_rblock v /\ v_rops (departed v p t cb) = v_rops v /\ v_threads (departed v p t cb) = delete t (v_threads v) /\
  v_dma (departed v p t cb) = v_dma v.
Proof. unfold departed, unpinned_by. by destruct cb. Qed.

Lemma inv_reaped v x x1 C t T p cb : inv v x -> calm x x1 -> reapable v x1 C t T -> v_threads v !! t = Some (p, cb) ->
  inv (departed v p t cb) (set_threads (delete t) x1) /\ steady x (set_threads (delete t) x1).
Proof.
  intros Hi Hc [R1 R2 R3 R4 R5 R6] Ht. destruct (departed_keeps v p t cb) as (K1 & K2 & K3 & K4 & K5 & K6 & K7).
  destruct (calm_keep _ _ Hc) as (C1 & C2 & C3 & C4 & C5 & C6 & C7 & C8 & C9 & C10 & C11 & C12 & C13). split; [split|].
  - apply graph_departed; [apply Hi|done].
  - by eapply (pool_frame v _ x); [..|apply Hi].
  - eapply (sched_gone v _ x1 _ C [] t T); try done; try congruence; [|by apply NoDup_nil_2].
    intros u. split; [by intros ?%not_elem_of_nil|]. intros [Hu Hne]. by apply R2 in Hu.
  - intros u U HU Hu. simpl in HU. apply lookup_delete_Some in HU as [Hne HU]. eapply (inv_alive _ _ _ Hi); [|exact Hu]. by apply (calm_dead _ _ Hc).
  - eapply (scheme_ext v _ x); [done|done|by apply same_dma_eq| |apply Hi]. unfold scheme_part. simpl. congruence.
  - destruct (calm_steady _ _ Hc) as [S1 S2]. split; [done|]. intros u U HU Hu. simpl. rewrite lookup_delete_ne; [by apply S2|].
    intros ->. specialize (S2 u U HU Hu). congruence.
Qed.

(** The completion of a reaped thread is recorded but not published. *)
Lemma wp_reap_complete target t T C ev Q v x : graph_inv v -> reapable v x C t T -> t_proc T = target -> held_below 4 (x_held x) ->
  (forall x' T', x_threads x' !! t = Some T' -> t_tid T' = t -> set_threads (delete t) x' = set_threads (delete t) x ->
     Q tt (completed v target t (t_completion_block T)) x') ->
  wp (match t_completion_block T with
      | None => skip
      | Some b => _ ← channel_thread_complete_locked target b ev false; mod_thread t (upd_t_completion_block (fun _ => None))
      end) Q v x.
Proof.
  intros Hg HR Et Hh H. pose proof HR as [R1 R2 R3 R4 R5 R6]. destruct (sch_tid R1 t T R3) as (Etid & _).
  destruct (t_completion_block T) as [b|] eqn:Eb; [|by apply wp_skip, (H x T)].
  eapply (wp_complete target t T b ev false C); [done|done|done|done|done|done|done|]. intros x' Hs' Hc' HT' Hno. rewrite (Hno eq_refl).
  eapply H; [by apply lookup_insert_eq|done|]. unfold set_threads. simpl. f_equal. apply delete_insert_eq.
Qed.

Lemma wp_thread_destroy curr T m pid tid Q v x : inv v x -> caller v x curr T m -> x_held x = [] ->
  (forall rc, rc <> 0 -> Q rc v x) ->
  (forall target cb x', v_threads v !! tid = Some (target, cb) -> authority v (t_proc T) target ->
     inv (departed v target tid cb) x' -> steady x x' -> Q 0 (departed v target tid cb) x') ->
  wp (proc_sys_thread_destroy curr pid tid) Q v x.
Proof.
  intros Hi Hca Hx Hbad Hok. pose proof (inv_graph _ _ _ Hi) as Hg. unfold proc_sys_thread_destroy.
  apply wp_bind. eapply wp_get_thread; [apply Hca|]. apply wp_bind, wp_lock_below; [rewrite Hx; constructor|]. rewrite Hx.
  assert (Hno : forall rc, rc <> 0 -> wp (_ ← umem_unlock; mret rc) Q v (set_held [LUmem] x)).
  { intros rc Hrc. apply (wp_unlock_one LUmem _ Q v x); [done|by apply Hbad]. }
  apply wp_bind. eapply wp_enum_subject; [by apply inv_held|apply Hca|apply wp_bind, wp_ret; by apply Hno|]. intros target Hl Ha. apply wp_bind.
  set (y := set_held [LUmem] x) in *. assert (Hiy : inv v y) by (by apply inv_held).
  set (K := fun ok : bool => _). assert (HK : forall ok, K ok v y); [|by case_match; [apply wp_ret|apply wp_is_dead; [apply Hg|apply Hg|done|]]].
  intros []; unfold K; cbn [negb]; [|by apply Hno]. clear K. apply wp_bind. eapply wp_get_proc; [exact Hl|]. intros oa _. cbn [proc_of p_threads].
  destruct (v_pthreads v target !! tid) as [victim|] eqn:Ev; [|by apply Hno].
  apply (thr_index v (inv_thr v Hg)) in Ev as (-> & cb & Ht).
  assert (exists V, x_threads y !! tid = Some V) as [V HV].
  { pose proof Ht as Ht'. rewrite (sch_view _ _ _ _ (inv_sched _ _ _ Hiy)), lookup_fmap in Ht'. destruct (x_threads y !! tid); [eauto|done]. }
  apply wp_bind. eapply wp_reap_claim; [apply Hiy|done|by repeat constructor|by apply Hno|]. intros x1 C T1 HR Hc1. cbn [negb].
  assert (Et : tview T1 = (target, cb)).
  { rewrite (sch_view _ _ _ _ (rp_sched _ _ _ _ _ HR)), lookup_fmap, (rp_thread _ _ _ _ _ HR) in Ht. simpl in Ht. congruence. }
  destruct (inv_reaped v y x1 C tid T1 target cb Hiy Hc1 HR Ht) as [Hi' Hs']. injection Et as Ep Ec.
  apply wp_bind. eapply wp_get_thread; [apply HR|]. apply wp_bind.
  eapply wp_reap_complete; [done|exact HR|done|rewrite (calm_held _ _ Hc1); by repeat constructor|]. intros x2 T2 HT2 Et2 Es. rewrite Ec.
  eapply wp_leave; [done|done|done|done|]. rewrite Es. eapply wp_unlock_steady; [done|exact Hs'|done|]. intros z Hz Hsz. by apply Hok.
Qed.

(** ** Acting on a child's memory *)

(** The child [pid] of [me], if it is one and alive. *)
Lemma wp_child me pid {A} (k : option Z -> M A) Q v x : graph_inv v -> wp (k None) Q v x ->
  (live v pid -> ~ eff_dead v pid -> v_par v pid = Some me -> is_Some (v_map v pid) -> pid <> me -> wp (k (Some pid)) Q v x) ->
  wp (ot ← proc_lookup pid;
      child ← match ot with
              | None => mret None
              | Some target => T ← get_proc target; mret (if bool_decide (p_parent T = Some me) then Some target else None)
              end; k child) Q v x.
Proof.
  intros Hg Hno Hok. apply wp_bind, wp_lookup; [apply Hg|apply Hg| |intros _; by apply wp_bind, wp_ret]. intros Hl Hnd.
  apply wp_bind, wp_bind. eapply wp_get_proc; [exact Hl|]. intros oa _. apply wp_ret. cbn [proc_of p_parent].
  case_bool_decide as Hp; [|done]. destruct (tree_up v (inv_tree v Hg) pid me Hp) as [? _]. apply Hok; [done|done|done| |lia].
  destruct (v_map v pid) eqn:Em; [eauto|]. exfalso. by apply Hnd, (reg_gone v (inv_reg v Hg)).
Qed.

Lemma wp_vm_move curr T m base pid Q v x : inv v x -> caller v x curr T m -> x_held x = [] ->
  (forall rc, rc <> 0 -> Q rc v x) ->
  (forall b i v', v_info v b = Some i -> i_base i = base -> v_owner v b = Some (t_proc T) -> v_par v pid = Some (t_proc T) ->
     ~ eff_dead v pid -> v_dma v b = None -> v_bpins v b = 0 -> i_delegatable i = true ->
     inv v' x -> moves v b (t_proc T) pid i v' -> Q 0 v' x) ->
  wp (proc_sys_vm_move curr base pid) Q v x.
Proof.
  intros Hi Hca Hx Hbad Hok. pose proof (inv_graph _ _ _ Hi) as Hg. unfold proc_sys_vm_move.
  apply wp_bind. eapply wp_get_thread; [apply Hca|]. apply wp_bind, wp_lock_below; [rewrite Hx; constructor|]. rewrite Hx.
  assert (Hno : forall rc, rc <> 0 -> wp (_ ← umem_unlock; mret rc) Q v (set_held [LUmem] x)).
  { intros rc Hrc. apply (wp_unlock_one LUmem _ Q v x); [done|by apply Hbad]. }
  apply (wp_child (t_proc T) pid (fun child => _)); [done|by apply Hno|]. intros Hl Hnd Hp [mt Hmt] Hne.
  apply wp_bind, wp_lock_below; [by repeat constructor|]. apply wp_bind. unfold umem_owned_locked.
  apply wp_bind. eapply wp_get_proc; [apply Hca|]. intros oa _. cbn [proc_of p_blocks]. apply wp_ret.
  apply wp_bind. eapply wp_unlock_top; [done|by repeat constructor|].
  replace (set_held _ _) with (set_held [LUmem] x) by (by destruct x).
  destruct (v_pblocks v (t_proc T) !! base) as [b|] eqn:Eb; [|by apply Hno].
  destruct (owned_block v (t_proc T) base b (inv_own v Hg) Eb) as (Ho & i & Hbi & Hbase).
  apply wp_bind. eapply wp_get_block; [done|done|]. cbn [block_of b_ring]. destruct (v_bring v b) as [r|] eqn:Er.
  { rewrite bool_decide_true by eauto. by apply Hno. }
  rewrite bool_decide_false by (by intros []). apply wp_bind.
  eapply wp_move; [by apply inv_held|done|done|done|done|done|done|by intros rc Hrc; apply Hno|].
  intros v' Hi' Hd Hb Hde Hm. apply (wp_unlock_one LUmem _ Q v' x); [done|]. eapply Hok; try done.
  replace x with (set_held [] (set_held [LUmem] x)) by (rewrite <- Hx; by destruct x). by apply inv_held.
Qed.

Lemma wp_protect_for curr T m base len prot pid Q v x : inv v x -> caller v x curr T m -> x_held x = [] -> prot ∈ prots ->
  0 <= base -> 0 <= len -> (forall rc, rc <> 0 -> Q rc v x) ->
  (forall v', v_par v pid = Some (t_proc T) -> ~ eff_dead v pid -> protects v pid base len prot v' -> Q 0 v' x) ->
  wp (proc_sys_vm_protect_for curr base len prot pid) Q v x.
Proof.
  intros Hi Hca Hx Hpr Hb Hle Hbad Hok. pose proof (inv_graph _ _ _ Hi) as Hg. unfold proc_sys_vm_protect_for.
  apply wp_bind. eapply wp_get_thread; [apply Hca|]. apply wp_bind, wp_lock_below; [rewrite Hx; constructor|]. rewrite Hx.
  assert (Hno : forall rc, rc <> 0 -> wp (_ ← umem_unlock; mret rc) Q v (set_held [LUmem] x)).
  { intros rc Hrc. apply (wp_unlock_one LUmem _ Q v x); [done|by apply Hbad]. }
  apply (wp_child (t_proc T) pid (fun child => _)); [done|by apply Hno|]. intros Hl Hnd Hp [mt Hmt] Hne.
  apply wp_bind. eapply wp_protect; [by apply inv_held|done|by repeat constructor|done|done|done|by apply Hno|].
  intros v' Hv'. apply (wp_unlock_one LUmem _ Q v' x); [done|]. by apply Hok.
Qed.

(** ** Spawning a thread *)

Definition is_byte (b : Z) : Prop := 0 <= b < 256.

Lemma le_decode_bound bs : Forall is_byte bs -> 0 <= le_decode bs < 256 ^ Z.of_nat (length bs).
Proof.
  induction 1 as [|b bs Hb _ IH]; [done|]. cbn [le_decode length]. unfold is_byte in Hb. rewrite Nat2Z.inj_succ, Z.pow_succ_r by lia. lia.
Qed.

Lemma mem_read_bytes m a n : Forall is_byte (mem_read m a n).
Proof. apply Forall_fmap, Forall_forall. intros i _. by apply Z.mod_pos_bound. Qed.

Lemma word_bound bs i n : Forall is_byte bs -> (n <= 8)%nat -> 0 <= le_decode (take n (drop i bs)) < 2 ^ 64.
Proof.
  intros Hb Hn. destruct (le_decode_bound (take n (drop i bs))) as [H1 H2]; [by apply Forall_take, Forall_drop|]. split; [done|].
  eapply Z.lt_le_trans; [exact H2|]. change (2 ^ 64) with (256 ^ 8). apply Z.pow_le_mono_r; [lia|]. rewrite length_take. lia.
Qed.

Lemma wp_page_has p a r m Q v x : v_map v p = Some m -> live v p -> (forall b, Q b v x) -> wp (user_page_has p a r) Q v x.
Proof. intros Hm Hl H. apply wp_bind. eapply wp_get_as; [done|by eexists|]. intros. by apply wp_ret. Qed.

Lemma wp_spawn_target me pid start Q v x : graph_inv v -> Q None v x ->
  (live v pid -> ~ eff_dead v pid -> is_Some (v_map v pid) -> pid = me \/ v_par v pid = Some me -> Q (Some pid) v x) ->
  wp (spawn_target me pid start) Q v x.
Proof.
  intros Hg Hno Hok. apply wp_bind, wp_lookup; [apply Hg|apply Hg| |intros _; by apply wp_ret]. intros Hl Hnd.
  assert (is_Some (v_map v pid)) as [m Hm].
  { destruct (v_map v pid) eqn:Em; [eauto|]. exfalso. by apply Hnd, (reg_gone v (inv_reg v Hg)). }
  apply wp_bind. eapply wp_get_proc; [exact Hl|]. intros oa _. cbn [proc_of p_parent].
  destruct (_ || _) eqn:Ew; [|by apply wp_ret]. apply orb_true_iff in Ew as Hw. rewrite Z.eqb_eq, bool_decide_eq_true in Hw.
  apply wp_bind. eapply wp_page_has; [done|done|]. intros [] ; cbn [negb]; [|by apply wp_ret]. case_match; [by apply wp_ret|].
  apply wp_bind. eapply wp_page_has; [done|done|]. intros []; apply wp_ret; [|done]. by apply Hok.
Qed.

Lemma wp_completion me target ev m Q v x : inv v x -> v_map v target = Some m -> in_range v x -> 0 <= ev < 2 ^ 64 ->
  Q None v x -> Q (Some None) v x ->
  (forall b, v_owner v b = Some target -> v_sharers v b = ∅ -> v_bring v b = None -> Q (Some (Some b)) (pinned v (Some b)) x) ->
  wp (completion_check me target ev) Q v x.
Proof.
  intros Hi Hm Hr Hev Hno Hnone Hok. pose proof (inv_graph _ _ _ Hi) as Hg. pose proof (inv_live _ _ _ _ Hi Hm) as Hl.
  unfold completion_check. case_match; [by apply wp_ret|]. apply wp_bind.
  case_match; [|apply wp_ret; by apply wp_ret]. eapply wp_view; [apply Hg|apply Hg|apply Hg|done|lia|lia|].
  intros [b|] Hb; [|by apply wp_ret]. destruct (proj1 (Hb b) eq_refl) as (_ & Hse & i & Hbi & _).
  assert (exists o, v_owner v b = Some o) as [o Ho] by (apply (own_info v (inv_own v Hg)); eauto).
  apply wp_bind. eapply wp_get_block; [done|done|]. cbn [block_of b_owner b_backing b_ring b_sharers].
  destruct (_ && _) eqn:Ew; [|by apply wp_ret]. rewrite !andb_true_iff in Ew. destruct Ew as [[[[_ E1] E2] E3] E4].
  apply Z.eqb_eq in E1. apply bool_decide_eq_true in E3. apply Nat.eqb_eq, map_size_empty_iff in E4. subst o.
  apply wp_bind. eapply wp_user_range; [apply Hg|apply Hg|done|done|done|lia|]. intros [] _; [|by apply wp_ret].
  eapply wp_cpu; [apply Hi|]. intros Hcpu. apply wp_bind, wp_load32; [done|]. case_match; [|by apply wp_ret].
  apply wp_bind, wp_b_thread_pins; [eauto|]. apply wp_ret.
  replace (u32 (v_bpins v b + 1)) with (v_bpins v b + 1); [by apply Hok|].
  symmetry. apply Z.mod_small. rewrite (thr_pins v (inv_thr v Hg) b) by eauto. pose proof (ir_threads _ _ Hr).
  assert (size (pinning v b) <= size (v_threads v))%nat by apply map_size_filter. lia.
Qed.

Lemma decode_event bs : Forall is_byte bs -> 0 <= ts_completion_event (decode_start bs) < 2 ^ 64.
Proof. intros Hb. simpl. by apply word_bound. Qed.

Lemma steady_under l x x' : steady (set_held l x) x' -> x_held x' = l.
Proof. intros [(_ & E & _) _]. exact E. Qed.

Lemma wp_thread_spawn curr T m pid ptr size Q v x : inv v x -> caller v x curr T m -> x_held x = [] -> in_range v x -> 0 <= ptr < 2 ^ 64 ->
  (forall rc, Q rc v x) ->
  (forall target cb x', target = t_proc T \/ v_par v target = Some (t_proc T) -> ~ eff_dead v target ->
     inv (hatched v target (v_ntid v) cb) x' -> steady x x' -> Q (v_ntid v) (hatched v target (v_ntid v) cb) x') ->
  wp (proc_sys_thread_spawn curr pid ptr size) Q v x.
Proof.
  intros Hi Hca Hx Hr Hptr Hbad Hok. pose proof (inv_graph _ _ _ Hi) as Hg. unfold proc_sys_thread_spawn.
  case_match; [by apply wp_ret|]. apply wp_bind. eapply wp_get_thread; [apply Hca|].
  apply wp_bind, wp_lock_below; [rewrite Hx; constructor|]. rewrite Hx.
  apply wp_bind. eapply wp_user_range; [apply Hg|apply Hg|apply Hca|apply Hca|done|unfold SIZEOF_THREAD_START; lia|]. intros rd _. apply wp_bind.
  assert (Hread : forall bs, Forall is_byte bs -> wp (_ ← umem_proc_unlock (t_proc T);
    if negb rd then mret SYSERR_FAULT
    else let start := decode_start bs in
      if negb (start_wellformed start) then mret SYSERR_INVAL
      else _ ← umem_lock; ot ← spawn_target (t_proc T) pid start;
        match ot with
        | None => _ ← umem_unlock; mret SYSERR_INVAL
        | Some target =>
            _ ← umem_proc_lock target; oc ← completion_check (t_proc T) target (ts_completion_event start); _ ← umem_proc_unlock target;
            match oc with
            | None => _ ← umem_unlock; mret SYSERR_INVAL
            | Some block =>
                t ← process_spawn_thread_locked target (ts_entry start) (ts_stack_pointer start) (ts_argument start)
                      (ts_fs_base start) (ts_gs_base start) block (ts_completion_event start);
                _ ← umem_unlock; mret t
            end
        end) Q v (set_held [LProc (t_proc T)] x)).
  2:{ destruct rd; [|apply wp_ret, (Hread []); by constructor]. eapply wp_cpu; [apply (inv_held _ _ [LProc (t_proc T)]) in Hi; apply Hi|].
      intros Hcpu. apply wp_load_bytes; [done|]. apply Hread, mem_read_bytes. }
  intros bs Hbs. apply wp_bind. eapply wp_unlock_top; [done|constructor|].
  replace (set_held _ _) with x by (rewrite <- Hx; by destruct x). destruct rd; [|by apply wp_ret]. cbn [negb].
  case_match; [by apply wp_ret|]. apply wp_bind, wp_lock_below; [rewrite Hx; constructor|]. rewrite Hx.
  assert (Hno : wp (_ ← umem_unlock; mret SYSERR_INVAL) Q v (set_held [LUmem] x)) by (by apply (wp_unlock_one LUmem _ Q v x)).
  apply wp_bind, wp_spawn_target; [done|done|]. intros Hl Hnd [mt Hmt] Hwho. apply wp_bind, wp_lock_below; [by repeat constructor|].
  set (y := set_held [LUmem] x). assert (Hiy : inv v y) by (by apply inv_held). assert (Hry : in_range v y) by (by destruct Hr).
  assert (Hback : forall w, wp (umem_proc_unlock pid) (fun _ u z => u = w /\ z = y) w (set_held (LProc pid :: x_held y) y)).
  { intros w. eapply wp_unlock_top; [done|by repeat constructor|]. split; [done|by destruct x]. }
  assert (Hgo : forall cb, (forall b, cb = Some b -> v_owner v b = Some pid /\ v_sharers v b = ∅ /\ v_bring v b = None) ->
    wp (t ← process_spawn_thread_locked pid (ts_entry (decode_start bs)) (ts_stack_pointer (decode_start bs)) (ts_argument (decode_start bs))
              (ts_fs_base (decode_start bs)) (ts_gs_base (decode_start bs)) cb (ts_completion_event (decode_start bs));
        _ ← umem_unlock; mret t) Q (pinned v cb) y).
  { intros cb Hcb. apply wp_bind, wp_spawn; [done|eauto|done|done|done|done|]. intros x' Hi' Hs' _.
    eapply wp_unlock_steady; [done|exact Hs'|done|]. intros z Hz Hsz. by apply Hok. }
  apply wp_bind. eapply wp_completion; [by apply inv_held|exact Hmt|by destruct Hry|by apply decode_event|..].
  - apply wp_bind. eapply wp_mono; [apply Hback|]. by intros _ u z [-> ->].
  - apply wp_bind. eapply wp_mono; [apply Hback|]. intros _ u z [-> ->]. by apply (Hgo None).
  - intros b H1 H2 H3. apply wp_bind. eapply wp_mono; [apply Hback|]. intros _ u z [-> ->]. apply (Hgo (Some b)). by intros ? [= <-].
Qed.

End Calls.
