(* ===== verification/RingSpec.v ===== *)
(** * Specifications of ring establishment and draining

    A drain runs at most [RING_SQ_BATCH] entries and always comes back: every round
    that does not end the loop uses up a full chunk.  Creation installs a ring on a
    private RAM block of the caller, or undoes everything. *)

From S2P Require Import Prelude Buddy Paging Siphash PlatformMem Machine Sched Index Channel Umem Process Graph Wp Invariant BaseSpec SchedSpec ChannelSpec UmemSpec BlockSpec MoveSpec ThreadSpec ProcessSpec LifeSpec CallSpec.

Section Rings.
Context {PT : PageTree} {SC : Schemes} {SS : SchemesSafe}.
Implicit Types (v w : gview) (x : rest).

(** ** Running a chunk *)

Lemma redma_refl v : redma v v.
Proof. exists (v_dma v). by destruct v. Qed.

Lemma redma_trans v w u : redma v w -> redma w u -> redma v u.
Proof. intros [d ->] [d' ->]. by exists d'. Qed.

Lemma redma_cols v w : redma v w -> v_rblock w = v_rblock v /\ v_rops w = v_rops v /\ v_owner w = v_owner v /\ v_info w = v_info v /\
  v_pid w = v_pid v /\ v_map w = v_map v.
Proof. by intros [d ->]. Qed.

Lemma inv_calm v x x' : inv v x -> sched_inv v x' [] [] -> calm x x' -> inv v x'.
Proof. intros Hi Hs Hc. eapply inv_step; [exact Hi|apply Hi|apply keeps_refl|done|done]. Qed.

(** What is known about the ring while its entries run. *)
Record draining v x (curr : Z) (T : thread) (r b id : Z) (ops : scheme_ops) : Prop := {
  dr_inv : inv v x;
  dr_held : x_held x = [LUmem];
  dr_thread : x_threads x !! curr = Some T;
  dr_running : t_status T = THREAD_RUNNING;
  dr_block : v_rblock v r = Some b;
  dr_ops : v_rops v r = Some id;
  dr_scheme : scheme_lookup id = Some ops;
  dr_owner : v_owner v b = Some (t_proc T) }.

Lemma draining_step v x v' x' curr T r b id ops : draining v x curr T r b id ops -> inv v' x' -> redma v v' -> quiet x x' ->
  draining v' x' curr T r b id ops.
Proof.
  intros [D1 D2 D3 D4 D5 D6 D7 D8] Hi Hr Hq. destruct (redma_cols v v' Hr) as (E1 & E2 & E3 & E4 & E5 & E6). split; try done.
  - by rewrite (quiet_held _ _ Hq).
  - apply (qt_run _ _ Hq); [done|congruence].
  - by rewrite E1.
  - by rewrite E2.
  - by rewrite E3.
Qed.

Lemma decode_sqe_ok bs : Forall is_byte bs -> sqe_ok (decode_sqe bs).
Proof. intros Hb. split; [apply (word_bound bs 0)|apply word_bound..]; done || lia. Qed.

Lemma wp_exec curr T r b id ops sqe Q v x : draining v x curr T r b id ops -> sqe_ok sqe ->
  (forall rc v' x', inv v' x' -> redma v v' -> quiet x x' -> Q rc v' x') -> wp (scheme_exec curr r sqe) Q v x.
Proof.
  intros D Hsq H. pose proof D as [D1 D2 D3 D4 D5 D6 D7 D8]. unfold scheme_exec. apply wp_bind. eapply wp_ring_ops; [done..|].
  destruct (so_exec ops) as [exec|] eqn:Ee; [|apply wp_ret, H; [done|apply redma_refl|apply quiet_refl]].
  eapply (scheme_exec_ok id ops exec curr T r b); try done.
Qed.

Lemma wp_chunk_loop curr T r b id ops h tail Q budget : forall n v x, draining v x curr T r b id ops -> 0 <= n ->
  (forall k v' x', draining v' x' curr T r b id ops -> redma v v' -> quiet x x' -> n <= k <= n + Z.of_nat budget -> Q k v' x') ->
  wp (chunk_loop budget curr r h tail n) Q v x.
Proof.
  induction budget as [|budget IH]; intros n v x D Hn H; cbn [chunk_loop];
    [apply wp_ret, H; [done|apply redma_refl|apply quiet_refl|lia]|].
  pose proof D as [D1 D2 D3 D4 D5 D6 D7 D8]. apply wp_bind. eapply wp_get_ring; [done|done|]. intros sq cq cl nc Hcl. cbn [r_sq_head r_nslots].
  case_match; [apply wp_ret, H; [done|apply redma_refl|apply quiet_refl|lia]|].
  eapply wp_cpu; [apply D1|]. intros Hcpu. apply wp_bind, wp_load_bytes; [done|]. apply wp_bind, wp_r_sq_head; [eauto|].
  apply wp_bind, wp_store_bytes; [done|]. set (y := set_mem _ x).
  assert (Dy : draining v y curr T r b id ops) by (split; try done; by apply inv_mem).
  assert (Qy : quiet x y) by (apply calm_quiet, calm_set_mem).
  apply wp_bind. eapply wp_exec; [exact Dy|apply decode_sqe_ok, mem_read_bytes|]. intros [st sqe] v1 x1 Hi1 Hr1 Hq1.
  assert (D' : draining v1 x1 curr T r b id ops) by (by eapply draining_step). pose proof D' as [D1' D2' _ _ D5' _ _ _].
  apply wp_bind, wp_post; [by apply inv_wake, D1'|apply D1'|by eapply inv_ring_live; [apply D1'|]|rewrite D2'; by repeat constructor|].
  intros ok x2 Hs2 Hc2. pose proof (inv_calm v1 x1 x2 D1' Hs2 Hc2) as Hi2.
  apply IH; [by eapply draining_step; [exact D'|done|apply redma_refl|by apply calm_quiet]|lia|].
  intros k v' x' Dk Hr Hq Hk. apply H; [done|by eapply redma_trans|eapply quiet_trans; [|exact Hq]|lia].
  eapply quiet_trans; [exact Qy|]. eapply quiet_trans; [exact Hq1|by apply calm_quiet].
Qed.

Lemma wp_run_chunk curr T r b id ops budget Q v x : draining v x curr T r b id ops -> 0 <= budget ->
  (forall k v' x', draining v' x' curr T r b id ops -> redma v v' -> quiet x x' -> 0 <= k <= budget -> Q k v' x') ->
  wp (ring_run_chunk curr r budget) Q v x.
Proof.
  intros D Hb H. pose proof D as [D1 D2 D3 D4 D5 D6 D7 D8]. unfold ring_run_chunk.
  apply wp_bind. eapply wp_get_ring; [done|done|]. intros sq cq cl nc Hcl. cbn [r_block r_nslots r_sq_head].
  assert (exists i, v_info v b = Some i) as [i Hi] by (apply (own_info v (inv_own v (inv_graph _ _ _ D1))); eauto).
  apply wp_bind. eapply wp_get_block; [done|done|]. eapply wp_cpu; [apply D1|]. intros Hcpu. apply wp_bind, wp_load32; [done|].
  case_match; [apply wp_ret, H; [done|apply redma_refl|apply quiet_refl|lia]|].
  eapply wp_chunk_loop; [exact D|lia|]. intros k v' x' D' Hr Hq Hk. apply H; [done|done|done|lia].
Qed.

(** ** The drain *)

(** What a drain may do to the graph: DMA retention and delivered notices. *)
Definition stirred v v' : Prop := exists d w, notice v w /\ v' = upd_v_dma (fun _ => d) w.

Lemma stirred_refl v : stirred v v.
Proof. exists (v_dma v), v. split; [apply notice_refl|by destruct v]. Qed.

Lemma stirred_trans v w u : stirred v w -> stirred w u -> stirred v u.
Proof.
  intros (d & w' & N1 & ->) (d' & u' & (pv & nx & nt & hd & tl & dn & ->) & ->). 
  exists d', (upd_v_notified (fun _ => dn) (upd_v_enot (fun _ => nt) (relink w' pv nx hd tl))). split; [|done].
  eapply notice_trans; [exact N1|]. by exists pv, nx, nt, hd, tl, dn.
Qed.

Lemma stirred_redma v v' : redma v v' -> stirred v v'.
Proof. intros [d ->]. exists d, v. split; [apply notice_refl|done]. Qed.

Lemma stirred_notice v v' : notice v v' -> stirred v v'.
Proof. intros N. exists (v_dma v'), v'. split; [done|by destruct v']. Qed.

Lemma stirred_cols v v' : stirred v v' -> v_pid v' = v_pid v /\ v_map v' = v_map v /\ v_info v' = v_info v /\ v_owner v' = v_owner v /\
  v_sharers v' = v_sharers v /\ v_bring v' = v_bring v /\ v_par v' = v_par v /\ v_dead v' = v_dead v /\ v_threads v' = v_threads v /\
  v_npid v' = v_npid v /\ v_ntid v' = v_ntid v /\ v_kmap v' = v_kmap v.
Proof. intros (d & w & (pv & nx & nt & hd & tl & dn & ->) & ->). done. Qed.

Lemma wp_replay r b id ops Q v x : inv v x -> v_rblock v r = Some b -> v_rops v r = Some id -> scheme_lookup id = Some ops -> x_held x = [LUmem] ->
  (forall v' x', inv v' x' -> notice v v' -> quiet x x' -> Q tt v' x') -> wp (ring_replay r) Q v x.
Proof.
  intros Hi Hb Ho Hl Hx H. unfold ring_replay. apply wp_bind. eapply wp_ring_ops; [done..|].
  destruct (so_replay ops) as [f|] eqn:Ef; [|apply wp_skip, H; [done|apply notice_refl|apply quiet_refl]].
  by eapply (scheme_replay_ok id ops f r b).
Qed.

Lemma wp_drain_loop curr T addr Q fuel : forall budget first v x m, inv v x -> caller v x curr T m -> x_held x = [] -> 0 <= addr ->
  0 < budget <= RING_SQ_CHUNK * Z.of_nat fuel ->
  (forall rc v' x', inv v' x' -> stirred v v' -> steady x x' -> Q rc v' x') ->
  wp (drain_loop fuel curr (t_proc T) addr budget first) Q v x.
Proof.
  induction fuel as [|fuel IH]; intros budget first v x m Hi Hca Hx Ha Hb H; cbn [drain_loop]; unfold RING_SQ_CHUNK in *; [lia|].
  pose proof (inv_graph _ _ _ Hi) as Hg. apply wp_bind, wp_lock_below; [rewrite Hx; constructor|]. rewrite Hx.
  apply wp_bind, wp_lock_below; [by repeat constructor|]. apply wp_bind. eapply wp_view; [apply Hg|apply Hg|apply Hg|apply Hca|done|lia|]. intros ob Hob.
  apply wp_bind. eapply wp_unlock_top; [done|by repeat constructor|]. replace (set_held _ _) with (set_held [LUmem] x) by (by destruct x).
  set (y := set_held [LUmem] x). assert (Hiy : inv v y) by (by apply inv_held).
  assert (Hno : forall rc, wp (_ ← umem_unlock; mret rc) Q v y).
  { intros rc. apply (wp_unlock_one LUmem _ Q v x); [done|]. apply H; [done|apply stirred_refl|apply steady_refl]. }
  apply wp_bind. destruct ob as [b|]; [|apply wp_ret; by apply Hno].
  destruct (proj1 (Hob b) eq_refl) as (_ & _ & i & Hbi & _).
  assert (exists o, v_owner v b = Some o) as [o Ho] by (apply (own_info v (inv_own v Hg)); eauto).
  apply wp_bind. eapply wp_get_block; [done|done|]. apply wp_ret. cbn [block_of b_owner b_ring].
  destruct (Z.eqb_spec o (t_proc T)) as [->|]; [|by apply Hno]. destruct (v_bring v b) as [r|] eqn:Er; [|by apply Hno].
  apply (ring_block v (inv_ring v Hg)) in Er as Hrb. destruct (ring_scheme v (inv_ring v Hg) r b Hrb) as (id & ops & Hro & Hsl).
  assert (D : draining v y curr T r b id ops) by (split; try done; apply Hca).
  set (chunk := if budget <? 64 then budget else 64). assert (Hch : 0 < chunk /\ chunk <= 64 /\ chunk <= budget /\ (chunk < 64 -> chunk = budget)).
  { unfold chunk. destruct (Z.ltb_spec budget 64); lia. }
  apply wp_bind. eapply wp_run_chunk; [exact D|lia|]. intros k v1 x1 D1 Hr1 Hq1 Hk.
  pose proof D1 as [DI DH _ _ DB DO DS _]. apply wp_bind. apply (wp_replay r b id ops); [done..|]. intros v2 x2 Hi2 Hn2 Hq2.
  assert (Hst : stirred v v2) by (eapply stirred_trans; [by apply stirred_redma|by apply stirred_notice]).
  assert (Hq : quiet y x2) by (by eapply quiet_trans).
  apply wp_bind. eapply wp_unlock_top; [rewrite (quiet_held _ _ Hq); reflexivity|constructor|].
  assert (Hsx : steady x (set_held [] x2)) by (rewrite <- Hx; by eapply steady_relock, quiet_steady).
  assert (Hi3 : inv v2 (set_held [] x2)) by (by apply inv_held).
  destruct (_ || _) eqn:Ew; [apply wp_ret, H; done|]. apply orb_false_iff in Ew as [E1%Z.ltb_ge E2%Z.eqb_neq].
  destruct (stirred_cols v v2 Hst) as (C1 & C2 & _). destruct Hca as [A1 A2 A3 A4].
  apply (IH _ _ _ _ m); [done| |done|done|lia|].
  - split; [apply (st_run _ _ Hsx); [done|congruence]|done|by rewrite C2|unfold live; by rewrite C1].
  - intros rc v' x' Hi' Hs' Hx'. apply H; [done|by eapply stirred_trans|by eapply steady_trans].
Qed.

Lemma wp_drain curr T m addr Q v x : inv v x -> caller v x curr T m -> x_held x = [] -> 0 <= addr ->
  (forall rc v' x', inv v' x' -> stirred v v' -> steady x x' -> Q rc v' x') -> wp (channel_ring_drain curr addr) Q v x.
Proof.
  intros Hi Hca Hx Ha H. apply wp_bind. eapply wp_get_thread; [apply Hca|]. by eapply wp_drain_loop.
Qed.

(** ** Establishment *)

Lemma graph_nref v : graph_inv v -> graph_inv (upd_v_nref Z.succ v).
Proof.
  intros [R T O E P Rg Th G Mp]. split; [eapply reg_cols, R; done|keep T| | |by apply (pend_links v), eq_refl| |keep Th|keep G|keep Mp].
  - destruct O as [O1 O2 O3 O4 O5 O6]. split; try assumption; vsimpl; [|lia]. intros b Hb. specialize (O5 b Hb). lia.
  - destruct E as [E1 E2 E3 E4 E5 E6]. split; try assumption. intros e b Hb. vsimpl. destruct (E4 e b Hb). split; [done|lia].
  - destruct Rg as [R1 R2 R3 R4]. split; try assumption. intros b r Hr. destruct (R2 b r Hr) as (A1 & A2 & A3 & A4).
    split_and!; [done|done|vsimpl; lia|done].
Qed.

Lemma ring_fresh v : ring_ok v -> v_rblock v (v_nref v) = None.
Proof.
  intros [R1 R2 _ _]. destruct (v_rblock v (v_nref v)) as [b|] eqn:E; [|done]. apply R1 in E. destruct (R2 _ _ E) as (_ & _ & ? & _). lia.
Qed.

(** A ring record exists but no block refers to it yet, or no longer. *)
Lemma graph_floating v r R : graph_inv v -> v_rblock v r = None -> graph_inv (drop_ring r (put_ring r R v)).
Proof.
  intros [Rg T O E P Ri Th G Mp] Hr. unfold drop_ring, put_ring.
  split; [eapply reg_cols, Rg; done|keep T|keep O|keep E|by apply (pend_links v), eq_refl| |keep Th|keep G|keep Mp].
  destruct Ri as [R1 R2 R3 R4].
  assert (Ne : forall b r', v_rblock v r' = Some b -> r' <> r) by (intros b r' Hb ->; congruence).
  assert (Eb : forall r', fset r None (fset r (Some (r_block R)) (v_rblock v)) r' = v_rblock v r') by (intros r'; rewrite fset_fset; unfold fset; case_decide; congruence).
  assert (An : forall r' b, v_rblock v r' = Some b -> ring_anchor (drop_ring r (put_ring r R v)) r' = ring_anchor v r').
  { intros r' b Hb. unfold ring_anchor, drop_ring, put_ring. vsimpl. by rewrite !fset_ne by eauto. }
  split; vsimpl.
  - intros b r'. rewrite Eb. apply R1.
  - intros b r' Hb. destruct (R2 b r' Hb) as (A1 & A2 & A3 & i & A4 & A5 & A6). split_and!; [done|done|done|]. exists i. split_and!; [done|done|].
    apply R1, Ne in Hb. by rewrite !fset_ne.
  - intros r' b Hb. rewrite Eb in Hb. destruct (R3 r' b Hb) as (id & ops & H1 & H2). exists id, ops. split; [|done]. by rewrite !fset_ne by eauto.
  - intros a p r'. transitivity (v_anchor v a p = Some r'); [by destruct a|]. rewrite R4. split; intros (b & H1 & H2 & H3); exists b.
    + rewrite Eb. split_and!; [done|done|]. exact (eq_trans (An r' b H1) H3).
    + rewrite Eb in H1. split_and!; [done|done|]. exact (eq_trans (eq_sym (An r' b H1)) H3).
Qed.

(** Ring [r] of scheme [id] is on block [b] of [p]. *)
Definition ringed v (b p r id n : Z) (oa : option anchor) : gview :=
  set_anchor oa p (Some r) (upd_v_bring (fset b (Some r)) (put_ring r (Ring id b n 0 0 None 0) v)).

Lemma ringed_keeps v b p r id n oa : let w := ringed v b p r id n oa in v_threads w = v_threads v /\ v_map w = v_map v /\ v_kmap w = v_kmap v /\
  v_info w = v_info v /\ v_rblock w = fset r (Some b) (v_rblock v) /\ v_rops w = fset r (Some id) (v_rops v) /\ v_dma w = v_dma v.
Proof. unfold ringed. by destruct oa as [[]|]. Qed.

Section Ringed.
Context (v : gview) (b p r id n : Z) (ops : scheme_ops) (i : binfo).
Context (Hg : graph_inv v) (Hr : v_rblock v r = None) (Hlt : r < v_nref v) (Hb : v_bring v b = None) (Ho : v_owner v b = Some p)
  (Hs : v_sharers v b = ∅) (Hp : v_bpins v b = 0) (Hi : v_info v b = Some i) (Hram : i_backing i = UBLOCK_RAM)
  (Hn : n = KRING_NSLOTS (i_order i)) (Hl : scheme_lookup id = Some ops) (Ha : forall a, so_anchor ops = Some a -> v_anchor v a p = None).

Abbreviation w := (ringed v b p r id n (so_anchor ops)).

Lemma ringed_cols : v_bring w = fset b (Some r) (v_bring v) /\ v_rblock w = fset r (Some b) (v_rblock v) /\ v_rops w = fset r (Some id) (v_rops v) /\
  v_rslots w = fset r n (v_rslots v) /\ v_owner w = v_owner v /\ v_info w = v_info v /\ v_sharers w = v_sharers v /\ v_bpins w = v_bpins v /\ v_nref w = v_nref v.
Proof using. clear Ha. unfold ringed. destruct (so_anchor ops) as [[]|]; done. Qed.

Lemma ringed_anchor r' : ring_anchor w r' = if decide (r' = r) then so_anchor ops else ring_anchor v r'.
Proof using Hl.
  destruct ringed_cols as (_ & _ & E3 & _). unfold ring_anchor. rewrite E3. unfold fset. case_decide; [|done]. simpl. by rewrite Hl.
Qed.

Lemma ringed_ring : ring_ok w.
Proof using All.
  destruct ringed_cols as (E1 & E2 & E3 & E4 & E5 & E6 & E7 & E8 & E9). destruct (inv_ring v Hg) as [R1 R2 R3 R4].
  assert (Ne : forall b' r', v_bring v b' = Some r' -> r' <> r /\ b' <> b) by (intros b' r' Hx; split; [intros ->; apply R1 in Hx|intros ->]; congruence).
  split.
  - intros b' r'. rewrite E1, E2. unfold fset. destruct (decide (b' = b)) as [->|Hb'], (decide (r' = r)) as [->|Hr']; [done| | |apply R1].
    + split; [congruence|]. intros Hx%R1. congruence.
    + split; [|congruence]. intros Hx%R1. congruence.
  - intros b' r'. rewrite E1, E4, E6, E7, E8, E9. unfold fset at 1. case_decide as Hb'.
    + subst b'. intros [= <-]. split_and!; [done|done|done|]. exists i. rewrite fset_eq. done.
    + intros Hx. destruct (Ne _ _ Hx) as [Hr' _]. rewrite fset_ne by done. by apply R2.
  - intros r' b'. rewrite E2, E3. unfold fset. case_decide as Hr'; [intros _; by exists id, ops|apply R3].
  - intros a q r'. rewrite ringed_anchor. unfold ringed. rewrite set_anchor_get. change (v_anchor (upd_v_bring _ _) a q) with (v_anchor v a q).
    destruct (set_anchor_keeps (so_anchor ops) p (Some r) (upd_v_bring (fset b (Some r)) (put_ring r (Ring id b n 0 0 None 0) v))) as (_ & F2 & _ & _ & F5 & _).
    rewrite F2, F5. unfold put_ring. vsimpl. unfold fset. destruct (decide (r' = r)) as [->|Hr'].
    + split.
      * case_decide as Hc; [destruct Hc as [Hc ->]; intros _; by exists b|]. intros Hx%R4. destruct Hx as (? & ? & _). congruence.
      * intros (b' & [= <-] & H2 & H3). rewrite decide_True; [done|]. split; [done|congruence].
    + case_decide as Hc; [|apply R4]. destruct Hc as [Hc ->]. split; [congruence|]. intros Hx%R4. specialize (Ha a Hc). congruence.
Qed.

Lemma ringed_thr : thr_ok (upd_v_bring (fset b (Some r)) v).
Proof using Hg Hp Hi.
  destruct (inv_thr v Hg) as [T1 T2 T3 T4 T5 T6]. split; try assumption. intros t q c Ht. destruct (T4 t q c Ht) as (? & ? & ?).
  split_and!; [done|done|]. vsimpl. rewrite fset_ne; [done|]. intros ->.
  assert (pinning v b !! t = Some (q, Some b)) as Hx by (by apply map_lookup_filter_Some). rewrite (T5 b) in Hp by eauto.
  assert (size (pinning v b) = 0%nat) as Hz by lia. apply map_size_empty_iff in Hz. by rewrite Hz in Hx.
Qed.

Lemma graph_ringed : graph_inv w.
Proof using All.
  pose proof ringed_ring as Hring. pose proof ringed_thr as Hthr. destruct Hg as [R T O E P Rg Th G Mp]. clear Ha. unfold ringed, put_ring in *.
  destruct (so_anchor ops) as [[]|]; cbn [set_anchor] in *;
    (split; [eapply reg_cols, R; done|keep T|keep O|keep E|by apply (pend_links v), eq_refl|exact Hring|keep Hthr|keep G|keep Mp]).
Qed.

End Ringed.

Lemma find_scheme s ops : scheme_lookup s = Some ops -> so_id ops = s /\ scheme_lookup (so_id ops) = Some ops.
Proof. intros H. destruct (find_some _ _ H) as [_ E%Z.eqb_eq]. by rewrite E. Qed.

(** The state right after the ring record was made, before its scheme has seen it. *)
Record minted v x (p b r id n : Z) v' x' : Prop := {
  mt_graph : v' = put_ring r (Ring id b n 0 0 None 0) (upd_v_nref Z.succ v);
  mt_rest : x' = set_claims (insert r (None, 0)) x;
  mt_live : ring_live v' r;
  mt_wake : wake_ok v';
  mt_sched : sched_inv v' x' [] [];
  mt_scheme : scheme_inv v' x' }.

Lemma mint v x p b i id n : inv v x -> v_owner v b = Some p -> v_info v b = Some i -> is_Some (scheme_lookup id) ->
  minted v x p b (v_nref v) id n (put_ring (v_nref v) (Ring id b n 0 0 None 0) (upd_v_nref Z.succ v)) (set_claims (insert (v_nref v) (None, 0)) x).
Proof.
  intros Hi Ho Hb Hl. pose proof (inv_graph _ _ _ Hi) as Hg. split; [done|done|..].
  - exists b, id, i, p. unfold put_ring. vsimpl. by rewrite !fset_eq.
  - destruct Hg as [R T O E P Rg Th G Mp]. unfold put_ring. split; [eapply reg_cols, R; done|keep T|keep Th].
  - apply (sched_ext v _ x); [done|done|done|apply Hi].
  - apply scheme_new; [|exact (ring_fresh v (inv_ring v Hg))|done]. by eapply scheme_ext; [| | | |apply Hi].
Qed.

(** The ring did not come into being. *)
Lemma inv_unminted v x p b r id n v' x' : inv v x -> r = v_nref v -> minted v x p b r id n v' x' ->
  forall x1, sched_inv v' x1 [] [] -> quiet x' x1 -> scheme_inv (drop_ring r v') (set_claims (delete r) x1) ->
  inv (drop_ring r v') (set_claims (delete r) x1).
Proof.
  intros Hi -> [-> -> M3 M4 M5 M6] x1 Hs Hq Hsc. pose proof (inv_graph _ _ _ Hi) as Hg.
  destruct (qt_keep _ _ Hq) as (K1 & K2 & K3 & K4 & K5 & K6). split; [|..|done].
  - apply graph_floating; [by apply graph_nref|exact (ring_fresh v (inv_ring v Hg))].
  - eapply (pool_frame v _ x); [done|done|done|done|apply Hi].
  - eapply (sched_ext _ _ x1); [| | |exact Hs]; done.
  - intros t T HT Hd. eapply (inv_alive _ _ _ Hi t T); [|done]. by apply (qt_dead _ _ Hq).
Qed.

(** The ring is in place. *)
Lemma inv_ringed v x p b r i ops v' x' : inv v x -> r = v_nref v -> minted v x p b r (so_id ops) (KRING_NSLOTS (i_order i)) v' x' ->
  scheme_lookup (so_id ops) = Some ops -> v_bring v b = None -> v_owner v b = Some p -> v_sharers v b = ∅ -> v_bpins v b = 0 -> v_info v b = Some i ->
  i_backing i = UBLOCK_RAM -> (forall a, so_anchor ops = Some a -> v_anchor v a p = None) ->
  forall x1, sched_inv v' x1 [] [] -> quiet x' x1 -> scheme_inv v' x1 ->
  inv (ringed (upd_v_nref Z.succ v) b p r (so_id ops) (KRING_NSLOTS (i_order i)) (so_anchor ops)) x1.
Proof.
  intros Hi -> [-> -> M3 M4 M5 M6] Hl Hb Ho Hs Hp Hbi Hram Ha x1 Hsx Hq Hsc. pose proof (inv_graph _ _ _ Hi) as Hg.
  destruct (qt_keep _ _ Hq) as (K1 & K2 & K3 & K4 & K5 & K6).
  destruct (ringed_keeps (upd_v_nref Z.succ v) b p (v_nref v) (so_id ops) (KRING_NSLOTS (i_order i)) (so_anchor ops)) as (F1 & F2 & F3 & F4 & F5 & F6 & F7).
  split.
  - apply (graph_ringed _ b p _ _ _ ops i); try done; [by apply graph_nref|exact (ring_fresh v (inv_ring v Hg))|vsimpl; lia].
  - eapply (pool_frame v _ x); [exact F4|exact F3|done|done|apply Hi].
  - eapply (sched_ext _ _ x1); [| | |exact Hsx]; [done|exact F1|]. intros q. by rewrite F2.
  - intros t T HT Hd. eapply (inv_alive _ _ _ Hi t T); [|done]. by apply (qt_dead _ _ Hq).
  - eapply scheme_ext; [| | | |exact Hsc]; [exact F5|exact F6|by apply same_dma_eq|done].
Qed.

(** What [channel_scheme_create] asks for. *)
Record ring_allowed v (p base b : Z) (i : binfo) (ops : scheme_ops) : Prop := {
  ra_owner : v_owner v b = Some p;
  ra_info : v_info v b = Some i;
  ra_base : i_base i = base;
  ra_ram : i_backing i = UBLOCK_RAM;
  ra_plain : v_bring v b = None /\ v_bpins v b = 0 /\ v_sharers v b = ∅;
  ra_scheme : scheme_lookup (so_id ops) = Some ops;
  ra_anchor a : so_anchor ops = Some a -> v_anchor v a p = None }.

(** The scheme's own part of the creation. *)
Lemma wp_init r id ops Q v x : scheme_lookup id = Some ops -> v_rops v r = Some id -> ring_live v r -> wake_ok v -> sched_inv v x [] [] ->
  scheme_inv v x -> held_below 2 (x_held x) ->
  (forall rc x', sched_inv v x' [] [] -> quiet x x' -> scheme_inv v x' ->
     (rc <> 0 -> scheme_inv (drop_ring r v) (set_claims (delete r) x')) -> Q rc v x') ->
  wp (match so_init ops with None => mret 0 | Some init => init r end) Q v x.
Proof.
  intros Hl Ho Hlive Hw Hs Hsc Hh H. destruct (so_init ops) as [init|] eqn:Ei; [by eapply (scheme_init_ok id ops init r)|].
  apply wp_ret, H; [done|apply quiet_refl|done|done].
Qed.

Lemma anchor_get_of v p q a oa : anchor_get a (proc_of v p q oa) = v_anchor v a p.
Proof. by destruct a. Qed.

Lemma wp_anchor_opt oa p r Q v x : is_Some (v_pid v p) -> Q tt (set_anchor oa p r v) x ->
  wp (match oa with None => skip | Some a => mod_proc p (anchor_set a r) end) Q v x.
Proof. intros Hp H. destruct oa as [a|]; [by apply wp_anchor_set|by apply wp_skip]. Qed.

Lemma wp_replay_opt r b id ops Q v x : inv v x -> v_rblock v r = Some b -> v_rops v r = Some id -> scheme_lookup id = Some ops -> x_held x = [LUmem] ->
  (forall v' x', inv v' x' -> notice v v' -> quiet x x' -> Q tt v' x') ->
  wp (match so_replay ops with None => skip | Some replay => replay r end) Q v x.
Proof.
  intros Hi Hb Ho Hl Hx H. destruct (so_replay ops) as [f|] eqn:Ef; [|apply wp_skip, H; [done|apply notice_refl|apply quiet_refl]].
  by eapply (scheme_replay_ok id ops f r b).
Qed.

(** From the ring record to the return, both locks held. *)
Lemma wp_establish p b i ops Q v x : inv v x -> live v p -> ring_allowed v p (i_base i) b i ops -> x_held x = [] ->
  (forall rc v' x', rc <> 0 -> inv v' x' -> steady x x' -> Q rc v' x') ->
  (forall v' x', inv v' x' -> steady x x' ->
     notice (ringed (upd_v_nref Z.succ v) b p (v_nref v) (so_id ops) (KRING_NSLOTS (i_order i)) (so_anchor ops)) v' -> Q 0 v' x') ->
  wp (_ ← must_alloc; r ← new_ref; B ← get_block b;
      let nslots := KRING_NSLOTS (b_order B) in
      _ ← modify (upd_k_rings (insert r (Ring (so_id ops) b nslots 0 0 None 0)));
      init_status ← match so_init ops with None => mret 0 | Some init => init r end;
      if negb (init_status =? 0) then
        _ ← modify (upd_k_rings (delete r));
        _ ← umem_proc_unlock p; _ ← umem_unlock; mret init_status
      else
        let h := b_base B in
        _ ← memset0 h KRING_HDR_SIZE;
        _ ← store32 (h + KRING_NSLOTS_OFF) nslots;
        _ ← mod_block b (upd_b_ring (fun _ => Some r));
        _ ← umem_proc_unlock p;
        _ ← match so_anchor ops with None => skip | Some a => mod_proc p (anchor_set a (Some r)) end;
        _ ← match so_replay ops with None => skip | Some replay => replay r end;
        _ ← umem_unlock; mret 0) Q v (set_held [LProc p; LUmem] x).
Proof.
  intros Hi Hl [A1 A2 A3 A4 [A5 [A6 A7]] A8 A9] Hx Hbad Hok. set (y := set_held [LProc p; LUmem] x). assert (Hiy : inv v y) by (by apply inv_held).
  ws. apply wp_bind, wp_new_ref. apply wp_bind. eapply wp_get_block; [exact A2|exact A1|]. cbn [block_of b_order b_base]. cbv zeta.
  apply wp_bind, wp_new_ring. cbn [rclaims r_irq_claims r_nclaims].
  pose proof (mint v y p b i (so_id ops) (KRING_NSLOTS (i_order i)) Hiy A1 A2 ltac:(eauto)) as Hm. set (r := v_nref v) in *.
  set (v2 := put_ring _ _ _) in *. set (x2 := set_claims _ y) in *. pose proof Hm as [_ _ M3 M4 M5 M6].
  apply wp_bind. eapply (wp_init r (so_id ops) ops); [done|unfold v2, put_ring; vsimpl; by rewrite fset_eq|done|done|done|done|by repeat constructor|].
  intros rc x3 Hs3 Hq3 Hsc3 Hdrop. assert (Hh3 : x_held x3 = [LProc p; LUmem]) by (by rewrite (quiet_held _ _ Hq3)).
  assert (Hst3 : steady x (set_held [] x3)).
  { destruct (quiet_steady _ _ Hq3) as [S1 S2]. split; [rewrite <- Hx; naive_solver|]. exact S2. }
  destruct (Z.eqb_spec rc 0) as [->|Hrc]; cbn [negb].
  - eapply wp_cpu; [exact Hs3|]. intros Hcpu. apply wp_bind, wp_memset0; [done|]. apply wp_bind, wp_store_bytes; [done|].
    apply wp_bind, wp_b_ring; [unfold v2, put_ring; vsimpl; eauto|]. apply wp_bind. eapply wp_unlock_top; [done|by repeat constructor|].
    apply wp_bind, wp_anchor_opt; [unfold v2, put_ring; vsimpl; by eexists|]. set (x4 := set_mem _ (set_mem _ x3)).
    assert (Hq4 : quiet x2 x4) by (eapply quiet_trans; [exact Hq3|]; by split).
    pose proof (inv_ringed v y p b r i ops v2 x2 Hiy eq_refl Hm A8 A5 A1 A7 A6 A2 A4 A9 x4) as Hi4.
    destruct (ringed_keeps (upd_v_nref Z.succ v) b p r (so_id ops) (KRING_NSLOTS (i_order i)) (so_anchor ops)) as (_ & _ & _ & F4 & F5 & F6 & F7).
    change (set_anchor (so_anchor ops) p (Some r) _) with
      (ringed (upd_v_nref Z.succ v) b p r (so_id ops) (KRING_NSLOTS (i_order i)) (so_anchor ops)).
    apply wp_bind. eapply (wp_replay_opt r b (so_id ops)).
    + apply inv_held, Hi4; [by apply (sched_ext v2 _ x3)|done|by eapply scheme_ext; [..|exact Hsc3]; [| |apply same_dma_eq|]].
    + rewrite F5. by apply fset_eq.
    + rewrite F6. by apply fset_eq.
    + done.
    + done.
    + intros v5 x5 Hi5 Hn5 Hq5. eapply wp_unlock_steady; [exact Hx| |done|by intros z Hz Hsz; apply Hok].
      eapply steady_trans; [|by apply quiet_steady]. destruct Hst3 as [S1 S2]. split; [simpl in *; naive_solver|exact S2].
  - apply wp_bind, wp_free_ring. apply wp_bind. eapply wp_unlock_top; [done|by repeat constructor|].
    apply wp_bind. eapply wp_unlock_top; [done|constructor|]. apply wp_ret, Hbad; [done| |].
    + apply inv_held, inv_held. by apply (inv_unminted v y p b r (so_id ops) (KRING_NSLOTS (i_order i)) v2 x2 Hiy eq_refl Hm x3 Hs3 Hq3), Hdrop.
    + destruct Hst3 as [S1 S2]. split; [exact S1|exact S2].
Qed.

Lemma wp_scheme_create p m base scheme Q v x : inv v x -> v_map v p = Some m -> x_held x = [] ->
  (forall rc v' x', rc <> 0 -> inv v' x' -> steady x x' -> Q rc v' x') ->
  (forall b i ops v' x', ring_allowed v p base b i ops -> so_id ops = scheme -> inv v' x' -> steady x x' ->
     notice (ringed (upd_v_nref Z.succ v) b p (v_nref v) (so_id ops) (KRING_NSLOTS (i_order i)) (so_anchor ops)) v' -> Q 0 v' x') ->
  wp (channel_scheme_create p base scheme) Q v x.
Proof.
  intros Hi Hm Hx Hbad Hok. pose proof (inv_graph _ _ _ Hi) as Hg. pose proof (inv_live _ _ _ _ Hi Hm) as Hl. unfold channel_scheme_create.
  apply wp_bind, wp_lock_below; [rewrite Hx; constructor|]. rewrite Hx. apply wp_bind, wp_lock_below; [by repeat constructor|].
  set (y := set_held _ _). replace y with (set_held [LProc p; LUmem] x) by done. clear y.
  assert (Hno : forall rc, rc <> 0 -> wp (_ ← umem_proc_unlock p; _ ← umem_unlock; mret rc) Q v (set_held [LProc p; LUmem] x)).
  { intros rc Hrc. apply (wp_unlock_two LUmem (LProc p) _ Q v x); [done|done|]. apply Hbad; [done|done|apply steady_refl]. }
  apply wp_bind. unfold umem_owned_locked. apply wp_bind. eapply wp_get_proc; [exact Hl|]. intros oa _. cbn [proc_of p_blocks]. apply wp_ret.
  apply wp_bind. destruct (v_pblocks v p !! base) as [b|] eqn:Eb; [|apply wp_ret; by apply Hno].
  destruct (owned_block v p base b (inv_own v Hg) Eb) as (Ho & i & Hbi & Hbase).
  apply wp_bind. eapply wp_get_block; [done|done|]. apply wp_ret. cbn [block_of b_backing b_ring b_thread_pins b_sharers].
  destruct (_ && _) eqn:Ew; [|by apply Hno]. rewrite !andb_true_iff, !bool_decide_eq_true in Ew. destruct Ew as [[[E1 E2] E3%Z.eqb_eq] E4].
  apply Nat.eqb_eq, map_size_empty_iff in E4. destruct (scheme_lookup scheme) as [ops|] eqn:Es; [|by apply Hno].
  destruct (find_scheme scheme ops Es) as [Eid Es']. apply wp_bind. eapply wp_get_proc; [exact Hl|]. intros oa' _.
  destruct (match so_anchor ops with Some a => _ | None => _ end) eqn:Ea; [by apply Hno|].
  assert (Hall : ring_allowed v p base b i ops).
  { split; try done. intros a Hsa. rewrite Hsa, anchor_get_of in Ea. apply bool_decide_eq_false in Ea. destruct (v_anchor v a p); [|done]. exfalso. eauto. }
  subst base. apply (wp_establish p b i ops); [done|done|done|done|done|]. intros v' x' Hi' Hs' Hn. by eapply Hok.
Qed.

End Rings.
