(* ===== verification/RunSpec.v ===== *)
(** * Specifications of parking and of the scheduler loop

    A thread leaves its processor by parking: the kernel switches to the scheduler,
    which finishes with the thread and picks the next one.  [wpk] is [wp] with a
    condition on the state at the park. *)

From S2P Require Import Prelude Buddy Paging Siphash PlatformMem Machine Sched Index Channel Umem Process Capability Irq Syscall Graph Wp Invariant BaseSpec SchedSpec ChannelSpec UmemSpec BlockSpec MoveSpec ThreadSpec ProcessSpec LifeSpec CallSpec.

Section Park.
Context {PT : PageTree}.

Definition parks_ok {A} (o : outcome A) (Q : A -> kstate -> Prop) (R : kstate -> Prop) : Prop :=
  match o with Ret a s => Q a s | Park s => R s | Halt h _ => tolerated h end.

Definition wpk {A} (m : M A) (Q : A -> gview -> rest -> Prop) (R : gview -> rest -> Prop) (v : gview) (x : rest) : Prop :=
  forall s, view s = v -> rest_of s = x -> parks_ok (m s) (fun a s => Q a (view s) (rest_of s)) (fun s => R (view s) (rest_of s)).

Lemma wpk_wp {A} (m : M A) Q R v x : wp m Q v x -> wpk m Q R v x.
Proof. intros H s Hv Hx. specialize (H s Hv Hx). by destruct (m s). Qed.

Lemma wpk_bind {A B} (m : M A) (k : A -> M B) Q R v x : wpk m (fun a v x => wpk (k a) Q R v x) R v x -> wpk (mbind k m) Q R v x.
Proof.
  intros H s Hv Hx. unfold mbind, M_bind. specialize (H s Hv Hx). destruct (m s) as [a s'|s'|h s']; simpl in *; [by apply H|done|done].
Qed.

Lemma wpk_seq {A B} (m : M A) (k : A -> M B) Q R v x : wp m (fun a v x => wpk (k a) Q R v x) v x -> wpk (mbind k m) Q R v x.
Proof. intros H. by apply wpk_bind, wpk_wp. Qed.

Lemma wpk_ret {A} (a : A) Q R v x : Q a v x -> wpk (mret a) Q R v x.
Proof. intros H. by apply wpk_wp, wp_ret. Qed.

Lemma wpk_park {A} Q R v x : R v x -> wpk (park (A := A)) Q R v x.
Proof. intros H s <- <-. exact H. Qed.

Lemma wpk_mono {A} (m : M A) Q Q' R R' v x : wpk m Q R v x -> (forall a v x, Q a v x -> Q' a v x) -> (forall v x, R v x -> R' v x) -> wpk m Q' R' v x.
Proof. intros H HQ HR s Hv Hx. specialize (H s Hv Hx). destruct (m s); simpl in *; auto. Qed.

End Park.

Section Run.
Context {PT : PageTree} {SC : Schemes} {SS : SchemesSafe}.
Implicit Types (v w : gview) (x : rest).

(** Thread [t], which is [T], runs on the processor at hand. *)
Record on_cpu v x (t : Z) (T : thread) : Prop := {
  oc_current : x_current x !! x_this x = Some (Some t);
  oc_thread : x_threads x !! t = Some T;
  oc_running : t_status T = THREAD_RUNNING }.

Lemma on_cpu_thread v x t C D : sched_inv v x C D -> x_current x !! x_this x = Some (Some t) -> exists T, on_cpu v x t T.
Proof.
  intros Hs Hc. destruct (proj1 (th_run _ _ _ _ _ (sch_thread _ _ _ _ Hs t))) as (T & HT & Hr); [by exists (x_this x)|]. by exists T.
Qed.

(** The state at a park: the thread's record says [T'], and it may be queued. *)
Definition parked_at x (t : Z) (T' : thread) (requeue : bool) : rest :=
  let y := set_threads (insert t T') x in
  if requeue then set_queues (alter (fun q => q ++ [t]) (x_this x)) y else y.

Lemma wpk_uthread_park {A} status requeue t T Q R v x : (x_this x < length (x_queues x))%nat -> x_current x !! x_this x = Some (Some t) ->
  x_threads x !! t = Some T -> held_below 5 (x_held x) ->
  R v (parked_at x t (upd_t_status (fun _ => status) T) requeue) -> wpk (uthread_park (A := A) status requeue) Q R v x.
Proof.
  intros Hs Hc HT Hh H. assert (Hlt : (Z.to_nat (Z.of_nat (x_this x)) < length (x_queues x))%nat) by (by rewrite Nat2Z.id).
  unfold uthread_park. apply wpk_seq, wp_this_cpu, wpk_seq, wp_lock_below; [done|]. apply wpk_seq, wp_get_cpu; [done|]. intros c Hcpu.
  pose proof (cpu_current _ _ _ Hcpu) as Ec. simpl in Ec. rewrite Nat2Z.id, Hc in Ec. injection Ec as <-.
  apply wpk_seq, wp_asserts; [by apply bool_decide_eq_true; eauto|]. apply wpk_seq. eapply wp_deref; [done|].
  apply wpk_seq. eapply wp_mod_thread; [exact HT|done|]. apply wpk_seq.
  destruct (lookup_lt_is_Some_2 (x_queues x) (x_this x)) as [q Hq]; [done|].
  assert (Hend : forall y, y = parked_at x t (upd_t_status (fun _ => status) T) requeue ->
    wpk (_ ← unlock (LSched (Z.of_nat (x_this x))); park) Q R v (set_held (LSched (Z.of_nat (x_this x)) :: x_held x) y)).
  { intros y ->. apply wpk_seq. eapply wp_unlock_top; [done| |].
    - by eapply held_below_weaken; [|exact Hh].
    - apply wpk_park. replace (set_held _ (set_held _ _)) with (parked_at x t (upd_t_status (fun _ => status) T) requeue); [done|].
      unfold parked_at. destruct requeue; by destruct x. }
  apply wp_when; intros ->.
  - eapply (wp_c_queue _ (fun q => q ++ [t])); [simpl; rewrite Nat2Z.id; exact Hq|].
    replace (set_queues _ _) with (set_held (LSched (Z.of_nat (x_this x)) :: x_held x) (parked_at x t (upd_t_status (fun _ => status) T) true)); [by apply Hend|].
    unfold parked_at, set_queues, set_held. simpl. rewrite Nat2Z.id. f_equal. by apply (alter_insert (fun q => q ++ [t])).
  - replace (set_threads _ _) with (set_held (LSched (Z.of_nat (x_this x)) :: x_held x) (parked_at x t (upd_t_status (fun _ => status) T) false)); [by apply Hend|].
    by destruct x.
Qed.

(** The thread is off the processor. *)
Definition off_cpu x (t : Z) (T' : thread) (requeue : bool) : rest :=
  set_current (insert (x_this x) None) (parked_at x t (upd_t_on_cpu (fun _ => false) T') requeue).

Lemma wp_back t T' requeue Q v x : (x_this x < length (x_queues x))%nat -> x_current x !! x_this x = Some (Some t) ->
  (t_status T' <> THREAD_DEAD -> Q tt v (off_cpu x t T' requeue)) ->
  (t_status T' = THREAD_DEAD -> wp (process_thread_exited t) Q v (off_cpu x t T' requeue)) ->
  wp scheduler_back Q v (parked_at x t T' requeue).
Proof.
  intros Hs Hc H1 H2. set (y := parked_at x t T' requeue).
  assert (Ethis : x_this y = x_this x) by (unfold y, parked_at; by destruct requeue).
  assert (Ecur : x_current y = x_current x) by (unfold y, parked_at; by destruct requeue).
  assert (Ethr : x_threads y = <[t := T']> (x_threads x)) by (unfold y, parked_at; by destruct requeue).
  assert (Elen : length (x_queues y) = length (x_queues x)) by (unfold y, parked_at; destruct requeue; simpl; by rewrite ?length_alter).
  assert (Hlt : (Z.to_nat (Z.of_nat (x_this y)) < length (x_queues y))%nat) by (by rewrite Nat2Z.id, Elen, Ethis).
  unfold scheduler_back. apply wp_bind, wp_this_cpu, wp_bind, wp_get_cpu; [done|]. intros c Hcpu.
  pose proof (cpu_current _ _ _ Hcpu) as Ec. rewrite Nat2Z.id, Ethis, Ecur, Hc in Ec. injection Ec as Ec.
  apply wp_bind. eapply wp_deref; [by rewrite <- Ec|]. apply wp_bind. eapply (wp_c_current_thread _ (fun _ => None)).
  { rewrite Nat2Z.id, Ethis, Ecur. exact Hc. }
  apply wp_bind. eapply wp_mod_thread; [simpl; rewrite Ethr; by apply lookup_insert_eq|done|].
  replace (set_threads _ _) with (off_cpu x t T' requeue).
  2:{ unfold off_cpu, y, parked_at. destruct requeue; unfold set_current, set_threads, set_queues; simpl; rewrite Nat2Z.id, insert_insert_eq; done. }
  apply wp_bind. eapply wp_get_thread; [unfold off_cpu, parked_at; destruct requeue; simpl; by apply lookup_insert_eq|].
  apply wp_when; intros Hb; [apply H2; by apply bool_decide_eq_true in Hb|apply H1; by apply bool_decide_eq_false in Hb].
Qed.

(** Leaving the processor is a turn. *)
Lemma off_cpu_turns v x t T status requeue : sched_inv v x [] [] -> on_cpu v x t T ->
  (requeue = true /\ status = THREAD_RUNNABLE) \/ (requeue = false /\ status = THREAD_DEAD) ->
  turns x t (upd_t_on_cpu (fun _ => false) (upd_t_status (fun _ => status) T)) (off_cpu x t (upd_t_status (fun _ => status) T) requeue).
Proof.
  intros Hs [O1 O2 O3] Hcase. set (T' := upd_t_on_cpu _ _). set (y := off_cpu _ _ _ _).
  assert (Ecur : x_current y = <[x_this x := None]> (x_current x)) by (unfold y, off_cpu, parked_at; by destruct requeue).
  assert (Hnq : t ∉ mjoin (x_queues x)).
  { intros Hq. apply (th_queue _ _ _ _ _ (sch_thread _ _ _ _ Hs t)) in Hq as (U & HU & ?). congruence. }
  destruct (lookup_lt_is_Some_2 (x_queues x) (x_this x)) as [q Hq]; [apply Hs|].
  assert (Hnr : forall i, ~ running (x_current y) t i).
  { intros i Hr. unfold running in Hr. rewrite Ecur in Hr. destruct (decide (i = x_this x)) as [->|Hi].
    - rewrite list_lookup_insert_eq in Hr by (by eapply lookup_lt_Some). done.
    - rewrite list_lookup_insert_ne in Hr by done. by apply Hi, (sch_alone _ _ _ _ Hs t). }
  assert (Hcur : forall u i, u <> t -> running (x_current y) u i <-> running (x_current x) u i).
  { intros u i Hu. unfold running. rewrite Ecur. destruct (decide (i = x_this x)) as [->|Hi]; [|by rewrite list_lookup_insert_ne].
    rewrite list_lookup_insert_eq by (by eapply lookup_lt_Some). split; [done|congruence]. }
  assert (Hqueue : mjoin (x_queues y) ≡ₚ (if requeue then [t] else []) ++ mjoin (x_queues x) /\ length (x_queues y) = length (x_queues x)).
  { unfold y, off_cpu, parked_at. destruct requeue; simpl; [|done]. rewrite length_alter. split; [|done].
    rewrite (alter_insert _ _ _ q) by done. by apply join_push. }
  destruct Hqueue as [Hqp Hql].
  pose proof (sch_seq _ _ _ _ Hs).
  split; [unfold y, off_cpu, parked_at; by destruct requeue|unfold y, off_cpu, parked_at; by destruct requeue|
    unfold y, off_cpu, parked_at; destruct requeue; simpl; split_and!; first [done|lia]| | | |done|done| | | |].
  - intros u Hu. rewrite Hqp, elem_of_app. destruct requeue; set_solver.
  - rewrite Hqp, elem_of_app. destruct Hcase as [[-> ->]|[-> ->]]; simpl; [set_solver|]. split; [intros [?%not_elem_of_nil|?]; done|done].
  - rewrite Hqp. destruct requeue; simpl; [apply NoDup_cons; split; [done|]|]; apply Hs.
  - split; [by intros (i & ?%Hnr)|]. simpl. destruct Hcase as [[_ ->]|[_ ->]]; done.
  - by intros i j ?%Hnr.
  - intros u i _ _. unfold y, off_cpu, parked_at. by destruct requeue.
  - by intros i ?%Hnr.
Qed.

(** ** The three ways to park *)

Definition settled v x : Prop := inv v x /\ x_held x = [].

(** The scheduler can take over. *)
Definition parked v x : Prop := wp scheduler_back (fun _ => settled) v x.

Lemma off_cpu_keeps x t T' requeue : let y := off_cpu x t T' requeue in
  x_ases y = x_ases x /\ x_pool y = x_pool x /\ x_platform y = x_platform x /\ scheme_part y = scheme_part x /\ x_held y = x_held x /\
  x_threads y = <[t := upd_t_on_cpu (fun _ => false) T']> (x_threads x).
Proof. unfold off_cpu, parked_at. by destruct requeue. Qed.

Lemma running_fields v x C D t T : sched_inv v x C D -> x_threads x !! t = Some T -> t_status T = THREAD_RUNNING ->
  t_tid T = t /\ t_wake_state T = FUTEX_IDLE /\ t_deadline T = 0 /\ 0 <= t_deadline_cpu T /\ t_on_cpu T = true.
Proof.
  intros Hs HT Hr. destruct (sch_tid Hs t T HT) as (Et & Hdl & Hc & Hsh). rewrite Hr in Hsh. destruct Hsh as [Ho Hw].
  split_and!; try done. destruct (decide (t_deadline T = 0)); [done|]. destruct (Hdl ltac:(done)); congruence.
Qed.

Lemma off_cpu_sched v x t T status requeue : sched_inv v x [] [] -> on_cpu v x t T ->
  (requeue = true /\ status = THREAD_RUNNABLE) \/ (requeue = false /\ status = THREAD_DEAD) ->
  sched_inv v (off_cpu x t (upd_t_status (fun _ => status) T) requeue) [] [].
Proof.
  intros Hs Ho Hcase. pose proof Ho as [O1 O2 O3]. destruct (running_fields v x [] [] t T Hs O2 O3) as (F1 & F2 & F3 & F4 & F5).
  eapply (sched_turn v x _ t T); [done|done|congruence|..|by eapply off_cpu_turns|]; try done.
  - unfold shape. simpl. rewrite F3. destruct Hcase as [[_ ->]|[_ ->]]; done.
  - destruct (off_cpu_keeps x t (upd_t_status (fun _ => status) T) requeue) as (E & _). rewrite E. apply Hs.
Qed.

Lemma wpk_yield {A} t T Q v x : inv v x -> on_cpu v x t T -> x_held x = [] -> wpk (uthread_park_yield (A := A)) Q parked v x.
Proof.
  intros Hi Ho Hx. pose proof Ho as [O1 O2 O3]. eapply wpk_uthread_park; [apply Hi|done|done|rewrite Hx; constructor|].
  pose proof (off_cpu_sched v x t T THREAD_RUNNABLE true (inv_sched _ _ _ Hi) Ho ltac:(by left)) as Hs.
  destruct (off_cpu_keeps x t (upd_t_status (fun _ => THREAD_RUNNABLE) T) true) as (E1 & E2 & E3 & E4 & E5 & E6).
  eapply wp_back; [apply Hi|done| |done]. intros _. split; [|by rewrite E5]. split.
  - apply Hi.
  - by eapply (pool_frame v v x); [..|apply Hi].
  - done.
  - intros u U HU. rewrite E6 in HU. apply lookup_insert_Some in HU as [[<- <-]|[_ HU]]; [done|by eapply (inv_alive _ _ _ Hi)].
  - by eapply (scheme_ext v v x); [| | | |apply Hi].
Qed.

(** After the switch thread [t] no longer exists. *)
Definition departing (t : Z) v x : Prop := wp scheduler_back (fun _ v x => settled v x /\ x_threads x !! t = None) v x.

Lemma wpk_gone {A} t T Q v x : inv v x -> on_cpu v x t T -> x_held x = [] -> wpk (uthread_park_exit (A := A)) Q (departing t) v x.
Proof.
  intros Hi Ho Hx. pose proof Ho as [O1 O2 O3]. eapply wpk_uthread_park; [apply Hi|done|done|rewrite Hx; constructor|].
  pose proof (off_cpu_sched v x t T THREAD_DEAD false (inv_sched _ _ _ Hi) Ho ltac:(by right)) as Hs.
  destruct (off_cpu_keeps x t (upd_t_status (fun _ => THREAD_DEAD) T) false) as (E1 & E2 & E3 & E4 & E5 & E6).
  eapply wp_back; [apply Hi|done|done|]. intros _. apply wp_exited; [|by rewrite E5|].
  - split; [apply Hi|by eapply (pool_frame v v x); [..|apply Hi]|done| |by eapply (scheme_ext v v x); [| | | |apply Hi]|].
    + intros u U HU Hu. rewrite E6, lookup_insert_ne in HU by done. by eapply (inv_alive _ _ _ Hi).
    + rewrite E6, lookup_insert_eq. by eexists.
  - intros v' x' Hi' [(_ & Eh & _) Hgone _]. split; [|done]. split; [done|]. by rewrite Eh, E5.
Qed.

Lemma wpk_exit {A} t T Q v x : inv v x -> on_cpu v x t T -> x_held x = [] -> wpk (uthread_park_exit (A := A)) Q parked v x.
Proof.
  intros Hi Ho Hx. eapply wpk_mono; [by eapply (wpk_gone t T)|done|]. intros u y Hd. eapply wp_mono; [exact Hd|]. by intros _ u' y' [Hs _].
Qed.

End Run.
