(* ===== verification/FutexSpec.v ===== *)
(** * Specifications of the futex calls

    A waiter is queued under its bucket's lock and leaves the processor; a wake call
    takes the oldest waiters of an address or drains the ring the address lies in; a
    requeue moves waiters to another address. *)

From S2P Require Import Prelude Buddy Paging Siphash PlatformMem Machine Sched Index Channel Umem Process Capability Irq Syscall Graph Wp Invariant BaseSpec SchedSpec ChannelSpec UmemSpec BlockSpec MoveSpec ThreadSpec ProcessSpec LifeSpec CallSpec RingSpec RunSpec.

Section Futexes.
Context {PT : PageTree} {SC : Schemes} {SS : SchemesSafe}.
Implicit Types (v w : gview) (x : rest).

(** ** Queueing *)

Lemma wp_next_seq Q v x : Q (x_futex_seq x) v (set_futex_seq (fun n => u64 (n + 1)) x) -> wp next_futex_seq Q v x.
Proof. intros H s <- <-. exact H. Qed.

(** [T], with a deadline on processor [cpu]. *)
Definition timed (T : thread) (dl cpu : Z) : thread := upd_t_deadline_cpu (fun _ => cpu) (upd_t_deadline (fun _ => dl) T).

Lemma wp_arm t T dl Q v x : (x_this x < length (x_queues x))%nat -> Z.of_nat (length (x_queues x)) < 2 ^ 32 -> x_threads x !! t = Some T -> t_tid T = t -> held_below 5 (x_held x) ->
  Q false v x ->
  Q true v (set_deadlines (alter (insert (dl, t) t) (x_this x)) (set_threads (insert t (timed T dl (Z.of_nat (x_this x)))) x)) ->
  wp (timer_deadline_arm t dl) Q v x.
Proof.
  intros Hthis Hfew HT Et Hh H1 H2. unfold timer_deadline_arm.
  assert (Hlt : (Z.to_nat (Z.of_nat (x_this x)) < length (x_queues x))%nat) by (by rewrite Nat2Z.id).
  apply wp_bind, wp_this_cpu, wp_bind, wp_lock_below; [done|]. apply wp_bind. eapply wp_get_thread; [exact HT|].
  apply wp_bind, wp_get_cpu; [done|]. intros c [_ _ _ Hc]. simpl in Hc. apply wp_bind, wp_try_alloc. intros ok.
  destruct (negb ok || _) eqn:Eb.
  - apply wp_bind. eapply wp_unlock_top; [reflexivity|done|]. apply wp_ret. replace (set_held _ _) with x by (by destruct x). done.
  - apply wp_bind. eapply wp_c_deadlines; [exact Hc|]. apply wp_bind. eapply wp_mod_thread; [exact HT|done|].
    apply wp_bind. eapply wp_mod_thread; [apply lookup_insert_eq|done|]. apply wp_bind, wp_get_cpu; [done|]. intros c' _.
    set (y := set_deadlines (alter (insert (dl, t) t) (x_this x)) (set_threads (insert t (timed T dl (Z.of_nat (x_this x)))) x)) in *.
    replace (set_threads _ _) with (set_held (LTimer (Z.of_nat (x_this x)) :: x_held x) y).
    2:{ unfold y, timed, set_threads, set_deadlines, set_held. simpl. rewrite insert_insert_eq, Et, Nat2Z.id.
      rewrite Nat2Z.id in Hc. rewrite (alter_insert _ _ _ _ Hc). unfold u32. by rewrite Z.mod_small by lia. }
    assert (Hend : wp (_ ← unlock (LTimer (Z.of_nat (x_this x))); mret true) Q v (set_held (LTimer (Z.of_nat (x_this x)) :: x_held x) y)).
    { apply wp_bind. eapply wp_unlock_top; [reflexivity|done|]. by apply wp_ret. }
    apply wp_bind, wp_when; intros _; [|done]. apply wp_bind, wp_now. intros now. by apply wp_program.
Qed.

(** The running thread [t] is [T'] now, a ticket was spent, and it still waits for nothing. *)
Lemma inv_retry v x t T T' f : inv v x -> on_cpu v x t T -> x_futex_seq x + 1 < 2 ^ 64 ->
  t_tid T' = t -> tview T' = tview T -> t_status T' = THREAD_RUNNING -> t_on_cpu T' = true -> t_wake_state T' = FUTEX_IDLE ->
  t_deadline T' = 0 -> 0 <= t_deadline_cpu T' -> (forall i k u, waiting (f (x_futex x)) i k u <-> waiting (x_futex x) i k u) ->
  inv v (set_threads (insert t T') (set_futex f (set_futex_seq Z.succ x))).
Proof.
  intros Hi [O1 O2 O3] Hseq Et Ev Er Eo Ew Ed Ec Hf. pose proof (inv_sched _ _ _ Hi) as Hs.
  pose proof (sch_thread _ _ _ _ Hs t) as Hth. pose proof (sch_seq _ _ _ _ Hs) as Hq. split.
  - apply Hi.
  - by eapply (pool_frame v v x); [..|apply Hi].
  - eapply (sched_turn v x _ t T); [done|done|congruence|done|done| |done|done| |apply Hs].
    { unfold shape. rewrite Er, Eo, Ew. split_and!; [by intros []|done..]. }
    split; try done; simpl.
    + split_and!; first [done|lia].
    + rewrite Er. split; [|done]. intros Hin. apply (th_queue _ _ _ _ _ Hth) in Hin as (U & HU & HU'). rewrite O2 in HU. congruence.
    + apply Hs.
    + split; [done|]. intros _. by exists (x_this x).
    + intros i j. apply (sch_alone _ _ _ _ Hs).
    + intros i Hr. assert (t_proc T' = t_proc T) as -> by (by injection Ev). by eapply (th_as _ _ _ _ _ Hth).
  - intros u U HU. simpl in HU. apply lookup_insert_Some in HU as [[<- <-]|[_ HU]]; [congruence|by eapply (inv_alive _ _ _ Hi)].
  - by eapply (scheme_ext v v x); [| | | |apply Hi].
Qed.

Lemma unticketed v x C D i addr u : sched_inv v x C D -> ~ waiting (x_futex x) i (addr, x_futex_seq x) u.
Proof. intros Hs Hw. apply (sch_ticket _ _ _ _ Hs) in Hw. simpl in Hw. lia. Qed.

Lemma waiting_undo v x C D bk addr t i k u : sched_inv v x C D ->
  waiting (bucket_delete bk (addr, x_futex_seq x) (bucket_insert bk (addr, x_futex_seq x) t (x_futex x))) i k u <-> waiting (x_futex x) i k u.
Proof.
  intros Hs. rewrite waiting_delete, waiting_insert. split; [tauto|]. intros Hw.
  assert (~ (i = bk /\ k = (addr, x_futex_seq x))); [|tauto]. intros [-> ->]. by eapply unticketed.
Qed.

(** [T], waiting under [key]. *)
Definition waiter (T : thread) (key : Z * Z) (dl : Z) (cpu : nat) : thread :=
  let T := upd_t_deadline (fun _ => 0) (upd_t_wait_key (fun _ => key) T) in
  upd_t_wake_state (fun _ => FUTEX_PARKED) (if dl =? 0 then T else timed T dl (Z.of_nat cpu)).

#[local] Arguments waiter : simpl never.

Definition enqueued x (t : Z) (T : thread) (bk addr dl : Z) : rest :=
  let key := (addr, x_futex_seq x) in
  let y := set_threads (insert t (waiter T key dl (x_this x))) (set_futex (bucket_insert bk key t) (set_futex_seq Z.succ x)) in
  if dl =? 0 then y else set_deadlines (alter (insert (dl, t) t) (x_this x)) y.

Lemma set_threads_same x t T : x_threads x !! t = Some T -> set_threads (insert t T) x = x.
Proof. intros HT. unfold set_threads. rewrite insert_id by done. by destruct x. Qed.

Lemma wp_enqueue_waiter t T bk addr expected dl Q v x : inv v x -> on_cpu v x t T -> x_futex_seq x + 1 < 2 ^ 64 -> held_below 5 (x_held x) ->
  (forall rc y, inv v y -> x_held y = x_held x -> Q (Some rc) v y) -> Q None v (enqueued x t T bk addr dl) ->
  wp (futex_enqueue t bk addr expected dl) Q v x.
Proof.
  intros Hi Ho Hseq Hh HF HN. pose proof (inv_sched _ _ _ Hi) as Hs. pose proof Ho as [O1 O2 O3].
  destruct (running_fields v x [] [] t T Hs O2 O3) as (F1 & F2 & F3 & F4 & F5). pose proof (sch_seq _ _ _ _ Hs) as Hq.
  eapply wp_cpu; [exact Hs|]. intros Hcpu. unfold futex_enqueue. apply wp_bind, wp_load32; [done|].
  destruct (negb _); [apply wp_ret; by apply HF|]. apply wp_bind, wp_next_seq.
  replace (set_futex_seq _ x) with (set_futex_seq Z.succ x) by (unfold set_futex_seq, u64; by rewrite Z.mod_small by lia).
  apply wp_bind, wp_try_alloc. intros ok. apply wp_bind, wp_get_waiters. destruct (negb ok || _).
  { apply wp_ret, HF; [|done]. rewrite <- (set_threads_same _ t T) by done.
    replace (set_threads _ _) with (set_threads (insert t T) (set_futex id (set_futex_seq Z.succ x))) by (by destruct x).
    by eapply inv_retry. }
  apply wp_bind, wp_insert_waiter, wp_bind. eapply wp_mod_thread; [done|done|]. apply wp_bind. eapply wp_mod_thread; [apply lookup_insert_eq|done|].
  set (T1 := upd_t_deadline (fun _ => 0) (upd_t_wait_key (fun _ => (addr, x_futex_seq x)) T)).
  set (y1 := set_threads (insert t T1) (set_futex (bucket_insert bk (addr, x_futex_seq x) t) (set_futex_seq Z.succ x))).
  replace (set_threads _ _) with y1 by (unfold y1, set_threads; simpl; by rewrite insert_insert_eq).
  assert (Hno : wp (w ← gets (fun s => waiters s bk); _ ← asserts (bool_decide (is_Some (w !! (addr, x_futex_seq x)))) "futex: failed park rollback";
    _ ← set_waiters bk (delete (addr, x_futex_seq x)); mret (Some SYSERR_NOMEM)) Q v y1).
  { apply wp_bind, wp_get_waiters, wp_bind, wp_asserts.
    { apply bool_decide_eq_true. unfold y1, bucket_insert. simpl. rewrite lookup_insert_eq. simpl. rewrite lookup_insert_eq. by eexists. }
    apply wp_bind, wp_delete_waiter, wp_ret, HF; [|done].
    eapply (inv_retry v x t T T1 (fun f => bucket_delete bk _ (bucket_insert bk _ t f))); try done. intros i k u. by eapply waiting_undo. }
  assert (Hyes : forall y, y = enqueued x t T bk addr dl -> wp (mret None) Q v y) by (intros y ->; by apply wp_ret).
  unfold enqueued in Hyes. apply wp_bind. destruct (Z.eqb_spec dl 0) as [->|Hdl].
  - apply wp_ret. cbn [negb]. apply wp_bind. eapply wp_mod_thread; [apply lookup_insert_eq|done|]. apply Hyes.
    unfold y1, set_threads. simpl. by rewrite insert_insert_eq.
  - eapply wp_arm; [apply Hs|apply Hs|apply lookup_insert_eq|done|done|done|]. cbn [negb]. apply wp_bind.
    eapply wp_mod_thread; [apply lookup_insert_eq|done|]. apply Hyes.
    unfold y1, set_threads, set_deadlines. simpl. rewrite !insert_insert_eq. unfold waiter. by rewrite (proj2 (Z.eqb_neq dl 0)).
Qed.

Lemma armed_insert d j k0 t0 m i k u : d !! j = Some m ->
  armed (alter (insert k0 t0) j d) i k u <-> (i = j /\ k = k0 /\ u = t0) \/ (armed d i k u /\ ~ (i = j /\ k = k0)).
Proof.
  intros Hj. unfold armed. simpl. setoid_rewrite lookup_alter_Some. split.
  - intros (m' & (n & Hn & ->) & Hk). case_decide; [|right; split; [eauto|tauto]].
    apply lookup_insert_Some in Hk as [[-> ->]|[Hne Hk]]; [by left|right]. split; [eauto|]. naive_solver.
  - intros [(-> & -> & ->)|[(n & Hn & Hk) Hne]].
    + exists (<[k0 := t0]> m). split; [exists m; by rewrite decide_True|]. apply lookup_insert_eq.
    + exists (if decide (i = j) then <[k0 := t0]> n else n). split; [eauto|]. case_decide; [|done]. rewrite lookup_insert_ne; [done|]. naive_solver.
Qed.

Lemma enqueued_keeps x t T bk addr dl : let y := enqueued x t T bk addr dl in
  x_threads y = <[t := waiter T (addr, x_futex_seq x) dl (x_this x)]> (x_threads x) /\
  x_futex y = bucket_insert bk (addr, x_futex_seq x) t (x_futex x) /\ x_futex_key y = x_futex_key x /\ x_futex_seq y = x_futex_seq x + 1 /\
  x_queues y = x_queues x /\ x_current y = x_current x /\ x_ases y = x_ases x /\ x_this y = x_this x /\ x_pool y = x_pool x /\
  x_platform y = x_platform x /\ scheme_part y = scheme_part x /\ x_held y = x_held x.
Proof. unfold enqueued. by destruct (dl =? 0). Qed.

Lemma waiter_fields T key dl cpu : let T' := waiter T key dl cpu in
  t_tid T' = t_tid T /\ tview T' = tview T /\ t_wait_key T' = key /\ t_deadline T' = dl /\
  t_deadline_cpu T' = (if dl =? 0 then t_deadline_cpu T else Z.of_nat cpu) /\ t_wake_state T' = FUTEX_PARKED.
Proof. unfold waiter. destruct (Z.eqb_spec dl 0) as [->|]; done. Qed.

(** The state once the waiter is off its processor. *)
Definition asleep x (t : Z) (T : thread) (bk addr dl : Z) : rest :=
  off_cpu (enqueued x t T bk addr dl) t (upd_t_status (fun _ => THREAD_BLOCKED) (waiter T (addr, x_futex_seq x) dl (x_this x))) false.

Lemma asleep_keeps x t T bk addr dl : let y := asleep x t T bk addr dl in
  x_threads y = <[t := upd_t_on_cpu (fun _ => false) (upd_t_status (fun _ => THREAD_BLOCKED) (waiter T (addr, x_futex_seq x) dl (x_this x)))]> (x_threads x) /\
  x_futex y = bucket_insert bk (addr, x_futex_seq x) t (x_futex x) /\ x_futex_key y = x_futex_key x /\ x_futex_seq y = x_futex_seq x + 1 /\
  x_queues y = x_queues x /\ x_current y = <[x_this x := None]> (x_current x) /\ x_ases y = x_ases x /\ x_this y = x_this x /\ x_pool y = x_pool x /\
  x_platform y = x_platform x /\ scheme_part y = scheme_part x /\ x_held y = x_held x /\
  x_deadlines y = (if dl =? 0 then x_deadlines x else alter (insert (dl, t) t) (x_this x) (x_deadlines x)).
Proof.
  unfold asleep, off_cpu, parked_at, enqueued. destruct (dl =? 0); simpl; rewrite insert_insert_eq; done.
Qed.

Lemma asleep_blocks v x t T bk addr dl : sched_inv v x [] [] -> on_cpu v x t T -> x_futex_seq x + 1 < 2 ^ 64 ->
  home (x_futex_key x) addr bk -> length (x_deadlines x) = length (x_queues x) ->
  blocks_on x t bk (addr, x_futex_seq x)
    (upd_t_on_cpu (fun _ => false) (upd_t_status (fun _ => THREAD_BLOCKED) (waiter T (addr, x_futex_seq x) dl (x_this x))))
    (asleep x t T bk addr dl).
Proof.
  intros Hs [O1 O2 O3] Hseq Hh Hl. destruct (running_fields v x [] [] t T Hs O2 O3) as (F1 & F2 & F3 & F4 & F5).
  destruct (asleep_keeps x t T bk addr dl) as (E1 & E2 & E3 & E4 & E5 & E6 & E7 & E8 & E9 & E10 & E11 & E12 & E13).
  destruct (waiter_fields T (addr, x_futex_seq x) dl (x_this x)) as (W1 & W2 & W3 & W4 & W5 & W6).
  assert (Hna : forall i k, ~ armed (x_deadlines x) i k t).
  { intros i k Ha. apply (th_armed _ _ _ _ _ (sch_thread _ _ _ _ Hs t)) in Ha as (U & HU & Hd & _). rewrite O2 in HU. congruence. }
  set (T' := upd_t_on_cpu _ _) in *. change (t_deadline T' = dl) in W4.
  change (t_deadline_cpu T' = if dl =? 0 then t_deadline_cpu T else Z.of_nat (x_this x)) in W5. clearbody T'. split.
  - done.
  - intros i k u. rewrite E2, waiting_insert. split; [tauto|]. intros [Hw|Hw]; [|by left]. right. split; [done|].
    intros [-> ->]. by eapply unticketed.
  - done.
  - intros i k u. rewrite E13, W4, W5. destruct (Z.eqb_spec dl 0) as [->|Hdl]; [tauto|].
    destruct (lookup_lt_is_Some_2 (x_deadlines x) (x_this x)) as [m Hm]; [rewrite Hl; apply Hs|].
    rewrite (armed_insert _ _ _ _ _ _ _ _ Hm), Nat2Z.id. split; [tauto|]. intros [Ha|Ha]; [|tauto]. right. split; [done|]. intros [-> ->].
    destruct (th_armed _ _ _ _ _ (sch_thread _ _ _ _ Hs u) (x_this x) (dl, t)) as [Hu _]. destruct (Hu Ha) as (U & _ & _ & [= _ ->] & _).
    by eapply Hna.
  - intros u i. rewrite E6. unfold running. split.
    + intros Hr. apply list_lookup_insert_Some in Hr as [(_ & ? & _)|[Hne Hr]]; [done|]. split; [done|]. intros ->. apply Hne.
      symmetry. by eapply (sch_alone _ _ _ _ Hs).
    + intros [Hr Hu]. rewrite list_lookup_insert_ne; [done|]. intros <-. rewrite O1 in Hr. congruence.
  - done.
  - done.
Qed.

Lemma inv_asleep v x t T bk addr dl : inv v x -> on_cpu v x t T -> x_futex_seq x + 1 < 2 ^ 64 ->
  home (x_futex_key x) addr bk -> length (x_deadlines x) = length (x_queues x) -> inv v (asleep x t T bk addr dl).
Proof.
  intros Hi Ho Hseq Hh Hl. pose proof (inv_sched _ _ _ Hi) as Hs. pose proof Ho as [O1 O2 O3].
  destruct (running_fields v x [] [] t T Hs O2 O3) as (F1 & F2 & F3 & F4 & F5).
  pose proof (asleep_blocks v x t T bk addr dl Hs Ho Hseq Hh Hl) as Hb.
  destruct (asleep_keeps x t T bk addr dl) as (E1 & E2 & E3 & E4 & E5 & E6 & E7 & E8 & E9 & E10 & E11 & E12 & E13).
  destruct (waiter_fields T (addr, x_futex_seq x) dl (x_this x)) as (W1 & W2 & W3 & W4 & W5 & W6). split.
  - apply Hi.
  - by eapply (pool_frame v v x); [..|apply Hi].
  - refine (sched_block v x _ t T _ bk _ Hs O2 O3 _ _ _ _ _ _ _ Hb); [exact (eq_trans W1 F1)|exact W2|done|done|exact W6|exact W3|].
    change (0 <= t_deadline_cpu (waiter T (addr, x_futex_seq x) dl (x_this x))). rewrite W5. destruct (dl =? 0); lia.
  - intros u U HU. rewrite E1 in HU. apply lookup_insert_Some in HU as [[<- <-]|[_ HU]]; [done|by eapply (inv_alive _ _ _ Hi)].
  - by eapply (scheme_ext v v x); [| | | |apply Hi].
Qed.

Lemma wpk_block {A} t T bk addr dl Q v x : inv v x -> on_cpu v x t T -> x_futex_seq x + 1 < 2 ^ 64 ->
  home (x_futex_key x) addr bk -> x_held x = [] -> wpk (uthread_park_blocked (A := A)) Q parked v (enqueued x t T bk addr dl).
Proof.
  intros Hi Ho Hseq Hh Hx. pose proof (inv_sched _ _ _ Hi) as Hs. pose proof Ho as [O1 O2 O3].
  destruct (enqueued_keeps x t T bk addr dl) as (E1 & E2 & E3 & E4 & E5 & E6 & E7 & E8 & E9 & E10 & E11 & E12).
  eapply wpk_uthread_park; [rewrite E8, E5; apply Hs|by rewrite E6, E8|rewrite E1; apply lookup_insert_eq|rewrite E12, Hx; constructor|].
  apply wp_columns. intros (_ & _ & Hl). eapply wp_back; [rewrite E8, E5; apply Hs|by rewrite E6, E8| |done]. intros _.
  fold (asleep x t T bk addr dl).
  split; [|by rewrite <- Hx; apply asleep_keeps]. apply inv_asleep; try done.
  revert Hl. unfold enqueued. simpl. destruct (dl =? 0); simpl; [done|]. by rewrite length_alter.
Qed.

(** ** Wake and wait *)

Lemma wp_futex_wake curr T m addr count Q v x : inv v x -> caller v x curr T m -> x_held x = [] -> 0 <= addr ->
  (forall rc v' x', inv v' x' -> stirred v v' -> steady x x' -> Q rc v' x') -> wp (futex_sys_wake curr addr count) Q v x.
Proof.
  intros Hi Hca Hx Ha H. pose proof (inv_graph _ _ _ Hi) as Hg. unfold futex_sys_wake. apply wp_bind. eapply wp_get_thread; [apply Hca|].
  apply wp_bind, wp_lock_below; [rewrite Hx; constructor|]. rewrite Hx. apply wp_bind, wp_view; [apply Hg|apply Hg|apply Hg|apply Hca|lia|lia|].
  intros ob Hob.
  assert (Hend : forall is_ring : bool, wp (_ ← umem_proc_unlock (t_proc T);
    match ob with
    | None => mret SYSERR_INVAL
    | Some _ => if is_ring then channel_ring_drain curr addr else wake_batch addr count
    end) Q v (set_held [LProc (t_proc T)] x)).
  { intros is_ring. apply wp_bind. eapply wp_unlock_top; [done|constructor|]. replace (set_held [] _) with x by (rewrite <- Hx; by destruct x).
    destruct ob; [|apply wp_ret, H; [done|apply stirred_refl|apply steady_refl]]. destruct is_ring; [by eapply wp_drain|].
    apply wp_wake_batch; [apply Hi|apply Hg|apply Hg|apply Hg|rewrite Hx; constructor|]. intros x' batch Hs' Hc' _.
    apply H; [by eapply inv_calm|apply stirred_refl|by apply calm_steady]. }
  apply wp_bind. destruct ob as [b|]; [|by apply wp_ret, (Hend false)].
  destruct (proj1 (Hob b) eq_refl) as (_ & _ & (i & Hib & _)). destruct (proj2 (own_info v (inv_own v Hg) b)) as [o Ho]; [by eexists|].
  apply wp_bind. eapply wp_get_block; [exact Hib|exact Ho|]. apply wp_ret, Hend.
Qed.

Lemma on_cpu_steady v v' x x' t T : on_cpu v x t T -> steady x x' -> on_cpu v' x' t T.
Proof.
  intros [O1 O2 O3] [(E1 & _ & _ & E2 & _) S]. split; [by rewrite E1, E2| |done]. apply S; [done|congruence].
Qed.

(** The part of the call after the optional wake. *)
Lemma wpk_wait_here t T addr expected dl Q v x : inv v x -> on_cpu v x t T -> x_held x = [] -> 0 <= addr < 2 ^ 64 ->
  x_futex_seq x + 1 < 2 ^ 64 -> (forall rc v' x', settled v' x' -> Q rc v' x') ->
  wpk (_ ← umem_proc_lock (t_proc T);
    dead ← process_is_dead (t_proc T);
    if (dead : bool) then _ ← umem_proc_unlock (t_proc T); uthread_park_exit
    else
      ok ← user_range_ok (t_proc T) addr 4 false;
      if negb ok then _ ← umem_proc_unlock (t_proc T); mret SYSERR_INVAL
      else
        bk ← bucket_of addr;
        _ ← lock (LBucket bk);
        rc ← futex_enqueue t bk addr expected dl;
        _ ← unlock (LBucket bk);
        _ ← umem_proc_unlock (t_proc T);
        match rc with
        | Some rc => mret rc
        | None => uthread_park_blocked
        end) Q parked v x.
Proof.
  intros Hi Ho Hx Ha Hseq H. pose proof (inv_graph _ _ _ Hi) as Hg. pose proof Ho as [O1 O2 O3].
  destruct (caller_made v x t T Hi O2 O3) as [m [_ _ Hm Hlive]].
  apply wpk_seq, wp_lock_below; [rewrite Hx; constructor|]. rewrite Hx. set (p := t_proc T) in *.
  apply wpk_seq, wp_is_dead; [apply Hg|apply Hg|done|]. intros [] _.
  { apply wpk_seq. eapply wp_unlock_top; [done|constructor|]. replace (set_held [] _) with x by (rewrite <- Hx; by destruct x). by eapply wpk_exit. }
  apply wpk_seq. eapply wp_user_range; [apply Hg|apply Hg|exact Hm|done|done|lia|]. intros [] _; cbn [negb].
  2:{ apply wpk_seq. eapply wp_unlock_top; [done|constructor|]. apply wpk_ret, H.
    replace (set_held [] _) with x by (rewrite <- Hx; by destruct x). done. }
  apply wpk_seq, wp_bucket, wpk_seq, wp_lock_below; [by repeat constructor|]. cbn [x_futex_key set_held x_held].
  set (bk := bucket_index (x_futex_key x) addr). set (y := set_held _ (set_held _ x)).
  assert (Hu : forall rc v' z, x_held z = [LBucket bk; LProc p] -> wpk (match rc with Some rc => mret rc | None => uthread_park_blocked end) Q parked v' (set_held [] z) ->
    wpk (_ ← unlock (LBucket bk); _ ← umem_proc_unlock p; match rc with Some rc => mret rc | None => uthread_park_blocked end) Q parked v' z).
  { intros rc v' z Hz Hk. apply wpk_seq. eapply wp_unlock_top; [exact Hz|by repeat constructor|]. apply wpk_seq.
    eapply wp_unlock_top; [done|constructor|]. by replace (set_held [] (set_held _ z)) with (set_held [] z) by (by destruct z). }
  apply wpk_seq. eapply wp_enqueue_waiter; [by do 2 apply inv_held|by split|done|by repeat constructor| |].
  - intros rc z Hz Eh. apply (Hu (Some rc)); [done|]. apply wpk_ret, H. split; [by apply inv_held|done].
  - apply (Hu None); [by destruct (enqueued_keeps y t T bk addr dl) as (_ & _ & _ & _ & _ & _ & _ & _ & _ & _ & _ & E)|].
    replace (set_held [] _) with (enqueued x t T bk addr dl).
    2:{ unfold enqueued. destruct (dl =? 0); unfold y, set_held; rewrite <- Hx; by destruct x. }
    by eapply wpk_block.
Qed.

Lemma wpk_futex_wait t T addr expected wake_addr dl Q v x : inv v x -> on_cpu v x t T -> x_held x = [] -> 0 <= addr < 2 ^ 64 ->
  0 <= wake_addr -> x_futex_seq x + 1 < 2 ^ 64 -> (forall rc v' x', settled v' x' -> Q rc v' x') ->
  wpk (futex_sys_wait t addr expected wake_addr dl) Q parked v x.
Proof.
  intros Hi Ho Hx Ha Hw Hseq H. unfold futex_sys_wait. destruct (negb _); [by apply wpk_ret, H|]. pose proof Ho as [O1 O2 O3].
  destruct (caller_made v x t T Hi O2 O3) as [m Hca]. apply wpk_seq, wp_when; intros _.
  - apply wp_bind. eapply wp_futex_wake; [done|done|done|done|]. intros _ v' x' Hi' _ Hst. apply wp_skip.
    pose proof (on_cpu_steady v v' x x' t T Ho Hst) as Ho'. destruct Hst as [(_ & Eh & _ & _ & _ & Es) _].
    apply wpk_seq. eapply wp_get_thread; [apply Ho'|]. apply wpk_wait_here; try done; congruence.
  - apply wpk_seq. eapply wp_get_thread; [exact O2|]. by apply wpk_wait_here.
Qed.

(** ** Requeueing *)

(** The parked thread [t], which is [T], waits in bucket [bt] for [to] now. *)
Definition requeued x (t : Z) (T : thread) (bf bt to : Z) : rest :=
  set_threads (insert t (upd_t_wait_key (fun _ => (to, x_futex_seq x)) T))
    (set_futex (fun f => bucket_insert bt (to, x_futex_seq x) t (bucket_delete bf (t_wait_key T) f)) (set_futex_seq Z.succ x)).

Lemma sched_requeue v x t T bf bt to : sched_inv v x [] [] -> x_threads x !! t = Some T -> t_wake_state T = FUTEX_PARKED ->
  home (x_futex_key x) (t_wait_key T).1 bf -> home (x_futex_key x) to bt -> x_futex_seq x + 1 < 2 ^ 64 ->
  sched_inv v (requeued x t T bf bt to) [] [].
Proof.
  intros Hs HT Hp Hf Ht Hseq. pose proof (sch_seq _ _ _ _ Hs) as Hq. pose proof (sch_parked Hs t T bf HT Hf ltac:(by left)) as Hold.
  assert (Hw : forall i k u, waiting (x_futex (requeued x t T bf bt to)) i k u <->
    (i = bt /\ k = (to, x_futex_seq x) /\ u = t) \/ (waiting (x_futex x) i k u /\ u <> t)).
  { intros i k u. simpl. rewrite waiting_insert, waiting_delete. split.
    - intros [?|[[Hw Hn] _]]; [by left|right]. split; [done|]. intros ->. apply Hn.
      destruct (sch_waiter Hs i k t Hw) as (U & HU & Ek & Hh & _). rewrite HT in HU. injection HU as <-. subst k. split; [by eapply home_eq|done].
    - intros [?|[Hw Hu]]; [by left|right]. split; [split; [done|]|].
      + intros [-> ->]. unfold waiting in Hw, Hold. congruence.
      + intros [-> ->]. by eapply unticketed. }
  destruct (sch_thread _ _ _ _ Hs t) as [T1 T2 T3 T4 T5 T6 T7]. rewrite HT in T1, T2, T3, T4, T5, T6, T7.
  eapply (sched_step v x [] [] _ _ _ _ t); [exact Hs| | |..]; try first [apply Hs|done].
  - intros u Hu. simpl. rewrite lookup_insert_ne by done. split; [done|]. split; try done. intros i k. rewrite Hw. naive_solver.
  - cbn [requeued set_threads x_threads]. rewrite lookup_insert_eq. split; simpl; try done.
    + intros ? [= <-]. exact (T1 T eq_refl).
    + intros i k. rewrite Hw. split.
      * intros [(-> & -> & _)|[_ ?]]; [|done]. eexists. split_and!; [done|done|done|by left].
      * intros (? & [= <-] & -> & Hh & _). left. split_and!; [by eapply home_eq|done|done].
    + rewrite T3. split; intros (? & [= <-] & ?); eauto.
    + rewrite T4. split; intros (? & [= <-] & ?); eauto.
    + rewrite T5. split; intros (? & [= <-] & ?); eauto.
    + intros ? i [= <-]. exact (T6 T i eq_refl).
    + intros i k. rewrite T7. split; intros (? & [= <-] & ?); eauto.
  - simpl. rewrite (tview_insert x t T) by done. apply Hs.
  - intros i k u Hk. apply Hw in Hk as [(_ & -> & _)|[Hk _]]; [simpl; lia|]. apply (sch_ticket _ _ _ _ Hs) in Hk. simpl. lia.
  - simpl. lia.
Qed.

(** Waiters moved and tickets were spent. *)
Record shifted x x' : Prop := {
  sf_keep : x_futex_key x' = x_futex_key x /\ x_this x' = x_this x /\ x_pool x' = x_pool x /\ x_platform x' = x_platform x /\
    scheme_part x' = scheme_part x /\ x_held x' = x_held x /\ x_current x' = x_current x /\ x_ases x' = x_ases x;
  sf_status t : t_status <$> x_threads x' !! t = t_status <$> x_threads x !! t;
  sf_run t T : x_threads x !! t = Some T -> t_status T <> THREAD_BLOCKED -> x_threads x' !! t = Some T }.

Lemma shifted_refl x : shifted x x.
Proof. by split. Qed.

Lemma shifted_trans x y z : shifted x y -> shifted y z -> shifted x z.
Proof.
  intros [(A1 & A2 & A3 & A4 & A5 & A6 & A7 & A8) K2 K3] [(B1 & B2 & B3 & B4 & B5 & B6 & B7 & B8) L2 L3].
  split; [split_and!; congruence|congruence|]. intros t T HT Hb. by apply L3; [apply K3|].
Qed.

Lemma shifted_relock h x y : shifted (set_held h x) y -> shifted x (set_held (x_held x) y).
Proof. intros [(K1 & K2 & K3 & K4 & K5 & K6 & K7 & K8) S1 S2]. split; [split_and!; [exact K1|exact K2|exact K3|exact K4|exact K5|reflexivity|exact K7|exact K8]|exact S1|exact S2]. Qed.

Lemma parked_blocked v x C D t T : sched_inv v x C D -> x_threads x !! t = Some T -> t_wake_state T = FUTEX_PARKED -> t_status T = THREAD_BLOCKED.
Proof. intros Hs HT Hp. destruct (sch_tid Hs t T HT) as (_ & _ & _ & Hsh). destruct (t_status T); destruct Hsh; congruence. Qed.

Lemma shifted_requeued v x t T bf bt to : sched_inv v x [] [] -> x_threads x !! t = Some T -> t_wake_state T = FUTEX_PARKED ->
  shifted x (requeued x t T bf bt to).
Proof.
  intros Hs HT Hp. pose proof (parked_blocked v x [] [] t T Hs HT Hp) as Hb. split; [done| |]; intros u; simpl.
  - destruct (decide (u = t)) as [->|Hu]; [by rewrite lookup_insert_eq, HT|by rewrite lookup_insert_ne by done].
  - intros U HU Hn. rewrite lookup_insert_ne; [done|]. intros ->. congruence.
Qed.

Lemma inv_shifted v x x' : inv v x -> sched_inv v x' [] [] -> shifted x x' -> inv v x'.
Proof.
  intros Hi Hs [(K1 & K2 & K3 & K4 & K5 & K6 & K7 & K8) S1 S2]. split; [apply Hi|by eapply (pool_frame v v x); [..|apply Hi]|done| |by eapply (scheme_ext v v x); [| | | |apply Hi]].
  intros t T HT. specialize (S1 t). rewrite HT in S1. destruct (x_threads x !! t) as [U|] eqn:HU; [|done].
  simpl in S1. injection S1 as ->. by eapply (inv_alive _ _ _ Hi).
Qed.

(** The waiters of [from] in bucket [bf]. *)
Definition left_in (f : gmap Z (gmap (Z * Z) Z)) (bf from : Z) : nat := size (filter (fun p => p.1.1 = from) (default ∅ (f !! bf))).

Lemma left_requeued f bf bt k t to seq : waiting f bf k t -> to <> k.1 ->
  (left_in (bucket_insert bt (to, seq) t (bucket_delete bf k f)) bf k.1 < left_in f bf k.1)%nat.
Proof.
  intros Hw Hne. assert (Hdel : (size (filter (fun p => p.1.1 = k.1) (delete k (default ∅ (f !! bf)))) < left_in f bf k.1)%nat).
  { assert (Hk : filter (fun p => p.1.1 = k.1) (default ∅ (f !! bf)) !! k = Some t) by (by apply map_lookup_filter_Some).
    rewrite map_filter_delete, map_size_delete_Some by (by eexists). apply size_pos in Hk. unfold left_in. lia. }
  unfold left_in at 1, bucket_insert, bucket_delete. destruct (decide (bt = bf)) as [->|Hb].
  - rewrite !lookup_insert_eq. simpl. by rewrite map_filter_insert_not by (intros ?; exact Hne).
  - rewrite lookup_insert_ne by done. by rewrite lookup_insert_eq.
Qed.

(** [x] with other thread and futex tables. *)
Definition retable x th fu sq : rest := set_threads (fun _ => th) (set_futex (fun _ => fu) (set_futex_seq (fun _ => sq) x)).

Lemma retable_threads x th fu sq f : set_threads f (retable x th fu sq) = retable x (f th) fu sq.
Proof. done. Qed.
Lemma retable_futex x th fu sq f : set_futex f (retable x th fu sq) = retable x th (f fu) sq.
Proof. done. Qed.
Lemma retable_seq x th fu sq f : set_futex_seq f (retable x th fu sq) = retable x th fu (f sq).
Proof. done. Qed.
Lemma retable_same x : x = retable x (x_threads x) (x_futex x) (x_futex_seq x).
Proof. by destruct x. Qed.

Lemma wp_requeue_loop bf bt from to cap Q v fuel : from <> to -> forall x next moved, sched_inv v x [] [] ->
  home (x_futex_key x) from bf -> home (x_futex_key x) to bt -> x_futex_seq x + Z.max 0 (cap - moved) < 2 ^ 64 ->
  (left_in (x_futex x) bf from < fuel)%nat -> (forall n x', sched_inv v x' [] [] -> shifted x x' -> Q n v x') ->
  wp (requeue_loop fuel bf bt from to cap next moved) Q v x.
Proof.
  intros Hne. induction fuel as [|fuel IH]; intros x next moved Hs Hf Ht Hseq Hfuel H; [lia|]. cbn [requeue_loop].
  destruct (Z.leb_spec cap moved) as [|Hcap]; [apply wp_ret, H; [done|apply shifted_refl]|].
  apply wp_bind, wp_get_waiters. pose proof (lower_bound_spec (default ∅ (x_futex x !! bf)) (from, next)) as Hlb.
  destruct (lower_bound _ _) as [[k t]|]; [|apply wp_ret, H; [done|apply shifted_refl]]. destruct Hlb as (Hw & _ & _).
  destruct (Z.eqb_spec k.1 from) as [<-|Hk]; cbn [negb]; [|apply wp_ret, H; [done|apply shifted_refl]].
  destruct (sch_waiter Hs bf k t Hw) as (T & HT & Ek & Hh & [Hp|[]%not_elem_of_nil]).
  apply wp_bind. eapply wp_get_thread; [exact HT|]. rewrite bool_decide_true by done.
  assert (Hreq : forall th, th = <[t := upd_t_wait_key (fun _ => (to, x_futex_seq x)) T]> (x_threads x) ->
    retable x th (bucket_insert bt (to, x_futex_seq x) t (bucket_delete bf k (x_futex x))) (u64 (x_futex_seq x + 1)) = requeued x t T bf bt to).
  { intros th ->. pose proof (sch_seq _ _ _ _ Hs). unfold requeued. by rewrite u64_small, Ek by lia. }
  apply wp_bind. eapply wp_mod_thread; [exact HT|done|]. rewrite (retable_same x) at 1. rewrite retable_threads.
  apply wp_bind, wp_futex_remove; [exact Hw|]. rewrite retable_futex. apply wp_bind, wp_next_seq. rewrite retable_seq. cbn [retable x_futex_seq set_threads set_futex set_futex_seq].
  apply wp_bind. eapply wp_mod_thread; [apply lookup_insert_eq|done|]. rewrite retable_threads. apply wp_bind, wp_get_waiters, wp_bind, wp_asserts.
  { apply bool_decide_eq_true, eq_None_not_Some. intros [u Eu].
    destruct (unticketed v x [] [] bt to u Hs). exact (proj1 (proj1 (waiting_delete (x_futex x) bf k bt (to, x_futex_seq x) u) Eu)). }
  apply wp_bind, wp_insert_waiter, wp_bind. eapply wp_mod_thread; [apply lookup_insert_eq|done|].
  rewrite retable_futex, retable_threads, Hreq by (rewrite !insert_insert_eq; f_equal; destruct T; simpl in *; by subst).
  pose proof (shifted_requeued v x t T bf bt to Hs HT Hp) as Hsh.
  apply IH; [apply sched_requeue; try done; [by rewrite Ek|lia]|done|done|simpl; lia| |].
  - simpl. rewrite Ek. pose proof (left_requeued (x_futex x) bf bt k t to (x_futex_seq x) Hw ltac:(done)). lia.
  - intros n x' Hs' Hx'. apply H; [done|by eapply shifted_trans].
Qed.

(** The locks held while waiters move. *)
Definition buckets (lo hi p : Z) : list lockid :=
  if hi =? lo then [LBucket lo; LProc p] else [LBucket hi; LBucket lo; LProc p].

Lemma wp_lock_buckets lo hi p {A} (k : M A) Q v x : x_held x = [LProc p] -> lo <= hi -> wp k Q v (set_held (buckets lo hi p) x) ->
  wp (_ ← lock (LBucket lo); _ ← when (negb (hi =? lo)) (lock (LBucket hi)); k) Q v x.
Proof.
  intros Hx Hl H. unfold buckets in H. apply wp_bind, wp_lock; [by rewrite Hx|]. rewrite Hx. destruct (Z.eqb_spec hi lo) as [->|Hne]; cbn [negb when].
  - by apply wp_bind, wp_skip.
  - apply wp_bind, wp_lock; [simpl; unfold above; simpl; by rewrite (proj2 (Z.ltb_lt lo hi)) by lia|]. exact H.
Qed.

Lemma wp_unlock_buckets lo hi p {A} (a : A) Q v x : x_held x = buckets lo hi p -> Q a v (set_held [] x) ->
  wp (_ ← when (negb (hi =? lo)) (unlock (LBucket hi)); _ ← unlock (LBucket lo); _ ← umem_proc_unlock p; mret a) Q v x.
Proof.
  intros Hx H. unfold buckets in Hx.
  assert (Hend : forall y, y = set_held [LBucket lo; LProc p] x -> wp (_ ← unlock (LBucket lo); _ ← umem_proc_unlock p; mret a) Q v y).
  { intros y ->. apply wp_bind. eapply wp_unlock_top; [done|by repeat constructor|]. apply wp_bind. eapply wp_unlock_top; [done|constructor|]. by apply wp_ret. }
  apply wp_bind. destruct (Z.eqb_spec hi lo) as [->|Hne]; cbn [negb when].
  - apply wp_skip, Hend. rewrite <- Hx. by destruct x.
  - apply wp_unlock; [rewrite Hx; by left|]. apply Hend. rewrite Hx. cbn [List.remove]. destruct (lockid_eq (LBucket hi) (LBucket hi)); [|done].
    destruct (lockid_eq (LBucket hi) (LBucket lo)); [congruence|]. by destruct (lockid_eq (LBucket hi) (LProc p)).
Qed.

Lemma wp_futex_requeue curr T m from to expected count Q v x : inv v x -> caller v x curr T m -> x_held x = [] ->
  0 <= from < 2 ^ 64 -> 0 <= to < 2 ^ 64 -> x_futex_seq x + 16 < 2 ^ 64 -> (forall rc x', inv v x' -> shifted x x' -> Q rc v x') ->
  wp (futex_sys_requeue curr from to expected count) Q v x.
Proof.
  intros Hi [C1 C2 C3 C4] Hx Hfr Hto Hseq H. pose proof (inv_graph _ _ _ Hi) as Hg. unfold futex_sys_requeue.
  destruct (negb _ || negb _ || _) eqn:Eb; [apply wp_ret, H; [done|apply shifted_refl]|].
  apply orb_false_iff in Eb as [_ Hne%Z.eqb_neq]. apply wp_bind. eapply wp_get_thread; [exact C1|]. set (p := t_proc T) in *.
  apply wp_bind, wp_lock_below; [rewrite Hx; constructor|]. rewrite Hx. apply wp_bind.
  assert (Hok : forall ok : bool, wp (if negb ok then _ ← umem_proc_unlock p; mret SYSERR_INVAL else
      bfrom ← bucket_of from;
      bto ← bucket_of to;
      let lo := if bfrom <? bto then bfrom else bto in
      let hi := if bfrom <? bto then bto else bfrom in
      _ ← lock (LBucket lo);
      _ ← when (negb (hi =? lo)) (lock (LBucket hi));
      word ← load32 from;
      rc ← (if negb (word =? u32 expected) then mret SYSERR_AGAIN
            else
              n ← gets (fun s => size (waiters s bfrom));
              requeue_loop (S n) bfrom bto from to
                (if count <? FUTEX_REQUEUE_BATCH then count else FUTEX_REQUEUE_BATCH) 0 0);
      _ ← when (negb (hi =? lo)) (unlock (LBucket hi));
      _ ← unlock (LBucket lo);
      _ ← umem_proc_unlock p;
      mret rc) Q v (set_held [LProc p] x)).
  { intros []; cbn [negb].
    2:{ apply (wp_unlock_one (LProc p)); [done|]. apply H; [done|apply shifted_refl]. }
    apply wp_bind, wp_bucket, wp_bind, wp_bucket. cbn [x_futex_key set_held]. set (bf := bucket_index _ from). set (bt := bucket_index _ to).
    cbv zeta. set (lo := if bf <? bt then bf else bt). set (hi := if bf <? bt then bt else bf).
    apply (wp_lock_buckets lo hi p); [done|unfold lo, hi; destruct (Z.ltb_spec bf bt); lia|]. set (y := set_held (buckets lo hi p) x).
    replace (set_held _ _) with y by (by destruct x). assert (Hy : inv v y) by (by apply inv_held). pose proof (inv_sched _ _ _ Hy) as Hsy.
    assert (Hend : forall rc y', sched_inv v y' [] [] -> shifted y y' -> Q rc v (set_held [] y')).
    { intros rc y' Hs' Hsh. apply H; [by eapply inv_held, inv_shifted|]. rewrite <- Hx. by eapply shifted_relock. }
    eapply wp_cpu; [exact Hsy|]. intros Hcpu. apply wp_bind, wp_load32; [done|]. apply wp_bind. destruct (negb _).
    - apply wp_ret, wp_unlock_buckets; [done|]. apply Hend; [done|apply shifted_refl].
    - apply wp_bind, wp_gets_pred with (P := fun n => n = size (default ∅ (x_futex y !! bf))); [by intros s <- <-|]. intros n ->.
      apply wp_requeue_loop; [done|done|constructor|constructor| | |].
      + destruct (Z.ltb_spec count FUTEX_REQUEUE_BATCH); unfold FUTEX_REQUEUE_BATCH in *; simpl; lia.
      + unfold left_in. apply Nat.lt_succ_r, map_subseteq_size, map_filter_subseteq.
      + intros rc y' Hs' Hsh. apply wp_unlock_buckets; [by destruct (sf_keep _ _ Hsh) as (_ & _ & _ & _ & _ & -> & _)|by apply Hend]. }
  apply wp_bind. eapply wp_user_range; [apply Hg|apply Hg|exact C3|done|done|lia|]. intros [] _; cbn [negb]; [|by apply wp_ret, Hok].
  eapply wp_user_range; [apply Hg|apply Hg|exact C3|done|done|lia|]. intros ok _. by apply Hok.
Qed.

End Futexes.
