(* ===== verification/LoopSpec.v ===== *)
(** * Specifications of the scheduler loop

    A round takes the head of the processor's queue: it runs, it dies with its
    process, or, if there is none, the processor halts. *)

From S2P Require Import Prelude Buddy Paging Siphash PlatformMem Machine Sched Index Channel Umem Process Capability Irq Syscall Graph Wp Invariant BaseSpec SchedSpec ChannelSpec UmemSpec BlockSpec MoveSpec ThreadSpec ProcessSpec LifeSpec CallSpec RunSpec.

Section Loop.
Context {PT : PageTree} {SC : Schemes} {SS : SchemesSafe}.
Implicit Types (v w : gview) (x : rest).

(** The processor at hand runs no thread. *)
Definition idle x : Prop := x_current x !! x_this x = Some None.

Lemma wp_pop cpu q Q v x : x_queues x !! Z.to_nat cpu = Some q ->
  Q (head q) v (set_queues (insert (Z.to_nat cpu) (tail q)) x) -> wp (scheduler_pop_local_locked cpu) Q v x.
Proof.
  intros Hq H. apply wp_bind, wp_get_cpu; [by eapply lookup_lt_Some|]. intros c [Ec _ _ _]. rewrite Hq in Ec. injection Ec as <-.
  destruct q as [|t q]; simpl in *.
  - apply wp_ret. unfold set_queues in H. rewrite list_insert_id in H by done. by destruct x.
  - apply wp_bind. eapply wp_c_queue; [exact Hq|]. by apply wp_ret.
Qed.

(** The head of the queue becomes [T'], on the processor if [run]. *)
Definition taken x (t : Z) (T' : thread) (q : list Z) (run : bool) : rest :=
  let y := set_threads (insert t T') (set_queues (insert (x_this x) q) x) in
  if run then set_ases (insert (x_this x) (Some (t_proc T'))) (set_current (insert (x_this x) (Some t)) y) else y.

Lemma taken_keeps x t T' q run : let y := taken x t T' q run in
  x_threads y = <[t := T']> (x_threads x) /\ x_futex y = x_futex x /\ x_futex_key y = x_futex_key x /\ x_futex_seq y = x_futex_seq x /\
  x_queues y = <[x_this x := q]> (x_queues x) /\ x_deadlines y = x_deadlines x /\ x_this y = x_this x /\ x_pool y = x_pool x /\
  x_platform y = x_platform x /\ scheme_part y = scheme_part x /\ x_held y = x_held x /\
  x_current y = (if run then <[x_this x := Some t]> (x_current x) else x_current x) /\
  x_ases y = (if run then <[x_this x := Some (t_proc T')]> (x_ases x) else x_ases x).
Proof. unfold taken. by destruct run. Qed.

Lemma head_runnable v x C D i t q : sched_inv v x C D -> x_queues x !! i = Some (t :: q) -> exists T, x_threads x !! t = Some T /\
  t_status T = THREAD_RUNNABLE /\ t_tid T = t /\ t_wake_state T = FUTEX_IDLE /\ t_deadline T = 0 /\ 0 <= t_deadline_cpu T.
Proof.
  intros Hs Hq. destruct (proj1 (th_queue _ _ _ _ _ (sch_thread _ _ _ _ Hs t))) as (T & HT & Hr); [rewrite (join_pop _ _ _ _ Hq); by left|].
  destruct (sch_tid Hs t T HT) as (Et & Hdl & Hc & Hsh). rewrite Hr in Hsh. destruct Hsh as [Ho Hw]. exists T. split_and!; try done.
  destruct (decide (t_deadline T = 0)); [done|]. destruct (Hdl ltac:(done)); congruence.
Qed.

Lemma taken_turns v x t T T' q (run : bool) : sched_inv v x [] [] -> columns_ok x -> idle x -> x_queues x !! x_this x = Some (t :: q) -> x_threads x !! t = Some T ->
  t_status T = THREAD_RUNNABLE -> t_status T' = (if run then THREAD_RUNNING else THREAD_DEAD) -> turns x t T' (taken x t T' q run).
Proof.
  intros Hs (L1 & L2 & _) Hid Hq HT Hr Est. pose proof (sch_seq _ _ _ _ Hs) as Hseq. pose proof (sch_this _ _ _ _ Hs) as Hlt.
  destruct (taken_keeps x t T' q run) as (E1 & E2 & E3 & E4 & E5 & E6 & E7 & _ & _ & _ & _ & E8 & E9).
  pose proof (join_pop _ _ _ _ Hq) as Hp. assert (Hnd : NoDup (t :: mjoin (<[x_this x := q]> (x_queues x)))) by (rewrite <- Hp; apply Hs).
  apply NoDup_cons in Hnd as [Hn1 Hn2].
  assert (Hno : forall i, ~ running (x_current x) t i).
  { intros i Hi. destruct (proj1 (th_run _ _ _ _ _ (sch_thread _ _ _ _ Hs t))) as (U & HU & ?); [by exists i|]. rewrite HT in HU. congruence. }
  assert (Hcur : forall u i, running (x_current (taken x t T' q run)) u i <-> running (x_current x) u i \/ (run = true /\ i = x_this x /\ u = t)).
  { intros u i. unfold running. rewrite E8. destruct run; [|naive_solver]. destruct (decide (i = x_this x)) as [->|Hi].
    - rewrite list_lookup_insert_eq by lia. unfold idle in Hid. rewrite Hid. naive_solver.
    - rewrite list_lookup_insert_ne by done. naive_solver. }
  split.
  - done.
  - by rewrite E2.
  - split_and!; first [done|lia].
  - intros u Hu. rewrite E5, Hp, elem_of_cons. naive_solver.
  - rewrite E5, Est. split; [done|]. by destruct run.
  - by rewrite E5.
  - by rewrite E5, length_insert.
  - intros u i Hu. rewrite Hcur. naive_solver.
  - rewrite Est. setoid_rewrite Hcur. split.
    + intros (i & [?%Hno|(-> & _)]); done.
    + destruct run; [|done]. intros _. exists (x_this x). by right.
  - intros i j. rewrite !Hcur. intros [?%Hno|(_ & -> & _)] [?%Hno|(_ & -> & _)]; done.
  - intros u i Hu Hi. rewrite E9. destruct run; [|done]. apply list_lookup_insert_ne. intros <-. unfold idle, running in *. congruence.
  - intros i. rewrite Hcur, E9. intros [?%Hno|(-> & -> & _)]; [done|]. apply list_lookup_insert_eq. lia.
Qed.

Definition dispatched (T : thread) : thread := upd_t_on_cpu (fun _ => true) (upd_t_status (fun _ => THREAD_RUNNING) T).

Lemma inv_dispatched v x t T q : inv v x -> columns_ok x -> idle x -> x_queues x !! x_this x = Some (t :: q) -> x_threads x !! t = Some T ->
  is_Some (v_map v (t_proc T)) -> inv v (taken x t (dispatched T) q true).
Proof.
  intros Hi Hc Hid Hq HT Hm. pose proof (inv_sched _ _ _ Hi) as Hs. destruct (head_runnable v x [] [] _ t q Hs Hq) as (U & HU & R1 & R2 & R3 & R4 & R5).
  rewrite HT in HU. injection HU as <-. destruct (taken_keeps x t (dispatched T) q true) as (E1 & _ & _ & _ & _ & _ & _ & E2 & E3 & E4 & _ & _ & E5).
  split; [apply Hi|by eapply (pool_frame v v x); [..|apply Hi]| | |by eapply (scheme_ext v v x); [| | | |apply Hi]].
  - eapply (sched_turn v x _ t T (dispatched T)); [done|done|congruence|done|done| |done|done|by eapply taken_turns|].
    + unfold shape. simpl. split_and!; [by intros []|done..].
    + intros i p. rewrite E5. intros [(_ & [= <-] & _)|[_ Hp]]%list_lookup_insert_Some; [done|by apply Hs in Hp].
  - intros u V HV. rewrite E1 in HV. apply lookup_insert_Some in HV as [[<- <-]|[_ HV]]; [done|by eapply (inv_alive _ _ _ Hi)].
Qed.

Lemma dying_taken v x t T q : inv v x -> columns_ok x -> idle x -> x_queues x !! x_this x = Some (t :: q) -> x_threads x !! t = Some T ->
  dying t v (taken x t (upd_t_status (fun _ => THREAD_DEAD) T) q false).
Proof.
  intros Hi Hc Hid Hq HT. pose proof (inv_sched _ _ _ Hi) as Hs. destruct (head_runnable v x [] [] _ t q Hs Hq) as (U & HU & R1 & R2 & R3 & R4 & R5).
  rewrite HT in HU. injection HU as <-. destruct (sch_tid Hs t T HT) as (_ & _ & _ & Hsh). rewrite R1 in Hsh.
  set (T' := upd_t_status _ T). destruct (taken_keeps x t T' q false) as (E1 & _ & _ & _ & _ & _ & _ & E2 & E3 & E4 & _ & _ & E5).
  split; [apply Hi|by eapply (pool_frame v v x); [..|apply Hi]| | |by eapply (scheme_ext v v x); [| | | |apply Hi]|].
  - eapply (sched_turn v x _ t T T'); [done|done|congruence|done|done| |done|done|by eapply taken_turns|].
    + unfold shape. simpl. split_and!; [by intros []|done|apply Hsh|done].
    + rewrite E5. apply Hs.
  - intros u V HV Hu. rewrite E1, lookup_insert_ne in HV by done. by eapply (inv_alive _ _ _ Hi).
  - rewrite E1, lookup_insert_eq. by eexists.
Qed.

Lemma inv_idle v x : inv v x -> idle x -> inv v (set_ases (insert (x_this x) None) x).
Proof.
  intros Hi Hid. pose proof (inv_sched _ _ _ Hi) as [S1 S2 S3 S4 S5 S6 S7 S8 S9 S10].
  split; [apply Hi|by eapply (pool_frame v v x); [..|apply Hi]| |apply Hi|by eapply (scheme_ext v v x); [| | | |apply Hi]].
  split; try done; simpl.
  - intros t. eapply thread_ok_agree; [|apply S2]. split; try done. intros i Hr. simpl. apply list_lookup_insert_ne. intros <-.
    unfold idle, running in *. congruence.
  - intros i p [(_ & ? & _)|[_ Hp]]%list_lookup_insert_Some; [done|by eapply S7].
Qed.

Lemma wp_timer_dispatch quantum Q v x : (x_this x < length (x_queues x))%nat -> held_below 5 (x_held x) -> Q tt v x -> wp (timer_cpu_dispatch quantum) Q v x.
Proof.
  intros Ht Hh H. assert (Hlt : (Z.to_nat (Z.of_nat (x_this x)) < length (x_queues x))%nat) by (by rewrite Nat2Z.id).
  apply wp_bind, wp_this_cpu, wp_bind, wp_lock_below; [done|]. apply wp_bind, wp_now. intros now. apply wp_bind, wp_c_quantum_deadline_ns; [done|].
  apply wp_bind, wp_program; [done|]. eapply wp_unlock_top; [done|done|]. by destruct x.
Qed.

Lemma wp_timer_idle Q v x : (x_this x < length (x_queues x))%nat -> held_below 5 (x_held x) -> Q tt v x -> wp timer_cpu_idle Q v x.
Proof.
  intros Ht Hh H. assert (Hlt : (Z.to_nat (Z.of_nat (x_this x)) < length (x_queues x))%nat) by (by rewrite Nat2Z.id).
  apply wp_bind, wp_this_cpu, wp_bind, wp_lock_below; [done|]. apply wp_bind, wp_c_quantum_deadline_ns; [done|]. apply wp_bind, wp_now. intros now.
  apply wp_bind, wp_program; [done|]. eapply wp_unlock_top; [done|done|]. by destruct x.
Qed.

(** The processor of [x] gets the address space of [p]. *)
Definition on_as x (p : option Z) : rest := set_ases (insert (x_this x) p) x.

Lemma wp_switch p Q v x : columns_ok x -> (x_this x < length (x_queues x))%nat -> (forall q, p = Some q -> live v q /\ is_Some (v_map v q)) ->
  Q tt v (on_as x p) -> wp (as_switch p) Q v x.
Proof.
  intros (_ & L & _) Hlt Hp H. destruct (lookup_lt_is_Some_2 (x_ases x) (x_this x)) as [a Ha]; [by rewrite L|].
  assert (Hend : wp (cpu ← this_cpu; mod_cpu cpu (upd_c_current_as (fun _ => p))) Q v x).
  { apply wp_bind, wp_this_cpu. eapply wp_c_current_as; [by rewrite Nat2Z.id|]. by rewrite Nat2Z.id. }
  apply wp_bind. destruct p as [q|]; [|by apply wp_skip]. destruct (Hp q eq_refl) as [Hl [m Hm]]. apply wp_bind.
  eapply wp_get_proc; [exact Hl|]. intros oa Hoa. apply wp_asserts; [|done]. destruct Hoa as [Hoa _]. rewrite Hm in Hoa.
  destruct oa; [|done]. apply bool_decide_eq_true. by eexists.
Qed.

Lemma wp_install t T Q v x : columns_ok x -> (x_this x < length (x_queues x))%nat -> x_threads x !! t = Some T -> live v (t_proc T) ->
  is_Some (v_map v (t_proc T)) -> Q tt v (on_as x (Some (t_proc T))) -> wp (arch_thread_install t) Q v x.
Proof.
  intros Hc Hlt HT Hl Hm H. assert (Hlt' : (Z.to_nat (Z.of_nat (x_this x)) < length (x_queues x))%nat) by (by rewrite Nat2Z.id).
  apply wp_bind. eapply wp_get_thread; [exact HT|]. apply wp_bind. eapply wp_get_proc; [exact Hl|]. intros oa Hoa.
  apply wp_bind, wp_this_cpu, wp_bind, wp_get_cpu; [done|]. intros c [_ _ Ea _]. rewrite Nat2Z.id in Ea. destruct (_ && _) eqn:E.
  - apply andb_true_iff in E as [_ E%bool_decide_eq_true]. apply wp_skip. unfold on_as, set_ases in H. rewrite E in Ea. rewrite list_insert_id in H by done.
    by destruct x.
  - apply wp_switch; [done|done| |done]. by intros q [= <-].
Qed.

Lemma dispatched_state x t T q l : x_held x = [] ->
  set_held [] (on_as (set_current (insert (x_this x) (Some t)) (set_threads (insert t (dispatched T))
    (set_threads (insert t (upd_t_status (fun _ => THREAD_RUNNING) T)) (set_queues (insert (x_this x) q) (set_held [l] x))))) (Some (t_proc T))) =
  taken x t (dispatched T) q true.
Proof. intros Hx. destruct x as [x1 x2 x3 x4 x5 x6 x7 x8 x9 x10 x11 x12 x13 x14 x15 x16 x17 x18 x19 x20]. simpl in Hx. subst.
  cbv [taken on_as set_held set_ases set_current set_threads set_queues x_threads x_futex x_futex_key x_futex_seq x_queues x_current x_ases x_deadlines
    x_this x_pool x_platform x_mem x_grants x_next_grant x_boot_key x_ioapic x_iommu x_routes x_claims x_held]. by rewrite insert_insert_eq.
 Qed.

Definition after_round (r : round) v x : Prop :=
  match r with NextRound | Halted => idle x | Switched t => exists T, on_cpu v x t T end.

(** The round took the oldest thread of the processor's queue, if there is one. *)
Definition picked (q : list Z) v x (r : round) : Prop :=
  match q with
  | [] => r = Halted
  | t :: _ => exists T, x_threads x !! t = Some T /\ (eff_dead v (t_proc T) -> r = NextRound) /\ (~ eff_dead v (t_proc T) -> r = Switched t)
  end.

Lemma wp_scheduler_top q Q v x : inv v x -> x_held x = [] -> idle x -> x_queues x !! x_this x = Some q ->
  (forall r v' x', settled v' x' -> after_round r v' x' -> picked q v x r -> Q r v' x') -> wp scheduler_top Q v x.
Proof.
  intros Hi Hx Hid Hq H. pose proof (inv_sched _ _ _ Hi) as Hs. pose proof (inv_graph _ _ _ Hi) as Hg. pose proof (sch_this _ _ _ _ Hs) as Hlt.
  apply wp_columns. intros Hcol. unfold scheduler_top. apply wp_bind, wp_this_cpu. set (cpu := Z.of_nat (x_this x)).
  assert (Hcpu : Z.to_nat cpu = x_this x) by apply Nat2Z.id. apply wp_bind, wp_lock_below; [rewrite Hx; constructor|]. rewrite Hx.
  apply wp_bind. eapply wp_pop; [simpl; by rewrite Hcpu|]. rewrite Hcpu.
  destruct q as [|t q]; cbn [head tail].
  - replace (set_queues _ _) with (set_held [LSched cpu] x) by (unfold set_queues, set_held; simpl; by rewrite list_insert_id).
    apply wp_bind, wp_c_idle; [by rewrite Hcpu|]. apply wp_bind. eapply wp_unlock_top; [done|constructor|]. rewrite <- Hx.
    replace (set_held _ _) with x by (by destruct x). apply wp_bind, wp_get_cpu; [by rewrite Hcpu|]. intros c [_ _ Ea _]. rewrite Hcpu in Ea.
    assert (Hend : forall y, inv v y -> x_held y = [] -> idle y -> wp (_ ← timer_cpu_idle; _ ← emit EvHlt; mret Halted) Q v y).
    { intros y Hy Eh Eid. apply wp_bind, wp_timer_idle; [apply Hy|rewrite Eh; constructor|]. apply wp_bind, wp_emit, wp_ret, H; [by split|exact Eid|done]. }
    apply wp_bind, wp_when; intros _; [|by apply Hend]. apply wp_switch; [done|done|done|]. apply Hend; [by apply inv_idle|done|done].
  - destruct (head_runnable v x [] [] _ t q Hs Hq) as (T & HT & R1 & R2 & R3 & R4 & R5).
    assert (Ht : v_threads v !! t = Some (tview T)) by (by rewrite (sch_view _ _ _ _ Hs), lookup_fmap, HT).
    destruct (thr_as v (inv_thr v Hg) t (t_proc T) (t_completion_block T) Ht) as [Hm _].
    assert (Hl : live v (t_proc T)) by (destruct Hm as [m Hm]; by eapply inv_live).
    apply wp_bind. eapply wp_get_thread; [exact HT|]. apply wp_bind, wp_is_dead; [apply Hg|apply Hg|done|]. intros [] Hdead.
    + apply wp_bind. eapply wp_mod_thread; [exact HT|done|]. apply wp_bind. eapply wp_unlock_top; [done|constructor|].
      pose proof (dying_taken v x t T q Hi Hcol Hid Hq HT) as Hd. set (y := taken x t _ q false) in *.
      replace (set_held [] _) with y by (unfold y, taken; rewrite <- Hx; by destruct x).
      apply wp_bind, wp_exited; [done|done|]. intros v' x' Hi' He. destruct (en_keep _ _ _ He) as (E1 & E2 & _ & E3 & _). apply wp_ret, H; [split; [done|]| |].
      * by rewrite E2.
      * simpl. unfold idle. by rewrite E1, E3.
      * exists T. split_and!; [done|done|]. intros Hn. exfalso. by apply Hn, Hdead.
    + apply wp_bind. eapply wp_mod_thread; [exact HT|done|]. apply wp_bind. eapply wp_mod_thread; [apply lookup_insert_eq|done|].
      apply wp_bind. eapply wp_c_current_thread; [simpl; rewrite Hcpu; exact Hid|]. rewrite Hcpu. apply wp_bind.
      eapply (wp_install t (dispatched T)); [destruct Hcol as (L1 & L2 & L3); unfold columns_ok; simpl; by rewrite !length_insert|simpl; by rewrite length_insert| |done|done|].
      { simpl. by rewrite insert_insert_eq, lookup_insert_eq. }
      apply wp_bind. eapply wp_unlock_top; [done|constructor|]. pose proof (inv_dispatched v x t T q Hi Hcol Hid Hq HT Hm) as Hy.
      rewrite <- (dispatched_state x t T q (LSched cpu) Hx) in Hy.
      apply wp_bind, wp_timer_dispatch; [apply Hy|constructor|]. apply wp_ret, H; [by split| |].
      2:{ exists T. split_and!; [done| |done]. intros Hd. by apply Hdead in Hd. }
      exists (dispatched T). destruct Hcol as (L1 & _). split; simpl; [|by apply lookup_insert_eq|done]. apply list_lookup_insert_eq. by rewrite L1.
Qed.

Lemma wp_scheduler_wake Q v x : (x_this x < length (x_queues x))%nat -> Q tt v x -> wp scheduler_wake Q v x.
Proof. intros Hlt H. apply wp_bind, wp_this_cpu, wp_c_idle; [by rewrite Nat2Z.id|done]. Qed.

End Loop.
