(* ===== verification/GrantSpec.v ===== *)
(** * The forest of capability grants

    The links of the grants make a forest, every child is an attenuation of its
    parent, and the operations of [capability.c] keep it so. *)

From S2P Require Import Prelude Buddy Paging Siphash PlatformMem Machine Sched Index Channel Umem Process Capability Irq Syscall Graph Wp Invariant BaseSpec SchedSpec ChannelSpec UmemSpec BlockSpec MoveSpec ThreadSpec ProcessSpec LifeSpec CallSpec RunSpec.

(** ** The forest *)

Module Forest.

(** The payload fits the type and its fields fit their width. *)
Definition payload_ok (G : grant) : Prop :=
  match g_payload G with
  | GDevmem b l f => g_type G = KCAP_GRANT_DEVMEM /\ 0 <= b < 2 ^ 64 /\ 0 <= l < 2 ^ 64 /\ 0 <= f < 2 ^ 32
  | GIrq r _ => g_type G = KCAP_GRANT_IRQ_ROUTE /\ forall i, r = Some i -> 0 <= i < IRQ_ROUTE_COUNT
  | GIommu q => g_type G = KCAP_GRANT_IOMMU_DEV /\ 0 <= q < 2 ^ 32
  end.

(** [a] names no more than [b]. *)
Definition narrower (a b : grant_payload) : Prop :=
  match a, b with
  | GDevmem base len flags, GDevmem base' len' flags' => base' <= base /\ base + len <= base' + len' /\ Z.ldiff flags flags' = 0
  | GIrq r i, GIrq r' i' => r = r' /\ i = i'
  | GIommu q, GIommu q' => q = q'
  | _, _ => False
  end.

(** The links agree.  [fresh] is a grant whose payload is not set yet. *)
Record forest (m : gmap Z grant) (next : Z) (fresh : option Z) : Prop := {
  fo_id g G : m !! g = Some G -> g_id G = g /\ 0 < g < 2 ^ 64 /\ (next = 0 \/ g < next);
  fo_next : 0 <= next < 2 ^ 64;
  fo_depth g G : m !! g = Some G -> 0 <= g_depth G <= KCAP_MAX_DEPTH;
  fo_payload g G : m !! g = Some G -> payload_ok G;
  fo_parent g G p : m !! g = Some G -> g_parent G = Some p -> exists P, m !! p = Some P /\ g_depth G = g_depth P + 1 /\ g_type G = g_type P;
  fo_root g G : m !! g = Some G -> g_parent G = None -> g_prev_sibling G = None /\ g_next_sibling G = None;
  fo_first p P c : m !! p = Some P -> g_first_child P = Some c -> exists C, m !! c = Some C /\ g_parent C = Some p /\ g_prev_sibling C = None;
  fo_right g G n : m !! g = Some G -> g_next_sibling G = Some n ->
    exists N, m !! n = Some N /\ g_prev_sibling N = Some g /\ g_parent N = g_parent G /\ n < g;
  fo_left g G q : m !! g = Some G -> g_prev_sibling G = Some q -> exists L, m !! q = Some L /\ g_next_sibling L = Some g;
  fo_head g G p : m !! g = Some G -> g_parent G = Some p -> g_prev_sibling G = None -> exists P, m !! p = Some P /\ g_first_child P = Some g;
  fo_wild g G p : m !! g = Some G -> g_parent G = Some p -> g_wildcard G = false;
  fo_within g G p P : m !! g = Some G -> g_parent G = Some p -> m !! p = Some P -> fresh <> Some g ->
    g_wildcard P = true \/ narrower (g_payload G) (g_payload P) }.

Lemma forest_empty : forest ∅ 1 None.
Proof. split; try lia; intros * H; by rewrite lookup_empty in H. Qed.

Section Facts.
Context {m : gmap Z grant} {next : Z} {fresh : option Z} (Hf : forest m next fresh).

(** A grant with a child has a first one. *)
Lemma has_first g G p : m !! g = Some G -> g_parent G = Some p -> exists P c, m !! p = Some P /\ g_first_child P = Some c.
Proof.
  revert G. induction g as [g IH] using (well_founded_induction (Z.gt_wf (2 ^ 64))). intros G HG Hp.
  destruct (g_prev_sibling G) as [q|] eqn:Eq.
  - destruct (fo_left _ _ _ Hf g G q HG Eq) as (L & HL & EL). destruct (fo_right _ _ _ Hf q L g HL EL) as (N & HN & _ & EN & Hlt).
    rewrite HG in HN. injection HN as <-. destruct (fo_id _ _ _ Hf q L HL) as (_ & ? & _). eapply (IH q); [lia|done|congruence].
  - destruct (fo_head _ _ _ Hf g G p HG Hp Eq) as (P & HP & EP). eauto.
Qed.

Lemma leaf_childless g G c C : m !! g = Some G -> g_first_child G = None -> m !! c = Some C -> g_parent C <> Some g.
Proof. intros HG Hl HC Hp. destruct (has_first c C g HC Hp) as (P & d & HP & Hd). congruence. Qed.

End Facts.

(** ** A new grant *)

(** [g] becomes the left sibling of [next] and the first child of [parent]. *)
Definition touched (next parent : option Z) (g u : Z) (U : grant) : grant :=
  let U := if decide (next = Some u) then upd_g_prev_sibling (fun _ => Some g) U else U in
  if decide (parent = Some u) then upd_g_first_child (fun _ => Some g) U else U.

Definition grown (m : gmap Z grant) (g : Z) (N : grant) : gmap Z grant :=
  let m := <[g := N]> m in
  let m := match g_next_sibling N with None => m | Some n => alter (upd_g_prev_sibling (fun _ => Some g)) n m end in
  match g_parent N with None => m | Some p => alter (upd_g_first_child (fun _ => Some g)) p m end.

Lemma lookup_grown m g N u : g_next_sibling N <> Some g -> g_parent N <> Some g ->
  grown m g N !! u = if decide (u = g) then Some N else touched (g_next_sibling N) (g_parent N) g u <$> m !! u.
Proof.
  intros Hn Hp. unfold grown.
  assert (H1 : forall o f (m : gmap Z grant) u, match o with None => m | Some n => alter f n m end !! u = (if decide (o = Some u) then f else id) <$> m !! u).
  { intros o f m' u'. destruct o as [n|]; [|by rewrite option_fmap_id]. destruct (decide (n = u')) as [->|Hne].
    - rewrite lookup_alter_eq. by rewrite decide_True.
    - rewrite lookup_alter_ne by done. rewrite decide_False by congruence. by rewrite option_fmap_id. }
  rewrite !H1. destruct (decide (u = g)) as [->|Hu].
  - rewrite lookup_insert_eq. by rewrite !decide_False by done.
  - rewrite lookup_insert_ne by done. unfold touched. destruct (m !! u); simpl; [|done]. f_equal. by repeat case_decide.
Qed.

Lemma touched_fields next parent g u U : let U' := touched next parent g u U in
  g_id U' = g_id U /\ g_type U' = g_type U /\ g_depth U' = g_depth U /\ g_wildcard U' = g_wildcard U /\ g_payload U' = g_payload U /\
  g_parent U' = g_parent U /\ g_next_sibling U' = g_next_sibling U /\ g_dead U' = g_dead U /\
  g_prev_sibling U' = (if decide (next = Some u) then Some g else g_prev_sibling U) /\
  g_first_child U' = (if decide (parent = Some u) then Some g else g_first_child U).
Proof. unfold touched. by repeat case_decide. Qed.

(** What makes [N] a proper newcomer under the id [g]. *)
Record newcomer (m : gmap Z grant) (g : Z) (N : grant) : Prop := {
  nc_id : g_id N = g;
  nc_payload : payload_ok N;
  nc_links : g_first_child N = None /\ g_prev_sibling N = None;
  nc_root : g_parent N = None -> g_next_sibling N = None /\ g_depth N = 0;
  nc_child p : g_parent N = Some p -> exists P, m !! p = Some P /\ g_depth N = g_depth P + 1 /\ g_depth P < KCAP_MAX_DEPTH /\
    g_type N = g_type P /\ g_next_sibling N = g_first_child P /\ g_wildcard N = false }.

Section Grown.
Context (m : gmap Z grant) (g : Z) (N : grant) (Hf : forest m g None) (Hg : g <> 0) (Hn : newcomer m g N).

Lemma grown_old u U : m !! u = Some U -> u < g.
Proof. intros HU. destruct (fo_id _ _ _ Hf u U HU) as (_ & ? & [|]); lia. Qed.

Lemma grown_next n : g_next_sibling N = Some n -> exists p P C, g_parent N = Some p /\ m !! p = Some P /\ g_first_child P = Some n /\
  m !! n = Some C /\ g_parent C = Some p /\ g_prev_sibling C = None.
Proof.
  intros En. destruct (g_parent N) as [p|] eqn:Ep; [|destruct (nc_root _ _ _ Hn Ep); congruence].
  destruct (nc_child _ _ _ Hn p Ep) as (P & HP & _ & _ & _ & E & _). rewrite En in E.
  destruct (fo_first _ _ _ Hf p P n HP (eq_sym E)) as (C & ? & ? & ?). by exists p, P, C.
Qed.

Lemma grown_lookup u : grown m g N !! u = if decide (u = g) then Some N else touched (g_next_sibling N) (g_parent N) g u <$> m !! u.
Proof.
  apply lookup_grown.
  - intros (_ & _ & C & _ & _ & _ & HC%grown_old & _)%grown_next. lia.
  - intros Hp. destruct (nc_child _ _ _ Hn g Hp) as (P & HP%grown_old & _). lia.
Qed.

Lemma grown_inv u U : grown m g N !! u = Some U ->
  (u = g /\ U = N) \/ exists W, u < g /\ m !! u = Some W /\ U = touched (g_next_sibling N) (g_parent N) g u W.
Proof.
  rewrite grown_lookup. case_decide; [intros [= <-]; by left|]. intros (W & HW & ->)%fmap_Some. right. exists W. split_and!; [by eapply grown_old|done..].
Qed.

Lemma grown_fwd u U : m !! u = Some U -> grown m g N !! u = Some (touched (g_next_sibling N) (g_parent N) g u U).
Proof. intros HU. rewrite grown_lookup, decide_False by (pose proof (grown_old u U HU); lia). by rewrite HU. Qed.

Lemma grown_new : grown m g N !! g = Some N.
Proof. by rewrite grown_lookup, decide_True. Qed.

Lemma grown_values u U : grown m g N !! u = Some U -> (g_id U = u /\ 0 < u < 2 ^ 64 /\ (u64 (g + 1) = 0 \/ u < u64 (g + 1))) /\
  0 <= g_depth U <= KCAP_MAX_DEPTH /\ payload_ok U /\ (forall p, g_parent U = Some p -> g_wildcard U = false).
Proof.
  pose proof (fo_next _ _ _ Hf) as Hgb. assert (Hgs : u64 (g + 1) = 0 \/ u64 (g + 1) = g + 1).
  { destruct (decide (g + 1 = 2 ^ 64)) as [->|]; [by left|right]. apply u64_small. lia. }
  intros [[-> ->]|(W & Hlt & HW & ->)]%grown_inv.
  - split; [split; [apply Hn|lia]|]. split; [|split; [apply Hn|]].
    + destruct (g_parent N) as [p|] eqn:Ep; [|destruct (nc_root _ _ _ Hn Ep) as [_ ->]; done]. destruct (nc_child _ _ _ Hn p Ep) as (P & HP & E1 & E2 & _).
      pose proof (fo_depth _ _ _ Hf p P HP). lia.
    + intros p Hp. by destruct (nc_child _ _ _ Hn p Hp) as (P & _ & _ & _ & _ & _ & ?).
  - destruct (touched_fields (g_next_sibling N) (g_parent N) g u W) as (T1 & T2 & T3 & T4 & T5 & T6 & _).
    destruct (fo_id _ _ _ Hf u W HW) as (? & ? & ?). split; [split; [congruence|lia]|]. split; [rewrite T3; by apply (fo_depth _ _ _ Hf u)|]. split.
    + unfold payload_ok. rewrite T5, T2. by apply (fo_payload _ _ _ Hf u).
    + intros p. rewrite T6, T4. by apply (fo_wild _ _ _ Hf u).
Qed.

Lemma grown_links u U : grown m g N !! u = Some U ->
  (forall p, g_parent U = Some p -> exists P, grown m g N !! p = Some P /\ g_depth U = g_depth P + 1 /\ g_type U = g_type P) /\
  (g_parent U = None -> g_prev_sibling U = None /\ g_next_sibling U = None) /\
  (forall p, g_parent U = Some p -> g_prev_sibling U = None -> exists P, grown m g N !! p = Some P /\ g_first_child P = Some u).
Proof.
  pose proof (touched_fields (g_next_sibling N) (g_parent N) g) as Ht. cbv zeta in Ht.
  intros [[-> ->]|(W & Hlt & HW & ->)]%grown_inv.
  - split; [|split].
    + intros p Hp. destruct (nc_child _ _ _ Hn p Hp) as (P & HP & E1 & E2 & E3 & _). eexists. split; [by apply grown_fwd|].
      destruct (Ht p P) as (_ & -> & -> & _). done.
    + intros Hp. split; [apply Hn|by apply (nc_root _ _ _ Hn)].
    + intros p Hp _. destruct (nc_child _ _ _ Hn p Hp) as (P & HP & _). eexists. split; [by apply grown_fwd|].
      destruct (Ht p P) as (_ & _ & _ & _ & _ & _ & _ & _ & _ & ->). by rewrite decide_True.
  - destruct (Ht u W) as (_ & T2 & T3 & _ & _ & T6 & T7 & _ & T9 & _). rewrite T2, T3, T6, T7, T9. split; [|split].
    + intros p Hp. destruct (fo_parent _ _ _ Hf u W p HW Hp) as (P & HP & E1 & E2). eexists. split; [by apply grown_fwd|].
      destruct (Ht p P) as (_ & -> & -> & _). done.
    + intros Hp. destruct (fo_root _ _ _ Hf u W HW Hp) as [-> ->]. split; [|done]. case_decide as Hd; [|done].
      destruct (grown_next u Hd) as (p & P & C & _ & _ & _ & HC & EC & _). congruence.
    + intros p Hp. case_decide as Hd; [done|]. intros Hq. destruct (fo_head _ _ _ Hf u W p HW Hp Hq) as (P & HP & E). eexists. split; [by apply grown_fwd|].
      destruct (Ht p P) as (_ & _ & _ & _ & _ & _ & _ & _ & _ & ->). case_decide as Hd'; [|done].
      destruct (nc_child _ _ _ Hn p Hd') as (P' & HP' & _ & _ & _ & E' & _). congruence.
Qed.

Lemma grown_siblings u U : grown m g N !! u = Some U ->
  (forall c, g_first_child U = Some c -> exists C, grown m g N !! c = Some C /\ g_parent C = Some u /\ g_prev_sibling C = None) /\
  (forall n, g_next_sibling U = Some n -> exists R, grown m g N !! n = Some R /\ g_prev_sibling R = Some u /\ g_parent R = g_parent U /\ n < u) /\
  (forall q, g_prev_sibling U = Some q -> exists L, grown m g N !! q = Some L /\ g_next_sibling L = Some u).
Proof.
  pose proof (touched_fields (g_next_sibling N) (g_parent N) g) as Ht. cbv zeta in Ht. destruct (nc_links _ _ _ Hn) as [L1 L2].
  intros [[-> ->]|(W & Hlt & HW & ->)]%grown_inv.
  - split; [congruence|split; [|congruence]]. intros n E. destruct (grown_next n E) as (p & P & C & E1 & HP & E2 & HC & E3 & E4).
    eexists. split; [by apply grown_fwd|]. destruct (Ht n C) as (_ & _ & _ & _ & _ & -> & _ & _ & -> & _). rewrite decide_True by done.
    split_and!; [done|congruence|by eapply grown_old].
  - destruct (Ht u W) as (_ & _ & _ & _ & _ & T6 & T7 & _ & T9 & T10). rewrite T6, T7, T9, T10. clear T6 T7 T9 T10. split; [|split].
    + intros c. case_decide as Hd.
      * intros [= <-]. exists N. by rewrite grown_new.
      * intros E. destruct (fo_first _ _ _ Hf u W c HW E) as (C & HC & E1 & E2). eexists. split; [by apply grown_fwd|].
        destruct (Ht c C) as (_ & _ & _ & _ & _ & -> & _ & _ & -> & _). case_decide as Hd'; [|done].
        destruct (grown_next c Hd') as (p & P & C' & E3 & _ & _ & HC' & E4 & _). congruence.
    + intros n E. destruct (fo_right _ _ _ Hf u W n HW E) as (R & HR & E1 & E2 & E3). eexists. split; [by apply grown_fwd|].
      destruct (Ht n R) as (_ & _ & _ & _ & _ & -> & _ & _ & -> & _). case_decide as Hd'; [|done].
      destruct (grown_next n Hd') as (p & P & C' & _ & _ & _ & HC' & _ & E4). congruence.
    + intros q. case_decide as Hd.
      * intros [= <-]. exists N. by rewrite grown_new.
      * intros E. destruct (fo_left _ _ _ Hf u W q HW E) as (L & HL & E1). eexists. split; [by apply grown_fwd|].
        destruct (Ht q L) as (_ & _ & _ & _ & _ & _ & -> & _). done.
Qed.

Lemma forest_grown : forest (grown m g N) (u64 (g + 1)) (Some g).
Proof.
  pose proof (touched_fields (g_next_sibling N) (g_parent N) g) as Ht. cbv zeta in Ht. split.
  - intros u U HU. apply (grown_values u U HU).
  - unfold u64. apply Z.mod_pos_bound. lia.
  - intros u U HU. apply (grown_values u U HU).
  - intros u U HU. apply (grown_values u U HU).
  - intros u U p HU. apply (grown_links u U HU).
  - intros u U HU. apply (grown_links u U HU).
  - intros u U c HU. apply (grown_siblings u U HU).
  - intros u U n HU. apply (grown_siblings u U HU).
  - intros u U q HU. apply (grown_siblings u U HU).
  - intros u U p HU. apply (grown_links u U HU).
  - intros u U p HU. apply (grown_values u U HU).
  - intros u U p P HU Hp HP Hu. apply grown_inv in HU as [[-> ->]|(W & Hlt & HW & ->)]; [done|].
    destruct (Ht u W) as (_ & _ & _ & _ & T5 & T6 & _). rewrite T5. rewrite T6 in Hp. destruct (fo_parent _ _ _ Hf u W p HW Hp) as (P' & HP' & _).
    rewrite (grown_fwd p P' HP') in HP. injection HP as <-. destruct (Ht p P') as (_ & _ & _ & -> & -> & _). by apply (fo_within _ _ _ Hf u W p P').
Qed.

End Grown.

(** ** Deleting a leaf *)

Definition unlinked (G : grant) (u : Z) (U : grant) : grant :=
  let U := if decide (g_next_sibling G = Some u) then upd_g_prev_sibling (fun _ => g_prev_sibling G) U else U in
  let U := if decide (g_prev_sibling G = Some u) then upd_g_next_sibling (fun _ => g_next_sibling G) U else U in
  if decide (g_prev_sibling G = None /\ g_parent G = Some u) then upd_g_first_child (fun _ => g_next_sibling G) U else U.

Definition pruned (m : gmap Z grant) (g : Z) (G : grant) : gmap Z grant :=
  delete g
    match g_parent G with
    | None => m
    | Some p =>
        let m := match g_prev_sibling G with
                 | Some q => alter (upd_g_next_sibling (fun _ => g_next_sibling G)) q m
                 | None => alter (upd_g_first_child (fun _ => g_next_sibling G)) p m
                 end in
        match g_next_sibling G with
        | Some q => alter (upd_g_prev_sibling (fun _ => g_prev_sibling G)) q m
        | None => m
        end
    end.

Lemma unlinked_fields G u U : let U' := unlinked G u U in
  g_id U' = g_id U /\ g_type U' = g_type U /\ g_depth U' = g_depth U /\ g_wildcard U' = g_wildcard U /\ g_payload U' = g_payload U /\
  g_parent U' = g_parent U /\ g_dead U' = g_dead U /\
  g_next_sibling U' = (if decide (g_prev_sibling G = Some u) then g_next_sibling G else g_next_sibling U) /\
  g_prev_sibling U' = (if decide (g_next_sibling G = Some u) then g_prev_sibling G else g_prev_sibling U) /\
  g_first_child U' = (if decide (g_prev_sibling G = None /\ g_parent G = Some u) then g_next_sibling G else g_first_child U).
Proof. unfold unlinked. by repeat case_decide. Qed.

Lemma lookup_alter_if {A} (f : A -> A) (m : gmap Z A) i u : alter f i m !! u = (if decide (i = u) then f else id) <$> m !! u.
Proof. case_decide as Hd; [by rewrite Hd, lookup_alter_eq|by rewrite lookup_alter_ne, option_fmap_id]. Qed.

Section Pruned.
Context (m : gmap Z grant) (next : Z) (fresh : option Z) (g : Z) (G : grant) (Hf : forest m next fresh)
  (HG : m !! g = Some G) (Hleaf : g_first_child G = None) (Hfr : fresh = None \/ fresh = Some g).

Lemma pruned_lookup u : pruned m g G !! u = if decide (u = g) then None else unlinked G u <$> m !! u.
Proof.
  unfold pruned. case_decide as Hu; [by rewrite Hu, lookup_delete_eq|]. rewrite lookup_delete_ne by done. unfold unlinked.
  destruct (g_parent G) as [p|] eqn:Ep.
  - destruct (g_prev_sibling G) as [q|], (g_next_sibling G) as [n|]; rewrite ?lookup_alter_if; destruct (m !! u); simpl; try done; f_equal;
      repeat case_decide; naive_solver.
  - destruct (fo_root _ _ _ Hf g G HG Ep) as [-> ->]. destruct (m !! u); done.
Qed.

Lemma pruned_inv u U : pruned m g G !! u = Some U -> exists W, u <> g /\ m !! u = Some W /\ U = unlinked G u W.
Proof. rewrite pruned_lookup. case_decide; [done|]. intros (W & HW & ->)%fmap_Some. by exists W. Qed.

Lemma pruned_fwd u U : u <> g -> m !! u = Some U -> pruned m g G !! u = Some (unlinked G u U).
Proof. intros Hu HU. by rewrite pruned_lookup, decide_False, HU. Qed.

Lemma pruned_parent u U p : m !! u = Some U -> g_parent U = Some p -> p <> g.
Proof. intros HU Hp ->. by apply (leaf_childless Hf g G u U). Qed.

Lemma pruned_links u U : pruned m g G !! u = Some U ->
  (forall p, g_parent U = Some p -> exists P, pruned m g G !! p = Some P /\ g_depth U = g_depth P + 1 /\ g_type U = g_type P) /\
  (g_parent U = None -> g_prev_sibling U = None /\ g_next_sibling U = None) /\
  (forall p, g_parent U = Some p -> g_prev_sibling U = None -> exists P, pruned m g G !! p = Some P /\ g_first_child P = Some u).
Proof.
  pose proof (unlinked_fields G) as Ht. cbv zeta in Ht. intros (W & Hu & HW & ->)%pruned_inv.
  destruct (Ht u W) as (_ & T2 & T3 & _ & _ & T6 & _ & T7 & T8 & _). rewrite T2, T3, T6, T7, T8. clear T2 T3 T6 T7 T8. split; [|split].
  - intros p Hp. destruct (fo_parent _ _ _ Hf u W p HW Hp) as (P & HP & E1 & E2). eexists. split; [apply pruned_fwd; [exact (pruned_parent u W p HW Hp)|done]|].
    destruct (Ht p P) as (_ & -> & -> & _). done.
  - intros Hp. destruct (fo_root _ _ _ Hf u W HW Hp) as [E1 E2]. split; case_decide as Hd; try done.
    + destruct (fo_right _ _ _ Hf g G u HG Hd) as (R & HR & E3 & _). congruence.
    + destruct (fo_left _ _ _ Hf g G u HG Hd) as (L & HL & E3). congruence.
  - intros p Hp. assert (Hpg : p <> g) by (exact (pruned_parent u W p HW Hp)). case_decide as Hd; intros Hq.
    + destruct (fo_right _ _ _ Hf g G u HG Hd) as (R & HR & E3 & E4 & _). rewrite HW in HR. injection HR as <-.
      destruct (fo_parent _ _ _ Hf u W p HW Hp) as (P & HP & _). eexists. split; [by eapply pruned_fwd|].
      destruct (Ht p P) as (_ & _ & _ & _ & _ & _ & _ & _ & _ & ->). rewrite decide_True; [done|]. split; [done|congruence].
    + destruct (fo_head _ _ _ Hf u W p HW Hp Hq) as (P & HP & E). eexists. split; [by eapply pruned_fwd|].
      destruct (Ht p P) as (_ & _ & _ & _ & _ & _ & _ & _ & _ & ->). case_decide as Hd'; [|done]. destruct Hd' as [D1 D2].
      destruct (fo_head _ _ _ Hf g G p HG D2 D1) as (P' & HP' & E'). congruence.
Qed.

Lemma pruned_siblings u U : pruned m g G !! u = Some U ->
  (forall c, g_first_child U = Some c -> exists C, pruned m g G !! c = Some C /\ g_parent C = Some u /\ g_prev_sibling C = None) /\
  (forall n, g_next_sibling U = Some n -> exists R, pruned m g G !! n = Some R /\ g_prev_sibling R = Some u /\ g_parent R = g_parent U /\ n < u) /\
  (forall q, g_prev_sibling U = Some q -> exists L, pruned m g G !! q = Some L /\ g_next_sibling L = Some u).
Proof.
  pose proof (unlinked_fields G) as Ht. cbv zeta in Ht. intros (W & Hu & HW & ->)%pruned_inv.
  destruct (Ht u W) as (_ & _ & _ & _ & _ & T6 & _ & T7 & T8 & T9). rewrite T6, T7, T8, T9. clear T6 T7 T8 T9. split; [|split].
  - intros c. case_decide as Hd; intros E.
    + destruct (fo_right _ _ _ Hf g G c HG E) as (R & HR & E3 & E4 & Hlt). eexists. split; [apply pruned_fwd; [lia|done]|].
      destruct (Ht c R) as (_ & _ & _ & _ & _ & -> & _ & _ & -> & _). rewrite decide_True by done. destruct Hd. split; congruence.
    + destruct (fo_first _ _ _ Hf u W c HW E) as (C & HC & E1 & E2). assert (c <> g) by (intros ->; apply Hd; split; congruence).
      eexists. split; [by apply pruned_fwd|]. destruct (Ht c C) as (_ & _ & _ & _ & _ & -> & _ & _ & -> & _). case_decide as Hd'; [|done].
      destruct (fo_right _ _ _ Hf g G c HG Hd') as (R & HR & E3 & _). congruence.
  - intros n. case_decide as Hd; intros E.
    + destruct (fo_right _ _ _ Hf g G n HG E) as (R & HR & E3 & E4 & Hlt). destruct (fo_left _ _ _ Hf g G u HG Hd) as (L & HL & E5).
      rewrite HW in HL. injection HL as <-. destruct (fo_right _ _ _ Hf u W g HW E5) as (G' & HG' & _ & E6 & Hlt').
      eexists. split; [apply pruned_fwd; [lia|done]|]. destruct (Ht n R) as (_ & _ & _ & _ & _ & -> & _ & _ & -> & _). rewrite decide_True by done.
      split_and!; [done|congruence|lia].
    + destruct (fo_right _ _ _ Hf u W n HW E) as (R & HR & E3 & E4 & Hlt). assert (n <> g) by (intros ->; apply Hd; congruence).
      eexists. split; [by apply pruned_fwd|]. destruct (Ht n R) as (_ & _ & _ & _ & _ & -> & _ & _ & -> & _). case_decide as Hd'; [|done].
      destruct (fo_right _ _ _ Hf g G n HG Hd') as (R' & HR' & E5 & _). congruence.
  - intros q. case_decide as Hd; intros E.
    + destruct (fo_left _ _ _ Hf g G q HG E) as (L & HL & E1). destruct (fo_right _ _ _ Hf q L g HL E1) as (_ & _ & _ & _ & Hlt).
      eexists. split; [apply pruned_fwd; [lia|done]|]. destruct (Ht q L) as (_ & _ & _ & _ & _ & _ & _ & -> & _). by rewrite decide_True.
    + destruct (fo_left _ _ _ Hf u W q HW E) as (L & HL & E1). assert (q <> g) by (intros ->; apply Hd; congruence).
      eexists. split; [by apply pruned_fwd|]. destruct (Ht q L) as (_ & _ & _ & _ & _ & _ & _ & -> & _). case_decide as Hd'; [|done].
      destruct (fo_left _ _ _ Hf g G q HG Hd') as (L' & HL' & E5). congruence.
Qed.

Lemma forest_pruned : forest (pruned m g G) next None.
Proof.
  pose proof (unlinked_fields G) as Ht. cbv zeta in Ht. split.
  - intros u U (W & Hu & HW & ->)%pruned_inv. destruct (Ht u W) as (-> & _). by apply (fo_id _ _ _ Hf).
  - apply Hf.
  - intros u U (W & Hu & HW & ->)%pruned_inv. destruct (Ht u W) as (_ & _ & -> & _). by apply (fo_depth _ _ _ Hf u).
  - intros u U (W & Hu & HW & ->)%pruned_inv. unfold payload_ok. destruct (Ht u W) as (_ & -> & _ & _ & -> & _). by apply (fo_payload _ _ _ Hf u).
  - intros u U p HU. apply (pruned_links u U HU).
  - intros u U HU. apply (pruned_links u U HU).
  - intros u U c HU. apply (pruned_siblings u U HU).
  - intros u U n HU. apply (pruned_siblings u U HU).
  - intros u U q HU. apply (pruned_siblings u U HU).
  - intros u U p HU. apply (pruned_links u U HU).
  - intros u U p (W & Hu & HW & ->)%pruned_inv. destruct (Ht u W) as (_ & _ & _ & -> & _ & -> & _). by apply (fo_wild _ _ _ Hf u).
  - intros u U p P (W & Hu & HW & ->)%pruned_inv. destruct (Ht u W) as (_ & _ & _ & _ & -> & -> & _).
    intros Hp (V & Hv & HV & ->)%pruned_inv _. destruct (Ht p V) as (_ & _ & _ & -> & -> & _). apply (fo_within _ _ _ Hf u W p V HW Hp HV).
    destruct Hfr as [-> | ->]; congruence.
Qed.

End Pruned.

(** ** Changing a payload or the dead flag *)

Definition same_links (G G' : grant) : Prop :=
  g_id G' = g_id G /\ g_type G' = g_type G /\ g_depth G' = g_depth G /\ g_wildcard G' = g_wildcard G /\ g_parent G' = g_parent G /\
  g_first_child G' = g_first_child G /\ g_next_sibling G' = g_next_sibling G /\ g_prev_sibling G' = g_prev_sibling G.

Lemma forest_update m next fresh fresh' g G G' : forest m next fresh -> m !! g = Some G -> same_links G G' -> payload_ok G' ->
  (forall u U p P, <[g := G']> m !! u = Some U -> g_parent U = Some p -> <[g := G']> m !! p = Some P -> fresh' <> Some u ->
    g_wildcard P = true \/ narrower (g_payload U) (g_payload P)) -> forest (<[g := G']> m) next fresh'.
Proof.
  intros Hf HG (S1 & S2 & S3 & S4 & S5 & S6 & S7 & S8) Hp Hw.
  assert (Hinv : forall u U, <[g := G']> m !! u = Some U -> exists W, m !! u = Some W /\ same_links W U /\ (u = g /\ U = G' \/ U = W)).
  { intros u U [[<- <-]|[Hne HU]]%lookup_insert_Some; [exists G; split_and!; [done|done|by left]|exists U; split_and!; [done|done|by right]]. }
  assert (Hfwd : forall u W, m !! u = Some W -> exists U, <[g := G']> m !! u = Some U /\ same_links W U).
  { intros u W HW. destruct (decide (u = g)) as [->|Hu]; [exists G'; rewrite lookup_insert_eq; simplify_eq; done|exists W; by rewrite lookup_insert_ne]. }
  split; [..|done].
  - intros u U (W & HW & (E & _) & _)%Hinv. rewrite E. by apply (fo_id _ _ _ Hf).
  - apply Hf.
  - intros u U (W & HW & (_ & _ & E & _) & _)%Hinv. rewrite E. by apply (fo_depth _ _ _ Hf u).
  - intros u U (W & HW & _ & [[_ ->]|<-])%Hinv; [done|by apply (fo_payload _ _ _ Hf u)].
  - intros u U p (W & HW & (_ & E1 & E2 & _ & E3 & _) & _)%Hinv Ep. rewrite E3 in Ep. destruct (fo_parent _ _ _ Hf u W p HW Ep) as (P & HP & E4 & E5).
    destruct (Hfwd p P HP) as (P' & HP' & _ & E6 & E7 & _). exists P'. split_and!; [done|congruence|congruence].
  - intros u U (W & HW & (_ & _ & _ & _ & E1 & _ & E2 & E3) & _)%Hinv. rewrite E1, E2, E3. by apply (fo_root _ _ _ Hf u).
  - intros u U c (W & HW & (_ & _ & _ & _ & _ & E1 & _) & _)%Hinv. rewrite E1. intros (C & HC & E2 & E3)%(fo_first _ _ _ Hf u W c HW).
    destruct (Hfwd c C HC) as (C' & HC' & _ & _ & _ & _ & E4 & _ & _ & E5). exists C'. split_and!; [done|congruence|congruence].
  - intros u U n (W & HW & (_ & _ & _ & _ & E0 & _ & E1 & _) & _)%Hinv. rewrite E0, E1. intros (R & HR & E2 & E3 & Hlt)%(fo_right _ _ _ Hf u W n HW).
    destruct (Hfwd n R HR) as (R' & HR' & _ & _ & _ & _ & E4 & _ & _ & E5). exists R'. split_and!; [done|congruence|congruence|done].
  - intros u U q (W & HW & (_ & _ & _ & _ & _ & _ & _ & E1) & _)%Hinv. rewrite E1. intros (L & HL & E2)%(fo_left _ _ _ Hf u W q HW).
    destruct (Hfwd q L HL) as (L' & HL' & _ & _ & _ & _ & _ & _ & E3 & _). exists L'. split; [done|congruence].
  - intros u U p (W & HW & (_ & _ & _ & _ & E1 & _ & _ & E2) & _)%Hinv. rewrite E1, E2. intros Ep Eq.
    destruct (fo_head _ _ _ Hf u W p HW Ep Eq) as (P & HP & E3). destruct (Hfwd p P HP) as (P' & HP' & _ & _ & _ & _ & _ & E4 & _). exists P'. split; [done|congruence].
  - intros u U p (W & HW & (_ & _ & _ & E1 & E2 & _) & _)%Hinv. rewrite E1, E2. by apply (fo_wild _ _ _ Hf u).
Qed.

(** The payload of a leaf is set. *)
Lemma forest_payload m next g G pl (fin : bool) : forest m next (Some g) -> m !! g = Some G -> g_first_child G = None ->
  payload_ok (upd_g_payload (fun _ => pl) G) ->
  (fin = true -> forall p P, g_parent G = Some p -> m !! p = Some P -> g_wildcard P = true \/ narrower pl (g_payload P)) ->
  forest (<[g := upd_g_payload (fun _ => pl) G]> m) next (if fin then None else Some g).
Proof.
  intros Hf HG Hl Hp Hw. eapply forest_update; [exact Hf|exact HG|done|done|]. intros u U p P HU Ep HP Hfr.
  assert (p <> g).
  { intros ->. apply lookup_insert_Some in HU as [[<- <-]|[Hne HU]].
    - by apply (leaf_childless Hf g G g G).
    - by apply (leaf_childless Hf g G u U). }
  rewrite lookup_insert_ne in HP by done. apply lookup_insert_Some in HU as [[<- <-]|[Hne HU]].
  - destruct fin; [|done]. by apply (Hw eq_refl p P).
  - apply (fo_within _ _ _ Hf u U p P HU Ep HP). congruence.
Qed.

Lemma forest_dead m next g G b : forest m next None -> m !! g = Some G -> forest (<[g := upd_g_dead (fun _ => b) G]> m) next None.
Proof.
  intros Hf HG. eapply forest_update; [exact Hf|exact HG|done|exact (fo_payload _ _ _ Hf g G HG)|].
  assert (Hinv : forall u U, <[g := upd_g_dead (fun _ => b) G]> m !! u = Some U -> exists W, m !! u = Some W /\ g_payload U = g_payload W /\
    g_parent U = g_parent W /\ g_wildcard U = g_wildcard W).
  { intros u U [[<- <-]|[Hne HU]]%lookup_insert_Some; eauto. }
  intros u U p P (W & HW & -> & -> & _)%Hinv Ep (V & HV & -> & _ & ->)%Hinv _. by apply (fo_within _ _ _ Hf u W p V).
Qed.

End Forest.

Import Forest.

Section Grants.
Context {PT : PageTree} {SC : Schemes}.
Implicit Types (v w : gview) (x : rest).

Lemma wp_get_grant g G Q v x : x_grants x !! g = Some G -> Q G v x -> wp (get_grant g) Q v x.
Proof. intros HG H s <- <-. unfold get_grant. change (x_grants (rest_of s)) with (k_grants s) in HG. by rewrite HG. Qed.

Lemma wp_mod_grant g f Q v x : is_Some (x_grants x !! g) -> Q tt v (set_grants (alter f g) x) -> wp (mod_grant g f) Q v x.
Proof.
  intros [G HG] H s <- <-. unfold mod_grant. change (x_grants (rest_of s)) with (k_grants s) in HG. rewrite HG. simpl.
  replace (rest_of (upd_k_grants (insert g (f G)) s)) with (set_grants (alter f g) (rest_of s)); [exact H|].
  unfold set_grants, rest_of. simpl. f_equal. apply map_eq. intros u. destruct (decide (g = u)) as [->|Hu].
  - by rewrite lookup_alter_eq, lookup_insert_eq, HG.
  - by rewrite lookup_alter_ne, lookup_insert_ne.
Qed.

Lemma wp_get_grants Q v x : Q (x_grants x) v x -> wp (gets k_grants) Q v x.
Proof. intros H s <- <-. exact H. Qed.
Lemma wp_get_next_grant Q v x : Q (x_next_grant x) v x -> wp (gets k_next_grant_id) Q v x.
Proof. intros H s <- <-. exact H. Qed.
Lemma wp_get_boot_key Q v x : Q (x_boot_key x) v x -> wp (gets k_boot_key) Q v x.
Proof. intros H s <- <-. exact H. Qed.
Lemma wp_next_grant f Q v x : Q tt v (set_next_grant f x) -> wp (modify (upd_k_next_grant_id f)) Q v x.
Proof. intros H s <- <-. exact H. Qed.
Lemma wp_set_grants f Q v x : Q tt v (set_grants f x) -> wp (modify (upd_k_grants f)) Q v x.
Proof. intros H s <- <-. exact H. Qed.

Lemma wp_mod_opt o f Q v x : (forall g, o = Some g -> is_Some (x_grants x !! g)) ->
  Q tt v (set_grants (fun m => match o with None => m | Some g => alter f g m end) x) ->
  wp (match o with None => skip | Some g => mod_grant g f end) Q v x.
Proof. intros Ho H. destruct o as [g|]; [by apply wp_mod_grant; [apply Ho|]|apply wp_skip; by destruct x]. Qed.

(** [x] with other grants. *)
Definition with_grants x (m : gmap Z grant) (n : Z) : rest := set_next_grant (fun _ => n) (set_grants (fun _ => m) x).

Definition grants_ok x : Prop := forest (x_grants x) (x_next_grant x) None.

Definition type_ok (type : Z) : Prop := type = KCAP_GRANT_DEVMEM \/ type = KCAP_GRANT_IRQ_ROUTE \/ type = KCAP_GRANT_IOMMU_DEV.

Lemma payload_type G : payload_ok G -> type_ok (g_type G).
Proof. unfold payload_ok, type_ok. destruct (g_payload G); intros [-> _]; auto. Qed.

Lemma zero_ok id type depth wild dead parent c n p : type_ok type -> payload_ok (Grant id type depth wild dead (zero_payload type) parent c n p).
Proof. unfold payload_ok. intros [->|[->| ->]]; simpl; split_and!; done. Qed.

Definition parent_of x (parent : option Z) : option grant := match parent with None => None | Some p => x_grants x !! p end.

(** The grant [grant_new] makes. *)
Definition seedling x (parent : option Z) (type : Z) (wild : bool) : grant :=
  Grant (x_next_grant x) type (match parent_of x parent with None => 0 | Some G => u8 (g_depth G + 1) end) wild false (zero_payload type) parent None
    (match parent_of x parent with None => None | Some G => g_first_child G end) None.

Lemma seedling_newcomer x parent type (wild : bool) : grants_ok x -> type_ok type ->
  (forall p, parent = Some p -> exists P, x_grants x !! p = Some P /\ g_type P = type /\ g_depth P < KCAP_MAX_DEPTH /\ wild = false) ->
  newcomer (x_grants x) (x_next_grant x) (seedling x parent type wild).
Proof.
  intros Hf Ht Hp. unfold seedling. destruct parent as [p|]; simpl.
  - destruct (Hp p eq_refl) as (P & HP & E1 & E2 & ->). pose proof (fo_depth _ _ _ Hf p P HP) as Hd. rewrite HP. simpl.
    assert (u8 (g_depth P + 1) = g_depth P + 1) as -> by (unfold KCAP_MAX_DEPTH in *; apply Z.mod_small; lia).
    split; simpl; [done|by apply zero_ok|done|done|]. intros ? [= <-]. by exists P.
  - split; simpl; [done|by apply zero_ok|done|done|done].
Qed.

Lemma wp_asserts_or b msg Q v x : (b = true -> Q tt v x) -> tolerated (HAssert msg) -> wp (asserts b msg) Q v x.
Proof. intros H Ht. destruct b; [by apply wp_asserts; auto|]. intros s _ _. exact Ht. Qed.

Lemma wp_grant_new parent type wild Q v x : grants_ok x -> type_ok type ->
  (forall p, parent = Some p -> exists P, x_grants x !! p = Some P /\ g_type P = type /\ wild = false) -> Q None v x ->
  (x_next_grant x <> 0 -> newcomer (x_grants x) (x_next_grant x) (seedling x parent type wild) ->
    Q (Some (x_next_grant x)) v
      (with_grants x (grown (x_grants x) (x_next_grant x) (seedling x parent type wild)) (u64 (x_next_grant x + 1)))) ->
  wp (grant_new parent type wild) Q v x.
Proof.
  intros Hf Ht Hp Hno Hyes. unfold grant_new. apply wp_bind.
  assert (Hgo : forall P, P = parent_of x parent ->
    wp (if match P with Some G => KCAP_MAX_DEPTH <=? g_depth G | None => false end then mret None else
      ok ← try_alloc;
      if negb ok then mret None
      else
        id ← gets k_next_grant_id;
        _ ← modify (upd_k_next_grant_id (fun n => u64 (n + 1)));
        _ ← asserts (negb (id =? 0)) "capability: grant id exhausted";
        let depth := match P with None => 0 | Some G => u8 (g_depth G + 1) end in
        let next := match P with None => None | Some G => g_first_child G end in
        grants ← gets k_grants;
        _ ← must_alloc;
        _ ← asserts (bool_decide (grants !! id = None)) "capability: grant index insertion failed";
        _ ← modify (upd_k_grants (insert id
              (Grant id type depth wild false (zero_payload type) parent None next None)));
        _ ← match next with None => skip | Some n => mod_grant n (upd_g_prev_sibling (fun _ => Some id)) end;
        _ ← match parent with None => skip | Some p => mod_grant p (upd_g_first_child (fun _ => Some id)) end;
        mret (Some id)) Q v x).
  { intros P ->. destruct (match parent_of x parent with Some G => _ | None => false end) eqn:Ed; [by apply wp_ret|].
    assert (Hn : newcomer (x_grants x) (x_next_grant x) (seedling x parent type wild)).
    { apply seedling_newcomer; [done|done|]. intros p ->. destruct (Hp p eq_refl) as (P & HP & E1 & E2). simpl in Ed. rewrite HP in Ed.
      apply Z.leb_gt in Ed. by exists P. }
    apply wp_bind, wp_try_alloc. intros []; cbn [negb]; [|by apply wp_ret]. apply wp_bind, wp_get_next_grant, wp_bind, wp_next_grant, wp_bind, wp_asserts_or; [|by right; left].
    intros Hid%negb_true_iff%Z.eqb_neq. cbv zeta. fold (seedling x parent type wild). apply wp_bind, wp_get_grants, wp_bind, wp_must_alloc, wp_bind, wp_asserts.
    { apply bool_decide_eq_true, eq_None_not_Some. intros [G HG]. destruct (fo_id _ _ _ Hf _ _ HG) as (_ & _ & [|]); lia. }
    specialize (Hyes Hid Hn). apply wp_bind, wp_set_grants, wp_bind, wp_mod_opt.
    { intros n En. destruct (grown_next _ _ _ Hf Hn n En) as (_ & _ & C & _ & _ & _ & HC & _). simpl. destruct (decide (n = x_next_grant x)) as [->|];
        [rewrite lookup_insert_eq|rewrite lookup_insert_ne by done]; eauto. }
    apply wp_bind, wp_mod_opt; [|by apply wp_ret]. intros p Ep. destruct (nc_child _ _ _ Hn p Ep) as (P & HP & _).
    change (is_Some (match g_next_sibling (seedling x parent type wild) with None => <[x_next_grant x := seedling x parent type wild]> (x_grants x) |
      Some g => alter (upd_g_prev_sibling (fun _ => Some (x_next_grant x))) g (<[x_next_grant x := seedling x parent type wild]> (x_grants x)) end !! p)).
    destruct (g_next_sibling _); [apply lookup_alter_is_Some|]; apply lookup_insert_is_Some; destruct (decide (x_next_grant x = p)); eauto. }
  destruct parent as [p|]; [|by apply wp_ret, (Hgo None)].
  destruct (Hp p eq_refl) as (P & HP & _). apply wp_bind. eapply wp_get_grant; [exact HP|]. by apply wp_ret, (Hgo (Some P)).
Qed.
(** ** Deleting and revoking *)

Lemma wp_delete_leaf g G next fresh Q v x : forest (x_grants x) next fresh -> x_grants x !! g = Some G -> g_first_child G = None ->
  Q tt v (set_grants (fun m => pruned m g G) x) -> wp (grant_delete_leaf g) Q v x.
Proof.
  intros Hf HG Hl H. unfold grant_delete_leaf. apply wp_bind. eapply wp_get_grant; [exact HG|]. apply wp_bind, wp_asserts; [by apply bool_decide_eq_true|].
  unfold pruned in H. destruct (g_parent G) as [p|] eqn:Ep; [|by apply wp_bind, wp_skip, wp_set_grants].
  apply wp_bind, wp_bind.
  assert (Hend : forall f, (forall u, is_Some (f (x_grants x) !! u) <-> is_Some (x_grants x !! u)) ->
    Q tt v (set_grants (delete g) (set_grants (fun m => match g_next_sibling G with Some q => alter (upd_g_prev_sibling (fun _ => g_prev_sibling G)) q m | None => m end) (set_grants f x))) ->
    wp (match g_next_sibling G with Some q => mod_grant q (upd_g_prev_sibling (fun _ => g_prev_sibling G)) | None => skip end)
      (fun _ v x => wp (modify (upd_k_grants (delete g))) Q v x) v (set_grants f x)).
  { intros f Hd Hq. destruct (g_next_sibling G) as [n|] eqn:En.
    - apply wp_mod_grant; [|by apply wp_set_grants]. apply Hd. destruct (fo_right _ _ _ Hf g G n HG En) as (R & HR & _). by eexists.
    - apply wp_skip, wp_set_grants. by destruct x. }
  destruct (g_prev_sibling G) as [q|] eqn:Eq.
  - destruct (fo_left _ _ _ Hf g G q HG Eq) as (L & HL & _). apply wp_mod_grant; [by eexists|]. apply Hend; [intros u; apply lookup_alter_is_Some|exact H].
  - destruct (fo_parent _ _ _ Hf g G p HG Ep) as (P & HP & _). apply wp_mod_grant; [by eexists|]. apply Hend; [intros u; apply lookup_alter_is_Some|exact H].
Qed.

(** [c] is [g] or below it. *)
Inductive under (m : gmap Z grant) (g : Z) : Z -> Prop :=
  | under_here : under m g g
  | under_child c p C : under m g p -> m !! c = Some C -> g_parent C = Some p -> under m g c.

Lemma wp_leaf_walk g Q v x fuel : grants_ok x -> forall h H, x_grants x !! h = Some H -> under (x_grants x) g h -> KCAP_MAX_DEPTH <= g_depth H + Z.of_nat fuel ->
  (forall l L, x_grants x !! l = Some L -> g_first_child L = None -> under (x_grants x) g l -> Q l v x) -> wp (leaf_walk fuel h) Q v x.
Proof.
  intros Hf. induction fuel as [|fuel IH]; intros h H HH Hu Hfu HQ; cbn [leaf_walk]; apply wp_bind; (eapply wp_get_grant; [exact HH|]);
    destruct (g_first_child H) as [c|] eqn:Ec; try (apply wp_ret; by eapply HQ);
    destruct (fo_first _ _ _ Hf h H c HH Ec) as (C & HC & E1 & _); destruct (fo_parent _ _ _ Hf c C h HC E1) as (H' & HH' & E2 & _);
    rewrite HH in HH'; injection HH' as <-; pose proof (fo_depth _ _ _ Hf c C HC).
  - lia.
  - eapply IH; [exact HC|by eapply under_child|lia|done].
Qed.

Lemma under_dead m g G b c : m !! g = Some G -> under (<[g := upd_g_dead (fun _ => b) G]> m) g c -> under m g c.
Proof.
  intros HG. induction 1 as [|c p C _ IH HC Ep]; [constructor|]. apply lookup_insert_Some in HC as [[<- <-]|[_ HC]]; [constructor|by eapply under_child].
Qed.

(** One grant of the subtree goes; the call says whether it was the last one. *)
Lemma wp_revoke_step g G Q v x : grants_ok x -> x_grants x !! g = Some G ->
  (forall rc l L m, under (x_grants x) g l -> m = <[g := upd_g_dead (fun _ => true) G]> (x_grants x) -> m !! l = Some L -> g_first_child L = None ->
    (rc = 0 /\ l = g \/ rc = SYSERR_AGAIN /\ l <> g) -> forest (pruned m l L) (x_next_grant x) None ->
    Q rc v (set_grants (fun _ => pruned m l L) x)) -> wp (revoke_step g) Q v x.
Proof.
  intros Hf HG H. unfold revoke_step. apply wp_bind, wp_mod_grant; [by eexists|].
  set (m := <[g := upd_g_dead (fun _ => true) G]> (x_grants x)) in *.
  assert (Em : alter (upd_g_dead (fun _ => true)) g (x_grants x) = m).
  { apply map_eq. intros u. unfold m. destruct (decide (g = u)) as [->|]; [by rewrite lookup_alter_eq, lookup_insert_eq, HG|by rewrite lookup_alter_ne, lookup_insert_ne]. }
  replace (set_grants _ x) with (set_grants (fun _ => m) x) by (unfold set_grants; by rewrite Em). set (y := set_grants (fun _ => m) x).
  assert (Hy : grants_ok y) by (by apply forest_dead). apply wp_bind. eapply (wp_leaf_walk g); [exact Hy|apply lookup_insert_eq|constructor| |].
  { pose proof (fo_depth _ _ _ Hf g G HG). simpl. unfold KCAP_MAX_DEPTH in *. lia. }
  intros l L HL Hlf Hu. apply wp_bind. eapply wp_delete_leaf; [exact Hy|exact HL|done|]. apply wp_ret.
  eapply H; [exact (under_dead _ _ _ true _ HG Hu)|reflexivity|done|done| |by eapply forest_pruned; [..|left]]. destruct (Z.eqb_spec l g); auto.
Qed.

(** ** Resolving tokens *)

(** The grant and all above it are live. *)
Inductive alive (m : gmap Z grant) : Z -> Prop :=
  | alive_root g G : m !! g = Some G -> g_dead G = false -> g_parent G = None -> alive m g
  | alive_child g G p : m !! g = Some G -> g_dead G = false -> g_parent G = Some p -> alive m p -> alive m g.

Lemma wp_live_walk Q v x : grants_ok x -> forall more g G, x_grants x !! g = Some G -> g_depth G < Z.of_nat more ->
  (forall rc, (rc = 0 <-> alive (x_grants x) g) -> (rc = 0 \/ rc = SYSERR_DEAD) -> Q rc v x) -> wp (live_walk more (Some g)) Q v x.
Proof.
  intros Hf more. induction more as [|more IH]; intros g G HG Hd H; [pose proof (fo_depth _ _ _ Hf g G HG); lia|].
  cbn [live_walk]. apply wp_bind. eapply wp_get_grant; [exact HG|]. destruct (g_dead G) eqn:Ed.
  { apply wp_ret, H; [|by right]. split; [done|]. inversion 1; congruence. }
  destruct (g_parent G) as [p|] eqn:Ep.
  - destruct (fo_parent _ _ _ Hf g G p HG Ep) as (P & HP & E & _). eapply IH; [exact HP|lia|]. intros rc Hrc Hv. apply H; [|done].
    rewrite Hrc. split; [by eapply alive_child|]. inversion 1; congruence.
  - assert (wp (live_walk more None) Q v x); [|done]. destruct more; (apply wp_ret, H; [|by left]); (split; [intros _; by eapply alive_root|done]).
Qed.

(** What a resolved token names. *)
Definition names x (type : Z) (need_live : bool) (g : Z) : Prop :=
  exists G, x_grants x !! g = Some G /\ (type = 0 \/ g_type G = type) /\ (need_live = true -> alive (x_grants x) g).

Lemma wp_token_resolve t need_live type Q v x : grants_ok x -> (forall rc, rc <> 0 -> Q (rc, None) v x) ->
  (forall g, tk_grant_id_le t = g -> constant_equal (tk_mac t) (token_mac (x_boot_key x) t) 16 = true -> names x type need_live g -> Q (0, Some g) v x) ->
  wp (token_resolve t need_live type) Q v x.
Proof.
  intros Hf Hno Hyes. unfold token_resolve. destruct (_ || _); [by apply wp_ret, Hno|]. destruct (existsb _ _); [by apply wp_ret, Hno|].
  apply wp_bind, wp_get_boot_key. destruct (constant_equal _ _ _) eqn:Emac; cbn [negb]; [|by apply wp_ret, Hno].
  apply wp_bind, wp_get_grants. destruct (x_grants x !! tk_grant_id_le t) as [G|] eqn:EG; [|by apply wp_ret, Hno].
  destruct (negb (type =? 0) && negb (g_type G =? type)) eqn:Et; [by apply wp_ret, Hno|].
  assert (Hty : type = 0 \/ g_type G = type).
  { apply andb_false_iff in Et as [E%negb_false_iff%Z.eqb_eq|E%negb_false_iff%Z.eqb_eq]; auto. }
  apply wp_bind. destruct need_live; [|apply wp_ret, wp_ret; eapply Hyes; [done|done|by exists G]].
  eapply wp_live_walk; [done|exact EG|pose proof (fo_depth _ _ _ Hf _ G EG); unfold KCAP_MAX_DEPTH in *; lia|].
  intros rc Hrc Hv. apply wp_ret. destruct (Z.eqb_spec rc 0) as [->|Hne]; [|by apply Hno]. apply Hyes; [done|done|]. exists G. split_and!; [done|done|].
  intros _. by apply Hrc.
Qed.

(** ** Attenuation *)

Record req_ok (req : kcap_subgrant_req) : Prop := {
  rq_p0 : 0 <= sg_p0 req < 2 ^ 64;
  rq_p1 : 0 <= sg_p1 req < 2 ^ 64;
  rq_p2 : 0 <= sg_p2 req < 2 ^ 64 }.

Lemma add_overflows_some base len stop : 0 <= base < 2 ^ 64 -> 0 <= len < 2 ^ 64 -> add_overflows base len = Some stop -> stop = base + len.
Proof. intros Hb Hl. unfold add_overflows, add_overflow64. destruct (len =? 0); [done|]. destruct (2 ^ 64 <=? base + len); [done|]. by intros [= <-]. Qed.

Lemma attenuate_devmem req (wild : bool) b l f rc pl : req_ok req -> 0 <= b < 2 ^ 64 -> 0 <= l < 2 ^ 64 -> 0 <= f < 2 ^ 32 ->
  subgrant_devmem req wild b l f = (rc, pl) -> (exists b' l' f', pl = GDevmem b' l' f' /\ 0 <= b' < 2 ^ 64 /\ 0 <= l' < 2 ^ 64 /\ 0 <= f' < 2 ^ 32) /\
  (rc = 0 -> wild = true \/ narrower pl (GDevmem b l f)).
Proof.
  intros [R1 R2 R3] Hb Hl Hfl. unfold subgrant_devmem. cbv zeta. set (b' := if has _ KCAP_PARAM_P0 then _ else _). set (l' := if has _ KCAP_PARAM_P1 then _ else _).
  set (f' := if has _ KCAP_PARAM_P2 then _ else _). intros [= <- <-].
  assert (Hb' : 0 <= b' < 2 ^ 64) by (unfold b'; by destruct (has _ KCAP_PARAM_P0)). assert (Hl' : 0 <= l' < 2 ^ 64) by (unfold l'; by destruct (has _ KCAP_PARAM_P1)).
  assert (Hf' : 0 <= f' < 2 ^ 32) by (unfold f'; destruct (has _ KCAP_PARAM_P2); [by apply Z.mod_pos_bound|done]).
  split; [by exists b', l', f'|]. destruct wild; [by left|]. intros Hrc. right. destruct (_ || _) eqn:Er in Hrc; [done|].
  apply orb_false_iff in Er as [_ Er]. destruct (add_overflows b' l') as [stop|] eqn:E1; [|done]. apply add_overflows_some in E1 as ->; [|done..].
  cbn [negb andb] in Er. apply orb_false_iff in Er as [Er1 Er2]. destruct (add_overflows b l) as [pend|] eqn:E2; [|done].
  apply add_overflows_some in E2 as ->; [|done..]. apply orb_false_iff in Er1 as [Ea Eb]. unfold narrower. split_and!; [lia|lia|].
  unfold nz in Er2. by apply negb_false_iff, Z.eqb_eq in Er2.
Qed.

Lemma attenuate_iommu req (wild : bool) q rc pl : req_ok req -> 0 <= q < 2 ^ 32 -> subgrant_iommu req wild q = (rc, pl) ->
  (exists q', pl = GIommu q' /\ 0 <= q' < 2 ^ 32) /\ (rc = 0 -> wild = true \/ narrower pl (GIommu q)).
Proof.
  intros [R1 R2 R3] Hq. unfold subgrant_iommu. cbv zeta. set (r := if has _ KCAP_PARAM_P0 then _ else _). intros E.
  pose proof (f_equal fst E) as E1. pose proof (f_equal snd E) as E2. cbn [fst snd] in E1, E2. clear E. subst rc pl.
  split; [exists (u32 r); split; [done|by apply Z.mod_pos_bound]|]. destruct wild; [by left|]. intros Hrc. right. destruct (_ || _) eqn:Er in Hrc; [done|].
  rewrite !orb_false_iff in Er. destruct Er as (((_ & _) & Er) & _). cbn [negb andb] in Er. apply negb_false_iff, Z.eqb_eq in Er.
  simpl. rewrite Er. apply Z.mod_small. lia.
Qed.

(** ** The interrupt routes a grant may name *)

Definition routes_full x : Prop := length (x_routes x) = Z.to_nat IRQ_ROUTE_COUNT.

Lemma wp_get_route i Q v x : routes_full x -> 0 <= i < IRQ_ROUTE_COUNT -> (forall R, x_routes x !! Z.to_nat i = Some R -> Q R v x) -> wp (get_route i) Q v x.
Proof.
  intros Hl Hi H. destruct (lookup_lt_is_Some_2 (x_routes x) (Z.to_nat i)) as [R HR]; [rewrite Hl; lia|].
  intros s <- <-. unfold get_route. change (x_routes (rest_of s)) with (k_routes s) in HR. rewrite HR. by apply H.
Qed.

Lemma wp_route_for_gsi gsi Q v x : routes_full x -> 0 <= gsi -> Q None v x -> (0 <= gsi < IRQ_ROUTE_COUNT -> Q (Some gsi) v x) -> wp (route_for_gsi gsi) Q v x.
Proof.
  intros Hl Hg Hno Hyes. unfold route_for_gsi. destruct (Z.leb_spec IRQ_ROUTE_COUNT gsi); [by apply wp_ret|].
  apply wp_bind, wp_get_route; [done|lia|]. intros R _. apply wp_ret. destruct (q_present R); [by apply Hyes|done].
Qed.

Lemma wp_attenuate_irq req (wild : bool) r i Q v x : routes_full x -> req_ok req -> (forall j, r = Some j -> 0 <= j < IRQ_ROUTE_COUNT) ->
  (forall rc r' i', (forall j, r' = Some j -> 0 <= j < IRQ_ROUTE_COUNT) -> (rc = 0 -> wild = true \/ narrower (GIrq r' i') (GIrq r i)) ->
    Q (rc, GIrq r' i') v x) -> wp (subgrant_irq req wild r i) Q v x.
Proof.
  intros Hl Hq Hr H. unfold subgrant_irq. cbv zeta. apply wp_bind. destruct wild.
  - apply wp_bind.
    assert (Hgo : forall o, (forall j, o = Some j -> 0 <= j < IRQ_ROUTE_COUNT) ->
      wp (match o with None => mret (SYSERR_INVAL, GIrq None 0) | Some i => R ← get_route i; mret (0, GIrq (Some i) (route_id R)) end)
        (fun p v x => wp (let '(rc, payload) := p in mret (if has (sg_present req) (Z.lor KCAP_PARAM_P1 KCAP_PARAM_P2) then SYSERR_INVAL else rc, payload)) Q v x) v x).
    { intros [j|] Ho; [|apply wp_ret, wp_ret, H; [done|by left]]. apply wp_bind, wp_get_route; [done|by apply Ho|]. intros R _. apply wp_ret, wp_ret, H; [done|by left]. }
    destruct (has (sg_present req) KCAP_PARAM_P0); [|by apply wp_ret, (Hgo None)].
    apply wp_route_for_gsi; [done|apply Hq|by apply (Hgo None)|]. intros Hg. apply (Hgo (Some _)). by intros j [= <-].
  - apply wp_ret, wp_ret, H; [done|]. by right.
Qed.

(** ** [subgrant] *)

(** The payload of the child of [P], with its status. *)
Lemma wp_attenuate req P Q v x : routes_full x -> req_ok req -> payload_ok P ->
  (forall rc pl, (forall C, g_type C = g_type P -> payload_ok (upd_g_payload (fun _ => pl) C)) ->
    (rc = 0 -> g_wildcard P = true \/ narrower pl (g_payload P)) -> Q (rc, pl) v x) ->
  wp (if g_type P =? KCAP_GRANT_DEVMEM then
        '(b, l, f) ← deref (devmem_of (g_payload P)); mret (subgrant_devmem req (g_wildcard P) b l f)
      else if g_type P =? KCAP_GRANT_IRQ_ROUTE then
        '(r, i) ← deref (irq_of (g_payload P)); subgrant_irq req (g_wildcard P) r i
      else if g_type P =? KCAP_GRANT_IOMMU_DEV then
        q ← deref (iommu_of (g_payload P)); mret (subgrant_iommu req (g_wildcard P) q)
      else mret (SYSERR_INVAL, zero_payload (g_type P))) Q v x.
Proof.
  intros Hl Hq Hp H. unfold payload_ok in Hp. destruct (g_payload P) as [b l f|r i|q] eqn:Ep.
  - destruct Hp as (Et & Hb & Hlen & Hfl). rewrite Et in *. cbn [Z.eqb]. apply wp_bind. eapply wp_deref; [done|]. apply wp_ret.
    destruct (subgrant_devmem _ _ _ _ _) as [rc pl] eqn:E. destruct (attenuate_devmem _ _ _ _ _ _ _ Hq Hb Hlen Hfl E) as [(b' & l' & f' & -> & ?) Hn].
    apply H; [|done]. intros C EC. unfold payload_ok. simpl. done.
  - destruct Hp as (Et & Hr). rewrite Et in *. cbn [Z.eqb]. apply wp_bind. eapply wp_deref; [done|]. apply wp_attenuate_irq; [done|done|done|].
    intros rc r' i' Hr' Hn. apply H; [|done]. intros C EC. unfold payload_ok. simpl. done.
  - destruct Hp as (Et & Hqb). rewrite Et in *. cbn [Z.eqb]. apply wp_bind. eapply wp_deref; [done|]. apply wp_ret.
    destruct (subgrant_iommu _ _ _) as [rc pl] eqn:E. destruct (attenuate_iommu _ _ _ _ _ Hq Hqb E) as [(q' & -> & ?) Hn].
    apply H; [|done]. intros C EC. unfold payload_ok. simpl. done.
Qed.

(** Only the grants differ, and they are still a forest. *)
Definition regrant x x' : Prop := (exists m n, x' = with_grants x m n) /\ grants_ok x'.

Lemma regrant_refl x : grants_ok x -> regrant x x.
Proof. intros Hf. split; [|done]. exists (x_grants x), (x_next_grant x). by destruct x. Qed.

Lemma alter_found {A} (f : A -> A) (m : gmap Z A) g G : m !! g = Some G -> alter f g m = <[g := f G]> m.
Proof.
  intros HG. apply map_eq. intros u. destruct (decide (g = u)) as [->|Hu]; [by rewrite lookup_alter_eq, lookup_insert_eq, HG|by rewrite lookup_alter_ne, lookup_insert_ne].
Qed.

Lemma wp_subgrant req parent Q v x : grants_ok x -> routes_full x -> req_ok req -> is_Some (x_grants x !! parent) ->
  (forall rc x', regrant x x' -> rc <> 0 -> Q (rc, None) v x') ->
  (forall c C x', regrant x x' -> x_grants x' !! c = Some C -> g_parent C = Some parent -> c = x_next_grant x -> Q (0, Some c) v x') ->
  wp (subgrant req parent) Q v x.
Proof.
  intros Hf Hl Hq [P HP] Hno Hyes. unfold subgrant. destruct (_ || _); [apply wp_ret, Hno; [by apply regrant_refl|done]|].
  apply wp_bind. eapply wp_get_grant; [exact HP|]. destruct (_ <=? _); [apply wp_ret, Hno; [by apply regrant_refl|done]|].
  pose proof (fo_payload _ _ _ Hf parent P HP) as Hpl. apply wp_bind, wp_grant_new; [done|by apply payload_type| | |].
  { intros p [= <-]. by exists P. } { apply wp_ret, Hno; [by apply regrant_refl|done]. }
  intros Hid Hnew. set (g := x_next_grant x) in *. set (N := seedling x (Some parent) (g_type P) false) in *.
  pose proof (forest_grown _ _ _ Hf Hid Hnew) as Hg. pose proof (grown_new _ _ _ Hf Hid Hnew) as HN. set (m := grown (x_grants x) g N) in *.
  apply wp_bind, wp_attenuate; [done|done|done|]. intros rc pl Hok Hn. apply wp_bind, wp_mod_grant; [by eexists|].
  set (y := set_grants _ (with_grants x m (u64 (g + 1)))).
  assert (Ey : y = with_grants x (<[g := upd_g_payload (fun _ => pl) N]> m) (u64 (g + 1))).
  { unfold y, with_grants, set_grants, set_next_grant. cbn -[u64]. by rewrite (alter_found _ m g N HN). }
  pose proof (forest_payload m (u64 (g + 1)) g N pl (rc =? 0) Hg HN eq_refl (Hok N eq_refl)) as Hfp. destruct (Z.eqb_spec rc 0) as [->|Hrc]; cbn [negb].
  - apply wp_ret. eapply (Hyes g); [|rewrite Ey; apply lookup_insert_eq|done|done]. split; [rewrite Ey; eauto|]. rewrite Ey. apply Hfp. intros _ p P' [= <-] HP'.
    specialize (Hn eq_refl). assert (g_wildcard P' = g_wildcard P /\ g_payload P' = g_payload P) as [-> ->]; [|done].
    pose proof (grown_fwd _ _ _ Hf Hid Hnew parent P HP) as HP2. change (m !! parent = Some (touched (g_next_sibling N) (g_parent N) g parent P)) in HP2. rewrite HP2 in HP'.
    assert (P' = touched (g_next_sibling N) (g_parent N) g parent P) as -> by congruence.
    by destruct (touched_fields (g_next_sibling N) (g_parent N) g parent P) as (_ & _ & _ & ? & ? & _).
  - specialize (Hfp ltac:(done)). apply wp_bind. rewrite Ey. eapply wp_delete_leaf; [exact Hfp|apply lookup_insert_eq|done|]. apply wp_ret, Hno; [|done]. split.
    + eexists _, _. reflexivity.
    + eapply (forest_pruned _ _ (Some g)); [exact Hfp|apply lookup_insert_eq|done|by right].
Qed.

(** ** The commands of the capability scheme *)

(** Only the grants and user memory differ. *)
Definition granted x x' : Prop := (exists m n f, x' = set_mem f (with_grants x m n)) /\ grants_ok x'.

Lemma granted_refl x : grants_ok x -> granted x x.
Proof. intros Hf. split; [|done]. exists (x_grants x), (x_next_grant x), id. by destruct x. Qed.

Lemma regrant_granted x x' f : regrant x x' -> granted x (set_mem f x').
Proof. intros [(m & n & ->) Hf]. split; [|done]. by exists m, n, f. Qed.

Lemma regrant_granted' x x' : regrant x x' -> granted x x'.
Proof. intros [(m & n & ->) Hf]. split; [|done]. exists m, n, id. by destruct x. Qed.

Lemma wp_ring_block r b i o ops Q v x : v_rblock v r = Some b -> v_rops v r = Some ops -> v_info v b = Some i -> v_owner v b = Some o ->
  Q (block_of v b i o) v x -> wp (Capability.ring_block r) Q v x.
Proof.
  intros Hb Ho Hi Hw H. apply wp_bind. eapply wp_get_ring; [exact Hb|exact Ho|]. intros sq cq cl nc _. by eapply wp_get_block.
Qed.

(** A ring with its block, seen from a processor that can reach memory. *)
Record at_ring v x (r b : Z) (i : binfo) (o : Z) : Prop := {
  ar_block : v_rblock v r = Some b;
  ar_ops : is_Some (v_rops v r);
  ar_info : v_info v b = Some i;
  ar_owner : v_owner v b = Some o;
  ar_cpu : cpu_ok v x }.

Lemma wp_at_ring r b i o Q v x : at_ring v x r b i o -> Q (block_of v b i o) v x -> wp (Capability.ring_block r) Q v x.
Proof. intros [A1 [ops A2] A3 A4 A5] H. by eapply wp_ring_block. Qed.

Lemma wp_resolve_ring r b i o off len need_live type Q v x : at_ring v x r b i o -> grants_ok x -> (forall rc, rc <> 0 -> Q (rc, None) v x) ->
  (forall g, names x type need_live g -> Q (0, Some g) v x) -> wp (resolve_ring r off len need_live type) Q v x.
Proof.
  intros Ha Hf Hno Hyes. apply wp_bind. eapply wp_at_ring; [exact Ha|]. destruct (_ || _); [by apply wp_ret, Hno|].
  apply wp_bind, wp_load_bytes; [apply Ha|]. apply wp_token_resolve; [done|done|]. intros g _ _. apply Hyes.
Qed.

Lemma decode_req_ok bs : Forall is_byte bs -> req_ok (decode_subgrant_req bs).
Proof. intros Hb. split; apply word_bound; done || lia. Qed.

Lemma wp_exec_subgrant r b i o sqe Q v x : at_ring v x r b i o -> grants_ok x -> routes_full x ->
  (forall rc x', granted x x' -> Q rc v x') -> wp (exec_subgrant r sqe) Q v x.
Proof.
  intros Ha Hf Hl H. pose proof (ar_cpu _ _ _ _ _ _ Ha) as Hc. assert (Hkeep : forall rc, Q rc v x) by (intros rc; by apply H, granted_refl).
  apply wp_bind. eapply wp_at_ring; [exact Ha|]. destruct (_ || _); [by apply wp_ret|].
  apply wp_bind, wp_load_bytes; [done|]. cbv zeta. apply wp_bind. eapply wp_resolve_ring; [exact Ha|done|intros; by apply wp_ret|].
  intros p (P & HP & _). apply wp_bind, wp_subgrant; [done|done|apply decode_req_ok, mem_read_bytes|by eexists| |].
  - intros rc x' Hx' _. by apply wp_ret, H, regrant_granted'.
  - intros c C x' Hx' _ _ _. apply wp_bind, wp_get_boot_key.
    assert (Hc' : cpu_ok v x') by (by destruct Hx' as [(m & n & ->) _]).
    apply wp_bind, wp_store_bytes; [done|]. by apply wp_ret, H, regrant_granted.
Qed.

Lemma wp_exec_revoke r b i o sqe Q v x : at_ring v x r b i o -> grants_ok x -> (forall rc x', granted x x' -> Q rc v x') -> wp (exec_revoke r sqe) Q v x.
Proof.
  intros Ha Hf H. pose proof (ar_cpu _ _ _ _ _ _ Ha) as Hc. assert (Hkeep : forall rc, Q rc v x) by (intros rc; by apply H, granted_refl).
  apply wp_bind. eapply wp_at_ring; [exact Ha|]. destruct (_ || _); [by apply wp_ret|]. apply wp_bind, wp_load_bytes; [done|].
  apply wp_bind, wp_token_resolve; [done|intros; by apply wp_ret|]. intros g _ _ (G & HG & _). apply wp_bind. eapply wp_revoke_step; [done|exact HG|].
  intros rc l L m _ -> _ _ _ Hp. apply wp_ret, H, regrant_granted'. split; [|done]. exists (pruned (<[g := upd_g_dead (fun _ => true) G]> (x_grants x)) l L), (x_next_grant x). by destruct x.
Qed.

Lemma wp_query_live Q v x : grants_ok x -> forall fuel g G live, x_grants x !! g = Some G -> g_depth G < Z.of_nat fuel -> (forall b, Q b v x) ->
  wp (query_live fuel (Some g) live) Q v x.
Proof.
  intros Hf fuel. induction fuel as [|fuel IH]; intros g G live HG Hd H; [pose proof (fo_depth _ _ _ Hf g G HG); lia|].
  cbn [query_live]. apply wp_bind. eapply wp_get_grant; [exact HG|]. destruct (g_parent G) as [p|] eqn:Ep.
  - destruct (fo_parent _ _ _ Hf g G p HG Ep) as (P & HP & E & _). eapply IH; [exact HP|lia|done].
  - destruct fuel; by apply wp_ret.
Qed.

Lemma wp_exec_query r b i o sqe Q v x : at_ring v x r b i o -> grants_ok x -> (forall rc x', granted x x' -> Q rc v x') -> wp (exec_query r sqe) Q v x.
Proof.
  intros Ha Hf H. pose proof (ar_cpu _ _ _ _ _ _ Ha) as Hc. assert (Hkeep : forall rc, Q rc v x) by (intros rc; by apply H, granted_refl).
  apply wp_bind. eapply wp_at_ring; [exact Ha|]. destruct (_ || _); [by apply wp_ret|]. apply wp_bind, wp_load_bytes; [done|].
  apply wp_bind. eapply wp_resolve_ring; [exact Ha|done|intros; by apply wp_ret|]. intros g (G & HG & _).
  apply wp_bind. eapply wp_query_live; [done|exact HG|pose proof (fo_depth _ _ _ Hf g G HG); unfold KCAP_MAX_DEPTH in *; lia|]. intros live.
  apply wp_bind. eapply wp_get_grant; [exact HG|]. apply wp_bind, wp_store_bytes; [done|]. by apply wp_ret, H, regrant_granted, regrant_refl.
Qed.

Lemma wp_cap_exec curr r b i o sqe Q v x : at_ring v x r b i o -> grants_ok x -> routes_full x ->
  (forall rc x', granted x x' -> Q rc v x') -> wp (cap_exec curr r sqe) Q v x.
Proof.
  intros Ha Hf Hl H. unfold cap_exec. destruct (_ =? _); [by eapply wp_exec_subgrant|]. destruct (_ =? _); [by eapply wp_exec_revoke|].
  destruct (_ =? _); [by eapply wp_exec_query|]. by apply wp_ret, H, granted_refl.
Qed.

(** ** What the interrupt and DMA schemes use *)

Lemma wp_cap_irq_route g Q v x : grants_ok x -> routes_full x -> names x KCAP_GRANT_IRQ_ROUTE true g ->
  (forall o, (forall i, o = Some i -> 0 <= i < IRQ_ROUTE_COUNT) -> Q o v x) -> wp (cap_irq_route g) Q v x.
Proof.
  intros Hf Hl (G & HG & [E0|Et] & _) H; [done|]. apply wp_bind. eapply wp_get_grant; [exact HG|].
  pose proof (fo_payload _ _ _ Hf g G HG) as Hp. unfold payload_ok in Hp. rewrite Et in Hp. destruct (g_payload G) as [| r id|]; [by destruct Hp| |by destruct Hp].
  destruct Hp as [_ Hr]. apply wp_bind. eapply wp_deref; [done|]. destruct r as [i|]; [|by apply wp_ret, H].
  apply wp_bind, wp_get_route; [done|by apply Hr|]. intros R _. apply wp_ret. destruct (_ =? _); by apply H.
Qed.

Lemma wp_cap_requester g Q v x : grants_ok x -> names x KCAP_GRANT_IOMMU_DEV true g ->
  (forall q, 0 <= q < 2 ^ 32 -> Q q v x) -> wp (cap_iommu_requester g) Q v x.
Proof.
  intros Hf (G & HG & [E0|Et] & _) H; [done|]. apply wp_bind. eapply wp_get_grant; [exact HG|].
  pose proof (fo_payload _ _ _ Hf g G HG) as Hp. unfold payload_ok in Hp. rewrite Et in Hp. destruct (g_payload G) as [| |q]; [by destruct Hp|by destruct Hp|].
  destruct Hp as [_ Hq]. eapply wp_deref; [done|]. by apply H.
Qed.

Lemma wp_create_route parent i Q v x : grants_ok x -> routes_full x -> is_Some (x_grants x !! parent) -> 0 <= i < IRQ_ROUTE_COUNT ->
  (forall rc, rc <> 0 -> Q (rc, None) v x) -> (forall t x', regrant x x' -> Q (0, Some t) v x') -> wp (cap_create_irq_route_locked parent i) Q v x.
Proof.
  intros Hf Hl [P HP] Hi Hno Hyes. apply wp_bind. eapply wp_get_grant; [exact HP|]. destruct (_ || _) eqn:Eb; [by apply wp_ret, Hno|].
  rewrite !orb_false_iff in Eb. destruct Eb as [[Et%negb_false_iff%Z.eqb_eq _] Ew%negb_false_iff].
  apply wp_bind, wp_grant_new; [done|by right; left| |by apply wp_ret, Hno|]. { intros p [= <-]. by exists P. }
  intros Hid Hnew. set (g := x_next_grant x) in *. set (N := seedling x (Some parent) KCAP_GRANT_IRQ_ROUTE false) in *.
  pose proof (forest_grown _ _ _ Hf Hid Hnew) as Hg. pose proof (grown_new _ _ _ Hf Hid Hnew) as HN. set (m := grown (x_grants x) g N) in *.
  apply wp_bind, wp_get_route; [done|done|]. intros R _. apply wp_bind, wp_mod_grant; [by eexists|]. apply wp_bind, wp_get_boot_key, wp_ret, Hyes.
  set (pl := GIrq (Some i) (route_id R)).
  assert (Ey : set_grants (alter (upd_g_payload (fun _ => pl)) g) (with_grants x m (u64 (g + 1))) = with_grants x (<[g := upd_g_payload (fun _ => pl) N]> m) (u64 (g + 1))).
  { unfold with_grants, set_grants, set_next_grant. cbn -[u64]. by rewrite (alter_found _ m g N HN). }
  change (regrant x (set_grants (alter (upd_g_payload (fun _ => pl)) g) (with_grants x m (u64 (g + 1))))). rewrite Ey.
  split; [eauto|]. apply (forest_payload m (u64 (g + 1)) g N pl true Hg HN eq_refl); [split; [done|by intros j [= <-]]|].
  intros _ p P' [= <-] HP'. left. pose proof (grown_fwd _ _ _ Hf Hid Hnew parent P HP) as HP2.
  change (m !! parent = Some (touched (g_next_sibling N) (g_parent N) g parent P)) in HP2. rewrite HP2 in HP'.
  assert (P' = touched (g_next_sibling N) (g_parent N) g parent P) as -> by congruence.
  destruct (touched_fields (g_next_sibling N) (g_parent N) g parent P) as (_ & _ & _ & E & _). by rewrite E.
Qed.

End Grants.
