(* ===== verification/IrqSpec.v ===== *)
(** * The claims of interrupt routes

    Every ring of the interrupt scheme lists the routes it claimed, each once, and
    the operations of [schemes/irq.c] keep the lists and the routes in agreement. *)

From S2P Require Import Prelude Buddy Paging Siphash PlatformMem Machine Sched Index Channel Umem Process Capability Irq Syscall Graph Wp Invariant BaseSpec SchedSpec ChannelSpec UmemSpec BlockSpec MoveSpec ThreadSpec ProcessSpec LifeSpec CallSpec RunSpec GrantSpec.

(** ** The lists *)

Module Claims.

(** The routes linked from [at_] on. *)
Inductive chain (rs : list irq_route) : option Z -> list Z -> Prop :=
  | chain_nil : chain rs None []
  | chain_cons i R L : rs !! Z.to_nat i = Some R -> 0 <= i -> chain rs (q_next_claim R) L -> chain rs (Some i) (i :: L).

(** Slot [i] of the table: a pin the controller can be programmed for is present, and
    a claimed slot is a pin or an allocated message. *)
Record slot_ok (pin : Z -> bool) (i : nat) (R : irq_route) : Prop := {
  so_gsi : q_gsi R = Z.of_nat i;
  so_generation : 0 <= q_generation R < 2 ^ 16;
  so_pin : pin (Z.of_nat i) = true -> q_present R = true;
  so_used : is_Some (q_ring R) -> q_present R || q_allocated R = true }.

Record claims_ok (pin : Z -> bool) (rs : list irq_route) (cs : gmap Z (option Z * Z)) : Prop := {
  cl_full : length rs = Z.to_nat IRQ_ROUTE_COUNT;
  cl_slot i R : rs !! i = Some R -> slot_ok pin i R;
  cl_list r cl n : cs !! r = Some (cl, n) -> exists L, chain rs cl L /\ NoDup L /\ n = Z.of_nat (length L) /\
    forall i, i ∈ L <-> 0 <= i /\ exists R, rs !! Z.to_nat i = Some R /\ q_ring R = Some r;
  cl_owner i R r : rs !! i = Some R -> q_ring R = Some r -> is_Some (cs !! r) }.

Lemma chain_fun rs at_ L : chain rs at_ L -> forall L', chain rs at_ L' -> L = L'.
Proof.
  induction 1 as [|i R L HR Hi _ IH]; inversion 1; [done|]. f_equal. apply IH. congruence.
Qed.

Lemma chain_lookup rs at_ L i : chain rs at_ L -> i ∈ L -> 0 <= i /\ is_Some (rs !! Z.to_nat i).
Proof. induction 1 as [|j R L HR Hj _ IH]; [by intros ?%not_elem_of_nil|]. intros [->|?]%elem_of_cons; [eauto|auto]. Qed.

(** A change outside the list, or one that keeps the link. *)
Lemma chain_insert rs at_ L j R R' : chain rs at_ L -> rs !! j = Some R -> (forall i, i ∈ L -> Z.to_nat i <> j) \/ q_next_claim R' = q_next_claim R ->
  chain (<[j := R']> rs) at_ L.
Proof.
  intros Hc HR Hj. induction Hc as [|i S L HS Hi Hc IH]; [constructor|]. destruct (decide (Z.to_nat i = j)) as [<-|Hne].
  - destruct Hj as [Hj|Hj]; [exfalso; by apply (Hj i); [left|]|]. econstructor; [apply list_lookup_insert_eq; by eapply lookup_lt_Some|done|].
    rewrite Hj. rewrite HR in HS. injection HS as <-. apply IH. by right.
  - econstructor; [by rewrite list_lookup_insert_ne|done|]. apply IH. destruct Hj as [Hj|Hj]; [left|by right]. intros k Hk. apply Hj. by right.
Qed.

Lemma slots_bound (L : list Z) (n : Z) : NoDup L -> (forall i, i ∈ L -> 0 <= i < n) -> (length L <= Z.to_nat n)%nat.
Proof.
  intros Hnd Hb. rewrite <- (length_seqZ 0 n). apply submseteq_length, NoDup_submseteq; [done|]. intros i Hi%Hb. apply elem_of_seqZ. lia.
Qed.

Section Facts.
Context {pin : Z -> bool} {rs : list irq_route} {cs : gmap Z (option Z * Z)} (Hok : claims_ok pin rs cs).

Lemma claims_bound r cl n : cs !! r = Some (cl, n) -> 0 <= n <= IRQ_ROUTE_COUNT.
Proof.
  intros Hr. destruct (cl_list _ _ _ Hok r cl n Hr) as (L & Hc & Hnd & -> & HL). split; [lia|].
  assert (length L <= Z.to_nat IRQ_ROUTE_COUNT)%nat; [|unfold IRQ_ROUTE_COUNT, VECTOR_DEVICE_END, VECTOR_DEVICE_BASE in *; lia].
  apply slots_bound; [done|]. intros i [Hi (R & HR & _)]%HL. apply lookup_lt_Some in HR. rewrite (cl_full _ _ _ Hok) in HR. lia.
Qed.

(** A route changes without changing hands. *)
Lemma claims_same i R R' : rs !! i = Some R -> q_ring R' = q_ring R -> q_next_claim R' = q_next_claim R ->
  slot_ok pin i R' -> claims_ok pin (<[i := R']> rs) cs.
Proof.
  intros HR E1 E2 E3. pose proof (lookup_lt_Some _ _ _ HR) as Hlt.
  assert (Hl : forall j r, (exists S, <[i := R']> rs !! j = Some S /\ q_ring S = Some r) <-> exists S, rs !! j = Some S /\ q_ring S = Some r).
  { intros j r. destruct (decide (j = i)) as [->|Hj]; [rewrite list_lookup_insert_eq, HR by done|by rewrite list_lookup_insert_ne].
    split; intros (S & [= <-] & HS); [exists R|exists R']; split; congruence. }
  split.
  - rewrite length_insert. apply Hok.
  - intros j S HS. apply list_lookup_insert_Some in HS as [(<- & <- & _)|[_ HS]]; [done|by apply (cl_slot _ _ _ Hok)].
  - intros r cl n Hr. destruct (cl_list _ _ _ Hok r cl n Hr) as (L & Hc & Hnd & Hn & HL). exists L. split_and!; [eapply chain_insert; eauto|done|done|].
    intros j. rewrite HL. by rewrite Hl.
  - intros j S r HS Hr. destruct (proj1 (Hl j r)) as (S' & HS' & Hr'); [eauto|]. by eapply (cl_owner _ _ _ Hok).
Qed.

(** Ring [r] claims the free route [i]. *)
Lemma claims_push i R R' r cl n : rs !! i = Some R -> q_ring R = None -> cs !! r = Some (cl, n) ->
  q_ring R' = Some r -> q_next_claim R' = cl -> slot_ok pin i R' ->
  claims_ok pin (<[i := R']> rs) (<[r := (Some (Z.of_nat i), n + 1)]> cs).
Proof.
  intros HR Hfree Hr E1 E2 E3. pose proof (lookup_lt_Some _ _ _ HR) as Hlt.
  assert (Hout : forall r' (L : list Z), (forall j, j ∈ L <-> 0 <= j /\ exists S, rs !! Z.to_nat j = Some S /\ q_ring S = Some r') -> forall j, j ∈ L -> Z.to_nat j <> i).
  { intros r' L HL j [_ (S & HS & ES)]%HL E. subst i. congruence. }
  split.
  - rewrite length_insert. apply Hok.
  - intros j S HS. apply list_lookup_insert_Some in HS as [(<- & <- & _)|[_ HS]]; [done|by apply (cl_slot _ _ _ Hok)].
  - intros r' cl' n'. intros [[<- [= <- <-]]|[Hne Hr']]%lookup_insert_Some.
    + destruct (cl_list _ _ _ Hok r cl n Hr) as (L & Hc & Hnd & -> & HL). exists (Z.of_nat i :: L). split_and!.
      * econstructor; [rewrite Nat2Z.id; by apply list_lookup_insert_eq|lia|]. rewrite E2. eapply chain_insert; eauto.
      * constructor; [|done]. intros Hin. apply (Hout r L HL _ Hin). apply Nat2Z.id.
      * simpl. lia.
      * intros j. rewrite elem_of_cons, HL. destruct (decide (j = Z.of_nat i)) as [->|Hj].
        { split; [intros _; split; [lia|]|by left]. rewrite Nat2Z.id, list_lookup_insert_eq by done. eauto. }
        split; [intros [?|[? HS]]; [done|]|intros [? HS]; right]; (split; [done|]);
          rewrite list_lookup_insert_ne in * by (intros ->; apply Hj; lia); done.
    + destruct (cl_list _ _ _ Hok r' cl' n' Hr') as (L & Hc & Hnd & Hn & HL). exists L. split_and!; [eapply chain_insert; eauto|done|done|].
      intros j. rewrite HL. destruct (decide (Z.to_nat j = i)) as [<-|Hj]; [rewrite list_lookup_insert_eq, HR by done|by rewrite list_lookup_insert_ne].
      split; intros [? (S & [= <-] & ?)]; congruence.
  - intros j S r' HS Hr'. apply lookup_insert_is_Some. destruct (decide (r = r')) as [->|Hne]; [by left|right; split; [done|]].
    apply list_lookup_insert_Some in HS as [(<- & <- & _)|[_ HS]]; [congruence|]. by eapply (cl_owner _ _ _ Hok).
Qed.

End Facts.

(** ** Leaving a list *)

Lemma chain_agree rs rs' at_ L : chain rs at_ L -> (forall b, b ∈ L -> rs' !! Z.to_nat b = rs !! Z.to_nat b) -> chain rs' at_ L.
Proof.
  induction 1 as [|i R L HR Hi _ IH]; intros Ha; [constructor|]. econstructor; [rewrite Ha by (by left); exact HR|done|]. apply IH. intros b Hb. apply Ha. by right.
Qed.

(** The list without [i]: its predecessor takes over its link. *)
Lemma chain_splice rs rs' R i L2 : rs !! Z.to_nat i = Some R -> forall L1 at_, chain rs at_ (L1 ++ i :: L2) -> NoDup L1 ->
  (forall b, b ∈ L2 -> rs' !! Z.to_nat b = rs !! Z.to_nat b) ->
  (forall b, b ∈ L1 -> last L1 <> Some b -> rs' !! Z.to_nat b = rs !! Z.to_nat b) ->
  (forall a, last L1 = Some a -> exists S, rs' !! Z.to_nat a = Some S /\ q_next_claim S = q_next_claim R) ->
  chain rs' (match L1 with [] => q_next_claim R | _ => at_ end) (L1 ++ L2).
Proof.
  intros HR. induction L1 as [|a L1 IH]; intros at_ Hc Hnd H2 H1 Hl; simpl in *.
  - inversion Hc as [|? R' ? HR' _ Hc']; subst. rewrite HR in HR'. injection HR' as <-. by eapply chain_agree.
  - inversion Hc as [|? A ? HA Ha Hc']; subst. apply NoDup_cons in Hnd as [Hn Hnd]. destruct L1 as [|b L1].
    + destruct (Hl a eq_refl) as (S & HS & ES). econstructor; [exact HS|done|]. rewrite ES. simpl in Hc'. inversion Hc' as [|? R' ? HR' _ Hc'']; subst.
      rewrite HR in HR'. injection HR' as <-. by eapply chain_agree.
    + econstructor; [rewrite H1; [exact HA|by left|]|done|].
      { intros E. apply Hn. change (last (a :: b :: L1)) with (last (b :: L1)) in E. by apply last_Some_elem_of. }
      apply (IH _ Hc' Hnd H2); [|exact Hl]. intros c Hc0 Hlc. apply H1; [by right|exact Hlc].
Qed.

(** The route of [i] is let go by ring [r]. *)
Definition unclaimed (rs : list irq_route) (i : Z) (L1 : list Z) (next : option Z) (R' : irq_route) : list irq_route :=
  <[Z.to_nat i := R']> match last L1 with None => rs | Some a => alter (upd_q_next_claim (fun _ => next)) (Z.to_nat a) rs end.

Lemma lookup_unclaimed rs i L1 next R' j : (Z.to_nat i < length rs)%nat -> unclaimed rs i L1 next R' !! j =
  if decide (j = Z.to_nat i) then Some R'
  else (if decide (Z.to_nat <$> last L1 = Some j) then upd_q_next_claim (fun _ => next) else id) <$> rs !! j.
Proof.
  intros Hlt. unfold unclaimed. case_decide as Hj.
  - subst j. apply list_lookup_insert_eq. destruct (last L1); by rewrite ?length_alter.
  - rewrite list_lookup_insert_ne by done. destruct (last L1) as [a|]; simpl; [|by rewrite option_fmap_id].
    case_decide as Hd; [injection Hd as <-; by rewrite list_lookup_alter_eq|]. rewrite option_fmap_id, list_lookup_alter_ne; [done|congruence].
Qed.

Section Drop.
Context (pin : Z -> bool) (rs : list irq_route) (cs : gmap Z (option Z * Z)) (r : Z) (cl : option Z) (n : Z) (L1 : list Z) (i : Z) (L2 : list Z) (R R' : irq_route)
  (Hok : claims_ok pin rs cs) (Hr : cs !! r = Some (cl, n)) (Hc : chain rs cl (L1 ++ i :: L2)) (HR : rs !! Z.to_nat i = Some R)
  (E1 : q_ring R' = None) (E2 : slot_ok pin (Z.to_nat i) R').

Let rs' := unclaimed rs i L1 (q_next_claim R) R'.

Lemma drop_list : NoDup (L1 ++ i :: L2) /\ n = Z.of_nat (length (L1 ++ i :: L2)) /\
  forall j, j ∈ L1 ++ i :: L2 <-> 0 <= j /\ exists S, rs !! Z.to_nat j = Some S /\ q_ring S = Some r.
Proof. destruct (cl_list _ _ _ Hok r cl n Hr) as (L & HL & H1 & H2 & H3). by rewrite <- (chain_fun _ _ _ HL _ Hc). Qed.

Lemma drop_lookup j : rs' !! j = if decide (j = Z.to_nat i) then Some R'
  else (if decide (Z.to_nat <$> last L1 = Some j) then upd_q_next_claim (fun _ => q_next_claim R) else id) <$> rs !! j.
Proof. apply lookup_unclaimed. by eapply lookup_lt_Some. Qed.

(** Only the ring of [i] and the link of its predecessor change. *)
Lemma drop_inv j S' : rs' !! j = Some S' -> (j = Z.to_nat i /\ S' = R') \/
  (j <> Z.to_nat i /\ exists S, rs !! j = Some S /\ q_ring S' = q_ring S /\ (slot_ok pin j S -> slot_ok pin j S')).
Proof.
  rewrite drop_lookup. case_decide as Hj; [intros [= <-]; by left|]. intros (S & HS & ->)%fmap_Some. right. split; [done|]. exists S. split; [done|]. case_decide; [|done]. split; [done|]. by intros [].
Qed.

Lemma drop_fwd j S : rs !! j = Some S -> j <> Z.to_nat i -> exists S', rs' !! j = Some S' /\ q_ring S' = q_ring S.
Proof. intros HS Hj. rewrite drop_lookup, decide_False, HS by done. simpl. eexists. split; [done|]. by case_decide. Qed.

Lemma drop_away b : b ∈ L1 ++ i :: L2 -> Z.to_nat b = Z.to_nat i -> b = i.
Proof.
  intros Hb E. assert (Hi : i ∈ L1 ++ i :: L2) by set_solver. destruct drop_list as (_ & _ & HL). apply HL in Hb as [? _]. apply HL in Hi as [? _]. lia.
Qed.

Lemma drop_chain : chain rs' (match L1 with [] => q_next_claim R | _ => cl end) (L1 ++ L2).
Proof.
  destruct drop_list as (Hnd & _ & HL). apply NoDup_app in Hnd as (N1 & N2 & N3). apply NoDup_cons in N3 as [N4 N5].
  assert (Hdis : forall b, b ∈ L1 \/ b ∈ L2 -> Z.to_nat b <> Z.to_nat i).
  { intros b Hb E. assert (b = i) as -> by (apply drop_away; [set_solver|done]). destruct Hb as [Hb|Hb]; [|done]. apply (N2 i Hb). by left. }
  assert (Hinj : forall a b, a ∈ L1 ++ i :: L2 -> b ∈ L1 ++ i :: L2 -> Z.to_nat a = Z.to_nat b -> a = b).
  { intros a b [? _]%HL [? _]%HL ?. lia. }
  eapply (chain_splice rs rs' R i L2 HR L1 cl Hc N1).
  - intros b Hb. rewrite drop_lookup, decide_False by auto. case_decide as Hd; [|by rewrite option_fmap_id]. exfalso.
    destruct (last L1) as [a|] eqn:Ea; [|done]. simpl in Hd. injection Hd as Hd. apply last_Some_elem_of in Ea as Ha.
    assert (a = b) as -> by (apply Hinj; set_solver). apply (N2 b Ha). by right.
  - intros b Hb Hlast. rewrite drop_lookup, decide_False by auto. case_decide as Hd; [|by rewrite option_fmap_id]. exfalso.
    destruct (last L1) as [a|] eqn:Ea; [|done]. simpl in Hd. injection Hd as Hd. apply last_Some_elem_of in Ea as Ha.
    apply Hlast. f_equal. apply Hinj; set_solver.
  - intros a Ea. apply last_Some_elem_of in Ea as Ha. destruct (proj1 (HL a)) as [_ (S & HS & _)]; [set_solver|].
    rewrite drop_lookup, decide_False, decide_True, HS by (auto; by rewrite Ea). simpl. eauto.
Qed.

Lemma claims_drop : claims_ok pin rs' (<[r := (match L1 with [] => q_next_claim R | _ => cl end, n - 1)]> cs).
Proof.
  destruct drop_list as (Hnd & Hn & HL). assert (Hi : i ∈ L1 ++ i :: L2) by set_solver. split.
  - unfold rs', unclaimed. rewrite length_insert. destruct (last L1); rewrite ?length_alter; apply Hok.
  - intros j S' [[-> ->]|(_ & S & HS & _ & E4)]%drop_inv; [done|]. by apply E4, (cl_slot _ _ _ Hok).
  - intros r' cl' n'. intros [[<- [= <- <-]]|[Hne Hr']]%lookup_insert_Some.
    + exists (L1 ++ L2). split_and!; [apply drop_chain| |rewrite Hn, !length_app; simpl; lia|].
      { apply NoDup_app in Hnd as (N1 & N2 & N3). apply NoDup_cons in N3 as [N4 N5]. apply NoDup_app. split_and!; [done| |done].
        intros b Hb Hb'. apply (N2 b Hb). by right. }
      intros j. split.
      * intros Hj. assert (Hj' : j ∈ L1 ++ i :: L2) by set_solver. destruct (proj1 (HL j) Hj') as [Hj0 (S & HS & ES)]. split; [done|].
        destruct (drop_fwd (Z.to_nat j) S HS) as (S' & HS' & ES'); [|exists S'; split; congruence].
        intros E%(drop_away j Hj'). subst j. apply NoDup_app in Hnd as (_ & N2 & N3). apply NoDup_cons in N3 as [N4 _].
        apply elem_of_app in Hj as [Hj|Hj]; [|done]. apply (N2 i Hj). by left.
      * intros [Hj0 (S' & HS' & ES')]. apply drop_inv in HS' as [[_ ->]|(Hji & S & HS & E4 & _)]; [congruence|].
        assert (Hj : j ∈ L1 ++ i :: L2) by (apply HL; split; [done|]; exists S; split; congruence). set_solver.
    + destruct (cl_list _ _ _ Hok r' cl' n' Hr') as (L & Hc' & Hnd' & Hn' & HL'). exists L. split_and!; [|done|done|].
      * eapply chain_agree; [exact Hc'|]. intros b Hb. destruct (proj1 (HL' b) Hb) as [Hb0 (S & HS & ES)].
        rewrite drop_lookup, decide_False; [case_decide as Hd; [|by rewrite option_fmap_id]|].
        { exfalso. destruct (last L1) as [a|] eqn:Ea; [|done]. simpl in Hd. injection Hd as Hd. apply last_Some_elem_of in Ea.
          destruct (proj1 (HL a)) as [_ (S2 & HS2 & ES2)]; [set_solver|]. rewrite Hd in HS2. congruence. }
        intros E. destruct (proj1 (HL i) Hi) as [_ (S2 & HS2 & ES2)]. rewrite E in HS. congruence.
      * intros j. rewrite HL'. split; intros [Hj0 (S & HS & ES)]; (split; [done|]).
        { destruct (drop_fwd (Z.to_nat j) S HS) as (S' & HS' & ES'); [|exists S'; split; congruence].
          intros E. destruct (proj1 (HL i) Hi) as [_ (S2 & HS2 & ES2)]. rewrite E in HS. congruence. }
        { apply drop_inv in HS as [[_ ->]|(_ & S0 & HS0 & E4 & _)]; [congruence|]. exists S0. split; congruence. }
  - intros j S' r' [[-> ->]|(_ & S & HS & E4 & _)]%drop_inv Hr'; [congruence|]. apply lookup_insert_is_Some.
    destruct (decide (r = r')) as [->|Hne]; [by left|right; split; [done|]]. eapply (cl_owner _ _ _ Hok); [exact HS|congruence].
Qed.

End Drop.

Lemma claims_new pin rs cs r : claims_ok pin rs cs -> cs !! r = None -> claims_ok pin rs (<[r := (None, 0)]> cs).
Proof.
  intros Hok Hr. split; [apply Hok|apply Hok| |].
  - intros r' cl n [[<- [= <- <-]]|[Hne Hr']]%lookup_insert_Some; [|by apply (cl_list _ _ _ Hok)]. exists []. split_and!; [constructor|constructor|done|].
    intros i. split; [by intros ?%not_elem_of_nil|]. intros [_ (R & HR & ER)]. destruct (cl_owner _ _ _ Hok _ _ _ HR ER). congruence.
  - intros i R r' HR Hr'. apply lookup_insert_is_Some. right. destruct (cl_owner _ _ _ Hok _ _ _ HR Hr') as [p Hp]. split; [intros ->; congruence|eauto].
Qed.

Lemma claims_gone pin rs cs r : claims_ok pin rs cs -> (forall i n, cs !! r <> Some (Some i, n)) -> claims_ok pin rs (delete r cs).
Proof.
  intros Hok Hr. split; [apply Hok|apply Hok| |].
  - intros r' cl n [_ Hr']%lookup_delete_Some. by apply (cl_list _ _ _ Hok).
  - intros i R r' HR Hr'. apply lookup_delete_is_Some. destruct (cl_owner _ _ _ Hok _ _ _ HR Hr') as [[cl n] Hp]. split; [|eauto]. intros <-.
    destruct (cl_list _ _ _ Hok r cl n Hp) as (L & Hc & _ & _ & HL). destruct cl as [j|]; [by apply (Hr j n)|]. inversion Hc; subst.
    apply (not_elem_of_nil (Z.of_nat i)), HL. split; [lia|]. rewrite Nat2Z.id. eauto.
Qed.

End Claims.

Import Forest Claims.

Section Irqs.
Context {PT : PageTree} {SC : Schemes}.
Implicit Types (v w : gview) (x : rest).

(** The claims belong to rings of the interrupt scheme. *)
Record routes_ok v x : Prop := {
  ro_claims : claims_ok (x_ioapic x) (x_routes x) (x_claims x);
  ro_ring r : is_Some (x_claims x !! r) -> is_Some (v_rblock v r);
  ro_irq r i n : x_claims x !! r = Some (Some i, n) -> v_rops v r = Some KSCHEME_IRQ }.

Lemma routes_of_ok v x : routes_ok v x -> routes_full x.
Proof. intros [Hc _ _]. apply Hc. Qed.

Lemma routes_rest v v' x x' : v_rblock v' = v_rblock v -> v_rops v' = v_rops v -> x_routes x' = x_routes x -> x_claims x' = x_claims x ->
  x_ioapic x' = x_ioapic x -> routes_ok v x -> routes_ok v' x'.
Proof. intros E1 E2 E3 E4 E5 [R1 R2 R3]. split; rewrite ?E1, ?E2, ?E3, ?E4, ?E5; done. Qed.

Lemma wp_mod_route i f Q v x : routes_full x -> 0 <= i < IRQ_ROUTE_COUNT -> Q tt v (set_routes (alter f (Z.to_nat i)) x) -> wp (mod_route i f) Q v x.
Proof.
  intros Hl Hi H. destruct (lookup_lt_is_Some_2 (x_routes x) (Z.to_nat i)) as [R HR]; [rewrite Hl; lia|].
  intros s <- <-. unfold mod_route. change (x_routes (rest_of s)) with (k_routes s) in HR. rewrite HR. simpl.
  unfold set_routes in H. change (x_routes (rest_of s)) with (k_routes s) in H. rewrite (alter_insert _ _ _ _ HR) in H. exact H.
Qed.

Lemma wp_ioapic gsi Q v x : Q (x_ioapic x gsi) v x -> wp (gets (fun s => k_ioapic_ok s gsi)) Q v x.
Proof. by intros H s <- <-. Qed.

(** What an operation on routes leaves behind. *)
Record rerouted v x x' : Prop := {
  rr_quiet : quiet x x';
  rr_grants : x_grants x' = x_grants x /\ x_next_grant x' = x_next_grant x /\ x_boot_key x' = x_boot_key x /\ x_iommu x' = x_iommu x;
  rr_sched : sched_inv v x' [] [];
  rr_routes : routes_ok v x' }.

Lemma rerouted_refl v x : sched_inv v x [] [] -> routes_ok v x -> rerouted v x x.
Proof. intros Hs Hr. split; [apply calm_quiet, calm_refl|done|done|done]. Qed.

Lemma rerouted_trans v x y z : rerouted v x y -> rerouted v y z -> rerouted v x z.
Proof.
  intros [A1 (A2 & A3 & A4 & A7) A5 A6] [B1 (B2 & B3 & B4 & B7) B5 B6]. split; [by eapply quiet_trans|split_and!; congruence|done|done].
Qed.

Lemma rerouted_calm v x x' : calm x x' -> sched_inv v x' [] [] -> routes_ok v x -> rerouted v x x'.
Proof.
  intros Hc Hs Hr. destruct (calm_keep _ _ Hc) as (C1 & C2 & C3 & C4 & C5 & C6 & C7 & C8 & C9 & C10 & C11 & C12 & C13).
  split; [by apply calm_quiet|done|done|by eapply (routes_rest v v x)].
Qed.

(** A route changes and keeps its place. *)
Lemma rerouted_same v x i f R : sched_inv v x [] [] -> routes_ok v x -> x_routes x !! Z.to_nat i = Some R ->
  q_ring (f R) = q_ring R -> q_next_claim (f R) = q_next_claim R -> (forall pin j, slot_ok pin j R -> slot_ok pin j (f R)) ->
  rerouted v x (set_routes (alter f (Z.to_nat i)) x).
Proof.
  intros Hs [R1 R2 R3] HR E1 E2 E3. split; [by split|done|by eapply sched_rest; [|exact Hs]|]. split; simpl; [|done|done].
  rewrite (alter_insert _ _ _ _ HR). eapply claims_same; [done|exact HR|done|done|]. by apply E3, (cl_slot _ _ _ R1).
Qed.

Lemma routes_live v x i R r : graph_inv v -> routes_ok v x -> x_routes x !! i = Some R -> q_ring R = Some r -> ring_live v r.
Proof.
  intros Hg [R1 R2 _] HR Hr. destruct (R2 r) as [b Hb]; [by eapply (cl_owner _ _ _ R1)|]. by eapply inv_ring_live.
Qed.

(** The links between the claims. *)
Definition links x : list (option Z) := q_next_claim <$> x_routes x.

Lemma chain_links rs rs' at_ L : q_next_claim <$> rs' = q_next_claim <$> rs -> chain rs at_ L -> chain rs' at_ L.
Proof.
  intros E. induction 1 as [|i R L HR Hi _ IH]; [constructor|]. assert (El : (q_next_claim <$> rs') !! Z.to_nat i = Some (q_next_claim R)).
  { by rewrite E, list_lookup_fmap, HR. }
  rewrite list_lookup_fmap in El. apply fmap_Some in El as (S & HS & ES). econstructor; [exact HS|done|]. by rewrite <- ES.
Qed.

Lemma links_same x i f : (forall R, q_next_claim (f R) = q_next_claim R) -> links (set_routes (alter f i) x) = links x.
Proof.
  intros Hf. unfold links. simpl. apply list_eq. intros j. rewrite !list_lookup_fmap. destruct (decide (i = j)) as [->|Hj]; [|by rewrite list_lookup_alter_ne].
  rewrite list_lookup_alter_eq. destruct (x_routes x !! j); simpl; [by rewrite Hf|done].
Qed.

Lemma wp_retire i Q v x : graph_inv v -> sched_inv v x [] [] -> routes_ok v x -> 0 <= i < IRQ_ROUTE_COUNT ->
  (forall x', rerouted v x x' -> x_held x' = x_held x -> links x' = links x -> Q tt v x') -> wp (retire_locked i) Q v x.
Proof.
  intros Hg Hs Hr Hi H. pose proof (routes_of_ok v x Hr) as Hl. apply wp_bind, wp_get_route; [done|done|]. intros R HR.
  assert (Hkeep : Q tt v x) by (by apply H; [apply rerouted_refl|..]).
  destruct (q_ring R) as [r|] eqn:Er; [|by apply wp_skip]. destruct (q_posted R); [|by apply wp_skip].
  apply wp_bind, wp_consumed; [done|by eapply routes_live|]. intros b. apply wp_when; intros _; [|done].
  apply wp_mod_route; [done|done|]. apply H; [|done|by apply links_same]. eapply rerouted_same; [done|done|exact HR|done|done|by intros ?? []].
Qed.

Lemma rerouted_held v x x' : rerouted v x x' -> x_held x' = x_held x.
Proof. intros Hr. by destruct (qt_keep _ _ (rr_quiet _ _ _ Hr)) as (_ & _ & _ & _ & _ & ?). Qed.

Lemma wp_post_pending i Q v x : graph_inv v -> sched_inv v x [] [] -> routes_ok v x -> 0 <= i < IRQ_ROUTE_COUNT -> held_below 3 (x_held x) ->
  (forall x', rerouted v x x' -> links x' = links x -> Q tt v x') -> wp (post_pending_locked i) Q v x.
Proof.
  intros Hg Hs Hr Hi Hh H. apply wp_bind, wp_retire; [done|done|done|done|]. intros y Hy Eh El. pose proof Hy as [_ _ Hsy Hry].
  pose proof (routes_of_ok v y Hry) as Hl. apply wp_bind, wp_get_route; [done|done|]. intros R HR.
  destruct (q_ring R) as [r|] eqn:Er; [|by apply wp_skip, H]. destruct (_ || _); [by apply wp_skip, H|].
  apply wp_bind, wp_post_data; [by apply inv_wake|done|by eapply routes_live|by rewrite Eh|]. intros o z Hsz Hc.
  pose proof (rerouted_calm v y z Hc Hsz Hry) as Hz. pose proof (rerouted_trans v x y z Hy Hz) as Hxz.
  assert (Erz : x_routes z = x_routes y) by (by destruct (calm_keep _ _ Hc) as (_ & _ & _ & _ & _ & _ & _ & _ & ? & _)).
  destruct o as [index|]; [|apply wp_skip, H; [done|unfold links; by rewrite Erz]]. pose proof (rr_routes _ _ _ Hz) as Hrz. pose proof (routes_of_ok v z Hrz) as Hlz.
  assert (HRz : x_routes z !! Z.to_nat i = Some R) by (by rewrite Erz).
  apply wp_bind, wp_mod_route; [done|done|]. pose proof (rerouted_same v z i (set_posted true) R Hsz Hrz HRz eq_refl eq_refl ltac:(by intros ?? [])) as Hu.
  apply wp_mod_route; [exact (routes_of_ok v _ (rr_routes _ _ _ Hu))|done|]. apply H; [|rewrite !links_same by done; unfold links in *; by rewrite Erz].
  eapply rerouted_trans; [exact Hxz|]. eapply rerouted_trans; [exact Hu|].
  eapply rerouted_same; [apply Hu|apply Hu|simpl; rewrite list_lookup_alter_eq, HRz; reflexivity|done|done|by intros ?? []].
Qed.

(** ** Delivery *)

Lemma rerouted_relock l v x x' : rerouted v (set_held l x) x' -> rerouted v x (set_held (x_held x) x').
Proof.
  intros [[Q1 Q2 Q3 Q4 Q5] R2 R3 R4]. split; [split; simpl in *; [naive_solver|done..]|done|by eapply sched_rest; [|exact R3]|by eapply (routes_rest v v x')].
Qed.

Lemma routes_held v x h : routes_ok v x -> routes_ok v (set_held h x).
Proof. by apply routes_rest. Qed.

Lemma sched_held v x h : sched_inv v x [] [] -> sched_inv v (set_held h x) [] [].
Proof. intros Hs. by eapply sched_rest; [|exact Hs]. Qed.

(** A section under the lock of route [i]. *)
Lemma wp_unlock_route i h {A} (k : M A) Q v x y : x_held x = h -> held_below 2 h -> rerouted v (set_held (LRoute i :: h) x) y ->
  (forall x', rerouted v x x' -> wp k Q v x') -> wp (_ ← unlock (LRoute i); k) Q v y.
Proof.
  intros Hx Hh Hr H. apply wp_bind. eapply wp_unlock_top; [by rewrite (rerouted_held _ _ _ Hr)|done|]. rewrite <- Hx. by eapply H, rerouted_relock.
Qed.

Lemma wp_irq_deliver vector Q v x : graph_inv v -> sched_inv v x [] [] -> routes_ok v x -> irq_is_device_vector vector = true ->
  held_below 2 (x_held x) -> (forall x', rerouted v x x' -> Q tt v x') -> wp (irq_deliver vector) Q v x.
Proof.
  intros Hg Hs Hr Hv Hh H. unfold irq_deliver. cbv zeta. set (i := vector - VECTOR_DEVICE_BASE).
  assert (Hi : 0 <= i < IRQ_ROUTE_COUNT).
  { unfold irq_is_device_vector in Hv. apply andb_true_iff in Hv as [H1%Z.leb_le H2%Z.leb_le]. unfold i, IRQ_ROUTE_COUNT. lia. }
  apply wp_bind, wp_lock_below; [done|]. set (y := set_held (LRoute i :: x_held x) x).
  assert (Hsy : sched_inv v y [] []) by (by apply sched_held). assert (Hry : routes_ok v y) by (by apply routes_held).
  pose proof (routes_of_ok v y Hry) as Hl. apply wp_bind, wp_get_route; [done|done|]. intros R HR.
  assert (Hend : forall z, rerouted v y z -> wp (_ ← unlock (LRoute i); x86_lapic_eoi) Q v z).
  { intros z Hz. eapply (wp_unlock_route i _ _ Q v x z eq_refl Hh Hz). intros x' Hx'. by apply wp_emit, H. }
  destruct (q_ring R) as [r|] eqn:Er.
  - apply wp_bind, wp_when; intros _; [apply wp_emit|]; (apply wp_bind, wp_mod_route; [done|done|]);
      (pose proof (rerouted_same v y i (upd_q_raised (fun n => u64 (n + 1))) R Hsy Hry HR eq_refl eq_refl ltac:(by intros ?? [])) as Hu);
      (apply wp_bind, wp_post_pending; [done|apply Hu|apply Hu|done|constructor; [simpl; lia|by eapply held_below_weaken; [|exact Hh]]|]);
      intros z Hz _; by apply Hend; eapply rerouted_trans.
  - apply wp_bind, wp_when; intros _; [apply wp_emit|]; (apply wp_bind, wp_mod_route; [done|done|]); apply Hend;
      (eapply (rerouted_same v y i _ R Hsy Hry HR); [done|done|by intros ?? []]).
Qed.

(** ** Claiming and releasing *)

(** [x] with other routes and claims. *)
Definition with_routes x (rs : list irq_route) (cs : gmap Z (option Z * Z)) : rest := set_claims (fun _ => cs) (set_routes (fun _ => rs) x).

Lemma rerouted_made v x r rs cl n : sched_inv v x [] [] -> routes_ok v x -> is_Some (v_rblock v r) -> v_rops v r = Some KSCHEME_IRQ ->
  claims_ok (x_ioapic x) rs (<[r := (cl, n)]> (x_claims x)) -> rerouted v x (with_routes x rs (<[r := (cl, n)]> (x_claims x))).
Proof.
  intros Hs [R1 R2 R3] Hb Ho Hc. split; [by split|done|by eapply sched_rest; [|exact Hs]|]. split; simpl; [done| |].
  - intros r' [->|[_ ?]]%lookup_insert_is_Some; [done|by apply R2].
  - intros r' i m [[<- _]|[_ ?]]%lookup_insert_Some; [done|by eapply R3].
Qed.

Lemma u32_count n : 0 <= n <= IRQ_ROUTE_COUNT -> u32 (n + 1) = n + 1 /\ (0 < n -> u32 (n - 1) = n - 1).
Proof. intros Hn. unfold IRQ_ROUTE_COUNT, VECTOR_DEVICE_END, VECTOR_DEVICE_BASE in Hn. split; [|intros ?]; apply Z.mod_small; lia. Qed.

(** Ring [r] takes the free route [i], which becomes [f R]. *)
Lemma wp_take r i f R cl n {A} (k : M A) Q v x : sched_inv v x [] [] -> routes_ok v x -> is_Some (v_rblock v r) -> v_rops v r = Some KSCHEME_IRQ ->
  0 <= i < IRQ_ROUTE_COUNT -> x_routes x !! Z.to_nat i = Some R -> q_ring R = None -> x_claims x !! r = Some (cl, n) ->
  q_ring (f R) = Some r -> q_next_claim (f R) = cl -> slot_ok (x_ioapic x) (Z.to_nat i) (f R) ->
  (forall x', rerouted v x x' -> x' = with_routes x (<[Z.to_nat i := f R]> (x_routes x)) (<[r := (Some i, n + 1)]> (x_claims x)) -> wp k Q v x') ->
  wp (_ ← mod_route i f; _ ← mod_ring r (upd_r_irq_claims (fun _ => Some i)); _ ← mod_ring r (upd_r_nclaims (fun n => u32 (n + 1))); k) Q v x.
Proof.
  intros Hs Hr Hb Ho Hi HR Hfree Hcl E1 E2 E3 H. pose proof (routes_of_ok v x Hr) as Hl. pose proof (ro_claims _ _ Hr) as Hc.
  destruct (u32_count n (claims_bound Hc r cl n Hcl)) as [Eu _].
  apply wp_bind, wp_mod_route; [done|done|]. apply wp_bind. eapply wp_r_irq_claims; [done|exact Hcl|]. apply wp_bind.
  eapply wp_r_nclaims; [done|apply lookup_insert_eq|]. rewrite Eu.
  set (y := with_routes x (<[Z.to_nat i := f R]> (x_routes x)) (<[r := (Some i, n + 1)]> (x_claims x))).
  replace (set_claims _ _) with y.
  2:{ unfold y, with_routes, set_claims, set_routes. simpl. by rewrite insert_insert_eq, (alter_insert _ _ _ _ HR). }
  apply H; [|done]. apply rerouted_made; [done|done|done|done|]. replace i with (Z.of_nat (Z.to_nat i)) at 2 by lia. by eapply claims_push.
Qed.

Lemma wp_claim r b i o route cookie Q v x : at_ring v x r b i o -> sched_inv v x [] [] -> routes_ok v x -> v_rops v r = Some KSCHEME_IRQ ->
  held_below 2 (x_held x) -> (forall j, route = Some j -> 0 <= j < IRQ_ROUTE_COUNT) ->
  (forall rc x', rerouted v x x' -> Q rc v x') -> wp (claim r route cookie) Q v x.
Proof.
  intros [A1 A2 A3 A4 A5] Hs Hr Ho Hh Hj H. pose proof (routes_of_ok v x Hr) as Hl. assert (Hkeep : forall rc, Q rc v x) by (intros rc; by apply H, rerouted_refl).
  destruct route as [j|]; [|by apply wp_ret]. specialize (Hj j eq_refl). unfold claim. apply wp_bind, wp_get_route; [done|done|]. intros R0 HR0. cbv zeta.
  apply wp_bind. eapply wp_get_ring; [exact A1|exact Ho|]. intros sq cq cl n Hcl. cbn [r_nslots r_nclaims r_irq_claims].
  destruct (_ <? _); [by apply wp_ret|]. apply wp_bind, wp_lock_below; [done|]. set (y := set_held (LRoute j :: x_held x) x).
  assert (Hsy : sched_inv v y [] []) by (by apply sched_held). assert (Hry : routes_ok v y) by (by apply routes_held).
  apply wp_bind, wp_get_route; [done|done|]. intros R HR. change (x_routes y) with (x_routes x) in HR. rewrite HR0 in HR. injection HR as <-.
  assert (Hend : forall rc z, rerouted v y z -> wp (_ ← unlock (LRoute j); mret rc) Q v z).
  { intros rc z Hz. eapply (wp_unlock_route j _ _ Q v x z eq_refl Hh Hz). intros x' Hx'. by apply wp_ret, H. }
  assert (Hsame : rerouted v y y) by (by apply rerouted_refl).
  destruct (bool_decide (is_Some (q_ring R0))) eqn:Ef; [by apply Hend|]. apply bool_decide_eq_false, eq_None_not_Some in Ef.
  apply wp_bind, wp_gets_any. intros apic. apply wp_bind.
  assert (Hok : forall ok : bool, (ok = true -> x_ioapic x (q_gsi R0) = true) -> wp (if negb ok then _ ← unlock (LRoute j); mret SYSERR_INVAL else
    _ ← mod_route j (fun R => upd_q_cookie (fun _ => cookie) (upd_q_raised (fun _ => 0) (upd_q_acked (fun _ => 0)
          (set_posted false (upd_q_spurious_logged (fun _ => false) (set_ring (Some r) (upd_q_next_claim (fun _ => cl) R)))))));
    _ ← mod_ring r (upd_r_irq_claims (fun _ => Some j));
    _ ← mod_ring r (upd_r_nclaims (fun n => u32 (n + 1)));
    _ ← x86_ioapic_unmask (q_gsi R0);
    _ ← unlock (LRoute j);
    mret 0) Q v y).
  { intros [] Hpin; cbn [negb]; [|by apply Hend]. destruct (cl_slot _ _ _ (ro_claims _ _ Hr) _ _ HR0) as [S1 S2 S3 S4].
    eapply (wp_take r j _ R0 cl n); try done. { split; [done|done|done|]. intros _. simpl. rewrite S3; [done|]. rewrite <- S1. by apply Hpin. }
    intros x' Hx' _. apply wp_bind, wp_emit. by apply Hend. }
  apply wp_bind, wp_ioapic. change (x_ioapic y) with (x_ioapic x). destruct (x_ioapic x (q_gsi R0)); apply wp_bind, wp_when; intros Eo; try done; [apply wp_emit|]; by apply wp_ret, Hok.
Qed.

Lemma wp_claim_link i Q v x : routes_full x -> forall L fuel prev at_, chain (x_routes x) at_ L -> i ∈ L -> (length L <= fuel)%nat ->
  (forall L1 L2, L = L1 ++ i :: L2 -> i ∉ L1 -> Q (Some (match last L1 with Some a => Some a | None => prev end)) v x) ->
  wp (claim_link fuel prev at_ i) Q v x.
Proof.
  intros Hl L. induction L as [|a L IH]; intros fuel prev at_ Hc Hi Hf H; [by apply not_elem_of_nil in Hi|].
  inversion Hc as [|? R ? HR Ha Hc']; subst. destruct fuel as [|fuel]; [simpl in Hf; lia|]. cbn [claim_link]. destruct (Z.eqb_spec a i) as [->|Hne].
  - apply wp_ret. apply (H [] L); [done|apply not_elem_of_nil].
  - apply lookup_lt_Some in HR as Hlt. rewrite Hl in Hlt. apply wp_bind, wp_get_route; [done|lia|]. intros R' HR'. rewrite HR in HR'. injection HR' as <-.
    eapply IH; [exact Hc'|set_solver|simpl in Hf; lia|]. intros L1 L2 -> Hn. specialize (H (a :: L1) L2 eq_refl ltac:(set_solver)).
    destruct L1 as [|c L1]; [exact H|]. change (last (a :: c :: L1)) with (last (c :: L1)) in H. destruct (last (c :: L1)) eqn:El; [exact H|].
    apply last_None in El. done.
Qed.

Lemma unclaimed_made rs i L1 next A f : (forall a, last L1 = Some a -> Z.to_nat a <> Z.to_nat i) ->
  alter f (Z.to_nat i) (match last L1 with None => <[Z.to_nat i := A]> rs | Some a => alter (upd_q_next_claim (fun _ => next)) (Z.to_nat a) (<[Z.to_nat i := A]> rs) end) =
  unclaimed rs i L1 next (f A).
Proof.
  intros Ha. unfold unclaimed. apply list_eq. intros j. destruct (decide (j = Z.to_nat i)) as [->|Hj].
  - destruct (decide (Z.to_nat i < length rs)%nat) as [Hlt|Hge].
    + rewrite list_lookup_alter_eq. destruct (last L1) as [a|]; [rewrite list_lookup_alter_ne by auto|]; rewrite !list_lookup_insert_eq by (by rewrite ?length_alter); done.
    + rewrite !lookup_ge_None_2; [done|..]; destruct (last L1); rewrite ?length_alter, ?length_insert, ?length_alter; lia.
  - rewrite list_lookup_alter_ne, list_lookup_insert_ne by done. destruct (last L1) as [a|]; [|by rewrite list_lookup_insert_ne].
    destruct (decide (j = Z.to_nat a)) as [->|Hja]; [rewrite !list_lookup_alter_eq|rewrite !list_lookup_alter_ne by done]; by rewrite list_lookup_insert_ne.
Qed.

(** Ring [r] gives the route [i] up; the route has been marked as [A]. *)
Lemma wp_claim_unlink r i R A cl n {B} (k : M B) Q v x y : sched_inv v x [] [] -> routes_ok v x -> is_Some (v_rblock v r) -> v_rops v r = Some KSCHEME_IRQ ->
  0 <= i < IRQ_ROUTE_COUNT -> x_routes x !! Z.to_nat i = Some R -> q_ring R = Some r -> x_claims x !! r = Some (cl, n) ->
  q_ring A = None -> q_next_claim A = q_next_claim R -> slot_ok (x_ioapic x) (Z.to_nat i) A ->
  y = set_routes (fun _ => <[Z.to_nat i := A]> (x_routes x)) x ->
  (forall x', rerouted v x x' -> wp k Q v x') -> wp (_ ← claim_unlink r i; k) Q v y.
Proof.
  intros Hs Hr Hb Ho Hi HR Hring Hcl E1 E2 E3 -> H. pose proof (ro_claims _ _ Hr) as Hc. destruct (cl_list _ _ _ Hc r cl n Hcl) as (L & HL & Hnd & Hn & Hmem).
  assert (HiL : i ∈ L) by (apply Hmem; split; [lia|eauto]). destruct (u32_count n (claims_bound Hc r cl n Hcl)) as [_ Eu].
  specialize (Eu ltac:(destruct L; [by apply not_elem_of_nil in HiL|rewrite Hn; simpl; lia])).
  assert (Hlen : (length L <= Z.to_nat IRQ_ROUTE_COUNT)%nat) by (pose proof (claims_bound Hc r cl n Hcl); lia).
  pose proof (lookup_lt_Some _ _ _ HR) as Hlt. set (y := set_routes _ x).
  assert (Hly : routes_full y) by (unfold routes_full; simpl; rewrite length_insert; apply Hc).
  assert (HA : x_routes y !! Z.to_nat i = Some A) by (by apply list_lookup_insert_eq).
  apply wp_bind. unfold claim_unlink. destruct Hb as [bk Hb]. apply wp_bind. eapply wp_get_ring; [exact Hb|exact Ho|]. intros sq cq cl' nc' Hcl'.
  simpl in Hcl'. rewrite Hcl in Hcl'. injection Hcl' as <- <-. cbn [r_irq_claims]. apply wp_bind.
  eapply (wp_claim_link i _ v y Hly L); [by eapply (chain_insert (x_routes x)); [|exact HR|right]|done|done|]. intros L1 L2 -> Hn1.
  apply wp_bind, wp_asserts; [by apply bool_decide_eq_true; eauto|]. apply wp_bind. eapply wp_deref; [done|].
  apply wp_bind, wp_get_route; [done|done|]. intros A' HA'. rewrite HA in HA'. injection HA' as <-. rewrite E2.
  assert (Hlast : forall a, last L1 = Some a -> 0 <= a < IRQ_ROUTE_COUNT /\ Z.to_nat a <> Z.to_nat i).
  { intros a Ea. apply last_Some_elem_of in Ea. destruct (proj1 (Hmem a)) as [Ha0 (S & HS & _)]; [set_solver|]. apply lookup_lt_Some in HS.
    rewrite (cl_full _ _ _ Hc) in HS. split; [lia|]. intros E. assert (a = i) as -> by lia. done. }
  set (rs' := unclaimed (x_routes x) i L1 (q_next_claim R) (upd_q_next_claim (fun _ => None) A)).
  set (head := match L1 with [] => q_next_claim R | _ => cl end).
  assert (Hend : rerouted v x (with_routes x rs' (<[r := (head, n - 1)]> (x_claims x)))).
  { apply rerouted_made; [done|done|by eexists|done|]. apply (claims_drop _ _ _ _ _ _ _ _ L2); [done|done|done|done|done|]. by destruct E3. }
  apply wp_bind. pose proof (unclaimed_made (x_routes x) i L1 (q_next_claim R) A (upd_q_next_claim (fun _ => None)) (fun a Ea => proj2 (Hlast a Ea))) as Eun.
  destruct (last L1) as [a|] eqn:El.
  - destruct (Hlast a eq_refl) as [Ha _]. apply wp_mod_route; [done|done|]. apply wp_bind, wp_mod_route; [unfold routes_full; simpl; by rewrite length_alter|done|].
    eapply wp_r_nclaims; [by eexists|exact Hcl|]. rewrite Eu. eapply H. replace (set_claims _ _) with (with_routes x rs' (<[r := (head, n - 1)]> (x_claims x))); [done|].
    unfold with_routes, set_claims, set_routes. simpl. rewrite Eun. unfold head. by destruct L1.
  - eapply wp_r_irq_claims; [by eexists|exact Hcl|]. apply wp_bind, wp_mod_route; [done|done|].
    eapply wp_r_nclaims; [by eexists|apply lookup_insert_eq|]. rewrite Eu. eapply H. replace (set_claims _ _) with (with_routes x rs' (<[r := (head, n - 1)]> (x_claims x))); [done|].
    unfold with_routes, set_claims, set_routes. simpl. rewrite Eun, insert_insert_eq. unfold head. apply last_None in El as ->. done.
Qed.

Lemma next_generation_ok g : 0 <= next_generation g < 2 ^ 16.
Proof. unfold next_generation. case_match; [lia|by apply Z.mod_pos_bound]. Qed.

(** A slot that is given up stays a slot. *)
Lemma slot_retired pin i R : slot_ok pin i R -> q_ring R = None -> slot_ok pin i (retire_slot R).
Proof.
  intros Hs Hn. unfold retire_slot. destruct (q_present R) eqn:Ep; [exact Hs|]. destruct Hs as [S1 S2 S3 S4].
  split; simpl; [done|apply next_generation_ok|done|]. rewrite Hn. by intros [].
Qed.

Lemma wp_route_for_id id Q v x : routes_full x -> 0 <= id -> Q None v x ->
  (forall i, 0 <= i < IRQ_ROUTE_COUNT -> Q (Some i) v x) -> wp (route_for_id id) Q v x.
Proof.
  intros Hl Hid Hno Hyes. unfold route_for_id. apply wp_bind. cbv zeta.
  assert (Hms : wp (if (IRQ_ROUTE_COUNT <=? Z.land (u32 id) 0xffff) || (u16 (Z.shiftr (u32 id) 16) =? 0) then mret None
    else R ← get_route (Z.land (u32 id) 0xffff);
         mret (if q_allocated R && (q_generation R =? u16 (Z.shiftr (u32 id) 16)) then Some (Z.land (u32 id) 0xffff) else None)) Q v x).
  { destruct (_ || _) eqn:Eb; [by apply wp_ret|]. apply orb_false_iff in Eb as [Eb%Z.leb_gt _].
    assert (0 <= Z.land (u32 id) 0xffff) by (apply Z.land_nonneg; by right). apply wp_bind, wp_get_route; [done|lia|].
    intros R _. apply wp_ret. case_match; [apply Hyes; lia|done]. }
  destruct (id <? IRQ_ROUTE_COUNT) eqn:Eid; [|by apply wp_ret]. apply Z.ltb_lt in Eid. apply wp_bind, wp_get_route; [done|lia|]. intros R _.
  apply wp_ret. destruct (q_present R); [apply wp_ret, Hyes; lia|exact Hms].
Qed.

(** A command on the route named by [id], under its lock. *)
Lemma wp_under_route r id k Q v x : sched_inv v x [] [] -> routes_ok v x -> held_below 2 (x_held x) -> 0 <= id ->
  (forall rc x', rerouted v x x' -> Q rc v x') ->
  (forall i R, 0 <= i < IRQ_ROUTE_COUNT -> x_routes x !! Z.to_nat i = Some R -> q_ring R = Some r ->
    sched_inv v (set_held (LRoute i :: x_held x) x) [] [] -> routes_ok v (set_held (LRoute i :: x_held x) x) ->
    wp (k i R) Q v (set_held (LRoute i :: x_held x) x)) ->
  wp (oi ← route_for_id id; match oi with None => mret SYSERR_INVAL | Some i => _ ← lock (LRoute i); R ← get_route i;
      if negb (bool_decide (q_ring R = Some r)) then _ ← unlock (LRoute i); mret SYSERR_INVAL else k i R end) Q v x.
Proof.
  intros Hs Hr Hh Hid H Hk. pose proof (routes_of_ok v x Hr) as Hl. apply wp_bind, wp_route_for_id; [done|done|by apply wp_ret, H, rerouted_refl|].
  intros i Hi. apply wp_bind, wp_lock_below; [done|]. set (y := set_held (LRoute i :: x_held x) x).
  assert (Hsy : sched_inv v y [] []) by (by apply sched_held). assert (Hry : routes_ok v y) by (by apply routes_held).
  apply wp_bind, wp_get_route; [done|done|]. intros R HR. destruct (bool_decide (q_ring R = Some r)) eqn:Eb; cbn [negb].
  - apply bool_decide_eq_true in Eb. by apply Hk.
  - eapply (wp_unlock_route i _ _ Q v x y eq_refl Hh); [by apply rerouted_refl|]. intros x' Hx'. by apply wp_ret, H.
Qed.

Lemma wp_ack r id seq Q v x : graph_inv v -> sched_inv v x [] [] -> routes_ok v x -> held_below 2 (x_held x) -> 0 <= id ->
  (forall rc x', rerouted v x x' -> Q rc v x') -> wp (ack r id seq) Q v x.
Proof.
  intros Hg Hs Hr Hh Hid H. apply wp_under_route; [done|done|done|done|done|]. intros i R Hi HR Hring Hsy Hry. set (y := set_held _ x) in *.
  pose proof (routes_of_ok v y Hry) as Hl. apply wp_bind, wp_mod_route; [done|done|].
  pose proof (rerouted_same v y i (upd_q_acked (fun _ => seq)) R Hsy Hry HR eq_refl eq_refl ltac:(by intros ?? [])) as Hu.
  apply wp_bind, wp_when; intros _; [apply wp_emit|];
    (apply wp_bind, wp_post_pending; [done|apply Hu|apply Hu|done|constructor; [simpl; lia|by eapply held_below_weaken; [|exact Hh]]|]);
    intros z Hz _; (eapply (wp_unlock_route i _ _ Q v x z eq_refl Hh); [by eapply rerouted_trans|]); intros x' Hx'; by apply wp_ret, H.
Qed.

Lemma wp_release r b i o id Q v x : at_ring v x r b i o -> sched_inv v x [] [] -> routes_ok v x -> v_rops v r = Some KSCHEME_IRQ ->
  held_below 2 (x_held x) -> 0 <= id -> (forall rc x', rerouted v x x' -> Q rc v x') -> wp (release r id) Q v x.
Proof.
  intros [A1 A2 A3 A4 A5] Hs Hr Ho Hh Hid H. apply wp_under_route; [done|done|done|done|done|]. intros j R Hj HR Hring Hsy Hry. set (y := set_held _ x) in *.
  pose proof (routes_of_ok v y Hry) as Hl. set (f := fun R => retire_slot (set_posted false (set_ring None R))).
  destruct (cl_owner _ _ _ (ro_claims _ _ Hr) _ _ _ HR Hring) as [[cl n] Hcl].
  assert (Hsl : slot_ok (x_ioapic x) (Z.to_nat j) (f R)).
  { apply slot_retired; [|done]. destruct (cl_slot _ _ _ (ro_claims _ _ Hr) _ _ HR) as [S1 S2 S3 _]. split; [done|done|done|by intros []]. }
  assert (Hmain : wp (_ ← mod_route j f; _ ← unlock (LRoute j); _ ← claim_unlink r j; mret 0) Q v y).
  { apply wp_bind, wp_mod_route; [done|done|]. apply wp_bind. eapply wp_unlock_top; [reflexivity|done|].
    eapply (wp_claim_unlink r j R (f R) cl n _ Q v x); try done; [by unfold f, retire_slot; destruct (q_present _)|by unfold f, retire_slot; destruct (q_present _)| |].
    - unfold y, set_held, set_routes. simpl. rewrite (alter_insert _ _ _ _ HR). by destruct x.
    - intros x' Hx'. by apply wp_ret, H. }
  apply wp_bind, wp_when; intros _; [apply wp_emit|]; exact Hmain.
Qed.

(** ** Messages *)

(** What a command on grants and routes leaves behind. *)
Record schemed v x x' : Prop := {
  sd_quiet : quiet x x';
  sd_sched : sched_inv v x' [] [];
  sd_grants : grants_ok x';
  sd_iommu : x_iommu x' = x_iommu x;
  sd_routes : routes_ok v x' }.

Lemma schemed_rerouted v x x' : grants_ok x -> rerouted v x x' -> schemed v x x'.
Proof. intros Hf [R1 (R2 & R3 & R4 & R7) R5 R6]. split; try done. unfold grants_ok. by rewrite R2, R3. Qed.

Lemma schemed_granted v x x' : sched_inv v x [] [] -> routes_ok v x -> granted x x' -> schemed v x x'.
Proof. intros Hs Hr [(m & n & f & ->) Hf]. split; [by split|by eapply sched_rest; [|exact Hs]|done|done|by eapply (routes_rest v v x)]. Qed.

Lemma schemed_trans v x y z : schemed v x y -> schemed v y z -> schemed v x z.
Proof. intros [A _ _ A' _] [B1 B2 B3 B' B4]. split; [by eapply quiet_trans|done|done|congruence|done]. Qed.

Lemma schemed_relock l v x x' : schemed v (set_held l x) x' -> schemed v x (set_held (x_held x) x').
Proof.
  intros [[Q1 Q2 Q3 Q4 Q5] R2 R3 R' R4]. split; [split; simpl in *; [naive_solver|done..]|by eapply sched_rest; [|exact R2]|done|done|by eapply (routes_rest v v x')].
Qed.

Lemma wp_unlock_scheme i h {A} (k : M A) Q v x y : x_held x = h -> held_below 2 h -> schemed v (set_held (LRoute i :: h) x) y ->
  (forall x', schemed v x x' -> wp k Q v x') -> wp (_ ← unlock (LRoute i); k) Q v y.
Proof.
  intros Hx Hh Hr H. apply wp_bind. eapply wp_unlock_top; [by rewrite (quiet_held _ _ (sd_quiet _ _ _ Hr))|done|]. rewrite <- Hx. by eapply H, schemed_relock.
Qed.

Lemma wp_free_slot Q v x : routes_full x -> forall n, (n <= Z.to_nat IRQ_ROUTE_COUNT)%nat -> Q None v x ->
  (forall i R, 0 <= i < IRQ_ROUTE_COUNT -> x_routes x !! Z.to_nat i = Some R -> q_present R || q_allocated R = false -> Q (Some i) v x) ->
  wp (free_slot n) Q v x.
Proof.
  intros Hl n. induction n as [|n IH]; intros Hn Hno Hyes; cbn [free_slot]; [by apply wp_ret|].
  apply wp_bind, wp_get_route; [done|lia|]. intros R HR. destruct (_ || _) eqn:E; [by apply IH; [lia|..]|]. apply wp_ret. eapply Hyes; [lia|exact HR|done].
Qed.

(** Ring [r] gives its newest claim up. *)
Lemma rerouted_untake v x r i n R A : sched_inv v x [] [] -> routes_ok v x -> is_Some (v_rblock v r) -> v_rops v r = Some KSCHEME_IRQ ->
  x_claims x !! r = Some (Some i, n) -> x_routes x !! Z.to_nat i = Some R -> q_ring A = None -> slot_ok (x_ioapic x) (Z.to_nat i) A ->
  rerouted v x (with_routes x (<[Z.to_nat i := A]> (x_routes x)) (<[r := (q_next_claim R, n - 1)]> (x_claims x))).
Proof.
  intros Hs Hr Hb Ho Hcl HR Hn Hsl. apply rerouted_made; [done|done|done|done|]. pose proof (ro_claims _ _ Hr) as Hc.
  destruct (cl_list _ _ _ Hc r _ _ Hcl) as (L & HL & _). inversion HL as [|? S L' HS Hi HL']; subst.
  apply (claims_drop _ _ _ _ (Some i) _ [] i L' R A Hc Hcl HL HR Hn Hsl).
Qed.

(** The newest claim of a ring is a route of the table. *)
Lemma head_claim v x r i n : routes_ok v x -> x_claims x !! r = Some (Some i, n) -> 0 <= i < IRQ_ROUTE_COUNT /\ 0 < n <= IRQ_ROUTE_COUNT /\ u32 (n - 1) = n - 1 /\
  exists R, x_routes x !! Z.to_nat i = Some R /\ q_ring R = Some r.
Proof.
  intros Hr Hcl. pose proof (ro_claims _ _ Hr) as Hc. destruct (cl_list _ _ _ Hc r _ _ Hcl) as (L & HL & _ & Hn & Hm).
  inversion HL as [|? S L' HS Hi HL']; subst. pose proof (claims_bound Hc r _ _ Hcl) as Hb. destruct (u32_count _ Hb) as [_ Eu].
  destruct (proj1 (Hm i)) as [_ HR]; [by left|]. pose proof (lookup_lt_Some _ _ _ HS) as Hlt. rewrite (cl_full _ _ _ Hc) in Hlt.
  cbn [length] in *. split_and!; [lia|lia|lia|lia|apply Eu; lia|done].
Qed.

(** The allocation is taken back: the grant for it could not be made. *)
Lemma wp_rollback r i n R (rc : Z) (sqe : ksqe) Q v x : sched_inv v x [] [] -> routes_ok v x -> is_Some (v_rblock v r) -> v_rops v r = Some KSCHEME_IRQ ->
  x_claims x !! r = Some (Some i, n) -> x_routes x !! Z.to_nat i = Some R ->
  (forall x', rerouted v x x' -> wp (_ ← unlock (LRoute i); mret (rc, sqe)) Q v x') ->
  wp (_ ← mod_ring r (upd_r_irq_claims (fun _ => q_next_claim R)); _ ← mod_ring r (upd_r_nclaims (fun n => u32 (n - 1)));
      _ ← mod_route i (fun R => upd_q_generation next_generation (upd_q_allocated (fun _ => false) (set_ring None (upd_q_next_claim (fun _ => None) R))));
      _ ← unlock (LRoute i); mret (rc, sqe)) Q v x.
Proof.
  intros Hs Hr Hb Ho Hcl HR H. destruct (head_claim v x r i n Hr Hcl) as (Hi & _ & Eu & _). pose proof (routes_of_ok v x Hr) as Hl.
  apply wp_bind. eapply wp_r_irq_claims; [done|exact Hcl|]. apply wp_bind. eapply wp_r_nclaims; [done|apply lookup_insert_eq|]. rewrite Eu.
  apply wp_bind, wp_mod_route; [done|done|]. set (f := fun R => upd_q_generation _ _).
  replace (set_routes _ _) with (with_routes x (<[Z.to_nat i := f R]> (x_routes x)) (<[r := (q_next_claim R, n - 1)]> (x_claims x))).
  2:{ unfold with_routes, set_claims, set_routes. simpl. by rewrite insert_insert_eq, (alter_insert _ _ _ _ HR). }
  apply H, rerouted_untake; try done. destruct (cl_slot _ _ _ (ro_claims _ _ Hr) _ _ HR) as [S1 S2 S3 _]. split; [done|apply next_generation_ok|done|by intros []].
Qed.

Lemma slot_allocated pin i r cl R : slot_ok pin i R -> slot_ok pin i (allocated_slot r cl R).
Proof.
  intros [S1 S2 S3 _]. unfold allocated_slot. cbv zeta. split; [done|apply next_generation_ok|done|]. intros _. apply orb_true_r.
Qed.

Lemma wp_allocate_msi r b i o sqe Q v x : at_ring v x r b i o -> sched_inv v x [] [] -> grants_ok x -> routes_ok v x -> v_rops v r = Some KSCHEME_IRQ ->
  held_below 2 (x_held x) -> (forall rc x', schemed v x x' -> Q rc v x') -> wp (allocate_msi_on_ring r sqe) Q v x.
Proof.
  intros Ha Hs Hf Hr Ho Hh H. pose proof Ha as [A1 A2 A3 A4 A5]. pose proof (routes_of_ok v x Hr) as Hl. assert (Hb : is_Some (v_rblock v r)) by (by eexists).
  assert (Hkeep : forall rc, Q rc v x) by (intros rc; by apply H, schemed_rerouted, rerouted_refl).
  apply wp_bind. eapply wp_resolve_ring; [exact Ha|done|intros rc _; apply wp_bind; eapply wp_at_ring; [exact Ha|by apply wp_ret]|].
  intros g (G & HG & _). apply wp_bind. eapply wp_at_ring; [exact Ha|]. destruct (_ || _); [by apply wp_ret|].
  apply wp_bind. eapply wp_get_ring; [exact A1|exact Ho|]. intros sq cq cl n Hcl. cbn [r_nslots r_nclaims r_irq_claims].
  destruct (_ <? _); [by apply wp_ret|]. apply wp_bind, wp_free_slot; [done|done|by apply wp_ret|]. intros j R Hj HR Hfree.
  pose proof (cl_slot _ _ _ (ro_claims _ _ Hr) _ _ HR) as Hsl.
  assert (Hn : q_ring R = None) by (apply eq_None_not_Some; intros Hu%(so_used _ _ _ Hsl); congruence).
  apply wp_bind, wp_lock_below; [done|]. set (y := set_held (LRoute j :: x_held x) x).
  assert (Hsy : sched_inv v y [] []) by (by apply sched_held). assert (Hry : routes_ok v y) by (by apply routes_held).
  eapply (wp_take r j (allocated_slot r cl) R cl n); try done; [by apply slot_allocated|]. intros x1 Hx1 Ex1.
  assert (Hf1 : grants_ok x1) by (by rewrite Ex1). pose proof (routes_of_ok v x1 (rr_routes _ _ _ Hx1)) as Hl1.
  set (A := allocated_slot r cl R). assert (HA : x_routes x1 !! Z.to_nat j = Some A) by (rewrite Ex1; apply list_lookup_insert_eq; by eapply lookup_lt_Some).
  assert (Hcl1 : x_claims x1 !! r = Some (Some j, n + 1)) by (rewrite Ex1; apply lookup_insert_eq).
  apply wp_bind, wp_get_route; [done|done|]. intros A' HA'. rewrite HA in HA'. injection HA' as <-. cbv zeta. apply wp_bind.
  apply wp_create_route; [done|done|rewrite Ex1; by exists G|done| |].
  - intros rc _. eapply wp_rollback; [apply Hx1|apply Hx1|done|done|exact Hcl1|exact HA|]. intros x2 Hx2.
    eapply (wp_unlock_route j _ _ Q v x x2 eq_refl Hh); [by eapply rerouted_trans|]. intros x3 Hx3. by apply wp_ret, H, schemed_rerouted.
  - intros t x2 Hx2. assert (Hc2 : cpu_ok v x2) by (destruct Hx2 as [(m & k & ->) _]; by rewrite Ex1).
    apply wp_bind, wp_store_bytes; [done|]. eapply (wp_unlock_scheme j _ _ Q v x _ eq_refl Hh); [|intros x3 Hx3; by apply wp_ret, H].
    eapply schemed_trans; [by apply schemed_rerouted; [|exact Hx1]|]. apply schemed_granted; [apply Hx1|apply Hx1|by apply regrant_granted].
Qed.

Lemma wp_msi_address route sqe Q v x : sched_inv v x [] [] -> routes_ok v x -> held_below 2 (x_held x) ->
  (forall j, route = Some j -> 0 <= j < IRQ_ROUTE_COUNT) -> (forall rc x', rerouted v x x' -> Q rc v x') -> wp (msi_address route sqe) Q v x.
Proof.
  intros Hs Hr Hh Hj H. assert (Hkeep : forall rc, Q rc v x) by (intros rc; by apply H, rerouted_refl). pose proof (routes_of_ok v x Hr) as Hl.
  destruct route as [j|]; [|by apply wp_ret]. specialize (Hj j eq_refl). apply wp_bind, wp_get_route; [done|done|]. intros R0 _.
  destruct (q_present R0); [by apply wp_ret|]. apply wp_bind, wp_lock_below; [done|]. set (y := set_held (LRoute j :: x_held x) x).
  assert (Hry : routes_ok v y) by (by apply routes_held). assert (Hrr : rerouted v y y) by (by apply rerouted_refl; [apply sched_held|]).
  apply wp_bind, wp_get_route; [done|done|]. intros R HR.
  assert (Hend : forall rc, wp (_ ← unlock (LRoute j); mret rc) Q v y).
  { intros rc. eapply (wp_unlock_route j _ _ Q v x y eq_refl Hh Hrr). intros x' Hx'. by apply wp_ret, H. }
  destruct (q_allocated R); cbn [negb]; [|by apply Hend]. apply wp_bind, wp_gets_any. intros apic. cbv zeta. by apply Hend.
Qed.

Lemma wp_irq_exec curr r b i o sqe Q v x : at_ring v x r b i o -> graph_inv v -> sched_inv v x [] [] -> grants_ok x -> routes_ok v x ->
  v_rops v r = Some KSCHEME_IRQ -> held_below 2 (x_held x) -> sqe_ok sqe -> (forall rc x', schemed v x x' -> Q rc v x') ->
  wp (irq_exec curr r sqe) Q v x.
Proof.
  intros Ha Hg Hs Hf Hr Ho Hh [_ [Sa _] _ _] H. pose proof (routes_of_ok v x Hr) as Hl.
  assert (Hre : forall rc x', rerouted v x x' -> Q rc v x') by (intros rc x' Hx'; by apply H, schemed_rerouted).
  assert (Hver : forall a b (k : Z -> M (Z * ksqe)), (forall g, names x KCAP_GRANT_IRQ_ROUTE true g -> wp (k g) Q v x) ->
    wp ('(rc, og) ← cap_verify_ring_locked r a b KCAP_GRANT_IRQ_ROUTE; match og with None => mret (rc, sqe) | Some g => k g end) Q v x).
  { intros a c k Hk. apply wp_bind. eapply wp_resolve_ring; [exact Ha|done| |exact Hk]. intros rc _. by apply wp_ret, Hre, rerouted_refl. }
  unfold irq_exec. destruct (_ =? _).
  { apply (Hver _ _ (fun g => route ← cap_irq_route g; rc ← claim r route (sqe_c sqe); mret (rc, sqe))). intros g Hg'.
    apply wp_bind, wp_cap_irq_route; [done|done|done|]. intros route Hro. apply wp_bind. eapply wp_claim; try done. intros rc x' Hx'. by apply wp_ret, Hre. }
  destruct (_ =? _). { apply wp_bind. eapply wp_release; try done. intros rc x' Hx'. by apply wp_ret, Hre. }
  destruct (_ =? _). { apply wp_bind. eapply wp_ack; try done. intros rc x' Hx'. by apply wp_ret, Hre. }
  destruct (_ =? _); [by eapply wp_allocate_msi|].
  destruct (_ =? _); [|by apply wp_ret, Hre, rerouted_refl].
  apply (Hver _ _ (fun g => route ← cap_irq_route g; msi_address route sqe)). intros g Hg'.
  apply wp_bind, wp_cap_irq_route; [done|done|done|]. intros route Hro. by apply wp_msi_address.
Qed.

(** ** Replay and destruction *)

Lemma wp_replay_loop r Q v : graph_inv v -> forall L fuel at_ x, sched_inv v x [] [] -> routes_ok v x -> held_below 2 (x_held x) ->
  chain (x_routes x) at_ L -> (length L <= fuel)%nat -> (forall x', rerouted v x x' -> Q tt v x') -> wp (replay_loop fuel r at_) Q v x.
Proof.
  intros Hg L. induction L as [|i L IH]; intros fuel at_ x Hs Hr Hh Hc Hf H; inversion Hc as [|? R ? HR Hi Hc']; subst.
  { destruct fuel; by apply wp_skip, H, rerouted_refl. }
  destruct fuel as [|fuel]; [simpl in Hf; lia|]. cbn [replay_loop]. pose proof (routes_of_ok v x Hr) as Hl.
  assert (Hi' : 0 <= i < IRQ_ROUTE_COUNT) by (apply lookup_lt_Some in HR; rewrite Hl in HR; lia).
  apply wp_bind, wp_lock_below; [done|]. set (y := set_held (LRoute i :: x_held x) x).
  assert (Hsy : sched_inv v y [] []) by (by apply sched_held). assert (Hry : routes_ok v y) by (by apply routes_held).
  apply wp_bind, wp_get_route; [done|done|]. intros R' HR'. change (x_routes y) with (x_routes x) in HR'. rewrite HR in HR'. injection HR' as <-.
  assert (Hend : forall z, rerouted v y z -> links z = links y -> wp (_ ← unlock (LRoute i); replay_loop fuel r (q_next_claim R)) Q v z).
  { intros z Hz El. apply wp_bind. eapply wp_unlock_top; [by rewrite (rerouted_held _ _ _ Hz)|done|]. pose proof (rerouted_relock _ _ _ _ Hz) as Hxz.
    apply IH; [apply Hxz|apply Hxz|done|by eapply chain_links; [|exact Hc']|simpl in Hf; lia|]. intros x' Hx'. apply H. by eapply rerouted_trans. }
  apply wp_bind, wp_when; intros _; [|by apply Hend; [apply rerouted_refl|]].
  apply wp_post_pending; [done|done|done|done|constructor; [simpl; lia|by eapply held_below_weaken; [|exact Hh]]|]. apply Hend.
Qed.

Lemma wp_irq_replay r b Q v x : graph_inv v -> sched_inv v x [] [] -> routes_ok v x -> held_below 2 (x_held x) ->
  v_rblock v r = Some b -> v_rops v r = Some KSCHEME_IRQ -> (forall x', rerouted v x x' -> Q tt v x') -> wp (irq_replay r) Q v x.
Proof.
  intros Hg Hs Hr Hh Hb Ho H. apply wp_bind. eapply wp_get_ring; [exact Hb|exact Ho|]. intros sq cq cl n Hcl. cbn [r_irq_claims].
  pose proof (ro_claims _ _ Hr) as Hc. destruct (cl_list _ _ _ Hc r _ _ Hcl) as (L & HL & _ & Hn & _). pose proof (claims_bound Hc r _ _ Hcl).
  eapply wp_replay_loop; [done|done|done|done|exact HL|lia|done].
Qed.

(** Every claim is given up before the ring goes. *)
Lemma wp_destroy_loop r b Q v : v_rblock v r = Some b -> v_rops v r = Some KSCHEME_IRQ -> forall fuel x cl n, sched_inv v x [] [] -> routes_ok v x ->
  held_below 2 (x_held x) -> x_claims x !! r = Some (cl, n) -> (Z.to_nat n <= fuel)%nat ->
  (forall x' n', rerouted v x x' -> x_claims x' !! r = Some (None, n') -> Q tt v x') -> wp (destroy_loop fuel r) Q v x.
Proof.
  intros Hb Ho fuel. induction fuel as [|fuel IH]; intros x cl n Hs Hr Hh Hcl Hf H; cbn [destroy_loop];
    (apply wp_bind; eapply wp_get_ring; [exact Hb|exact Ho|]); intros sq cq cl' n' Hcl'; rewrite Hcl in Hcl'; injection Hcl' as <- <-; cbn [r_irq_claims];
    (destruct cl as [i|]; [|by eapply wp_skip, H; [apply rerouted_refl|]]); destruct (head_claim v x r i n Hr Hcl) as (Hi & Hn & Eu & R & HR & Hring); [lia|].
  pose proof (routes_of_ok v x Hr) as Hl. apply wp_bind, wp_lock_below; [done|]. set (y := set_held (LRoute i :: x_held x) x).
  assert (Hsy : sched_inv v y [] []) by (by apply sched_held). assert (Hry : routes_ok v y) by (by apply routes_held).
  apply wp_bind, wp_get_route; [done|done|]. intros R' HR'. change (x_routes y) with (x_routes x) in HR'. rewrite HR in HR'. injection HR' as <-.
  set (f := fun R => retire_slot _).
  assert (Hmain : wp (_ ← mod_ring r (upd_r_irq_claims (fun _ => q_next_claim R)); _ ← mod_route i f; _ ← mod_ring r (upd_r_nclaims (fun n => u32 (n - 1)));
    _ ← unlock (LRoute i); destroy_loop fuel r) Q v y).
  { apply wp_bind. eapply wp_r_irq_claims; [by eexists|exact Hcl|]. apply wp_bind, wp_mod_route; [done|done|].
    apply wp_bind. eapply wp_r_nclaims; [by eexists|apply lookup_insert_eq|]. rewrite Eu.
    set (z := with_routes y (<[Z.to_nat i := f R]> (x_routes y)) (<[r := (q_next_claim R, n - 1)]> (x_claims y))).
    replace (set_claims _ _) with z.
    2:{ unfold z, with_routes, set_claims, set_routes. simpl. by rewrite insert_insert_eq, (alter_insert _ _ _ _ HR). }
    assert (Hz : rerouted v y z).
    { apply rerouted_untake; [done|done|by eexists|done|done|done|unfold f, retire_slot; by destruct (q_present _)|].
      apply slot_retired; [|done]. destruct (cl_slot _ _ _ (ro_claims _ _ Hr) _ _ HR) as [S1 S2 S3 _]. split; [done|done|done|by intros []]. }
    apply wp_bind. eapply wp_unlock_top; [by rewrite (rerouted_held _ _ _ Hz)|done|]. pose proof (rerouted_relock _ _ _ _ Hz) as Hxz.
    eapply IH; [apply Hxz|apply Hxz|done|apply lookup_insert_eq|lia|]. intros x' n' Hx' Hcl'. eapply H; [by eapply rerouted_trans|exact Hcl']. }
  apply wp_bind, wp_when; intros _; [apply wp_emit|]; exact Hmain.
Qed.

Lemma wp_irq_destroy r b Q v x : sched_inv v x [] [] -> routes_ok v x -> held_below 2 (x_held x) ->
  v_rblock v r = Some b -> v_rops v r = Some KSCHEME_IRQ ->
  (forall x' n, rerouted v x x' -> x_claims x' !! r = Some (None, n) -> Q tt v x') -> wp (irq_endpoint_destroy r) Q v x.
Proof.
  intros Hs Hr Hh Hb Ho H. unfold irq_endpoint_destroy. intros s Hv Hx.
  assert (exists cl n, x_claims x !! r = Some (cl, n)) as (cl & n & Hcl).
  { subst v x. simpl in *. unfold v_rblock in Hb. simpl in Hb. rewrite lookup_fmap. destruct (k_rings s !! r) as [N|]; [|done]. eauto. }
  pose proof (claims_bound (ro_claims _ _ Hr) r _ _ Hcl). revert s Hv Hx. change (wp (destroy_loop (Z.to_nat IRQ_ROUTE_COUNT) r) Q v x).
  eapply wp_destroy_loop; try done. lia.
Qed.

End Irqs.
