(* ===== verification/VtdSpec.v ===== *)
(** * The second-level tables of the remapping unit

    What the leaves of a domain's tables are before and after the operations of
    [vtd.c]: the way down to a leaf changes no leaf, a range is mapped leaf by leaf or
    not at all, and unmapping it takes away its leaves and no other. *)

From S2P Require Import Prelude Buddy Paging Siphash PlatformMem Machine Sched Index Channel Umem Process Capability Irq Iommu Graph Wp Invariant BaseSpec SchedSpec.

Module Slpt.

(** A table of this level: 512 entries, leaves in the two lowest levels only. *)
Fixpoint slpt_ok (level : nat) (t : list entry) : Prop :=
  match level with
  | O => False
  | S l => length t = 512%nat /\ forall i e, t !! i = Some e ->
      match e with Word w => (2 < level)%nat -> sl_present (Word w) = false | Table c => slpt_ok l c end
  end.

(** The word of a present leaf below [n] tables. *)
Definition leaf_of (e : option entry) : option Z :=
  match e with Some (Word w) => if sl_present (Word w) then Some w else None | _ => None end.

Definition slpt_leaf (n level : nat) (t : list entry) (iova : Z) : option Z := leaf_of (slpt_get n level t iova).

(** Two addresses that share the way down through [n] tables and the entry below. *)
Fixpoint same_way (n level : nat) (a b : Z) : Prop :=
  sl_index a level = sl_index b level /\ match n with O => True | S n => same_way n (pred level) a b end.

Lemma sl_index_lt a level : (sl_index a level < 512)%nat.
Proof.
  unfold sl_index. pose proof (Z.land_ones (Z.shiftr a (12 + 9 * (Z.of_nat level - 1))) 9 ltac:(lia)) as E. change (Z.ones 9) with 0x1ff in E. rewrite E.
  pose proof (Z.mod_pos_bound (Z.shiftr a (12 + 9 * (Z.of_nat level - 1))) (2 ^ 9) ltac:(lia)). lia.
Qed.

Lemma slpt_lookup level t a : slpt_ok level t -> is_Some (t !! sl_index a level).
Proof. destruct level; [done|]. intros [Hl _]. apply lookup_lt_is_Some. rewrite Hl. apply sl_index_lt. Qed.

Lemma zero_lookup i e : zero_table !! i = Some e -> e = Word 0.
Proof. intros [-> _]%lookup_replicate. done. Qed.

Lemma slpt_zero level : slpt_ok (S level) zero_table.
Proof. split; [apply length_replicate|]. intros i e ->%zero_lookup. done. Qed.

Lemma zero_get n level a e : slpt_get n level zero_table a = Some e -> e = Word 0.
Proof. destruct n; cbn [slpt_get]; [apply zero_lookup|]. destruct (zero_table !! _) as [f|] eqn:E; [|done]. by apply zero_lookup in E as ->. Qed.

Lemma zero_leaf n level a : slpt_leaf n level zero_table a = None.
Proof. unfold slpt_leaf. destruct (slpt_get n level zero_table a) as [e|] eqn:E; [|done]. by apply zero_get in E as ->. Qed.

Lemma slpt_child level t i c : slpt_ok level t -> t !! i = Some (Table c) -> exists l, level = S l /\ slpt_ok l c.
Proof. destruct level as [|l]; [done|]. intros [_ H] Hi. exists l. split; [done|]. by apply (H i (Table c)). Qed.

Lemma slpt_insert level t i c : slpt_ok (S level) t -> slpt_ok level c -> slpt_ok (S level) (<[i := Table c]> t).
Proof.
  intros [Hl H] Hc. split; [by rewrite length_insert|]. intros j e He.
  apply list_lookup_insert_Some in He as [(<- & <- & _)|[_ He]]; [done|by apply (H j)].
Qed.

(** A child table replaces an entry that led to no leaf, or one with the same leaves. *)
Lemma leaf_insert n level t i e c a : t !! i = Some e -> (length t = 512)%nat ->
  leaf_of (Some e) = None -> (forall m b, slpt_leaf m (pred level) c b = match e with Table c' => slpt_leaf m (pred level) c' b | Word _ => None end) ->
  slpt_leaf n level (<[i := Table c]> t) a = slpt_leaf n level t a.
Proof.
  intros He Hl Hn Hc. unfold slpt_leaf. assert (Hi : (i < length t)%nat) by (by eapply lookup_lt_Some).
  destruct n as [|n]; cbn [slpt_get]; (destruct (decide (i = sl_index a level)) as [->|Hne]; [rewrite list_lookup_insert_eq, He by done|by rewrite list_lookup_insert_ne]).
  - by rewrite Hn.
  - pose proof (Hc n a) as Ha. unfold slpt_leaf in Ha. rewrite Ha. by destruct e.
Qed.

(** ** Writing an entry *)

Lemma slpt_put_ok n : forall level t a w w0, slpt_ok level t -> slpt_get n level t a = Some (Word w0) -> (level <= n + 2)%nat ->
  slpt_ok level (slpt_put n level t a (Word w)).
Proof.
  induction n as [|n IH]; intros level t a w w0 Hok Hg Hlv; destruct level as [|l]; try done; pose proof Hok as [Hl H]; cbn [slpt_put slpt_get] in *.
  - split; [by rewrite length_insert|]. intros j e He. apply list_lookup_insert_Some in He as [(<- & <- & _)|[_ He]]; [lia|by apply (H j)].
  - destruct (t !! sl_index a (S l)) as [[w1|c]|] eqn:Ei; try done. cbn [pred] in *.
    destruct (slpt_child _ _ _ _ Hok Ei) as (l' & [= <-] & Hc). apply slpt_insert; [done|]. eapply IH; [done|exact Hg|lia].
Qed.

Lemma slpt_put_hit n : forall level t a b w e, slpt_get n level t a = Some e -> same_way n level a b ->
  slpt_get n level (slpt_put n level t a (Word w)) b = Some (Word w).
Proof.
  induction n as [|n IH]; intros level t a b w e Hg [Hi Hw]; cbn [slpt_put slpt_get] in *.
  - rewrite <- Hi. apply list_lookup_insert_eq. by eapply lookup_lt_Some.
  - destruct (t !! sl_index a level) as [[w1|c]|] eqn:Ei; try done. rewrite <- Hi, list_lookup_insert_eq by (by eapply lookup_lt_Some). by eapply IH.
Qed.

Lemma slpt_put_miss n : forall n' level t a b w w0, slpt_get n level t a = Some (Word w0) -> n' <> n \/ ~ same_way n level a b ->
  slpt_leaf n' level (slpt_put n level t a (Word w)) b = slpt_leaf n' level t b.
Proof.
  unfold slpt_leaf. induction n as [|n IH]; intros n' level t a b w w0 Hg Hm; cbn [slpt_put slpt_get same_way] in *.
  - assert (Hlt : (sl_index a level < length t)%nat) by (by eapply lookup_lt_Some).
    destruct n' as [|n']; cbn [slpt_get]; (destruct (decide (sl_index a level = sl_index b level)) as [E|Hne]; [|by rewrite list_lookup_insert_ne]).
    + destruct Hm as [Hm|Hm]; [done|]. by destruct Hm.
    + rewrite <- E, list_lookup_insert_eq, Hg by done. done.
  - destruct (t !! sl_index a level) as [[w1|c]|] eqn:Ei; try done. assert (Hlt : (sl_index a level < length t)%nat) by (by eapply lookup_lt_Some).
    destruct n' as [|n']; cbn [slpt_get]; (destruct (decide (sl_index a level = sl_index b level)) as [E|Hne]; [|by rewrite list_lookup_insert_ne]);
      rewrite <- E, list_lookup_insert_eq, Ei by done; [done|]. eapply IH; [exact Hg|]. destruct Hm as [Hm|Hm]; [left; congruence|right]. intros Hw. by apply Hm.
Qed.

(** ** Addresses *)

Lemma sl_index_div a level : 0 <= a -> (1 <= level)%nat -> Z.of_nat (sl_index a level) = a / 2 ^ (12 + 9 * (Z.of_nat level - 1)) mod 512.
Proof.
  intros Ha Hl. unfold sl_index. rewrite Z.shiftr_div_pow2 by lia. set (q := a / _).
  pose proof (Z.land_ones q 9 ltac:(lia)) as E. change (Z.ones 9) with 0x1ff in E. rewrite E. change (2 ^ 9) with 512. rewrite Z2Nat.id; [done|by apply Z.mod_pos_bound].
Qed.

Lemma same_way_refl n : forall level a, same_way n level a a.
Proof. induction n as [|n IH]; intros level a; cbn [same_way]; [done|]. split; [done|apply IH]. Qed.

(** Equal digits, equal quotients. *)
Lemma digits_eq k q q' : 0 <= k -> q / 2 ^ (k + 9) = q' / 2 ^ (k + 9) -> q / 2 ^ k mod 512 = q' / 2 ^ k mod 512 -> q / 2 ^ k = q' / 2 ^ k.
Proof.
  intros Hk E1 E2. rewrite Z.pow_add_r, <- !Z.div_div in E1 by lia. change (2 ^ 9) with 512 in E1.
  rewrite (Z.div_mod (q / 2 ^ k) 512), (Z.div_mod (q' / 2 ^ k) 512) by lia. congruence.
Qed.

Lemma digits_fwd k q q' : 0 <= k -> q / 2 ^ k = q' / 2 ^ k -> q / 2 ^ (k + 9) = q' / 2 ^ (k + 9).
Proof. intros Hk E. rewrite !Z.pow_add_r, <- !Z.div_div by lia. congruence. Qed.

(** From the root of a 48-bit space, two addresses share the way exactly when they are
    in the same aligned range. *)
Lemma same_way_spec n : (n <= 3)%nat -> forall a b, 0 <= a < 2 ^ 48 -> 0 <= b < 2 ^ 48 ->
  same_way n 4 a b <-> a / 2 ^ (39 - 9 * Z.of_nat n) = b / 2 ^ (39 - 9 * Z.of_nat n).
Proof.
  intros Hn a b Ha Hb.
  assert (H4 : sl_index a 4 = sl_index b 4 <-> a / 2 ^ 39 = b / 2 ^ 39).
  { pose proof (sl_index_div a 4 ltac:(lia) ltac:(lia)) as Ea. pose proof (sl_index_div b 4 ltac:(lia) ltac:(lia)) as Eb. change (12 + 9 * (Z.of_nat 4 - 1)) with 39 in *.
    assert (0 <= a / 2 ^ 39 < 512) by (split; [apply Z.div_pos; lia|apply Z.div_lt_upper_bound; lia]).
    assert (0 <= b / 2 ^ 39 < 512) by (split; [apply Z.div_pos; lia|apply Z.div_lt_upper_bound; lia]).
    rewrite Z.mod_small in Ea, Eb by lia. split; intros E; [congruence|]. lia. }
  assert (Hstep : forall l k, (1 <= l <= 3)%nat -> k = 12 + 9 * (Z.of_nat l - 1) -> a / 2 ^ (k + 9) = b / 2 ^ (k + 9) ->
    (sl_index a l = sl_index b l <-> a / 2 ^ k = b / 2 ^ k)).
  { intros l k Hl -> E. pose proof (sl_index_div a l ltac:(lia) ltac:(lia)) as Ea. pose proof (sl_index_div b l ltac:(lia) ltac:(lia)) as Eb. split; intros E'.
    - apply digits_eq; [lia|done|congruence].
    - rewrite E' in Ea. lia. }
  pose proof (Hstep 3%nat 30 ltac:(lia) eq_refl) as H3. pose proof (Hstep 2%nat 21 ltac:(lia) eq_refl) as H2. pose proof (Hstep 1%nat 12 ltac:(lia) eq_refl) as H1.
  pose proof (digits_fwd 30 a b ltac:(lia)) as F3. pose proof (digits_fwd 21 a b ltac:(lia)) as F2. pose proof (digits_fwd 12 a b ltac:(lia)) as F1.
  change (30 + 9) with 39 in *. change (21 + 9) with 30 in *. change (12 + 9) with 21 in *.
  destruct n as [|[|[|[|]]]]; cbn [same_way pred]; [| | | |lia]; [change (39 - 9 * Z.of_nat 0) with 39|change (39 - 9 * Z.of_nat 1) with 30|change (39 - 9 * Z.of_nat 2) with 21|change (39 - 9 * Z.of_nat 3) with 12]; tauto.
Qed.

End Slpt.

Import Slpt.

Section Tables.
Context {PT : PageTree}.
Implicit Types (v : gview) (x : rest).

(** No leaf stops the way down before its end. *)
Definition clear_way (n level : nat) (t : list entry) (a : Z) : Prop :=
  forall m w, (m < n)%nat -> slpt_get m level t a = Some (Word w) -> sl_present (Word w) = false.

Lemma wp_slpt_path n : forall level t a allocate Q v x, slpt_ok level t -> (n < level)%nat -> clear_way n level t a ->
  (forall t' ok, slpt_ok level t' -> (forall m b, slpt_leaf m level t' b = slpt_leaf m level t b) -> (ok = true -> is_Some (slpt_get n level t' a)) ->
     (is_Some (slpt_get n level t a) -> t' = t /\ ok = true) -> Q (t', ok) v x) ->
  wp (slpt_path n level t a allocate) Q v x.
Proof.
  induction n as [|n IH]; intros level t a allocate Q v x Hok Hn Hclear H; cbn [slpt_path].
  { apply wp_ret, H; [done|done| |done]. intros _. cbn [slpt_get]. by apply slpt_lookup. }
  destruct level as [|level]; [lia|]. cbn [pred]. set (i := sl_index a (S level)).
  destruct (slpt_lookup (S level) t a Hok) as [e He]. fold i in He. cbv zeta. apply wp_bind. eapply wp_deref; [exact He|].
  pose proof Hok as [Hlen Hent]. assert (Hl : (1 <= level)%nat) by lia.
  assert (Hdown : forall c, slpt_ok level c -> clear_way n level c a -> leaf_of (Some e) = None ->
    (forall m b, slpt_leaf m level c b = match e with Table c' => slpt_leaf m level c' b | Word _ => None end) ->
    (forall c', e = Table c' -> c' = c) ->
    wp ('(c, ok) ← slpt_path n level c a allocate; mret (<[i := Table c]> t, ok)) Q v x).
  { intros c Hc Hcl Hleaf Hce Heq. apply wp_bind, IH; [done|lia|done|]. intros c' ok Hc' Hsame Hyes Hkeep. apply wp_ret, H.
    - by apply slpt_insert.
    - intros m b. eapply leaf_insert; [exact He|done|done|]. intros m' b'. cbn [pred]. by rewrite Hsame.
    - intros Ho. cbn [slpt_get pred]. fold i. rewrite list_lookup_insert_eq by (by eapply lookup_lt_Some). by apply Hyes.
    - cbn [slpt_get pred]. fold i. rewrite He. destruct e as [w|c0]; [by intros []|]. rewrite (Heq c0 eq_refl) in *. intros Hs.
      destruct (Hkeep Hs) as [-> ->]. split; [|done]. by apply list_insert_id. }
  assert (Hno : forall w, e = Word w -> Q (t, false) v x).
  { intros w ->. apply H; [done|done|done|]. cbn [slpt_get pred]. fold i. rewrite He. by intros []. }
  destruct e as [w|c].
  - assert (Ew : sl_present (Word w) = false) by (apply (Hclear 0%nat w); [lia|exact He]).
    apply wp_bind. rewrite Ew. cbn [negb]. destruct allocate; cbn [negb]; [|by apply wp_ret, wp_ret, (Hno w)].
    apply wp_bind, wp_try_alloc. intros []; apply wp_ret; [|by apply wp_ret, (Hno w)]. destruct level as [|level]; [lia|]. apply Hdown; [apply slpt_zero| | | |done].
    + intros m w' _ E. apply zero_get in E as [= ->]. done.
    + cbn [leaf_of]. by rewrite Ew.
    + intros m b. apply zero_leaf.
  - cbn [sl_present negb]. apply wp_bind, wp_ret. destruct (slpt_child _ _ _ _ Hok He) as (l & [= <-] & Hc).
    apply Hdown; [done| |done|done|by intros c' [= ->]]. intros m w Hm E. apply (Hclear (S m) w); [lia|]. cbn [slpt_get pred]. fold i. by rewrite He.
Qed.

(** ** The leaves of a domain *)

(** [F k a] is the word of the level [k] leaf at [a]. *)
Definition tables (t : list entry) (F : nat -> Z -> option Z) : Prop :=
  slpt_ok 4 t /\ forall k a, (1 <= k <= 2)%nat -> 0 <= a < 2 ^ 48 -> slpt_leaf (4 - k) 4 t a = F k a.

Lemma tables_ext t F F' : tables t F -> (forall k a, (1 <= k <= 2)%nat -> 0 <= a < 2 ^ 48 -> F' k a = F k a) -> tables t F'.
Proof. intros [Hok H] E. split; [done|]. intros k a Hk Ha. rewrite E by done. by apply H. Qed.

(** The bytes under a leaf. *)
Definition leaf_span (k : nat) : Z := if decide (k = 2)%nat then 2 ^ 21 else 2 ^ 12.

Lemma leaf_span_pow k : (1 <= k <= 2)%nat -> leaf_span k = 2 ^ (39 - 9 * Z.of_nat (4 - k)).
Proof. intros Hk. unfold leaf_span. destruct k as [|[|[|]]]; try lia; done. Qed.

Lemma upper_clear m : forall level t a w, slpt_ok level t -> (m + 2 < level)%nat -> slpt_get m level t a = Some (Word w) -> sl_present (Word w) = false.
Proof.
  induction m as [|m IH]; intros level t a w Hok Hl Hg; (destruct level as [|level]; [done|]); pose proof Hok as [_ H]; cbn [slpt_get pred] in Hg.
  - apply (H _ _ Hg). lia.
  - destruct (t !! sl_index a (S level)) as [[w'|c]|] eqn:E; try done. destruct (slpt_child _ _ _ _ Hok E) as (l & [= <-] & Hc). eapply IH; [exact Hc|lia|exact Hg].
Qed.

Lemma tables_clear t F k a : tables t F -> (1 <= k <= 2)%nat -> 0 <= a < 2 ^ 48 -> (k = 1%nat -> F 2%nat a = None) -> clear_way (4 - k) 4 t a.
Proof.
  intros [Hok H] Hk Ha H2 m w Hm Hg. destruct (decide (m = 2)%nat) as [->|Hm2]; [|eapply upper_clear; [exact Hok| |exact Hg]; lia].
  assert (k = 1%nat) as -> by lia. specialize (H 2%nat a ltac:(lia) Ha). rewrite (H2 eq_refl) in H. unfold slpt_leaf in H. change (4 - 2)%nat with 2%nat in H.
  rewrite Hg in H. cbn [leaf_of] in H. by destruct (sl_present (Word w)).
Qed.

(** One leaf is written. *)
Lemma tables_put t F k a w w0 : tables t F -> (1 <= k <= 2)%nat -> 0 <= a < 2 ^ 48 -> slpt_get (4 - k) 4 t a = Some (Word w0) ->
  tables (slpt_put (4 - k) 4 t a (Word w))
    (fun k' b => if decide (k' = k /\ b / leaf_span k = a / leaf_span k) then leaf_of (Some (Word w)) else F k' b).
Proof.
  intros [Hok H] Hk Ha Hg. split; [eapply slpt_put_ok; [exact Hok|exact Hg|lia]|]. intros k' b Hk' Hb.
  pose proof (same_way_spec (4 - k) ltac:(lia) a b Ha Hb) as Hw. rewrite <- leaf_span_pow in Hw by done. case_decide as Hd.
  - destruct Hd as [-> Hd]. unfold slpt_leaf. erewrite slpt_put_hit; [done|exact Hg|]. by apply Hw.
  - rewrite (slpt_put_miss _ _ _ _ _ _ _ w0 Hg); [by apply H|]. destruct (decide (k' = k)) as [->|Hne]; [right|left; lia]. intros Hs%Hw. by apply Hd.
Qed.

End Tables.

Section Vtds.
Context {PT : PageTree}.
Implicit Types (v : gview) (x : rest).

Lemma wp_get_iommu Q v x : Q (x_iommu x) v x -> wp (gets k_iommu) Q v x.
Proof. intros H s <- <-. exact H. Qed.

Lemma wp_get_vtd Q v x : Q (io_vtd (x_iommu x)) v x -> wp get_vtd Q v x.
Proof. intros H s <- <-. exact H. Qed.

Lemma wp_mod_iommu f Q v x : Q tt v (set_iommu f x) -> wp (mod_iommu f) Q v x.
Proof. intros H s <- <-. exact H. Qed.

Lemma wp_get_domain d D Q v x : domain_at (x_iommu x) d = Some D -> Q D v x -> wp (get_domain d) Q v x.
Proof. intros HD H. apply wp_bind. intros s <- <-. simpl. change (x_iommu (rest_of s)) with (k_iommu s) in HD. rewrite HD. by eapply wp_deref. Qed.

(** Domain [d] changes by [f]. *)
Definition on_domain (d : Z) (f : iommu_domain -> iommu_domain) x : rest :=
  set_iommu (upd_io_domains (fmap (fun D => if dm_id D =? d then f D else D))) x.

Lemma wp_mod_domain d D f Q v x : domain_at (x_iommu x) d = Some D -> Q tt v (on_domain d f x) -> wp (mod_domain d f) Q v x.
Proof. intros HD H. apply wp_bind. eapply wp_get_domain; [exact HD|]. by apply wp_mod_iommu. Qed.

Lemma domain_on d f x D : (forall D, dm_id (f D) = dm_id D) -> domain_at (x_iommu x) d = Some D -> domain_at (x_iommu (on_domain d f x)) d = Some (f D).
Proof.
  intros Hf. unfold domain_at, on_domain. simpl. induction (io_domains (x_iommu x)) as [|E l IH]; [done|]. simpl.
  destruct (Z.eqb_spec (dm_id E) d) as [Hd|Hd]; simpl; [rewrite Hf, (proj2 (Z.eqb_eq _ _) Hd); by intros [= ->]|].
  rewrite (proj2 (Z.eqb_neq _ _) Hd). exact IH.
Qed.

Lemma on_domain_twice d f g x : (forall D, dm_id (f D) = dm_id D) -> on_domain d g (on_domain d f x) = on_domain d (fun D => g (f D)) x.
Proof.
  intros Hf. unfold on_domain, set_iommu, upd_io_domains. simpl. rewrite <- list_fmap_compose.
  rewrite (list_fmap_ext _ (fun D => if dm_id D =? d then g (f D) else D)); [done|]. intros _ D _. simpl. destruct (Z.eqb_spec (dm_id D) d) as [E|E].
  - by rewrite Hf, (proj2 (Z.eqb_eq _ _) E).
  - by rewrite (proj2 (Z.eqb_neq _ _) E).
Qed.

Lemma on_domain_ext d f g x : (forall D, f D = g D) -> on_domain d f x = on_domain d g x.
Proof.
  intros E. unfold on_domain, set_iommu, upd_io_domains. rewrite (list_fmap_ext _ (fun D => if dm_id D =? d then g D else D)); [done|].
  intros _ D _. by rewrite E.
Qed.

(** The root of domain [d] is [t]. *)
Definition with_root (d : Z) (t : list entry) x : rest := on_domain d (upd_dm_root (fun _ => t)) x.

Lemma with_root_twice d t t' x : with_root d t' (with_root d t x) = with_root d t' x.
Proof. unfold with_root. by rewrite on_domain_twice. Qed.

Lemma root_of d t x D : domain_at (x_iommu x) d = Some D -> domain_at (x_iommu (with_root d t x)) d = Some (upd_dm_root (fun _ => t) D).
Proof. by apply domain_on. Qed.

Lemma wp_slpt_entry d D t F a k allocate Q v x : domain_at (x_iommu x) d = Some D -> tables t F -> (1 <= k <= 2)%nat -> 0 <= a < 2 ^ 48 ->
  (k = 1%nat -> F 2%nat a = None) ->
  (forall t' ok, tables t' F -> (ok = true -> is_Some (slpt_get (4 - k) 4 t' a)) -> (is_Some (slpt_get (4 - k) 4 t a) -> t' = t /\ ok = true) ->
     Q ok v (with_root d t' x)) ->
  wp (slpt_entry d a k allocate) Q v (with_root d t x).
Proof.
  intros HD Ht Hk Ha H2 H. pose proof (root_of d t x D HD) as HD'. apply wp_bind. eapply wp_get_domain; [exact HD'|]. simpl.
  apply wp_bind, wp_slpt_path; [apply Ht|lia|by eapply tables_clear|]. intros t' ok Hok Hsame Hyes Hkeep.
  apply wp_bind. eapply wp_mod_domain; [exact HD'|]. apply wp_ret. change (on_domain _ _ _) with (with_root d t' (with_root d t x)). rewrite with_root_twice.
  apply H; [|done|done]. destruct Ht as [_ HF]. split; [done|]. intros k' b Hk' Hb. rewrite Hsame. by apply HF.
Qed.

Lemma wp_leaf_read d D t e a k Q v x : domain_at (x_iommu x) d = Some D -> slpt_get (4 - k) 4 t a = Some e -> Q e v (with_root d t x) ->
  wp (leaf_read d a k) Q v (with_root d t x).
Proof. intros HD He H. apply wp_bind. eapply wp_get_domain; [by apply root_of|]. eapply wp_deref; [exact He|done]. Qed.

Lemma wp_leaf_write d D t w a k Q v x : domain_at (x_iommu x) d = Some D -> Q tt v (with_root d (slpt_put (4 - k) 4 t a (Word w)) x) ->
  wp (leaf_write d a k w) Q v (with_root d t x).
Proof.
  intros HD H. eapply wp_mod_domain; [by apply root_of|]. unfold with_root. rewrite on_domain_twice by done. exact H.
Qed.

Lemma wp_invalidate Q v x : vt_responds (io_vtd (x_iommu x)) = true -> Q true v x -> wp invalidate_all Q v x.
Proof. intros Hr H. apply wp_bind, wp_emit, wp_bind, wp_get_vtd, wp_ret. by rewrite Hr. Qed.

(** ** A range of leaves *)

Definition leaf_word (k : nat) (to bits : Z) : Z := Z.lor (Z.lor (Z.land to VTD_ADDR_MASK) bits) (if decide (k = 2)%nat then VTD_SL_PS else 0).

(** [F] with the leaves of the range at [base] from the [i]-th to before the [m]-th. *)
Definition laid (F : nat -> Z -> option Z) (k : nat) (base bits i m : Z) : nat -> Z -> option Z :=
  fun k' a => if decide (k' = k /\ base + i * leaf_span k <= a < base + m * leaf_span k)
    then Some (leaf_word k (a / leaf_span k * leaf_span k) bits) else F k' a.

Lemma leaf_present k to bits : 1 <= bits <= 3 -> sl_present (Word (leaf_word k to bits)) = true.
Proof.
  intros Hb. unfold sl_present, leaf_word. change (Z.lor VTD_SL_READ VTD_SL_WRITE) with 3. rewrite !Z.land_lor_distr_l, <- Z.land_assoc.
  change (Z.land VTD_ADDR_MASK 3) with 0. rewrite Z.land_0_r, Z.lor_0_l.
  replace (Z.land (if decide (k = 2)%nat then VTD_SL_PS else 0) 3) with 0 by (by case_decide). rewrite Z.lor_0_r.
  assert (bits = 1 \/ bits = 2 \/ bits = 3) as [-> | [-> | ->]] by lia; done.
Qed.

Lemma leaf_word_bool k to bits :
  leaf_word k to bits = Z.lor (Z.lor (Z.land to VTD_ADDR_MASK) bits) (if bool_decide (k = 2%nat) then VTD_SL_PS else 0).
Proof. unfold leaf_word. by destruct (decide (k = 2)%nat); [rewrite bool_decide_true|rewrite bool_decide_false]. Qed.

Section Range.
Context (superpage : bool) (k : nat) (base cnt : Z).
Context (Hk : k = 2%nat /\ superpage = true \/ k = 1%nat /\ (superpage = false \/ cnt < 512)).
Context (Hbase : 0 <= base) (Hal : base mod leaf_span k = 0) (Hend : base + cnt * leaf_span k <= 2 ^ 48).

(** The pages of a leaf, and the address of the [i]-th one. *)
Let step : Z := if decide (k = 2)%nat then 512 else 1.
Let at_leaf (i : Z) : Z := base + i * leaf_span k.

Lemma level_bound : (1 <= k <= 2)%nat.
Proof. destruct Hk as [[-> _]|[-> _]]; lia. Qed.

Lemma span_step : leaf_span k = step * PAGE_SIZE /\ 0 < step.
Proof. unfold step, leaf_span, PAGE_SIZE. by destruct Hk as [[-> _]|[-> _]]. Qed.

Lemma span_pos : 0 < leaf_span k.
Proof. destruct span_step as [-> ?]. unfold PAGE_SIZE. lia. Qed.

Lemma at_leaf_page i : base + i * step * PAGE_SIZE = at_leaf i.
Proof. unfold at_leaf. rewrite (proj1 span_step). ring. Qed.

Lemma at_leaf_bound i : 0 <= i < cnt -> 0 <= at_leaf i < 2 ^ 48 /\ at_leaf i + leaf_span k <= 2 ^ 48.
Proof. intros Hi. pose proof span_pos. unfold at_leaf. nia. Qed.

Lemma at_leaf_in i : 0 <= i < cnt -> base <= at_leaf i < at_leaf cnt.
Proof. intros Hi. pose proof span_pos. unfold at_leaf. nia. Qed.

Lemma at_leaf_div i a : a / leaf_span k = at_leaf i / leaf_span k <-> at_leaf i <= a < at_leaf (i + 1).
Proof.
  pose proof span_pos as Hs. unfold at_leaf. rewrite Z.div_add by lia. pose proof (Z.div_mod base (leaf_span k) ltac:(lia)) as E. rewrite Hal in E.
  set (q := base / leaf_span k) in *. pose proof (Z.div_mod a (leaf_span k) ltac:(lia)) as Ea. pose proof (Z.mod_pos_bound a (leaf_span k) Hs).
  set (p := a / leaf_span k) in *. split; [intros ->; nia|]. intros [H1 H2]. assert (p < q + i + 1) by nia. assert (q + i < p + 1) by nia. lia.
Qed.

(** Every leaf of the range has the same size. *)
Lemma huge_leaf i n : 0 <= i < n -> n <= cnt -> leaf_huge superpage (at_leaf i) (n * step - i * step) = bool_decide (k = 2%nat).
Proof.
  intros Hi Hn. unfold leaf_huge, at_leaf, step. destruct Hk as [[-> ->]|[-> Hsp]].
  - change (leaf_span 2) with (2 ^ 21) in *. change (if decide _ then 512 else 1) with 512. change HUGE_MASK with (Z.ones 21). rewrite Z.land_ones by lia.
    rewrite Z.mod_add, Hal by lia. destruct (Z.leb_spec 512 (n * 512 - i * 512)); [done|lia].
  - change (if decide _ then 512 else 1) with 1. destruct Hsp as [->|Hc]; [done|].
    destruct (Z.leb_spec 512 (n * 1 - i * 1)); [lia|apply andb_false_r].
Qed.

Lemma level_of : leaf_level (bool_decide (k = 2%nat)) = k.
Proof. by destruct Hk as [[-> _]|[-> _]]. Qed.

Lemma pages_of : leaf_pages (bool_decide (k = 2%nat)) = step.
Proof. unfold step. by destruct Hk as [[-> _]|[-> _]]. Qed.

(** The range has no leaf of [F], and none in the way. *)
Definition vacant (F : nat -> Z -> option Z) : Prop :=
  forall a, base <= a < at_leaf cnt -> F k a = None /\ (k = 1%nat -> F 2%nat a = None).

Lemma laid_out F bits i m a : (k = 1%nat -> F 2%nat a = None) -> k = 1%nat -> laid F k base bits i m 2%nat a = None.
Proof. intros H E. unfold laid. rewrite decide_False; [by apply H|]. intros [E' _]. congruence. Qed.

(** Laying down the next leaf. *)
Lemma tables_lay F t bits m w0 : tables t (laid F k base bits 0 m) -> 1 <= bits <= 3 -> 0 <= m < cnt ->
  slpt_get (4 - k) 4 t (at_leaf m) = Some (Word w0) ->
  tables (slpt_put (4 - k) 4 t (at_leaf m) (Word (leaf_word k (at_leaf m) bits))) (laid F k base bits 0 (m + 1)).
Proof.
  intros Ht Hb Hm Hg. pose proof span_pos as Hs. destruct (at_leaf_bound m Hm) as [Hr _].
  eapply tables_ext; [eapply tables_put; [exact Ht|apply level_bound|done|exact Hg]|]. intros k' a Hk' Ha. cbv beta.
  pose proof (at_leaf_div m a) as Hd. pose proof (at_leaf_div m (at_leaf m)) as Hd'. unfold at_leaf in *.
  case_decide as E.
  - destruct E as [-> E]. apply Hd in E as E1. cbn [leaf_of]. rewrite leaf_present by done. unfold laid. rewrite decide_True by (split; [done|nia]). do 2 f_equal.
    rewrite E. pose proof (Z.div_mod base (leaf_span k) ltac:(lia)) as Eb. rewrite Hal in Eb. rewrite Z.div_add by lia. nia.
  - unfold laid. destruct (decide (k' = k /\ base + 0 * leaf_span k <= a < base + m * leaf_span k)) as [[-> Hin]|Hout].
    + by rewrite decide_True by (split; [done|nia]).
    + rewrite decide_False; [done|]. intros [-> Hin]. destruct (decide (base + m * leaf_span k <= a)) as [Hge|Hlt]; [apply E; split; [done|]; apply Hd; lia|apply Hout; split; [done|lia]].
Qed.

(** Taking the first leaf up. *)
Lemma tables_strip F t bits i m w0 : tables t (laid F k base bits i m) -> vacant F -> 0 <= i < m -> m <= cnt ->
  slpt_get (4 - k) 4 t (at_leaf i) = Some (Word w0) ->
  tables (slpt_put (4 - k) 4 t (at_leaf i) (Word 0)) (laid F k base bits (i + 1) m).
Proof.
  intros Ht Hv Hi Hm Hg. pose proof span_pos as Hs. destruct (at_leaf_bound i ltac:(lia)) as [Hr _].
  eapply tables_ext; [eapply tables_put; [exact Ht|apply level_bound|done|exact Hg]|]. intros k' a Hk' Ha. cbv beta.
  pose proof (at_leaf_div i a) as Hd. unfold vacant, at_leaf in *. case_decide as E.
  - destruct E as [-> E]. apply Hd in E as E1. cbn [leaf_of]. change (sl_present (Word 0)) with false. cbv iota.
    unfold laid. rewrite decide_False by (intros [_ ?]; lia). apply Hv. nia.
  - unfold laid. destruct (decide (k' = k /\ base + i * leaf_span k <= a < base + m * leaf_span k)) as [[-> Hin]|Hout].
    + rewrite decide_True; [done|]. split; [done|]. split; [|lia]. destruct (decide (a < base + (i + 1) * leaf_span k)) as [Hlt|Hge]; [|lia].
      exfalso. apply E. split; [done|]. apply Hd. lia.
    + rewrite decide_False; [done|]. intros [-> Hin]. apply Hout. split; [done|]. nia.
Qed.

(** The leaf that is there. *)
Lemma laid_leaf F t bits i m : tables t (laid F k base bits i m) -> 1 <= bits <= 3 -> 0 <= i < m -> m <= cnt ->
  exists w, slpt_get (4 - k) 4 t (at_leaf i) = Some (Word w) /\ sl_present (Word w) = true.
Proof.
  intros [_ H] Hb Hi Hm. destruct (at_leaf_bound i ltac:(lia)) as [Hr _]. specialize (H k (at_leaf i) level_bound Hr). pose proof span_pos.
  unfold laid in H. rewrite decide_True in H by (split; [done|unfold at_leaf; nia]). unfold slpt_leaf, leaf_of in H.
  destruct (slpt_get (4 - k) 4 t (at_leaf i)) as [[w|]|]; try done. exists w. split; [done|]. by destruct (sl_present (Word w)).
Qed.

Lemma wp_map_loop d D F bits Q v x : domain_at (x_iommu x) d = Some D -> vacant F -> 1 <= bits <= 3 -> forall fuel m t, tables t (laid F k base bits 0 m) ->
  0 <= m <= cnt -> cnt - m <= Z.of_nat fuel ->
  (forall m' t', m <= m' <= cnt -> tables t' (laid F k base bits 0 m') -> Q (m' * step) v (with_root d t' x)) ->
  wp (map_loop fuel superpage d base base (cnt * step) bits (m * step)) Q v (with_root d t x).
Proof.
  intros HD Hv Hb fuel. pose proof (proj2 span_step) as Hst. pose proof level_bound as Hlv.
  induction fuel as [|fuel IH]; intros m t Ht Hm Hf H; cbn [map_loop]; (destruct (Z.leb_spec (cnt * step) (m * step)); [by apply wp_ret, H; [lia|]|]); [nia|].
  assert (Hm' : 0 <= m < cnt) by nia. cbv zeta. rewrite at_leaf_page, huge_leaf by lia.
  destruct (at_leaf_bound m Hm') as [Hr _].
  assert (Ehu : bool_decide (k = 2%nat) && (Z.land (at_leaf m) HUGE_MASK =? 0) = bool_decide (k = 2%nat)).
  { rewrite <- (huge_leaf m cnt) by lia. unfold leaf_huge. destruct superpage, (Z.land (at_leaf m) HUGE_MASK =? 0), (512 <=? _); done. }
  rewrite Ehu, level_of, pages_of. pose proof span_pos as Hs. pose proof (at_leaf_in m Hm') as Hin.
  apply wp_bind. eapply wp_slpt_entry; [exact HD|exact Ht|exact Hlv|exact Hr|intros E; apply laid_out; [apply (Hv _ Hin)|done]|].
  intros t' ok Ht' Hyes _. destruct ok; cbn [negb]; [|apply wp_ret, H; [lia|done]]. destruct (Hyes eq_refl) as [e He].
  apply wp_bind. eapply wp_leaf_read; [exact HD|exact He|]. destruct (sl_present e) eqn:Ep; [apply wp_ret, H; [lia|done]|].
  destruct e as [w0|c]; [|done]. apply wp_bind. eapply wp_leaf_write; [exact HD|].
  replace (Z.lor _ (if bool_decide (k = 2%nat) then VTD_SL_PS else 0)) with (leaf_word k (at_leaf m) bits) by (apply leaf_word_bool).
  replace (m * step + step) with ((m + 1) * step) by ring. apply IH; [by eapply tables_lay|lia|lia|]. intros m' t'' Hm'' Ht''. apply H; [lia|done].
Qed.

Lemma wp_rollback_loop d D F bits n Q v x : domain_at (x_iommu x) d = Some D -> vacant F -> 1 <= bits <= 3 -> n <= cnt -> forall fuel i t,
  tables t (laid F k base bits i n) -> 0 <= i <= n -> n - i <= Z.of_nat fuel ->
  (forall t', tables t' (laid F k base bits n n) -> Q tt v (with_root d t' x)) ->
  wp (rollback_loop fuel superpage d base (n * step) (i * step)) Q v (with_root d t x).
Proof.
  intros HD Hv Hb Hn fuel. pose proof (proj2 span_step) as Hst. pose proof level_bound as Hlv. pose proof span_pos as Hs.
  induction fuel as [|fuel IH]; intros i t Ht Hi Hf H; cbn [rollback_loop];
    (destruct (Z.leb_spec (n * step) (i * step)); [assert (i = n) as -> by nia; by apply wp_skip, H|]); [nia|].
  assert (Hi' : 0 <= i < n) by nia. cbv zeta. rewrite at_leaf_page, huge_leaf, level_of, pages_of by lia.
  destruct (at_leaf_bound i ltac:(lia)) as [Hr _]. destruct (laid_leaf F t bits i n Ht Hb Hi' Hn) as (w0 & Hw0 & _).
  pose proof (at_leaf_in i ltac:(lia)) as Hin.
  apply wp_bind. eapply wp_slpt_entry; [exact HD|exact Ht|exact Hlv|exact Hr|intros E; apply laid_out; [apply (Hv _ Hin)|done]|].
  intros t' ok _ _ Hsame. destruct (Hsame ltac:(by eexists)) as [-> ->]. apply wp_bind. cbn [when]. eapply wp_leaf_write; [exact HD|].
  replace (i * step + step) with ((i + 1) * step) by ring. apply IH; [by eapply tables_strip|lia|lia|done].
Qed.

Lemma wp_unmap_loop d D F bits Q v x : domain_at (x_iommu x) d = Some D -> vacant F -> 1 <= bits <= 3 -> forall fuel i t,
  tables t (laid F k base bits i cnt) -> 0 <= i <= cnt -> cnt - i <= Z.of_nat fuel ->
  (forall t', tables t' (laid F k base bits cnt cnt) -> Q true v (with_root d t' x)) ->
  wp (unmap_loop fuel superpage d base (cnt * step) (i * step)) Q v (with_root d t x).
Proof.
  intros HD Hv Hb fuel. pose proof (proj2 span_step) as Hst. pose proof level_bound as Hlv. pose proof span_pos as Hs.
  induction fuel as [|fuel IH]; intros i t Ht Hi Hf H; cbn [unmap_loop];
    (destruct (Z.leb_spec (cnt * step) (i * step)); [assert (i = cnt) as -> by nia; by apply wp_ret, H|]); [nia|].
  assert (Hi' : 0 <= i < cnt) by nia. cbv zeta. rewrite at_leaf_page, huge_leaf, level_of, pages_of by lia.
  destruct (at_leaf_bound i Hi') as [Hr _]. destruct (laid_leaf F t bits i cnt Ht Hb Hi' ltac:(lia)) as (w0 & Hw0 & Hp0).
  pose proof (at_leaf_in i ltac:(lia)) as Hin.
  apply wp_bind. eapply wp_slpt_entry; [exact HD|exact Ht|exact Hlv|exact Hr|intros E; apply laid_out; [apply (Hv _ Hin)|done]|].
  intros t' ok _ _ Hsame. destruct (Hsame ltac:(by eexists)) as [-> ->]. cbn [negb]. apply wp_bind. eapply wp_leaf_read; [exact HD|exact Hw0|].
  rewrite Hp0. cbn [negb]. apply wp_bind. eapply wp_leaf_write; [exact HD|].
  replace (i * step + step) with ((i + 1) * step) by ring. apply IH; [by eapply tables_strip|lia|lia|done].
Qed.

Lemma laid_empty F bits i : forall k' a, F k' a = laid F k base bits i i k' a.
Proof. intros k' a. unfold laid. rewrite decide_False; [done|]. lia. Qed.

(** ** Mapping and unmapping *)

Definition perm_bits (permissions : Z) : Z := Z.lor (if has permissions 1 then VTD_SL_READ else 0) (if has permissions 2 then VTD_SL_WRITE else 0).

Lemma perm_bits_ok permissions : 1 <= permissions <= 3 -> perm_bits permissions = permissions.
Proof. intros Hp. assert (permissions = 1 \/ permissions = 2 \/ permissions = 3) as [-> | [-> | ->]] by lia; done. Qed.

Lemma wp_vtd_map d D t F permissions Q v x : domain_at (x_iommu x) d = Some D -> vt_superpage_2m (io_vtd (x_iommu x)) = superpage ->
  vt_responds (io_vtd (x_iommu x)) = true -> tables t F -> vacant F -> 1 <= permissions <= 3 -> 0 <= cnt ->
  (forall t', tables t' F -> Q false v (with_root d t' x)) ->
  (forall t', tables t' (laid F k base permissions 0 cnt) -> Q true v (with_root d t' x)) ->
  wp (vtd_map d base base (cnt * step) permissions) Q v (with_root d t x).
Proof.
  intros HD Hsp Hre Ht Hv Hp Hc Hno Hyes. unfold vtd_map. fold (perm_bits permissions). rewrite perm_bits_ok by done.
  pose proof (proj1 span_step) as Est. pose proof (proj2 span_step) as Hst. unfold PAGE_SIZE in *. cbv zeta.
  destruct (_ || _ || _) eqn:Eg; [apply wp_ret, Hno, Ht|]. apply wp_bind, wp_get_vtd. change (io_vtd (x_iommu (with_root d t x))) with (io_vtd (x_iommu x)). rewrite Hsp.
  apply wp_bind. apply (wp_map_loop d D F permissions _ v x HD Hv Hp _ 0 t); [by eapply tables_ext; [exact Ht|intros ????; by rewrite <- laid_empty]|lia|nia|].
  intros m t' Hm Ht'. assert (Em : (m * step =? cnt * step) = (m =? cnt)) by (destruct (Z.eqb_spec m cnt) as [->|]; [apply Z.eqb_refl|apply Z.eqb_neq; nia]).
  assert (Hx : forall u, vt_responds (io_vtd (x_iommu (with_root d u x))) = true) by done.
  rewrite Em. destruct (Z.eqb_spec m cnt) as [->|Hne]; cbn [negb].
  - apply wp_bind, wp_invalidate; [done|]. apply wp_bind, wp_asserts; [done|]. by apply wp_ret, Hyes.
  - apply wp_bind. apply (wp_rollback_loop d D F permissions m _ v x HD Hv Hp ltac:(lia) _ 0 t'); [done|lia|nia|]. intros t'' Ht''.
    apply wp_bind, wp_invalidate; [done|]. apply wp_bind, wp_asserts; [done|]. apply wp_ret, Hno. eapply tables_ext; [exact Ht''|]. intros; apply laid_empty.
Qed.

Lemma wp_vtd_unmap d D t F permissions Q v x : domain_at (x_iommu x) d = Some D -> vt_superpage_2m (io_vtd (x_iommu x)) = superpage ->
  vt_responds (io_vtd (x_iommu x)) = true -> tables t (laid F k base permissions 0 cnt) -> vacant F -> 1 <= permissions <= 3 -> 0 <= cnt ->
  (forall t', tables t' F -> Q true v (with_root d t' x)) ->
  wp (vtd_unmap d base (cnt * step)) Q v (with_root d t x).
Proof.
  intros HD Hsp Hre Ht Hv Hp Hc Hyes. pose proof (proj2 span_step) as Hst. apply wp_bind, wp_get_vtd.
  change (io_vtd (x_iommu (with_root d t x))) with (io_vtd (x_iommu x)). rewrite Hsp. apply wp_bind.
  apply (wp_unmap_loop d D F permissions _ v x HD Hv Hp _ 0 t); [done|lia|nia|]. intros t' Ht'. cbn [negb].
  apply wp_bind, wp_invalidate; [done|]. apply wp_bind, wp_asserts; [done|]. apply wp_ret, Hyes. eapply tables_ext; [exact Ht'|]. intros; apply laid_empty.
Qed.


End Range.

End Vtds.
