(* ===== verification/IommuSpec.v ===== *)
(** * Domains, devices and DMA mappings

    The invariant of [iommu.c] and that its operations keep it.  Three parts: the
    domains have distinct ids and belong to rings of the scheme; the context entries of
    the unit and the fault table are exactly the attached devices; the leaves of a
    domain's tables are exactly the pages of the blocks mapped in it, and the tree of
    each block lists exactly the domains it is mapped in. *)

From S2P Require Import Prelude Buddy Paging Siphash PlatformMem Machine Sched Index Channel Umem Process Capability Irq Iommu Graph Wp Invariant BaseSpec SchedSpec ChannelSpec UmemSpec BlockSpec CallSpec RingSpec GrantSpec IrqSpec VtdSpec.

Module Dma.
Import Slpt.

Lemma NoDup_middle {A} (l1 l2 : list A) a : NoDup (l1 ++ a :: l2) <-> (a ∉ l1 ++ l2) /\ NoDup (l1 ++ l2).
Proof. rewrite <- (Permutation_middle l1 l2 a). by rewrite NoDup_cons. Qed.

(** ** Domains *)

(** The ids, hardware ids and rings of the domains. *)
Record ids_ok (rings : Z -> Prop) (L : list (Z * Z * Z)) (next : Z) (V : vtd) (n : Z) : Prop := {
  id_unique : NoDup (L.*1.*1);
  id_next : 0 <= next < 2 ^ 64;
  id_old d h r : (d, h, r) ∈ L -> d <> 0 /\ (next = 0 \/ d < next);
  id_ring d h r : (d, h, r) ∈ L -> rings r;
  id_hw : NoDup (L.*1.*2);
  id_used h : h ∈ L.*1.*2 -> h ∈ vt_domain_used V;
  id_hw_next : 1 <= vt_next_domain V < 2 ^ 16;
  id_count : n = Z.of_nat (length L) /\ n <= IOMMU_MAX_DOMAINS }.

Lemma ids_cons rings L next V n h r : ids_ok rings L next V n -> next <> 0 -> h ∉ L.*1.*2 -> h ∈ vt_domain_used V -> rings r ->
  n <> IOMMU_MAX_DOMAINS -> ids_ok rings ((next, h, r) :: L) (u64 (next + 1)) V (u32 (n + 1)).
Proof.
  intros [I1 I2 I3 I4 I5 I6 I7 [I8 I9]] Hn Hh Hu Hr Hm. unfold IOMMU_MAX_DOMAINS in *.
  assert (En : u32 (n + 1) = n + 1) by (apply Z.mod_small; lia).
  assert (Eu : u64 (next + 1) = 0 \/ u64 (next + 1) = next + 1).
  { unfold u64. destruct (decide (next + 1 = 2 ^ 64)) as [->|]; [left; done|right; apply Z.mod_small; lia]. }
  split.
  - rewrite !fmap_cons. apply NoDup_cons. split; [|done]. intros Hin. apply list_elem_of_fmap in Hin as ([d h'] & Hd & Hin). simpl in Hd. subst d.
    apply list_elem_of_fmap in Hin as ([[d h''] r'] & [= -> ->] & Hin). destruct (I3 _ _ _ Hin). lia.
  - by apply Z.mod_pos_bound.
  - intros d h' r' [[= -> -> ->]|Hin]%elem_of_cons; [split; [done|]; destruct Eu; lia|]. destruct (I3 _ _ _ Hin) as [? Ho]. split; [done|]. destruct Eu; lia.
  - intros d h' r' [[= -> -> ->]|Hin]%elem_of_cons; [done|by eapply I4].
  - rewrite !fmap_cons. by apply NoDup_cons.
  - intros h'. rewrite !fmap_cons. intros [->|Hin]%elem_of_cons; [done|by apply I6].
  - done.
  - rewrite En. simpl. unfold IOMMU_MAX_DOMAINS. lia.
Qed.

Lemma ids_drop rings L1 L2 next V n d h r : ids_ok rings (L1 ++ (d, h, r) :: L2) next V n ->
  ids_ok rings (L1 ++ L2) next (upd_vt_domain_used (fun used => used ∖ {[h]}) V) (u32 (n - 1)).
Proof.
  intros [I1 I2 I3 I4 I5 I6 I7 [I8 I9]]. rewrite length_app in I8. simpl in I8. unfold IOMMU_MAX_DOMAINS in *.
  assert (En : u32 (n - 1) = n - 1) by (apply Z.mod_small; lia).
  rewrite !fmap_app, !fmap_cons in *. split.
  - rewrite !fmap_app. by apply NoDup_middle in I1 as [_ I1].
  - done.
  - intros d' h' r' Hin. eapply (I3 d' h' r'). set_solver.
  - intros d' h' r' Hin. eapply (I4 d' h' r'). set_solver.
  - rewrite !fmap_app. by apply NoDup_middle in I5 as [_ I5].
  - simpl. intros h' Hin. apply elem_of_difference. split; [apply I6; rewrite !fmap_app in Hin; set_solver|]. apply not_elem_of_singleton. intros ->.
    apply NoDup_middle in I5 as [I5 _]. rewrite !fmap_app in Hin. done.
  - done.
  - rewrite En, length_app. unfold IOMMU_MAX_DOMAINS. lia.
Qed.

(** ** Devices *)

Definition ctx_at (ctx : gmap Z (gmap Z (Z * Z))) (bus devfn : Z) : option (Z * Z) :=
  match ctx !! bus with Some c => c !! devfn | None => None end.

(** The attachments: domain, hardware id and the device's id, bus and devfn. *)
Record devs_ok (P : list (Z * Z * (Z * Z * Z))) (ctx : gmap Z (gmap Z (Z * Z))) (flt : gmap Z Z) (n : Z) : Prop := {
  ds_unique : NoDup ((fun p => p.2.1.1) <$> P);
  ds_range d h e b f : (d, h, (e, b, f)) ∈ P -> 0 <= e < 2 ^ 16 /\ b = u8 (Z.shiftr e 8) /\ f = u8 e;
  ds_context b f h d : ctx_at ctx b f = Some (h, d) <-> exists e, (d, h, (e, b, f)) ∈ P;
  ds_fault q e : flt !! q = Some e <-> q = e /\ e ∈ (fun p => p.2.1.1) <$> P;
  ds_count : n = Z.of_nat (length P) /\ n <= IOMMU_MAX_DEVICES }.

Lemma devs_perm P P' ctx flt n : P ≡ₚ P' -> devs_ok P ctx flt n -> devs_ok P' ctx flt n.
Proof.
  intros E [D1 D2 D3 D4 D5]. split; [by rewrite <- E|intros ?????; rewrite <- E; apply D2|intros ????; setoid_rewrite <- E; apply D3|intros ??; rewrite <- E; apply D4|by rewrite <- E].
Qed.

(** A requester id is its bus and devfn. *)
Lemma requester_id e : 0 <= e < 2 ^ 16 -> e = u8 (Z.shiftr e 8) * 256 + u8 e.
Proof.
  intros He. rewrite Z.shiftr_div_pow2 by lia. unfold u8. change (2 ^ 8) with 256. pose proof (Z.div_mod e 256 ltac:(lia)).
  rewrite (Z.mod_small (e / 256)); [lia|]. split; [apply Z.div_pos; lia|apply Z.div_lt_upper_bound; lia].
Qed.

Lemma ctx_insert ctx bus devfn e c b f : default ∅ (ctx !! bus) = c ->
  ctx_at (<[bus := <[devfn := e]> c]> ctx) b f = if decide (b = bus /\ f = devfn) then Some e else ctx_at ctx b f.
Proof.
  intros Hc. unfold ctx_at. destruct (decide (b = bus)) as [->|Hb].
  - rewrite lookup_insert_eq. destruct (decide (f = devfn)) as [->|Hf]; [by rewrite lookup_insert_eq, decide_True|].
    rewrite lookup_insert_ne, decide_False by naive_solver. subst c. by destruct (ctx !! bus).
  - rewrite lookup_insert_ne, decide_False by naive_solver. done.
Qed.

Lemma ctx_delete ctx bus devfn c b f : ctx !! bus = Some c ->
  ctx_at (<[bus := delete devfn c]> ctx) b f = if decide (b = bus /\ f = devfn) then None else ctx_at ctx b f.
Proof.
  intros Hc. unfold ctx_at. destruct (decide (b = bus)) as [->|Hb].
  - rewrite lookup_insert_eq, Hc. destruct (decide (f = devfn)) as [->|Hf]; [by rewrite lookup_delete_eq, decide_True|].
    by rewrite lookup_delete_ne, decide_False by naive_solver.
  - by rewrite lookup_insert_ne, decide_False by naive_solver.
Qed.

Lemma devs_attach P ctx ctx' flt n d h e b f : devs_ok P ctx flt n -> 0 <= e < 2 ^ 16 -> b = u8 (Z.shiftr e 8) -> f = u8 e ->
  e ∉ ((fun p => p.2.1.1) <$> P) -> (forall b' f', ctx_at ctx' b' f' = if decide (b' = b /\ f' = f) then Some (h, d) else ctx_at ctx b' f') ->
  n <> IOMMU_MAX_DEVICES -> devs_ok ((d, h, (e, b, f)) :: P) ctx' (<[e := e]> flt) (u32 (n + 1)).
Proof.
  intros [D1 D2 D3 D4 [D5 D6]] He Hb Hf Hnew Hctx Hn. unfold IOMMU_MAX_DEVICES in *.
  assert (En : u32 (n + 1) = n + 1) by (apply Z.mod_small; lia). split.
  - rewrite fmap_cons. by apply NoDup_cons.
  - intros d' h' e' b' f' [[= -> -> -> -> ->]|Hin]%elem_of_cons; [done|by eapply D2].
  - intros b' f' h' d'. rewrite Hctx. setoid_rewrite elem_of_cons. case_decide as E.
    + destruct E as [-> ->]. split; [intros [= -> ->]; exists e; by left|]. intros [e' [[= -> -> ->]|Hin]]; [done|].
      destruct (D2 _ _ _ _ _ Hin) as (He' & E1 & E2). exfalso. apply Hnew. apply list_elem_of_fmap. exists (d', h', (e', b, f)). split; [|done]. simpl.
      rewrite (requester_id e He), (requester_id e' He'). congruence.
    + rewrite D3. split; [intros [e' Hin]; exists e'; by right|]. intros [e' [E'|Hin]]; [|eauto]. exfalso. apply E. by injection E'.
  - intros q e'. rewrite fmap_cons, elem_of_cons. simpl. destruct (decide (q = e)) as [->|Hne].
    + rewrite lookup_insert_eq. split; [intros [= <-]; auto|]. intros [-> _]. done.
    + rewrite lookup_insert_ne, D4 by done. naive_solver.
  - rewrite En. simpl. unfold IOMMU_MAX_DEVICES. lia.
Qed.

Lemma devs_detach P ctx ctx' flt n d h e b f : devs_ok ((d, h, (e, b, f)) :: P) ctx flt n ->
  (forall b' f', ctx_at ctx' b' f' = if decide (b' = b /\ f' = f) then None else ctx_at ctx b' f') ->
  devs_ok P ctx' (delete e flt) (u32 (n - 1)).
Proof.
  intros [D1 D2 D3 D4 [D5 D6]] Hctx. unfold IOMMU_MAX_DEVICES in *. simpl in D5.
  assert (En : u32 (n - 1) = n - 1) by (apply Z.mod_small; lia). rewrite fmap_cons in D1. apply NoDup_cons in D1 as [Hnew D1].
  destruct (D2 d h e b f ltac:(by left)) as (He & Hb & Hf). split.
  - done.
  - intros d' h' e' b' f' Hin. eapply (D2 d' h'). by right.
  - intros b' f' h' d'. rewrite Hctx. case_decide as E.
    + destruct E as [-> ->]. split; [done|]. intros [e' Hin]. destruct (D2 d' h' e' b f ltac:(by right)) as (He' & E1 & E2). exfalso. apply Hnew.
      apply list_elem_of_fmap. exists (d', h', (e', b, f)). split; [|done]. simpl. rewrite (requester_id e He), (requester_id e' He'). congruence.
    + rewrite D3. setoid_rewrite elem_of_cons. split; intros [e' Hin]; [|eauto]. destruct Hin as [E'|Hin]; [|eauto]. exfalso. apply E. by injection E'.
  - intros q e'. specialize (D4 q e'). rewrite fmap_cons, elem_of_cons in D4. simpl in D4. destruct (decide (q = e)) as [->|Hne].
    + rewrite lookup_delete_eq. split; [done|]. intros [-> Hin]. done.
    + rewrite lookup_delete_ne, D4 by done. split; [|naive_solver]. intros [-> [->|Hin]]; [done|auto].
  - rewrite En. unfold IOMMU_MAX_DEVICES. lia.
Qed.

(** ** Mappings *)

(** A block of RAM that may be mapped for DMA. *)
Record dma_block (i : binfo) : Prop := {
  db_order : 0 <= i_order i;
  db_bytes : i_bytes i = PAGE_SIZE * 2 ^ i_order i;
  db_base : 0 <= i_base i /\ i_base i + i_bytes i <= 2 ^ 48;
  db_aligned : i_base i mod i_bytes i = 0;
  db_ram : i_backing i = UBLOCK_RAM }.

(** The level of its leaves. *)
Definition leaf_kind (superpage : bool) (i : binfo) : nat := if superpage && (9 <=? i_order i) then 2%nat else 1%nat.
Definition leaf_count (superpage : bool) (i : binfo) : Z := if superpage && (9 <=? i_order i) then 2 ^ (i_order i - 9) else 2 ^ i_order i.

Section Mapped.
Context (superpage : bool).

Lemma kind_bound i : (1 <= leaf_kind superpage i <= 2)%nat.
Proof. unfold leaf_kind. case_match; lia. Qed.

Lemma order_pow i : dma_block i -> 0 < 2 ^ i_order i /\ (9 <= i_order i -> 2 ^ i_order i = 512 * 2 ^ (i_order i - 9) /\ 0 < 2 ^ (i_order i - 9)) /\
  (i_order i < 9 -> 2 ^ i_order i < 512).
Proof.
  intros [H1 _ _ _ _]. split_and!.
  - by apply Z.pow_pos_nonneg.
  - intros H. split; [|apply Z.pow_pos_nonneg; lia]. change 512 with (2 ^ 9). rewrite <- Z.pow_add_r by lia. f_equal. lia.
  - intros H. change 512 with (2 ^ 9). apply Z.pow_lt_mono_r; lia.
Qed.

(** The range of a block as the loops of [vtd.c] see it. *)
Lemma kind_range i : dma_block i -> let k := leaf_kind superpage i in let c := leaf_count superpage i in
  (k = 2%nat /\ superpage = true \/ k = 1%nat /\ (superpage = false \/ c < 512)) /\ i_base i mod leaf_span k = 0 /\
  c * leaf_span k = i_bytes i /\ 0 < c /\ c * (if decide (k = 2%nat) then 512 else 1) = Z.shiftl 1 (i_order i).
Proof.
  intros Hb. destruct (order_pow i Hb) as (P1 & P2 & P3). destruct Hb as [B1 B2 [B3 B4] B5 _]. rewrite Z.shiftl_1_l.
  unfold leaf_kind, leaf_count, PAGE_SIZE in *. cbv zeta. destruct superpage, (Z.leb_spec 9 (i_order i)) as [Ho|Ho]; simpl.
  - destruct (P2 Ho) as [E1 E2]. change (leaf_span 2) with (2 ^ 21). split_and!; [by left| |lia|done|lia].
    apply Z.mod_divide in B5; [|lia]. apply Z.mod_divide; [lia|]. etransitivity; [|exact B5]. exists (2 ^ (i_order i - 9)). lia.
  - change (leaf_span 1) with 4096. split_and!; [right; auto| |lia|done|lia].
    apply Z.mod_divide in B5; [|lia]. apply Z.mod_divide; [lia|]. etransitivity; [|exact B5]. exists (2 ^ i_order i). lia.
  - change (leaf_span 1) with 4096. split_and!; [right; auto| |lia|done|lia].
    apply Z.mod_divide in B5; [|lia]. apply Z.mod_divide; [lia|]. etransitivity; [|exact B5]. exists (2 ^ i_order i). lia.
  - change (leaf_span 1) with 4096. split_and!; [right; auto| |lia|done|lia].
    apply Z.mod_divide in B5; [|lia]. apply Z.mod_divide; [lia|]. etransitivity; [|exact B5]. exists (2 ^ i_order i). lia.
Qed.

(** The leaf of block [b] at [a] in domain [d]. *)
Definition leaf_in (e : option (binfo * gmap Z Z)) (d : Z) (k : nat) (a : Z) : option Z :=
  match e with
  | Some (i, m) => if decide (k = leaf_kind superpage i /\ in_block i a) then Some (leaf_word k (a / leaf_span k * leaf_span k) (default 0 (m !! d))) else None
  | None => None
  end.

Fixpoint mapped (dma : Z -> option (binfo * gmap Z Z)) (d : Z) (bs : list Z) (k : nat) (a : Z) : option Z :=
  match bs with
  | [] => None
  | b :: bs => match leaf_in (dma b) d k a with Some w => Some w | None => mapped dma d bs k a end
  end.

Lemma mapped_ext dma dma' d bs k a : (forall b, b ∈ bs -> leaf_in (dma' b) d k a = leaf_in (dma b) d k a) -> mapped dma' d bs k a = mapped dma d bs k a.
Proof.
  induction bs as [|b bs IH]; intros H; cbn [mapped]; [done|]. rewrite H by (by left). rewrite IH; [done|]. intros b' Hb'. apply H. by right.
Qed.

Lemma mapped_none dma d bs k a : (forall b, b ∈ bs -> leaf_in (dma b) d k a = None) -> mapped dma d bs k a = None.
Proof. induction bs as [|b bs IH]; intros H; cbn [mapped]; [done|]. rewrite H by (by left). apply IH. intros b' Hb'. apply H. by right. Qed.

(** Laying the block's range over the others. *)
Lemma mapped_laid dma d b bs i m p k a : dma b = Some (i, m) -> m !! d = Some p -> dma_block i ->
  mapped dma d (b :: bs) k a = laid (mapped dma d bs) (leaf_kind superpage i) (i_base i) p 0 (leaf_count superpage i) k a.
Proof.
  intros Hb Hd Hi. cbn [mapped]. rewrite Hb. unfold leaf_in, laid. destruct (kind_range i Hi) as (_ & _ & E & _). rewrite E, Z.mul_0_l, Z.add_0_r.
  fold (in_block i a). case_decide as Hin; [|done]. destruct Hin as [-> _]. by rewrite Hd.
Qed.

(** Blocks that do not touch may be taken in any order. *)
Lemma mapped_perm dma d bs bs' k a : (forall b b', b ∈ bs -> b' ∈ bs -> is_Some (leaf_in (dma b) d k a) -> is_Some (leaf_in (dma b') d k a) -> b = b') ->
  bs ≡ₚ bs' -> mapped dma d bs k a = mapped dma d bs' k a.
Proof.
  intros Hap Hp. revert Hap. induction Hp as [|b l l' Hp IH|b b' l|l l' l'' H1 IH1 H2 IH2]; intros Hap; cbn [mapped]; [done| | |].
  - rewrite IH; [done|]. intros c c' Hc Hc'. apply Hap; by right.
  - destruct (leaf_in (dma b') d k a) as [w|] eqn:E1, (leaf_in (dma b) d k a) as [w'|] eqn:E2; try done.
    assert (b = b') as -> by (apply Hap; [set_solver|set_solver|by eexists|by eexists]). congruence.
  - rewrite IH1 by done. apply IH2. intros c c' Hc Hc'. apply Hap; by rewrite H1.
Qed.

End Mapped.

(** Domain, tables and blocks. *)
Record maps_ok (superpage : bool) (dma : Z -> option (binfo * gmap Z Z)) (L : list (Z * list entry * list Z)) (n : Z) : Prop := {
  ms_ids : NoDup (L.*1.*1);
  ms_tables d t bs : (d, t, bs) ∈ L -> NoDup bs /\ tables t (mapped superpage dma d bs);
  ms_block d t bs b : (d, t, bs) ∈ L -> b ∈ bs -> exists i m p, dma b = Some (i, m) /\ m !! d = Some p /\ 1 <= p <= 3 /\ dma_block i;
  ms_apart b b' i i' m m' a : dma b = Some (i, m) -> dma b' = Some (i', m') -> in_block i a -> in_block i' a -> b = b';
  ms_back b i m d : dma b = Some (i, m) -> is_Some (m !! d) -> exists t bs, (d, t, bs) ∈ L /\ b ∈ bs;
  ms_some b i m : dma b = Some (i, m) -> m <> ∅;
  ms_count : n = Z.of_nat (length (mjoin L.*2)) /\ n <= IOMMU_MAX_MAPPINGS }.

Section Maps.
Context (superpage : bool).

Lemma tables_zero F : (forall k a, F k a = None) -> tables zero_table F.
Proof. intros HF. split; [apply slpt_zero|]. intros k a _ _. rewrite HF. apply zero_leaf. Qed.

(** Two domains of the list with the same id are the same. *)
Lemma maps_same dma L n d t bs t' bs' : maps_ok superpage dma L n -> (d, t, bs) ∈ L -> (d, t', bs') ∈ L -> t = t' /\ bs = bs'.
Proof.
  intros [M1 _ _ _ _ _ _] H1 H2. apply list_elem_of_lookup in H1 as [i Hi], H2 as [j Hj]. assert (i = j) as ->.
  { eapply (NoDup_lookup _ i j d M1); by rewrite !list_lookup_fmap, ?Hi, ?Hj. }
  rewrite Hi in Hj. by injection Hj as -> ->.
Qed.

Lemma maps_ext dma dma' L n : maps_ok superpage dma L n -> (forall b, dma' b = dma b) -> maps_ok superpage dma' L n.
Proof.
  intros [M1 M2 M3 M4 M5 M6 M7] E. split; [done| | | | | |done].
  - intros d t bs Hin. destruct (M2 d t bs Hin) as [Hnd Ht]. split; [done|]. eapply tables_ext; [exact Ht|]. intros k a _ _. apply mapped_ext. intros b _. by rewrite E.
  - intros d t bs b H1 H2. rewrite E. by eapply M3.
  - intros b b' i i' m m' a. rewrite !E. apply M4.
  - intros b i m d. rewrite E. apply M5.
  - intros b i m. rewrite E. apply M6.
Qed.

Lemma middle_ids {A B C} (L1 L2 : list (A * B * C)) d (t t' : B) (bs bs' : C) :
  (L1 ++ (d, t, bs) :: L2).*1.*1 = (L1 ++ (d, t', bs') :: L2).*1.*1.
Proof. by rewrite !fmap_app, !fmap_cons. Qed.

Lemma in_middle {A} (L1 L2 : list A) p q : p ∈ L1 ++ q :: L2 <-> p = q \/ p ∈ L1 ++ L2.
Proof. set_solver. Qed.

(** The other domains of the list have other ids. *)
Lemma middle_other {A B} (L1 L2 : list (Z * A * B)) d t bs d' t' bs' : NoDup (L1 ++ (d, t, bs) :: L2).*1.*1 -> (d', t', bs') ∈ L1 ++ L2 -> d' <> d.
Proof.
  rewrite !fmap_app, !fmap_cons. intros [Hn _]%NoDup_middle Hin ->. apply Hn. rewrite <- !fmap_app. apply list_elem_of_fmap. exists (d, t'). split; [done|].
  apply list_elem_of_fmap. by exists (d, t', bs').
Qed.

(** The tables change and keep their leaves. *)
Lemma maps_retable dma L1 L2 n d t t' bs : maps_ok superpage dma (L1 ++ (d, t, bs) :: L2) n -> tables t' (mapped superpage dma d bs) ->
  maps_ok superpage dma (L1 ++ (d, t', bs) :: L2) n.
Proof.
  intros [M1 M2 M3 M4 M5 M6 M7] Ht. split; [by rewrite (middle_ids L1 L2 d t' t bs bs)| | |done| |done|by rewrite !fmap_app, !fmap_cons in *].
  - intros d' u bs' [[= -> -> ->]|Hin]%in_middle; [split; [|done]; apply (M2 d t bs), in_middle; by left|]. apply M2, in_middle. by right.
  - intros d' u bs' b [[= -> -> ->]|Hin]%in_middle Hb; [eapply (M3 d t bs); [apply in_middle; by left|done]|]. eapply (M3 d' u bs'); [apply in_middle; by right|done].
  - intros b i m d' Hb Hm. destruct (M5 b i m d' Hb Hm) as (u & bs' & [[= -> -> ->]|Hin]%in_middle & Hin'); [exists t', bs|exists u, bs']; (split; [apply in_middle; auto|done]).
Qed.

(** Block [b] is mapped in domain [d]. *)
Lemma maps_map dma dma' L1 L2 n d t t' bs b i m p : maps_ok superpage dma (L1 ++ (d, t, bs) :: L2) n -> (forall c, dma' c = if decide (c = b) then Some (i, <[d := p]> m) else dma c) ->
  dma b = None /\ m = ∅ \/ dma b = Some (i, m) -> m !! d = None -> 1 <= p <= 3 -> dma_block i ->
  (forall c j mc a, dma c = Some (j, mc) -> c <> b -> in_block j a -> ~ in_block i a) -> n <> IOMMU_MAX_MAPPINGS ->
  tables t' (laid (mapped superpage dma d bs) (leaf_kind superpage i) (i_base i) p 0 (leaf_count superpage i)) ->
  maps_ok superpage dma' (L1 ++ (d, t', b :: bs) :: L2) (u32 (n + 1)).
Proof.
  intros [M1 M2 M3 M4 M5 M6 [M7 M8]] E Hb Hm Hp Hi Hap Hn Ht. unfold IOMMU_MAX_MAPPINGS in *.
  assert (Hd : (d, t, bs) ∈ L1 ++ (d, t, bs) :: L2) by (apply in_middle; by left).
  assert (Hnew : b ∉ bs). { intros Hin. destruct (M3 _ _ _ _ Hd Hin) as (j & m' & q & E1 & E2 & _). destruct Hb as [[Hb _]|Hb]; congruence. }
  assert (Eb : dma' b = Some (i, <[d := p]> m)) by (by rewrite E, decide_True).
  assert (Eother : forall d' c k a, d' <> d -> (c = b -> is_Some (m !! d')) -> leaf_in superpage (dma' c) d' k a = leaf_in superpage (dma c) d' k a).
  { intros d' c k a Hd' Hc. rewrite E. case_decide as Ec; [|done]. subst c. destruct Hb as [[Hb ->]|Hb]; [destruct (Hc eq_refl); done|]. rewrite Hb. unfold leaf_in. by rewrite lookup_insert_ne. }
  split.
  - by rewrite (middle_ids L1 L2 d t' t (b :: bs) bs).
  - intros d' u bs' [[= -> -> ->]|Hin]%in_middle.
    + destruct (M2 _ _ _ Hd) as [Hnd _]. split; [by apply NoDup_cons|]. eapply tables_ext; [exact Ht|]. intros k a _ _.
      rewrite (mapped_laid superpage dma' d b bs i (<[d := p]> m) p) by (done || apply lookup_insert_eq). unfold laid. case_decide; [done|].
      apply mapped_ext. intros c Hc. rewrite E, decide_False; [done|]. intros ->. done.
    + pose proof (middle_other L1 L2 d t bs d' u bs' M1 Hin) as Hne. assert (Hin' : (d', u, bs') ∈ L1 ++ (d, t, bs) :: L2) by (apply in_middle; by right).
      destruct (M2 _ _ _ Hin') as [Hnd Htu]. split; [done|]. eapply tables_ext; [exact Htu|]. intros k a _ _. apply mapped_ext. intros c Hc. apply Eother; [done|].
      intros ->. destruct (M3 _ _ _ _ Hin' Hc) as (j & m' & q & E1 & E2 & _). destruct Hb as [[Hb _]|Hb]; [congruence|]. rewrite Hb in E1. injection E1 as <- <-. eauto.
  - intros d' u bs' c [[= -> -> ->]|Hin]%in_middle Hc.
    + destruct (decide (c = b)) as [->|Hcb]; [exists i, (<[d := p]> m), p; split_and!; [done|apply lookup_insert_eq|lia|lia|done]|].
      apply elem_of_cons in Hc as [?|Hc]; [done|]. rewrite E, decide_False by done. by eapply M3.
    + pose proof (middle_other L1 L2 d t bs d' u bs' M1 Hin) as Hne. assert (Hin' : (d', u, bs') ∈ L1 ++ (d, t, bs) :: L2) by (apply in_middle; by right).
      destruct (M3 _ _ _ _ Hin' Hc) as (j & m' & q & E1 & E2 & E3 & E4). rewrite E. case_decide as Ec; [subst c|by exists j, m', q].
      destruct Hb as [[Hb _]|Hb]; [congruence|]. rewrite Hb in E1. injection E1 as <- <-. exists i, (<[d := p]> m), q. by rewrite lookup_insert_ne.
  - intros c c' j j' mc mc' a Hc Hc' Ha Ha'. rewrite E in Hc, Hc'. destruct (decide (c = b)) as [->|Hcb], (decide (c' = b)) as [->|Hcb']; [done| | |by eapply M4].
    + injection Hc as <- <-. exfalso. by eapply (Hap c').
    + injection Hc' as <- <-. exfalso. by eapply (Hap c).
  - intros c j mc d' Hc Hs. rewrite E in Hc. case_decide as Ec; [subst c; injection Hc as <- <-|].
    + apply lookup_insert_is_Some in Hs as [<-|[Hne Hs]]; [exists t', (b :: bs); split; [apply in_middle; by left|by left]|].
      destruct Hb as [[_ ->]|Hb]; [by destruct Hs|]. destruct (M5 b i m d' Hb Hs) as (u & bs' & [[= -> -> ->]|Hin]%in_middle & Hin'); [done|].
      exists u, bs'. split; [apply in_middle; by right|done].
    + destruct (M5 c j mc d' Hc Hs) as (u & bs' & [[= -> -> ->]|Hin]%in_middle & Hin'); [exists t', (b :: bs)|exists u, bs'];
        (split; [apply in_middle; auto|]); [by right|done].
  - intros c j mc Hc. rewrite E in Hc. case_decide; [injection Hc as <- <-; apply insert_non_empty|by eapply M6].
  - assert (En : u32 (n + 1) = n + 1) by (apply Z.mod_small; lia). rewrite En. rewrite !fmap_app, !fmap_cons in *. rewrite join_app in *. simpl in *. rewrite !length_app in *. simpl in *. rewrite !length_app in *.
    unfold IOMMU_MAX_MAPPINGS. lia.
Qed.

(** Block [b] leaves domain [d]. *)
Definition unmapped (d : Z) (m : gmap Z Z) : option (gmap Z Z) := let m := delete d m in if bool_decide (m = ∅) then None else Some m.

Definition dma_less (i : binfo) (o : option (gmap Z Z)) : option (binfo * gmap Z Z) := match o with Some m => Some (i, m) | None => None end.

Lemma unmapped_other d m d' q : d' <> d -> m !! d' = Some q -> unmapped d m = Some (delete d m).
Proof. intros Hd Hm. unfold unmapped. cbv zeta. rewrite bool_decide_false; [done|]. intros E. apply (f_equal (fun m => m !! d')) in E. rewrite lookup_delete_ne, lookup_empty in E by done. congruence. Qed.

Lemma unmapped_some d m m' : unmapped d m = Some m' -> m' = delete d m /\ m' <> ∅.
Proof. unfold unmapped. cbv zeta. case_bool_decide as E; [done|]. by intros [= <-]. Qed.

Lemma maps_unmap dma dma' L1 L2 n d t t' bs bs' b i m : maps_ok superpage dma (L1 ++ (d, t, bs) :: L2) n ->
  (forall c, dma' c = if decide (c = b) then dma_less i (unmapped d m) else dma c) -> dma b = Some (i, m) -> bs ≡ₚ b :: bs' -> tables t' (mapped superpage dma d bs') ->
  maps_ok superpage dma' (L1 ++ (d, t', bs') :: L2) (u32 (n - 1)).
Proof.
  intros [M1 M2 M3 M4 M5 M6 [M7 M8]] E Hb Hbs Ht. unfold IOMMU_MAX_MAPPINGS in *.
  assert (Hd : (d, t, bs) ∈ L1 ++ (d, t, bs) :: L2) by (apply in_middle; by left).
  destruct (M2 _ _ _ Hd) as [Hnd _]. rewrite Hbs in Hnd. apply NoDup_cons in Hnd as [Hnew Hnd].
  assert (Hold : forall c, c ∈ bs' -> c ∈ bs) by (intros c Hc; rewrite Hbs; by right).
  assert (Hleast : forall c j mc, dma' c = Some (j, mc) -> exists mc', dma c = Some (j, mc') /\ mc = (if decide (c = b) then delete d mc' else mc') /\ mc <> ∅).
  { intros c j mc Hc. rewrite E in Hc. case_decide as Ec; [|exists mc; split_and!; [done|done|by eapply M6]]. subst c. unfold dma_less in Hc.
    destruct (unmapped d m) as [m'|] eqn:Eu; [|done]. injection Hc as <- <-. destruct (unmapped_some _ _ _ Eu) as [-> ?]. by exists m. }
  split.
  - by rewrite (middle_ids L1 L2 d t' t bs' bs).
  - intros d' u bs'' [[= -> -> ->]|Hin]%in_middle.
    + split; [done|]. eapply tables_ext; [exact Ht|]. intros k a _ _. apply mapped_ext. intros c Hc. rewrite E, decide_False; [done|]. intros ->. done.
    + pose proof (middle_other L1 L2 d t bs d' u bs'' M1 Hin) as Hne. assert (Hin' : (d', u, bs'') ∈ L1 ++ (d, t, bs) :: L2) by (apply in_middle; by right).
      destruct (M2 _ _ _ Hin') as [Hnd' Htu]. split; [done|]. eapply tables_ext; [exact Htu|]. intros k a _ _. apply mapped_ext. intros c Hc. rewrite E.
      case_decide as Ec; [|done]. subst c. destruct (M3 _ _ _ _ Hin' Hc) as (j & m' & q & E1 & E2 & _). rewrite Hb in E1. injection E1 as <- <-.
      rewrite (unmapped_other d m d' q Hne E2), Hb. unfold dma_less, leaf_in. by rewrite lookup_delete_ne.
  - intros d' u bs'' c [[= -> -> ->]|Hin]%in_middle Hc.
    + rewrite E, decide_False by (by intros ->). eapply M3; [exact Hd|by apply Hold].
    + pose proof (middle_other L1 L2 d t bs d' u bs'' M1 Hin) as Hne. assert (Hin' : (d', u, bs'') ∈ L1 ++ (d, t, bs) :: L2) by (apply in_middle; by right).
      destruct (M3 _ _ _ _ Hin' Hc) as (j & m' & q & E1 & E2 & E3 & E4). rewrite E. case_decide as Ec; [subst c|by exists j, m', q].
      rewrite Hb in E1. injection E1 as <- <-. rewrite (unmapped_other d m d' q Hne E2). exists i, (delete d m), q. by rewrite lookup_delete_ne.
  - intros c c' j j' mc mc' a Hc Hc' Ha Ha'. destruct (Hleast _ _ _ Hc) as (? & ? & _), (Hleast _ _ _ Hc') as (? & ? & _). by eapply M4.
  - intros c j mc d' Hc Hs. destruct (Hleast _ _ _ Hc) as (m' & Hc' & Em & _).
    assert (Hs' : is_Some (m' !! d') /\ (c = b -> d' <> d)).
    { rewrite Em in Hs. case_decide as Ec; [|by split]. apply lookup_delete_is_Some in Hs as [? ?]. by split; [|congruence]. }
    destruct Hs' as [Hs' Hne]. destruct (M5 c j m' d' Hc' Hs') as (u & bs'' & [[= -> -> ->]|Hin]%in_middle & Hin').
    + exists t', bs'. split; [apply in_middle; by left|]. rewrite Hbs in Hin'. apply elem_of_cons in Hin' as [->|?]; [|done]. by destruct (Hne eq_refl).
    + exists u, bs''. split; [apply in_middle; by right|done].
  - intros c j mc Hc. by destruct (Hleast _ _ _ Hc) as (_ & _ & _ & ?).
  - rewrite !fmap_app, !fmap_cons in *. rewrite join_app in *. simpl in *. rewrite ?length_app in *. apply Permutation_length in Hbs. simpl in *. rewrite ?length_app in *. rewrite Hbs in *.
    assert (En : u32 (n - 1) = n - 1) by (apply Z.mod_small; lia). rewrite En. unfold IOMMU_MAX_MAPPINGS. lia.
Qed.

(** What is left when [b] goes. *)
Lemma unmap_tables dma L n d t bs bs' b i m p : maps_ok superpage dma L n -> (d, t, bs) ∈ L -> bs ≡ₚ b :: bs' -> dma b = Some (i, m) -> m !! d = Some p -> dma_block i ->
  tables t (laid (mapped superpage dma d bs') (leaf_kind superpage i) (i_base i) p 0 (leaf_count superpage i)).
Proof.
  intros M Hd Hbs Hb Hm Hi. destruct (ms_tables _ _ _ _ M _ _ _ Hd) as [_ Ht]. eapply tables_ext; [exact Ht|]. intros k a _ _.
  rewrite <- (mapped_laid superpage dma d b bs' i m p) by done. symmetry. apply mapped_perm; [|done]. intros c c' Hc Hc' Hs Hs'.
  destruct (ms_block _ _ _ _ M _ _ _ _ Hd Hc) as (j & mc & q & E1 & _), (ms_block _ _ _ _ M _ _ _ _ Hd Hc') as (j' & mc' & q' & E1' & _).
  unfold leaf_in in *. rewrite E1 in Hs. rewrite E1' in Hs'. destruct (decide (k = leaf_kind superpage j /\ in_block j a)) as [[_ Ha]|]; [|by destruct Hs].
  destruct (decide (k = leaf_kind superpage j' /\ in_block j' a)) as [[_ Ha']|]; [|by destruct Hs']. by eapply (ms_apart _ _ _ _ M).
Qed.

(** A block that touches no mapped one has no leaf. *)
Lemma mapped_vacant dma d bs i : (forall c, c ∈ bs -> forall j mc a, dma c = Some (j, mc) -> in_block j a -> ~ in_block i a) ->
  forall a k, in_block i a -> mapped superpage dma d bs k a = None.
Proof.
  intros Hap a k Ha. apply mapped_none. intros c Hc. destruct (dma c) as [[j mc]|] eqn:E; [|done]. unfold leaf_in. rewrite decide_False; [done|].
  intros [_ Hin]. by eapply Hap.
Qed.

Lemma maps_add dma L n d : maps_ok superpage dma L n -> d ∉ L.*1.*1 -> maps_ok superpage dma ((d, zero_table, []) :: L) n.
Proof.
  intros [M1 M2 M3 M4 M5 M6 M7] Hd. split; [by apply NoDup_cons| | |done| |done|done].
  - intros d' t bs [[= -> -> ->]|Hin]%elem_of_cons; [split; [constructor|by apply tables_zero]|by apply M2].
  - intros d' t bs b [[= -> -> ->]|Hin]%elem_of_cons Hb; [by apply not_elem_of_nil in Hb|by eapply M3].
  - intros b i m d' Hb Hm. destruct (M5 b i m d' Hb Hm) as (t & bs & Hin & Hin'). exists t, bs. split; [by right|done].
Qed.

Lemma maps_drop dma L1 L2 n d t : maps_ok superpage dma (L1 ++ (d, t, []) :: L2) n -> maps_ok superpage dma (L1 ++ L2) n.
Proof.
  intros [M1 M2 M3 M4 M5 M6 M7]. split; [| | |done| |done|].
  - rewrite !fmap_app, !fmap_cons in *. by apply NoDup_middle in M1 as [_ M1].
  - intros d' u bs Hin. apply M2, in_middle. by right.
  - intros d' u bs b Hin Hb. eapply M3; [apply in_middle; by right|done].
  - intros b i m d' Hb Hm. destruct (M5 b i m d' Hb Hm) as (u & bs & [[= -> -> ->]|Hin]%in_middle & Hin'); [by apply not_elem_of_nil in Hin'|]. by exists u, bs.
  - by rewrite !fmap_app, !fmap_cons, join_app in *.
Qed.

End Maps.

End Dma.

Import Slpt Dma.

Section Iommus.
Context {PT : PageTree} {SC : Schemes}.
Implicit Types (v : gview) (x : rest) (io : iommu).

Definition identity (D : iommu_domain) : Z * Z * Z := (dm_id D, dm_hw_id D, dm_ring D).
Definition attachment (D : iommu_domain) (d : iommu_device) : Z * Z * (Z * Z * Z) := (dm_id D, dm_hw_id D, (dv_encoded d, dv_bus d, dv_devfn d)).
Definition attached (l : list iommu_domain) : list (Z * Z * (Z * Z * Z)) := D ← l; attachment D <$> dm_devices D.
Definition mapping (D : iommu_domain) : Z * list entry * list Z := (dm_id D, dm_root D, dm_mappings D).

Definition iommu_ring v (r : Z) : Prop := is_Some (v_rblock v r) /\ v_rops v r = Some KSCHEME_IOMMU.

Record iommu_ok v io : Prop := {
  io_ids : ids_ok (iommu_ring v) (identity <$> io_domains io) (io_next_domain_id io) (io_vtd io) (io_ndomains io);
  io_devs : devs_ok (attached (io_domains io)) (vt_contexts (io_vtd io)) (io_fault_devices io) (io_ndevices io);
  io_maps : maps_ok (vt_superpage_2m (io_vtd io)) (dma_of v) (mapping <$> io_domains io) (io_nmappings io);
  io_unit : vt_responds (io_vtd io) = true }.

Lemma ids_rings rings rings' L next V n : ids_ok rings L next V n -> (forall d h r, (d, h, r) ∈ L -> rings r -> rings' r) -> ids_ok rings' L next V n.
Proof. intros [I1 I2 I3 I4 I5 I6 I7 I8] H. split; try done. intros d h r Hin. eapply H; [exact Hin|by eapply I4]. Qed.

Lemma iommu_ext v v' io : v_rblock v' = v_rblock v -> v_rops v' = v_rops v -> same_dma v v' -> iommu_ok v io -> iommu_ok v' io.
Proof.
  intros E1 E2 E3 [I1 I2 I3 I4]. split; [|done|by eapply maps_ext|done]. eapply ids_rings; [exact I1|]. intros d h r _. unfold iommu_ring. by rewrite E1, E2.
Qed.

(** ** One domain of the list *)

Lemma ids_list io : (identity <$> io_domains io).*1.*1 = dm_id <$> io_domains io.
Proof. by rewrite <- !list_fmap_compose. Qed.

Lemma mapping_list l : (mapping <$> l).*1.*1 = dm_id <$> l.
Proof. by rewrite <- !list_fmap_compose. Qed.

Lemma domain_in io d D : domain_at io d = Some D -> D ∈ io_domains io /\ dm_id D = d.
Proof. intros [Hin E]%find_some. split; [by apply list_elem_of_In|by apply Z.eqb_eq]. Qed.

Lemma split_at io d D : NoDup (dm_id <$> io_domains io) -> domain_at io d = Some D -> exists l1 l2, io_domains io = l1 ++ D :: l2 /\ dm_id D = d /\
  forall E, E ∈ l1 ++ l2 -> dm_id E <> d.
Proof.
  intros Hnd HD. destruct (domain_in _ _ _ HD) as [Hin Hd]. apply list_elem_of_split in Hin as (l1 & l2 & E). exists l1, l2. split_and!; [done|done|].
  intros G HG <-. rewrite E, fmap_app, fmap_cons in Hnd. apply NoDup_middle in Hnd as [Hn _]. apply Hn. rewrite <- fmap_app, Hd. by apply list_elem_of_fmap_2.
Qed.

Lemma at_split io d D : NoDup (dm_id <$> io_domains io) -> D ∈ io_domains io -> dm_id D = d -> domain_at io d = Some D.
Proof.
  intros Hnd Hin Hd. unfold domain_at. destruct (List.find _ _) as [E|] eqn:HE.
  - apply find_some in HE as [HE E2%Z.eqb_eq]. apply list_elem_of_In in HE. apply list_elem_of_lookup in Hin as [i Hi], HE as [j Hj]. f_equal.
    assert (i = j) as ->; [|congruence]. eapply (NoDup_lookup _ i j d Hnd); by rewrite list_lookup_fmap, ?Hi, ?Hj; simpl; congruence.
  - apply list_elem_of_In in Hin. pose proof (find_none _ _ HE D Hin) as H. simpl in H. apply Z.eqb_neq in H. done.
Qed.

Lemma others_same (l : list iommu_domain) d f : (forall E, E ∈ l -> dm_id E <> d) -> (fun D => if dm_id D =? d then f D else D) <$> l = l.
Proof.
  intros H. induction l as [|E l IH]; [done|]. rewrite fmap_cons, IH by (intros G HG; apply H; by right). f_equal. by rewrite (proj2 (Z.eqb_neq _ _)) by (apply H; by left).
Qed.

Lemma others_kept (l : list iommu_domain) d : (forall E, E ∈ l -> dm_id E <> d) -> List.filter (fun D => negb (dm_id D =? d)) l = l.
Proof.
  intros H. induction l as [|E l IH]; [done|]. simpl. rewrite (proj2 (Z.eqb_neq _ _)) by (apply H; by left). simpl. f_equal. apply IH. intros G HG. apply H. by right.
Qed.

Lemma on_split io d D l1 l2 f : io_domains io = l1 ++ D :: l2 -> dm_id D = d -> (forall E, E ∈ l1 ++ l2 -> dm_id E <> d) ->
  (fun D => if dm_id D =? d then f D else D) <$> io_domains io = l1 ++ f D :: l2.
Proof.
  intros E Hd Ho. rewrite E, fmap_app, fmap_cons, (proj2 (Z.eqb_eq _ _) Hd), !others_same; [done|..]; intros G HG; apply Ho; set_solver.
Qed.

Lemma out_split io d D l1 l2 : io_domains io = l1 ++ D :: l2 -> dm_id D = d -> (forall E, E ∈ l1 ++ l2 -> dm_id E <> d) ->
  List.filter (fun D => negb (dm_id D =? d)) (io_domains io) = l1 ++ l2.
Proof.
  intros E Hd Ho. rewrite E, List.filter_app. simpl. rewrite (proj2 (Z.eqb_eq _ _) Hd). simpl. rewrite !others_kept; [done|..]; intros G HG; apply Ho; set_solver.
Qed.

Lemma attached_split l1 l2 D : attached (l1 ++ D :: l2) ≡ₚ (attachment D <$> dm_devices D) ++ attached (l1 ++ l2).
Proof. unfold attached. rewrite !bind_app, bind_cons. apply Permutation_app_swap_app. Qed.

Lemma iommu_unique v io : iommu_ok v io -> NoDup (dm_id <$> io_domains io).
Proof. intros Hi. rewrite <- ids_list. apply (io_ids _ _ Hi). Qed.

Lemma wp_find_domain r cookie Q v x : iommu_ok v (x_iommu x) -> Q None v x ->
  (forall d D, domain_at (x_iommu x) d = Some D -> dm_ring D = r -> dm_cookie D = cookie -> Q (Some d) v x) -> wp (find_domain r cookie) Q v x.
Proof.
  intros Hi Hno Hyes. apply wp_bind, wp_get_iommu, wp_ret. destruct (List.find _ _) as [D|] eqn:HD; [|done]. simpl.
  apply find_some in HD as [Hin [H1%Z.eqb_eq H2%Z.eqb_eq]%andb_true_iff]. apply list_elem_of_In in Hin. apply (Hyes _ D); [|done|done].
  apply at_split; [by eapply iommu_unique|done|done].
Qed.

(** ** Creating and destroying domains *)

(** The steps until the search for a hardware id is back where it started. *)
Definition id_steps (start n : Z) : Z := if n <? start then start - n else start - n + 65535.

Definition with_next (n : Z) (V : vtd) : vtd := upd_vt_next_domain (fun _ => n) V.

Lemma next_id n : 1 <= n < 2 ^ 16 -> let n' := if u16 (n + 1) =? 0 then 1 else u16 (n + 1) in
  1 <= n' < 2 ^ 16 /\ n' = (if n =? 65535 then 1 else n + 1).
Proof.
  intros Hn. cbv zeta. destruct (Z.eqb_spec n 65535) as [->|Hne]; [done|]. unfold u16. rewrite Z.mod_small by lia. destruct (Z.eqb_spec (n + 1) 0); lia.
Qed.

Lemma wp_id_loop V start Q v x : 1 <= start < 2 ^ 16 -> forall fuel n, 1 <= n < 2 ^ 16 -> id_steps start n <= Z.of_nat fuel ->
  (forall n', 1 <= n' < 2 ^ 16 -> Q None v (set_iommu (upd_io_vtd (fun _ => with_next n' V)) x)) ->
  (forall n', 1 <= n' < 2 ^ 16 -> n' ∉ vt_domain_used V -> Q (Some (with_next n' V)) v x) ->
  wp (domain_id_loop fuel (with_next n V) start) Q v x.
Proof.
  intros Hs fuel. induction fuel as [|fuel IH]; intros n Hn Hf Hno Hyes; cbn [domain_id_loop]; cbn [vt_next_domain with_next upd_vt_next_domain vt_domain_used];
    (case_bool_decide; [|by apply wp_ret, Hyes]); [unfold id_steps in Hf; destruct (Z.ltb_spec n start); lia|].
  destruct (next_id n Hn) as [Hb En]. cbv zeta in *. set (n' := if u16 (n + 1) =? 0 then 1 else u16 (n + 1)) in *.
  change (upd_vt_next_domain _ _) with (with_next n' V). destruct (Z.eqb_spec n' start) as [E|Hne].
  - apply wp_bind, wp_mod_iommu, wp_ret. by apply Hno.
  - apply IH; [done| |done|done]. unfold id_steps in *. destruct (Z.eqb_spec n 65535), (Z.ltb_spec n start), (Z.ltb_spec n' start); lia.
Qed.

(** A new domain has a free hardware id and empty tables. *)
Lemma wp_domain_init Q v x : 1 <= vt_next_domain (io_vtd (x_iommu x)) < 2 ^ 16 ->
  (forall n, 1 <= n < 2 ^ 16 -> Q None v (set_iommu (upd_io_vtd (with_next n)) x)) ->
  (forall id n, 1 <= n < 2 ^ 16 -> id ∉ vt_domain_used (io_vtd (x_iommu x)) ->
     Q (Some (id, zero_table)) v (set_iommu (upd_io_vtd (fun V => upd_vt_domain_used (fun used => {[id]} ∪ used) (with_next n V))) x)) ->
  wp vtd_domain_init Q v x.
Proof.
  intros Hn Hno Hyes. apply wp_bind, wp_get_vtd. set (V := io_vtd (x_iommu x)) in *. apply wp_bind.
  replace V with (with_next (vt_next_domain V) V) at 1 by (by destruct V).
  apply wp_id_loop; [done|done|unfold id_steps; destruct (_ <? _); lia| |].
  - intros n Hn'. by apply wp_ret, Hno.
  - intros id Hid Hu. cbv zeta. cbn [with_next upd_vt_next_domain vt_next_domain]. destruct (next_id id Hid) as [Hb _]. cbv zeta in Hb. set (n := if u16 (id + 1) =? 0 then 1 else u16 (id + 1)) in *.
    apply wp_bind, wp_mod_iommu. rewrite (proj2 (Z.eqb_neq _ _)) by lia. apply wp_bind, wp_try_alloc. intros [].
    + apply wp_ret. exact (Hyes id n Hb Hu).
    + apply wp_bind, wp_mod_iommu, wp_ret. specialize (Hno n Hb). unfold set_iommu, upd_io_vtd in *. simpl in *.
      replace (upd_vt_domain_used _ _) with (with_next n V); [exact Hno|]. unfold with_next, upd_vt_domain_used, upd_vt_next_domain. simpl. f_equal. set_solver.
Qed.

(** The domains and the mappings do not depend on the counter of hardware ids. *)
Lemma iommu_with_next v io n : iommu_ok v io -> 1 <= n < 2 ^ 16 -> iommu_ok v (upd_io_vtd (with_next n) io).
Proof. intros [I1 I2 I3 I4] Hn. split; [|done|done|done]. destruct I1 as [J1 J2 J3 J4 J5 J6 J7 J8]. by split. Qed.

Lemma wp_domain_create r cookie Q v x : iommu_ok v (x_iommu x) -> iommu_ring v r ->
  (forall rc io, iommu_ok v io -> Q rc v (set_iommu (fun _ => io) x)) -> wp (domain_create r cookie) Q v x.
Proof.
  intros Hi Hr H. assert (Hkeep : forall rc, Q rc v x) by (intros rc; specialize (H rc _ Hi); by destruct x).
  apply wp_bind, wp_get_iommu. destruct (_ || _); [by apply wp_ret|]. apply wp_bind, wp_find_domain; [done| |intros; by apply wp_ret].
  change (bool_decide (is_Some None)) with false. cbv iota. destruct (Z.eqb_spec (io_ndomains (x_iommu x)) IOMMU_MAX_DOMAINS) as [|Hmax]; [by apply wp_ret|].
  apply wp_bind, wp_try_alloc. intros []; [|apply wp_bind, wp_ret; by apply wp_ret]. pose proof Hi as [I1 I2 I3 I4].
  apply wp_bind, wp_domain_init; [apply I1| |].
  - intros n Hn. apply wp_ret. exact (H _ _ (iommu_with_next v _ n Hi Hn)).
  - intros hw n Hn Hu. apply wp_bind, wp_get_iommu. cbv zeta. apply wp_bind, wp_mod_iommu. apply wp_bind.
    set (id := io_next_domain_id _). change id with (io_next_domain_id (x_iommu x)) in *. clear id. set (id := io_next_domain_id (x_iommu x)).
    apply wp_asserts_or; [|by right; right]. intros Hid%negb_true_iff%Z.eqb_neq. apply wp_bind, wp_mod_iommu, wp_bind, wp_mod_iommu, wp_ret.
    set (V := upd_vt_domain_used (fun used => {[hw]} ∪ used) (with_next n (io_vtd (x_iommu x)))).
    assert (Hold : hw ∉ (identity <$> io_domains (x_iommu x)).*1.*2) by (intros Hin; by apply Hu, (id_used _ _ _ _ _ I1)).
    assert (Hfresh : id ∉ (mapping <$> io_domains (x_iommu x)).*1.*1).
    { rewrite mapping_list, <- ids_list. intros Hin. apply list_elem_of_fmap in Hin as ([d h] & Hd & Hin). simpl in Hd. subst d.
      apply list_elem_of_fmap in Hin as ([[d h'] r'] & [= <- <-] & Hin). destruct (id_old _ _ _ _ _ I1 _ _ _ Hin) as [_ Ho]. fold id in Ho. lia. }
    refine (H 0 (IommuState (IommuDomain r id cookie hw zero_table [] [] :: io_domains (x_iommu x)) (u32 (io_ndomains (x_iommu x) + 1)) (io_ndevices (x_iommu x))
      (io_nmappings (x_iommu x)) (u64 (id + 1)) (io_live (x_iommu x)) (io_fault_devices (x_iommu x)) V) _).
    assert (I1' : ids_ok (iommu_ring v) (identity <$> io_domains (x_iommu x)) id V (io_ndomains (x_iommu x))).
    { destruct I1 as [J1 J2 J3 J4 J5 J6 J7 J8]. split; try done. intros h Hh. apply elem_of_union. right. by apply J6. }
    split; [|done|by apply maps_add|done]. apply (ids_cons _ _ _ V _ hw r I1'); [done|done|apply elem_of_union; left; by apply elem_of_singleton|done|done].
Qed.

(** A domain without devices and mappings goes. *)
Definition without (io : iommu) (l : list iommu_domain) (hw : Z) : iommu :=
  upd_io_ndomains (fun n => u32 (n - 1)) (upd_io_vtd (upd_vt_domain_used (fun used => used ∖ {[hw]})) (upd_io_domains (fun _ => l) io)).

Lemma iommu_without v io l1 D l2 : iommu_ok v io -> io_domains io = l1 ++ D :: l2 -> dm_devices D = [] -> dm_mappings D = [] ->
  iommu_ok v (without io (l1 ++ l2) (dm_hw_id D)).
Proof.
  intros [I1 I2 I3 I4] E Hd Hm. rewrite E in I1, I2, I3. rewrite fmap_app, fmap_cons in I1. rewrite fmap_app, fmap_cons in I3. split; [| | |done]; simpl.
  - rewrite fmap_app. exact (ids_drop _ _ _ _ _ _ _ _ _ I1).
  - eapply devs_perm; [|exact I2]. rewrite attached_split, Hd. done.
  - rewrite fmap_app. eapply (maps_drop _ _ _ _ _ (dm_id D) (dm_root D)). unfold mapping at 2 in I3. by rewrite Hm in I3.
Qed.

Lemma wp_remove_domain d D l1 l2 {A} (k : M A) Q v x : io_domains (x_iommu x) = l1 ++ D :: l2 -> dm_id D = d -> (forall E, E ∈ l1 ++ l2 -> dm_id E <> d) ->
  wp k Q v (set_iommu (fun _ => without (x_iommu x) (l1 ++ l2) (dm_hw_id D)) x) ->
  wp (_ ← remove_domain d; _ ← vtd_domain_destroy (dm_hw_id D); _ ← mod_iommu (upd_io_ndomains (fun n => u32 (n - 1))); k) Q v x.
Proof.
  intros E Hd Ho H. apply wp_bind, wp_mod_iommu, wp_bind, wp_mod_iommu, wp_bind, wp_mod_iommu. unfold without in H.
  rewrite <- (out_split _ _ _ _ _ E Hd Ho) in H. exact H.
Qed.

Lemma wp_domain_destroy r cookie Q v x : iommu_ok v (x_iommu x) ->
  (forall rc io, iommu_ok v io -> Q rc v (set_iommu (fun _ => io) x)) -> wp (domain_destroy r cookie) Q v x.
Proof.
  intros Hi H. assert (Hkeep : forall rc, Q rc v x) by (intros rc; specialize (H rc _ Hi); by destruct x).
  apply wp_bind, wp_find_domain; [done|by apply wp_ret|]. intros d D HD _ _. apply wp_bind. eapply wp_get_domain; [exact HD|].
  destruct (dm_devices D) eqn:Ed; [|by apply wp_ret]. destruct (dm_mappings D) eqn:Em; [|by apply wp_ret].
  destruct (split_at _ _ _ (iommu_unique v _ Hi) HD) as (l1 & l2 & E & Hd & Ho). eapply wp_remove_domain; [exact E|done|done|].
  apply wp_ret, H. by apply iommu_without.
Qed.

(** ** Devices *)

Definition with_ctx (ctx : gmap Z (gmap Z (Z * Z))) x : rest := set_iommu (upd_io_vtd (upd_vt_contexts (fun _ => ctx))) x.

Lemma devs_ctx P ctx ctx' flt n : devs_ok P ctx flt n -> (forall b f, ctx_at ctx' b f = ctx_at ctx b f) -> devs_ok P ctx' flt n.
Proof. intros [D1 D2 D3 D4 D5] E. split; try done. intros b f h d. rewrite E. apply D3. Qed.

Lemma wp_vtd_attach d hw bus devfn Q v x : vt_responds (io_vtd (x_iommu x)) = true ->
  let ctx := vt_contexts (io_vtd (x_iommu x)) in
  (forall ctx', (forall b f, ctx_at ctx' b f = ctx_at ctx b f) -> Q false v (with_ctx ctx' x)) ->
  (forall ctx', (forall b f, ctx_at ctx' b f = if decide (b = bus /\ f = devfn) then Some (hw, d) else ctx_at ctx b f) -> Q true v (with_ctx ctx' x)) ->
  wp (vtd_attach d hw bus devfn) Q v x.
Proof.
  intros Hre ctx Hno Hyes. assert (Ex : x = with_ctx ctx x) by (destruct x as [? ? ? ? ? ? ? ? ? ? ? ? ? ? ? ? [? ? ? ? ? ? ? []] ? ? ?]; done).
  assert (Hgo : forall c ctx0, default ∅ (ctx0 !! bus) = c -> (forall b f, ctx_at ctx0 b f = ctx_at ctx b f) ->
    wp (if bool_decide (is_Some (c !! devfn)) then mret false else
        _ ← mod_vtd (upd_vt_contexts (insert bus (<[devfn := (hw, d)]> c)));
        ok ← invalidate_all; _ ← asserts ok "vtd: runtime context invalidation timeout"; mret true) Q v (with_ctx ctx0 x)).
  { intros c ctx0 Hc E0. case_bool_decide; [by apply wp_ret, Hno|]. apply wp_bind, wp_mod_iommu.
    apply wp_bind, wp_invalidate; [done|]. apply wp_bind, wp_asserts; [done|]. apply wp_ret. apply (Hyes (<[bus := <[devfn := (hw, d)]> c]> ctx0)).
    intros b f. rewrite ctx_insert by done. by rewrite E0. }
  unfold vtd_attach, context_for. apply wp_bind, wp_bind, wp_get_vtd. fold ctx. destruct (ctx !! bus) as [c|] eqn:Ec.
  - apply wp_ret. specialize (Hgo c ctx). rewrite <- Ex in Hgo. apply Hgo; [by rewrite Ec|done].
  - apply wp_bind, wp_try_alloc. intros [].
    + apply wp_bind, wp_mod_iommu, wp_ret. apply (Hgo ∅ (<[bus := ∅]> ctx)); [by rewrite lookup_insert_eq|]. intros b f. unfold ctx_at.
      destruct (decide (bus = b)) as [->|Hb]; [rewrite lookup_insert_eq, Ec; apply lookup_empty|by rewrite lookup_insert_ne].
    + apply wp_ret, wp_ret. specialize (Hno ctx (fun _ _ => eq_refl)). by rewrite <- Ex in Hno.
Qed.

Lemma wp_vtd_detach bus devfn e Q v x : vt_responds (io_vtd (x_iommu x)) = true -> ctx_at (vt_contexts (io_vtd (x_iommu x))) bus devfn = Some e ->
  (forall ctx', (forall b f, ctx_at ctx' b f = if decide (b = bus /\ f = devfn) then None else ctx_at (vt_contexts (io_vtd (x_iommu x))) b f) -> Q true v (with_ctx ctx' x)) ->
  wp (vtd_detach bus devfn) Q v x.
Proof.
  intros Hre Hc H. unfold vtd_detach, context_for. apply wp_bind, wp_bind, wp_get_vtd. unfold ctx_at in Hc.
  destruct (vt_contexts (io_vtd (x_iommu x)) !! bus) as [c|] eqn:Ec; [|done]. apply wp_ret. rewrite Hc. change (bool_decide (is_Some (Some e))) with true. cbn [negb].
  apply wp_bind, wp_mod_iommu. apply wp_bind, wp_invalidate; [done|]. apply wp_bind, wp_asserts; [done|]. apply wp_ret, H. intros b f. by apply ctx_delete.
Qed.

Lemma wp_set_fault e o Q v x : 0 <= e < 2 ^ 16 -> held_below 2 (x_held x) ->
  Q tt v (set_iommu (upd_io_fault_devices (partial_alter (fun _ => o) e)) x) -> wp (set_fault_device e o) Q v x.
Proof.
  intros He Hh H. apply wp_bind, wp_lock_below; [done|]. apply wp_bind, wp_mod_iommu. eapply wp_unlock_top; [reflexivity|done|].
  unfold u16. rewrite Z.mod_small by done. replace (set_held _ _) with (set_iommu (upd_io_fault_devices (partial_alter (fun _ => o) e)) x) by (by destruct x). done.
Qed.

(** The requester ids of all devices. *)
Lemma requesters l : (fun p => p.2.1.1) <$> attached l = (fun p => dv_encoded p.2) <$> (D ← l; (fun w => (dm_id D, w)) <$> dm_devices D).
Proof.
  induction l as [|D l IH]; [done|]. unfold attached in *. rewrite !bind_cons, !fmap_app, IH. f_equal. by rewrite <- !list_fmap_compose.
Qed.

Lemma device_none io e : device_at io e = None -> e ∉ ((fun p => p.2.1.1) <$> attached (io_domains io)).
Proof.
  intros HN. rewrite requesters. intros Hin. apply list_elem_of_fmap in Hin as (p & -> & Hin). apply list_elem_of_In in Hin.
  pose proof (find_none _ _ HN p Hin) as E. simpl in E. by apply Z.eqb_neq in E.
Qed.

Lemma device_some io e d w : device_at io e = Some (d, w) -> dv_encoded w = e /\ exists D, D ∈ io_domains io /\ dm_id D = d /\ w ∈ dm_devices D.
Proof.
  intros [Hin E%Z.eqb_eq]%find_some. apply list_elem_of_In, list_elem_of_bind in Hin as (D & Hw & HD). split; [done|].
  apply list_elem_of_fmap in Hw as (w' & [= -> ->] & Hw). by exists D.
Qed.

Lemma device_found io e : e ∈ (fun p => p.2.1.1) <$> attached (io_domains io) -> exists d w, device_at io e = Some (d, w).
Proof. intros Hin. destruct (device_at io e) as [[d w]|] eqn:E; [eauto|]. by apply device_none in E. Qed.

(** The devices of domain [D] change. *)
Definition redevice (io : iommu) (l1 l2 : list iommu_domain) (D : iommu_domain) (ds : list iommu_device) : list iommu_domain :=
  l1 ++ upd_dm_devices (fun _ => ds) D :: l2.

Lemma redevice_ok v io l1 D l2 ds ctx flt n : iommu_ok v io -> io_domains io = l1 ++ D :: l2 ->
  devs_ok (attached (redevice io l1 l2 D ds)) ctx flt n ->
  iommu_ok v (IommuState (redevice io l1 l2 D ds) (io_ndomains io) n (io_nmappings io) (io_next_domain_id io) (io_live io) flt (upd_vt_contexts (fun _ => ctx) (io_vtd io))).
Proof.
  intros [I1 I2 I3 I4] E Hd. unfold redevice in *. rewrite E in I1, I3. split; simpl; [|done| |done].
  - rewrite fmap_app, fmap_cons in *. destruct I1 as [J1 J2 J3 J4 J5 J6 J7 J8]. by split.
  - by rewrite fmap_app, fmap_cons in *.
Qed.

Lemma decode_small e : 0 <= e < 2 ^ 32 -> u16 (Z.shiftr e 16) = 0 -> 0 <= e < 2 ^ 16.
Proof.
  intros He Hs. rewrite Z.shiftr_div_pow2 in Hs by lia. unfold u16 in Hs. rewrite Z.mod_small in Hs.
  - split; [lia|]. destruct (Z.div_small_iff e (2 ^ 16) ltac:(lia)) as [[H|H] _]; [done|lia|lia].
  - split; [apply Z.div_pos; lia|apply Z.div_lt_upper_bound; lia].
Qed.

Lemma wp_find_device e Q v x : Q (device_at (x_iommu x) e) v x -> wp (find_device e) Q v x.
Proof. intros H s <- <-. exact H. Qed.

Lemma wp_device_attach d D e cookie Q v x : iommu_ok v (x_iommu x) -> domain_at (x_iommu x) d = Some D -> 0 <= e < 2 ^ 32 -> held_below 2 (x_held x) ->
  (forall rc io, iommu_ok v io -> Q rc v (set_iommu (fun _ => io) x)) -> wp (device_attach d e cookie) Q v x.
Proof.
  intros Hi HD He Hh H. assert (Hkeep : forall rc, Q rc v x) by (intros rc; specialize (H rc _ Hi); by destruct x). pose proof Hi as [I1 I2 I3 I4].
  destruct (split_at _ _ _ (iommu_unique v _ Hi) HD) as (l1 & l2 & E & Hd & Ho).
  unfold device_attach, decode_id. apply wp_bind. destruct (nz _); [by apply wp_ret, wp_ret|]. cbv zeta. unfold vtd_covers. apply wp_bind, wp_bind, wp_get_vtd, wp_ret, wp_ret.
  destruct (_ && _) eqn:Ec; [|by apply wp_ret]. apply andb_true_iff in Ec as [_ Es%Z.eqb_eq]. pose proof (decode_small e He Es) as He'.
  set (b := u8 (Z.shiftr e 8)). set (f := u8 e). apply wp_bind, wp_find_device. case_bool_decide as Ed; [by apply wp_ret|]. apply eq_None_not_Some, device_none in Ed.
  apply wp_bind, wp_get_iommu. destruct (Z.eqb_spec (io_ndevices (x_iommu x)) IOMMU_MAX_DEVICES) as [|Hmax]; [by apply wp_ret|].
  apply wp_bind. eapply wp_get_domain; [exact HD|]. cbv zeta. apply wp_bind.
  assert (Hring : iommu_ring v (dm_ring D)).
  { apply (id_ring _ _ _ _ _ I1 (dm_id D) (dm_hw_id D)). apply (list_elem_of_fmap_2 identity), (domain_in _ _ _ HD). }
  destruct Hring as [[rb Hrb] Hro]. eapply wp_get_ring; [exact Hrb|exact Hro|]. intros sq cq cl nc _. destruct (_ <? _); [by apply wp_ret|].
  apply wp_bind, wp_try_alloc. intros []; cbn [negb]; [|by apply wp_ret]. apply wp_bind, wp_vtd_attach; [done| |].
  - intros ctx Ectx. cbn [negb]. apply wp_ret. refine (H _ (upd_io_vtd (upd_vt_contexts (fun _ => ctx)) (x_iommu x)) _).
    split; [by destruct I1|by eapply devs_ctx|done|done].
  - intros ctx Ectx. cbn [negb]. apply wp_bind. eapply wp_mod_domain; [exact HD|]. apply wp_bind, wp_set_fault; [done|done|]. apply wp_bind, wp_mod_iommu, wp_ret.
    set (w := IommuDevice _ _ _ _ _ _ _ _ _ _ _). set (ds := w :: dm_devices D).
    refine (H 0 (IommuState ((fun D => if dm_id D =? d then upd_dm_devices (cons w) D else D) <$> io_domains (x_iommu x)) (io_ndomains (x_iommu x)) (u32 (io_ndevices (x_iommu x) + 1)) (io_nmappings (x_iommu x)) (io_next_domain_id (x_iommu x)) (io_live (x_iommu x))
      (<[e := e]> (io_fault_devices (x_iommu x))) (upd_vt_contexts (fun _ => ctx) (io_vtd (x_iommu x)))) _).
    rewrite (on_split _ _ _ _ _ (upd_dm_devices (cons w)) E Hd Ho). refine (redevice_ok v (x_iommu x) l1 D l2 ds ctx _ _ Hi E _).
    eapply devs_perm; [symmetry; unfold redevice; apply attached_split|]. simpl.
    refine (devs_attach _ (vt_contexts (io_vtd (x_iommu x))) ctx (io_fault_devices (x_iommu x)) _ (dm_id D) (dm_hw_id D) e b f _ He' eq_refl eq_refl _ _ Hmax).
    + eapply devs_perm; [|exact I2]. rewrite E. exact (attached_split l1 l2 D).
    + rewrite E in Ed. intros Hin. apply Ed. rewrite (attached_split l1 l2 D). exact Hin.
    + rewrite Hd. exact Ectx.
Qed.

Lemma filter_one (l : list iommu_device) w e : NoDup (dv_encoded <$> l) -> List.find (fun u => dv_encoded u =? e) l = Some w ->
  l ≡ₚ w :: List.filter (fun u => negb (dv_encoded u =? e)) l /\ dv_encoded w = e /\ w ∈ l.
Proof.
  induction l as [|u l IH]; intros Hnd Hf; [done|]. rewrite fmap_cons in Hnd. apply NoDup_cons in Hnd as [Hu Hnd]. simpl in *.
  destruct (Z.eqb_spec (dv_encoded u) e) as [E|Hne]; simpl.
  - injection Hf as ->. split_and!; [|done|by left]. f_equiv. assert (Hk : forall k, (forall z, z ∈ k -> dv_encoded z <> e) -> List.filter (fun u => negb (dv_encoded u =? e)) k = k).
    { intros k. induction k as [|z k IHk]; intros Hk; [done|]. simpl. rewrite (proj2 (Z.eqb_neq _ _)) by (apply Hk; by left). simpl. f_equal. apply IHk. intros y Hy. apply Hk. by right. }
    rewrite Hk; [done|]. intros z Hz Ez. apply Hu. rewrite E, <- Ez. by apply list_elem_of_fmap_2.
  - destruct (IH Hnd Hf) as (Hp & E & Hin). split_and!; [|done|by right]. rewrite Hp at 1. apply perm_swap.
Qed.

Lemma devices_unique v io D : iommu_ok v io -> D ∈ io_domains io -> NoDup (dv_encoded <$> dm_devices D).
Proof.
  intros Hi Hin. pose proof (ds_unique _ _ _ _ (io_devs _ _ Hi)) as Hu. apply list_elem_of_split in Hin as (l1 & l2 & E). rewrite E, attached_split, fmap_app in Hu.
  apply NoDup_app in Hu as [Hu _]. by rewrite <- list_fmap_compose in Hu.
Qed.

(** A device of domain [d] is detached; one that is there always is. *)
Lemma wp_device_detach d D l1 l2 e Q v x : iommu_ok v (x_iommu x) -> io_domains (x_iommu x) = l1 ++ D :: l2 -> domain_at (x_iommu x) d = Some D ->
  (forall E, E ∈ l1 ++ l2 -> dm_id E <> d) -> held_below 2 (x_held x) ->
  (List.find (fun u => dv_encoded u =? e) (dm_devices D) = None -> Q SYSERR_INVAL v x) ->
  (forall io, iommu_ok v io -> io_domains io = redevice (x_iommu x) l1 l2 D (List.filter (fun u => negb (dv_encoded u =? e)) (dm_devices D)) ->
     Q 0 v (set_iommu (fun _ => io) x)) -> wp (device_detach d e) Q v x.
Proof.
  intros Hi E HD Ho Hh Hno H. pose proof Hi as [I1 I2 I3 I4]. destruct (domain_in _ _ _ HD) as [Hin Hd].
  apply wp_bind. eapply wp_get_domain; [exact HD|]. destruct (List.find _ _) as [w|] eqn:Hf; [|by apply wp_ret, Hno].
  destruct (filter_one _ w e (devices_unique v _ D Hi Hin) Hf) as (Hp & He & Hw). set (ds := List.filter _ (dm_devices D)) in *.
  assert (Hat : attached (io_domains (x_iommu x)) ≡ₚ attachment D w :: attached (redevice (x_iommu x) l1 l2 D ds)).
  { rewrite E, attached_split. unfold redevice. rewrite attached_split. simpl. change (attachment (upd_dm_devices (fun _ => ds) D)) with (attachment D).
    rewrite Hp at 1. done. }
  pose proof (devs_perm _ _ _ _ _ Hat I2) as I2'. destruct (ds_range _ _ _ _ I2' _ _ _ _ _ ltac:(by left)) as (Hr & _ & _).
  assert (Hctx : ctx_at (vt_contexts (io_vtd (x_iommu x))) (dv_bus w) (dv_devfn w) = Some (dm_hw_id D, dm_id D)).
  { apply (ds_context _ _ _ _ I2'). exists (dv_encoded w). by left. }
  apply wp_bind, wp_set_fault; [done|done|]. apply wp_bind. eapply wp_vtd_detach; [done|exact Hctx|]. intros ctx Ectx. apply wp_bind, wp_asserts; [done|].
  apply wp_bind. eapply wp_mod_domain; [exact HD|]. apply wp_bind, wp_mod_iommu, wp_ret.
  set (io' := IommuState (redevice (x_iommu x) l1 l2 D ds) (io_ndomains (x_iommu x)) (u32 (io_ndevices (x_iommu x) - 1)) (io_nmappings (x_iommu x))
    (io_next_domain_id (x_iommu x)) (io_live (x_iommu x)) (delete (dv_encoded w) (io_fault_devices (x_iommu x))) (upd_vt_contexts (fun _ => ctx) (io_vtd (x_iommu x)))).
  assert (Hok : iommu_ok v io') by (apply redevice_ok; [done|done|by eapply devs_detach]).
  specialize (H io' Hok eq_refl). unfold io', redevice in H.
  rewrite <- (on_split _ _ _ _ _ (upd_dm_devices (fun _ => ds)) E Hd Ho) in H.
  rewrite (list_fmap_ext _ (fun D' => if dm_id D' =? d then upd_dm_devices (List.filter (fun u => negb (dv_encoded u =? e))) D' else D')) in H; [exact H|].
  intros i G HG. destruct (Z.eqb_spec (dm_id G) d) as [EG|]; [|done]. unfold upd_dm_devices, ds. do 2 f_equal.
  assert (G = D) as ->; [|done]. apply list_elem_of_lookup_2 in HG. rewrite E in HG. apply in_middle in HG as [->|HG]; [done|]. by destruct (Ho G HG).
Qed.

(** A change to the fault fields of a device. *)
Lemma wp_mod_device e f Q v x : iommu_ok v (x_iommu x) -> e ∈ (fun p => p.2.1.1) <$> attached (io_domains (x_iommu x)) ->
  (forall w, dv_encoded (f w) = dv_encoded w /\ dv_bus (f w) = dv_bus w /\ dv_devfn (f w) = dv_devfn w) ->
  (forall io, iommu_ok v io -> attached (io_domains io) = attached (io_domains (x_iommu x)) -> io_vtd io = io_vtd (x_iommu x) -> Q tt v (set_iommu (fun _ => io) x)) ->
  wp (mod_device e f) Q v x.
Proof.
  intros Hi He Hf H. pose proof Hi as [I1 I2 I3 I4]. destruct (device_found _ _ He) as (d & w & Hw). apply wp_bind, wp_find_device. rewrite Hw. apply wp_bind.
  eapply wp_deref; [done|]. destruct (device_some _ _ _ _ Hw) as (_ & D & HD & Hd & _). pose proof (at_split _ _ _ (iommu_unique v _ Hi) HD Hd) as Hat.
  destruct (split_at _ _ _ (iommu_unique v _ Hi) Hat) as (l1 & l2 & E & _ & Ho). eapply wp_mod_domain; [exact Hat|].
  set (g := fmap (fun u => if dv_encoded u =? e then f u else u)).
  assert (Ea : attached (l1 ++ upd_dm_devices g D :: l2) = attached (io_domains (x_iommu x))).
  { rewrite E. unfold attached. rewrite !bind_app, !bind_cons. do 2 f_equal. change (attachment (upd_dm_devices g D)) with (attachment D).
    change (dm_devices (upd_dm_devices g D)) with (g (dm_devices D)). unfold g. rewrite <- list_fmap_compose. apply list_fmap_ext. intros _ u _. simpl. unfold attachment.
    destruct (Hf u) as (F1 & F2 & F3). by destruct (_ =? _); [rewrite F1, F2, F3|]. }
  refine (H (upd_io_domains (fmap (fun D => if dm_id D =? d then upd_dm_devices g D else D)) (x_iommu x)) _ _ eq_refl); [|cbn [io_domains upd_io_domains]; rewrite (on_split _ _ _ _ _ (upd_dm_devices g) E Hd Ho); exact Ea].
  split; cbn [io_domains upd_io_domains]; [rewrite (on_split _ _ _ _ _ (upd_dm_devices g) E Hd Ho)..|done].
  - rewrite E, fmap_app, fmap_cons in I1. rewrite fmap_app, fmap_cons. destruct I1 as [J1 J2 J3 J4 J5 J6 J7 J8]. by split.
  - by rewrite Ea.
  - rewrite E, fmap_app, fmap_cons in I3. by rewrite fmap_app, fmap_cons.
Qed.

(** ** Faults *)

(** What reporting leaves behind. *)
Record reported v x x' : Prop := {
  rp_quiet : quiet x x';
  rp_part : x_grants x' = x_grants x /\ x_next_grant x' = x_next_grant x /\ x_boot_key x' = x_boot_key x /\ x_routes x' = x_routes x /\
    x_claims x' = x_claims x /\ x_ioapic x' = x_ioapic x;
  rp_sched : sched_inv v x' [] [];
  rp_iommu : iommu_ok v (x_iommu x');
  rp_attached : attached (io_domains (x_iommu x')) = attached (io_domains (x_iommu x));
  rp_faults : length (vt_faults (io_vtd (x_iommu x'))) = length (vt_faults (io_vtd (x_iommu x))) }.

Lemma reported_refl v x : sched_inv v x [] [] -> iommu_ok v (x_iommu x) -> reported v x x.
Proof. intros Hs Hi. by split; [apply quiet_refl|..]. Qed.

Lemma reported_trans v x y z : reported v x y -> reported v y z -> reported v x z.
Proof.
  intros [A1 (A2 & A3 & A4 & A5 & A6 & A7) A8 A9 A10 A11] [B1 (B2 & B3 & B4 & B5 & B6 & B7) B8 B9 B10 B11].
  split; [by eapply quiet_trans|split_and!; congruence|done|done|congruence|congruence].
Qed.

Lemma reported_calm v x x' : calm x x' -> sched_inv v x' [] [] -> iommu_ok v (x_iommu x) -> reported v x x'.
Proof.
  intros Hc Hs Hi. destruct (calm_keep _ _ Hc) as (C1 & C2 & C3 & C4 & C5 & C6 & C7 & C8 & C9 & C10 & C11 & C12 & C13).
  split; [by apply calm_quiet|done|done|by rewrite C12..].
Qed.

Lemma reported_io v x io : sched_inv v x [] [] -> iommu_ok v io -> attached (io_domains io) = attached (io_domains (x_iommu x)) ->
  length (vt_faults (io_vtd io)) = length (vt_faults (io_vtd (x_iommu x))) -> reported v x (set_iommu (fun _ => io) x).
Proof. intros Hs Hi Ha Hl. split; [by split|done|by eapply sched_rest; [|exact Hs]|done..]. Qed.

Lemma reported_held v x x' : reported v x x' -> x_held x' = x_held x.
Proof. intros Hr. apply quiet_held, Hr. Qed.

Lemma reported_relock l v x x' : reported v (set_held l x) x' -> reported v x (set_held (x_held x) x').
Proof.
  intros [[Q1 Q2 Q3 Q4 Q5] R2 R3 R4 R5 R6]. split; [split; simpl in *; [naive_solver|done..]|done|by eapply sched_rest; [|exact R3]|done..].
Qed.

(** A step on the device fields in the course of a report. *)
Lemma wp_report_step e f {A} (k : M A) Q v x y : sched_inv v y [] [] -> iommu_ok v (x_iommu y) -> reported v x y ->
  e ∈ (fun p => p.2.1.1) <$> attached (io_domains (x_iommu y)) ->
  (forall w, dv_encoded (f w) = dv_encoded w /\ dv_bus (f w) = dv_bus w /\ dv_devfn (f w) = dv_devfn w) ->
  (forall z, reported v x z -> e ∈ (fun p => p.2.1.1) <$> attached (io_domains (x_iommu z)) -> wp k Q v z) -> wp (_ ← mod_device e f; k) Q v y.
Proof.
  intros Hs Hi Hr He Hf H. apply wp_bind, wp_mod_device; [done|done|done|]. intros io Hio Ea Ev. apply H.
  - eapply reported_trans; [exact Hr|]. apply reported_io; [done|done|done|by rewrite Ev].
  - simpl. by rewrite Ea.
Qed.

Lemma wp_fault_post e Q v x : graph_inv v -> sched_inv v x [] [] -> iommu_ok v (x_iommu x) -> held_below 3 (x_held x) ->
  (forall x', reported v x x' -> Q tt v x') -> wp (fault_retire_and_post_locked e) Q v x.
Proof.
  intros Hg Hs Hi Hh H. assert (Hkeep : Q tt v x) by (by apply H, reported_refl). apply wp_bind, wp_find_device.
  destruct (device_at (x_iommu x) e) as [[d w]|] eqn:Hw; [|by apply wp_skip]. destruct (device_some _ _ _ _ Hw) as (He & D & HD & Hd & Hin).
  assert (Hat : e ∈ (fun p => p.2.1.1) <$> attached (io_domains (x_iommu x))).
  { apply list_elem_of_fmap. exists (attachment D w). split; [done|]. apply list_elem_of_bind. exists D. split; [by apply list_elem_of_fmap_2|done]. }
  apply wp_bind. eapply wp_get_domain; [by apply at_split; [eapply iommu_unique| |exact Hd]|].
  assert (Hl : ring_live v (dm_ring D)).
  { destruct (id_ring _ _ _ _ _ (io_ids _ _ Hi) (dm_id D) (dm_hw_id D) (dm_ring D)) as [[rb Hrb] _]; [by apply (list_elem_of_fmap_2 identity)|]. by eapply inv_ring_live. }
  assert (Hpost : forall y, reported v x y -> e ∈ (fun p => p.2.1.1) <$> attached (io_domains (x_iommu y)) ->
    wp (index ← channel_post_data (dm_ring D) KEV_IOMMU_FAULT (dv_fault_cookie w) (dv_last_iova w) (dv_last_reason w);
        match index with
        | None => skip
        | Some index => _ ← mod_device e (upd_dv_fault_posted (fun _ => true)); _ ← mod_device e (upd_dv_ev_index (fun _ => index));
            mod_device e (fun u => upd_dv_posted_count (fun _ => dv_fault_count u) u)
        end) Q v y).
  { intros y Hy Hey. apply wp_bind, wp_post_data; [by apply inv_wake|apply Hy|done|by rewrite (reported_held _ _ _ Hy)|]. intros o z Hsz Hc.
    pose proof (reported_calm v y z Hc Hsz (rp_iommu _ _ _ Hy)) as Hyz. pose proof (reported_trans _ _ _ _ Hy Hyz) as Hz. rewrite <- (rp_attached _ _ _ Hyz) in Hey.
    destruct o as [index|]; [|by apply wp_skip, H].
    eapply wp_report_step; [done|apply Hz|exact Hz|done|done|]. intros z1 Hz1 He1. eapply wp_report_step; [apply Hz1|apply Hz1|exact Hz1|done|done|]. intros z2 Hz2 He2.
    apply wp_mod_device; [apply Hz2|done|done|]. intros io Hio Ea Ev. apply H. eapply reported_trans; [exact Hz2|]. apply reported_io; [apply Hz2|done|done|by rewrite Ev]. }
  assert (Hrest : forall consumed : bool, wp (_ ← when consumed (mod_device e (upd_dv_fault_posted (fun _ => false)));
    if (dv_fault_posted w && negb consumed) || (dv_posted_count w =? dv_fault_count w) then skip
    else index ← channel_post_data (dm_ring D) KEV_IOMMU_FAULT (dv_fault_cookie w) (dv_last_iova w) (dv_last_reason w);
        match index with
        | None => skip
        | Some index => _ ← mod_device e (upd_dv_fault_posted (fun _ => true)); _ ← mod_device e (upd_dv_ev_index (fun _ => index));
            mod_device e (fun u => upd_dv_posted_count (fun _ => dv_fault_count u) u)
        end) Q v x).
  { intros []; cbn [when].
    - eapply wp_report_step; [done|done|by apply reported_refl|done|done|]. intros z Hz Hez. destruct (_ || _); [by apply wp_skip, H|by apply Hpost].
    - apply wp_bind, wp_skip. destruct (_ || _); [by apply wp_skip|]. apply Hpost; [by apply reported_refl|done]. }
  apply wp_bind. destruct (dv_fault_posted w); [|by apply wp_ret, Hrest]. apply wp_consumed; [done|done|]. intros b. apply Hrest.
Qed.

Lemma wp_report_fault q iova reason Q v x : graph_inv v -> sched_inv v x [] [] -> iommu_ok v (x_iommu x) -> held_below 2 (x_held x) ->
  (forall x', reported v x x' -> Q tt v x') -> wp (iommu_report_fault q iova reason) Q v x.
Proof.
  intros Hg Hs Hi Hh H. unfold iommu_report_fault. destruct (nz _); [by apply wp_skip, H, reported_refl|].
  apply wp_bind, wp_lock_below; [done|]. set (y := set_held (LFault :: x_held x) x). assert (Hsy : sched_inv v y [] []) by (by eapply sched_rest; [|exact Hs]).
  assert (Hend : forall z, reported v y z -> wp (unlock LFault) Q v z).
  { intros z Hz. eapply wp_unlock_top; [by rewrite (reported_held _ _ _ Hz)|done|]. by eapply H, reported_relock. }
  apply wp_bind, wp_get_iommu. apply wp_bind. change (x_iommu y) with (x_iommu x). destruct (io_fault_devices (x_iommu x) !! u16 q) as [e|] eqn:Ef;
    [|apply wp_skip, Hend; by apply reported_refl].
  apply (ds_fault _ _ _ _ (io_devs _ _ Hi)) in Ef as [_ He].
  eapply wp_report_step; [done|exact Hi|by apply reported_refl|exact He|done|]. intros z1 Hz1 He1. eapply wp_report_step; [apply Hz1|apply Hz1|exact Hz1|done|done|]. intros z2 Hz2 He2.
  eapply wp_report_step; [apply Hz2|apply Hz2|exact Hz2|done|done|]. intros z3 Hz3 He3.
  apply wp_fault_post; [done|apply Hz3|apply Hz3|rewrite (reported_held _ _ _ Hz3); constructor; [simpl; lia|by eapply held_below_weaken; [|exact Hh]]|].
  intros z Hz. apply Hend. by eapply reported_trans.
Qed.

Lemma iommu_faults v io f : iommu_ok v io -> iommu_ok v (upd_io_vtd (upd_vt_faults f) io).
Proof. intros [I1 I2 I3 I4]. split; [|done|done|done]. destruct I1 as [J1 J2 J3 J4 J5 J6 J7 J8]. by split. Qed.

Lemma wp_fault_loop Q v : graph_inv v -> forall n i x, sched_inv v x [] [] -> iommu_ok v (x_iommu x) -> held_below 2 (x_held x) ->
  (i + n = length (vt_faults (io_vtd (x_iommu x))))%nat -> (forall x', reported v x x' -> Q tt v x') -> wp (fault_loop n i) Q v x.
Proof.
  intros Hg n. induction n as [|n IH]; intros i x Hs Hi Hh Hl H; cbn [fault_loop]; [by apply wp_skip, H, reported_refl|].
  apply wp_bind, wp_get_vtd. destruct (lookup_lt_is_Some_2 (vt_faults (io_vtd (x_iommu x))) i) as [[lo hi] Hlo]; [lia|].
  apply wp_bind. eapply wp_deref; [exact Hlo|]. apply wp_bind. destruct (Z.testbit hi 63).
  - cbv zeta. apply wp_bind, wp_report_fault; [done|done|done|done|]. intros y Hy. apply wp_mod_iommu.
    set (z := set_iommu _ y). assert (Hz : reported v x z).
    { eapply reported_trans; [exact Hy|]. refine (reported_io v y (upd_io_vtd (upd_vt_faults (insert i (lo, Z.clearbit hi 63))) (x_iommu y)) _ _ eq_refl _);
        [apply Hy|by apply iommu_faults, Hy|]. simpl. by rewrite length_insert. }
    apply IH; [apply Hz|apply Hz|by rewrite (reported_held _ _ _ Hz)|rewrite (rp_faults _ _ _ Hz); lia|]. intros x' Hx'. apply H. by eapply reported_trans.
  - apply wp_skip. apply IH; [done|done|done|lia|done].
Qed.

Lemma wp_fault_interrupt Q v x : graph_inv v -> sched_inv v x [] [] -> iommu_ok v (x_iommu x) -> held_below 2 (x_held x) ->
  (forall x', reported v x x' -> Q tt v x') -> wp vtd_fault_interrupt Q v x.
Proof.
  intros Hg Hs Hi Hh H. apply wp_bind, wp_get_vtd. apply wp_bind, wp_fault_loop; [done|done|done|done|done|]. intros x' Hx'.
  apply wp_bind, wp_get_vtd. apply wp_when; intros _; [apply wp_emit|]; by apply H.
Qed.

(** A walk that reports for some of the devices. *)
Lemma wp_iter_report {A} (f : A -> M unit) Q v : graph_inv v ->
  (forall a R x, sched_inv v x [] [] -> iommu_ok v (x_iommu x) -> held_below 3 (x_held x) -> (forall x', reported v x x' -> R tt v x') -> wp (f a) R v x) ->
  forall l x, sched_inv v x [] [] -> iommu_ok v (x_iommu x) -> held_below 3 (x_held x) -> (forall x', reported v x x' -> Q tt v x') -> wp (iterM f l) Q v x.
Proof.
  intros Hg Hf l. induction l as [|a l IH]; intros x Hs Hi Hh H; cbn [iterM]; [by apply wp_skip, H, reported_refl|].
  apply wp_bind, Hf; [done|done|done|]. intros y Hy. apply IH; [apply Hy|apply Hy|by rewrite (reported_held _ _ _ Hy)|]. intros x' Hx'. apply H. by eapply reported_trans.
Qed.

Lemma wp_iommu_replay r Q v x : graph_inv v -> sched_inv v x [] [] -> iommu_ok v (x_iommu x) -> held_below 2 (x_held x) ->
  (forall x', reported v x x' -> Q tt v x') -> wp (iommu_replay r) Q v x.
Proof.
  intros Hg Hs Hi Hh H. apply wp_bind, wp_lock_below; [done|]. set (y := set_held (LFault :: x_held x) x). apply wp_bind, wp_get_iommu. apply wp_bind.
  assert (Hsy : sched_inv v y [] []) by (by eapply sched_rest; [|exact Hs]).
  apply wp_iter_report; [done| |done|done|constructor; [simpl; lia|by eapply held_below_weaken; [|exact Hh]]|].
  - intros D R z Hsz Hiz Hhz Hz. apply wp_when; intros _; [|by apply Hz, reported_refl]. apply wp_iter_report; [done| |done|done|done|done].
    intros w R' u Hsu Hiu Hhu Hu. by apply wp_fault_post.
  - intros z Hz. eapply wp_unlock_top; [by rewrite (reported_held _ _ _ Hz)|done|]. by eapply H, reported_relock.
Qed.

(** ** Mappings *)

Lemma wp_get_block_info b i Q v x : v_info v b = Some i -> (forall o, v_owner v b = Some o -> Q (block_of v b i o) v x) -> wp (get_block b) Q v x.
Proof.
  intros Hi H s Hv Hx. assert (exists o, v_owner v b = Some o) as [o Ho].
  { subst v. simpl in *. destruct (k_blocks s !! b) as [B|]; [|done]. simpl. eauto. }
  revert s Hv Hx. eapply wp_get_block; [exact Hi|exact Ho|]. by apply H.
Qed.

Lemma dma_info v b i m : dma_of v b = Some (i, m) -> v_info v b = Some i /\ v_dma v b = Some m.
Proof. unfold dma_of. destruct (v_info v b), (v_dma v b); try done. by intros [= -> ->]. Qed.

Lemma dma_set v b i o b' : v_info v b = Some i ->
  dma_of (upd_v_dma (fset b o) v) b' = if decide (b' = b) then dma_less i o else dma_of v b'.
Proof.
  intros Hi. unfold dma_of. change (v_info (upd_v_dma (fset b o) v)) with (v_info v). change (v_dma (upd_v_dma (fset b o) v)) with (fset b o (v_dma v)).
  unfold fset. destruct (decide (b' = b)) as [->|Hne]; [|done]. rewrite Hi. by destruct o.
Qed.

Lemma wp_find_mapping base Q v x : forall bs, (forall b, b ∈ bs -> is_Some (v_info v b)) ->
  ((forall b i, b ∈ bs -> v_info v b = Some i -> i_base i <> base) -> Q None v x) ->
  (forall b i, b ∈ bs -> v_info v b = Some i -> i_base i = base -> Q (Some b) v x) -> wp (find_mapping bs base) Q v x.
Proof.
  induction bs as [|b bs IH]; intros Hb Hno Hyes; cbn [find_mapping]; [apply wp_ret, Hno; intros b i ?%not_elem_of_nil; done|].
  destruct (Hb b ltac:(by left)) as [i Hi]. apply wp_bind. eapply wp_get_block_info; [exact Hi|]. intros o _. cbn [block_of b_base].
  destruct (Z.eqb_spec (i_base i) base) as [E|Hne]; [apply wp_ret; eapply Hyes; [by left|exact Hi|done]|].
  apply IH; [intros c Hc; apply Hb; by right| |].
  - intros Hall. apply Hno. intros c j [->|Hc]%elem_of_cons Hj; [congruence|by eapply Hall].
  - intros c j Hc. apply Hyes. by right.
Qed.

Lemma mapping_in io d D : domain_at io d = Some D -> (d, dm_root D, dm_mappings D) ∈ mapping <$> io_domains io.
Proof. intros HD. destruct (domain_in _ _ _ HD) as [Hin <-]. apply list_elem_of_fmap. by exists D. Qed.

Lemma block_mapped v io d D b : iommu_ok v io -> domain_at io d = Some D -> b ∈ dm_mappings D ->
  exists i m p, v_info v b = Some i /\ v_dma v b = Some m /\ m !! d = Some p /\ 1 <= p <= 3 /\ dma_block i.
Proof.
  intros Hi HD Hb. destruct (ms_block _ _ _ _ (io_maps _ _ Hi) _ _ _ _ (mapping_in _ _ _ HD) Hb) as (i & m & p & E & E' & Hp & Hdb).
  destruct (dma_info _ _ _ _ E). by exists i, m, p.
Qed.

Lemma filter_block (l : list Z) b : NoDup l -> b ∈ l -> l ≡ₚ b :: List.filter (fun b' => negb (b' =? b)) l.
Proof.
  induction l as [|c l IH]; intros Hnd Hin; [by apply not_elem_of_nil in Hin|]. apply NoDup_cons in Hnd as [Hc Hnd]. simpl. destruct (Z.eqb_spec c b) as [->|Hne]; simpl.
  - f_equiv. assert (Hk : forall k, b ∉ k -> List.filter (fun b' => negb (b' =? b)) k = k); [|by rewrite Hk].
    intros k. induction k as [|z k IHk]; intros Hk; [done|]. apply not_elem_of_cons in Hk as [Hz Hk]. simpl. rewrite (proj2 (Z.eqb_neq _ _)) by done. simpl. f_equal. by apply IHk.
  - apply elem_of_cons in Hin as [->|Hin]; [done|]. rewrite (IH Hnd Hin) at 1. apply perm_swap.
Qed.

(** The domain list with [D'] for [D]. *)
Lemma root_same d D l1 l2 x : io_domains (x_iommu x) = l1 ++ D :: l2 -> dm_id D = d -> (forall E, E ∈ l1 ++ l2 -> dm_id E <> d) -> x = with_root d (dm_root D) x.
Proof.
  intros E Hd Ho. unfold with_root, on_domain, set_iommu, upd_io_domains. rewrite (on_split _ _ _ _ _ (upd_dm_root (fun _ => dm_root D)) E Hd Ho).
  replace (upd_dm_root (fun _ => dm_root D) D) with D by (by destruct D). rewrite <- E. destruct x as [? ? ? ? ? ? ? ? ? ? ? ? ? ? ? ? io ? ? ?]. by destruct io.
Qed.

Lemma iommu_retable v io l1 D l2 D' n dma' v' : iommu_ok v io -> io_domains io = l1 ++ D :: l2 -> identity D' = identity D -> dm_devices D' = dm_devices D ->
  v_rblock v' = v_rblock v -> v_rops v' = v_rops v -> (forall b, dma_of v' b = dma' b) ->
  maps_ok (vt_superpage_2m (io_vtd io)) dma' ((mapping <$> l1) ++ mapping D' :: (mapping <$> l2)) n ->
  iommu_ok v' (upd_io_nmappings (fun _ => n) (upd_io_domains (fun _ => l1 ++ D' :: l2) io)).
Proof.
  intros [I1 I2 I3 I4] E Eid Edv E1 E2 Ed Hm. rewrite E in I1, I2. split; simpl; [| | |done].
  - rewrite fmap_app, fmap_cons in *. rewrite Eid. eapply ids_rings; [exact I1|]. intros d h r _. unfold iommu_ring. by rewrite E1, E2.
  - unfold attached in *. rewrite bind_app, bind_cons in *. rewrite Edv. unfold identity in Eid. injection Eid as F1 F2 _.
    replace (attachment D') with (attachment D); [done|]. unfold attachment. by rewrite F1, F2.
  - rewrite fmap_app, fmap_cons. by eapply maps_ext.
Qed.

Lemma on_domain_io d f x l1 D l2 : io_domains (x_iommu x) = l1 ++ D :: l2 -> dm_id D = d -> (forall E, E ∈ l1 ++ l2 -> dm_id E <> d) ->
  on_domain d f x = set_iommu (upd_io_domains (fun _ => l1 ++ f D :: l2)) x.
Proof. intros E Hd Ho. unfold on_domain, set_iommu, upd_io_domains. by rewrite (on_split _ _ _ _ _ f E Hd Ho). Qed.

(** The mapping of block [b] in domain [d] is undone. *)
Lemma wp_unmap_mapping d D l1 l2 b Q v x : iommu_ok v (x_iommu x) -> io_domains (x_iommu x) = l1 ++ D :: l2 -> domain_at (x_iommu x) d = Some D ->
  (forall E, E ∈ l1 ++ l2 -> dm_id E <> d) -> b ∈ dm_mappings D ->
  (forall io t m, v_dma v b = Some m -> iommu_ok (upd_v_dma (fset b (unmapped d m)) v) io ->
     io_domains io = l1 ++ upd_dm_mappings (fun _ => List.filter (fun b' => negb (b' =? b)) (dm_mappings D)) (upd_dm_root (fun _ => t) D) :: l2 ->
     Q tt (upd_v_dma (fset b (unmapped d m)) v) (set_iommu (fun _ => io) x)) ->
  wp (unmap_mapping d b) Q v x.
Proof.
  intros Hi E HD Ho Hb H. pose proof Hi as [I1 I2 I3 I4]. destruct (domain_in _ _ _ HD) as [_ Hd].
  subst d. set (d := dm_id D) in *. assert (Hd : dm_id D = d) by done.
  destruct (block_mapped v _ d D b Hi HD Hb) as (i & m & p & Hbi & Hbm & Hp & Hpr & Hdb). set (sp := vt_superpage_2m (io_vtd (x_iommu x))).
  assert (Hdma : dma_of v b = Some (i, m)) by (unfold dma_of; by rewrite Hbi, Hbm).
  destruct (kind_range sp i Hdb) as (K1 & K2 & K3 & K4 & K5). cbv zeta in *. pose proof (db_base i Hdb) as [B1 B2].
  pose proof (mapping_in _ _ _ HD) as Hmap. destruct (ms_tables _ _ _ _ I3 _ _ _ Hmap) as [Hnd _].
  set (bs' := List.filter (fun b' => negb (b' =? b)) (dm_mappings D)) in *. pose proof (filter_block _ b Hnd Hb) as Hbs. fold bs' in Hbs.
  apply wp_bind. eapply wp_get_block_info; [exact Hbi|]. intros o Hown. cbn [block_of b_base b_order]. rewrite <- K5. apply wp_bind.
  rewrite (root_same d D l1 l2 x E Hd Ho) at 1.
  refine (wp_vtd_unmap sp _ (i_base i) _ K1 B1 K2 _ d D _ (mapped sp (dma_of v) d bs') p _ v x HD eq_refl I4 _ _ Hpr _ _); [lia| | |lia|].
  { eapply unmap_tables; [exact I3|exact Hmap|exact Hbs|exact Hdma|exact Hp|exact Hdb]. }
  { intros a Ha. rewrite K3 in Ha. assert (Hv : forall k, mapped sp (dma_of v) d bs' k a = None); [|by split].
    intros k. eapply mapped_vacant; [|exact Ha]. intros c Hc j mc a' Hcd Hin Hin'. assert (c = b) as -> by (by eapply (ms_apart _ _ _ _ I3)).
    rewrite Hbs in Hnd. by apply NoDup_cons in Hnd as [? _]. }
  intros t' Ht'. apply wp_bind, wp_asserts; [done|]. pose proof (root_of d t' x D HD) as HD'.
  apply wp_bind. unfold unlink_mapping. apply wp_bind. eapply wp_mod_domain; [exact HD'|]. unfold with_root. rewrite on_domain_twice by done.
  rewrite (on_domain_io d _ x l1 D l2 E Hd Ho). apply wp_bind. eapply wp_get_block; [exact Hbi|exact Hown|].
  cbn [block_of b_dma_maps]. rewrite Hbm. apply wp_bind, wp_asserts; [apply bool_decide_eq_true; simpl; by exists p|].
  apply wp_b_dma_maps; [by eexists|]. rewrite Hbm. change (mbind _ (Some m)) with (unmapped d m). apply wp_mod_iommu.
  set (D' := upd_dm_mappings (fun _ => bs') (upd_dm_root (fun _ => t') D)).
  set (io' := upd_io_nmappings (fun _ => u32 (io_nmappings (x_iommu x) - 1)) (upd_io_domains (fun _ => l1 ++ D' :: l2) (x_iommu x))).
  assert (Hok : iommu_ok (upd_v_dma (fset b (unmapped d m)) v) io').
  { eapply (iommu_retable v (x_iommu x) l1 D l2 D'); [done|exact E|done|done|done|done|intros c; reflexivity|].
    rewrite E, fmap_app, fmap_cons in I3. eapply (maps_unmap sp (dma_of v) _ _ _ _ d (dm_root D) t' (dm_mappings D) bs' b i m); [exact I3|by intros c; apply dma_set|exact Hdma|exact Hbs|exact Ht']. }
  exact (H io' t' m Hbm Hok eq_refl).
Qed.

Lemma wp_mapping_leaves sp Q v x : forall fuel iova pages, 0 <= pages <= Z.of_nat fuel -> (forall n, Q n v x) -> wp (mapping_leaves fuel sp iova pages) Q v x.
Proof.
  intros fuel. revert Q. induction fuel as [|fuel IH]; intros Q iova pages Hp H; cbn [mapping_leaves]; (destruct (Z.eqb_spec pages 0) as [|Hne]; [by apply wp_ret|]); [lia|].
  cbv zeta. apply wp_bind, IH; [|intros n; by apply wp_ret]. unfold leaf_huge, leaf_pages. destruct (_ && _ && _) eqn:E; [|lia].
  apply andb_true_iff in E as [_ E%Z.leb_le]. lia.
Qed.

Lemma dma_block_of i : block_ok i -> i_backing i = UBLOCK_RAM -> dma_block i.
Proof. intros [B1 B2 B3 B4] Hr. rewrite Hr in B4. destruct B4 as (_ & B4 & B5 & B6). by split; [..|lia| |]. Qed.

(** Mapping block [b], which the domain has not mapped. *)
Lemma wp_map_in d D l1 l2 b i permissions Q v x : graph_inv v -> iommu_ok v (x_iommu x) -> io_domains (x_iommu x) = l1 ++ D :: l2 -> domain_at (x_iommu x) d = Some D ->
  (forall E, E ∈ l1 ++ l2 -> dm_id E <> d) -> v_info v b = Some i -> dma_block i -> 1 <= permissions <= 3 -> io_nmappings (x_iommu x) <> IOMMU_MAX_MAPPINGS ->
  (forall c j, c ∈ dm_mappings D -> v_info v c = Some j -> i_base j <> i_base i) ->
  (forall io o, iommu_ok (upd_v_dma (fset b o) v) io -> Q 0 (upd_v_dma (fset b o) v) (set_iommu (fun _ => io) x)) ->
  (forall rc io, iommu_ok v io -> Q rc v (set_iommu (fun _ => io) x)) ->
  wp (ok ← vtd_map d (i_base i) (i_base i) (2 ^ i_order i) permissions;
      if negb ok then mret SYSERR_NOMEM else
      if bool_decide (is_Some (default ∅ (v_dma v b) !! d)) then _ ← vtd_unmap d (i_base i) (2 ^ i_order i); mret SYSERR_NOMEM else
      _ ← mod_block b (upd_b_dma_maps (fun _ => Some (<[d := permissions]> (default ∅ (v_dma v b)))));
      _ ← mod_domain d (upd_dm_mappings (cons b)); _ ← mod_iommu (upd_io_nmappings (fun n => u32 (n + 1))); mret 0) Q v x.
Proof.
  intros Hg Hi E HD Ho Hbi Hdb Hp Hmax Hnone Hok Hno. pose proof Hi as [I1 I2 I3 I4]. destruct (domain_in _ _ _ HD) as [_ Hd].
  subst d. set (d := dm_id D) in *. assert (Hd : dm_id D = d) by done. set (sp := vt_superpage_2m (io_vtd (x_iommu x))).
  destruct (kind_range sp i Hdb) as (K1 & K2 & K3 & K4 & K5). cbv zeta in *. pose proof (db_base i Hdb) as [B1 B2].
  pose proof (mapping_in _ _ _ HD) as Hmap. destruct (ms_tables _ _ _ _ I3 _ _ _ Hmap) as [Hnd Ht].
  assert (Hfree : default ∅ (v_dma v b) !! d = None).
  { destruct (v_dma v b) as [m|] eqn:Em; [|apply lookup_empty]. simpl. destruct (m !! d) as [q|] eqn:Eq; [|done]. exfalso.
    destruct (ms_back _ _ _ _ I3 b i m d) as (t & bs & H1 & H2); [unfold dma_of; by rewrite Hbi, Em|by eexists|].
    destruct (maps_same _ _ _ _ _ _ _ _ _ I3 Hmap H1) as [_ <-]. by apply (Hnone b i). }
  assert (Hap : forall c j mc a, dma_of v c = Some (j, mc) -> c <> b -> in_block j a -> ~ in_block i a).
  { intros c j mc a Hc Hcb Ha Hia. destruct (dma_info _ _ _ _ Hc) as [Hcj _]. apply Hcb. by eapply (geo_apart v (inv_geo v Hg)). }
  rewrite Z.shiftl_1_l in K5. rewrite <- K5. apply wp_bind. rewrite (root_same d D l1 l2 x E Hd Ho) at 1.
  refine (wp_vtd_map sp _ (i_base i) _ K1 B1 K2 _ d D _ (mapped sp (dma_of v) d (dm_mappings D)) permissions _ v x HD eq_refl I4 Ht _ Hp _ _ _); [lia| |lia| |].
  { intros a Ha. rewrite K3 in Ha. assert (Hv : forall k, mapped sp (dma_of v) d (dm_mappings D) k a = None); [|by split].
    intros k. eapply mapped_vacant; [|exact Ha]. intros c Hc j mc a' Hcd Hin. eapply Hap; [exact Hcd| |exact Hin]. intros ->.
    destruct (dma_info _ _ _ _ Hcd) as [Hcj _]. by apply (Hnone b j Hc Hcj); rewrite Hbi in Hcj; injection Hcj as ->. }
  - intros t' Ht'. cbn [negb]. apply wp_ret. unfold with_root. rewrite (on_domain_io d _ x l1 D l2 E Hd Ho).
    refine (Hno _ (upd_io_domains (fun _ => l1 ++ upd_dm_root (fun _ => t') D :: l2) (x_iommu x)) _). rewrite E, fmap_app, fmap_cons in I3.
    pose proof (iommu_retable v (x_iommu x) l1 D l2 (upd_dm_root (fun _ => t') D) (io_nmappings (x_iommu x)) (dma_of v) v Hi E eq_refl eq_refl eq_refl eq_refl (fun _ => eq_refl)
      (maps_retable sp (dma_of v) _ _ _ d (dm_root D) t' (dm_mappings D) I3 Ht')) as Hr. exact Hr.
  - intros t' Ht'. cbn [negb]. rewrite Hfree. change (bool_decide (is_Some None)) with false. cbv iota. apply wp_bind, wp_b_dma_maps; [by eexists|].
    apply wp_bind. eapply wp_mod_domain; [by apply root_of|]. unfold with_root. rewrite on_domain_twice by done. rewrite (on_domain_io d _ x l1 D l2 E Hd Ho).
    apply wp_bind, wp_mod_iommu, wp_ret. set (m := default ∅ (v_dma v b)) in *. set (D' := upd_dm_mappings (cons b) (upd_dm_root (fun _ => t') D)).
    refine (Hok (upd_io_nmappings (fun _ => u32 (io_nmappings (x_iommu x) + 1)) (upd_io_domains (fun _ => l1 ++ D' :: l2) (x_iommu x))) _ _).
    eapply (iommu_retable v (x_iommu x) l1 D l2 D'); [done|exact E|done|done|done|done|intros c; reflexivity|]. rewrite E, fmap_app, fmap_cons in I3.
    eapply (maps_map sp (dma_of v) _ _ _ _ d (dm_root D) t' (dm_mappings D) b i m permissions); [exact I3|intros c; exact (dma_set v b i (Some (<[d := permissions]> m)) c Hbi)| |done|done|done|done|done|exact Ht'].
    unfold m, dma_of. rewrite Hbi. destruct (v_dma v b); [by right|by left].
Qed.

(** [map_block] maps the block or changes nothing but the shape of the tables. *)
Lemma wp_map_block p d D base permissions m Q v x : graph_inv v -> iommu_ok v (x_iommu x) -> domain_at (x_iommu x) d = Some D -> v_map v p = Some m -> live v p ->
  0 <= base -> 0 <= permissions < 2 ^ 32 -> x_held x = [LUmem] ->
  (forall rc o io b, iommu_ok (upd_v_dma (fset b o) v) io -> Q rc (upd_v_dma (fset b o) v) (set_iommu (fun _ => io) x)) ->
  (forall rc io, iommu_ok v io -> Q rc v (set_iommu (fun _ => io) x)) -> wp (Iommu.map_block p d base permissions) Q v x.
Proof.
  intros Hg Hi HD Hm Hl Hba Hpe Hx Hok Hno. assert (Hkeep : forall rc, Q rc v x) by (intros rc; specialize (Hno rc _ Hi); by destruct x).
  pose proof Hi as [I1 I2 I3 I4]. destruct (split_at _ _ _ (iommu_unique v _ Hi) HD) as (l1 & l2 & E & Hd & Ho). set (sp := vt_superpage_2m (io_vtd (x_iommu x))).
  unfold Iommu.map_block. destruct (_ || _) eqn:Ep; [by apply wp_ret|]. apply orb_false_iff in Ep as [Ep1%Z.eqb_neq Ep2%negb_false_iff%Z.eqb_eq].
  assert (Hp3 : 1 <= permissions <= 3).
  { pose proof (Z.ldiff_land permissions 3) as E3. rewrite Ep2 in E3. pose proof (Z.lor_ldiff_and permissions 3) as E4. rewrite Ep2, Z.lor_0_l in E4.
    change 3 with (Z.ones 2) in E4. rewrite Z.land_ones in E4 by lia. pose proof (Z.mod_pos_bound permissions (2 ^ 2) ltac:(lia)). lia. }
  apply wp_bind. eapply wp_get_domain; [exact HD|]. apply wp_bind, wp_find_mapping.
  { intros b Hb. destruct (block_mapped v _ d D b Hi HD Hb) as (i & _ & _ & E' & _). by eexists. }
  2:{ intros; by apply wp_ret. }
  intros Hnone. change (bool_decide (is_Some None)) with false. cbv iota. apply wp_bind, wp_get_iommu.
  destruct (Z.eqb_spec (io_nmappings (x_iommu x)) IOMMU_MAX_MAPPINGS) as [|Hmax]; [by apply wp_ret|].
  apply wp_bind, wp_lock_below; [rewrite Hx; by repeat constructor|]. set (y := set_held (LProc p :: x_held x) x).
  assert (Hun : forall {A} (k : M A) R, wp k R v x -> wp (_ ← umem_proc_unlock p; k) R v y).
  { intros A k R Hk. apply wp_bind. eapply wp_unlock_top; [reflexivity|rewrite Hx; by repeat constructor|]. by replace (set_held _ _) with x by (by destruct x). }
  apply wp_bind, wp_view; [apply Hg|apply Hg|apply Hg|done|done|lia|]. intros ob Hv. apply wp_bind.
  assert (Hbad : wp (_ ← umem_proc_unlock p; mret SYSERR_INVAL) Q v y) by (by apply Hun, wp_ret).
  destruct ob as [b|]; [|by apply wp_ret]. destruct (proj1 (Hv b) eq_refl) as (_ & Hsee & i & Hbi & _).
  apply wp_bind. eapply wp_get_block_info; [exact Hbi|]. intros o Hown. apply wp_ret. cbn [block_of b_base b_backing b_ring].
  destruct (_ || _) eqn:Ec; [done|]. rewrite !orb_false_iff in Ec. destruct Ec as ((Eb%negb_false_iff%Z.eqb_eq & Er%negb_false_iff%bool_decide_eq_true) & _).
  cbv zeta. cbn [block_of b_order b_dma_maps]. apply wp_bind, wp_bind, wp_get_vtd. pose proof (dma_block_of i (geo_block v (inv_geo v Hg) b i Hbi) Er) as Hdb.
  rewrite Z.shiftl_1_l. pose proof (proj1 (order_pow i Hdb)) as Hpow. apply wp_mapping_leaves; [lia|]. intros n. destruct (_ <? _); [by apply Hun, wp_ret|]. apply Hun.
  apply wp_bind, wp_try_alloc. intros ok. apply wp_bind.
  assert (Hgo : forall ok : bool, wp (if negb ok then mret SYSERR_NOMEM else
      ok ← vtd_map d base base (2 ^ i_order i) permissions;
      if negb ok then mret SYSERR_NOMEM else
      if bool_decide (is_Some (default ∅ (v_dma v b) !! d)) then _ ← vtd_unmap d base (2 ^ i_order i); mret SYSERR_NOMEM else
      _ ← mod_block b (upd_b_dma_maps (fun _ => Some (<[d := permissions]> (default ∅ (v_dma v b)))));
      _ ← mod_domain d (upd_dm_mappings (cons b)); _ ← mod_iommu (upd_io_nmappings (fun n => u32 (n + 1))); mret 0) Q v x).
  { intros []; cbn [negb]; [|by apply wp_ret]. subst base. eapply wp_map_in; [done|done|exact E|exact HD|exact Ho|exact Hbi|done|done|done|done|intros; by apply Hok|done]. }
  destruct ok; cbn [negb]; [|by apply wp_ret, Hgo]. destruct (bool_decide (v_dma v b = None)); [apply wp_try_alloc; intros ok; apply Hgo|by apply wp_ret, Hgo].
Qed.

Lemma redma_id v : v = upd_v_dma (fun _ => v_dma v) v.
Proof. by destruct v. Qed.

Lemma wp_unmap_block d D base Q v x : iommu_ok v (x_iommu x) -> domain_at (x_iommu x) d = Some D ->
  (forall rc c io, iommu_ok (upd_v_dma (fun _ => c) v) io -> Q rc (upd_v_dma (fun _ => c) v) (set_iommu (fun _ => io) x)) ->
  (forall rc, Q rc v x) -> wp (unmap_block d base) Q v x.
Proof.
  intros Hi HD H Hkeep. destruct (split_at _ _ _ (iommu_unique v _ Hi) HD) as (l1 & l2 & E & Hd & Ho). apply wp_bind. eapply wp_get_domain; [exact HD|].
  apply wp_bind, wp_find_mapping; [|intros; by apply wp_ret|].
  { intros b Hb. destruct (block_mapped v _ d D b Hi HD Hb) as (i & _ & _ & E' & _). by eexists. }
  intros b i Hb _ _. apply wp_bind. eapply wp_unmap_mapping; [done|exact E|done|done|done|]. intros io t m _ Hio _. apply wp_ret. exact (H 0 (fset b (unmapped d m) (v_dma v)) io Hio).
Qed.

(** ** Commands *)

Lemma wp_iommu_exec curr T r b i o sqe Q v x : at_ring v x r b i o -> graph_inv v -> grants_ok x -> iommu_ok v (x_iommu x) -> v_rops v r = Some KSCHEME_IOMMU ->
  x_threads x !! curr = Some T -> is_Some (v_map v (t_proc T)) -> Invariant.live v (t_proc T) -> x_held x = [LUmem] -> sqe_ok sqe ->
  (forall rc c io, iommu_ok (upd_v_dma (fun _ => c) v) io -> Q rc (upd_v_dma (fun _ => c) v) (set_iommu (fun _ => io) x)) -> wp (iommu_exec curr r sqe) Q v x.
Proof.
  intros Ha Hg Hf Hi Ho HT [mp Hmp] Hlv Hx [So Sa Sb Sc] H. pose proof Ha as [A1 A2 A3 A4 A5].
  assert (Hsame : forall rc io, iommu_ok v io -> Q rc v (set_iommu (fun _ => io) x)).
  { intros rc io Hio. specialize (H rc (v_dma v) io). rewrite <- redma_id in H. by apply H. }
  assert (Hkeep : forall rc, Q rc v x) by (intros rc; specialize (Hsame rc _ Hi); by destruct x).
  assert (Hh : held_below 2 (x_held x)) by (rewrite Hx; by repeat constructor). assert (Hr : iommu_ring v r) by (split; [by eexists|done]).
  assert (Hon : forall k, (forall d D, domain_at (x_iommu x) d = Some D -> wp (k d) (fun rc v x => Q (rc, sqe) v x) v x) ->
    wp (od ← find_domain r (sqe_a sqe); match od with None => mret SYSERR_INVAL | Some d => k d end) (fun rc v x => Q (rc, sqe) v x) v x).
  { intros k Hk. apply wp_bind, wp_find_domain; [done|by apply wp_ret|]. intros d D HD _ _. by eapply Hk. }
  apply wp_bind. eapply (wp_mono _ (fun rc v x => Q (rc, sqe) v x)); [|intros; by apply wp_ret]. unfold iommu_exec_rc. cbv zeta. destruct (_ =? _).
  { destruct (_ && _); [|by apply wp_ret]. apply wp_domain_create; [done|done|intros; by apply Hsame]. }
  destruct (_ =? _); [by apply wp_domain_destroy; [|intros; apply Hsame]|]. destruct (_ =? _).
  { apply wp_bind. eapply wp_at_ring; [exact Ha|]. destruct (_ || _); [by apply wp_ret|]. apply wp_bind, wp_load_bytes; [done|].
    apply wp_bind, wp_find_domain; [done|by apply wp_ret|]. intros d D HD _ _. apply wp_bind. eapply wp_resolve_ring; [exact Ha|done|intros; by apply wp_ret|].
    intros g Hgr. apply wp_bind. eapply wp_cap_requester; [done|exact Hgr|]. intros q Hq. eapply wp_device_attach; [done|exact HD|done|done|intros; by apply Hsame]. }
  destruct (_ =? _).
  { apply Hon. intros d D HD. destruct (split_at _ _ _ (iommu_unique v _ Hi) HD) as (l1 & l2 & E & Hd & Hot).
    eapply wp_device_detach; [done|exact E|exact HD|done|done|done|intros; by apply Hsame]. }
  destruct (_ =? _).
  { apply (Hon (fun d => C ← get_thread curr; Iommu.map_block (t_proc C) d (sqe_b sqe) (u32 (sqe_c sqe)))). intros d D HD. apply wp_bind. eapply wp_get_thread; [exact HT|].
    eapply wp_map_block; [done|done|exact HD|exact Hmp|done|lia|by apply Z.mod_pos_bound|done| |intros; by apply Hsame].
    intros rc c io bk Hio. exact (H (rc, sqe) (fset bk c (v_dma v)) io Hio). }
  destruct (_ =? _); [|by apply wp_ret]. apply Hon. intros d D HD. eapply wp_unmap_block; [done|exact HD|intros rc c io Hio; by apply H|done].
Qed.

(** ** Teardown *)

Lemma at_middle io l1 D l2 : NoDup (dm_id <$> io_domains io) -> io_domains io = l1 ++ D :: l2 ->
  domain_at io (dm_id D) = Some D /\ forall E, E ∈ l1 ++ l2 -> dm_id E <> dm_id D.
Proof.
  intros Hnd E. split; [apply at_split; [done|rewrite E; apply in_middle; by left|done]|]. intros G HG EG. rewrite E, fmap_app, fmap_cons in Hnd.
  apply NoDup_middle in Hnd as [Hn _]. apply Hn. rewrite <- fmap_app, <- EG. by apply list_elem_of_fmap_2.
Qed.

Lemma find_head w (l : list iommu_device) : List.find (fun u => dv_encoded u =? dv_encoded w) (w :: l) = Some w.
Proof. simpl. by rewrite Z.eqb_refl. Qed.

Lemma wp_detach_devices Q v : forall fuel l1 D l2 x, iommu_ok v (x_iommu x) -> io_domains (x_iommu x) = l1 ++ D :: l2 -> held_below 2 (x_held x) -> (length (dm_devices D) <= fuel)%nat ->
  (forall io, iommu_ok v io -> io_domains io = l1 ++ upd_dm_devices (fun _ => []) D :: l2 -> Q tt v (set_iommu (fun _ => io) x)) ->
  wp (detach_devices fuel (dm_id D)) Q v x.
Proof.
  intros fuel. induction fuel as [|fuel IH]; intros l1 D l2 x Hi E Hh Hf H; destruct (at_middle _ _ _ _ (iommu_unique v _ Hi) E) as [HD Ho];
    cbn [detach_devices]; (apply wp_bind; eapply wp_get_domain; [exact HD|]);
    (destruct (dm_devices D) as [|w ds] eqn:Ed; [apply wp_skip; specialize (H _ Hi); replace (upd_dm_devices (fun _ => []) D) with D in H by (destruct D; simpl in *; by subst);
      specialize (H E); by destruct x|]); [simpl in Hf; lia|].
  assert (Hnd : NoDup (dv_encoded <$> w :: ds)) by (rewrite <- Ed; by eapply devices_unique; [|apply (domain_in _ _ _ HD)]).
  destruct (filter_one _ w (dv_encoded w) Hnd (find_head w ds)) as (Hp & _ & _). apply Permutation_length in Hp.
  apply wp_bind. eapply wp_device_detach; [done|exact E|exact HD|exact Ho|done|rewrite Ed, find_head; done|].
  intros io Hio Eio. rewrite Ed in Eio. unfold redevice in Eio.
  refine (IH l1 (upd_dm_devices (fun _ => List.filter (fun u => negb (dv_encoded u =? dv_encoded w)) (w :: ds)) D) l2 (set_iommu (fun _ => io) x) Hio Eio Hh _ _); [cbn [dm_devices upd_dm_devices length] in *; lia|].
  intros io' Hio' Eio'. exact (H io' Hio' Eio').
Qed.

(** Nothing is retained that was not. *)
Lemma dma_fewer_trans v d d' : dma_fewer v d -> dma_fewer (upd_v_dma (fun _ => d) v) d' -> dma_fewer v d'.
Proof. intros H1 H2 b Hb. by apply H2, H1. Qed.

Lemma wp_unmap_all Q : forall fuel l1 D l2 v x, iommu_ok v (x_iommu x) -> io_domains (x_iommu x) = l1 ++ D :: l2 -> (length (dm_mappings D) <= fuel)%nat ->
  (forall c io t, dma_fewer v c -> iommu_ok (upd_v_dma (fun _ => c) v) io -> io_domains io = l1 ++ upd_dm_mappings (fun _ => []) (upd_dm_root (fun _ => t) D) :: l2 ->
     Q tt (upd_v_dma (fun _ => c) v) (set_iommu (fun _ => io) x)) ->
  wp (unmap_all_loop fuel (dm_id D)) Q v x.
Proof.
  intros fuel. induction fuel as [|fuel IH]; intros l1 D l2 v x Hi E Hf H; destruct (at_middle _ _ _ _ (iommu_unique v _ Hi) E) as [HD Ho];
    cbn [unmap_all_loop]; (apply wp_bind; eapply wp_get_domain; [exact HD|]);
    (destruct (dm_mappings D) as [|b bs] eqn:Eb; [apply wp_skip; specialize (H (v_dma v) (x_iommu x) (dm_root D) (fun _ E => E)); rewrite <- redma_id in H;
      specialize (H Hi); replace (upd_dm_mappings _ _) with D in H by (destruct D; simpl in *; by subst); specialize (H E); by destruct x|]); [simpl in Hf; lia|].
  assert (Hb : b ∈ dm_mappings D) by (rewrite Eb; by left).
  destruct (ms_tables _ _ _ _ (io_maps _ _ Hi) _ _ _ (mapping_in _ _ _ HD)) as [Hnd _]. pose proof (filter_block _ b Hnd Hb) as Hp. apply Permutation_length in Hp.
  apply wp_bind. eapply wp_unmap_mapping; [done|exact E|exact HD|exact Ho|done|]. intros io t m Hbm Hio Eio. set (bs' := List.filter _ (dm_mappings D)) in *.
  refine (IH l1 (upd_dm_mappings (fun _ => bs') (upd_dm_root (fun _ => t) D)) l2 (upd_v_dma (fset b (unmapped (dm_id D) m)) v) (set_iommu (fun _ => io) x) Hio Eio _ _).
  { cbn [dm_mappings upd_dm_mappings]. rewrite Eb in Hp. simpl in Hp, Hf. lia. }
  intros c io' t' Hc Hio' Eio'. refine (H c io' t' _ Hio' Eio'). eapply (dma_fewer_trans v (fset b (unmapped (dm_id D) m) (v_dma v))); [|exact Hc].
  intros b' Hb'. unfold fset. destruct (decide (b' = b)) as [->|]; [congruence|done].
Qed.

Lemma wp_endpoint_loop r Q : forall ds pre v x, iommu_ok v (x_iommu x) -> io_domains (x_iommu x) = pre ++ ds -> (forall D, D ∈ pre -> dm_ring D <> r) -> held_below 2 (x_held x) ->
  (forall c io, dma_fewer v c -> iommu_ok (upd_v_dma (fun _ => c) v) io -> (forall D, D ∈ io_domains io -> dm_ring D <> r) ->
     Q tt (upd_v_dma (fun _ => c) v) (set_iommu (fun _ => io) x)) ->
  wp (endpoint_loop ds r) Q v x.
Proof.
  intros ds. induction ds as [|D ds IH]; intros pre v x Hi E Hpre Hh H; cbn [endpoint_loop].
  { apply wp_skip. specialize (H (v_dma v) (x_iommu x) (fun _ E => E)). rewrite <- redma_id, app_nil_r in *. rewrite <- E in Hpre. specialize (H Hi Hpre). by destruct x. }
  destruct (Z.eqb_spec (dm_ring D) r) as [Er|Hne].
  - apply wp_bind, wp_bind. eapply wp_detach_devices; [done|exact E|done|done|]. intros io1 Hio1 E1.
    apply wp_bind. change (dm_id D) with (dm_id (upd_dm_devices (fun _ => []) D)) at 1.
    eapply (wp_unmap_all _ (length (dm_mappings D)) pre (upd_dm_devices (fun _ => []) D) ds v (set_iommu (fun _ => io1) x)); [exact Hio1|exact E1|done|].
    intros c io2 t Hc Hio2 E2. set (D2 := upd_dm_mappings (fun _ => []) (upd_dm_root (fun _ => t) (upd_dm_devices (fun _ => []) D))) in *.
    destruct (at_middle _ _ _ _ (iommu_unique _ _ Hio2) E2) as [_ Ho2].
    apply wp_bind, wp_mod_iommu, wp_bind, wp_mod_iommu, wp_mod_iommu.
    assert (Hw : iommu_ok (upd_v_dma (fun _ => c) v) (without io2 (pre ++ ds) (dm_hw_id D2))) by (by apply iommu_without).
    refine (IH pre (upd_v_dma (fun _ => c) v) (set_iommu (fun _ => _) x) _ _ Hpre Hh _); cycle 1.
    + exact (out_split _ _ _ _ _ E2 eq_refl Ho2).
    + intros c' io Hc' Hio Hr. refine (H c' io _ Hio Hr). by eapply dma_fewer_trans.
    + unfold without in Hw. rewrite <- (out_split _ _ _ _ _ E2 eq_refl Ho2) in Hw. exact Hw.
  - apply wp_bind, wp_skip, (IH (pre ++ [D])); [done|by rewrite <- app_assoc| |done|done].
    intros E' [HE|HE]%elem_of_app; [by apply Hpre|]. apply list_elem_of_singleton in HE. by subst.
Qed.

(** Closing an IOMMU ring leaves no domain of it, and no block it alone retained. *)
Lemma wp_iommu_destroy r Q v x : iommu_ok v (x_iommu x) -> held_below 2 (x_held x) ->
  (forall c io, dma_fewer v c -> iommu_ok (upd_v_dma (fun _ => c) v) io -> (forall D, D ∈ io_domains io -> dm_ring D <> r) ->
     Q tt (upd_v_dma (fun _ => c) v) (set_iommu (fun _ => io) x)) ->
  wp (iommu_endpoint_destroy r) Q v x.
Proof. intros Hi Hh H. apply wp_bind, wp_get_iommu. eapply (wp_endpoint_loop r Q _ []); [done|done|set_solver|done|done]. Qed.

End Iommus.
