(* ===== verification/KernelSpec.v ===== *)
(** * The schemes of the kernel

    The grants, the interrupt routes and the DMA domains of a kernel state, and that the
    table [kernel_schemes] discharges the interface [SchemesSafe] against which the rest
    of the kernel is proved.  Then the calls that reach into the schemes: enumerating and
    revoking the DMA mappings of a block. *)

From S2P Require Import Prelude Buddy Paging Siphash PlatformMem Machine Sched Index Channel Umem Process Capability Irq Iommu Syscall Graph Wp Invariant BaseSpec SchedSpec ChannelSpec UmemSpec BlockSpec CallSpec RingSpec GrantSpec IrqSpec VtdSpec IommuSpec.
Import Forest Claims Dma.

Section Kernel.
Context {PT : PageTree}.
#[local] Existing Instance kernel_schemes.
Implicit Types (v : gview) (x : rest) (io : iommu).

(** Grants form a forest, every claimed route is on the list of one interrupt ring, and
    the translation tables hold exactly the mapped blocks. *)
Record schemes_ok v x : Prop := {
  sc_grants : grants_ok x;
  sc_routes : routes_ok v x;
  sc_iommu : iommu_ok v (x_iommu x) }.

(** ** Which scheme *)

Lemma kernel_lookup id ops : scheme_lookup id = Some ops ->
  ops ∈ [cap_ops; shares_ops; tree_ops; irq_ops; iommu_ops] /\ so_id ops = id.
Proof.
  intros H. apply List.find_some in H as [Hin Hid%Z.eqb_eq]. split; [by apply list_elem_of_In|done].
Qed.

(** The table, case by case. *)
Ltac which_scheme H :=
  let Hin := fresh "Hin" in let Hid := fresh "Hid" in
  apply kernel_lookup in H as [Hin Hid]; repeat (apply elem_of_cons in Hin as [->|Hin]); [..|by apply not_elem_of_nil in Hin].

(** ** Framing *)

Lemma schemes_ext v v' x x' : v_rblock v' = v_rblock v -> v_rops v' = v_rops v -> same_dma v v' -> scheme_part x' = scheme_part x ->
  schemes_ok v x -> schemes_ok v' x'.
Proof.
  intros E1 E2 E3 E4 [S1 S2 S3]. unfold scheme_part in E4. injection E4 as G1 G2 G3 G4 G5 G6 G7. split.
  - unfold grants_ok. by rewrite G1, G2.
  - by eapply (routes_rest v v' x).
  - rewrite G7. by eapply iommu_ext.
Qed.

Lemma schemes_new r b id n v x : schemes_ok v x -> v_rblock v r = None ->
  schemes_ok (put_ring r (Ring id b n 0 0 None 0) v) (set_claims (insert r (None, 0)) x).
Proof.
  intros [S1 [R1 R2 R3] [I1 I2 I3 I4]] Hr. assert (Hcl : x_claims x !! r = None) by (apply eq_None_not_Some; intros H; apply R2 in H; rewrite Hr in H; by destruct H).
  assert (Hother : forall r', is_Some (v_rblock v r') -> r' <> r) by (intros r' H ->; rewrite Hr in H; by destruct H).
  split; [done|split; simpl|split; [|done|done|done]].
  - by apply claims_new.
  - intros r'. unfold put_ring, fset. vsimpl. unfold fset. destruct (decide (r' = r)) as [->|Hne]; [by eexists|]. rewrite lookup_insert_ne by done. apply R2.
  - intros r' i m. unfold put_ring. vsimpl. unfold fset. destruct (decide (r' = r)) as [->|Hne]; [by rewrite lookup_insert_eq|]. rewrite lookup_insert_ne by done. apply R3.
  - eapply ids_rings; [exact I1|]. intros d h r' _ [H1 H2]. unfold iommu_ring, put_ring. vsimpl. unfold fset. by rewrite !decide_False by (by apply Hother).
Qed.

(** A ring with nothing of the interrupt and DMA schemes goes. *)
Lemma schemes_gone r v x : schemes_ok v x -> (forall i n, x_claims x !! r <> Some (Some i, n)) -> (forall D, D ∈ io_domains (x_iommu x) -> dm_ring D <> r) ->
  schemes_ok (drop_ring r v) (set_claims (delete r) x).
Proof.
  intros [S1 [R1 R2 R3] [I1 I2 I3 I4]] Hcl Hdm. split; [done|split; simpl|split; [|done|done|done]].
  - by apply claims_gone.
  - intros r' H. apply lookup_delete_is_Some in H as [Hne H]. unfold drop_ring. vsimpl. unfold fset. rewrite decide_False by done. by apply R2.
  - intros r' i n [Hne H]%lookup_delete_Some. unfold drop_ring. vsimpl. unfold fset. rewrite decide_False by done. by eapply R3.
  - eapply ids_rings; [exact I1|]. intros d h r' Hin H. apply list_elem_of_fmap in Hin as (D & E & HD). injection E as -> -> ->.
    unfold iommu_ring, drop_ring. vsimpl. unfold fset. by rewrite !decide_False by (by apply Hdm).
Qed.

Lemma domain_ring v io D : iommu_ok v io -> D ∈ io_domains io -> iommu_ring v (dm_ring D).
Proof. intros [I1 _ _ _] HD. eapply (id_ring _ _ _ _ _ I1). apply (list_elem_of_fmap_2 identity), HD. Qed.

Lemma schemes_idle r id v x : schemes_ok v x -> v_rops v r = Some id -> id <> KSCHEME_IRQ -> id <> KSCHEME_IOMMU ->
  schemes_ok (drop_ring r v) (set_claims (delete r) x).
Proof.
  intros Hs Ho H1 H2. apply schemes_gone; [done| |].
  - intros i n Hcl. apply (ro_irq _ _ (sc_routes _ _ Hs)) in Hcl. congruence.
  - intros D HD <-. destruct (domain_ring v _ D (sc_iommu _ _ Hs) HD) as [_ H]. congruence.
Qed.

(** The schemes moved on; nothing else did. *)
Lemma inv_schemes v x v' x' : inv_with schemes_ok v x -> graph_inv v' -> v_info v' = v_info v -> v_kmap v' = v_kmap v -> quiet x x' ->
  sched_inv v' x' [] [] -> schemes_ok v' x' -> inv_with schemes_ok v' x'.
Proof.
  intros [I1 I2 I3 I4 I5] Hg E1 E2 Hq Hs Hsc. destruct (qt_keep _ _ Hq) as (_ & _ & _ & Hp & Hpl & _).
  split; [done|by eapply pool_frame|done| |done]. intros t T HT Hd. by eapply I4; [eapply (qt_dead _ _ Hq)|].
Qed.

Lemma schemes_redma v c x io : schemes_ok v x -> iommu_ok (upd_v_dma (fun _ => c) v) io -> schemes_ok (upd_v_dma (fun _ => c) v) (set_iommu (fun _ => io) x).
Proof. intros [S1 S2 _] Hio. split; [done|by eapply (routes_rest v _ x)|done]. Qed.

Lemma inv_schemed v x x' : inv_with schemes_ok v x -> schemed v x x' -> inv_with schemes_ok v x'.
Proof.
  intros Hi [D1 D2 D3 D4 D5]. eapply inv_schemes; [exact Hi|apply Hi|done..|]. split; [done|done|]. rewrite D4. apply Hi.
Qed.

Lemma inv_reported v x x' : inv_with schemes_ok v x -> reported v x x' -> inv_with schemes_ok v x'.
Proof.
  intros Hi [D1 (G1 & G2 & G3 & G4 & G5 & G6) D3 D4 _ _]. eapply inv_schemes; [exact Hi|apply Hi|done..|]. destruct (inv_scheme _ _ _ Hi) as [S1 S2 _].
  split; [unfold grants_ok; by rewrite G1, G2|by eapply (routes_rest v v x)|done].
Qed.

(** ** Submissions *)

Lemma kernel_exec id ops exec curr T r b sqe Q v x : scheme_lookup id = Some ops -> so_exec ops = Some exec ->
  v_rops v r = Some id -> v_rblock v r = Some b -> x_threads x !! curr = Some T -> t_status T = THREAD_RUNNING ->
  v_owner v b = Some (t_proc T) -> sqe_ok sqe -> inv_with schemes_ok v x -> x_held x = [LUmem] ->
  (forall rc v' x', inv_with schemes_ok v' x' -> redma v v' -> quiet x x' -> Q rc v' x') -> wp (exec curr r sqe) Q v x.
Proof.
  intros Hl He Ho Hb HT _ How Hsq Hi Hx H. pose proof (inv_graph _ _ _ Hi) as Hg. pose proof (inv_sched _ _ _ Hi) as Hs.
  destruct (inv_scheme _ _ _ Hi) as [S1 S2 S3]. destruct (inv_ring_live v r b Hg Hb) as (b' & ops' & i & o' & Hb' & Hops & Hbi & Ho').
  rewrite Hb in Hb'. injection Hb' as <-. rewrite How in Ho'. injection Ho' as <-.
  eapply wp_cpu; [exact Hs|]. intros Hc. assert (Ha : at_ring v x r b i (t_proc T)) by (split; try done; by eexists).
  assert (Hsame : forall rc x', schemed v x x' -> Q rc v x').
  { intros rc x' Hx'. apply H; [by eapply inv_schemed|exists (v_dma v); by apply redma_id|apply Hx']. }
  which_scheme Hl; simpl in *; subst id; try done; injection He as <-.
  - eapply wp_cap_exec; [exact Ha|done|by eapply routes_of_ok|]. intros rc x' Hx'. by apply Hsame, schemed_granted.
  - eapply wp_irq_exec; try done. rewrite Hx. by repeat constructor.
  - destruct (graph_owner v b i Hg Hbi) as (o & Ho2 & Hlv). rewrite How in Ho2. injection Ho2 as <-.
    eapply wp_iommu_exec; try done; [by eapply (own_as v (inv_own v Hg))|]. intros rc c io Hio. apply H; [|by eexists|by split].
    eapply inv_schemes; [exact Hi|by apply graph_redma|done|done|by split|by eapply sched_ext; [..|exact Hs]|by apply schemes_redma].
Qed.

Lemma kernel_replay id ops replay r b Q v x : scheme_lookup id = Some ops -> so_replay ops = Some replay ->
  v_rops v r = Some id -> v_rblock v r = Some b -> inv_with schemes_ok v x -> x_held x = [LUmem] ->
  (forall v' x', inv_with schemes_ok v' x' -> notice v v' -> quiet x x' -> Q tt v' x') -> wp (replay r) Q v x.
Proof.
  intros Hl He Ho Hb Hi Hx H. pose proof (inv_graph _ _ _ Hi) as Hg. pose proof (inv_sched _ _ _ Hi) as Hs.
  assert (Hp : exists p, v_owner v b = Some p) by (destruct (inv_ring_live v r b Hg Hb) as (b' & ops' & i & o' & Hb' & Hops & Hbi & Ho'); exists o'; congruence).
  destruct Hp as [p Hp]. assert (Hh : forall n, 1 <= n -> held_below n (x_held x)) by (intros n Hn; rewrite Hx; constructor; [simpl; lia|constructor]).
  assert (Hno : forall v' x', graph_inv v' -> notice v v' -> sched_inv v' x' [] [] -> calm x x' -> Q tt v' x').
  { intros v' x' Hg' Hn Hs' Hc. apply H; [|done|by apply calm_quiet]. destruct (keeps_notice v v' Hn) as [K1 K2 K3 K4 K5].
    eapply inv_schemes; [exact Hi|done|done|done|by apply calm_quiet|done|]. eapply schemes_ext; [done|done|by apply same_dma_eq| |apply Hi].
    destruct (calm_keep _ _ Hc) as (C1 & C2 & C3 & C4 & C5 & C6 & C7 & C8 & C9 & C10 & C11 & C12 & C13). unfold scheme_part. congruence. }
  destruct (inv_scheme _ _ _ Hi) as [S1 S2 S3].
  which_scheme Hl; simpl in *; subst id; try done; injection He as <-.
  - eapply wp_shares_replay; try done. by apply Hh.
  - eapply wp_tree_replay; try done. by apply Hh.
  - eapply wp_irq_replay; try done; [by apply Hh|]. intros x' Hx'. apply H; [|apply notice_refl|apply Hx'].
    by eapply inv_schemed, schemed_rerouted.
  - eapply wp_iommu_replay; try done; [by apply Hh|]. intros x' Hx'. apply H; [by eapply inv_reported|apply notice_refl|apply Hx'].
Qed.

Lemma kernel_destroy id ops destroy r Q v x : scheme_lookup id = Some ops -> so_destroy ops = Some destroy ->
  v_rops v r = Some id -> ring_live v r -> wake_ok v -> sched_inv v x [] [] -> schemes_ok v x -> x_held x = [LUmem] ->
  (forall d x', dma_fewer v d -> sched_inv v x' [] [] -> quiet x x' ->
    schemes_ok (drop_ring r (upd_v_dma (fun _ => d) v)) (set_claims (delete r) x') -> Q tt (upd_v_dma (fun _ => d) v) x') ->
  wp (destroy r) Q v x.
Proof.
  intros Hl He Ho (b & ops' & i & o & Hb & _) _ Hs [S1 S2 S3] Hx H. assert (Hh : held_below 2 (x_held x)) by (rewrite Hx; by repeat constructor).
  which_scheme Hl; simpl in *; subst id; try done; injection He as <-.
  - eapply wp_irq_destroy; try done. intros x' n [R1 (R2 & R3 & R4 & R5) R6 R7] Hcl. specialize (H (v_dma v) x' (fun _ E => E) R6 R1).
    rewrite <- redma_id in H. apply H, schemes_gone; [|intros j m; by rewrite Hcl|].
    + split; [unfold grants_ok; by rewrite R2, R3|done|by rewrite R5].
    + rewrite R5. intros D HD <-. destruct (domain_ring v _ D S3 HD) as [_ Hr]. rewrite Ho in Hr. discriminate Hr.
  - apply wp_iommu_destroy; [done|done|]. intros c io Hc Hio Hr. apply H; [done|by eapply sched_rest; [|exact Hs]|by split|].
    apply schemes_gone; [by apply schemes_redma| |done]. simpl. intros j n Hcl. apply (ro_irq _ _ S2) in Hcl. rewrite Ho in Hcl. discriminate Hcl.
Qed.

#[local] Instance kernel_safe : SchemesSafe.
Proof.
  refine {| scheme_inv := schemes_ok |}.
  - exact schemes_ext.
  - intros. by apply schemes_new.
  - intros id ops init r Q v x Hl Hi. exfalso. which_scheme Hl; discriminate Hi.
  - exact kernel_exec.
  - exact kernel_replay.
  - exact kernel_destroy.
  - intros id ops r v x Hl Hd Ho Hs. by eapply schemes_idle; [done|exact Ho|which_scheme Hl; simpl in *; subst id; done..].
  - intros id ops f r Q v x Hl Hf H. which_scheme Hl; simpl in *; try discriminate Hf. injection Hf as <-. apply wp_ret, H.
Defined.

(** ** The DMA mappings of a block *)

Lemma wp_enum_maps caller base buf cap after m Q v x : inv v x -> v_map v caller = Some m -> x_held x = [] ->
  0 <= buf < 2 ^ 64 -> 0 <= cap -> (forall rc f, Q rc v (set_mem f x)) -> wp (iommu_enum_maps caller base buf cap after) Q v x.
Proof.
  intros Hi Hm Hx Hbuf Hcap H. unfold iommu_enum_maps. destruct (_ || _); [apply wp_ret; rewrite <- (set_mem_id x); apply H|].
  apply wp_bind, wp_lock_below; [rewrite Hx; constructor|]. vsimpl. rewrite Hx. apply wp_bind, wp_resource_block; [apply Hi| |].
  - apply (wp_unlock_mem LUmem (fun y => y)); [done|]. apply H.
  - intros b i o Hbi _ Ho _ _. ws. cbv zeta. by eapply wp_enum_end.
Qed.

(** The mapping of the block in one domain is taken away, or nothing happens. *)
Lemma wp_revoke_map caller base d Q v x : inv v x -> x_held x = [] ->
  (forall rc, rc <> 0 -> Q rc v x) ->
  (forall b i o m io, v_info v b = Some i -> i_base i = base -> v_owner v b = Some o -> authority v caller o -> v_dma v b = Some m -> is_Some (m !! d) ->
     inv (upd_v_dma (fset b (unmapped d m)) v) (set_iommu (fun _ => io) x) -> Q 0 (upd_v_dma (fset b (unmapped d m)) v) (set_iommu (fun _ => io) x)) ->
  wp (iommu_revoke_map caller base d) Q v x.
Proof.
  intros Hi Hx Hbad Hok. destruct (inv_scheme _ _ _ Hi) as [S1 S2 S3]. unfold iommu_revoke_map.
  apply wp_bind, wp_lock_below; [rewrite Hx; constructor|]. vsimpl. rewrite Hx.
  assert (Hend : forall rc, rc <> 0 -> wp (_ ← umem_unlock; mret rc) Q v (set_held [LUmem] x)) by (intros rc Hrc; apply wp_unlock_one; [done|by apply Hbad]).
  apply wp_bind, wp_resource_block; [apply Hi|by apply Hend|]. intros b i o Hbi Hbase Ho Hlo Hauth. ws. cbn [block_of b_dma_maps].
  destruct (v_dma v b) as [m|] eqn:Hdm; simpl; [|change (bool_decide (is_Some None)) with false; cbv iota; by apply Hend].
  destruct (bool_decide_reflect (is_Some (m !! d))) as [Hmd|]; [|by apply Hend].
  assert (Hdma : dma_of v b = Some (i, m)) by (unfold dma_of; by rewrite Hbi, Hdm).
  destruct (ms_back _ _ _ _ (io_maps _ _ S3) b i m d Hdma Hmd) as (t & bs & Hin & Hb). apply list_elem_of_fmap in Hin as (D & E & HD). injection E as -> -> ->.
  destruct (list_elem_of_split _ _ HD) as (l1 & l2 & El). destruct (at_middle _ _ _ _ (iommu_unique v _ S3) El) as [HaD Hout].
  apply wp_bind. eapply wp_unmap_mapping; [exact S3|exact El|exact HaD|exact Hout|done|]. intros io t' m' Hm' Hio _. rewrite Hdm in Hm'. injection Hm' as <-.
  apply (wp_unlock_one LUmem _ Q _ (set_iommu (fun _ => io) x)); [done|]. eapply Hok; try done.
  eapply inv_schemes; [exact Hi|by apply graph_redma, Hi|done|done|by split|by eapply sched_ext; [..|apply Hi]|by apply schemes_redma].
Qed.

(** ** Device memory by token *)

(** A live grant of device memory that covers the mapping. *)
Definition device_granted x (flags : Z) (g base len : Z) : Prop :=
  exists G gflags, x_grants x !! g = Some G /\ alive (x_grants x) g /\ g_wildcard G = false /\ g_payload G = GDevmem base len gflags /\ Z.ldiff flags gflags = 0.

(** The token says which grant, and its code is right. *)
Definition token_for x (bs : list Z) (g : Z) : Prop :=
  tk_grant_id_le (decode_token bs) = g /\ constant_equal (tk_mac (decode_token bs)) (token_mac (x_boot_key x) (decode_token bs)) 16 = true.

Lemma wp_cap_map_device p ptr len flags m Q v x : inv v x -> v_map v p = Some m -> x_held x = [] -> 0 <= ptr < 2 ^ 64 -> 0 <= flags < 2 ^ 32 ->
  (forall rc v', rc <> 0 -> inv v' x -> (v' = v \/ exists base n kf, v' = aliased base (base + n) kf v) -> Q rc v' x) ->
  (forall g base n v', token_for x (mem_read (x_mem x) ptr 32) g -> device_granted x flags g base n -> inv v' x -> maps_device v x p base n flags v' -> Q 0 v' x) ->
  wp (cap_map_device p ptr len flags) Q v x.
Proof.
  intros Hi Hm Hx Hptr Hfl Hbad Hok. pose proof (inv_graph _ _ _ Hi) as Hg. destruct (inv_scheme _ _ _ Hi) as [S1 S2 S3].
  assert (Hsame : forall rc, rc <> 0 -> Q rc v x) by (intros rc Hrc; apply Hbad; [done|done|by left]).
  unfold cap_map_device. destruct (Z.eqb_spec len CAP_TOKEN_SIZE) as [->|]; cbn [negb]; [|by apply wp_ret, Hsame].
  apply wp_bind. eapply wp_user_range; [apply Hg|apply Hg|exact Hm|by eapply inv_live|done|unfold CAP_TOKEN_SIZE; lia|]. intros [] _; [|by apply wp_ret, Hsame].
  eapply wp_cpu; [apply (inv_sched _ _ _ Hi)|]. intros Hc. cbn [negb]. apply wp_bind, wp_load_bytes; [done|].
  set (t := decode_token (mem_read (x_mem x) ptr 32)). apply wp_bind, wp_lock_below; [rewrite Hx; constructor|]. rewrite Hx.
  assert (Hend : forall rc u, Q rc u x -> wp (_ ← umem_unlock; mret rc) Q u (set_held [LUmem] x)) by (intros rc u Hq; by apply wp_unlock_one).
  apply wp_bind, wp_token_resolve; [done|intros rc Hrc; by apply wp_bind, wp_ret, Hend, Hsame|]. intros g Hid Hmac (G & HG & [E0|Et] & Hal); [done|].
  apply wp_bind, wp_bind. eapply wp_get_grant; [exact HG|]. pose proof (fo_payload _ _ _ S1 g G HG) as Hp. unfold payload_ok in Hp. rewrite Et in Hp.
  destruct (g_payload G) as [base n gf| |] eqn:Epl; [|by destruct Hp|by destruct Hp]. destruct Hp as (_ & Hb & Hn & Hf).
  apply wp_bind. eapply wp_deref; [done|]. destruct (g_wildcard G) eqn:Ew; [by apply wp_ret, Hend, Hsame|]. cbn [orb].
  unfold nz. destruct (Z.eqb_spec (Z.ldiff flags gf) 0) as [Ef|]; cbn [negb]; [|by apply wp_ret, Hend, Hsame].
  eapply wp_map_device_locked; [by apply inv_held|exact Hm|done|done|done|lia|..].
  - intros rc v' Hrc Hi' Hv'. apply Hend, Hbad; [done| |destruct Hv' as [->|[kf ->]]; [by left|right; by exists base, n, kf]].
    pose proof (inv_held v' _ (x_held x) Hi') as Hi2. rewrite <- Hx in Hi2. by destruct x.
  - intros v' Hi' Hmd. apply Hend. eapply (Hok g base n); [done| | |exact Hmd].
    + exists G, gf. split_and!; try done. by apply Hal.
    + pose proof (inv_held v' _ (x_held x) Hi') as Hi2. by destruct x.
Qed.

End Kernel.
