(* ===== verification/DispatchSpec.v ===== *)
(** * Syscalls and interrupts

    Every entry to the kernel keeps the invariant: [syscall_entry] on any trap frame
    returns to the caller, or gives the processor away in a state from which the
    scheduler takes over, or stops for want of memory, by the death of the first process
    or by the exhaustion of an id space; the same for the interrupts the kernel
    services. *)

From S2P Require Import Prelude Buddy Paging Siphash PlatformMem Machine Sched Index Channel Umem Process Capability Irq Iommu Syscall Graph Wp Invariant BaseSpec SchedSpec ChannelSpec UmemSpec BlockSpec MoveSpec ThreadSpec ProcessSpec LifeSpec CallSpec RingSpec RunSpec FutexSpec LoopSpec GrantSpec IrqSpec VtdSpec IommuSpec KernelSpec.

Section Entry.
Context {PT : PageTree} {SC : Schemes} {SS : SchemesSafe}.
Implicit Types (v : gview) (x : rest).

(** ** Registers *)

Definition word64 (a : Z) : Prop := 0 <= a < 2 ^ 64.

(** The registers a system call reads. *)
Record frame_ok (tf : frame) : Prop := {
  fr_rcx : word64 (f_rcx tf);
  fr_rdx : word64 (f_rdx tf);
  fr_r8 : word64 (f_r8 tf);
  fr_r9 : word64 (f_r9 tf) }.

(** Only what a thread resumes with changes. *)
Definition reframed (T T' : thread) : Prop := exists tf fs gs,
  T' = upd_t_gs_base (fun _ => gs) (upd_t_fs_base (fun _ => fs) (upd_t_frame (fun _ => tf) T)).

Lemma thread_ok_reframed x C D t T T' : reframed T T' -> thread_ok x C D t (Some T) -> thread_ok x C D t (Some T').
Proof.
  intros (tf & fs & gs & ->) [T1 T2 T3 T4 T5 T6 T7]. destruct (T1 T eq_refl) as [Et Hsh]. split.
  - by intros U [= <-].
  - intros i k. rewrite T2. split; intros (U & [= <-] & H); eexists; (split; [reflexivity|exact H]).
  - rewrite T3. split; intros (U & [= <-] & H); eexists; (split; [reflexivity|exact H]).
  - rewrite T4. split; intros (U & [= <-] & H); eexists; (split; [reflexivity|exact H]).
  - rewrite T5. split; intros (U & [= <-] & H); eexists; (split; [reflexivity|exact H]).
  - intros U i [= <-]. by apply (T6 T i).
  - intros i k. rewrite T7. split; intros (U & [= <-] & H); eexists; (split; [reflexivity|exact H]).
Qed.

Lemma inv_reframed v x t T T' : inv v x -> x_threads x !! t = Some T -> reframed T T' -> inv v (set_threads (insert t T') x).
Proof.
  intros Hi HT Hr. pose proof (inv_sched _ _ _ Hi) as Hs.
  assert (Ev : tview T' = tview T /\ t_status T' = t_status T) by (by destruct Hr as (tf & fs & gs & ->)). destruct Ev as [Ev Es].
  split; [apply Hi|by eapply (pool_frame v v x); [..|apply Hi]| | |by eapply (scheme_ext v v x); [| | | |apply Hi]].
  - pose proof Hs as [S1 S2 S3 S4 S5 S6 S7 S8 S9 S10]. split; try done.
    + simpl. by rewrite (tview_insert x t T T' HT Ev).
    + intros u. apply (thread_ok_agree x [] []); [by split|]. simpl. destruct (decide (u = t)) as [->|Hu]; [|by rewrite lookup_insert_ne].
      rewrite lookup_insert_eq. eapply thread_ok_reframed; [exact Hr|]. rewrite <- HT. apply S2.
  - intros u U HU. simpl in HU. apply lookup_insert_Some in HU as [[<- <-]|[_ HU]]; [rewrite Es|]; by eapply (inv_alive _ _ _ Hi).
Qed.

Lemma on_cpu_reframed v x t T T' : on_cpu v x t T -> reframed T T' -> on_cpu v (set_threads (insert t T') x) t T'.
Proof. intros [O1 O2 O3] (tf & fs & gs & ->). split; [done|apply lookup_insert_eq|done]. Qed.

Lemma wp_save_frame t T tf Q v x : inv v x -> on_cpu v x t T ->
  (forall T', reframed T T' -> inv v (set_threads (insert t T') x) -> on_cpu v (set_threads (insert t T') x) t T' -> Q tt v (set_threads (insert t T') x)) ->
  wp (arch_uthread_save_frame t tf) Q v x.
Proof.
  intros Hi Ho H. pose proof Ho as [O1 O2 O3]. assert (Hlt : (Z.to_nat (Z.of_nat (x_this x)) < length (x_queues x))%nat) by (rewrite Nat2Z.id; apply Hi).
  apply wp_bind. eapply wp_mod_thread; [exact O2|done|]. apply wp_bind, wp_this_cpu, wp_bind, wp_get_cpu; [done|]. intros c _.
  apply wp_bind. eapply wp_mod_thread; [apply lookup_insert_eq|done|]. eapply wp_mod_thread; [apply lookup_insert_eq|done|].
  set (T' := upd_t_gs_base _ _). assert (Hr : reframed T T') by (by eexists _, _, _).
  replace (set_threads _ _) with (set_threads (insert t T') x); [|by unfold set_threads; simpl; rewrite !insert_insert_eq].
  apply H; [done|by eapply inv_reframed|by eapply on_cpu_reframed].
Qed.

Lemma wp_set_bases t T fs gs Q v x : inv v x -> on_cpu v x t T -> (forall rc x', inv v x' -> x_held x' = x_held x -> Q rc v x') ->
  wp (arch_uthread_set_bases t fs gs) Q v x.
Proof.
  intros Hi Ho H. pose proof Ho as [O1 O2 O3]. assert (Hlt : (Z.to_nat (Z.of_nat (x_this x)) < length (x_queues x))%nat) by (rewrite Nat2Z.id; apply Hi).
  unfold arch_uthread_set_bases. destruct (_ || _); [by apply wp_ret, H|]. apply wp_bind. eapply wp_mod_thread; [exact O2|done|].
  apply wp_bind. eapply wp_mod_thread; [apply lookup_insert_eq|done|]. apply wp_bind, wp_this_cpu. apply wp_bind, wp_c_fs_base; [done|].
  apply wp_bind, wp_c_gs_base; [done|]. apply wp_ret. set (T' := upd_t_gs_base _ _).
  replace (set_threads _ _) with (set_threads (insert t T') x); [|by unfold set_threads; simpl; rewrite !insert_insert_eq].
  apply H; [|done]. eapply inv_reframed; [done|exact O2|]. exists (t_frame T), fs, gs. by destruct T.
Qed.

(** ** Protections *)

Lemma prot_flags prot none : vm_prot_ok prot none = true -> vm_prot_to_flags prot ∈ prots /\ (none = false -> vm_prot_to_flags prot <> 0).
Proof.
  unfold vm_prot_ok, nz. destruct (Z.eqb_spec (Z.ldiff prot 7) 0) as [E|]; [|done]. cbn [negb]. apply Z.ldiff_le in E; [|done].
  assert (prot = 0 \/ prot = 1 \/ prot = 2 \/ prot = 3 \/ prot = 4 \/ prot = 5 \/ prot = 6 \/ prot = 7) as H by lia. revert E.
  destruct H as [->|[->|[->|[->|[->|[->|[->| ->]]]]]]]; intros _ H; try discriminate H; (split; [apply list_elem_of_In; vm_compute; tauto|intros ->; done]).
Qed.

(** ** Calls that change nothing *)

Lemma wp_debug_write curr T m uptr len Q v x : inv v x -> caller v x curr T m -> word64 uptr -> 0 <= len -> (forall rc, Q rc v x) ->
  wp (sys_debug_write curr uptr len) Q v x.
Proof.
  intros Hi Hc Hu Hl H. pose proof (inv_graph _ _ _ Hi) as Hg. unfold sys_debug_write. destruct (_ <? _); [by apply wp_ret|].
  apply wp_bind. eapply wp_get_thread; [apply Hc|]. apply wp_bind. eapply wp_user_range; [apply Hg|apply Hg|apply Hc|apply Hc|done|done|].
  intros [] _; [|by apply wp_ret]. cbn [negb]. eapply wp_cpu; [apply (inv_sched _ _ _ Hi)|]. intros Hcpu.
  apply wp_bind, wp_when; intros _; [|by apply wp_ret]. apply wp_bind, wp_load_bytes; [done|]. generalize (mem_read (x_mem x) uptr (Z.to_nat len)).
  intros bs. induction bs as [|c bs IH]; cbn [iterM]; [by apply wp_skip, wp_ret|]. apply wp_bind, wp_emit. exact IH.
Qed.

Lemma inv_protects v x p base len prot v' : inv v x -> protects v p base len prot v' -> inv v' x.
Proof.
  intros Hi [(b & i & o & _ & _ & _ & _ & _ & _ & _ & _ & ->) Hg]. apply (inv_step v x); [done|done| | |apply calm_refl].
  - unfold reflag. by split; vsimpl.
  - eapply sched_ext; [done|unfold reflag; by vsimpl|intros q; by apply reflag_maps|apply Hi].
Qed.

(** ** Calls of user memory *)

(** The calling thread, its process, and what the kernel is in. *)
Record calling v x (curr : Z) (T : thread) (m : Z -> Z) : Prop := {
  cl_inv : inv v x;
  cl_cpu : on_cpu v x curr T;
  cl_caller : caller v x curr T m;
  cl_held : x_held x = [];
  cl_range : in_range v x }.

Section Values.
Context (curr : Z) (T : thread) (m : Z -> Z) (v : gview) (x : rest) (Q : Z -> gview -> rest -> Prop).
Context (H : calling v x curr T m) (HQ : forall rc v' x', settled v' x' -> Q rc v' x').

#[local] Lemma lives : live v (t_proc T).
Proof using All. apply (ca_live _ _ _ _ _ (cl_caller _ _ _ _ _ H)). Qed.

#[local] Lemma same rc : Q rc v x.
Proof using All. apply HQ. split; apply H. Qed.

#[local] Lemma graphs rc v' : inv v' x -> Q rc v' x.
Proof using All. intros Hi. apply HQ. split; [done|apply H]. Qed.

#[local] Lemma calmly rc v' x' : inv v' x' -> calm x x' -> Q rc v' x'.
Proof using All. intros Hi Hc. apply HQ. split; [done|]. rewrite (calm_held _ _ Hc). apply H. Qed.

#[local] Lemma steadily rc v' x' : inv v' x' -> steady x x' -> Q rc v' x'.
Proof using All. intros Hi Hc. apply HQ. split; [done|]. destruct (st_keep _ _ Hc) as (_ & -> & _). apply H. Qed.

Lemma wp_sys_alloc len prot : 0 <= len -> wp (sys_vm_alloc curr len prot) Q v x.
Proof using All.
  intros Hl. unfold sys_vm_alloc. destruct (_ || _) eqn:E; [apply wp_ret, same|]. rewrite !orb_false_iff in E. destruct E as [[_ E2] E3%negb_false_iff].
  apply Z.ltb_ge in E2. change (Z.shiftl 64 20) with 67108864 in E2. destruct (prot_flags _ _ E3) as [P1 P2].
  apply wp_bind. eapply wp_get_thread; [apply H|]. apply wp_bind.
  assert (Hre : forall rc v' x', inv v' x' -> repool x x' -> Q rc v' x').
  { intros rc v' x' Hi' (ba & f & ->). apply HQ. split; [done|apply H]. }
  eapply wp_alloc; [apply H|apply H|apply H|done|by apply P2|lia|..]; intros; apply wp_ret; by apply Hre.
Qed.

Lemma wp_sys_free base : wp (sys_vm_free curr base) Q v x.
Proof using All.
  apply wp_bind. eapply wp_get_thread; [apply H|]. eapply wp_free; [apply H|apply H|apply H|intros; apply same|]. intros. by apply steadily.
Qed.

Lemma wp_sys_size base : wp (sys_vm_size curr base) Q v x.
Proof using All.
  apply wp_bind. eapply wp_get_thread; [apply H|]. apply wp_bind. eapply wp_umem_size; [apply H|apply lives|rewrite (cl_held _ _ _ _ _ H); constructor|].
  intros n. apply wp_ret, same.
Qed.

Lemma wp_sys_protect base len prot pid : 0 <= base -> 0 <= len -> wp (sys_vm_protect curr base len prot pid) Q v x.
Proof using All.
  intros Hb Hl. unfold sys_vm_protect. destruct (vm_prot_ok prot true) eqn:E; cbn [negb]; [|apply wp_ret, same]. destruct (prot_flags _ _ E) as [P _].
  apply wp_bind. eapply wp_get_thread; [apply H|]. apply wp_bind. eapply wp_get_proc; [apply lives|]. intros oa _. destruct (_ && _).
  - eapply wp_protect_for; [apply H|apply H|apply H|done|done|done|intros; apply same|]. intros v' _ _ Hp. apply graphs. by eapply inv_protects; [apply H|].
  - apply wp_bind. eapply wp_protect; [apply H|apply H|rewrite (cl_held _ _ _ _ _ H); constructor|done|done|done|apply wp_ret, same|].
    intros v' Hp. apply wp_ret, graphs. by eapply inv_protects; [apply H|].
Qed.

Lemma wp_sys_share base target prot : wp (sys_vm_share curr base target prot) Q v x.
Proof using All.
  apply wp_bind. eapply wp_get_thread; [apply H|]. destruct (_ <? _).
  - eapply wp_scheme_create; [apply H|apply H|apply H|..]; intros; by apply steadily.
  - destruct (vm_prot_ok prot false) eqn:E; cbn [negb]; [|apply wp_ret, same]. destruct (prot_flags _ _ E) as [P1 P2].
    eapply wp_share; [apply H|apply H|apply H|done|by apply P2|intros; apply same|]. intros. by apply calmly.
Qed.

End Values.

End Entry.

Section Dispatch.
Context {PT : PageTree}.
#[local] Existing Instance kernel_schemes.
#[local] Existing Instance kernel_safe.
Implicit Types (v : gview) (x : rest).

(** ** The calls that return *)

Lemma wpk_value curr T m nr a0 a1 a2 a3 Q v x : calling v x curr T m -> word64 a0 -> word64 a1 -> word64 a2 -> word64 a3 ->
  (forall rc v' x', settled v' x' -> Q rc v' x') -> wpk (syscall_value curr nr a0 a1 a2 a3) Q parked v x.
Proof.
  intros H W0 W1 W2 W3 HQ. pose proof H as [Hi Ho Hc Hx Hr]. pose proof Hc as [C1 C2 C3 C4]. pose proof Hr as [R1 R2 R3 R4].
  pose proof (same curr T m v x Q H HQ) as Hs. pose proof (graphs curr T m v x Q H HQ) as Hg. pose proof (calmly curr T m v x Q H HQ) as Hcm.
  pose proof (steadily curr T m v x Q H HQ) as Hst. assert (Hmem : forall rc f, Q rc v (set_mem f x)) by (intros rc f; apply HQ; split; [by apply inv_mem|done]).
  apply wpk_seq. eapply wp_get_thread; [exact C1|]. unfold word64 in *.
  destruct (nr =? SYS_DEBUG_WRITE); [apply wpk_wp; eapply wp_debug_write; try done; lia|].
  destruct (nr =? SYS_GETPID); [apply wpk_wp, wp_bind; eapply wp_get_proc; [exact C4|]; intros; apply wp_ret, Hs|].
  destruct (nr =? SYS_GETTID); [apply wpk_ret, Hs|].
  destruct (nr =? SYS_VM_ALLOC); [apply wpk_wp; eapply wp_sys_alloc; try done; lia|].
  destruct (nr =? SYS_VM_FREE); [apply wpk_wp; by eapply wp_sys_free|].
  destruct (nr =? SYS_VM_PROTECT); [apply wpk_wp; eapply wp_sys_protect; try done; lia|].
  destruct (nr =? SYS_VM_SHARE); [apply wpk_wp; by eapply wp_sys_share|].
  destruct (nr =? SYS_VM_DROPSHARE); [apply wpk_wp; eapply wp_dropshare; try done; intros; by apply Hg|].
  destruct (nr =? SYS_VM_UNSHARE); [apply wpk_wp; eapply wp_unshare; try done; intros; by apply Hg|].
  destruct (nr =? SYS_VM_MOVE); [apply wpk_wp; eapply wp_vm_move; try done; intros; by apply Hg|].
  destruct (nr =? SYS_VM_MAP_DEVICE); [apply wpk_wp; eapply wp_cap_map_device; try done; [apply Z.mod_pos_bound; lia|..]; intros; by apply Hg|].
  destruct (nr =? SYS_VM_SHARERS); [apply wpk_wp; eapply wp_enum_sharers; try done; lia|].
  destruct (nr =? SYS_VM_BLOCKS); [apply wpk_wp; eapply wp_enum_blocks; try done; lia|].
  destruct (nr =? SYS_VM_VIEWS); [apply wpk_wp; eapply wp_enum_views; try done; lia|].
  destruct (nr =? SYS_VM_DMA_MAPS); [apply wpk_wp; eapply wp_enum_maps; try done; lia|].
  destruct (nr =? SYS_VM_DMA_REVOKE); [apply wpk_wp; eapply wp_revoke_map; try done; intros; apply HQ; by split|].
  destruct (nr =? SYS_VM_SIZE); [apply wpk_wp; by eapply wp_sys_size|].
  destruct (nr =? SYS_GETTIME); [apply wpk_wp, wp_now, Hs|].
  destruct (nr =? SYS_FUTEX_WAKE); [apply wpk_wp; eapply wp_futex_wake; try done; [lia|]; intros; by apply Hst|].
  destruct (nr =? SYS_FUTEX_WAIT); [eapply wpk_futex_wait; try done; lia|].
  destruct (nr =? SYS_FUTEX_REQUEUE); [apply wpk_wp; eapply wp_futex_requeue; try done; [lia|]; intros rc x' Hi' Hsf|].
  { apply HQ. split; [done|]. destruct (sf_keep _ _ Hsf) as (_ & _ & _ & _ & _ & E & _). by rewrite E. }
  destruct (nr =? SYS_PROC_CREATE); [apply wpk_wp, wp_bind; eapply wp_get_thread; [exact C1|]; apply wp_create; try done; [by intros q [= <-]|]; intros; by apply Hg|].
  destruct (nr =? SYS_THREAD_SPAWN); [apply wpk_wp; eapply wp_thread_spawn; try done; intros; by apply Hst|].
  destruct (nr =? SYS_THREAD_BASES_SET); [apply wpk_wp; eapply wp_set_bases; try done; intros rc x' Hi' E; apply HQ; split; [done|by rewrite E]|].
  destruct (nr =? SYS_PROC_KILL); [apply wpk_wp; eapply wp_kill; try done; intros; by apply Hcm|].
  destruct (nr =? SYS_THREADS); [apply wpk_wp; eapply wp_threads; try done; lia|].
  destruct (nr =? SYS_THREAD_DESTROY); [apply wpk_wp; eapply wp_thread_destroy; try done; intros; by apply Hst|].
  destruct (nr =? SYS_PROC_CHILDREN); [apply wpk_wp; eapply wp_children; try done; lia|].
  destruct (nr =? SYS_PROC_DESTROY); [apply wpk_wp; eapply wp_destroy; try done; intros; by apply Hg|].
  apply wpk_ret, Hs.
Qed.

(** ** System calls *)

Lemma inv_exit v x p n : inv v x -> inv (upd_v_exit (fset p n) v) x.
Proof.
  intros Hi. apply (inv_step v x); [done| |by split|by eapply sched_ext; [..|apply Hi]|apply calm_refl]. destruct (inv_graph _ _ _ Hi) as [R T O E P Rg Th G Mp].
  split; [eapply reg_cols, R; done|keep T|keep O|keep E|by apply (pend_links v), eq_refl|keep Rg|keep Th|keep G|keep Mp].
Qed.

Lemma wpk_process_exit {A} t T status Q v x : inv v x -> on_cpu v x t T -> x_held x = [] -> wpk (proc_sys_process_exit (A := A) t status) Q parked v x.
Proof.
  intros Hi Ho Hx. pose proof Ho as [O1 O2 O3]. destruct (caller_made v x t T Hi O2 O3) as [m [C1 C2 C3 C4]].
  assert (Hpid : is_Some (v_pid v (t_proc T))) by (exists (t_proc T); by apply (inv_reg v (inv_graph _ _ _ Hi))).
  apply wpk_seq. eapply wp_get_thread; [exact O2|]. apply wpk_seq, wp_lock_below; [rewrite Hx; constructor|]. rewrite Hx.
  apply wpk_seq. apply wp_p_exit_status; [done|]. set (u := upd_v_exit _ v).
  assert (Hu : inv u (set_held [LUmem] x)) by (apply inv_held, inv_exit, Hi).
  apply wpk_seq, wp_mark_dead; [apply Hu|done|]. intros v1 Hg1 Hk. pose proof (inv_killed u _ (t_proc T) v1 Hu Hk Hg1) as Hi1.
  apply wpk_seq, wp_notify_parent; [done|apply Hi1|unfold live; by destruct Hk as [[-> _]| ->]|by repeat constructor|]. intros v2 x2 Hg2 Hn Hs2 Hc2.
  pose proof (inv_notice v1 _ v2 x2 Hi1 Hg2 Hn Hs2 Hc2) as Hi2. apply wpk_seq. eapply wp_unlock_top; [exact (calm_held _ _ Hc2)|constructor|].
  eapply (wpk_exit t T); [by apply inv_held| |done]. eapply (on_cpu_steady v v2 x); [done|].
  rewrite <- Hx. apply (steady_relock [LUmem]). by apply calm_steady.
Qed.

(** The running thread. *)
Lemma wp_current t Q v x : (x_this x < length (x_queues x))%nat -> x_current x !! x_this x = Some t -> Q t v x -> wp thread_current Q v x.
Proof.
  intros Hlt Hc H. apply wp_bind, wp_this_cpu. apply wp_bind, wp_get_cpu; [by rewrite Nat2Z.id|]. intros c [_ Ec _ _]. rewrite Nat2Z.id in Ec.
  apply wp_ret. congruence.
Qed.

Lemma wpk_syscall tf Q v x : settled v x -> in_range v x -> frame_ok tf -> (exists t, x_current x !! x_this x = Some (Some t)) ->
  (forall tf' v' x', settled v' x' -> Q tf' v' x') -> wpk (syscall_entry tf) Q parked v x.
Proof.
  intros [Hi Hx] Hr [F1 F2 F3 F4] [t Ht] HQ. destruct (on_cpu_thread v x t [] [] (inv_sched _ _ _ Hi) Ht) as [T Ho]. pose proof Ho as [O1 O2 O3].
  destruct (caller_made v x t T Hi O2 O3) as [m Hc]. pose proof Hc as [C1 C2 C3 C4].
  apply wpk_seq. eapply wp_current; [apply Hi|exact Ht|]. apply wpk_seq, wp_asserts; [apply bool_decide_eq_true; by eexists|].
  apply wpk_seq. eapply wp_deref; [done|]. apply wpk_seq. eapply wp_get_thread; [exact O2|].
  apply wpk_seq, wp_is_dead; [apply Hi|apply Hi|done|]. intros [] _; [by eapply wpk_exit|]. cbv zeta.
  destruct (f_rax tf =? SYS_PROC_EXIT); [by eapply wpk_process_exit|]. destruct (f_rax tf =? SYS_THREAD_EXIT); [by eapply wpk_exit|].
  destruct (f_rax tf =? SYS_YIELD).
  - apply wpk_seq. eapply wp_save_frame; [done|exact Ho|]. intros T' _ Hi' Ho'. by eapply wpk_yield.
  - assert (Hgo : forall y U, inv v y -> on_cpu v y t U -> x_held y = [] -> in_range v y ->
      wpk (rax ← syscall_value t (f_rax tf) (f_rcx tf) (f_rdx tf) (f_r8 tf) (f_r9 tf); mret (set_rax rax tf)) Q parked v y).
    { intros y U Hiy Hoy Hy Hry. destruct (caller_made v y t U Hiy (oc_thread _ _ _ _ Hoy) (oc_running _ _ _ _ Hoy)) as [m' Hcy].
      apply wpk_bind. eapply wpk_value; [by split|done|done|done|done|]. intros rc v' x' Hs'. by apply wpk_ret, HQ. }
    apply wpk_seq, wp_when; intros _; [|by eapply Hgo]. eapply wp_save_frame; [done|exact Ho|]. intros T' _ Hi' Ho'. eapply Hgo; [done|exact Ho'|done|].
    by destruct Hr.
Qed.

(** ** Interrupts *)

(** What the handler has an answer to: its own vectors, those of devices and of the
    legacy controller, and the faults of user code that end the thread. *)
Definition serviced (tf : frame) (vector : Z) : bool :=
  (vector =? VECTOR_IOMMU_FAULT) || (vector =? VECTOR_TLB_SHOOTDOWN) || (vector =? VECTOR_RESCHED) || (vector =? VECTOR_TIMER) ||
  irq_is_device_vector vector || ((PIC_VECTOR_BASE <=? vector) && (vector <=? PIC_VECTOR_END)) ||
  (from_user tf && ((vector =? INT_PAGE_FAULT) || (vector =? INT_GENERAL_PROTECTION))).

(** User code runs only in a thread. *)
Definition mode_ok (tf : frame) x : Prop := from_user tf = true -> exists t, x_current x !! x_this x = Some (Some t).

Lemma mode_quiet tf x x' : mode_ok tf x -> quiet x x' -> mode_ok tf x'.
Proof. intros Hm Hq Hu. rewrite (qt_current _ _ Hq). destruct (qt_keep _ _ Hq) as (_ & _ & -> & _). by apply Hm. Qed.

Lemma wpk_cull tf Q v x : settled v x -> mode_ok tf x -> Q tt v x -> wpk (cull_if_killed tf) Q parked v x.
Proof.
  intros [Hi Hx] Hm HQ. unfold cull_if_killed. destruct (from_user tf) eqn:E; cbn [negb]; [|by apply wpk_wp, wp_skip].
  destruct (Hm E) as [t Ht]. destruct (on_cpu_thread v x t [] [] (inv_sched _ _ _ Hi) Ht) as [T Ho]. pose proof Ho as [O1 O2 O3].
  destruct (caller_made v x t T Hi O2 O3) as [m [C1 C2 C3 C4]]. apply wpk_seq. eapply wp_current; [apply Hi|exact Ht|].
  apply wpk_seq. eapply wp_get_thread; [exact O2|]. apply wpk_seq, wp_is_dead; [apply Hi|apply Hi|done|].
  intros [] _; [by eapply wpk_exit|by apply wpk_wp, wp_skip].
Qed.

Lemma settled_quiet v x x' : settled v x -> inv v x' -> quiet x x' -> settled v x'.
Proof. intros [_ Hx] Hi Hq. split; [done|]. by rewrite (quiet_held _ _ Hq). Qed.

Lemma wpk_interrupt tf vector Q v x : settled v x -> mode_ok tf x -> serviced tf vector = true ->
  (forall v' x', settled v' x' -> Q tt v' x') -> wpk (interrupt_handler tf vector) Q parked v x.
Proof.
  intros Hs Hm Hv HQ. pose proof Hs as [Hi Hx]. destruct (inv_scheme _ _ _ Hi) as [S1 S2 S3]. pose proof (inv_graph _ _ _ Hi) as Hg. pose proof (inv_sched _ _ _ Hi) as Hsc.
  assert (Hh : forall n, held_below n (x_held x)) by (intros n; rewrite Hx; constructor).
  assert (Hq : forall x', inv v x' -> quiet x x' -> wpk (cull_if_killed tf) Q parked v x').
  { intros x' Hi' Hq. apply wpk_cull; [by eapply settled_quiet|by eapply mode_quiet|by eapply HQ, settled_quiet]. }
  assert (Hcull : wpk (cull_if_killed tf) Q parked v x) by (apply wpk_cull; [done|done|by apply HQ]).
  unfold interrupt_handler. unfold serviced in Hv.
  destruct (vector =? VECTOR_IOMMU_FAULT).
  { apply wpk_seq, wp_fault_interrupt; [done|done|done|done|]. intros x' Hx'. apply wpk_seq, wp_emit, Hq; [by eapply inv_reported|apply Hx']. }
  destruct (vector =? VECTOR_TLB_SHOOTDOWN); [done|]. destruct (vector =? VECTOR_RESCHED); [by apply wpk_seq, wp_emit|].
  destruct (vector =? VECTOR_TIMER).
  - apply wpk_seq, wp_emit, wpk_seq, wp_timer_interrupt; [done|apply Hg|apply Hg|apply Hg|done|]. intros b x' Hs' Hc.
    pose proof (inv_same v x x' Hi Hs' Hc) as Hi'. pose proof (calm_quiet _ _ Hc) as Hqt. destruct b; [|by apply Hq]. destruct (from_user tf) eqn:E; [|by apply Hq].
    cbn [andb]. pose proof (settled_quiet v x x' Hs Hi' Hqt) as Hst'. pose proof (mode_quiet tf x x' Hm Hqt) as Hm'.
    apply wpk_bind, wpk_cull; [done|done|]. destruct (Hm' E) as [t Ht]. destruct (on_cpu_thread v x' t [] [] Hs' Ht) as [T Ho].
    apply wpk_seq. eapply wp_current; [apply Hi'|exact Ht|]. apply wpk_seq. eapply wp_deref; [done|].
    apply wpk_seq. eapply wp_save_frame; [done|exact Ho|]. intros T' _ Hi2 Ho2. eapply wpk_yield; [done|exact Ho2|apply Hst'].
  - destruct (irq_is_device_vector vector) eqn:Ed.
    { apply wpk_seq, wp_irq_deliver; [done|done|done|done|done|]. intros x' Hx'. apply Hq; [by eapply inv_schemed, schemed_rerouted|apply Hx']. }
    destruct (_ && _); [done|]. cbn [orb] in Hv. rewrite Hv. apply andb_true_iff in Hv as [E _]. destruct (Hm E) as [t Ht].
    destruct (on_cpu_thread v x t [] [] Hsc Ht) as [T Ho]. by eapply wpk_exit.
Qed.

End Dispatch.
