(* ===== verification/Boot.v ===== *)
(** * The kernel state the boot sequence hands over

    No process, block, ring or thread exists, every processor is idle, the page pool
    is ready and the kernel's page tree shows every page the pool can hand out with
    the flags [umem.c] relies on.  Such a state satisfies the invariant, and a
    concrete one, with real tables, starts the runs the examples evaluate. *)

From S2P Require Import Prelude Buddy Paging Siphash PlatformMem Machine Sched Index Channel Umem Process Capability Irq Iommu Syscall Graph Wp Invariant BaseSpec SchedSpec ChannelSpec UmemSpec BlockSpec GrantSpec IrqSpec VtdSpec IommuSpec KernelSpec.
Import Forest Claims Dma.

Section Boot.
Context {PT : PageTree} {SC : Schemes} {SS : SchemesSafe}.
Implicit Types (s : kstate).

(** The invariant of the kernel between two operations. *)
Definition valid s : Prop := inv (view s) (rest_of s).

Definition idle_cpu (c : cpu) : Prop :=
  c_current_as c = None /\ c_current_thread c = None /\ c_queue c = [] /\ c_deadlines c = ∅.

(** What the page pool, the kernel's page tree and the device policy agree on. *)
Record memory_ready s (t : blocks) : Prop := {
  mr_pool : holds (k_pool s) t;
  mr_fits : 2 ^ ba_max_level (k_pool s) * PAGE_SIZE <= 2 ^ 47;
  mr_kernel a : 0 <= a < 2 ^ 48 -> has (as_map (k_kas s) a) PAGE_U = false;
  mr_pristine a : allocatable (rest_of s) t (a / PAGE_SIZE) -> as_map (k_kas s) a = PAGE_KERNEL_PRISTINE;
  mr_device base len flags r a : platform_mem_validate_device (k_platform s) base len flags = Some r ->
    base <= a < base + len -> ~ allocatable (rest_of s) t (a / PAGE_SIZE) /\ a < 2 ^ 47 }.

Record booted s : Prop := {
  bt_tables : k_procs s = ∅ /\ k_g_procs s = ∅ /\ k_blocks s = ∅ /\ k_g_ublocks s = ∅ /\ k_edges s = ∅ /\
    k_rings s = ∅ /\ k_threads s = ∅ /\ k_futex s = ∅;
  bt_counters : 0 <= k_next_ref s /\ 0 <= k_futex_seq s < 2 ^ 64;
  bt_cpus : Forall idle_cpu (k_cpus s) /\ (k_this s < length (k_cpus s))%nat /\ Z.of_nat (length (k_cpus s)) < 2 ^ 32;
  bt_clean : a_dirty (k_kas s) = false;
  bt_memory : exists t, memory_ready s t;
  bt_schemes : scheme_inv (view s) (rest_of s) }.

Lemma booted_sched s : booted s -> sched_inv (view s) (rest_of s) [] [].
Proof.
  intros [(E1 & E2 & E3 & E4 & E5 & E6 & E7 & E8) [_ H2] (Hc & Ht & Hl) _ _ _].
  assert (Hq : mjoin (c_queue <$> k_cpus s) = []).
  { clear - Hc. induction Hc as [|c l (_ & _ & Hq & _) _ IH]; [done|]. change (c_queue c ++ mjoin (c_queue <$> l) = []). by rewrite Hq, IH. }
  assert (Hi : forall i c, k_cpus s !! i = Some c -> idle_cpu c) by (by apply Forall_lookup).
  assert (Hr : forall t i, ~ running (c_current_thread <$> k_cpus s) t i).
  { intros t i Hr. apply list_lookup_fmap_Some in Hr as (c & E & Hr). destruct (Hi i c Hr) as (_ & ? & _). congruence. }
  split; simpl; rewrite ?E7, ?E8, ?Hq, ?length_fmap; try done; try apply NoDup_nil_2.
  - intros t. rewrite lookup_empty. split; simpl; try done; rewrite ?E8, ?Hq.
    + intros i k. unfold waiting. simpl. rewrite ?E8, lookup_empty. split; [done|]. by intros (? & ? & _).
    + split; [by intros ?%not_elem_of_nil|]. by intros (? & ? & _).
    + split; [by intros ?%not_elem_of_nil|]. by intros (? & ? & _).
    + split; [by intros (i & ?%Hr)|]. by intros (? & ? & _).
    + intros i k. split; [|by intros (? & ? & _)]. intros (m & Hm & Hk). apply list_lookup_fmap_Some in Hm as (c & E & Hm).
      destruct (Hi i c Hm) as (_ & _ & _ & Hd). rewrite E, Hd in Hk. by rewrite lookup_empty in Hk.
  - intros t i j ?%Hr. done.
  - intros i p Hp. apply list_lookup_fmap_Some in Hp as (c & E & Hp). destruct (Hi i c Hp) as (? & _). congruence.
Qed.

Lemma booted_graph s : booted s -> graph_inv (view s).
Proof.
  intros [(E1 & E2 & E3 & E4 & E5 & E6 & E7 & E8) [H1 _] _ Hd [t Hm] _].
  assert (Ha : forall a, 0 <= a < 2 ^ 48 -> has (as_map (k_kas s) a) PAGE_U = false) by apply Hm. clear Hm.
  destruct s; simpl in *; subst. split.
  - split; unfold live; simpl; try done; [intros p x; by split; [|intros [_ ?]]|by intros ? []].
  - split; unfold live; simpl; [done|]. intros q c x. by split; [|intros [_ ?]].
  - split; unfold bbase; simpl; try done; try (by intros ? []); [intros p base b; by split; [|intros [? _]]|].
    intros b. split; by intros [].
  - split; simpl; try done; [intros b p e|intros p base e]; by split; [|intros [? _]].
  - exists (fun _ => []). split; simpl; [intros p; by split; try apply NoDup_nil_2|].
    intros p e. split; [by intros ?%not_elem_of_nil|by intros [? _]].
  - split; simpl; try done. intros a p r. split; [|by intros (? & ? & _)]. by destruct a.
  - split; simpl; try done. intros p t' x. split; [done|]. by intros (_ & ? & ?).
  - by split.
  - split; simpl; done.
Qed.

Lemma booted_valid s : booted s -> valid s.
Proof.
  intros Hb. pose proof (bt_memory s Hb) as [t [M1 M2 M3 M4 M5]].
  destruct (bt_tables s Hb) as (E1 & E2 & E3 & E4 & E5 & E6 & E7 & E8). split.
  - by apply booted_graph.
  - exists t. split; simpl; rewrite ?E3; simpl; try done.
  - by apply booted_sched.
  - intros u T. simpl. by rewrite E7.
  - apply Hb.
Qed.

(** ** Runs *)

(** The state [m] leaves behind, and whether it returned [a]. *)
Definition after {A} (m : M A) s : kstate := match m s with Ret _ s' => s' | Park s' => s' | Halt _ s' => s' end.

Definition returns {A} (o : outcome A) (a : A) : Prop := match o with Ret r _ => r = a | _ => False end.

Lemma outcome_pick {A} (o : outcome A) P a : outcome_ok o P -> returns o a -> exists s', o = Ret a s' /\ P a s'.
Proof. destruct o; simpl; [|done..]. intros H <-. eauto. Qed.

Lemma valid_after {A} (m : M A) s a : wp m (fun _ v x => inv v x) (view s) (rest_of s) -> returns (m s) a -> valid (after m s).
Proof. intros H Hr. specialize (H s eq_refl eq_refl). unfold after. by destruct (m s). Qed.

End Boot.

(** ** The schemes at boot *)

Section Schemes.
Context {PT : PageTree}.
#[local] Existing Instance kernel_schemes.
#[local] Existing Instance kernel_safe.
Implicit Types (s : kstate).

(** No grant has been minted, the routes are those [irq_scheme_init] makes, and the
    remapping unit has no domain. *)
Record schemes_fresh (gsi_info : Z -> option irq_trigger_mode) s : Prop := {
  sf_grants : k_grants s = ∅ /\ 0 <= k_next_grant_id s < 2 ^ 64;
  sf_pins gsi : k_ioapic_ok s gsi = true -> is_Some (gsi_info gsi);
  sf_domains : io_domains (k_iommu s) = [] /\ io_ndomains (k_iommu s) = 0 /\ io_ndevices (k_iommu s) = 0 /\ io_nmappings (k_iommu s) = 0 /\
    0 <= io_next_domain_id (k_iommu s) < 2 ^ 64 /\ io_fault_devices (k_iommu s) = ∅;
  sf_unit : let V := io_vtd (k_iommu s) in vt_contexts V = ∅ /\ 1 <= vt_next_domain V < 2 ^ 16 /\ vt_responds V = true }.

Lemma fresh_forest next : 0 <= next < 2 ^ 64 -> forest ∅ next None.
Proof. intros Hn. split; try done; intros *; rewrite ?lookup_empty; done. Qed.

Lemma irq_init_claims gsi_info apic_id s : (forall gsi, k_ioapic_ok s gsi = true -> is_Some (gsi_info gsi)) ->
  claims_ok (k_ioapic_ok s) (k_routes (after (irq_scheme_init gsi_info apic_id) s)) ∅.
Proof.
  intros Hp. set (route := fun gsi => IrqRoute None None 0 0 0 0 gsi (default IRQ_TRIGGER_EDGE (gsi_info gsi)) 0 (bool_decide (is_Some (gsi_info gsi))) false false false).
  change (k_routes _) with (route <$> seqZ 0 IRQ_ROUTE_COUNT). split; [by rewrite length_fmap, length_seqZ| |by intros r cl n; rewrite lookup_empty|].
  - intros i R HR. apply list_lookup_fmap_Some in HR as (g & -> & Hg). apply lookup_seqZ in Hg as [-> Hi]. split; simpl; [done|done| |by intros []].
    intros Hpin. by apply bool_decide_eq_true, Hp.
  - intros i R r HR. apply list_lookup_fmap_Some in HR as (g & -> & Hg). done.
Qed.

Lemma fresh_iommu gsi_info s v : (forall b, dma_of v b = None) -> schemes_fresh gsi_info s -> iommu_ok v (k_iommu s).
Proof.
  intros Hd [_ _ (E1 & E2 & E3 & E4 & E5 & E6) (U1 & U2 & U3)]. split; [..|done]; rewrite E1, ?E2, ?E3, ?E4; simpl.
  - split; simpl; try done; try apply NoDup_nil_2; intros *; by intros ?%not_elem_of_nil.
  - unfold attached. simpl. split; simpl; try done; [apply NoDup_nil_2|intros *; by intros ?%not_elem_of_nil| |].
    + intros b f h d. unfold ctx_at. rewrite U1, lookup_empty. simpl. split; [done|]. by intros (e & ?%not_elem_of_nil).
    + intros q e. rewrite E6, lookup_empty. split; [done|]. by intros [_ ?%not_elem_of_nil].
  - split; simpl; try done; try apply NoDup_nil_2; intros *; rewrite ?Hd; try done; by intros ?%not_elem_of_nil.
Qed.

(** After [irq_scheme_init] the schemes of a kernel with no ring and no block are in order. *)
Lemma fresh_schemes gsi_info apic_id s : k_rings s = ∅ -> k_blocks s = ∅ -> schemes_fresh gsi_info s ->
  let s' := after (irq_scheme_init gsi_info apic_id) s in schemes_ok (view s') (rest_of s').
Proof.
  intros Er Eb Hf s'. pose proof Hf as [[G1 G2] Hp _ _]. assert (Ec : x_claims (rest_of s') = ∅) by (simpl; rewrite Er; apply fmap_empty).
  split; [unfold grants_ok; simpl; rewrite G1; by apply fresh_forest| |].
  - split; rewrite Ec; [exact (irq_init_claims gsi_info apic_id s Hp)|intros r; rewrite lookup_empty; by intros []|by intros r i n; rewrite lookup_empty].
  - change (iommu_ok (view s') (k_iommu s)). apply (fresh_iommu gsi_info s); [|done]. intros b. unfold dma_of. simpl. by rewrite Eb.
Qed.

End Schemes.

(** ** A concrete machine

    Sixteen pages of RAM, the first of them not usable, two processors, no firmware map, no protected range. *)

Module Sample.

Definition pool : buddy_allocator_s := default (Buddy 0 0 0 0 ∅) (setup 16 4096 0 [(7, 7)]).

Definition machine : platform := Platform None [] [].

(** A remapping unit with superpages, no domain yet. *)
Definition no_domains : iommu := IommuState [] 0 0 0 1 true ∅ (Vtd true true ∅ 1 ∅ true [] 0).

Definition boot_state {PT : PageTree} (ba : buddy_allocator_s) (tree : ptree) : kstate :=
  KState ∅ ∅ ∅ ∅ ∅ ∅ ∅ 1 1 1 None (Aspace tree 0 false) ba (fun _ => 255) ∅ (replicate 16 7) 1
    [Cpu None None [] true ∅ 0 0 0; Cpu None None [] true ∅ 0 0 0] 0 0 machine ∅ 1 (replicate 16 9) [] 0 (fun _ => true) no_domains 0 [] [] [].

(** Every page is mapped for the kernel, as on a machine whose memory is all pool. *)
Definition flat_tree : @ptree flat_pages := fun _ => PAGE_KERNEL_PRISTINE.

Lemma pool_ready : exists t, holds pool t /\ ba_max_level pool = 4.
Proof.
  destruct (setup_spec 16 4096 0 [(7, 7)]) as (ba & t & H1 & H2 & _ & H3 & _); [done|right; split; [done|by repeat constructor]|].
  exists t. unfold pool. rewrite H1. split; [done|]. simpl. by rewrite H3.
Qed.

Lemma machine_devices base len flags r a : platform_mem_validate_device machine base len flags = Some r -> base <= a < base + len ->
  0xC0000000 <= a < 0x1000000000.
Proof.
  unfold platform_mem_validate_device, range_end, add_overflow64. intros Hv Ha.
  destruct (_ && _ && _); [|done]. destruct (2 ^ 64 <=? base + len); [done|]. simpl in Hv.
  destruct (_ || _ || _); [done|]. destruct (has flags VM_DEVICE_FIRMWARE).
  { by destruct (has flags VM_DEVICE_WRITE). }
  unfold contained in Hv. simpl in Hv.
  destruct (Z.leb_spec 3221225472 base), (Z.leb_spec (base + len) 4273995776), (Z.leb_spec 34359738368 base), (Z.leb_spec (base + len) 68719476736);
    simpl in Hv; try done; lia.
Qed.

Lemma flat_ready ba t : holds ba t -> ba_max_level ba = 4 -> memory_ready (boot_state ba flat_tree) t.
Proof.
  intros Ht El. split; simpl; rewrite ?El; try done.
  intros base len flags r a Hv Ha. pose proof (machine_devices base len flags r a Hv Ha). split; [|lia].
  intros [Hp _]. simpl in Hp. rewrite El in Hp. unfold PAGE_SIZE in Hp. div_lia.
Qed.

#[local] Existing Instance flat_pages.
#[local] Existing Instance kernel_schemes.
#[local] Existing Instance kernel_safe.

(** Every interrupt line is wired, edge triggered. *)
Definition bring_up (s : kstate) : kstate := after (irq_scheme_init (fun _ => Some IRQ_TRIGGER_EDGE) 0) s.

Lemma flat_booted ba t : holds ba t -> ba_max_level ba = 4 -> booted (bring_up (boot_state ba flat_tree)).
Proof.
  intros Ht El. split; try done; [split_and!; [by repeat constructor|simpl; lia|done]| |].
  - exists t. destruct (flat_ready ba t Ht El) as [M1 M2 M3 M4 M5]. by split.
  - apply fresh_schemes; [done|done|]. by split; [| |split_and!|].
Qed.

Definition state0 : @kstate flat_pages := bring_up (boot_state pool flat_tree).

Lemma state0_booted : booted state0.
Proof. destruct pool_ready as (t & Ht & El). exact (flat_booted pool t Ht El). Qed.

End Sample.
