(* ===== verification/Reach.v ===== *)
(** * Every state of a running kernel

    The machine as a transition system over [kstate].  A transition is one whole entry
    to the kernel on one processor: a system call or an interrupt that returns, one
    that parks followed by the scheduler's half of the switch, a round of the scheduler
    loop, a wake-up from the halt, or the resumption of a thread; or a move of the
    environment: another processor's turn, user code and devices writing memory, time,
    the allocator running dry, faults recorded by the remapping unit.  Processors
    interleave in any order, one entry at a time.

    The invariant holds in every state reached, with no lock held, and no entry from
    such a state fails an assertion, breaks the lock order, spins or dereferences
    null. *)

From S2P Require Import Prelude Buddy Paging Siphash PlatformMem Machine Sched Index Channel Umem Process Capability Irq Iommu Syscall Graph Wp Invariant BaseSpec SchedSpec ChannelSpec UmemSpec BlockSpec MoveSpec ThreadSpec ProcessSpec LifeSpec CallSpec RingSpec RunSpec FutexSpec LoopSpec GrantSpec IrqSpec VtdSpec IommuSpec KernelSpec DispatchSpec Boot.
Import Forest.

Section Reach.
Context {PT : PageTree}.
#[local] Existing Instance kernel_schemes.
#[local] Existing Instance kernel_safe.
Implicit Types (s : kstate).

(** ** Transitions *)

(** The thread on the processor at hand. *)
Definition current s : option Z := c ← k_cpus s !! k_this s; c_current_thread c.

(** Ids and tickets are not about to wrap. *)
Definition fresh_ids s : Prop := in_range (view s) (rest_of s).

(** One entry to the kernel, to its end: [m] returns, or parks and the scheduler takes over. *)
Inductive enters {A} (m : M A) s : kstate -> Prop :=
  | entry_returns a s' : m s = Ret a s' -> enters m s s'
  | entry_parks s1 s' : m s = Park s1 -> scheduler_back s1 = Ret tt s' -> enters m s s'.

Inductive step s : kstate -> Prop :=
  | step_syscall tf s' : is_Some (current s) -> fresh_ids s -> frame_ok tf -> enters (syscall_entry tf) s s' -> step s s'
  | step_interrupt tf vector s' : (from_user tf = true -> is_Some (current s)) -> serviced tf vector = true ->
      enters (interrupt_handler tf vector) s s' -> step s s'
  | step_round s' : current s = None -> enters scheduler_top s s' -> step s s'
  | step_wake s' : enters scheduler_wake s s' -> step s s'
  | step_resume t s' : current s = Some t -> enters (uthread_resume_prepare t) s s' -> step s s'
  | step_processor c : (c < length (k_cpus s))%nat -> step s (upd_k_this (fun _ => c) s)
  | step_memory f : step s (upd_k_mem f s)
  | step_clock n : step s (upd_k_clock (fun _ => n) s)
  | step_allocator l : step s (upd_k_oom (fun _ => l) s)
  | step_fault l n : step s (upd_k_iommu (upd_io_vtd (fun V => upd_vt_fsts (fun _ => n) (upd_vt_faults (fun _ => l) V))) s).

(** The invariant, and no lock held. *)
Definition ready s : Prop := settled (view s) (rest_of s).

(** An entry ends well: it returns or parks into a ready state, or it stops for a
    reason the kernel accepts. *)
Definition entry_safe {A} (m : M A) s : Prop :=
  match m s with
  | Ret _ s' => ready s'
  | Park s1 => outcome_ok (scheduler_back s1) (fun _ => ready)
  | Halt h _ => tolerated h
  end.

Lemma entry_ready {A} (m : M A) s s' : entry_safe m s -> enters m s s' -> ready s'.
Proof. unfold entry_safe. intros H [a ? E|s1 ? E E']; rewrite E in H; [done|]. by rewrite E' in H. Qed.

Lemma entry_wpk {A} (m : M A) s : wpk m (fun _ => settled) parked (view s) (rest_of s) -> entry_safe m s.
Proof.
  intros H. specialize (H s eq_refl eq_refl). unfold entry_safe. destruct (m s) as [a s1|s1|h s1]; [done| |done]. simpl in H.
  exact (H s1 eq_refl eq_refl).
Qed.

Lemma entry_wp {A} (m : M A) s : wp m (fun _ => settled) (view s) (rest_of s) -> entry_safe m s.
Proof. intros H. by apply entry_wpk, wpk_wp. Qed.

Lemma current_column s t : current s = Some t <-> x_current (rest_of s) !! x_this (rest_of s) = Some (Some t).
Proof.
  unfold current. simpl. rewrite list_lookup_fmap. destruct (k_cpus s !! k_this s) as [c|]; simpl; [|done]. split; [by intros ->|by intros [= ->]].
Qed.

(** ** Each entry *)

Lemma syscall_safe tf s : ready s -> is_Some (current s) -> fresh_ids s -> frame_ok tf -> entry_safe (syscall_entry tf) s.
Proof.
  intros Hr [t Ht%current_column] Hf Hw. apply entry_wpk, wpk_syscall; [done|done|done|by exists t|done].
Qed.

Lemma interrupt_safe tf vector s : ready s -> (from_user tf = true -> is_Some (current s)) -> serviced tf vector = true ->
  entry_safe (interrupt_handler tf vector) s.
Proof.
  intros Hr Hm Hv. apply entry_wpk, wpk_interrupt; [done| |done|done]. intros Hu. destruct (Hm Hu) as [t Ht%current_column]. by exists t.
Qed.

Lemma idle_queue s : ready s -> current s = None -> exists q, idle (rest_of s) /\ x_queues (rest_of s) !! x_this (rest_of s) = Some q.
Proof.
  intros [Hi _] Hc. pose proof (sch_this _ _ _ _ (inv_sched _ _ _ Hi)) as Hlt. unfold idle, current in *. simpl in *. rewrite length_fmap in Hlt.
  apply lookup_lt_is_Some in Hlt as [c E]. rewrite !list_lookup_fmap. rewrite E in *. simpl in *. rewrite Hc. eauto.
Qed.

Lemma round_safe s : ready s -> current s = None -> entry_safe scheduler_top s.
Proof.
  intros Hr Hc. destruct (idle_queue s Hr Hc) as (q & Hid & Hq). destruct Hr as [Hi Hx]. by apply entry_wp, (wp_scheduler_top q).
Qed.

Lemma wake_safe s : ready s -> entry_safe scheduler_wake s.
Proof. intros Hr. apply entry_wp, wp_scheduler_wake; [apply Hr|done]. Qed.

Lemma resume_safe t s : ready s -> current s = Some t -> entry_safe (uthread_resume_prepare t) s.
Proof.
  intros Hr Ht%current_column. pose proof Hr as [Hi _]. destruct (on_cpu_thread _ _ t [] [] (inv_sched _ _ _ Hi) Ht) as [T [_ HT _]].
  assert (Hlt : (Z.to_nat (Z.of_nat (x_this (rest_of s))) < length (x_queues (rest_of s)))%nat) by (rewrite Nat2Z.id; apply Hi).
  apply entry_wp, wp_bind. eapply wp_get_thread; [exact HT|]. apply wp_bind, wp_this_cpu, wp_bind, wp_c_fs_base; [done|].
  apply wp_bind, wp_c_gs_base; [done|]. by apply wp_ret.
Qed.

(** ** The environment *)

Lemma ready_processor s c : ready s -> (c < length (k_cpus s))%nat -> ready (upd_k_this (fun _ => c) s).
Proof.
  intros [[I1 I2 [S1 S2 S3 S4 S5 S6 S7 S8 S9 S10] I4 I5] Hx] Hc. split; [|done]. split; [done|by eapply pool_frame; [..|exact I2]| |done|].
  - split; try done; [|simpl; by rewrite length_fmap]. intros t. eapply thread_ok_agree; [|apply S2]. by split.
  - by eapply schemes_ext; [..|exact I5].
Qed.

Lemma ready_fault s l n : ready s -> ready (upd_k_iommu (upd_io_vtd (fun V => upd_vt_fsts (fun _ => n) (upd_vt_faults (fun _ => l) V))) s).
Proof.
  intros [[I1 I2 I3 I4 [C1 C2 [O1 O2 O3 O4]]] Hx]. split; [|done].
  split; [done|by eapply pool_frame; [..|exact I2]|by eapply sched_rest; [|exact I3]|done|].
  split; [done|by eapply (routes_rest (view s) _ (rest_of s))|]. split; [|done|done|done]. by destruct O1; split.
Qed.

(** ** All of them *)

Lemma ready_step s s' : ready s -> step s s' -> ready s'.
Proof.
  intros Hr [tf ? H1 H2 H3 He|tf vector ? H1 H2 He|? H1 He|? He|t ? H1 He|c Hc|f|n|l|l n].
  - eapply entry_ready, He. by apply syscall_safe.
  - eapply entry_ready, He. by apply interrupt_safe.
  - eapply entry_ready, He. by apply round_safe.
  - eapply entry_ready, He. by apply wake_safe.
  - eapply entry_ready, He. by apply resume_safe.
  - by apply ready_processor.
  - split; [exact (inv_mem (view s) (rest_of s) f (proj1 Hr))|exact (proj2 Hr)].
  - exact Hr.
  - exact Hr.
  - by apply ready_fault.
Qed.

Lemma ready_steps s0 s : ready s0 -> rtc step s0 s -> ready s.
Proof. intros Hr Hs. induction Hs as [|s1 s2 s3 H12 _ IH]; [done|]. by eapply IH, ready_step. Qed.

(** C5: The invariant of the running kernel.  From a state that satisfies it, with no
    lock held, every state any interleaving of system calls, interrupts, scheduler
    rounds and moves of the environment reaches satisfies it again, with no lock
    held. *)
Theorem reachable_ready s0 s : ready s0 -> rtc step s0 s -> ready s.
Proof. apply ready_steps. Qed.

(** C6: Safety of every system call.  In a reachable state, a thread may enter the kernel
    with any call number and any arguments: the call returns or parks into a ready
    state or stops for want of memory, because the first process died, or because a
    64-bit id space is used up; no assertion fails, no lock is taken out of order or
    twice, no loop runs forever and nothing unmapped is dereferenced. *)
Theorem syscalls_safe s0 s tf : ready s0 -> rtc step s0 s -> is_Some (current s) -> fresh_ids s -> frame_ok tf -> entry_safe (syscall_entry tf) s.
Proof.
  intros Hr Hs Hc Hf Hw. apply syscall_safe; [by eapply ready_steps|done..].
Qed.

(** C7: Safety of every interrupt and every scheduler round, from a reachable state: a
    serviced vector, from user mode or while the processor is halted, and the rounds
    of the loop on an idle processor end in a ready state. *)
Theorem entries_safe s0 s tf vector : ready s0 -> rtc step s0 s ->
  ((from_user tf = true -> is_Some (current s)) -> serviced tf vector = true -> entry_safe (interrupt_handler tf vector) s) /\
  (current s = None -> entry_safe scheduler_top s) /\ entry_safe scheduler_wake s.
Proof.
  intros Hr Hs. assert (Hs' : ready s) by (by eapply ready_steps).
  split_and!; [intros; by apply interrupt_safe|by apply round_safe|by apply wake_safe].
Qed.

End Reach.

(** ** A walk

    A sequence of transitions as data, checked by evaluation, and one on the sample
    machine: a process with two threads on two processors. *)

Section Start.
Context {PT : PageTree} {SC : Schemes} {SS : SchemesSafe}.
Implicit Types (v : gview) (x : rest).

Lemma wp_spawn_thread p entry sp arg fs gs Q v x : inv v x -> is_Some (v_map v p) -> ~ eff_dead v p -> in_range v x -> x_held x = [] ->
  (forall x', settled (hatched v p (v_ntid v) None) x' -> steady x x' -> Q (v_ntid v) (hatched v p (v_ntid v) None) x') ->
  wp (process_spawn_thread p entry sp arg fs gs) Q v x.
Proof.
  intros Hi Hm Hd Hr Hx H. apply wp_bind, wp_lock_below; [rewrite Hx; constructor|]. rewrite Hx. apply wp_bind.
  eapply (wp_spawn p entry sp arg fs gs None 0 _ v (set_held [LUmem] x)); [by apply inv_held|done|done|by destruct Hr|done|done|].
  intros x' Hi' Hs _. eapply wp_unlock_steady; [exact Hx|exact Hs|exact Hi'|]. intros y Hy Hsy. apply H; [|done]. split; [done|].
  destruct (st_keep _ _ Hsy) as (_ & -> & _). exact Hx.
Qed.

End Start.

(** ** The root grants *)

Section Roots.
Context {PT : PageTree}.
#[local] Existing Instance kernel_schemes.
#[local] Existing Instance kernel_safe.
Implicit Types (v : gview) (x : rest).

Lemma forest_root m next g G : forest m next (Some g) -> m !! g = Some G -> g_parent G = None -> forest m next None.
Proof. intros Hf HG Hp. pose proof Hf as []. split; try done. intros u U p P HU Ep HP _. eapply (fo_within _ _ _ Hf); [exact HU|exact Ep|exact HP|]. intros [= ->]. congruence. Qed.

Lemma wp_root type Q v x : grants_ok x -> type_ok type -> (forall r x', regrant x x' -> Q r v x') -> wp (grant_new None type true) Q v x.
Proof.
  intros Hf Ht H. apply wp_grant_new; [done|done|done|by apply H, regrant_refl|]. intros Hid Hnew. apply H. split; [by eexists _, _|].
  eapply forest_root; [by apply forest_grown|by apply grown_new|done].
Qed.

Lemma regrant_trans x y z : regrant x y -> regrant y z -> regrant x z.
Proof. intros [(m & n & ->) _] [(m' & n' & ->) Hz]. split; [exists m', n'; by destruct x|done]. Qed.

(** Boot leaves a settled kernel. *)
Lemma wp_bootstrap v x : settled v x -> wp capability_bootstrap (fun _ => settled) v x.
Proof.
  intros [Hi Hx]. unfold capability_bootstrap. apply wp_bind, wp_lock_below; [rewrite Hx; constructor|]. rewrite Hx.
  set (y := set_held [LUmem] x). assert (Hy : inv v y) by by apply inv_held. destruct (inv_scheme _ _ _ Hy) as [Hf _ _].
  apply wp_bind, wp_root; [done|by left|]. intros d y1 H1. apply wp_bind, wp_root; [apply H1|by right; left|]. intros q y2 H2.
  apply wp_bind, wp_root; [apply H2|by right; right|]. intros m y3 H3. pose proof (regrant_trans _ _ _ (regrant_trans _ _ _ H1 H2) H3) as Hr.
  destruct d, q, m; try by apply wp_die. apply wp_bind, wp_get_boot_key. assert (Eh : x_held y3 = [LUmem]) by (destruct Hr as [(? & ? & E) _]; by rewrite E).
  apply wp_bind. eapply wp_unlock_top; [exact Eh|constructor|].
  apply wp_ret. split; [|done]. apply inv_held. eapply inv_schemed; [exact Hy|]. apply schemed_granted; [apply Hy|apply (inv_scheme _ _ _ Hy)|by apply regrant_granted'].
Qed.

End Roots.


(** What a concrete step needs, as a computation. *)
Section Checks.
Context {PT : PageTree}.
#[local] Existing Instance kernel_schemes.
Implicit Types (s : kstate).

Definition small_ids s : bool :=
  (0 <? k_next_pid s) && (k_next_pid s <? 2 ^ 64 - 1) && (0 <=? k_next_tid s) && (k_next_tid s <? 2 ^ 64 - 1) &&
  (Z.of_nat (size (k_threads s)) + 1 <? 2 ^ 32) && (k_futex_seq s <? 2 ^ 64 - 16).

(** [m] comes back, by itself or through the scheduler. *)
Definition ends {A} (m : M A) s : bool :=
  match m s with
  | Ret _ _ => true
  | Park s1 => match scheduler_back s1 with Ret _ _ => true | _ => false end
  | Halt _ _ => false
  end.

Definition finish {A} (m : M A) s : kstate := match m s with Ret _ s' => s' | Park s1 => after scheduler_back s1 | Halt _ s' => s' end.

Lemma small_ids_fresh s : small_ids s = true -> fresh_ids s.
Proof.
  unfold small_ids. rewrite !andb_true_iff, !Z.ltb_lt, Z.leb_le. intros [[[[[H1 H2] H3] H4] H5] H6].
  split; simpl; [lia|lia| |lia]. by rewrite map_size_fmap.
Qed.

Lemma ends_enters {A} (m : M A) s : ends m s = true -> enters m s (finish m s).
Proof.
  unfold ends, finish. intros H. destruct (m s) as [a s'|s1|h s'] eqn:E; [by eapply entry_returns| |done].
  unfold after. destruct (scheduler_back s1) as [[] s2|s2|h s2] eqn:E'; [by eapply entry_parks|done|done].
Qed.

(** What may happen next, as data: thread [t] makes a call, the processor at hand does a
    round of the loop, another processor's turn comes, user code writes memory. *)
Inductive move :=
  | Call (t nr a0 a1 a2 a3 : Z)
  | Round
  | Turn (c : nat)
  | Store (a : Z) (bs : list Z).

(** The trap frame of a call from user mode. *)
Definition calls (nr a0 a1 a2 a3 : Z) : frame := TrapFrame nr 0 a0 0 0 0 0 0 0 0 0 0 a3 a2 a1 0 0 3 0 0 0.

Definition is_word (a : Z) : bool := (0 <=? a) && (a <? 2 ^ 64).

Definition allowed (m : move) s : bool :=
  match m with
  | Call t nr a0 a1 a2 a3 => bool_decide (current s = Some t) && small_ids s && (is_word a0 && is_word a1 && is_word a2 && is_word a3) &&
      ends (syscall_entry (calls nr a0 a1 a2 a3)) s
  | Round => bool_decide (current s = None) && ends scheduler_top s
  | Turn c => (c <? length (k_cpus s))%nat
  | Store _ _ => true
  end.

Definition perform (m : move) s : kstate :=
  match m with
  | Call _ nr a0 a1 a2 a3 => finish (syscall_entry (calls nr a0 a1 a2 a3)) s
  | Round => finish scheduler_top s
  | Turn c => upd_k_this (fun _ => c) s
  | Store a bs => upd_k_mem (fun m => mem_write m a bs) s
  end.

Fixpoint play (l : list move) s : kstate := match l with [] => s | m :: l => play l (perform m s) end.
Fixpoint playable (l : list move) s : bool := match l with [] => true | m :: l => allowed m s && playable l (perform m s) end.

Lemma is_word_word64 a : is_word a = true -> word64 a.
Proof. unfold is_word. rewrite andb_true_iff, Z.leb_le, Z.ltb_lt. done. Qed.

Lemma allowed_step m s : allowed m s = true -> step s (perform m s).
Proof.
  destruct m as [t nr a0 a1 a2 a3| |c|a bs]; simpl.
  - rewrite !andb_true_iff. intros [[[Hc%bool_decide_eq_true Hs] [[[W0%is_word_word64 W1%is_word_word64] W2%is_word_word64] W3%is_word_word64]] He].
    apply (step_syscall s (calls nr a0 a1 a2 a3)); [by exists t|by apply small_ids_fresh|by split|by apply ends_enters].
  - rewrite andb_true_iff. intros [Hc%bool_decide_eq_true He]. apply step_round; [done|by apply ends_enters].
  - intros Hc%Nat.ltb_lt. by apply step_processor.
  - intros _. apply step_memory.
Qed.

Lemma play_steps l : forall s, playable l s = true -> rtc step s (play l s).
Proof.
  induction l as [|m l IH]; intros s; cbn [play playable]; [intros _; apply rtc_refl|]. rewrite andb_true_iff. intros [Hm Hl].
  eapply rtc_l; [by apply allowed_step|by apply IH].
Qed.

Lemma runs_current s t : bool_decide (current s = Some t) = true -> is_Some (current s).
Proof. intros E%bool_decide_eq_true. by exists t. Qed.

End Checks.

Module Walk.
Import Sample.

#[local] Existing Instance flat_pages.
#[local] Existing Instance kernel_schemes.
#[local] Existing Instance kernel_safe.

(** A process with two threads, and the root grants. *)
Definition start1 := after (process_create None) state0.
Definition start2 := after capability_bootstrap start1.
Definition start3 := after (process_spawn_thread 1 4096 8192 0 0 0) start2.
Definition start := after (process_spawn_thread 1 4096 8192 0 0 0) start3.

Lemma ready_after {A} (m : M A) s : wp m (fun _ => settled) (view s) (rest_of s) -> (match m s with Ret _ _ => true | _ => false end) = true -> ready (after m s).
Proof. intros H Hr. specialize (H s eq_refl eq_refl). unfold after. by destruct (m s). Qed.

Lemma start1_ready : ready start1.
Proof.
  apply ready_after; [|vm_compute; reflexivity].
  apply wp_create; [apply booted_valid, state0_booted|done|done|done|]. by intros a _ Hi.
Qed.

Lemma start2_ready : ready start2.
Proof.
  apply ready_after; [|vm_compute; reflexivity]. apply wp_bootstrap; apply start1_ready.
Qed.

Lemma alive_1 s : v_dead (view s) 1 = false -> v_par (view s) 1 = None -> ~ eff_dead (view s) 1.
Proof. intros H1 H2 Hd. inversion Hd as [p E|p q E _]; congruence. Qed.

Lemma spawn_ready s : ready s -> is_Some (v_map (view s) 1) -> v_dead (view s) 1 = false -> v_par (view s) 1 = None -> small_ids s = true ->
  (match process_spawn_thread 1 4096 8192 0 0 0 s with Ret _ _ => true | _ => false end) = true -> ready (after (process_spawn_thread 1 4096 8192 0 0 0) s).
Proof.
  intros [Hi Hx] Hm Hd Hp Hs Hr. apply ready_after; [|done].
  apply wp_spawn_thread; [exact Hi|exact Hm|by apply alive_1|by apply small_ids_fresh|exact Hx|done].
Qed.

Lemma start_ready : ready start.
Proof.
  assert (H3 : ready start3).
  { unfold start3. apply spawn_ready; [exact start2_ready|by eexists|vm_compute; reflexivity|vm_compute; reflexivity|vm_compute; reflexivity|vm_compute; reflexivity]. }
  unfold start. apply spawn_ready; [exact H3|by eexists|vm_compute; reflexivity|vm_compute; reflexivity|vm_compute; reflexivity|vm_compute; reflexivity].
Qed.

(** Both processors dispatch a thread; the first asks for its process id, then the
    second gives its processor up. *)
Definition opening : list move := [Round; Turn 1; Round; Turn 0; Call 1 SYS_GETPID 0 0 0 0; Turn 1; Call 2 SYS_YIELD 0 0 0 0].

Lemma opening_playable : playable opening start = true.
Proof. vm_compute. reflexivity. Qed.

Definition opened := play opening start.

Lemma reachable_ready_witness : rtc step start opened /\ ready opened.
Proof.
  pose proof (play_steps opening start opening_playable) as Hs. exact (conj Hs (reachable_ready start opened start_ready Hs)).
Defined.

Definition running := play [Round] start.

Lemma running_playable : playable [Round] start = true.
Proof. vm_compute. reflexivity. Qed.

Lemma syscalls_safe_witness : entry_safe (syscall_entry (calls SYS_VM_ALLOC 5000 3 0 0)) running.
Proof.
  refine (syscalls_safe start running _ start_ready (play_steps _ _ running_playable) (runs_current _ 1 _) (small_ids_fresh _ _) _);
    [vm_compute; reflexivity|vm_compute; reflexivity|by split].
Defined.

Lemma entries_safe_witness : current opened = None /\ entry_safe scheduler_top opened.
Proof.
  assert (Hc : current opened = None) by (vm_compute; reflexivity). split; [exact Hc|].
  exact (proj1 (proj2 (entries_safe start opened (calls 0 0 0 0 0) VECTOR_TIMER start_ready (play_steps _ _ opening_playable))) Hc).
Defined.

End Walk.
