(* ===== verification/Contracts.v ===== *)
(** * What the memory operations promise

    The operations of [umem.c] as their callers see them: which process may do what at
    which address before and after, for every process and every address.  A refused
    request changes nothing; an accepted one changes the permissions it names and no
    others.  No outcome is a failed assertion, a broken lock order or a spin. *)

From S2P Require Import Prelude Buddy Paging Siphash PlatformMem Machine Sched Index Channel Umem Process Capability Irq Iommu Syscall Graph Wp Invariant BaseSpec SchedSpec ChannelSpec UmemSpec BlockSpec MoveSpec ThreadSpec ProcessSpec LifeSpec KernelSpec Boot.

Section Contracts.
Context {PT : PageTree} {SC : Schemes} {SS : SchemesSafe}.
Implicit Types (s : kstate).

(** ** Observations *)

(** The flag word process [p]'s page tree shows at [a]. *)
Definition perm s (p a : Z) : option Z := (fun m => m a) <$> v_map (view s) p.

Definition in_ublock (B : ublock) (a : Z) : Prop := b_base B <= a < b_base B + b_bytes B.

#[export] Instance in_ublock_dec B a : Decision (in_ublock B a) := _.

(** [p] may reach block [B]. *)
Definition party (B : ublock) (p : Z) : Prop := b_owner B = p \/ is_Some (b_sharers B !! p).

(** Process [p] has an address space. *)
Definition mapped s (p : Z) : bool := if P ← k_procs s !! p; p_as P is Some _ then true else false.

Lemma mapped_view s p : mapped s p = true -> is_Some (v_map (view s) p).
Proof. unfold mapped. simpl. destruct (k_procs s !! p) as [P|]; simpl; [|done]. by destruct (p_as P). Qed.

(** Nothing an operation may look at has changed. *)
Definition untouched s s' : Prop := view s' = view s /\ rest_of s' = rest_of s.

(** In process [p], the bytes of [B] show [f]; nothing else is different. *)
Definition repermitted s (p : Z) (B : ublock) (f : Z) s' : Prop := forall q a, 0 <= a < 2 ^ 48 ->
  perm s' q a = if decide (q = p /\ in_ublock B a) then Some f else perm s q a.

(** The columns of a block are the fields of its record. *)
Record columns s (b : Z) (B : ublock) : Prop := {
  cl_block : k_blocks s !! b = Some B;
  cl_info : v_info (view s) b = Some (info_of B);
  cl_owner : v_owner (view s) b = Some (b_owner B);
  cl_sharers : v_sharers (view s) b = b_sharers B;
  cl_ring : v_bring (view s) b = b_ring B;
  cl_pins : v_bpins (view s) b = b_thread_pins B;
  cl_dma : v_dma (view s) b = b_dma_maps B;
  cl_whole : block_of (view s) b (info_of B) (b_owner B) = B }.

Lemma block_columns s b B : k_blocks s !! b = Some B -> columns s b B.
Proof. intros E. split; unfold block_of; simpl; rewrite ?E; by destruct B. Qed.

Lemma block_view s b i o : v_info (view s) b = Some i -> v_owner (view s) b = Some o ->
  exists B, columns s b B /\ info_of B = i /\ b_owner B = o.
Proof.
  simpl. destruct (k_blocks s !! b) as [B|] eqn:E; [|done]. intros [= <-] [= <-]. exists B. by split; [apply block_columns|].
Qed.

Lemma perm_map s s' q : v_map (view s') q = v_map (view s) q -> forall a, perm s' q a = perm s q a.
Proof. intros E a. unfold perm. by rewrite E. Qed.

Lemma perm_reflag s v' s' p B f : view s' = v' -> is_Some (v_map (view s) p) ->
  v_map v' = fset p (flagged (b_base B) (b_base B + b_bytes B) f <$> v_map (view s) p) (v_map (view s)) ->
  repermitted s p B (shown f) s'.
Proof.
  intros <- [m Hm] E q a Ha. unfold perm, in_ublock. rewrite E. case_decide as Hd.
  - destruct Hd as [-> Hd]. rewrite fset_eq, Hm. simpl. by rewrite flagged_in.
  - destruct (decide (q = p)) as [->|Hq]; [|by rewrite fset_ne].
    rewrite fset_eq, Hm. simpl. rewrite flagged_out; [done|done|]. naive_solver.
Qed.

(** From the rules of [wp] to a statement about the run of [m] from [s]. *)
Lemma contract {A} (m : M A) (P : A -> kstate -> Prop) s :
  wp m (fun a v x => forall s', view s' = v -> rest_of s' = x -> P a s') (view s) (rest_of s) -> outcome_ok (m s) P.
Proof. intros H. specialize (H s eq_refl eq_refl). destruct (m s); [by apply H|done..]. Qed.

(** ** Isolation *)

Lemma user_party s p a f : valid s -> 0 <= a < 2 ^ 48 -> perm s p a = Some f -> has f PAGE_U = true ->
  exists b B, k_blocks s !! b = Some B /\ in_ublock B a /\ party B p.
Proof.
  intros Hv Ha Hp Hu. pose proof (inv_graph _ _ _ Hv) as Hg. unfold perm in Hp. apply fmap_Some in Hp as (m & Hm & ->).
  destruct (map_user _ (inv_map _ Hg) p m a Hm Ha) as [E|(b & i & Hs & Hb & Hin)].
  { rewrite E, (map_kernel _ (inv_map _ Hg)) in Hu by done. done. }
  assert (exists o, v_owner (view s) b = Some o) as [o Ho] by (apply (own_info _ (inv_own _ Hg)); eauto).
  destruct (block_view s b i o Hb Ho) as (B & [C1 C2 C3 C4 _ _ _ _] & <- & <-). exists b, B. split_and!; [done|done|].
  destruct Hs as [Hs|(e & He & Ht)]; [left; congruence|]. right. rewrite <- C4. exists e. by apply (edge_sharers _ (inv_edge _ Hg)).
Qed.

Lemma one_block s b b' B B' a : valid s -> k_blocks s !! b = Some B -> k_blocks s !! b' = Some B' -> in_ublock B a -> in_ublock B' a -> b = b'.
Proof.
  intros Hv HB HB' Hi Hi'. pose proof (inv_graph _ _ _ Hv) as Hg.
  eapply (geo_apart _ (inv_geo _ Hg) b b' (info_of B) (info_of B') a); [by apply (cl_info s b B), block_columns|by apply (cl_info s b' B'), block_columns|done|done].
Qed.


(** ** Sharing *)

(** What [umem_share] asks for. *)
Record shareable s (p base target prot : Z) (B : ublock) : Prop := {
  sh_block : b_owner B = p /\ b_base B = base;
  sh_target : target <> p /\ live (view s) target /\ ~ eff_dead (view s) target;
  sh_new : b_sharers B !! target = None;
  sh_plain : b_ring B = None /\ b_thread_pins B = 0 /\ b_delegatable B = true;
  sh_device : device_refuses B prot = false }.

(** C1: [umem_share] either refuses, and then nothing has changed, or returns 0; then
    the block at [base] was [p]'s, plain and delegatable, and the live target had no
    view of it; the target now sees the block's bytes with exactly the requested
    rights and joins its sharers, and no other permission of any process and no other
    block is different. *)
Theorem umem_share_contract p base target prot s :
  valid s -> k_held s = [] -> mapped s p = true -> prot ∈ prots -> prot <> 0 ->
  outcome_ok (umem_share p base target prot s) (fun rc s' =>
    (rc <> 0 -> untouched s s') /\
    (rc = 0 -> valid s' /\ exists b B, k_blocks s !! b = Some B /\ shareable s p base target prot B /\
       repermitted s target B (shown (with_cache_type B (Z.lor prot PAGE_U))) s' /\
       (exists e, v_sharers (view s') = fset b (<[target := e]> (b_sharers B)) (v_sharers (view s))) /\
       v_owner (view s') = v_owner (view s) /\ v_info (view s') = v_info (view s))).
Proof.
  intros Hv Hh [m Hm]%mapped_view Hp Hp0. apply contract, (wp_share _ _ _ _ m); [done..| |].
  - intros rc Hrc s' E1 E2. done.
  - intros b i v' x' [A1 A2 A3 [A4 A4'] A5 [A6 A6'] [A7 A7'] A8] Hi' (pv & nx & hd & tl & N) Hc s' E1 E2. split; [done|]. intros _.
    split; [unfold valid; by rewrite E1, E2|].
    destruct (block_view s b i p A2 A1) as (B & [C1 C2 C3 C4 C5 C6 C7 C8] & Ei & Eo). exists b, B.
    rewrite <- Eo, <- Ei, C8 in A7'. rewrite <- Ei, <- Eo, C8 in N. simpl in N. destruct N as (pv' & nx' & nt' & hd' & tl' & dn' & ->).
    split_and!; [done|split; [by rewrite <- Ei in A3|done|congruence|split_and!; [congruence|congruence|by rewrite <- Ei in A7]|done]| |..];
      [|rewrite E1; unfold reflag, linked, relink, put_edge; vsimpl..]; [|by rewrite C4; eauto|done|done].
    eapply perm_reflag; [exact E1| |done]. destruct (v_map (view s) target) eqn:Et; [eauto|].
    exfalso. apply A4'. by apply (reg_gone _ (inv_reg _ (inv_graph _ _ _ Hv))).
Qed.

(** ** Revoking *)

Lemma kernel_flags_private s b B : valid s -> k_blocks s !! b = Some B -> has (shown (b_kernel_flags B)) PAGE_U = false.
Proof.
  intros Hv HB. destruct (block_columns s b B HB) as [_ C2 _ _ _ _ _ _].
  pose proof (blk_kernel _ (geo_block _ (inv_geo _ (inv_graph _ _ _ Hv)) b _ C2)) as (_ & Hk & _). unfold shown. by case_match.
Qed.

(** Process [target] lost its view of block [b], which is [B]. *)
Record revoked s (target b : Z) (B : ublock) s' : Prop := {
  rv_block : k_blocks s !! b = Some B;
  rv_was : is_Some (b_sharers B !! target);
  rv_perm : repermitted s target B (shown (b_kernel_flags B)) s';
  rv_user : has (shown (b_kernel_flags B)) PAGE_U = false;
  rv_sharers : v_sharers (view s') = fset b (delete target (b_sharers B)) (v_sharers (view s));
  rv_rest : v_owner (view s') = v_owner (view s) /\ v_info (view s') = v_info (view s) }.

Lemma unshares_revoked s s' b i target v' : valid s -> v_info (view s) b = Some i -> unshares (view s) b i target v' -> view s' = v' ->
  exists B, info_of B = i /\ revoked s target b B s'.
Proof.
  intros Hv Hi (e & pv & nx & hd & tl & He & ->) E. pose proof (inv_graph _ _ _ Hv) as Hg.
  assert (exists o, v_owner (view s) b = Some o) as [o Ho] by (apply (own_info _ (inv_own _ Hg)); eauto).
  destruct (block_view s b i o Hi Ho) as (B & [C1 C2 C3 C4 C5 C6 C7 C8] & Ei & Eo). exists B. split; [done|].
  apply (edge_sharers _ (inv_edge _ Hg)) in He as He'. destruct He' as [_ Ht].
  split; [done|rewrite <- C4; eauto| |by eapply kernel_flags_private| |]; [|rewrite E; unfold reflag, unlinked, relink, drop_edge; vsimpl..];
    [|by rewrite C4|done].
  eapply perm_reflag; [exact E|by apply (edge_as _ (inv_edge _ Hg) e)|]. rewrite <- Ei. done.
Qed.

(** C2: [umem_unshare] and [umem_dropshare] either refuse and change nothing, or
    return 0.  Then the caller had authority over the block, as its owner or as the
    reaper of its dead owner (for a dropped view: was the holder of the view, or its
    reaper), and exactly the named process lost exactly that view: its tree shows the
    kernel's flags there, which carry no user right. *)
Theorem unshare_contract caller base pid s : valid s -> k_held s = [] -> mapped s caller = true ->
  outcome_ok (umem_unshare caller base pid s) (fun rc s' =>
    (rc <> 0 -> untouched s s') /\
    (rc = 0 -> valid s' /\ exists b B, b_base B = base /\ authority (view s) caller (b_owner B) /\ revoked s pid b B s')) /\
  outcome_ok (umem_dropshare caller base pid s) (fun rc s' =>
    (rc <> 0 -> untouched s s') /\
    (rc = 0 -> valid s' /\ exists b B target, b_base B = base /\ (target = caller \/ reaps (view s) caller target) /\ revoked s target b B s')).
Proof.
  intros Hv Hh [m Hm]%mapped_view. split; apply contract.
  - apply (wp_unshare _ _ _ m); [done..| |]; [by intros rc Hrc s' E1 E2|].
    intros b i o v' Hb Hbase Ho Ha Hi' Hu s' E1 E2. split; [done|]. intros _. split; [unfold valid; by rewrite E1, E2|].
    destruct (unshares_revoked s s' b i pid v') as (B & Ei & HR); [done..|]. exists b, B. split_and!; [by subst i| |done].
    destruct (block_columns s b B (rv_block _ _ _ _ _ HR)) as [_ _ C3 _ _ _ _ _]. congruence.
  - apply (wp_dropshare _ _ _ m); [done..| |]; [by intros rc Hrc s' E1 E2|].
    intros target b i v' Ha Hb Hbase Hi' Hu s' E1 E2. split; [done|]. intros _. split; [unfold valid; by rewrite E1, E2|].
    destruct (unshares_revoked s s' b i target v') as (B & Ei & HR); [done..|]. exists b, B, target. by split_and!; [subst i|..].
Qed.

(** ** Allocating and freeing *)

(** C3: [umem_alloc] returns NULL and changes no permission and no block, or it
    returns the base of a fresh block of at least [len] bytes, a power of two of
    pages.  No block touched these bytes before and no process had a user right
    there; now exactly the caller has, with the requested rights; the bytes are all
    zero and no other byte of memory changed. *)
Theorem umem_alloc_contract p len prot s :
  valid s -> k_held s = [] -> mapped s p = true -> prot ∈ prots -> prot <> 0 -> 0 <= len <= 2 ^ 62 ->
  outcome_ok (umem_alloc p len prot s) (fun base s' => valid s' /\
    (view s' = view s /\ base = 0 \/
     exists b B, k_blocks s !! b = None /\ k_blocks s' !! b = Some B /\ b_base B = base /\ b_owner B = p /\ b_sharers B = ∅ /\
       len <= b_bytes B /\ b_bytes B = PAGE_SIZE * 2 ^ b_order B /\
       (forall b' B' a, k_blocks s !! b' = Some B' -> in_ublock B a -> ~ in_ublock B' a) /\
       (forall q a f, 0 <= a < 2 ^ 48 -> in_ublock B a -> perm s q a = Some f -> has f PAGE_U = false) /\
       repermitted s p B (shown (Z.lor prot PAGE_U)) s' /\
       (forall a, k_mem s' a = if decide (in_ublock B a) then 0 else k_mem s a))).
Proof.
  intros Hv Hh [m Hm]%mapped_view Hp Hp0 Hl. apply contract, (wp_alloc _ _ _ m); [done..| |].
  - intros x' Hi' Hr s' E1 E2. split; [unfold valid; by rewrite E1, E2|by left].
  - intros first v' x' Hi' Hr [A1 A2 A3 A4] s' E1 E2. split; [unfold valid; by rewrite E1, E2|right].
    set (b := v_nref (view s)) in *. assert (Hb : v_info (view s') b = Some (ram_block first len) /\ v_owner (view s') b = Some p /\ v_sharers (view s') b = ∅).
    { rewrite E1, A3. unfold born, put_block. vsimpl. by rewrite !fset_eq. }
    destruct Hb as (B1 & B2 & B3). destruct (block_view s' b _ p B1 B2) as (B & [C1 C2 C3 C4 _ _ _ _] & Ei & Eo).
    assert (Hin : forall a, in_ublock B a <-> in_block (ram_block first len) a) by (intros a; by rewrite <- Ei).
    assert (Hfree : forall b' B' a, k_blocks s !! b' = Some B' -> in_ublock B a -> ~ in_ublock B' a).
    { intros b' B' a HB' Ha%Hin. eapply (A2 b' (info_of B') a); [|done]. by apply (cl_info s b' B'), block_columns. }
    exists b, B. split_and!; [|done|by injection Ei|done|congruence| |injection Ei; congruence|done| | |].
    + simpl in A1. by destruct (k_blocks s !! b).
    + injection Ei as _ _ -> _ _ _ _. by apply block_order_fits.
    + intros q a f Ha Hab Hq. apply not_true_is_false. intros Hu. destruct (user_party s q a f) as (b' & B' & HB' & Hx & _); [done..|].
      by eapply Hfree.
    + eapply perm_reflag; [exact E1|by rewrite Hm|]. rewrite A3. injection Ei as -> _ -> _ _ _ _. done.
    + intros a. change (k_mem s') with (x_mem (rest_of s')). rewrite E2, A4. unfold mem_fill. specialize (Hin a). unfold in_block, ram_block in Hin. simpl in Hin.
      destruct (Z.leb_spec (first * PAGE_SIZE) a), (Z.ltb_spec a (first * PAGE_SIZE + PAGE_SIZE * 2 ^ block_order len)); simpl; case_decide as Hc; rewrite Hin in Hc; try done; lia.
Qed.

(** C4: [umem_free] refuses and changes nothing, or returns 0.  Then the caller had
    authority over the block, the block had no sharer, no thread waiting to complete
    in it and no device mapping; the block is gone, its owner sees the kernel's flags
    there, and no other permission of any process is different. *)
Theorem umem_free_contract caller base s : valid s -> k_held s = [] -> mapped s caller = true ->
  outcome_ok (umem_free caller base s) (fun rc s' =>
    (rc <> 0 -> untouched s s') /\
    (rc = 0 -> valid s' /\ exists b B, k_blocks s !! b = Some B /\ b_base B = base /\ authority (view s) caller (b_owner B) /\
       b_sharers B = ∅ /\ b_thread_pins B = 0 /\ b_dma_maps B = None /\ k_blocks s' !! b = None /\
       (forall b', b' <> b -> v_info (view s') b' = v_info (view s) b' /\ v_owner (view s') b' = v_owner (view s) b') /\
       repermitted s (b_owner B) B (shown (b_kernel_flags B)) s')).
Proof.
  intros Hv Hh [m Hm]%mapped_view. pose proof (inv_graph _ _ _ Hv) as Hg. apply contract, (wp_free _ _ m); [done..| |]; [by intros rc Hrc s' E1 E2|].
  intros b i o v' x' Hb Hbase Ho Ha Hi' (F1 & F2 & F3 & u & Hu & ->) Hst s' E1 E2. split; [done|]. intros _.
  split; [unfold valid; by rewrite E1, E2|]. destruct (block_view s b i o Hb Ho) as (B & [C1 C2 C3 C4 C5 C6 C7 C8] & Ei & Eo).
  destruct (disarmed_keeps _ _ _ _ Hu) as (U1 & U2 & _ & _ & U5 & _). exists b, B.
  split_and!; [done|by rewrite <- Ei in Hbase|by rewrite Eo|congruence|congruence|congruence| | |].
  - assert (v_info (view s') b = None) as Hx by (rewrite E1; unfold gone, drop_block; vsimpl; by rewrite fset_eq).
    simpl in Hx. by destruct (k_blocks s' !! b).
  - intros b' Hne. rewrite E1. unfold gone, drop_block, reflag. vsimpl. by rewrite !fset_ne, U1, U2 by done.
  - eapply perm_reflag; [exact E1|rewrite Eo; by apply (own_as _ (inv_own _ Hg) b)|]. unfold gone, drop_block, reflag. vsimpl. by rewrite U5, <- Ei, Eo.
Qed.

End Contracts.

(** ** Examples

    Two processes on the sample machine; the first allocates two pages at 8192 and
    gives the second a read-only view. *)

Module Runs.
Import Sample.

#[local] Existing Instance flat_pages.
#[local] Existing Instance kernel_schemes.
#[local] Existing Instance kernel_safe.

Definition state1 := after (process_create None) state0.
Definition state2 := after (process_create (Some 1)) state1.
Definition state3 := after (umem_alloc 1 5000 3) state2.
Definition state4 := after (umem_share 1 8192 2 1) state3.

Lemma state1_valid : valid state1.
Proof.
  apply (valid_after _ _ 1); [|vm_compute; reflexivity].
  apply wp_create; [apply booted_valid, state0_booted|done|done|done|]. done.
Qed.

Lemma state2_valid : valid state2.
Proof.
  apply (valid_after _ _ 2); [|vm_compute; reflexivity].
  apply wp_create; [exact state1_valid|by intros ? [= <-]|done|done|]. done.
Qed.

Lemma state3_valid : valid state3.
Proof.
  apply (valid_after _ _ 8192); [|vm_compute; reflexivity].
  destruct (mapped_view state2 1) as [m Hm]; [vm_compute; reflexivity|].
  apply (wp_alloc _ _ _ m); [exact state2_valid|done|done|by apply (bool_decide_unpack _)|done|done|done|done].
Qed.

Lemma state4_valid : valid state4.
Proof.
  apply (valid_after _ _ 0); [|vm_compute; reflexivity].
  destruct (mapped_view state3 1) as [m Hm]; [vm_compute; reflexivity|].
  apply (wp_share _ _ _ _ m); [exact state3_valid|exact Hm|vm_compute; reflexivity|by apply (bool_decide_unpack _)|done|intros; exact state3_valid|intros; assumption].
Qed.


Lemma umem_share_contract_witness : exists s', umem_share 1 8192 2 1 state3 = Ret 0 s' /\ valid s' /\ perm s' 2 8200 = Some 9.
Proof.
  destruct (outcome_pick _ _ 0 (umem_share_contract 1 8192 2 1 state3 state3_valid ltac:(vm_compute; reflexivity) ltac:(vm_compute; reflexivity)
    ltac:(by apply (bool_decide_unpack _)) ltac:(done)) ltac:(vm_compute; reflexivity)) as (s' & E & _ & H).
  exists s'. split; [exact E|]. split; [exact (proj1 (H eq_refl))|]. apply (f_equal (fun o => match o with Ret _ s => perm s 2 8200 | _ => None end)) in E.
  rewrite <- E. vm_compute. reflexivity.
Defined.

Lemma unshare_contract_witness : exists s', umem_unshare 1 8192 2 state4 = Ret 0 s' /\ valid s' /\ exists b B, revoked state4 2 b B s'.
Proof.
  destruct (unshare_contract 1 8192 2 state4 state4_valid ltac:(vm_compute; reflexivity) ltac:(vm_compute; reflexivity)) as [HU _].
  destruct (outcome_pick _ _ 0 HU ltac:(vm_compute; reflexivity)) as (s' & E & _ & H).
  exists s'. split; [exact E|]. destruct (H eq_refl) as (Hv & b & B & _ & _ & Hr). exact (conj Hv (ex_intro _ b (ex_intro _ B Hr))).
Defined.

Lemma umem_alloc_contract_witness : exists s', umem_alloc 1 5000 3 state2 = Ret 8192 s' /\ valid s'.
Proof.
  destruct (outcome_pick _ _ 8192 (umem_alloc_contract 1 5000 3 state2 state2_valid ltac:(vm_compute; reflexivity) ltac:(vm_compute; reflexivity)
    ltac:(by apply (bool_decide_unpack _)) ltac:(done) ltac:(done)) ltac:(vm_compute; reflexivity)) as (s' & E & H & _). exact (ex_intro _ s' (conj E H)).
Defined.

Lemma umem_free_contract_witness : exists s', umem_free 1 8192 state3 = Ret 0 s' /\ valid s'.
Proof.
  destruct (outcome_pick _ _ 0 (umem_free_contract 1 8192 state3 state3_valid ltac:(vm_compute; reflexivity) ltac:(vm_compute; reflexivity))
    ltac:(vm_compute; reflexivity)) as (s' & E & _ & H).
  exists s'. exact (conj E (proj1 (H eq_refl))).
Defined.

End Runs.
