(* ===== verification/KernelContracts.v ===== *)
(** * What the whole kernel promises

    Statements about the states of the running kernel and about single entries to it,
    over the table of schemes the kernel has: what a device can reach through the
    remapping unit, what a capability can name, what killing does and that the killed
    do not run on, the order of wake-ups and of dispatch, and the life of processes,
    blocks and device mappings as their callers see them. *)

From S2P Require Import Prelude Buddy Paging Siphash PlatformMem Machine Sched Index Channel Umem Process Capability Irq Iommu Syscall Graph Wp Invariant BaseSpec SchedSpec ChannelSpec UmemSpec BlockSpec MoveSpec ThreadSpec ProcessSpec LifeSpec CallSpec RingSpec RunSpec FutexSpec LoopSpec GrantSpec IrqSpec VtdSpec IommuSpec KernelSpec DispatchSpec Boot Reach Contracts.
Import Forest Claims Slpt Dma.

Section Promises.
Context {PT : PageTree}.
#[local] Existing Instance kernel_schemes.
#[local] Existing Instance kernel_safe.
Implicit Types (s : kstate).

(** ** Direct memory access *)

(** How the remapping unit walks the second-level tables: the leaf that ends the walk
    for [iova], a 2 MiB leaf or a 4 KiB one, with its level. *)
Definition translation (root : list entry) (iova : Z) : option (nat * Z) :=
  match slpt_leaf 2 4 root iova with
  | Some w => Some (2%nat, w)
  | None => (fun w => (1%nat, w)) <$> slpt_leaf 3 4 root iova
  end.

(** The physical address a leaf of level [k] sends [iova] to, and the access it allows:
    bit 0 for reads, bit 1 for writes. *)
Definition target (k : nat) (w iova : Z) : Z := Z.land w VTD_ADDR_MASK + iova mod leaf_span k.
Definition access (w : Z) : Z := Z.land w 3.

(** The domain the unit uses for requests of a function. *)
Definition domain_of s (bus devfn : Z) : option Z := snd <$> ctx_at (vt_contexts (io_vtd (k_iommu s))) bus devfn.

Lemma translation_leaf root iova k w : translation root iova = Some (k, w) -> (1 <= k <= 2)%nat /\ slpt_leaf (4 - k) 4 root iova = Some w.
Proof.
  unfold translation. destruct (slpt_leaf 2 4 root iova) as [w'|] eqn:E2; [intros [= <- <-]; split; [lia|exact E2]|].
  intros (w' & E & E')%fmap_Some. injection E' as -> ->. split; [lia|exact E].
Qed.

Lemma mapped_some sp dma d bs k a w : mapped sp dma d bs k a = Some w ->
  exists b i m, b ∈ bs /\ dma b = Some (i, m) /\ k = leaf_kind sp i /\ in_block i a /\ w = leaf_word k (a / leaf_span k * leaf_span k) (default 0 (m !! d)).
Proof.
  induction bs as [|b bs IH]; cbn [mapped]; [done|]. destruct (leaf_in sp (dma b) d k a) as [w'|] eqn:E.
  - intros [= <-]. unfold leaf_in in E. destruct (dma b) as [[i m]|] eqn:Eb; [|done]. case_decide as Hd; [|done]. destruct Hd as [Ek Hin]. injection E as <-.
    exists b, i, m. split_and!; [by left|done|done|done|done].
  - intros H. destruct (IH H) as (b' & i & m & Hb & H'). exists b', i, m. split; [by right|done].
Qed.

(** The address bits of a page-aligned address. *)
Lemma land_addr to : 0 <= to < 2 ^ 48 -> to mod 4096 = 0 -> Z.land to VTD_ADDR_MASK = to.
Proof.
  intros Ht Hm. pose proof (Z.div_mod to 4096 ltac:(lia)) as E. rewrite Hm, Z.add_0_r in E. set (q := to / 4096) in *.
  change VTD_ADDR_MASK with (Z.shiftl (Z.ones 40) 12). assert (Et : to = Z.shiftl q 12) by (rewrite Z.shiftl_mul_pow2 by lia; lia).
  rewrite Et, <- Z.shiftl_land, Z.land_ones, Z.mod_small by lia. done.
Qed.

(** A leaf made for [a] goes back to [a]. *)
Lemma leaf_target k a p : (1 <= k <= 2)%nat -> 0 <= a < 2 ^ 48 -> 1 <= p <= 3 ->
  target k (leaf_word k (a / leaf_span k * leaf_span k) p) a = a /\ access (leaf_word k (a / leaf_span k * leaf_span k) p) = p.
Proof.
  intros Hk Ha Hp. set (to := a / leaf_span k * leaf_span k).
  assert (Hspan : leaf_span k = 4096 \/ leaf_span k = 4096 * 512) by (unfold leaf_span; case_decide; auto).
  assert (Hto : 0 <= to < 2 ^ 48 /\ to mod 4096 = 0 /\ to + a mod leaf_span k = a).
  { unfold to. pose proof (Z.div_mod a (leaf_span k) ltac:(lia)). pose proof (Z.mod_pos_bound a (leaf_span k) ltac:(lia)).
    split_and!; [apply Z.mul_nonneg_nonneg; [apply Z.div_pos|]; lia|lia| |lia]. destruct Hspan as [-> | ->]; [apply Z.mod_mul; lia|].
    replace (a / (4096 * 512) * (4096 * 512)) with (a / (4096 * 512) * 512 * 4096) by lia. apply Z.mod_mul; lia. }
  destruct Hto as (H1 & H2 & H3). unfold target, access, leaf_word. rewrite !Z.land_lor_distr_l, (land_addr to H1 H2).
  replace (Z.land (if decide (k = 2%nat) then VTD_SL_PS else 0) VTD_ADDR_MASK) with 0 by (case_decide; reflexivity).
  replace (Z.land (if decide (k = 2%nat) then VTD_SL_PS else 0) 3) with 0 by (case_decide; reflexivity).
  rewrite (land_addr to H1 H2). assert (E3 : Z.land to 3 = 0).
  { change 3 with (Z.ones 2). rewrite Z.land_ones by lia. apply Z.mod_divide in H2; [|lia]. apply Z.mod_divide; [lia|]. etransitivity; [|exact H2]. by exists 1024. }
  rewrite E3, !Z.lor_0_r, Z.lor_0_l. assert (p = 1 \/ p = 2 \/ p = 3) as [-> |[-> | ->]] by lia;
    (split; [change (Z.land _ VTD_ADDR_MASK) with 0; rewrite Z.lor_0_r; exact H3|reflexivity]).
Qed.

(** C9: DMA isolation.  In every state of the running kernel, when a request of a
    function reaches memory, the function is attached to a domain, the walk of that
    domain's tables ends in a leaf, the physical address is the address the device
    asked for, it lies in one live block of RAM that is mapped in this very domain, and
    the access allowed is the one given when the block was mapped. *)
Theorem dma_isolation s bus devfn d D iova k w : ready s -> domain_of s bus devfn = Some d -> domain_at (k_iommu s) d = Some D ->
  0 <= iova < 2 ^ 48 -> translation (dm_root D) iova = Some (k, w) ->
  (exists u, u ∈ dm_devices D /\ dv_bus u = bus /\ dv_devfn u = devfn) /\ target k w iova = iova /\
  exists b B maps, k_blocks s !! b = Some B /\ b ∈ dm_mappings D /\ in_ublock B iova /\ b_backing B = UBLOCK_RAM /\
    b_dma_maps B = Some maps /\ maps !! d = Some (access w).
Proof.
  intros [Hi _] Hc HD Ha Hw. destruct (inv_scheme _ _ _ Hi) as [_ _ [_ I2 I3 _]]. change (x_iommu (rest_of s)) with (k_iommu s) in *.
  unfold domain_of in Hc. apply fmap_Some in Hc as ([h d'] & Hc & ->). cbn [snd] in *. destruct (domain_in _ _ _ HD) as [HinD Hd].
  assert (Hone : forall E, E ∈ io_domains (k_iommu s) -> dm_id E = d' -> E = D).
  { intros E HE Ed. pose proof (ms_ids _ _ _ _ I3) as Hnd. rewrite mapping_list in Hnd. assert (HE' : domain_at (k_iommu s) d' = Some E) by (by apply at_split). congruence. }
  destruct (translation_leaf _ _ _ _ Hw) as [Hk Hl]. destruct (ms_tables _ _ _ _ I3 _ _ _ (mapping_in _ _ _ HD)) as [_ [_ Ht]]. rewrite (Ht k iova Hk Ha) in Hl.
  apply mapped_some in Hl as (b & i & m & Hb & Hm & _ & Hin & ->).
  destruct (ms_block _ _ _ _ I3 _ _ _ b (mapping_in _ _ _ HD) Hb) as (i' & m' & p & Hm' & Hp & Hpr & Hdb). rewrite Hm in Hm'. injection Hm' as <- <-.
  rewrite Hp in Hw |- *. change (default 0 (Some p)) with p. destruct (leaf_target k iova p Hk Ha Hpr) as [T1 T2]. rewrite T1, T2. split_and!; [|done|].
  - apply (ds_context _ _ _ _ I2) in Hc as [e He]. unfold attached in He. apply list_elem_of_bind in He as (E & HE & HinE). apply list_elem_of_fmap in HE as (u & Eu & Hu).
    injection Eu as E1 E2 E3 E4 E5. exists u. rewrite <- (Hone E HinE (eq_sym E1)). split_and!; [exact Hu|by symmetry|by symmetry].
  - unfold dma_of in Hm. simpl in Hm. destruct (k_blocks s !! b) as [B|] eqn:EB; [|discriminate Hm]. simpl in Hm.
    destruct (b_dma_maps B) as [m'|] eqn:Em; simpl in Hm; [|discriminate Hm]. injection Hm as <- ->. exists b, B, m. split_and!; try done. exact (db_ram _ Hdb).
Qed.

(** ** Capabilities *)

Lemma narrower_refl a : narrower a a.
Proof. destruct a; simpl; [|done|done]. split_and!; [lia|lia|apply Z.ldiff_diag]. Qed.

Lemma ldiff_trans a b c : Z.ldiff a b = 0 -> Z.ldiff b c = 0 -> Z.ldiff a c = 0.
Proof.
  intros H1 H2. apply Z.bits_inj'. intros n Hn. rewrite Z.bits_0, Z.ldiff_spec. apply (f_equal (fun z => Z.testbit z n)) in H1, H2.
  rewrite Z.bits_0, Z.ldiff_spec in H1, H2. by destruct (Z.testbit a n), (Z.testbit b n), (Z.testbit c n).
Qed.

Lemma narrower_trans a b c : narrower a b -> narrower b c -> narrower a c.
Proof.
  destruct a, b, c; simpl; try done; [|naive_solver congruence|congruence]. intros (A1 & A2 & A3) (B1 & B2 & B3). split_and!; [lia|lia|by eapply ldiff_trans].
Qed.


Lemma difference_refl n : forall l, difference l l n = 0.
Proof. induction n as [|n IH]; intros l; cbn [difference]; [done|]. by rewrite Z.lxor_nilpotent, IH. Qed.

Lemma live_walk_alive s : forall more g, alive (k_grants s) g -> (forall G, k_grants s !! g = Some G -> g_depth G < Z.of_nat more) ->
  forest (k_grants s) (k_next_grant_id s) None -> live_walk more (Some g) s = Ret 0 s.
Proof.
  intros more. induction more as [|more IH]; intros g Ha Hd Hf.
  - destruct Ha as [g G HG _ _|g G p HG _ _ _]; specialize (Hd G HG); pose proof (fo_depth _ _ _ Hf g G HG); lia.
  - inversion Ha as [? G HG Hl Hp|? G p HG Hl Hp Hap]; subst; cbn [live_walk]; unfold mbind, M_bind, get_grant, gets, deref; simpl; rewrite HG; simpl; rewrite Hl, Hp.
    + by destruct more.
    + apply IH; [done| |done]. intros P HP. destruct (fo_parent _ _ _ Hf g G p HG Hp) as (P' & HP' & ED & _). specialize (Hd G HG). rewrite HP in HP'. injection HP' as <-. lia.
Qed.

Lemma length_mac key t : length (token_mac key t) = 16%nat.
Proof. unfold token_mac, siphash128, siphash_core. cbv zeta. rewrite length_app. reflexivity. Qed.

Lemma le_decode_encode n : forall a, 0 <= a < 256 ^ Z.of_nat n -> le_decode (le_encode n a) = a.
Proof.
  induction n as [|n IH]; intros a Ha; cbn [le_encode le_decode]; [simpl in Ha; lia|]. rewrite Nat2Z.inj_succ, Z.pow_succ_r in Ha by lia.
  rewrite IH by (split; [apply Z.div_pos; lia|apply Z.div_lt_upper_bound; lia]). pose proof (Z.div_mod a 256 ltac:(lia)). lia.
Qed.

Lemma decode_encode_token key g : 0 <= g < 2 ^ 64 -> decode_token (encode_token (token_write key g)) = token_write key g.
Proof.
  intros Hg. unfold encode_token, token_write, token_header. cbn [tk_version tk_nres tk_reserved tk_grant_id_le tk_mac].
  set (mac := token_mac key _). assert (Hm : take 16 mac = mac) by (apply take_ge; unfold mac; rewrite length_mac; lia).
  clearbody mac. change (2 ^ 64) with (256 ^ Z.of_nat 8) in Hg. pose proof (le_decode_encode 8 g Hg) as E.
  transitivity (CapToken CAP_TOKEN_VERSION 0 [0; 0; 0; 0; 0; 0] (le_decode (le_encode 8 g)) (take 16 mac)); [reflexivity|]. by rewrite E, Hm.
Qed.

Lemma token_resolves t s g G : tk_version t = CAP_TOKEN_VERSION -> tk_nres t = 0 -> existsb nz (tk_reserved t) = false -> tk_grant_id_le t = g ->
  constant_equal (tk_mac t) (token_mac (k_boot_key s) t) 16 = true -> k_grants s !! g = Some G -> alive (k_grants s) g ->
  forest (k_grants s) (k_next_grant_id s) None -> token_resolve t true (g_type G) s = Ret (0, Some g) s.
Proof.
  intros E1 E2 E3 E4 E5 HG Ha Hf. unfold token_resolve. rewrite E1, E2, E3, E4. cbn [Z.eqb negb orb Pos.eqb CAP_TOKEN_VERSION].
  unfold mbind, M_bind, gets, mret, M_ret. cbv beta iota. rewrite E5. cbv beta iota delta [negb]. rewrite HG, Z.eqb_refl, andb_false_r.
  rewrite (live_walk_alive s _ g Ha); [done| |done]. intros G' HG'. pose proof (fo_depth _ _ _ Hf g G' HG'). unfold KCAP_MAX_DEPTH in *. lia.
Qed.

(** C11: Tokens.  In every state of the running kernel the token written for a live grant
    resolves to that grant, also after it went through memory as 32 bytes; and a token
    that resolves carries the code the kernel computes under its boot key and names a
    grant of the asked type none of whose ancestors was revoked. *)
Theorem token_roundtrip s g G t type : ready s -> k_grants s !! g = Some G -> alive (k_grants s) g ->
  token_resolve (decode_token (encode_token (token_write (k_boot_key s) g))) true (g_type G) s = Ret (0, Some g) s /\
  outcome_ok (token_resolve t true type s) (fun r s' => untouched s s' /\
    (r.1 = 0 -> exists h H, r.2 = Some h /\ tk_grant_id_le t = h /\ k_grants s !! h = Some H /\ (type = 0 \/ g_type H = type) /\ alive (k_grants s) h /\
       constant_equal (tk_mac t) (token_mac (k_boot_key s) t) 16 = true)).
Proof.
  intros [Hi _] HG Ha. destruct (inv_scheme _ _ _ Hi) as [Hf _ _]. split.
  - change (grants_ok (rest_of s)) with (forest (k_grants s) (k_next_grant_id s) None) in Hf. destruct (fo_id _ _ _ Hf g G HG) as (_ & Hg & _).
    rewrite decode_encode_token by lia. apply token_resolves; try done. unfold constant_equal. cbn [token_write tk_mac].
    change (token_mac (k_boot_key s) (token_write (k_boot_key s) g)) with (token_mac (k_boot_key s) (CapToken CAP_TOKEN_VERSION 0 [0; 0; 0; 0; 0; 0] g [])).
    by rewrite difference_refl.
  - apply contract, wp_token_resolve; [exact Hf|intros rc Hrc s' E1 E2; split; [done|by intros]|].
    intros h Hh Hmac (H & HH & Ht & Hal) s' E1 E2. split; [done|]. intros _. exists h, H. split_and!; try done. by apply Hal.
Qed.

(** ** Death *)

Lemma eff_dead_descends v q p : descends v q p -> eff_dead v p -> eff_dead v q.
Proof. induction 1 as [q p E|q r p E _ IH]; intros Hd; [by eapply dead_above|]. eapply dead_above; [exact E|by apply IH]. Qed.

Lemma slain_dead v p v' : slain v p v' -> v_par v' = v_par v /\ (forall q, eff_dead v' q <-> eff_dead v q \/ q = p \/ descends v q p).
Proof.
  intros (w & Hk & (pv & nx & nt & hd & tl & dn & ->)). unfold relink.
  assert (Hw : v_par w = v_par v /\ forall q, eff_dead w q <-> eff_dead v q \/ q = p \/ descends v q p).
  { destruct Hk as [[-> Hd]| ->].
    - split; [done|]. intros q. split; [by left|]. intros [H|[->|H]]; [done|done|by eapply eff_dead_descends].
    - split; [done|]. intros q. split.
      + induction 1 as [q Hq|q r Hq _ IH]; vsimpl_in Hq.
        * unfold fset in Hq. case_decide as E; [auto|]. left. by apply dead_here.
        * destruct IH as [IH|[->|IH]]; [left; by eapply dead_above|right; right; by apply descends_child|right; right; by eapply descends_below].
      + assert (Hp : eff_dead (upd_v_dead (fset p true) v) p) by (apply dead_here; vsimpl; by rewrite fset_eq).
        intros [H|[->|H]]; [|done|].
        * induction H as [q Hq|q r Hq _ IH]; [apply dead_here; vsimpl; unfold fset; by case_decide|by eapply dead_above].
        * induction H as [q r E|q r' r E _ IH]; by eapply dead_above; eauto. }
  destruct Hw as [E Hw]. split; [vsimpl; done|]. intros q. rewrite <- Hw. split.
  - induction 1 as [q Hq|q r Hq _ IH]; vsimpl_in Hq; [by apply dead_here|by eapply dead_above].
  - induction 1 as [q Hq|q r Hq _ IH]; [apply dead_here; by vsimpl|eapply dead_above; [by vsimpl|done]].
Qed.

(** C12: Killing.  [proc_sys_kill] refuses and changes nothing, or returns 0; then the
    victim was a proper descendant of the caller's process, and exactly the victim and
    its descendants are dead that were not before. *)
Theorem kill_contract curr T pid s : ready s -> k_threads s !! curr = Some T ->
  outcome_ok (proc_sys_kill curr pid s) (fun rc s' =>
    (rc <> 0 -> untouched s s') /\
    (rc = 0 -> ready s' /\ descends (view s) pid (t_proc T) /\
       forall q, eff_dead (view s') q <-> eff_dead (view s) q \/ q = pid \/ descends (view s) q pid)).
Proof.
  intros [Hi Hx] HT. pose proof (inv_graph _ _ _ Hi) as Hg. apply contract.
  eapply (wp_kill curr T); [done|exact HT|by eapply sched_live; [apply Hi|apply Hg|apply Hg|exact HT]|done|by intros rc Hrc s' E1 E2|].
  intros v' x' Hi' Hd Hsl Hc s' E1 E2. split; [done|]. intros _. split_and!; [|done|rewrite E1; by apply slain_dead].
  unfold ready. rewrite E1, E2. split; [done|]. by rewrite (calm_held _ _ Hc).
Qed.

(** [m] does not return: it gives the processor away, and the scheduler, back on its own
    stack, ends the switch in a state with [P]. *)
Definition gives_way {A} (m : M A) s (P : kstate -> Prop) : Prop :=
  match m s with
  | Ret _ _ => False
  | Park s1 => outcome_ok (scheduler_back s1) (fun _ s2 => P s2)
  | Halt h _ => tolerated h
  end.

(** C13: The dead do not run on.  When a thread of a process that was killed, or of a
    descendant of one, enters the kernel by any system call, it does not come back:
    it parks, and when the scheduler has taken over the thread no longer exists. *)
Theorem dead_threads_end s t T tf : ready s -> current s = Some t -> k_threads s !! t = Some T -> eff_dead (view s) (t_proc T) ->
  gives_way (syscall_entry tf) s (fun s2 => ready s2 /\ k_threads s2 !! t = None).
Proof.
  intros [Hi Hx] Hc%current_column HT Hd. pose proof (inv_graph _ _ _ Hi) as Hg.
  destruct (on_cpu_thread _ _ t [] [] (inv_sched _ _ _ Hi) Hc) as [T' Ho]. pose proof Ho as [O1 O2 O3]. assert (T' = T) as -> by (simpl in O2; congruence).
  assert (H : wpk (syscall_entry tf) (fun _ _ _ => False) (departing t) (view s) (rest_of s)).
  { apply wpk_seq. eapply wp_current; [apply Hi|exact Hc|]. apply wpk_seq, wp_asserts; [apply bool_decide_eq_true; by eexists|].
    apply wpk_seq. eapply wp_deref; [done|]. apply wpk_seq. eapply wp_get_thread; [exact O2|].
    apply wpk_seq, wp_is_dead; [apply Hg|apply Hg|by eapply sched_live; [apply Hi|apply Hg|apply Hg|exact O2]|].
    intros [] Hb; [by eapply wpk_gone|]. exfalso. by apply Hb in Hd. }
  specialize (H s eq_refl eq_refl). unfold gives_way. destruct (syscall_entry tf s) as [a s1|s1|h s1]; [exact H| |exact H]. exact (H s1 eq_refl eq_refl).
Qed.

(** ** Unknown calls *)

Lemma unknown_value curr nr a0 a1 a2 a3 T Q v x : x_threads x !! curr = Some T -> (nr < 0 \/ 31 < nr) -> Q SYSERR_NOSYS v x -> wp (syscall_value curr nr a0 a1 a2 a3) Q v x.
Proof.
  intros HT Hn H. apply wp_bind. eapply wp_get_thread; [exact HT|]. cbv zeta.
  repeat match goal with |- wp (if nr =? ?c then _ else _) _ _ _ => destruct (Z.eqb_spec nr c) as [E|_]; [exfalso; revert E; unfold c; lia|] end. by apply wp_ret.
Qed.

(** C19: An unknown call.  A live thread that enters the kernel with a number the kernel
    has no call for gets [SYSERR_NOSYS] in [rax], every other register as it was, and
    nothing changed. *)
Theorem unknown_syscall s t T tf : ready s -> current s = Some t -> k_threads s !! t = Some T -> ~ eff_dead (view s) (t_proc T) ->
  (f_rax tf < 0 \/ 31 < f_rax tf) -> outcome_ok (syscall_entry tf s) (fun tf' s' => tf' = set_rax SYSERR_NOSYS tf /\ untouched s s').
Proof.
  intros [Hi Hx] Hc%current_column HT Hd Hn. pose proof (inv_graph _ _ _ Hi) as Hg. apply contract.
  apply wp_bind. eapply wp_current; [apply Hi|exact Hc|]. apply wp_bind, wp_asserts; [apply bool_decide_eq_true; by eexists|].
  apply wp_bind. eapply wp_deref; [done|]. apply wp_bind. eapply wp_get_thread; [exact HT|].
  apply wp_bind, wp_is_dead; [apply Hg|apply Hg|by eapply sched_live; [apply Hi|apply Hg|apply Hg|exact HT]|]. intros [] Hb; [by apply proj1 in Hb; destruct Hd; apply Hb|].
  cbv zeta. repeat match goal with |- wp (if f_rax tf =? ?c then _ else _) _ _ _ => destruct (Z.eqb_spec (f_rax tf) c) as [E|_]; [exfalso; revert E; unfold c; lia|] end.
  apply wp_bind, wp_when; [intros E%Z.eqb_eq; exfalso; revert E; unfold SYS_FUTEX_WAIT; lia|]. intros _.
  apply wp_bind. eapply unknown_value; [exact HT|done|]. apply wp_ret. intros s' E1 E2. done.
Qed.

(** ** Waking and dispatching *)

(** Thread [t] waits on [addr] with ticket [n]; tickets are given in order of arrival. *)
Definition waits s (addr n t : Z) : Prop := waiting (k_futex s) (bucket_index (k_futex_key s) addr) (addr, n) t.

(** C17: Wake-ups are first come, first served.  [wake_batch] takes at most [count]
    waiters of [addr], and at most a batch, in the order in which they arrived; fewer
    only when none is left.  Each taken thread of a live process becomes runnable with
    0 in its saved [rax]; the waiters that stay all arrived later, and no thread but
    the taken ones is different. *)
Theorem futex_wake_fifo addr count s : ready s ->
  outcome_ok (wake_batch addr count s) (fun n s' => exists tickets batch, n = Z.of_nat (length batch) /\ ready s' /\
    (length batch <= Z.to_nat (Z.min count FUTEX_WAKE_BATCH))%nat /\ StronglySorted Z.lt tickets /\ Forall2 (fun k t => waits s addr k t) tickets batch /\
    (forall k t, waits s' addr k t <-> waits s addr k t /\ k ∉ tickets) /\
    (forall k t, waits s' addr k t -> Forall (fun k' => k' < k) tickets /\ length batch = Z.to_nat (Z.min count FUTEX_WAKE_BATCH)) /\
    (forall u, u ∉ batch -> k_threads s' !! u = k_threads s !! u) /\
    (forall t, t ∈ batch -> exists T T', k_threads s !! t = Some T /\ k_threads s' !! t = Some T' /\
       (~ eff_dead (view s) (t_proc T) -> t_status T' = THREAD_RUNNABLE /\ t_frame T' = set_rax 0 (t_frame T)))).
Proof.
  intros [Hi Hx]. pose proof (inv_graph _ _ _ Hi) as Hg. apply contract. apply wp_wake_batch; [apply Hi|apply Hg|apply Hg|apply Hg|rewrite Hx; constructor|].
  intros x' batch Hs Hc [(bk & tickets & Hh & [O1 O2 O3 O4 O5 O6]) W2 W3] s' E1 E2. exists tickets, batch.
  assert (Ek : k_futex_key s' = k_futex_key s) by (change (x_futex_key (rest_of s') = x_futex_key (rest_of s)); rewrite E2; by apply calm_key).
  assert (bk = bucket_index (k_futex_key s) addr) as -> by (by eapply home_eq; [exact Hh|constructor]).
  assert (Ef : k_futex s' = x_futex x') by (by rewrite <- E2). assert (Et : k_threads s' = x_threads x') by (by rewrite <- E2).
  unfold waits. rewrite Ek, Ef, Et. split_and!; try done.
  - unfold ready. rewrite E1, E2. split; [by eapply inv_same|by rewrite (calm_held _ _ Hc)].
  - intros k t. rewrite O3. simpl. naive_solver.
  - intros k t Hw. split; [by eapply O4|]. destruct (decide (length batch < Z.to_nat (Z.min count FUTEX_WAKE_BATCH))%nat) as [Hl|]; [|lia]. by destruct (O6 Hl k t).
  - intros t Ht. destruct (W3 t Ht) as (T & T' & H1 & H2 & _ & H3). by exists T, T'.
Qed.

(** The run queue of the processor at hand. *)
Definition queue s : list Z := default [] (c_queue <$> k_cpus s !! k_this s).


(** ** Blocks and processes *)

(** What process [q]'s tree shows at [a]. *)
Definition shows (v : gview) (q a : Z) : option Z := (fun m => m a) <$> v_map v q.

Lemma shows_reflag v p lo hi f q a : is_Some (v_map v p) -> 0 <= a < 2 ^ 48 ->
  shows (reflag p lo hi f v) q a = if decide (q = p /\ lo <= a < hi) then Some (shown f) else shows v q a.
Proof.
  intros [m Hm] Ha. unfold shows, reflag. vsimpl. unfold fset. destruct (decide (q = p)) as [->|Hq]; [|by rewrite decide_False by naive_solver].
  rewrite Hm. simpl. destruct (decide (lo <= a < hi)) as [Hin|Hout]; [rewrite flagged_in, decide_True by done; done|rewrite flagged_out, decide_False by naive_solver; done].
Qed.

Lemma shows_moves v b from to i v' q a : moves v b from to i v' -> is_Some (v_map v from) -> is_Some (v_map v to) -> 0 <= a < 2 ^ 48 ->
  shows v' q a = if decide (q = to /\ in_block i a) then Some (shown (moved_flags i))
    else if decide (q = from /\ in_block i a) then Some (shown (i_kernel_flags i)) else shows v q a.
Proof.
  intros (u & Hu & ->) Hf Ht Ha. assert (Hmu : forall p, is_Some (v_map v p) -> is_Some (v_map u p)).
  { intros p Hp. destruct Hu as [[_ ->]|Hu]; [done|]. by apply (unshares_cols _ _ _ _ _ Hu). }
  unfold moved. change (shows (upd_v_pblocks _ (upd_v_owner _ ?w)) q a) with (shows w q a).
  rewrite shows_reflag by (try done; by apply reflag_maps, Hmu). fold (in_block i a). case_decide as E1; [done|].
  rewrite shows_reflag by (try done; by apply Hmu). fold (in_block i a). case_decide as E2; [done|].
  destruct Hu as [[_ ->]|(e & pv & nx & hd & tl & _ & ->)]; [done|]. rewrite shows_reflag by done. fold (in_block i a). by rewrite decide_False.
Qed.

(** C14: Moving a block.  [proc_sys_vm_move] refuses and changes nothing, or returns 0.
    Then the block at [base] was the caller's, plain, delegatable and not retained by a
    device, and the receiver is a live child of the caller's process; the child now
    owns it with the rights of a fresh block, the caller's process has lost every user
    right there, and no other permission of any process is different. *)
Theorem move_contract curr T base pid s : ready s -> k_threads s !! curr = Some T -> t_status T = THREAD_RUNNING ->
  outcome_ok (proc_sys_vm_move curr base pid s) (fun rc s' =>
    (rc <> 0 -> untouched s s') /\
    (rc = 0 -> ready s' /\ exists b B, k_blocks s !! b = Some B /\ b_base B = base /\ b_owner B = t_proc T /\ v_par (view s) pid = Some (t_proc T) /\
       ~ eff_dead (view s) pid /\ b_dma_maps B = None /\ b_thread_pins B = 0 /\ b_delegatable B = true /\ v_owner (view s') b = Some pid /\
       (forall q a, 0 <= a < 2 ^ 48 -> perm s' q a =
          if decide (q = pid /\ in_ublock B a) then Some (shown (moved_flags (info_of B)))
          else if decide (q = t_proc T /\ in_ublock B a) then Some (shown (b_kernel_flags B)) else perm s q a) /\
       has (shown (b_kernel_flags B)) PAGE_U = false)).
Proof.
  intros [Hi Hx] HT Hr. pose proof (inv_graph _ _ _ Hi) as Hg. destruct (caller_made _ _ curr T Hi HT Hr) as [m Hc]. apply contract.
  eapply (wp_vm_move curr T m); [done|done|done|by intros rc Hrc s' E1 E2|].
  intros b i v' Hbi Hbase Ho Hpar Hnd Hdma Hpin Hdel Hi' (u & Hu & Ev') s' E1 E2. split; [done|]. intros _.
  split; [unfold ready; rewrite E1, E2; by split|]. destruct (block_view s b i _ Hbi Ho) as (B & [C1 C2 C3 C4 C5 C6 C7 C8] & Ei & Eo). exists b, B.
  assert (Hne : pid <> t_proc T) by (intros ->; destruct (tree_up _ (inv_tree _ Hg) _ _ Hpar); lia).
  assert (Hmp : is_Some (v_map (view s) pid)).
  { destruct (v_map (view s) pid) eqn:E; [eauto|]. exfalso. apply Hnd, (reg_gone _ (inv_reg _ Hg)); [|done]. by destruct (tree_up _ (inv_tree _ Hg) _ _ Hpar) as (_ & _ & ?). }
  split_and!; try done; try congruence; try (by rewrite <- Ei in Hbase, Hdel).
  - rewrite E1, Ev'. unfold moved. vsimpl. by rewrite fset_eq.
  - intros q a Ha. change (perm s' q a) with (shows (view s') q a). rewrite E1, (shows_moves _ _ _ _ _ _ q a ltac:(by exists u)); [by rewrite <- Ei|by exists m; apply Hc|done|done].
  - by eapply kernel_flags_private.
Qed.

Lemma shows_aliased v lo hi f q a : 0 <= a < 2 ^ 48 -> ~ lo <= a < hi -> shows (aliased lo hi f v) q a = shows v q a.
Proof. intros Ha Hout. unfold shows, aliased. vsimpl. destruct (v_map v q); simpl; [|done]. by rewrite flagged_out. Qed.

(** C15: Mapping device memory.  [cap_map_device] refuses, and then no block has come or
    gone, or returns 0.  Then the 32 bytes the caller pointed at are a token whose code
    verifies, it names a live grant for exactly this range with at least these rights,
    and the platform's policy admits the range; no block touched the range; the caller
    now owns it as a device block with the rights asked for, no other process has a
    user right there, and outside the range no permission of any process is different. *)
Theorem map_device_contract p ptr len flags s : ready s -> Contracts.mapped s p = true -> word64 ptr -> 0 <= flags < 2 ^ 32 ->
  outcome_ok (cap_map_device p ptr len flags s) (fun rc s' => ready s' /\
    (rc <> 0 -> v_info (view s') = v_info (view s) /\ v_owner (view s') = v_owner (view s)) /\
    (rc = 0 -> exists g b B, token_for (rest_of s) (mem_read (k_mem s) ptr 32) g /\ device_granted (rest_of s) flags g (b_base B) (b_bytes B) /\
       is_Some (platform_mem_validate_device (k_platform s) (b_base B) (b_bytes B) flags) /\
       k_blocks s !! b = None /\ k_blocks s' !! b = Some B /\ b_owner B = p /\ b_backing B = UBLOCK_DEVICE /\ b_sharers B = ∅ /\
       (forall b' B' a, k_blocks s !! b' = Some B' -> in_ublock B a -> ~ in_ublock B' a) /\
       (forall a, 0 <= a < 2 ^ 48 -> in_ublock B a -> perm s' p a = Some (shown (Z.lor (device_rights flags) PAGE_U))) /\
       (forall q a f, q <> p -> 0 <= a < 2 ^ 48 -> in_ublock B a -> perm s' q a = Some f -> has f PAGE_U = false) /\
       (forall q a, 0 <= a < 2 ^ 48 -> ~ in_ublock B a -> perm s' q a = perm s q a))).
Proof.
  intros [Hi Hx] [m Hm]%mapped_view Hp Hf. apply contract, (wp_cap_map_device p ptr len flags m); [done..| |].
  - intros rc v' Hrc Hi' Hv' s' E1 E2. split_and!; [unfold ready; rewrite E1, E2; by split| |done]. intros _. rewrite E1. by destruct Hv' as [->|(lo & n & kf & ->)].
  - intros g base n v' Htok Hdg Hi' (kf & dl & Hval & Hclear & Ev) s' E1 E2. assert (Hr : ready s') by (unfold ready; rewrite E1, E2; by split).
    split_and!; [done|done|]. intros _. set (b := v_nref (view s)) in *.
    assert (Hb : v_info (view s') b = Some (device_block base n flags kf dl) /\ v_owner (view s') b = Some p /\ v_sharers (view s') b = ∅).
    { rewrite E1, Ev. unfold born, put_block. vsimpl. by rewrite !fset_eq. }
    destruct Hb as (B1 & B2 & B3). destruct (block_view s' b _ p B1 B2) as (B & [C1 C2 C3 C4 _ _ _ _] & Ei & Eo).
    assert (Eb : b_base B = base /\ b_bytes B = n /\ b_backing B = UBLOCK_DEVICE) by (by injection Ei). destruct Eb as (Eb & En & Ek).
    exists g, b, B. rewrite Eb, En. assert (Hold : k_blocks s !! b = None).
    { destruct (block_fresh (view s) b) as (Hn & _); [by apply (proj1 (graph_split _)), Hi|unfold b; lia|]. simpl in Hn. by destruct (k_blocks s !! b). }
    assert (Hin : forall a, in_ublock B a <-> base <= a < base + n) by (intros a; unfold in_ublock; by rewrite Eb, En).
    assert (Emap : forall q a, perm s' q a = shows (reflag p base (base + n) (Z.lor (device_rights flags) PAGE_U) (aliased base (base + n) kf (view s))) q a).
    { intros q a. change (perm s' q a) with (shows (view s') q a). by rewrite E1, Ev. }
    assert (Hma : is_Some (v_map (aliased base (base + n) kf (view s)) p)) by (apply aliased_maps; eauto).
    split_and!; try done; [congruence|..].
    + intros b' B' a HB' Ha%Hin. eapply (Hclear b' (info_of B') a); [|done]. by apply (cl_info s b' B'), block_columns.
    + intros a Ha Hab%Hin. by rewrite Emap, shows_reflag, decide_True.
    + intros q a f Hq Ha Hab Hqf. apply not_true_is_false. intros Hu. destruct (user_party s' q a f (proj1 Hr) Ha Hqf Hu) as (b' & B' & HB' & Hin' & Hpt).
      assert (b' = b) as -> by (exact (one_block s' b' b B' B a (proj1 Hr) HB' C1 Hin' Hab)). assert (B' = B) as -> by congruence. destruct Hpt as [Hpt|[e Hpt]]; [congruence|].
      rewrite <- C4, B3, lookup_empty in Hpt. done.
    + intros q a Ha Hout. rewrite Hin in Hout. rewrite Emap, shows_reflag, decide_False by (try done; naive_solver). by rewrite shows_aliased.
Qed.

(** C16: Creating a process.  [process_create] gives a fresh pid; the new process lives
    under its parent, has no block, no view and no thread, and no user right anywhere;
    nobody else's permission is different. *)
Theorem process_create_contract parent s : ready s -> (forall q, parent = Some q -> live (view s) q) -> 0 < k_next_pid s < 2 ^ 64 - 1 ->
  outcome_ok (process_create parent s) (fun p s' => ready s' /\ k_procs s !! p = None /\ live (view s') p /\ v_par (view s') p = parent /\
    v_pblocks (view s') p = ∅ /\ v_views (view s') p = ∅ /\
    (forall a, 0 <= a < 2 ^ 48 -> exists f, perm s' p a = Some f /\ has f PAGE_U = false) /\
    (forall q a, q <> p -> perm s' q a = perm s q a)).
Proof.
  intros [Hi Hx] Hpar Hn. pose proof (inv_graph _ _ _ Hi) as Hg. apply contract, wp_create; [done|done|done|done|].
  intros a Ha Hi' s' E1 E2. set (p := v_npid (view s)) in *.
  assert (Hno : k_procs s !! p = None).
  { destruct (k_procs s !! p) as [P|] eqn:EP; [|done]. destruct (reg_pid (view s) (inv_reg _ Hg) p (p_pid P)) as [_ Hlt]; [simpl; by rewrite EP|]. unfold p in Hlt. lia. }
  assert (Ew : v_pid (view s') = fset p (Some p) (v_pid (view s)) /\ v_map (view s') = fset p (Some (as_map a)) (v_map (view s)) /\
    v_par (view s') = fset p parent (v_par (view s)) /\ v_pblocks (view s') = fset p ∅ (v_pblocks (view s)) /\ v_views (view s') = fset p ∅ (v_views (view s))).
  { rewrite E1. unfold newborn, put_proc. by destruct parent; vsimpl. }
  destruct Ew as (W1 & W2 & W3 & W4 & W5). unfold live, perm. rewrite W1, W2, W3, W4, W5, !fset_eq.
  split_and!; try done; [unfold ready; rewrite E1, E2; by split|..].
  - intros b Hb. exists (as_map a b). split; [done|]. rewrite Ha. by apply (map_kernel _ (inv_map _ Hg)).
  - intros q b Hq. by rewrite fset_ne.
Qed.

End Promises.

(** ** The theorems at work

    Runs of the sample machine.  Process 1 makes the endpoints of the capability and the
    remapping schemes, writes requests into their rings and rings them; it makes a
    child; one thread sleeps on a word; or it exits while its other thread runs. *)
Module Stories.
Import Boot.Sample Reach.Walk.

#[local] Existing Instance flat_pages.
#[local] Existing Instance kernel_schemes.
#[local] Existing Instance kernel_safe.

(** What a call returned, if it did. *)
Definition returned {A} (m : M A) (s : kstate) : option A := match m s with Ret a _ => Some a | _ => None end.

Lemma at_return {A} (m : M A) s a P : returned m s = Some a -> outcome_ok (m s) P -> exists s', m s = Ret a s' /\ P a s'.
Proof. unfold returned. intros E H. destruct (m s) as [b s'| |]; [|done|done]. injection E as ->. by exists s'. Qed.

Lemma played l : playable l start = true -> ready (play l start).
Proof. intros H. exact (ready_steps _ _ start_ready (play_steps _ _ H)). Qed.

(** Words into memory, the token of grant [g], and the tail of a ring. *)
Definition words (a : Z) (l : list Z) : move := Store a (mjoin (le_encode 8 <$> l)).
Definition token (a g : Z) : move := Store a (encode_token (token_write (replicate 16 9) g)).
Definition submit (ring n : Z) : list move := [Store (ring + KRING_SQ_TAIL_OFF) (le_encode 4 n); Call 1 SYS_FUTEX_WAKE (ring + KRING_SQ_TAIL_OFF) 1 0 0].

(** Both processors run a thread of process 1. *)
Definition both : list move := [Round; Turn 1; Round; Turn 0].

(** Thread [t] as it was started. *)
Definition runner (t : Z) : thread :=
  Thread t 1 THREAD_RUNNING true (0, 0) 0 0 FUTEX_IDLE None 0 (TrapFrame 0 0 0 0 0 0 0 0 0 0 0 0 0 0 0 0 4096 43 514 8192 35) 0 0.

(** Grants 1 to 3 are the roots.  Grant 4 is two pages of device memory, grant 5 its
    second page for reading only, grant 6 function 1.0 of bus 0. *)
Definition grants : list move := both ++
  [Call 1 SYS_VM_ALLOC 4096 3 0 0; Call 1 SYS_VM_SHARE 4096 (2 ^ 64 - 2) 0 0; token 6400 1; token 7096 3;
   words 6496 [2304; 32; 0xC0000000; 8192; 3; 7; 0]; words 6592 [2336; 32; 0xC0001000; 4096; 1; 7; 0]; words 6656 [3000; 32; 8; 0; 0; 1; 0];
   words 4160 [KCAP_SUBGRANT; 2400; 0; 2336; KCAP_SUBGRANT; 2496; 0; 2368; KCAP_SUBGRANT; 2560; 0; 3040]] ++ submit 4096 3.

(** A domain, the function attached to it, a block mapped in it for reading and writing. *)
Definition dma : list move := grants ++
  [Call 1 SYS_VM_ALLOC 4096 3 0 0; Call 1 SYS_VM_SHARE 8192 (2 ^ 64 - 6) 0 0; Call 1 SYS_VM_ALLOC 4096 3 0 0; token 10496 6; words 10592 [7; 2304; 32; 99];
   words 8256 [KIOMMU_DOMAIN_CREATE; 7; 0; 0; KIOMMU_DEVICE_ATTACH; 2400; 0; 0; KIOMMU_MAP_BLOCK; 7; 12288; 3]] ++ submit 8192 3.

Definition granting := play grants start.
Definition remapping := play dma start.

Lemma granting_ready : ready granting.
Proof. unfold granting. apply (played grants). vm_compute. reflexivity. Qed.

Lemma remapping_ready : ready remapping.
Proof. unfold remapping. apply (played dma). vm_compute. reflexivity. Qed.

Lemma in_space : 0 <= 12300 < 2 ^ 48.
Proof. lia. Qed.

Lemma both_facts {A B C} (o : option A) (b b' : B) (f : A -> C) c : (fun a => (b, f a)) <$> o = Some (b', c) -> b = b' /\ exists a, o = Some a /\ f a = c.
Proof. intros (a & -> & [= -> ->])%fmap_Some. split; [done|by exists a]. Qed.

Lemma remapping_domain : domain_of remapping 0 8 = Some 1 /\ exists D, domain_at (k_iommu remapping) 1 = Some D /\ translation (dm_root D) 12300 = Some (1%nat, 12291).
Proof. apply both_facts. vm_compute. reflexivity. Qed.

Lemma dma_isolation_witness : exists b B, k_blocks remapping !! b = Some B /\ in_ublock B 12300 /\ b_backing B = UBLOCK_RAM.
Proof.
  destruct remapping_domain as (Ec & D & HD & Et).
  destruct (dma_isolation remapping 0 8 1 D 12300 1 12291 remapping_ready Ec HD in_space Et) as (_ & _ & b & B & maps & H1 & _ & H2 & H3 & _).
  exists b, B. exact (conj H1 (conj H2 H3)).
Defined.

Definition part (id depth base len flags parent : Z) (child : option Z) : grant := Grant id KCAP_GRANT_DEVMEM depth false false (GDevmem base len flags) (Some parent) child None None.

Lemma granting_parts : k_grants granting !! 4 = Some (part 4 1 0xC0000000 8192 3 1 (Some 5)) /\ k_grants granting !! 5 = Some (part 5 2 0xC0001000 4096 1 4 None).
Proof. vm_compute. split; reflexivity. Qed.


Definition root (id type : Z) (payload : grant_payload) (child : option Z) : grant := Grant id type 0 true false payload None child None None.

Lemma token_roundtrip_witness :
  token_resolve (decode_token (encode_token (token_write (k_boot_key granting) 5))) true KCAP_GRANT_DEVMEM granting = Ret (0, Some 5) granting.
Proof.
  destruct granting_parts as [H4 H5].
  assert (H1 : k_grants granting !! 1 = Some (root 1 KCAP_GRANT_DEVMEM (GDevmem 0 0 0) (Some 4))) by (vm_compute; reflexivity).
  pose proof (alive_child _ 4 _ 1 H4 eq_refl eq_refl (alive_root _ 1 _ H1 eq_refl eq_refl)) as Ha.
  exact (proj1 (token_roundtrip granting 5 _ (CapToken 0 0 [] 0 []) 0 granting_ready H5 (alive_child _ 5 _ 4 H5 eq_refl eq_refl Ha))).
Defined.

Lemma map_device_contract_witness : exists s' b B, cap_map_device 1 6432 32 3 granting = Ret 0 s' /\ k_blocks s' !! b = Some B /\ b_owner B = 1 /\
  b_backing B = UBLOCK_DEVICE.
Proof.
  assert (Hm : Contracts.mapped granting 1 = true) by (vm_compute; reflexivity).
  assert (Hr : returned (cap_map_device 1 6432 32 3) granting = Some 0) by (vm_compute; reflexivity).
  destruct (at_return _ _ _ _ Hr (map_device_contract 1 6432 32 3 granting granting_ready Hm ltac:(unfold word64; lia) ltac:(lia))) as (s' & E & _ & _ & H).
  destruct (H eq_refl) as (g & b & B & _ & _ & _ & _ & H1 & H2 & H3 & _). exists s', b, B. exact (conj E (conj H1 (conj H2 H3))).
Defined.

(** Process 1 has a child and a block. *)
Definition family := both ++ [Call 1 SYS_PROC_CREATE 0 0 0 0; Call 1 SYS_VM_ALLOC 4096 3 0 0].
Definition parent := play family start.

Lemma parent_ready : ready parent.
Proof. unfold parent. apply (played family). vm_compute. reflexivity. Qed.

Lemma parent_thread : k_threads parent !! 1 = Some (runner 1).
Proof. vm_compute. reflexivity. Qed.

Lemma kill_contract_witness : exists s', proc_sys_kill 1 2 parent = Ret 0 s' /\ ready s' /\ eff_dead (view s') 2.
Proof.
  assert (Hr : returned (proc_sys_kill 1 2) parent = Some 0) by (vm_compute; reflexivity).
  destruct (at_return _ _ _ _ Hr (kill_contract 1 (runner 1) 2 parent parent_ready parent_thread)) as (s' & E & _ & H).
  destruct (H eq_refl) as (H1 & _ & H2). exists s'. exact (conj E (conj H1 (proj2 (H2 2) (or_intror (or_introl eq_refl))))).
Defined.

Lemma move_contract_witness : exists s' b, proc_sys_vm_move 1 4096 2 parent = Ret 0 s' /\ ready s' /\ v_owner (view s') b = Some 2.
Proof.
  assert (Hr : returned (proc_sys_vm_move 1 4096 2) parent = Some 0) by (vm_compute; reflexivity).
  destruct (at_return _ _ _ _ Hr (move_contract 1 (runner 1) 4096 2 parent parent_ready parent_thread eq_refl)) as (s' & E & _ & H).
  destruct (H eq_refl) as (H1 & b & B & _ & _ & _ & _ & _ & _ & _ & _ & H2 & _). exists s', b. exact (conj E (conj H1 H2)).
Defined.

Lemma process_create_contract_witness : exists s', process_create (Some 1) parent = Ret 3 s' /\ ready s' /\ v_par (view s') 3 = Some 1.
Proof.
  assert (Hl : live (view parent) 1) by (vm_compute; reflexivity).
  assert (Hn : k_next_pid parent = 3) by (vm_compute; reflexivity).
  assert (Hr : returned (process_create (Some 1)) parent = Some 3) by (vm_compute; reflexivity).
  assert (Hb : 0 < k_next_pid parent < 2 ^ 64 - 1) by (rewrite Hn; lia).
  assert (Hp : forall q, Some 1 = Some q -> live (view parent) q) by (intros q [= <-]; exact Hl).
  destruct (at_return _ _ _ _ Hr (process_create_contract (Some 1) parent parent_ready Hp Hb)) as (s' & E & H1 & _ & _ & H2 & _).
  exists s'. exact (conj E (conj H1 H2)).
Defined.

Lemma unknown_syscall_witness : exists s', syscall_entry (calls 99 0 0 0 0) parent = Ret (set_rax SYSERR_NOSYS (calls 99 0 0 0 0)) s' /\ untouched parent s'.
Proof.
  assert (Hc : current parent = Some 1) by (vm_compute; reflexivity).
  assert (Hd : ~ eff_dead (view parent) 1) by (apply alive_1; vm_compute; reflexivity).
  assert (Hr : returned (syscall_entry (calls 99 0 0 0 0)) parent = Some (set_rax SYSERR_NOSYS (calls 99 0 0 0 0))) by (vm_compute; reflexivity).
  destruct (at_return _ _ _ _ Hr (unknown_syscall parent 1 (runner 1) (calls 99 0 0 0 0) parent_ready Hc parent_thread Hd (or_intror eq_refl))) as (s' & E & _ & H).
  exists s'. exact (conj E H).
Defined.

(** The address a kernel access faulted at, if it did. *)
Definition faulted {A} (m : M A) (s : kstate) : option Z := match m s with Halt (HFault a) _ => Some a | _ => None end.

(** [user_range_ok] reads the page tree, which looks at 48 bits of the address: it accepts
    the address [2 ^ 48] above a user page, and the access itself faults in the kernel. *)
Lemma alias_faults : returned (user_range_ok 1 (2 ^ 48 + 4096) 1 false) parent = Some true /\
  faulted (syscall_entry (calls SYS_DEBUG_WRITE (2 ^ 48 + 4096) 1 0 0)) parent = Some (2 ^ 48 + 4096).
Proof. split; vm_compute; reflexivity. Qed.

(** Thread 1 ends its process while thread 2 runs on the other processor. *)
Definition leaving := both ++ [Call 1 SYS_PROC_EXIT 0 0 0 0; Turn 1].
Definition left := play leaving start.

Lemma left_ready : ready left.
Proof. unfold left. apply (played leaving). vm_compute. reflexivity. Qed.

Lemma dead_threads_end_witness : eff_dead (view left) 1 /\ gives_way (syscall_entry (calls SYS_GETPID 0 0 0 0)) left (fun s2 => ready s2 /\ k_threads s2 !! 2 = None).
Proof.
  assert (Hd : eff_dead (view left) 1) by (apply dead_here; vm_compute; reflexivity).
  assert (Hc : current left = Some 2) by (vm_compute; reflexivity).
  assert (HT : k_threads left !! 2 = Some (runner 2)) by (vm_compute; reflexivity).
  exact (conj Hd (dead_threads_end left 2 (runner 2) (calls SYS_GETPID 0 0 0 0) left_ready Hc HT Hd)).
Defined.

(** Thread 2 sleeps on a word of a block. *)
Definition sleeping := both ++ [Call 1 SYS_VM_ALLOC 4096 3 0 0; Turn 1; Call 2 SYS_FUTEX_WAIT 4096 0 (2 ^ 64 - 1) 0].
Definition asleep := play sleeping start.

Lemma asleep_ready : ready asleep.
Proof. unfold asleep. apply (played sleeping). vm_compute. reflexivity. Qed.

Lemma futex_wake_fifo_witness : exists s' k t, wake_batch 4096 1 asleep = Ret 1 s' /\ ready s' /\ waits asleep 4096 k t.
Proof.
  assert (Hr : returned (wake_batch 4096 1) asleep = Some 1) by (vm_compute; reflexivity).
  destruct (at_return _ _ _ _ Hr (futex_wake_fifo 4096 1 asleep asleep_ready)) as (s' & E & ks & ts & Hn & H1 & _ & _ & H2 & _).
  destruct H2 as [|k t ks ts Hw _]; [discriminate Hn|]. exists s', k, t. exact (conj E (conj H1 Hw)).
Defined.


End Stories.
